(* ===== verification/_CoqProject ===== *)
-Q . S2P
Prelude.v
PyStr.v
Utf8.v
Json.v
Exceptions.v
ValueObjects.v
Entities.v
Policies.v
Sha256.v
CodeGen.v
Cache.v
MemoryCache.v
Database.v
LinkRepo.v
RedisCache.v
RedisTheorems.v
UserRepo.v
IpAddress.v
Visitor.v
RollUp.v
Visits.v
VisitTheorems.v
UrlParse.v
OriginalUrl.v
UrlTheorems.v
UrlNormal.v
Links.v
Stats.v
Demo.v
LinkTheorems.v
Batch.v
BatchTheorems.v
Sessions.v
RateLimit.v
RedisLimit.v
Failover.v
Auth.v
AuthTheorems.v
AuthClaims.v
Admin.v
AdminTheorems.v
AdminClaims.v
LinkHistories.v
VisitHistory.v
RoleLoader.v
RoleTheorems.v
Journal.v
JournalTheorems.v
SecurityEvents.v
SecurityTheorems.v
WebRequest.v
WebAuth.v
Csrf.v
WebThrottle.v
WebErrors.v
WebApp.v
AuthViews.v
LinkViews.v
AdminViews.v
WebTheorems.v
WebClaims.v
AuthViewClaims.v
LinkViewClaims.v
LoggingChain.v
Health.v
AdminViewClaims.v
Config.v
ConfigFactory.v
ConfigTheorems.v
AuditRecords.v
AuditMasking.v
JournalViews.v
Mail.v
Compression.v
Languages.v
DashboardViews.v
Operations.v
Commands.v
Migrations.v
Bootstrap.v
