(* ===== verification/Prelude.v ===== *)
(** * A verification library for the MaizLink URL shortener

    The program ([src/src/link_shortener/]) is a Flask service in layers: a
    domain of value objects, entities and policies; use cases over ports; an
    infrastructure of SQLAlchemy repositories, caches, rate limiters, token
    services and logs; and a web layer of hooks and views.  This library models
    the use cases, the infrastructure they stand on and the way of a request
    through the hooks to the views, and proves what makes them correct.  Paths
    below are relative to that directory.

    ** The shape of the model

    A Python [str] is a list of code points ([PyStr]), [bytes] a list of
    integers below 256.  An operation that can raise answers [result exn]; one
    that touches the database, the cache, the clock, the audit log or the task
    queue is a function of the [World] in the state and error monad [M]
    (below), so an exception keeps the state it was raised in.  A table is the
    list of its rows; a unit of work is a working copy that [commit] publishes
    ([Database]).  One request runs at one instant ([w_now]); random draws and
    UUIDs are functions of a counter in the world.  Requests are atomic in the
    histories ([LinkHistories], [AdminClaims], [VisitHistory]), and
    interleaved step by step where the code relies on more than the
    database's transactions: token rotation ([Sessions], where the claim of a
    row and what its lock covers up to the commit are one step) and failover
    ([Failover]).  A history is one process's; the other processes that share
    the tables are a step that changes the tables as it likes within their
    constraints, and says which codes it may delete ([LinkHistories]).

    ** Files

    - [Prelude], [PyStr], [Utf8], [Json]: lists, options, the monad and its
      weakest preconditions ([wp], [wp_steps]); strings; the UTF-8 decoder and
      the JSON reader and writer with their round trips.
    - [Exceptions], [ValueObjects], [Entities], [Policies]:
      [domain/exceptions.py], [domain/value_objects/], [domain/entities/],
      [domain/policies/], [domain/system_permissions.py].
    - [Sha256], [CodeGen]: [infrastructure/policies/].
    - [UrlParse], [IpAddress]: the parts of [urllib.parse] and [ipaddress] the
      program uses.  [OriginalUrl] is [domain/value_objects/original_url.py];
      [UrlTheorems] and [UrlNormal] show that no spelling of an internal
      address is admitted and that the normal form is stable and keeps the
      target.
    - [Cache], [MemoryCache]: [application/ports/cache/],
      [application/utils/cache_key_builder.py], [infrastructure/cache/].  The
      class [CacheLaws] is what the theorems on links rely on; the in-memory
      and the null cache are shown to keep it.  Redis is shared by the
      processes and can fail, so it does not: its own theorems are in
      [RedisTheorems].
    - [RedisCache], [RedisTheorems], [RedisLimit]: the Redis cache with its
      sealed entries and pauses, and the Redis limiter's script and client.
    - [Database], [LinkRepo], [UserRepo]: [infrastructure/database/] with its
      unit of work, and [infrastructure/auth/rbac_authorization_service.py].
    - [Links], [LinkTheorems], [Demo]: [application/use_cases/links/].  The
      invariant [InvFor mine] ties this process's caches to the table for the
      codes of [mine], those whose rows no other process deletes ([Inv]: all
      codes); under it a redirect of such a code through two cache levels is
      one query of the table.  [LinkHistories]: all that happens to the links
      while one process runs, [step], and that it keeps the invariant.
    - [Stats]: figures of a link, an account and the service,
      with averages as doubles rounded to two places.
    - [Batch], [BatchTheorems]: [application/use_cases/batch/].
    - [Visitor], [RollUp], [Visits], [VisitTheorems], [VisitHistory]: what a
      visit remembers, the statistics over visits and the nightly fold; the
      charts refine the full log of visits.
    - [Sessions]: [infrastructure/auth/jwt_auth_service.py], refresh and
      sign-out.  [RateLimit]: [infrastructure/rate_limit/].
    - [Failover]: [infrastructure/failover/].
    - [Auth], [AuthTheorems], [AuthClaims]: [application/use_cases/auth/].
    - [Admin], [AdminTheorems], [AdminClaims]: [application/use_cases/admin/].
    - [RoleLoader], [RoleTheorems]: [infrastructure/database/role_loader.py] and
      the roles the service ships with.
    - [Journal], [JournalTheorems]: reading log files back
      ([infrastructure/logging/journal_reader.py] and its use case).
    - [SecurityEvents], [SecurityTheorems]: counting audit events and the
      charts over them.
    - [WebRequest], [WebAuth], [Csrf], [WebThrottle], [WebErrors], [WebApp]:
      [web/middleware/], [web/security/], [web/responses.py] and the order of
      the hooks in [web/app_factory.py].  A request is a record, [flask.g] the
      record [G], an answer a [Response]; [serve] is a whole request.
    - [AuthViews], [LinkViews], [AdminViews], [JournalViews],
      [DashboardViews]: the controllers of [web/controllers/] with their
      schemas; a page is its template and the values it is given.
    - [WebTheorems], [WebClaims], [AuthViewClaims], [LinkViewClaims],
      [AdminViewClaims]: what the hooks establish, and claims across requests.
    - [Compression], [Languages]: [web/middleware/compression.py] and the
      negotiation of [web/i18n.py].
    - [Config], [ConfigFactory], [ConfigTheorems]: [infrastructure/configs/app/]
      with the settings [infrastructure/di/] hands to the components.  A
      setting is a function of a profile and the environment that may raise;
      what validation reports is a value per sentence.
    - [AuditRecords], [AuditMasking]: what is written of an audit event, by
      either handler, and what of it is masked.  [LoggingChain]: the chains of
      loggers over [Failover].  [Bootstrap]: [infrastructure/logging/bootstrap.py],
      the loggers, their handlers and where a record goes.
    - [Health]: [infrastructure/health/] and the reports made of it; a probe
      takes its time or never ends.
    - [Mail]: [infrastructure/mail/] and the use cases that send, a session with
      the server being a trace.
    - [Operations], [Commands], [Migrations]: [infrastructure/cli/].  A command
      runs over a [Shell], the world and the lines it wrote, and ends with a
      status; a migration is a child process with its environment.

    ** What the theorems show

    Links: in one process, with the in-memory cache or none, a redirect
    answers what the table holds for a code no other process deletes, after
    any history of its requests and tasks; a code another process deleted is
    answered from the cache once more at most.  Creation stores a fresh link
    or reuses the oldest live one; a guest stays within the quota; deletion is
    authorised where ownership is enforced, and leaves nothing behind in the
    tables and in this process's cache.  Batches: one verdict per address;
    nothing stored on an error, and otherwise exactly the links the answer
    calls new; an end to the search for codes.  Destinations: [OriginalUrl]
    refuses every spelling of an internal IPv4 address.  Sessions: a refresh
    token is exchanged once, in every interleaving; a replayed token ends its
    chain.  Accounts: every outcome of signing in, confirming, resetting and
    changing; failures lock an address.  Administration: an administrator who
    can sign in remains, the sweep of unconfirmed accounts included, as long
    as no unconfirmed account is given [admin:all] (without that condition
    [unconfirmed_administrator_is_swept] shows the loss); nobody grants more
    than they hold or touches an account beyond their own privileges.  Failover: work never passes a
    service that answers, a call returns, rounds bring the work back.
    Statistics: charts read the log, whatever was folded or swept.  Journals:
    reading backwards in blocks is reading the file.  Redis: only what this
    service sealed is answered; the script is a sliding window.  Requests: every
    request is answered, failures discreetly; a view acts for a live account
    only; a write with cookies carries a token of its own account, and an
    allowed origin if it states one; a client address cannot be forged.  Across requests: the cookies of a sign-in let the
    browser write, a signed-out login is dead, a deletion token opens its link
    and no other, the two views of one link tell a stranger nothing of its
    owner and traffic.
    Roles: seeding only adds, and twice is once.  Administration and journals
    over HTTP: every view asks for its permission, and a reading is recorded.
    Configuration: a validated deployment has secrets somebody chose, a server
    behind it and no open origin, and the settings fit the components.  Audit:
    no line tells a mailbox or credentials, no audit record and no error is
    lost to a file that does not open.  Health: an observation keeps its
    budget.  Mail: secrets travel encrypted, a mailed link gives its token
    back.  Commands: a failure is said and undone, an administrator made at a
    shell signs in, addresses are lowered without merging accounts, migrations
    reach the configured database and no other.  Compression is transparent.

    ** Parameters

    What is not in the repository is a class or an argument, with the
    documented behaviour that is used as laws, and a concrete function in the
    witnesses: Unicode case folding ([CaseFolding], [CaseLaws]) and
    compatibility forms ([Nfkc]), the [idna] package ([Idna], [IdnaLaws]),
    [bcrypt], PyJWT ([TokenCodec], [JwtLaws]), [secrets], [uuid4], word characters of the
    regular expression engine and the decimal digits of Unicode
    ([DecimalDigits]), the Redis server ([RedisServer], [SortedSets]), the
    signer and the serializer of itsdangerous ([Signer], [Serializer]), the text
    of a time ([IsoFormat], [PydanticTime]), what pydantic says of a value it
    refuses ([PydanticText], [PydanticInt]), the limiter behind the throttle
    ([LimiterCheck]), the routes of the application, the services behind a
    failover; SQLAlchemy's URLs ([DatabaseUrls], [HidesPassword]), Babel's
    locales ([Babel], [LocaleNames]), upper case ([Uppercase]), [.env] files
    ([Dotenv]) and what the process finds outside the environment
    ([Deployment]); Jinja ([Templates], [Pages]), zlib ([Gzip]), Werkzeug's
    conditional answers ([Conditional]) and language matching ([AcceptLanguages]); the submission server; click's
    prompts ([Terminal]), the child processes of Alembic ([AlembicProcess]),
    and which files open.

    ** Bounds and fuel

    Loops that are not structural take fuel, always computed from the input:
    the length of the text or of the file for readers, the number of rows plus
    one for the chunked sweeps (each round deletes a row or ends), the number
    of rounds the settings allow for code generation, the number of services
    for a call.  Where fuel could run out the result is a value of its own and
    a theorem says it is not reached: the sweep of expired links, settling
    codes, a call of the failover, decoding, reading backwards.  SHA-256 runs on 32-bit words kept as integers
    with their wrap-around; times are integers of microseconds.

    ** Not modelled

    The text of the OpenAPI document, QR pictures, templates, the strings of
    the browser's scripts, the construction of the object graph and the
    facades that pass a call on, the Celery application and its schedule,
    structlog and the layout of a console line, database engines and
    migration scripts, the commands that only report on their surroundings: they move data in and out of what is modelled, or are
    text.  A refusal's sentence is what is handed to gettext, and the
    rendering of an error page is taken to succeed.  Measured
    processing times are left out of the answers that carry them.

    ** What modelling showed

    With the cache in the process, a code that another process deletes and
    issues again is answered with its old destination until the entry lapses
    ([LinkHistories]).  An account can die while a confirmation link sent later is still good
    ([ConfigTheorems]); a schema that hangs is outside the budget of a health
    check, and a limiter that hangs is reported as not enforcing ([Health]); a
    message may be sent twice when the server answers the goodbye oddly
    ([Mail]); a caller that refuses gzip is sent it ([Compression]); secrets
    written into a file that names one twice leave the old one in force
    ([Operations]); the listing of all users stops at a hundred ([Commands]);
    lines below an error are lost when only the application's journal does not
    open ([Bootstrap]). *)

From Stdlib Require Export ZArith Lia ssreflect.
From stdpp Require Export base tactics option list list_numbers sorting gmap strings numbers.

(** SSReflect rewriting with stdpp's closing tactic and the usual [if]. *)
Global Open Scope general_if_scope.
#[global] Set SsrOldRewriteGoalsOrder.
Ltac done := stdpp.tactics.done.
#[export] Set Warnings "-rewrite-rw".
Set Warnings "-rewrite-rw".

(** ** Outcomes *)

(** What a Python call does: it returns a value or raises.  The error type
    is a parameter; [Exceptions.exn] instantiates it for the domain. *)
Inductive result (E A : Type) : Type :=
| Ok (a : A)
| Err (e : E).
Arguments Ok {E A} a.
Arguments Err {E A} e.

Definition is_ok {E A} (r : result E A) : bool :=
  match r with Ok _ => true | Err _ => false end.

#[global] Instance result_ret E : MRet (result E) := λ A a, Ok a.
#[global] Instance result_bind E : MBind (result E) := λ A B k r,
  match r with Ok a => k a | Err e => Err e end.

#[global] Instance result_eq_dec {E A} `{EqDecision E, EqDecision A} :
  EqDecision (result E A).
Proof. solve_decision. Defined.

(** A guard: [raise e unless b]. *)
Definition require {E} (b : bool) (e : E) : result E unit :=
  if b then Ok tt else Err e.

Lemma require_ok {E} (b : bool) (e : E) : require b e = Ok tt ↔ b = true.
Proof. by destruct b. Qed.

Lemma require_err {E} (b : bool) (e : E) : require b e = Err e ↔ b = false.
Proof. by destruct b. Qed.

Lemma result_bind_ok {E A B} (r : result E A) (k : A → result E B) b :
  (r ≫= k) = Ok b ↔ ∃ a, r = Ok a ∧ k a = Ok b.
Proof.
  destruct r as [a|e]; split; [by eauto|by intros (?&[= ->]&?)|done|].
  by intros (?&?&?).
Qed.

(** Statements run in order until one raises. *)
Fixpoint all_ok {E} (checks : list (result E unit)) : result E unit :=
  match checks with
  | [] => Ok tt
  | c :: cs => c ≫= λ _, all_ok cs
  end.

(** ** Effects *)

(** Code that reads and writes a state and may raise.  A raised exception
    keeps the state it was raised in: a commit made before it stands. *)
Definition M (S E A : Type) : Type := S → result E A * S.

#[global] Instance M_ret S E : MRet (M S E) := λ A a s, (Ok a, s).
#[global] Instance M_bind S E : MBind (M S E) := λ A B k m s,
  match m s with
  | (Ok a, s') => k a s'
  | (Err e, s') => (Err e, s')
  end.

Definition raise {S E A} (e : E) : M S E A := λ s, (Err e, s).
Definition gets {S E A} (f : S → A) : M S E A := λ s, (Ok (f s), s).
Definition modify {S E} (f : S → S) : M S E unit := λ s, (Ok tt, f s).
Definition lift {S E A} (r : result E A) : M S E A := λ s, (r, s).

(** [try: m except e: h e]. *)
Definition try_except {S E A} (m : M S E A) (h : E → M S E A) : M S E A :=
  λ s, match m s with
       | (Ok a, s') => (Ok a, s')
       | (Err e, s') => h e s'
       end.

(** [for x in xs: body x]. *)
Fixpoint for_each {S E A} (body : A → M S E unit) (xs : list A) : M S E unit :=
  match xs with
  | [] => mret tt
  | x :: xs => body x ≫= λ _, for_each body xs
  end.

Section monad.
Context {S E : Type}.
Implicit Types (s : S) (e : E).

Lemma bind_ok {A B} (m : M S E A) (k : A → M S E B) s a s' :
  m s = (Ok a, s') → (m ≫= k) s = k a s'.
Proof. intros H. by rewrite /mbind /M_bind H. Qed.

Lemma bind_err {A B} (m : M S E A) (k : A → M S E B) s e s' :
  m s = (Err e, s') → (m ≫= k) s = (Err e, s').
Proof. intros H. by rewrite /mbind /M_bind H. Qed.

Lemma bind_ok_inv {A B} (m : M S E A) (k : A → M S E B) s b s' :
  (m ≫= k) s = (Ok b, s') → ∃ a s1, m s = (Ok a, s1) ∧ k a s1 = (Ok b, s').
Proof. rewrite /mbind /M_bind. destruct (m s) as [[a|e] s1]; [by eauto|done]. Qed.

Lemma bind_assoc {A B C} (m : M S E A) (k : A → M S E B) (l : B → M S E C) s :
  ((m ≫= k) ≫= l) s = (m ≫= λ a, k a ≫= l) s.
Proof. rewrite /mbind /M_bind. by destruct (m s) as [[a|e] s1]. Qed.

Lemma bind_ret_l {A B} (a : A) (k : A → M S E B) s : (mret a ≫= k) s = k a s.
Proof. done. Qed.

(** Invariant reasoning over a loop. *)
Lemma for_each_inv {A} (P : S → Prop) (body : A → M S E unit) xs s :
  (∀ x s, x ∈ xs → P s → P (body x s).2) → P s → P (for_each body xs s).2.
Proof.
  revert s; induction xs as [|x xs IH]; intros s Hb HP; [done|]; simpl.
  rewrite /mbind /M_bind. destruct (body x s) as [[[]|e] s1] eqn:Hx.
  - apply IH; [intros; apply Hb; [set_solver|done]|].
    specialize (Hb x s ltac:(set_solver) HP). by rewrite Hx in Hb.
  - specialize (Hb x s ltac:(set_solver) HP). by rewrite Hx in Hb.
Qed.
End monad.

(** ** Reasoning about effects *)

(** [wp m Q s]: the run of [m] from [s] ends as [Q] says. *)
Definition wp {S E A} (m : M S E A) (Q : result E A → S → Prop) (s : S) : Prop :=
  Q (m s).1 (m s).2.

Section wp.
Context {S E : Type}.
Implicit Types (s : S) (e : E).

Lemma wp_elim {A} (m : M S E A) Q s r s' : wp m Q s → m s = (r, s') → Q r s'.
Proof. rewrite /wp. intros H Hm. by rewrite Hm in H. Qed.

Lemma wp_mono {A} (m : M S E A) (Q R : result E A → S → Prop) s :
  wp m Q s → (∀ r s', Q r s' → R r s') → wp m R s.
Proof. rewrite /wp. auto. Qed.

Lemma wp_ret {A} (a : A) (Q : result E A → S → Prop) s : Q (Ok a) s → wp (mret a) Q s.
Proof. done. Qed.
Lemma wp_raise {A} e (Q : result E A → S → Prop) s : Q (Err e) s → wp (raise e) Q s.
Proof. done. Qed.
Lemma wp_lift {A} (r : result E A) (Q : result E A → S → Prop) s : Q r s → wp (lift r) Q s.
Proof. done. Qed.
Lemma wp_gets {A} (f : S → A) (Q : result E A → S → Prop) s : Q (Ok (f s)) s → wp (gets f) Q s.
Proof. done. Qed.
Lemma wp_modify f (Q : result E unit → S → Prop) s : Q (Ok tt) (f s) → wp (modify f) Q s.
Proof. done. Qed.

Lemma wp_bind {A B} (m : M S E A) (k : A → M S E B) Q s :
  wp m (λ r s', match r with Ok a => wp (k a) Q s' | Err e => Q (Err e) s' end) s →
  wp (m ≫= k) Q s.
Proof. rewrite /wp /mbind /M_bind. by destruct (m s) as [[a|e] s']. Qed.

Lemma wp_try {A} (m : M S E A) (h : E → M S E A) Q s :
  wp m (λ r s', match r with Ok a => Q (Ok a) s' | Err e => wp (h e) Q s' end) s →
  wp (try_except m h) Q s.
Proof. rewrite /wp /try_except. by destruct (m s) as [[a|e] s']. Qed.

(** A loop whose body never raises and keeps [I]; [I] may speak of the
    elements done so far. *)
Lemma wp_for_each {A} (I : list A → S → Prop) (body : A → M S E unit) xs
    (Q : result E unit → S → Prop) s :
  (∀ done x s, I done s → wp (body x) (λ r s', r = Ok tt ∧ I (done ++ [x]) s') s) →
  I [] s → (∀ s', I xs s' → Q (Ok tt) s') → wp (for_each body xs) Q s.
Proof.
  intros Hbody Hs HQ. rewrite -(app_nil_l xs) in HQ. revert HQ Hs.
  generalize (@nil A) as pre. revert s.
  induction xs as [|x xs IH]; intros s pre HQ Hpre; simpl.
  - apply wp_ret, HQ. by rewrite app_nil_r.
  - apply wp_bind. eapply wp_mono; [by apply Hbody|]. intros r s' [-> Hs'].
    apply (IH s' (pre ++ [x])); [|done]. intros s2. rewrite -app_assoc. apply HQ.
Qed.
End wp.

(** ** Automation *)

(** [tables] holds the facts about query results and table updates that the
    components' proofs close routine goals with. *)
Create HintDb tables.

(** Split every [if]/[match] of the goal and the hypotheses. *)
Ltac split_cases := repeat (case_match || case_decide); simplify_eq/=.

(** Turn boolean tests into the propositions they decide. *)
Ltac reflect_bools :=
  repeat match goal with
  | H : bool_decide _ = true |- _ => apply bool_decide_eq_true in H
  | H : bool_decide _ = false |- _ => apply bool_decide_eq_false in H
  | H : Is_true _ |- _ => apply Is_true_true in H
  | H : (_ && _)%bool = true |- _ => apply andb_true_iff in H as [??]
  | H : (_ || _)%bool = false |- _ => apply orb_false_iff in H as [??]
  | H : negb _ = true |- _ => apply negb_true_iff in H
  | H : negb _ = false |- _ => apply negb_false_iff in H
  | H : (_ <? _)%Z = true |- _ => apply Z.ltb_lt in H
  | H : (_ <? _)%Z = false |- _ => apply Z.ltb_ge in H
  | H : (_ <=? _)%Z = true |- _ => apply Z.leb_le in H
  | H : (_ <=? _)%Z = false |- _ => apply Z.leb_gt in H
  | H : (_ =? _)%Z = true |- _ => apply Z.eqb_eq in H
  | H : (_ =? _)%Z = false |- _ => apply Z.eqb_neq in H
  end.

(** Run the program at the head of a [wp] goal, up to a choice it makes. *)
Ltac wp_prim := fail.
Ltac wp_step :=
  lazymatch goal with
  | |- wp (mbind _ _) _ _ => apply wp_bind
  | |- wp (mret _) _ _ => apply wp_ret
  | |- wp (raise _) _ _ => apply wp_raise
  | |- wp (lift _) _ _ => apply wp_lift
  | |- wp (gets _) _ _ => apply wp_gets
  | |- wp (modify _) _ _ => apply wp_modify
  | |- wp (try_except _ _) _ _ => apply wp_try
  | |- wp _ _ _ => wp_prim
  end; cbn beta iota.
Ltac wp_steps := repeat wp_step.

(** Step through a successful monadic run in hypothesis [H]. *)
Ltac run_inv H :=
  repeat match type of H with
  | (_ ≫= _) _ = (Ok _, _) =>
      let a := fresh "a" in let s := fresh "s" in let Hm := fresh "Hrun" in
      apply bind_ok_inv in H as (a & s & Hm & H)
  end.

(** ** Tables as lists of rows *)

(** [query.first()] on a selection. *)
Definition first {A} (l : list A) : option A := head l.

(** Set a column on the rows a condition selects ([query.update]). *)
Definition update_where {A} (P : A → Prop) `{∀ x, Decision (P x)} (f : A → A)
    (l : list A) : list A :=
  (λ x, if decide (P x) then f x else x) <$> l.

(** Rows the update touched: the count [query.update] returns. *)
Definition count_where {A} (P : A → Prop) `{∀ x, Decision (P x)} (l : list A) : nat :=
  length (filter P l).

(** [query.delete]: keep the rows the condition does not select. *)
Definition delete_where {A} (P : A → Prop) `{∀ x, Decision (P x)} (l : list A) : list A :=
  filter (λ x, ¬ P x) l.

Lemma fmap_sublist_of {A B} (f : A → B) (l1 l2 : list A) :
  l1 `sublist_of` l2 → f <$> l1 `sublist_of` f <$> l2.
Proof. induction 1; simpl; by constructor. Qed.

Lemma Exists_elem {A} (P : A → Prop) (l : list A) : Exists P l ↔ ∃ x, x ∈ l ∧ P x.
Proof. rewrite List.Exists_exists. by setoid_rewrite list_elem_of_In. Qed.

Lemma Forall_elem {A} (P : A → Prop) (l : list A) : Forall P l ↔ ∀ x, x ∈ l → P x.
Proof. rewrite List.Forall_forall. by setoid_rewrite list_elem_of_In. Qed.

(** Selections that agree on a table's rows. *)
Lemma filter_ext_elem {A} (P Q : A → Prop) `{∀ x, Decision (P x)} `{∀ x, Decision (Q x)}
    (l : list A) : (∀ x, x ∈ l → P x ↔ Q x) → filter P l = filter Q l.
Proof.
  induction l as [|x l IH]; [done|]. intros Hpq. rewrite !filter_cons IH; [|set_solver].
  assert (P x ↔ Q x) by (apply Hpq; set_solver). repeat case_decide; tauto.
Qed.

Lemma filter_all {A} (P : A → Prop) `{∀ x, Decision (P x)} (l : list A) :
  (∀ x, x ∈ l → P x) → filter P l = l.
Proof.
  induction l as [|x l IH]; [done|]. intros HP. rewrite filter_cons IH; [|set_solver].
  rewrite decide_True //. set_solver.
Qed.

Lemma filter_none {A} (P : A → Prop) `{∀ x, Decision (P x)} (l : list A) :
  (∀ x, x ∈ l → ¬ P x) → filter P l = [].
Proof.
  induction l as [|x l IH]; [done|]. intros HP. rewrite filter_cons IH; [|set_solver].
  rewrite decide_False //. set_solver.
Qed.

(** A key without duplicates identifies its row. *)
Lemma key_eq {A K} (key : A → K) (t : list A) a b :
  NoDup (key <$> t) → a ∈ t → b ∈ t → key a = key b → a = b.
Proof.
  intros Hnd [i Hi]%list_elem_of_lookup [j Hj]%list_elem_of_lookup Heq.
  assert (i = j) as ->; [|congruence].
  eapply (NoDup_lookup (key <$> t)); [done| |]; rewrite list_lookup_fmap.
  - by rewrite Hi.
  - by rewrite Hj /= Heq.
Qed.

Section tables.
Context {A : Type} (P : A → Prop) `{HP : ∀ x, Decision (P x)}.
Implicit Types (l : list A) (x : A).

Lemma first_filter_Some l x : first (filter P l) = Some x → x ∈ l ∧ P x.
Proof.
  intros H. assert (Hx : x ∈ filter P l).
  { destruct (filter P l) as [|y k]; simplify_eq/=. set_solver. }
  apply list_elem_of_filter in Hx. tauto.
Qed.

Lemma first_filter_None l : first (filter P l) = None ↔ ∀ x, x ∈ l → ¬ P x.
Proof.
  split.
  - intros H x Hx HPx. assert (x ∈ filter P l) by (by apply list_elem_of_filter).
    destruct (filter P l); [set_solver|done].
  - intros H. destruct (filter P l) as [|y k] eqn:E; [done|].
    assert (y ∈ filter P l) as Hy by (rewrite E; set_solver).
    apply list_elem_of_filter in Hy as [??]. by destruct (H y).
Qed.

(** Selecting on a unique key finds the row that has it. *)
Lemma first_filter_unique {K} (key : A → K) l x :
  NoDup (key <$> l) → x ∈ l → P x → (∀ y, P y → key y = key x) →
  first (filter P l) = Some x.
Proof.
  intros Hnd Hx HPx Hkey. destruct (first (filter P l)) as [y|] eqn:E.
  - apply first_filter_Some in E as [Hy HPy]. f_equal.
    apply list_elem_of_lookup in Hx as [i Hi].
    apply list_elem_of_lookup in Hy as [j Hj].
    assert (i = j) as ->; [|congruence].
    eapply (NoDup_lookup (key <$> l)); [done| |].
    + rewrite list_lookup_fmap Hi //=.
    + rewrite list_lookup_fmap Hj /= (Hkey y) //.
  - by destruct (proj1 (first_filter_None l) E x).
Qed.

Lemma elem_of_delete_where l x : x ∈ delete_where P l ↔ x ∈ l ∧ ¬ P x.
Proof. rewrite /delete_where list_elem_of_filter. tauto. Qed.

Lemma delete_where_sublist l : delete_where P l `sublist_of` l.
Proof. apply sublist_filter. Qed.

Lemma elem_of_update_where (f : A → A) l y :
  y ∈ update_where P f l ↔ ∃ x, x ∈ l ∧ y = if decide (P x) then f x else x.
Proof.
  rewrite /update_where list_elem_of_fmap.
  split; intros (x & ? & ?); exists x; done.
Qed.

Lemma length_update_where (f : A → A) l : length (update_where P f l) = length l.
Proof. apply length_fmap. Qed.

(** An update that keeps a column keeps the column's values. *)
Lemma update_where_key {K} (key : A → K) (f : A → A) l :
  (∀ x, key (f x) = key x) → key <$> update_where P f l = key <$> l.
Proof.
  intros Hf. rewrite /update_where -list_fmap_compose.
  apply list_fmap_ext. intros ? x _. simpl. by case_decide.
Qed.

Lemma NoDup_delete_where {K} (key : A → K) l :
  NoDup (key <$> l) → NoDup (key <$> delete_where P l).
Proof.
  intros Hnd. eapply sublist_NoDup; [exact Hnd|].
  apply fmap_sublist_of, delete_where_sublist.
Qed.

Lemma count_where_zero l : count_where P l = 0 ↔ ∀ x, x ∈ l → ¬ P x.
Proof.
  rewrite /count_where. rewrite -first_filter_None.
  destruct (filter P l); simpl; split; done.
Qed.

Lemma count_where_delete l : count_where P l + length (delete_where P l) = length l.
Proof.
  rewrite /count_where /delete_where. induction l as [|x l IH]; [done|].
  rewrite !filter_cons. repeat case_decide; simpl; try lia; tauto.
Qed.
(** An update that keeps the rows it selects selected leaves the others. *)
Lemma filter_update_others (f : A → A) l :
  (∀ x, P x → P (f x)) → filter (λ x, ¬ P x) (update_where P f l) = filter (λ x, ¬ P x) l.
Proof.
  intros Hf. rewrite /update_where. induction l as [|x l IH]; [done|].
  rewrite fmap_cons !filter_cons IH. destruct (decide (P x)) as [Hx|Hx]; [|done].
  rewrite !decide_False //; auto.
Qed.

Lemma count_where_app l l' : count_where P (l ++ l') = count_where P l + count_where P l'.
Proof. by rewrite /count_where list.filter_app length_app. Qed.
End tables.

(** A narrower condition selects no more rows. *)
Lemma count_where_mono {A} (P Q : A → Prop) `{∀ x, Decision (P x)} `{∀ x, Decision (Q x)}
    (l : list A) : (∀ x, x ∈ l → P x → Q x) → count_where P l ≤ count_where Q l.
Proof.
  rewrite /count_where. induction l as [|x l IH]; [done|]. intros Hpq. rewrite !filter_cons.
  assert (P x → Q x) by (apply Hpq; set_solver).
  assert (length (filter P l) ≤ length (filter Q l)) by (apply IH; set_solver).
  repeat case_decide; simpl; tauto || lia.
Qed.

#[export] Hint Resolve NoDup_delete_where delete_where_sublist : tables.
