(* ===== verification/PyStr.v ===== *)
(** * Python strings

    A Python [str] is a sequence of Unicode code points, so it is a list of
    integers here.  The file defines the [str] methods the sources call:
    [lower], [strip], [rstrip], [startswith], [endswith], [in], [split],
    [partition], [rpartition], [join], the ordering [sorted] uses, and the
    UTF-8 encoding the password rule and the digests measure.

    Case folding outside ASCII is a table of the Unicode database that the
    interpreter carries; it is the class [CaseFolding], and every definition
    that lowers a string takes it.  CPython takes the ASCII path for an
    all-ASCII string, which is the path written out here. *)

From S2P Require Import Prelude.

Abbreviation pystr := (list Z).

Open Scope Z_scope.

(** An ASCII literal of the sources. *)
Fixpoint lit (s : string) : pystr :=
  match s with
  | EmptyString => []
  | String a s => Z.of_N (Ascii.N_of_ascii a) :: lit s
  end.

Arguments lit !s%_string_scope /.

Definition COLON : Z := 58.
Definition DOT : Z := 46.
Definition HYPHEN : Z := 45.
Definition UNDERSCORE : Z := 95.
Definition AT_SIGN : Z := 64.
Definition SLASH : Z := 47.

(** ** Character classes *)

Definition is_digit (c : Z) : bool := (48 <=? c) && (c <=? 57).
Definition is_upper (c : Z) : bool := (65 <=? c) && (c <=? 90).
Definition is_lower (c : Z) : bool := (97 <=? c) && (c <=? 122).
Definition is_alpha (c : Z) : bool := is_upper c || is_lower c.
Definition is_alnum (c : Z) : bool := is_alpha c || is_digit c.
Definition is_ascii (c : Z) : bool := (0 <=? c) && (c <? 128).
Definition isascii (s : pystr) : bool := forallb is_ascii s.

(** [str.isspace], which [str.strip] and [\s] of [re] use: the code points
    with bidirectional class B, S or WS, or category Zs. *)
Definition is_space (c : Z) : bool :=
  ((9 <=? c) && (c <=? 13)) || ((28 <=? c) && (c <=? 32))
  || (c =? 133) || (c =? 160) || (c =? 5760)
  || ((8192 <=? c) && (c <=? 8202)) || (c =? 8232) || (c =? 8233)
  || (c =? 8239) || (c =? 8287) || (c =? 12288).

(** ** Case *)

(** The interpreter's Unicode case table: [str.lower] on a string that is
    not all ASCII. *)
Class CaseFolding := unicode_lower : pystr → pystr.

Definition ascii_lower (c : Z) : Z := if is_upper c then c + 32 else c.

Definition lower `{CaseFolding} (s : pystr) : pystr :=
  if isascii s then ascii_lower <$> s else unicode_lower s.

Lemma ascii_lower_idemp c : ascii_lower (ascii_lower c) = ascii_lower c.
Proof.
  rewrite /ascii_lower /is_upper. repeat case_match; lia.
Qed.

Lemma ascii_lower_is_ascii c : is_ascii (ascii_lower c) = is_ascii c.
Proof.
  rewrite /ascii_lower /is_upper /is_ascii. case_match; lia.
Qed.

Lemma isascii_app s t : isascii (s ++ t) = isascii s && isascii t.
Proof. apply forallb_app. Qed.
Lemma isascii_lower `{CaseFolding} s : isascii s = true → isascii (lower s) = true.
Proof.
  rewrite /lower => Hs. rewrite Hs /isascii.
  induction s as [|c s IH]; [done|]; simpl in *.
  reflect_bools. rewrite ascii_lower_is_ascii. apply andb_true_iff. auto.
Qed.

Lemma lower_idemp_ascii `{CaseFolding} s :
  isascii s = true → lower (lower s) = lower s.
Proof.
  intros Hs. rewrite {1}/lower isascii_lower // /lower Hs -list_fmap_compose.
  apply list_fmap_ext => ? c _. apply ascii_lower_idemp.
Qed.

(** ** Trimming *)

Fixpoint lstrip_by (p : Z → bool) (s : pystr) : pystr :=
  match s with
  | [] => []
  | c :: s' => if p c then lstrip_by p s' else s
  end.
Definition rstrip_by (p : Z → bool) (s : pystr) : pystr :=
  reverse (lstrip_by p (reverse s)).
Definition strip (s : pystr) : pystr := rstrip_by is_space (lstrip_by is_space s).

(** [not s.strip()]: nothing is left of a string made of white space only. *)
Definition is_blank (s : pystr) : bool := forallb is_space s.

Lemma lstrip_by_nil p s : lstrip_by p s = [] ↔ forallb p s = true.
Proof. induction s as [|c s IH]; simpl; [done|]. by destruct (p c). Qed.

Lemma lstrip_by_hd p c s s' : lstrip_by p s = c :: s' → p c = false.
Proof.
  induction s as [|d s IH]; simpl; [done|].
  destruct (p d) eqn:E; [done|]. congruence.
Qed.

Lemma strip_nil s : strip s = [] ↔ is_blank s = true.
Proof.
  rewrite /strip /is_blank -lstrip_by_nil /rstrip_by.
  destruct (lstrip_by is_space s) as [|c s'] eqn:E; [done|].
  split; [|done]. intros H%(f_equal reverse).
  rewrite reverse_involutive reverse_nil lstrip_by_nil in H.
  apply lstrip_by_hd in E. rewrite forallb_forall in H.
  rewrite (H c) in E; [done|]. apply list_elem_of_In. set_solver.
Qed.

(** ** Searching and cutting *)

Fixpoint startswith (p s : pystr) : bool :=
  match p, s with
  | [], _ => true
  | a :: p, b :: s => (a =? b) && startswith p s
  | _ :: _, [] => false
  end.
Definition endswith (p s : pystr) : bool := startswith (reverse p) (reverse s).
Definition has_char (c : Z) (s : pystr) : bool := existsb (Z.eqb c) s.

Lemma startswith_spec p s : startswith p s = true ↔ ∃ t, s = p ++ t.
Proof.
  revert s; induction p as [|a p IH]; intros s; simpl; [split; [by exists s|done]|].
  destruct s as [|b s]; [split; [done|by intros [? [=]]]|].
  rewrite andb_true_iff Z.eqb_eq IH. split.
  - intros [-> [t ->]]. by exists t.
  - intros [t [= -> ->]]. split; [done|]. by exists t.
Qed.

Lemma endswith_spec p s : endswith p s = true ↔ ∃ t, s = t ++ p.
Proof.
  rewrite /endswith startswith_spec. split.
  - intros [t H%(f_equal reverse)]. exists (reverse t).
    by rewrite reverse_app !reverse_involutive in H.
  - intros [t ->]. exists (reverse t). by rewrite reverse_app.
Qed.

Lemma has_char_spec c s : has_char c s = true ↔ c ∈ s.
Proof.
  rewrite /has_char existsb_exists. split.
  - intros (d & Hd & ->%Z.eqb_eq). by apply list_elem_of_In.
  - intros Hc. exists c. split; [by apply list_elem_of_In|]. apply Z.eqb_refl.
Qed.

(** [s.partition(c)]: text before the first [c], whether it is there, text
    after it. *)
Fixpoint partition_at (c : Z) (s : pystr) : pystr * bool * pystr :=
  match s with
  | [] => ([], false, [])
  | d :: s' =>
      if d =? c then ([], true, s')
      else let '(a, found, b) := partition_at c s' in (d :: a, found, b)
  end.

(** [s.split(c)]. *)
Fixpoint split_on (c : Z) (s : pystr) : list pystr :=
  match s with
  | [] => [[]]
  | d :: s' =>
      if d =? c then [] :: split_on c s'
      else match split_on c s' with
           | w :: ws => (d :: w) :: ws
           | [] => [[d]]
           end
  end.

(** [sep.join(parts)]. *)
Fixpoint join (sep : pystr) (parts : list pystr) : pystr :=
  match parts with
  | [] => []
  | [p] => p
  | p :: ps => p ++ sep ++ join sep ps
  end.

Lemma split_on_nonempty c s : split_on c s ≠ [].
Proof. destruct s; simpl; [done|]. repeat case_match; done. Qed.

Lemma join_split c s : join [c] (split_on c s) = s.
Proof.
  induction s as [|d s IH]; simpl; [done|].
  destruct (d =? c) eqn:E.
  - reflect_bools; subst. destruct (split_on c s) eqn:Es; [by apply split_on_nonempty in Es|].
    simpl in *. by rewrite IH.
  - destruct (split_on c s) as [|w ws] eqn:Es; [by apply split_on_nonempty in Es|].
    rewrite -{}IH. by destruct ws.
Qed.

Lemma split_on_no c s : c ∉ s → split_on c s = [s].
Proof.
  induction s as [|d s IH]; intros Hc; [done|]; simpl.
  destruct (d =? c) eqn:E; [reflect_bools; set_solver|].
  rewrite IH //. set_solver.
Qed.

Lemma split_on_app c s t : c ∉ s → split_on c (s ++ c :: t) = s :: split_on c t.
Proof.
  induction s as [|d s IH]; intros Hc; simpl; [by rewrite Z.eqb_refl|].
  destruct (d =? c) eqn:E; [reflect_bools; set_solver|].
  rewrite IH //. set_solver.
Qed.

(** ** Ordering: code point by code point, as [sorted] compares [str] *)

Fixpoint str_le (a b : pystr) : bool :=
  match a, b with
  | [], _ => true
  | _ :: _, [] => false
  | x :: a, y :: b => (x <? y) || ((x =? y) && str_le a b)
  end.

Lemma str_le_total a b : str_le a b || str_le b a = true.
Proof.
  revert b; induction a as [|x a IH]; intros [|y b]; simpl; try done.
  specialize (IH b). destruct (x <? y) eqn:?, (x =? y) eqn:?, (y <? x) eqn:?, (y =? x) eqn:?;
    simpl; try done; lia.
Qed.

Lemma str_le_refl a : str_le a a = true.
Proof. induction a as [|x a IH]; simpl; [done|]. rewrite IH. lia. Qed.

Lemma str_le_trans a b c : str_le a b = true → str_le b c = true → str_le a c = true.
Proof.
  revert b c; induction a as [|x a IH]; intros [|y b] [|z c]; simpl; try done.
  rewrite !orb_true_iff !andb_true_iff. intros [?|[? H1]] [?|[? H2]]; try (left; lia).
  right. split; [lia|by eapply IH].
Qed.

Lemma str_le_antisym a b : str_le a b = true → str_le b a = true → a = b.
Proof.
  revert b; induction a as [|x a IH]; intros [|y b]; simpl; try done.
  rewrite !orb_true_iff !andb_true_iff. intros [?|[? ?]] [?|[? ?]]; try lia.
  f_equal; [lia|]. by apply IH.
Qed.

Definition str_leP (a b : pystr) : Prop := str_le a b = true.
#[global] Instance str_leP_dec : RelDecision str_leP.
Proof. intros a b. unfold str_leP. apply _. Defined.
#[global] Instance str_leP_total : Total str_leP.
Proof.
  intros a b. pose proof (str_le_total a b) as H. unfold str_leP.
  apply orb_true_iff in H. tauto.
Qed.
#[global] Instance str_leP_trans : Transitive str_leP.
Proof. intros a b c. apply str_le_trans. Qed.

(** [sorted(names)]. *)
Definition sorted (l : list pystr) : list pystr := merge_sort str_leP l.

Lemma elem_of_sorted x l : x ∈ sorted l ↔ x ∈ l.
Proof. by rewrite /sorted merge_sort_Permutation. Qed.

(** ** UTF-8 *)

(** The bytes of a code point; a lone surrogate has no encoding, and
    [str.encode] raises on it. *)
Definition utf8_char (c : Z) : option (list Z) :=
  if c <? 128 then Some [c]
  else if c <? 2048 then
    Some [192 + Z.shiftr c 6; 128 + Z.land c 63]
  else if (55296 <=? c) && (c <=? 57343) then None
  else if c <? 65536 then
    Some [224 + Z.shiftr c 12; 128 + Z.land (Z.shiftr c 6) 63; 128 + Z.land c 63]
  else
    Some [240 + Z.shiftr c 18; 128 + Z.land (Z.shiftr c 12) 63;
          128 + Z.land (Z.shiftr c 6) 63; 128 + Z.land c 63].

(** [s.encode("utf-8")]. *)
Fixpoint utf8_encode (s : pystr) : option (list Z) :=
  match s with
  | [] => Some []
  | c :: s => b ← utf8_char c; bs ← utf8_encode s; Some (b ++ bs)
  end.

Definition len {A} (s : list A) : Z := Z.of_nat (length s).

Lemma len_nonneg {A} (s : list A) : 0 <= len s.
Proof. rewrite /len. lia. Qed.

Lemma utf8_char_width c b : utf8_char c = Some b → 1 <= len b <= 4.
Proof. rewrite /utf8_char /len. repeat case_match; intros [= <-]; simpl; lia. Qed.

(** A string never encodes into fewer bytes than it has characters. *)
Lemma utf8_encode_bounds s b : utf8_encode s = Some b → len s <= len b <= 4 * len s.
Proof.
  revert b; induction s as [|c s IH]; intros b; simpl; [by intros [= <-]|].
  destruct (utf8_char c) as [w|] eqn:Hw; [|done]. simpl.
  destruct (utf8_encode s) as [m|]; [|done]. simpl. intros [= <-].
  apply utf8_char_width in Hw. specialize (IH m eq_refl).
  rewrite /len in Hw IH |- *. rewrite length_app /=. lia.
Qed.

Lemma utf8_encode_ascii s : isascii s = true → utf8_encode s = Some s.
Proof.
  induction s as [|c s IH]; [done|]; simpl. intros H. reflect_bools.
  rewrite IH // /utf8_char. assert ((c <? 128) = true) as -> by (rewrite /is_ascii in H; lia).
  done.
Qed.

(** Decimal text of a non-negative integer ([str(n)] in an f-string). *)
Fixpoint decimal_digits (fuel : nat) (n : Z) : pystr :=
  match fuel with
  | O => []
  | S fuel => if n <? 10 then [48 + n] else decimal_digits fuel (n / 10) ++ [48 + n mod 10]
  end.
Definition str_of_Z (n : Z) : pystr :=
  if n <? 0 then HYPHEN :: decimal_digits (S (Z.to_nat (Z.log2 (- n)))) (- n)
  else decimal_digits (S (Z.to_nat (Z.log2 n))) n.
