(* ===== verification/Utf8.v ===== *)
(** * [bytes.decode("utf-8", errors="replace")]

    The decoder of the standard library: a sequence it cannot read is
    replaced by U+FFFD, one for each longest run of bytes that could still
    have become a character.  What the journal reader needs of it is that a
    newline is never part of another character ([decode_newline]), so that
    decoding and cutting into lines commute. *)

From S2P Require Import Prelude PyStr.

Definition NEWLINE : Z := 10.
Definition REPLACEMENT : Z := 65533.

(** The second byte a first byte admits, and how many follow it. *)
Definition second_range (b : Z) : option (Z * Z * nat) :=
  if (194 <=? b) && (b <=? 223) then Some (128, 191, 0%nat)
  else if b =? 224 then Some (160, 191, 1%nat)
  else if b =? 237 then Some (128, 159, 1%nat)
  else if (225 <=? b) && (b <=? 239) then Some (128, 191, 1%nat)
  else if b =? 240 then Some (144, 191, 2%nat)
  else if b =? 244 then Some (128, 143, 2%nat)
  else if (241 <=? b) && (b <=? 243) then Some (128, 191, 2%nat)
  else None.

(** Continuation bytes, up to [n]: the character, or a replacement where the
    sequence breaks off, and the bytes still to read. *)
Fixpoint continuation (n : nat) (acc : Z) (bs : list Z) : Z * list Z :=
  match n with
  | O => (acc, bs)
  | S n =>
      match bs with
      | [] => (REPLACEMENT, [])
      | b :: rest =>
          if (128 <=? b) && (b <=? 191) then continuation n (acc * 64 + (b - 128)) rest
          else (REPLACEMENT, b :: rest)
      end
  end.

(** The payload bits of a first byte. *)
Definition lead_bits (b : Z) : Z := if b <? 224 then b - 192 else if b <? 240 then b - 224 else b - 240.

Definition decode_one (b : Z) (bs : list Z) : Z * list Z :=
  if b <? 128 then (b, bs)
  else match second_range b with
       | None => (REPLACEMENT, bs)
       | Some (lo, hi, more) =>
           match bs with
           | [] => (REPLACEMENT, [])
           | c :: rest =>
               if (lo <=? c) && (c <=? hi)
               then continuation more (lead_bits b * 64 + (c - 128)) rest
               else (REPLACEMENT, c :: rest)
           end
       end.

Fixpoint decode_from (fuel : nat) (bs : list Z) : pystr :=
  match fuel, bs with
  | O, _ | _, [] => []
  | S fuel, b :: bs => let '(c, rest) := decode_one b bs in c :: decode_from fuel rest
  end.

(** Each step reads a byte: as much fuel as there are bytes is enough. *)
Definition decode (bs : list Z) : pystr := decode_from (length bs) bs.

Lemma continuation_shrinks n acc bs : (length (continuation n acc bs).2 <= length bs)%nat.
Proof.
  revert acc bs. induction n as [|n IH]; intros acc [|b bs]; simpl; [done..|].
  case_match; simpl; [|lia]. etrans; [apply IH|lia].
Qed.

Lemma decode_one_shrinks b bs : (length (decode_one b bs).2 <= length bs)%nat.
Proof.
  rewrite /decode_one. case_match; [done|]. destruct (second_range b) as [[[lo hi] more]|]; [|done].
  destruct bs as [|c bs]; [done|]. case_match; simpl; [|lia]. etrans; [apply continuation_shrinks|lia].
Qed.

Lemma decode_fuels f f' bs : (length bs <= f)%nat → (length bs <= f')%nat →
  decode_from f bs = decode_from f' bs.
Proof.
  revert f' bs. induction f as [|f IH]; intros [|f'] [|b bs]; simpl; try done; [lia..|].
  intros Hf Hf'. pose proof (decode_one_shrinks b bs). destruct (decode_one b bs) as [c rest]. simpl in *.
  f_equal. apply IH; lia.
Qed.

Lemma decode_cons b bs :
  decode (b :: bs) = let '(c, rest) := decode_one b bs in c :: decode rest.
Proof.
  rewrite /decode /=. pose proof (decode_one_shrinks b bs). destruct (decode_one b bs) as [c rest].
  simpl in *. f_equal. by apply decode_fuels.
Qed.

(** ** Newlines *)

Lemma continuation_newline n acc a t :
  continuation n acc (a ++ NEWLINE :: t) =
  ((continuation n acc a).1, (continuation n acc a).2 ++ NEWLINE :: t).
Proof.
  revert acc a. induction n as [|n IH]; intros acc [|b a]; simpl; try done.
  case_match; [apply IH|done].
Qed.

Lemma decode_one_newline b a t :
  decode_one b (a ++ NEWLINE :: t) = ((decode_one b a).1, (decode_one b a).2 ++ NEWLINE :: t).
Proof.
  rewrite /decode_one. case_match; [done|]. destruct (second_range b) as [[[lo hi] more]|] eqn:E; [|done].
  destruct a as [|c a]; simpl.
  - rewrite (_ : lo <=? NEWLINE = false) //. rewrite /second_range in E.
    repeat case_match; simplify_eq; done.
  - case_match; [apply continuation_newline|done].
Qed.

Lemma decode_newline a t : decode (a ++ NEWLINE :: t) = decode a ++ NEWLINE :: decode t.
Proof.
  remember (length a) as n eqn:Hn. revert a Hn.
  induction (lt_wf n) as [n _ IH]. intros [|b a] Hn; simpl.
  { by rewrite decode_cons. }
  rewrite !decode_cons decode_one_newline. pose proof (decode_one_shrinks b a).
  destruct (decode_one b a) as [c rest]. simpl in *. rewrite (IH (length rest)) //. lia.
Qed.

Lemma continuation_high n acc bs : 16 <= acc → 16 <= (continuation n acc bs).1.
Proof.
  revert acc bs. induction n as [|n IH]; intros acc [|b bs] Hacc; simpl; try done.
  case_match; [|done]. apply IH. lia.
Qed.

Lemma continuation_rest n acc bs x : x ∈ (continuation n acc bs).2 → x ∈ bs.
Proof.
  revert acc bs. induction n as [|n IH]; intros acc [|b bs]; simpl; try done.
  case_match; [|done]. intros Hx. right. by eapply IH.
Qed.

Lemma decode_one_no_newline b bs : b ≠ NEWLINE → NEWLINE ∉ bs →
  (decode_one b bs).1 ≠ NEWLINE ∧ NEWLINE ∉ (decode_one b bs).2.
Proof.
  intros Hb Hbs. rewrite /decode_one. case_match; [done|].
  destruct (second_range b) as [[[lo hi] more]|] eqn:E; [|done].
  destruct bs as [|c bs]; [done|]. destruct ((lo <=? c) && (c <=? hi)) eqn:Hc; [|done]. split.
  - assert (16 <= lead_bits b * 64 + (c - 128)) as Hacc.
    { rewrite /second_range in E. rewrite /lead_bits. repeat case_match; simplify_eq; lia. }
    pose proof (continuation_high more _ bs Hacc) as Hx. rewrite /NEWLINE. lia.
  - intros Hx%continuation_rest. apply Hbs. by right.
Qed.

Lemma decode_no_newline a : NEWLINE ∉ a → NEWLINE ∉ decode a.
Proof.
  remember (length a) as n eqn:Hn. revert a Hn.
  induction (lt_wf n) as [n _ IH]. intros [|b a] Hn Ha; [done|]. rewrite decode_cons.
  destruct (decode_one_no_newline b a) as [Hc Hr]; [set_solver..|].
  pose proof (decode_one_shrinks b a). destruct (decode_one b a) as [c rest]. simpl in *.
  apply not_elem_of_cons. split; [done|]. apply (IH (length rest)); [lia|done|done].
Qed.

(** Decoding the lines is the lines of the decoded text. *)
Lemma split_decode a : split_on NEWLINE (decode a) = decode <$> split_on NEWLINE a.
Proof.
  remember (length a) as n eqn:Hn. revert a Hn. induction (lt_wf n) as [n _ IH]. intros a Hn.
  destruct (decide (NEWLINE ∈ a)) as [Hin|Hout].
  - apply list_elem_of_split_l in Hin as (l & t & -> & Hl).
    rewrite decode_newline !split_on_app //; [|by apply decode_no_newline].
    rewrite fmap_cons (IH (length t)) //. rewrite Hn length_app /=. lia.
  - rewrite !split_on_no //. by apply decode_no_newline.
Qed.

(** ** What was encoded *)

(** A first byte and what follows it, in arithmetic. *)
Lemma decode_lead b lo hi more c bs rest ch : 128 <= b → second_range b = Some (lo, hi, more) →
  lo <= c <= hi → continuation more (lead_bits b * 64 + (c - 128)) (bs ++ rest) = (ch, rest) →
  decode (b :: c :: bs ++ rest) = ch :: decode rest.
Proof.
  intros Hb Hr Hc Hcont. rewrite decode_cons /decode_one (_ : b <? 128 = false); [|lia].
  by rewrite Hr (_ : (lo <=? c) && (c <=? hi) = true) ?Hcont; [|lia].
Qed.

Ltac six_bits c :=
  rewrite ?Z.shiftr_div_pow2 // (_ : 63 = Z.ones 6) // ?Z.land_ones // /=;
  change (2 ^ 6) with 64; change (2 ^ 12) with 4096; change (2 ^ 18) with 262144.

Lemma two_parts c : 0 <= c → ∃ q z, c = q * 64 + z ∧ 0 <= z < 64 ∧ c / 64 = q ∧ c mod 64 = z.
Proof.
  intros Hc. exists (c / 64), (c mod 64). pose proof (Z.div_mod c 64 ltac:(done)).
  pose proof (Z.mod_pos_bound c 64 ltac:(done)). split_and!; lia || done.
Qed.

Lemma three_parts c : 0 <= c →
  ∃ x y z, c = x * 4096 + y * 64 + z ∧ 0 <= y < 64 ∧ 0 <= z < 64 ∧
           c / 4096 = x ∧ (c / 64) mod 64 = y ∧ c mod 64 = z.
Proof.
  intros Hc. destruct (two_parts c Hc) as (q & z & Hcq & Hz & Hq & Hm).
  destruct (two_parts q) as (x & y & Hqx & Hy & Hx & Hym); [lia|].
  exists x, y, z. change 4096 with (64 * 64). rewrite -Z.div_div // Hq. split_and!; lia || done.
Qed.

Lemma four_parts c : 0 <= c →
  ∃ w x y z, c = w * 262144 + x * 4096 + y * 64 + z ∧ 0 <= x < 64 ∧ 0 <= y < 64 ∧ 0 <= z < 64 ∧
             c / 262144 = w ∧ (c / 4096) mod 64 = x ∧ (c / 64) mod 64 = y ∧ c mod 64 = z.
Proof.
  intros Hc. destruct (three_parts c Hc) as (q & y & z & Hcq & Hy & Hz & Hq & Hym & Hzm).
  destruct (two_parts q) as (w & x & Hqx & Hx & Hw & Hxm); [lia|].
  exists w, x, y, z. change 262144 with (4096 * 64). rewrite -Z.div_div // Hq. split_and!; lia || done.
Qed.

Lemma lead_three x : 0 <= x <= 15 →
  second_range (224 + x) = Some (if x =? 0 then 160 else 128, if x =? 13 then 159 else 191, 1%nat).
Proof.
  intros Hx. assert (x ∈ seqZ 0 16) as Hin by (apply elem_of_seqZ; lia).
  clear Hx. revert x Hin. apply (proj1 (Forall_elem (λ x, second_range (224 + x) =
    Some (if x =? 0 then 160 else 128, if x =? 13 then 159 else 191, 1%nat)) _)).
  repeat constructor.
Qed.

Lemma lead_four w : 0 <= w <= 4 →
  second_range (240 + w) = Some (if w =? 0 then 144 else 128, if w =? 4 then 143 else 191, 2%nat).
Proof.
  intros Hw. assert (w ∈ seqZ 0 5) as Hin by (apply elem_of_seqZ; lia).
  clear Hw. revert w Hin. apply (proj1 (Forall_elem (λ w, second_range (240 + w) =
    Some (if w =? 0 then 144 else 128, if w =? 4 then 143 else 191, 2%nat)) _)).
  repeat constructor.
Qed.

Lemma decode_char c bs rest : 0 <= c <= 1114111 → utf8_char c = Some bs →
  decode (bs ++ rest) = c :: decode rest.
Proof.
  intros Hc. rewrite /utf8_char.
  destruct (c <? 128) eqn:H1; [intros [= <-]; by rewrite /= decode_cons /decode_one H1|].
  destruct (c <? 2048) eqn:H2.
  { intros [= <-]. six_bits c. pose proof (Z.div_mod c 64 ltac:(done)).
    pose proof (Z.mod_pos_bound c 64 ltac:(done)).
    eapply (decode_lead _ 128 191 0 _ []); [lia| |lia|].
    - rewrite /second_range (_ : (194 <=? _) && (_ <=? 223) = true) //. lia.
    - simpl. f_equal. rewrite /lead_bits (_ : 192 + c / 64 <? 224 = true); lia. }
  destruct ((55296 <=? c) && (c <=? 57343)) eqn:H3; [done|].
  destruct (c <? 65536) eqn:H4; intros [= <-]; six_bits c.
  - destruct (three_parts c) as (x & y & z & Hx & Hy & Hz & -> & -> & ->); [lia|].
    eapply (decode_lead _ _ _ 1 _ [128 + z]); [lia|apply lead_three; lia|repeat case_match; lia|].
    rewrite /= (_ : (128 <=? 128 + z) && (128 + z <=? 191) = true); [|lia]. f_equal.
    rewrite /lead_bits. repeat case_match; lia.
  - destruct (four_parts c) as (w & x & y & z & Hw & Hx & Hy & Hz & -> & -> & -> & ->); [lia|].
    eapply (decode_lead _ _ _ 2 _ [128 + y; 128 + z]); [lia|apply lead_four; lia|repeat case_match; lia|].
    rewrite /= (_ : (128 <=? 128 + y) && (128 + y <=? 191) = true); [|lia].
    rewrite (_ : (128 <=? 128 + z) && (128 + z <=? 191) = true); [|lia]. f_equal.
    rewrite /lead_bits. repeat case_match; lia.
Qed.

(** Decoding gives back what was encoded. *)
Theorem decode_encode s bs : Forall (λ c, 0 <= c <= 1114111) s →
  utf8_encode s = Some bs → decode bs = s.
Proof.
  intros Hs. revert bs. induction Hs as [|c s Hc Hs IH]; intros bs; simpl; [by intros [= <-]|].
  destruct (utf8_char c) as [b|] eqn:Eb; [|done]. destruct (utf8_encode s) as [rest|]; [|done].
  simpl. intros [= <-]. rewrite (decode_char c b rest Hc Eb). f_equal. by apply IH.
Qed.

Example decode_broken : decode [97; 226; 130; 10; 240; 159; 152; 98; 255] =
  [97; REPLACEMENT; 10; REPLACEMENT; 98; REPLACEMENT].
Proof. reflexivity. Qed.

(** [bytes.decode("utf-8")]: [None] is the [UnicodeDecodeError].  Bytes are
    the encoding of a text exactly where encoding what they decode to gives
    them back. *)
Definition decode_strict (bs : list Z) : option pystr :=
  if bool_decide (utf8_encode (decode bs) = Some bs) then Some (decode bs) else None.

Lemma decode_strict_ascii s : isascii s = true → decode_strict s = Some s.
Proof.
  intros Hs. pose proof (utf8_encode_ascii s Hs) as He.
  assert (decode s = s) as Hd.
  { apply decode_encode; [|done]. rewrite /isascii forallb_forall in Hs. apply List.Forall_forall.
    intros c Hc. apply Hs in Hc. rewrite /is_ascii in Hc. lia. }
  by rewrite /decode_strict Hd He bool_decide_eq_true_2.
Qed.
