(* ===== verification/Json.v ===== *)
(** * JSON

    [json.loads] and [json.dumps] of the standard library, as the program
    calls them (no options): the scanner of CPython, which reads a value from
    the front of a text and hands back the rest, and the encoder, which writes
    ASCII only.  [None] is the [ValueError] of the scanner.  A number keeps the
    text it was written with.

    What was written is read back ([loads_dumps]). *)

From S2P Require Import Prelude PyStr Utf8.

#[warnings="-register-all"]
Inductive json :=
| JNull | JBool (b : bool) | JNumber (text : pystr) | JString (s : pystr)
| JArray (items : list json) | JObject (fields : list (pystr * json)).

(** The [dict] of an object: the last value of a key counts. *)
Definition fields_t := list (pystr * json).
Definition json_get (k : pystr) (fields : fields_t) : option json :=
  snd <$> list.last (filter (λ f, f.1 = k) fields).

Definition QUOTE : Z := 34.
Definition BACKSLASH : Z := 92.
Definition COMMA : Z := 44.

(** ** Reading *)

Definition is_json_space (c : Z) : bool := (c =? 32) || (c =? 9) || (c =? 10) || (c =? 13).
Definition skip (s : pystr) : pystr := lstrip_by is_json_space s.

Definition hex_value (c : Z) : option Z :=
  if is_digit c then Some (c - 48)
  else if (97 <=? c) && (c <=? 102) then Some (c - 87)
  else if (65 <=? c) && (c <=? 70) then Some (c - 55)
  else None.

(** Four hexadecimal digits. *)
Definition read_hex (s : pystr) : option (Z * pystr) :=
  match s with
  | a :: b :: c :: d :: s =>
      a ← hex_value a; b ← hex_value b; c ← hex_value c; d ← hex_value d;
      Some (((a * 16 + b) * 16 + c) * 16 + d, s)
  | _ => None
  end.

Definition is_high (c : Z) : bool := (55296 <=? c) && (c <=? 56319).
Definition is_low (c : Z) : bool := (56320 <=? c) && (c <=? 57343).
Definition join_surrogates (hi lo : Z) : Z := 65536 + (hi - 55296) * 1024 + (lo - 56320).

(** The character an escape other than [\u] stands for. *)
Definition escaped (c : Z) : option Z :=
  if c =? QUOTE then Some QUOTE
  else if c =? BACKSLASH then Some BACKSLASH
  else if c =? SLASH then Some SLASH
  else if c =? 98 then Some 8
  else if c =? 102 then Some 12
  else if c =? 110 then Some 10
  else if c =? 114 then Some 13
  else if c =? 116 then Some 9
  else None.

(** After [\u]: the character, two escapes that are a surrogate pair being
    one. *)
Definition unicode_escape (s : pystr) : option (Z * pystr) :=
  '(c, s) ← read_hex s;
  if is_high c then
    match s with
    | a :: b :: s' =>
        if (a =? BACKSLASH) && (b =? 117) then
          '(c2, s'') ← read_hex s';
          Some (if is_low c2 then (join_surrogates c c2, s'') else (c, s))
        else Some (c, s)
    | _ => Some (c, s)
    end
  else Some (c, s).

(** The rest of a string, after its opening quote. *)
Fixpoint string_body (fuel : nat) (s : pystr) : option (pystr * pystr) :=
  match fuel, s with
  | O, _ | _, [] => None
  | S fuel, c :: s =>
      if c =? QUOTE then Some ([], s)
      else if c =? BACKSLASH then
        '(c, s) ← match s with
                  | [] => None
                  | e :: s => if e =? 117 then unicode_escape s else c ← escaped e; Some (c, s)
                  end;
        '(t, s) ← string_body fuel s; Some (c :: t, s)
      else if c <=? 31 then None
      else '(t, s) ← string_body fuel s; Some (c :: t, s)
  end.
Definition read_string (s : pystr) : option (pystr * pystr) := string_body (length s) s.

Fixpoint digits (s : pystr) : pystr * pystr :=
  match s with
  | c :: s' => if is_digit c then let '(ds, r) := digits s' in (c :: ds, r) else ([], s)
  | [] => ([], [])
  end.

Definition fraction (s : pystr) : pystr * pystr :=
  match s with
  | d :: s' => match digits s' with
               | ([], _) => ([], s)
               | (ds, r) => if d =? DOT then (d :: ds, r) else ([], s)
               end
  | [] => ([], s)
  end.
(** At most one character of a kind. *)
Definition one_of (p : Z → bool) (s : pystr) : pystr * pystr :=
  match s with
  | c :: s' => if p c then ([c], s') else ([], s)
  | [] => ([], [])
  end.
Definition exponent (s : pystr) : pystr * pystr :=
  match s with
  | e :: s' =>
      let '(sign, s'') := one_of (λ c, (c =? 43) || (c =? HYPHEN)) s' in
      match digits s'' with
      | ([], _) => ([], s)
      | (ds, r) => if (e =? 101) || (e =? 69) then (e :: sign ++ ds, r) else ([], s)
      end
  | [] => ([], s)
  end.

(** [int()] of more digits than [sys.get_int_max_str_digits] raises. *)
Definition MAX_STR_DIGITS : Z := 4300.

Definition whole_part (s : pystr) : pystr * pystr :=
  match s with
  | c :: s' => if c =? 48 then ([c], s') else digits s
  | [] => ([], s)
  end.
Definition read_number (s : pystr) : option (json * pystr) :=
  let '(sign, s) := one_of (λ c, c =? HYPHEN) s in
  let '(whole, s) := whole_part s in
  match whole with
  | [] => None
  | _ =>
      let '(frac, s) := fraction s in
      let '(ex, s) := exponent s in
      match frac, ex with
      | [], [] => if MAX_STR_DIGITS <? len whole then None else Some (JNumber (sign ++ whole), s)
      | _, _ => Some (JNumber (sign ++ whole ++ frac ++ ex), s)
      end
  end.

Definition words : list (pystr * json) :=
  [(lit "null", JNull); (lit "true", JBool true); (lit "false", JBool false);
   (lit "NaN", JNumber (lit "NaN")); (lit "Infinity", JNumber (lit "Infinity"));
   (lit "-Infinity", JNumber (lit "-Infinity"))].

Definition read_atom (s : pystr) : option (json * pystr) :=
  match list_find (λ w : pystr * json, startswith w.1 s = true) words with
  | Some (_, (w, j)) => Some (j, drop (length w) s)
  | None => read_number s
  end.

(** [value]: one value at the front of the text.  [items] and [members]: those
    of an array or an object that has some, up to its closing bracket. *)
Fixpoint value (fuel : nat) (s : pystr) : option (json * pystr) :=
  match fuel with
  | O => None
  | S fuel =>
      match s with
      | [] => None
      | c :: s' =>
          if c =? QUOTE then '(t, r) ← read_string s'; Some (JString t, r)
          else if c =? 123 then
            match skip s' with
            | d :: r => if d =? 125 then Some (JObject [], r)
                        else '(fs, r) ← members fuel (d :: r); Some (JObject fs, r)
            | [] => None
            end
          else if c =? 91 then
            match skip s' with
            | d :: r => if d =? 93 then Some (JArray [], r)
                        else '(js, r) ← items fuel (d :: r); Some (JArray js, r)
            | [] => None
            end
          else read_atom s
      end
  end
with items (fuel : nat) (s : pystr) : option (list json * pystr) :=
  match fuel with
  | O => None
  | S fuel =>
      '(j, r) ← value fuel s;
      match skip r with
      | d :: r => if d =? 93 then Some ([j], r)
                  else if d =? COMMA then '(js, r) ← items fuel (skip r); Some (j :: js, r)
                  else None
      | [] => None
      end
  end
with members (fuel : nat) (s : pystr) : option (list (pystr * json) * pystr) :=
  match fuel with
  | O => None
  | S fuel =>
      match s with
      | [] => None
      | q :: s =>
          if q =? QUOTE then
            '(k, r) ← read_string s;
            match skip r with
            | d :: r =>
                if d =? COLON then
                  '(j, r) ← value fuel (skip r);
                  match skip r with
                  | d :: r => if d =? 125 then Some ([(k, j)], r)
                              else if d =? COMMA then
                                '(fs, r) ← members fuel (skip r); Some ((k, j) :: fs, r)
                              else None
                  | [] => None
                  end
                else None
            | [] => None
            end
          else None
      end
  end.

(** Two steps of fuel for every character are enough ([value_fuel]). *)
Definition enough (s : pystr) : nat := (2 * length s + 2)%nat.

Definition BYTE_ORDER_MARK : Z := 65279.

Definition loads (s : pystr) : option json :=
  if startswith [BYTE_ORDER_MARK] s then None
  else let s := skip s in
       '(j, r) ← value (enough s) s;
       match skip r with [] => Some j | _ => None end.

(** ** Writing *)

Definition hex_digit (n : Z) : Z := if n <? 10 then 48 + n else 87 + n.
Definition four_hex (c : Z) : pystr :=
  [hex_digit (c / 4096); hex_digit (c / 256 mod 16); hex_digit (c / 16 mod 16); hex_digit (c mod 16)].
Definition u_escape (c : Z) : pystr := BACKSLASH :: 117 :: four_hex c.

Definition write_char (c : Z) : pystr :=
  if c =? QUOTE then [BACKSLASH; QUOTE]
  else if c =? BACKSLASH then [BACKSLASH; BACKSLASH]
  else if (32 <=? c) && (c <=? 126) then [c]
  else if c =? 10 then [BACKSLASH; 110]
  else if c =? 13 then [BACKSLASH; 114]
  else if c =? 9 then [BACKSLASH; 116]
  else if c =? 12 then [BACKSLASH; 102]
  else if c =? 8 then [BACKSLASH; 98]
  else if c <? 65536 then u_escape c
  else u_escape (55296 + (c - 65536) / 1024) ++ u_escape (56320 + (c - 65536) mod 1024).

Definition write_string (s : pystr) : pystr := QUOTE :: concat (write_char <$> s) ++ [QUOTE].

Fixpoint dumps (j : json) : pystr :=
  match j with
  | JNull => lit "null"
  | JBool true => lit "true"
  | JBool false => lit "false"
  | JNumber text => text
  | JString s => write_string s
  | JArray js => 91 :: join (lit ", ") (dumps <$> js) ++ [93]
  | JObject fs =>
      123 :: join (lit ", ") ((λ '(k, v), write_string k ++ lit ": " ++ dumps v) <$> fs) ++ [125]
  end.

(** ** Fuel *)

Lemma skip_shrinks s : (length (skip s) <= length s)%nat.
Proof. induction s as [|c s IH]; simpl; [done|]. rewrite /skip /=. case_match; simpl; [rewrite -/(skip s)|]; lia. Qed.

Lemma read_hex_shrinks s c r : read_hex s = Some (c, r) → (length r < length s)%nat.
Proof.
  rewrite /read_hex. repeat (case_match; [done|]). intros Hr. simplify_option_eq. lia.
Qed.

Lemma unicode_escape_shrinks s c r : unicode_escape s = Some (c, r) → (length r < length s)%nat.
Proof.
  rewrite /unicode_escape. intros ([c1 s1] & H1%read_hex_shrinks & H)%bind_Some. revert H.
  destruct (is_high c1); [|intros [= <- <-]; done].
  destruct s1 as [|a [|b s2]]; [intros [= <- <-]; done..|]. case_match; [|intros [= <- <-]; done].
  intros ([c2 s3] & H2%read_hex_shrinks & Hq)%bind_Some. simpl in *. case_match; simplify_eq; simpl; lia.
Qed.

Lemma string_body_shrinks f s t r : string_body f s = Some (t, r) → (length r < length s)%nat.
Proof.
  revert s t r. induction f as [|f IH]; intros [|c s] t r; simpl; try done.
  case_match; [intros [= <- <-]; lia|]. case_match.
  - intros ([e s1] & He & ([t' r'] & Hb%IH & [= <- <-])%bind_Some)%bind_Some.
    destruct s as [|e' s]; [done|]. case_match; [apply unicode_escape_shrinks in He; simpl; lia|].
    apply bind_Some in He as (x & _ & [= -> ->]). simpl. lia.
  - case_match; [done|]. intros ([t' r'] & Hb%IH & [= <- <-])%bind_Some. lia.
Qed.

Lemma digits_split s : let '(ds, r) := digits s in s = ds ++ r.
Proof. induction s as [|c s IH]; simpl; [done|]. destruct (is_digit c); [|done]. destruct (digits s). by rewrite /= {1}IH. Qed.
Lemma fraction_split s : let '(ds, r) := fraction s in s = ds ++ r.
Proof.
  destruct s as [|d s]; simpl; [done|]. pose proof (digits_split s). destruct (digits s) as [[|e ds] r]; [done|].
  destruct (d =? DOT); [by subst|done].
Qed.
Lemma one_of_split p s : let '(ds, r) := one_of p s in s = ds ++ r.
Proof. destruct s as [|c s]; simpl; [done|]. by destruct (p c). Qed.
Lemma whole_part_split s : let '(ds, r) := whole_part s in s = ds ++ r.
Proof. destruct s as [|c s]; [done|]. rewrite /whole_part. destruct (c =? 48); [done|]. apply digits_split. Qed.
Lemma exponent_split s : let '(ds, r) := exponent s in s = ds ++ r.
Proof.
  destruct s as [|e s]; simpl; [done|].
  pose proof (one_of_split (λ c, (c =? 43) || (c =? HYPHEN)) s) as Hs. destruct (one_of _ s) as [sign s2].
  pose proof (digits_split s2). destruct (digits s2) as [[|d ds] r]; [done|].
  destruct ((e =? 101) || (e =? 69)); [|done]. subst. by rewrite /= -app_assoc.
Qed.

(** A number that was read is the front of the text. *)
Lemma read_number_split s j r : read_number s = Some (j, r) →
  ∃ w ws, s = w :: ws ++ r ∧ j = JNumber (w :: ws).
Proof.
  rewrite /read_number. pose proof (one_of_split (λ c, c =? HYPHEN) s) as H1.
  destruct (one_of _ s) as [sign s1]. pose proof (whole_part_split s1) as H2.
  destruct (whole_part s1) as [[|w whole] s2]; [done|].
  pose proof (fraction_split s2) as H3. destruct (fraction s2) as [frac s3].
  pose proof (exponent_split s3) as H4. destruct (exponent s3) as [ex s4]. subst.
  intros Hr. assert (j = JNumber (sign ++ (w :: whole) ++ frac ++ ex) ∧ r = s4) as [-> ->].
  { destruct frac, ex; [destruct (MAX_STR_DIGITS <? _); [done|]|..];
      injection Hr as <- <-; rewrite /= ?app_nil_r; split; reflexivity. }
  destruct sign as [|c sign].
  - exists w, (whole ++ frac ++ ex). by rewrite /= -!app_assoc.
  - exists c, (sign ++ (w :: whole) ++ frac ++ ex). by rewrite /= -!app_assoc /= -!app_assoc.
Qed.

Lemma read_number_shrinks s j r : read_number s = Some (j, r) → (length r < length s)%nat.
Proof. intros (w & ws & -> & _)%read_number_split. rewrite /= length_app. lia. Qed.

Lemma read_atom_shrinks s j r : read_atom s = Some (j, r) → (length r < length s)%nat.
Proof.
  rewrite /read_atom. destruct (list_find _ words) as [[n [w j']]|] eqn:E; [|apply read_number_shrinks].
  intros [= -> <-]. apply list_find_Some in E as (Hl & Hs & _). simpl in Hs.
  apply startswith_spec in Hs as [t ->]. rewrite drop_app_length length_app.
  apply list_elem_of_lookup_2 in Hl.
  assert (Forall (λ w : pystr * json, 0 < length w.1)%nat words) as Hw by (repeat constructor).
  rewrite Forall_elem in Hw. apply Hw in Hl. simpl in Hl. lia.
Qed.

(** Every reader hands back less than it was given. *)
Lemma readers_shrink f :
  (∀ s j r, value f s = Some (j, r) → (length r < length s)%nat) ∧
  (∀ s js r, items f s = Some (js, r) → (length r < length s)%nat) ∧
  (∀ s fs r, members f s = Some (fs, r) → (length r < length s)%nat).
Proof.
  induction f as [|f (IHv & IHi & IHm)]; [done|]. split_and!.
  - intros [|c s] j r; [done|]. cbn [value]. pose proof (skip_shrinks s) as Hk.
    case_match; [|case_match; [|case_match; [|apply read_atom_shrinks]]].
    + intros ([t r'] & Hs%string_body_shrinks & [= <- <-])%bind_Some. simpl. lia.
    + destruct (skip s) as [|d r'] eqn:E; [done|]. simpl in Hk. case_match; [intros [= <- <-]; simpl; lia|].
      intros ([fs r''] & Hm%IHm & [= <- <-])%bind_Some. simpl in *. lia.
    + destruct (skip s) as [|d r'] eqn:E; [done|]. simpl in Hk. case_match; [intros [= <- <-]; simpl; lia|].
      intros ([fs r''] & Hm%IHi & [= <- <-])%bind_Some. simpl in *. lia.
  - intros s js r. cbn [items]. intros ([j r1] & Hv%IHv & Hi)%bind_Some. revert Hi.
    pose proof (skip_shrinks r1). destruct (skip r1) as [|d r2]; [done|]. simpl in *.
    case_match; [intros [= <- <-]; lia|]. case_match; [|done].
    intros ([js' r3] & Hi%IHi & [= <- <-])%bind_Some. pose proof (skip_shrinks r2). lia.
  - intros [|q s] fs r; [done|]. cbn [members]. case_match; [|done].
    intros ([k r1] & Hs%string_body_shrinks & Hi)%bind_Some. revert Hi.
    pose proof (skip_shrinks r1). destruct (skip r1) as [|d r2]; [done|]. case_match; [|done].
    intros ([j r3] & Hv%IHv & Hi)%bind_Some. revert Hi. pose proof (skip_shrinks r2).
    pose proof (skip_shrinks r3). destruct (skip r3) as [|d' r4]; [done|]. simpl in *.
    case_match; [intros [= <- <-]; lia|]. case_match; [|done].
    intros ([js' r5] & Hi%IHm & [= <- <-])%bind_Some. pose proof (skip_shrinks r4). lia.
Qed.

Lemma bind_ext_shrunk {A B} (o : option (A * pystr)) (k k' : A * pystr → option B) n :
  (∀ a r, o = Some (a, r) → (length r < n)%nat) →
  (∀ a r, (length r < n)%nat → k (a, r) = k' (a, r)) → o ≫= k = o ≫= k'.
Proof. intros Ho Hk. destruct o as [[a r]|]; simpl; [|done]. eauto. Qed.

(** Two steps for each character are enough. *)
Definition fuel_agrees (s : pystr) : Prop := ∀ f f',
  ((2 * length s < f)%nat → (2 * length s < f')%nat → value f s = value f' s) ∧
  ((2 * length s + 1 < f)%nat → (2 * length s + 1 < f')%nat → items f s = items f' s) ∧
  ((2 * length s + 1 < f)%nat → (2 * length s + 1 < f')%nat → members f s = members f' s).

Lemma value_fuel s : fuel_agrees s.
Proof.
  remember (length s) as n eqn:Hn. revert s Hn. induction (lt_wf n) as [n _ IH]. intros s ->.
  assert (∀ f f', (2 * length s < f)%nat → (2 * length s < f')%nat → value f s = value f' s) as Hv.
  { intros [|f] [|f'] Hf Hf'; [lia..|]. destruct s as [|c s]; [done|]. cbn [value].
    pose proof (skip_shrinks s) as Hk. simpl in *.
    case_match; [done|]. case_match; [|case_match; [|done]].
    - destruct (skip s) as [|d r]; [done|]. case_match; [done|].
      destruct (IH (length (d :: r)) ltac:(simpl in *; lia) (d :: r) eq_refl f f') as (_ & _ & Hm).
      rewrite Hm //; simpl in *; lia.
    - destruct (skip s) as [|d r]; [done|]. case_match; [done|].
      destruct (IH (length (d :: r)) ltac:(simpl in *; lia) (d :: r) eq_refl f f') as (_ & Hi & _).
      rewrite Hi //; simpl in *; lia. }
  intros f f'. split; [apply Hv|].
  destruct f as [|f], f' as [|f']; [split; lia..|]. split; intros Hf Hf'.
  - cbn [items]. rewrite (Hv f f'); [|lia..]. apply (bind_ext_shrunk _ _ _ (length s)).
    { intros a r. apply readers_shrink. }
    intros j r Hr. pose proof (skip_shrinks r). destruct (skip r) as [|d r1]; [done|].
    case_match; [done|]. case_match; [|done]. pose proof (skip_shrinks r1). simpl in *.
    destruct (IH (length (skip r1)) ltac:(lia) (skip r1) eq_refl f f') as (_ & Hi & _). rewrite Hi //; lia.
  - cbn [members]. destruct s as [|q s]; [done|]. case_match; [|done].
    apply (bind_ext_shrunk _ _ _ (length s)). { intros a r. apply string_body_shrinks. }
    intros k r Hr. pose proof (skip_shrinks r). destruct (skip r) as [|d r1]; [done|]. case_match; [|done].
    pose proof (skip_shrinks r1). simpl in *.
    destruct (IH (length (skip r1)) ltac:(lia) (skip r1) eq_refl f f') as (Hv1 & _). rewrite Hv1; [|lia..].
    apply (bind_ext_shrunk _ _ _ (length (skip r1))). { intros a r2. apply readers_shrink. }
    intros j r2 Hr2. pose proof (skip_shrinks r2). destruct (skip r2) as [|d' r3]; [done|]. case_match; [done|].
    case_match; [|done]. pose proof (skip_shrinks r3). simpl in *.
    destruct (IH (length (skip r3)) ltac:(lia) (skip r3) eq_refl f f') as (_ & _ & Hm). rewrite Hm //; lia.
Qed.

(** ** What was written is read back *)

(** Characters proper: code points that are not surrogates. *)
Definition is_scalar (c : Z) : bool := (0 <=? c) && (c <=? 1114111) && negb (is_high c || is_low c).
(** A text the scanner reads as one number, to its end. *)
Definition number_text (t : pystr) : Prop := read_atom t = Some (JNumber t, []).

Fixpoint writable (j : json) : Prop :=
  match j with
  | JNull | JBool _ => True
  | JNumber t => number_text t
  | JString s => forallb is_scalar s = true
  | JArray js => foldr (λ j p, writable j ∧ p) True js
  | JObject fs => foldr (λ '(k, v) p, forallb is_scalar k = true ∧ writable v ∧ p) True fs
  end.

Lemma hex_value_digit n : 0 <= n < 16 → hex_value (hex_digit n) = Some n.
Proof.
  intros Hn. assert (n ∈ seqZ 0 16) as Hin by (apply elem_of_seqZ; lia). clear Hn. revert n Hin.
  apply (proj1 (Forall_elem (λ n, hex_value (hex_digit n) = Some n) _)). by repeat constructor.
Qed.

Lemma read_four_hex c r : 0 <= c < 65536 → read_hex (four_hex c ++ r) = Some (c, r).
Proof.
  intros Hc. rewrite /four_hex /read_hex /=.
  pose proof (Z.div_mod c 16 ltac:(done)). pose proof (Z.div_mod (c / 16) 16 ltac:(done)).
  pose proof (Z.div_mod (c / 256) 16 ltac:(done)).
  pose proof (Z.mod_pos_bound c 16 ltac:(done)). pose proof (Z.mod_pos_bound (c / 16) 16 ltac:(done)).
  pose proof (Z.mod_pos_bound (c / 256) 16 ltac:(done)).
  assert (c / 256 = c / 16 / 16) as Hd by (rewrite Z.div_div //).
  assert (c / 4096 = c / 256 / 16) as Hd' by (rewrite Z.div_div //).
  rewrite !hex_value_digit //=; [|lia..]. do 2 f_equal. lia.
Qed.

(** One turn of the loop reads one character back. *)
Lemma string_body_char f c s : is_scalar c = true →
  string_body (S f) (write_char c ++ s) = '(t, r) ← string_body f s; Some (c :: t, r).
Proof.
  rewrite /is_scalar. intros Hc. reflect_bools. rewrite /write_char.
  destruct (Z.eqb_spec c QUOTE) as [->|Hq]; [done|].
  destruct (Z.eqb_spec c BACKSLASH) as [->|Hb]; [done|].
  destruct ((32 <=? c) && (c <=? 126)) eqn:Ep.
  { cbn [string_body app]. rewrite (proj2 (Z.eqb_neq c QUOTE)) // (proj2 (Z.eqb_neq c BACKSLASH)) //.
    by rewrite (_ : c <=? 31 = false); [|lia]. }
  do 5 (match goal with |- context [c =? ?k] => destruct (Z.eqb_spec c k) as [->|?]; [done|] end).
  destruct (Z.ltb_spec c 65536) as [Hlt|Hge].
  - cbn [string_body app u_escape]. change (117 =? 117) with true. cbn match.
    rewrite /unicode_escape read_four_hex /=; [|lia]. by destruct (is_high c).
  - rewrite /u_escape -app_assoc. cbn [string_body app]. change (117 =? 117) with true. cbn match.
    remember (c - 65536) as x eqn:Hx.
    pose proof (Z.div_mod x 1024 ltac:(done)). pose proof (Z.mod_pos_bound x 1024 ltac:(done)).
    assert (0 <= x / 1024 < 1024) by (split; [apply Z.div_pos|apply Z.div_lt_upper_bound]; lia).
    rewrite /unicode_escape read_four_hex; [|lia]. cbn [mbind option_bind app].
    rewrite (_ : is_high _ = true); [|rewrite /is_high; lia].
    change ((BACKSLASH =? BACKSLASH) && (117 =? 117)) with true. cbn match.
    rewrite read_four_hex; [|lia]. cbn [mbind option_bind].
    rewrite (_ : is_low _ = true); [|rewrite /is_low; lia]. cbn match.
    rewrite (_ : join_surrogates _ _ = c) //. rewrite /join_surrogates. lia.
Qed.

Lemma write_char_nonempty c : (0 < length (write_char c))%nat.
Proof. rewrite /write_char. repeat case_match; simpl; lia. Qed.

Lemma read_written_string s rest : forallb is_scalar s = true →
  read_string (concat (write_char <$> s) ++ QUOTE :: rest) = Some (s, rest).
Proof.
  intros Hs. rewrite /read_string.
  assert (length s < length (concat (write_char <$> s) ++ QUOTE :: rest))%nat as Hl.
  { clear Hs. induction s as [|c s IH]; csimpl; [lia|]. rewrite -app_assoc length_app.
    pose proof (write_char_nonempty c). lia. }
  revert Hl. generalize (length (concat (write_char <$> s) ++ QUOTE :: rest)) as f.
  induction s as [|c s IH]; intros [|f] Hl; [simpl in Hl; lia|done|simpl in Hl; lia|].
  rewrite fmap_cons. cbn [concat]. simpl in Hs, Hl. reflect_bools.
  rewrite -app_assoc string_body_char // IH //. lia.
Qed.

(** *** Numbers *)

Definition stops (rest : pystr) : Prop :=
  match rest with [] => True | c :: _ => c = COMMA ∨ c = 93 ∨ c = 125 end.

Lemma stops_not rest (p : Z → bool) : stops rest →
  p COMMA = false → p 93 = false → p 125 = false →
  match rest with [] => True | c :: _ => p c = false end.
Proof. destruct rest as [|c r]; [done|]. by intros [-> | [-> | ->]]. Qed.

Lemma digits_app s rest : stops rest →
  digits (s ++ rest) = ((digits s).1, (digits s).2 ++ rest).
Proof.
  intros Hr. induction s as [|c s IH]; simpl.
  - apply (stops_not rest is_digit) in Hr; [|done..]. destruct rest as [|d rest]; [done|].
    simpl. by rewrite Hr.
  - destruct (is_digit c); [|done]. rewrite IH. by destruct (digits s).
Qed.

Lemma one_of_app p s rest : stops rest → p COMMA = false → p 93 = false → p 125 = false →
  one_of p (s ++ rest) = ((one_of p s).1, (one_of p s).2 ++ rest).
Proof.
  intros Hr H1 H2 H3. destruct s as [|c s]; simpl; [|by destruct (p c)].
  apply (stops_not rest p) in Hr; [|done..]. destruct rest as [|d rest]; [done|]. simpl. by rewrite Hr.
Qed.

Lemma whole_part_app s rest : stops rest →
  whole_part (s ++ rest) = ((whole_part s).1, (whole_part s).2 ++ rest).
Proof.
  intros Hr. destruct s as [|c s]; simpl.
  - destruct rest as [|d rest]; [done|]. pose proof (digits_app [] (d :: rest) Hr) as Hd. simpl in Hd.
    rewrite /whole_part. by destruct Hr as [-> | [-> | ->]].
  - destruct (c =? 48); [done|]. apply (digits_app (c :: s)), Hr.
Qed.

Lemma fraction_app s rest : stops rest →
  fraction (s ++ rest) = ((fraction s).1, (fraction s).2 ++ rest).
Proof.
  intros Hr. destruct s as [|c s]; simpl.
  - destruct rest as [|d rest]; [done|]. rewrite /fraction.
    destruct Hr as [-> | [-> | ->]]; by destruct (digits rest) as [[|??] ?].
  - rewrite digits_app //. destruct (digits s) as [[|e ds] r]; [done|]. simpl. by destruct (c =? DOT).
Qed.

Lemma exponent_app s rest : stops rest →
  exponent (s ++ rest) = ((exponent s).1, (exponent s).2 ++ rest).
Proof.
  intros Hr. destruct s as [|c s]; simpl.
  - destruct rest as [|d rest]; [done|]. rewrite /exponent. destruct (one_of _ rest) as [sign r].
    destruct Hr as [-> | [-> | ->]]; by destruct (digits r) as [[|??] ?].
  - rewrite one_of_app //. destruct (one_of _ s) as [sign s1]. simpl.
    rewrite digits_app //. destruct (digits s1) as [[|e ds] r]; [done|]. simpl.
    by destruct ((c =? 101) || (c =? 69)).
Qed.

Lemma read_number_app s rest : stops rest →
  read_number (s ++ rest) = '(j, r) ← read_number s; Some (j, r ++ rest).
Proof.
  intros Hr. rewrite /read_number one_of_app //. destruct (one_of _ s) as [sign s1]. cbn [fst snd].
  rewrite whole_part_app //. destruct (whole_part s1) as [[|w whole] s2]; [done|]. cbn [fst snd].
  rewrite fraction_app //. destruct (fraction s2) as [frac s3]. cbn [fst snd].
  rewrite exponent_app //. destruct (exponent s3) as [ex s4]. cbn [fst snd].
  destruct frac, ex; [|done..]. by destruct (MAX_STR_DIGITS <? _).
Qed.

Lemma whole_part_head s w ws r : whole_part s = (w :: ws, r) → is_digit w = true ∧ ∃ s', s = w :: s'.
Proof.
  destruct s as [|c s]; [done|]. simpl.
  destruct (Z.eqb_spec c 48) as [->|]; [intros [= <- <- <-]; split; [done|by exists s]|].
  destruct (is_digit c) eqn:E; [|done]. destruct (digits s) as [ds r']. intros [= <- <- <-]. by eauto.
Qed.

(** A number starts with a digit, perhaps after a minus. *)
Lemma number_head s j r : read_number s = Some (j, r) →
  ∃ c s', s = c :: s' ∧ (is_digit c = true ∨ c = HYPHEN ∧ ∃ d s'', s' = d :: s'' ∧ is_digit d = true).
Proof.
  rewrite /read_number. destruct s as [|c s]; [done|]. cbn [one_of].
  destruct (Z.eqb_spec c HYPHEN) as [->|Hc].
  - destruct (whole_part s) as [[|w ws] s1] eqn:E; [done|]. apply whole_part_head in E as (Hd & s' & ->).
    intros _. eexists _, _. split; [done|]. right. split; [done|]. by eexists _, _.
  - destruct (whole_part (c :: s)) as [[|w ws] s1] eqn:E; [done|]. apply whole_part_head in E as (Hd & s' & [= -> ->]).
    intros _. eexists _, _. split; [done|]. by left.
Qed.

Lemma no_word s j r rest : read_number s = Some (j, r) →
  list_find (λ w : pystr * json, startswith w.1 (s ++ rest) = true) words = None.
Proof.
  intros (c & s' & -> & Hc)%number_head. apply list_find_None.
  rewrite /words !Forall_cons_iff. rewrite /is_digit in Hc.
  destruct Hc as [Hc|[-> (d & s'' & -> & Hd)]]; split_and!; try done;
    intros [t [=]]%startswith_spec; subst; done.
Qed.

Lemma read_number_text t rest : number_text t → stops rest →
  read_atom (t ++ rest) = Some (JNumber t, rest).
Proof.
  rewrite /number_text. intros Ht Hr.
  destruct (read_number t) as [[j r]|] eqn:En.
  - rewrite /read_atom (no_word _ _ _ _ En) read_number_app // En /=.
    rewrite /read_atom -(app_nil_r t) (no_word _ _ _ _ En) app_nil_r in Ht. by simplify_eq.
  - rewrite /read_atom in Ht. destruct (list_find _ words) as [[n [w j]]|] eqn:Ef; [|by rewrite En in Ht].
    injection Ht as -> Hd. apply list_find_Some in Ef as (Hl & Hs & _). simpl in Hs.
    apply startswith_spec in Hs as [t' ->]. rewrite drop_app_length in Hd. subst t'. rewrite app_nil_r in Hl |- *.
    apply list_elem_of_lookup_2 in Hl. rewrite /words in Hl. set_unfold. by destruct_or!; simplify_eq.
Qed.

(** *** Values *)

Section json_induction.
Context (P : json → Prop).
Context (Hnull : P JNull) (Hbool : ∀ b, P (JBool b)) (Hnumber : ∀ t, P (JNumber t)).
Context (Hstring : ∀ s, P (JString s)).
Context (Harray : ∀ js, Forall P js → P (JArray js)).
Context (Hobject : ∀ fs, Forall (λ f, P f.2) fs → P (JObject fs)).

Fixpoint json_nested_ind (j : json) : P j :=
  match j with
  | JNull => Hnull
  | JBool b => Hbool b
  | JNumber t => Hnumber t
  | JString s => Hstring s
  | JArray js => Harray js
      ((fix go js : Forall P js :=
          match js with [] => Forall_nil _ | j :: js => @List.Forall_cons _ P j js (json_nested_ind j) (go js) end) js)
  | JObject fs => Hobject fs
      ((fix go fs : Forall (λ f, P f.2) fs :=
          match fs with [] => Forall_nil _ | f :: fs => @List.Forall_cons _ _ f fs (json_nested_ind f.2) (go fs) end) fs)
  end.
End json_induction.

(** What is written starts with no space. *)
Lemma dumps_head j rest : writable j → skip (dumps j ++ rest) = dumps j ++ rest.
Proof.
  destruct j as [|[]|t|s|js|fs]; try done. simpl. intros Ht.
  destruct t as [|c t]; [done|]. rewrite /skip /=. case_match eqn:Hsp; [|done].
  exfalso. rewrite /number_text /read_atom in Ht. rewrite /is_json_space in Hsp.
  assert (c = 32 ∨ c = 9 ∨ c = 10 ∨ c = 13) as Hc by lia. destruct_or!; subst; done.
Qed.

Lemma number_value f t rest : number_text t → stops rest →
  value (S f) (t ++ rest) = Some (JNumber t, rest).
Proof.
  intros Ht Hr. pose proof (read_number_text t rest Ht Hr) as Ha.
  destruct t as [|c t]; [done|]. cbn [value app].
  destruct (Z.eqb_spec c QUOTE) as [->|]; [done|].
  destruct (Z.eqb_spec c 123) as [->|]; [done|].
  destruct (Z.eqb_spec c 91) as [->|]; [done|]. exact Ha.
Qed.

(** Reads back from some fuel on. *)
Definition reads {A} (reader : nat → pystr → option (A * pystr)) (s : pystr) (a : A) (rest : pystr) : Prop :=
  ∃ n, ∀ f, (n <= f)%nat → reader f s = Some (a, rest).

Lemma reads_items js rest : js ≠ [] →
  Forall (λ j, ∀ rest, stops rest → reads value (dumps j ++ rest) j rest) js → Forall writable js →
  reads items (join (lit ", ") (dumps <$> js) ++ 93 :: rest) js rest.
Proof.
  induction js as [|j js IH]; [done|]. intros _ [Hj Hjs]%Forall_cons_iff [Wj Wjs]%Forall_cons_iff.
  destruct js as [|j2 js].
  - destruct (Hj (93 :: rest)) as [n Hn]; [by right; left|]. exists (S n). intros [|f] Hf; [lia|].
    cbn [fmap list_fmap join items]. by rewrite Hn; [|lia].
  - destruct IH as [m Hm]; [done..|].
    set (tl := join (lit ", ") (dumps <$> j2 :: js)) in *.
    destruct (Hj (lit ", " ++ tl ++ 93 :: rest)) as [n Hn]; [by left|].
    exists (S (n + m)). intros [|f] Hf; [lia|]. rewrite fmap_cons.
    change (join (lit ", ") (dumps j :: (dumps <$> j2 :: js))) with (dumps j ++ lit ", " ++ tl).
    rewrite -!app_assoc. cbn [items]. rewrite Hn; [|lia]. cbn [mbind option_bind].
    change (skip (lit ", " ++ tl ++ 93 :: rest)) with (COMMA :: [32] ++ tl ++ 93 :: rest). cbn match.
    change (skip ([32] ++ tl ++ 93 :: rest)) with (skip (tl ++ 93 :: rest)).
    rewrite (_ : skip (tl ++ 93 :: rest) = tl ++ 93 :: rest).
    { simpl. rewrite Hm //. lia. }
    rewrite /tl. apply Forall_cons_iff in Wjs as [Wj2 _].
    destruct js; cbn [fmap list_fmap join]; rewrite -?app_assoc; by apply dumps_head.
Qed.

Definition write_field (f : pystr * json) : pystr := write_string f.1 ++ lit ": " ++ dumps f.2.

Lemma reads_members fs rest : fs ≠ [] →
  Forall (λ f : pystr * json, ∀ rest, stops rest → reads value (dumps f.2 ++ rest) f.2 rest) fs →
  Forall (λ f : pystr * json, forallb is_scalar f.1 = true ∧ writable f.2) fs →
  reads members (join (lit ", ") (write_field <$> fs) ++ 125 :: rest) fs rest.
Proof.
  induction fs as [|[k j] fs IH]; [done|]. intros _ [Hj Hfs]%Forall_cons_iff [[Hk Wj] Wfs]%Forall_cons_iff.
  simpl in Hj, Hk, Wj.
  (* One field, whatever follows it. *)
  assert (∀ f tl, members (S f) (write_field (k, j) ++ tl) =
    '(j, r) ← value f (dumps j ++ tl);
    match skip r with
    | d :: r => if d =? 125 then Some ([(k, j)], r)
                else if d =? COMMA then '(fs, r) ← members f (skip r); Some ((k, j) :: fs, r)
                else None
    | [] => None
    end) as Hone.
  { intros f tl. rewrite /write_field /write_string -!app_assoc. cbn [members app fst snd].
    rewrite -app_assoc. cbn [app]. rewrite read_written_string //. cbn [mbind option_bind].
    change (skip (lit ": " ++ dumps j ++ tl)) with (COLON :: [32] ++ dumps j ++ tl).
    change (QUOTE =? QUOTE) with true. cbn match. change (COLON =? COLON) with true. cbn match.
    change (skip ([32] ++ dumps j ++ tl)) with (skip (dumps j ++ tl)). by rewrite dumps_head. }
  destruct fs as [|f2 fs].
  - destruct (Hj (125 :: rest)) as [n Hn]; [by right; right|]. exists (S n). intros [|f] Hf; [lia|].
    cbn [fmap list_fmap join]. rewrite Hone. by rewrite Hn; [|lia].
  - destruct IH as [m Hm]; [done..|].
    set (tl := join (lit ", ") (write_field <$> f2 :: fs)) in *.
    destruct (Hj (lit ", " ++ tl ++ 125 :: rest)) as [n Hn]; [by left|].
    exists (S (n + m)). intros [|f] Hf; [lia|]. rewrite fmap_cons.
    change (join (lit ", ") (write_field (k, j) :: (write_field <$> f2 :: fs)))
      with (write_field (k, j) ++ lit ", " ++ tl).
    rewrite (_ : (write_field (k, j) ++ lit ", " ++ tl) ++ 125 :: rest =
                 write_field (k, j) ++ lit ", " ++ tl ++ 125 :: rest); [|by rewrite -!app_assoc].
    rewrite Hone Hn; [|lia]. cbn [mbind option_bind].
    change (skip (lit ", " ++ tl ++ 125 :: rest)) with (COMMA :: [32] ++ tl ++ 125 :: rest). cbn match.
    change (skip ([32] ++ tl ++ 125 :: rest)) with (skip (tl ++ 125 :: rest)).
    rewrite (_ : skip (tl ++ 125 :: rest) = tl ++ 125 :: rest); [simpl; rewrite Hm //; lia|].
    rewrite /tl. by destruct fs.
Qed.

Lemma writable_items js : writable (JArray js) → Forall writable js.
Proof. simpl. induction js as [|j js IH]; simpl; [done|]. intros [? ?]. constructor; auto. Qed.
Lemma writable_fields fs : writable (JObject fs) →
  Forall (λ f : pystr * json, forallb is_scalar f.1 = true ∧ writable f.2) fs.
Proof. simpl. induction fs as [|[k v] fs IH]; simpl; [done|]. intros (? & ? & ?). constructor; auto. Qed.

Lemma reads_dumps j : ∀ rest, writable j → stops rest → reads value (dumps j ++ rest) j rest.
Proof.
  induction j as [|b|t|s|js IH|fs IH] using json_nested_ind; intros rest Hw Hr.
  - exists 1%nat. intros [|f] ?; [lia|done].
  - exists 1%nat. intros [|f] ?; [lia|by destruct b].
  - exists 1%nat. intros [|f] ?; [lia|by apply number_value].
  - exists 1%nat. intros [|f] ?; [lia|]. simpl in Hw |- *. rewrite -app_assoc. cbn [app].
    by rewrite read_written_string.
  - apply writable_items in Hw. destruct js as [|j js].
    { exists 1%nat. intros [|f] ?; [lia|done]. }
    destruct (reads_items (j :: js) rest) as [n Hn]; [done| |done|].
    { apply Forall_elem. intros x Hx rest' Hr'. rewrite !Forall_elem in IH, Hw. auto. }
    exists (S n). intros [|f] Hf; [lia|]. cbn [dumps]. rewrite -app_comm_cons -app_assoc. cbn [value app].
    change (91 =? QUOTE) with false. change (91 =? 123) with false. change (91 =? 91) with true. cbn match.
    set (tl := join (lit ", ") (dumps <$> j :: js)) in *.
    assert (skip (tl ++ 93 :: rest) = tl ++ 93 :: rest) as Hs.
    { apply Forall_cons_iff in Hw as [Wj _]. rewrite /tl.
      destruct js; cbn [fmap list_fmap join]; rewrite -?app_assoc; by apply dumps_head. }
    rewrite Hs. specialize (Hn f ltac:(lia)).
    destruct (tl ++ 93 :: rest) as [|d r] eqn:E; [by destruct f as [|[|f]]|].
    destruct (Z.eqb_spec d 93) as [->|_]; [|by rewrite Hn].
    exfalso. by destruct f as [|[|f]].
  - apply writable_fields in Hw. destruct fs as [|[k j] fs].
    { exists 1%nat. intros [|f] ?; [lia|done]. }
    destruct (reads_members ((k, j) :: fs) rest) as [n Hn]; [done| |done|].
    { apply Forall_elem. intros x Hx rest' Hr'. rewrite !Forall_elem in IH, Hw. apply IH; [done|by apply Hw|done]. }
    exists (S n). intros [|f] Hf; [lia|]. specialize (Hn f ltac:(lia)).
    assert (dumps (JObject ((k, j) :: fs)) ++ rest =
            123 :: join (lit ", ") (write_field <$> (k, j) :: fs) ++ 125 :: rest) as ->.
    { cbn [dumps]. rewrite -app_comm_cons -app_assoc. do 2 f_equal.
      f_equal. apply list_fmap_ext. by intros ? [? ?] _. }
    cbn [value]. change (123 =? QUOTE) with false. change (123 =? 123) with true. cbn match.
    destruct (join (lit ", ") (write_field <$> (k, j) :: fs) ++ 125 :: rest) as [|d r] eqn:E.
    { by destruct fs. }
    assert (d = QUOTE) as -> by (by destruct fs; injection E).
    change (skip (QUOTE :: r)) with (QUOTE :: r). cbn match. change (QUOTE =? 125) with false. cbn match.
    by rewrite Hn.
Qed.

(** What [json.dumps] writes, [json.loads] reads back. *)
Theorem loads_dumps j : writable j → loads (dumps j) = Some j.
Proof.
  intros Hw. destruct (reads_dumps j [] Hw I) as [n Hn]. rewrite app_nil_r in Hn.
  pose proof (dumps_head j [] Hw) as Hs. rewrite !app_nil_r in Hs.
  assert (startswith [BYTE_ORDER_MARK] (dumps j) = false) as Hb.
  { apply not_true_iff_false. intros [t Ht]%startswith_spec.
    specialize (Hn (S n) ltac:(lia)). by rewrite Ht in Hn. }
  rewrite /loads Hb Hs. destruct (value_fuel (dumps j) (enough (dumps j)) (n + enough (dumps j))%nat) as (Hv & _).
  rewrite Hv; [|rewrite /enough; lia..]. by rewrite Hn; [|lia].
Qed.

(** ** Integers *)

(** [int()] of the text of a JSON integer. *)
Definition digits_value (s : pystr) : Z := foldl (λ n c, n * 10 + (c - 48)) 0 s.
Definition json_int (t : pystr) : option Z :=
  match t with
  | c :: s => if c =? HYPHEN then if forallb is_digit s then Some (- digits_value s) else None
              else if forallb is_digit t then Some (digits_value t) else None
  | [] => None
  end.

Lemma decimal_digits_spec f n : 0 <= n < 2 ^ Z.of_nat f → (0 < f)%nat →
  let s := decimal_digits f n in
  digits_value s = n ∧ forallb is_digit s = true ∧ (0 < length s <= f)%nat ∧
  (10 <= n → ∃ c t, s = c :: t ∧ c ≠ 48).
Proof.
  revert n. induction f as [|f IH]; intros n Hn Hf; [lia|]. cbn [decimal_digits].
  destruct (Z.ltb_spec n 10) as [Hs|Hs].
  - split_and!; [rewrite /digits_value /=; lia| |simpl; lia..|lia].
    rewrite /= andb_true_r /is_digit. lia.
  - rewrite Nat2Z.inj_succ Z.pow_succ_r in Hn; [|lia].
    pose proof (Z.div_mod n 10 ltac:(done)). pose proof (Z.mod_pos_bound n 10 ltac:(done)).
    destruct f as [|f]; [simpl in Hn; lia|].
    destruct (IH (n / 10)) as (Hv & Hd & Hl & Hh); [lia|lia|]. cbv zeta in *.
    set (s := decimal_digits (S f) (n / 10)) in *. split_and!.
    + rewrite /digits_value foldl_app -/(digits_value s) Hv /=. lia.
    + rewrite forallb_app Hd /= andb_true_r /is_digit. lia.
    + rewrite length_app /=. lia.
    + rewrite length_app /=. lia.
    + intros _. destruct s as [|c t] eqn:E; [simpl in Hl; lia|]. exists c, (t ++ [48 + n mod 10]). split; [done|].
      destruct (Z.ltb_spec (n / 10) 10) as [Hlt|Hge].
      * assert (s = [48 + n / 10]) as Hs1.
        { rewrite /s. cbn [decimal_digits]. by rewrite (proj2 (Z.ltb_lt _ _) Hlt). }
        rewrite E in Hs1. injection Hs1 as -> _. lia.
      * by destruct (Hh Hge) as (c' & t' & [= -> ->] & ?).
Qed.

Lemma digits_all s : forallb is_digit s = true → digits s = (s, []).
Proof. induction s as [|c s IH]; simpl; [done|]. intros [-> Hs]%andb_true_iff. by rewrite IH. Qed.

(** A count is written as a number that is read back. *)
Lemma str_of_Z_number n : 0 <= n < 2 ^ 64 →
  number_text (str_of_Z n) ∧ json_int (str_of_Z n) = Some n.
Proof.
  intros Hn. rewrite /str_of_Z (_ : n <? 0 = false); [|lia].
  assert (0 <= Z.log2 n < 64) as Hlog.
  { split; [apply Z.log2_nonneg|]. destruct (decide (n = 0)) as [->|]; [done|]. apply Z.log2_lt_pow2; lia. }
  assert (0 <= n < 2 ^ Z.of_nat (S (Z.to_nat (Z.log2 n)))) as Hb.
  { split; [lia|]. rewrite Nat2Z.inj_succ Z2Nat.id; [|lia].
    destruct (decide (n = 0)) as [->|]; [done|]. apply Z.log2_spec. lia. }
  destruct (decimal_digits_spec _ n Hb ltac:(lia)) as (Hv & Hd & Hl & Hh). cbv zeta in *.
  set (s := decimal_digits _ n) in *. destruct s as [|c t] eqn:E; [simpl in Hl; lia|].
  assert (is_digit c = true) as Hc by (by apply andb_prop in Hd as [? _]).
  assert (c ≠ HYPHEN) as Hm by (rewrite /is_digit in Hc; rewrite /HYPHEN; lia).
  split; [|by rewrite /json_int (proj2 (Z.eqb_neq c HYPHEN)) // Hd Hv].
  assert (read_number (c :: t) = Some (JNumber (c :: t), [])) as Hr.
  { rewrite /read_number. cbn [one_of]. rewrite (proj2 (Z.eqb_neq c HYPHEN)) //.
    assert (whole_part (c :: t) = (c :: t, [])) as ->.
    { cbn [whole_part]. destruct (Z.eqb_spec c 48) as [->|]; [|by apply digits_all].
      destruct (Z.ltb_spec n 10) as [Hlt|Hge]; [|by destruct (Hh Hge) as (? & ? & [= <- <-] & ?)].
      rewrite /s in E. cbn [decimal_digits] in E. rewrite (proj2 (Z.ltb_lt _ _) Hlt) in E. by injection E as _ <-. }
    simpl. rewrite (_ : MAX_STR_DIGITS <? len (c :: t) = false) //.
    rewrite /len /MAX_STR_DIGITS. lia. }
  rewrite /number_text /read_atom. pose proof (no_word _ _ _ [] Hr) as Hw. rewrite app_nil_r in Hw. by rewrite Hw.
Qed.

(** ** Bytes *)

(** The text is ASCII, so encoding it changes nothing. *)
Definition dump_bytes (j : json) : list Z := default [] (utf8_encode (dumps j)).
(** [json.loads(data.decode("utf-8"))]. *)
Definition load_bytes (bs : list Z) : option json := s ← decode_strict bs; loads s.

Lemma isascii_join sep l : isascii sep = true → Forall (λ s, isascii s = true) l → isascii (join sep l) = true.
Proof.
  intros Hs. induction 1 as [|x l Hx Hl IH]; [done|]. destruct l as [|y l]; [done|].
  change (join sep (x :: y :: l)) with (x ++ sep ++ join sep (y :: l)). by rewrite !isascii_app Hx Hs IH.
Qed.

Lemma digits_ascii s : isascii (digits s).1 = true.
Proof.
  induction s as [|c s IH]; simpl; [done|]. destruct (is_digit c) eqn:E; [|done].
  destruct (digits s) as [ds r]. simpl in *. rewrite IH andb_true_r. rewrite /is_digit in E. rewrite /is_ascii. lia.
Qed.
Lemma one_of_ascii p s : (∀ c, p c = true → is_ascii c = true) → isascii (one_of p s).1 = true.
Proof. intros Hp. destruct s as [|c s]; [done|]. simpl. destruct (p c) eqn:E; [|done]. by rewrite /= Hp. Qed.

Lemma read_number_ascii s t r : read_number s = Some (JNumber t, r) → isascii t = true.
Proof.
  rewrite /read_number. pose proof (one_of_ascii (λ c, c =? HYPHEN) s) as H1.
  destruct (one_of _ s) as [sign s1]. simpl in H1.
  assert (isascii (whole_part s1).1 = true) as H2.
  { destruct s1 as [|c s1]; [done|]. cbn [whole_part]. destruct (Z.eqb_spec c 48) as [->|]; [done|]. apply digits_ascii. }
  destruct (whole_part s1) as [[|w whole] s2]; [done|].
  assert (isascii (fraction s2).1 = true) as H3.
  { destruct s2 as [|c s2]; [done|]. simpl. pose proof (digits_ascii s2) as Hd.
    destruct (digits s2) as [[|d ds] r']; [done|]. by destruct (Z.eqb_spec c DOT) as [->|]. }
  destruct (fraction s2) as [frac s3].
  assert (isascii (exponent s3).1 = true) as H4.
  { destruct s3 as [|c s3]; [done|]. simpl.
    pose proof (one_of_ascii (λ c, (c =? 43) || (c =? HYPHEN)) s3) as H5. destruct (one_of _ s3) as [sg s4].
    pose proof (digits_ascii s4) as Hd. destruct (digits s4) as [[|d ds] r']; [done|].
    destruct ((c =? 101) || (c =? 69)) eqn:E; [|done]. cbn [fst]. change (c :: sg ++ d :: ds) with ([c] ++ sg ++ d :: ds).
    rewrite !isascii_app Hd H5; [|intros x Hx; rewrite /is_ascii; rewrite /HYPHEN in Hx; lia].
    rewrite /= /is_ascii. lia. }
  destruct (exponent s3) as [ex s4]. cbn [fst] in *.
  assert (isascii sign = true) as H0 by (apply H1; intros c ->%Z.eqb_eq; done).
  assert (isascii (sign ++ (w :: whole) ++ frac ++ ex) = true) as Ht.
  { rewrite isascii_app H0. rewrite (isascii_app (w :: whole)) H2. by rewrite isascii_app H3 H4. }
  destruct frac, ex; [destruct (MAX_STR_DIGITS <? _); [done|]|..]; intros [= <- <-];
    rewrite ?app_nil_r in Ht |- *; exact Ht.
Qed.

Lemma number_text_ascii t : number_text t → isascii t = true.
Proof.
  rewrite /number_text /read_atom. destruct (list_find _ words) as [[n [w j]]|] eqn:E; [|apply read_number_ascii].
  intros [= -> Hd]. apply list_find_Some in E as (Hl & Hs & _). simpl in Hs.
  apply startswith_spec in Hs as [t' ->]. rewrite drop_app_length in Hd. subst t'. rewrite app_nil_r in Hl |- *.
  apply list_elem_of_lookup_2 in Hl. rewrite /words in Hl. set_unfold. by destruct_or!; simplify_eq.
Qed.

Lemma four_hex_ascii c : 0 <= c < 65536 → isascii (four_hex c) = true.
Proof.
  intros Hc. assert (∀ n, 0 <= n < 16 → is_ascii (hex_digit n) = true) as Hd.
  { intros n Hn. rewrite /hex_digit /is_ascii. case_match; lia. }
  rewrite /four_hex /= !Hd //; try (apply Z.mod_pos_bound; done).
  split; [apply Z.div_pos; lia|apply Z.div_lt_upper_bound; lia].
Qed.

Lemma write_char_ascii c : is_scalar c = true → isascii (write_char c) = true.
Proof.
  rewrite /is_scalar. intros Hc. reflect_bools. rewrite /write_char.
  do 2 (case_match; [done|]). case_match; [rewrite /= /is_ascii; lia|]. do 5 (case_match; [done|]).
  destruct (Z.ltb_spec c 65536).
  - apply (four_hex_ascii c). lia.
  - pose proof (Z.mod_pos_bound (c - 65536) 1024 ltac:(done)).
    assert (0 <= (c - 65536) / 1024 < 1024) by (split; [apply Z.div_pos|apply Z.div_lt_upper_bound]; lia).
    rewrite isascii_app. apply andb_true_intro. split; apply (four_hex_ascii _); lia.
Qed.

Lemma write_string_ascii s : forallb is_scalar s = true → isascii (write_string s) = true.
Proof.
  intros Hs. rewrite /write_string. change (QUOTE :: ?x ++ [QUOTE]) with ([QUOTE] ++ x ++ [QUOTE]).
  rewrite !isascii_app /= andb_true_r. induction s as [|c s IH]; [done|]. simpl in Hs. reflect_bools.
  rewrite fmap_cons. cbn [concat]. by rewrite isascii_app write_char_ascii // IH.
Qed.

Lemma dumps_ascii j : writable j → isascii (dumps j) = true.
Proof.
  induction j as [|b|t|s|js IH|fs IH] using json_nested_ind; intros Hw; [done|by destruct b| | | |].
  - by apply number_text_ascii.
  - by apply write_string_ascii.
  - apply writable_items in Hw. cbn [dumps].
    rewrite (isascii_app [91]) /= isascii_app /= andb_true_r. apply isascii_join; [done|].
    apply Forall_fmap. rewrite !Forall_elem in IH, Hw |- *. intros x Hx. simpl. auto.
  - apply writable_fields in Hw. cbn [dumps].
    rewrite (isascii_app [123]) /= isascii_app /= andb_true_r. apply isascii_join; [done|].
    apply Forall_fmap. rewrite !Forall_elem in IH, Hw |- *. intros [k v] Hx.
    change (isascii (write_string k ++ lit ": " ++ dumps v) = true).
    destruct (Hw _ Hx) as [Hk Hv]. rewrite isascii_app write_string_ascii // isascii_app.
    exact (IH _ Hx Hv).
Qed.

Lemma load_dump_bytes j : writable j → load_bytes (dump_bytes j) = Some j.
Proof.
  intros Hw. pose proof (dumps_ascii j Hw) as Ha. rewrite /dump_bytes utf8_encode_ascii //.
  by rewrite /load_bytes /= decode_strict_ascii //= loads_dumps.
Qed.
