(* ===== verification/Exceptions.v ===== *)
(** * The exception hierarchy of the domain

    [domain/exceptions.py].  Every class is a constructor carrying what the
    handlers read off it (the machine-readable [code] is a function of the
    constructor, as in the source); the translated sentence is presentation,
    except for [ValidationError] and plain [DomainError], whose template
    tells one refusal from another.  [PyError] stands for the exceptions of
    the interpreter the code lets through. *)

From S2P Require Import Prelude PyStr.

Inductive py_error :=
| ValueError
| UnicodeEncodeError
| RuntimeError
| OverflowError
| IntegrityError
| TypeError.

#[global] Instance py_error_eq_dec : EqDecision py_error.
Proof. solve_decision. Defined.

Inductive exn :=
| DomainError (template code : pystr)
| PermissionDeniedError (required exceeded : list pystr)
| ValidationError (template : pystr) (field : option pystr)
| RefreshTokenReplayedError (user_id chain_id : pystr)
| LinkNotFoundError (short_code : option pystr)
| CodeGenerationError
| LinkConflictError
| LinkCodeTakenError (short_code : pystr)
| LinkExpiredError (short_code : pystr)
| GuestLinkLimitExceededError (limit : Z) (retry_after_seconds : option Z)
| UserNotFoundError (user_id : pystr)
| EmailAlreadyRegisteredError
| RoleNotFoundError (role_name : pystr)
| RoleAlreadyExistsError (role_name : pystr)
| RoleIsSystemError (role_name : pystr)
| RoleNotAssignableError (role_name : pystr)
| PermissionsNotFoundError (names : list pystr)
| PyError (e : py_error).

#[global] Instance exn_eq_dec : EqDecision exn.
Proof. solve_decision. Defined.

(** [error.code]; the interpreter's own exceptions have none. *)
Definition exn_code (e : exn) : option pystr :=
  match e with
  | DomainError _ code => Some code
  | PermissionDeniedError _ _ => Some (lit "FORBIDDEN")
  | ValidationError _ _ => Some (lit "VALIDATION_ERROR")
  | RefreshTokenReplayedError _ _ => Some (lit "REFRESH_TOKEN_REPLAYED")
  | LinkNotFoundError _ => Some (lit "LINK_NOT_FOUND")
  | CodeGenerationError => Some (lit "CODE_GENERATION_FAILED")
  | LinkConflictError => Some (lit "LINK_CONFLICT")
  | LinkCodeTakenError _ => Some (lit "LINK_CODE_TAKEN")
  | LinkExpiredError _ => Some (lit "LINK_EXPIRED")
  | GuestLinkLimitExceededError _ _ => Some (lit "GUEST_LINK_LIMIT")
  | UserNotFoundError _ => Some (lit "USER_NOT_FOUND")
  | EmailAlreadyRegisteredError => Some (lit "EMAIL_ALREADY_REGISTERED")
  | RoleNotFoundError _ => Some (lit "ROLE_NOT_FOUND")
  | RoleAlreadyExistsError _ => Some (lit "ROLE_ALREADY_EXISTS")
  | RoleIsSystemError _ => Some (lit "ROLE_IS_SYSTEM")
  | RoleNotAssignableError _ => Some (lit "ROLE_NOT_ASSIGNABLE")
  | PermissionsNotFoundError _ => Some (lit "PERMISSIONS_NOT_FOUND")
  | PyError _ => None
  end.

(** [isinstance(e, ValidationError)]: the class and its one subclass. *)
Definition is_validation_error (e : exn) : bool :=
  match e with ValidationError _ _ | EmailAlreadyRegisteredError => true | _ => false end.

(** [e.field] of a validation error. *)
Definition exn_field (e : exn) : option pystr :=
  match e with
  | ValidationError _ f => f
  | EmailAlreadyRegisteredError => Some (lit "email")
  | _ => None
  end.

Definition is_domain_error (e : exn) : bool :=
  match e with PyError _ => false | _ => true end.

(** [isinstance(e, ValueError)]; [UnicodeEncodeError] is a subclass of it. *)
Definition is_value_error (e : exn) : bool :=
  match e with PyError ValueError | PyError UnicodeEncodeError => true | _ => false end.

Definition invalid (field template : string) : exn :=
  ValidationError (lit template) (Some (lit field)).
