(* ===== verification/ValueObjects.v ===== *)
(** * Value objects of the domain

    [domain/value_objects/]: short codes, URL digests, owners, password
    hashes, deduplication scopes and email addresses.  Each has a record for
    the frozen dataclass and a [new_*] function for its constructor, which
    validates in [__post_init__] and raises.  [original_url.py] is modelled
    in a file of its own. *)

From S2P Require Import Prelude PyStr Exceptions.

(** ** Short codes: [short_code.py] *)

Definition MIN_LENGTH : Z := 6.
Definition MAX_LENGTH : Z := 10.

Definition is_code_char (c : Z) : bool :=
  is_alnum c || (c =? UNDERSCORE) || (c =? HYPHEN).

(** [CODE_PATTERN.fullmatch]: [[a-zA-Z0-9_-]{6,10}]. *)
Definition code_matches (s : pystr) : bool :=
  forallb is_code_char s && (MIN_LENGTH <=? len s) && (len s <=? MAX_LENGTH).

Record ShortCode := MkShortCode { sc_value : pystr }.

#[global] Instance ShortCode_eq_dec : EqDecision ShortCode.
Proof. solve_decision. Defined.

Definition new_ShortCode (value : pystr) : result exn ShortCode :=
  if code_matches value then Ok (MkShortCode value)
  else Err (invalid "short_code"
    "Invalid short code format: %(value)s. Must be %(min)s-%(max)s alphanumeric characters, underscore, or hyphen.").

Lemma new_ShortCode_ok s c :
  new_ShortCode s = Ok c ↔ code_matches s = true ∧ c = MkShortCode s.
Proof. rewrite /new_ShortCode. case_match; split; try done; [by intros [= <-]|by intros [_ ->]|by intros [? _]]. Qed.

Lemma is_code_char_ascii c : is_code_char c = true → is_ascii c = true.
Proof.
  rewrite /is_code_char /is_alnum /is_alpha /is_upper /is_lower /is_digit /is_ascii
    /UNDERSCORE /HYPHEN. lia.
Qed.

Lemma code_matches_ascii s : code_matches s = true → isascii s = true.
Proof.
  rewrite /code_matches /isascii !andb_true_iff => [[[H _] _]].
  rewrite forallb_forall in H. rewrite forallb_forall => c Hc.
  by apply is_code_char_ascii, H.
Qed.

(** ** URL digests: [url_hash.py] *)

Definition is_hex_digit (c : Z) : bool := is_digit c || ((97 <=? c) && (c <=? 102)).

(** [HASH_PATTERN.fullmatch]: [[a-f0-9]{64}]. *)
Definition hash_matches (s : pystr) : bool := forallb is_hex_digit s && (len s =? 64).

Record UrlHash := MkUrlHash { uh_value : pystr }.

#[global] Instance UrlHash_eq_dec : EqDecision UrlHash.
Proof. solve_decision. Defined.
#[global] Instance UrlHash_countable : Countable UrlHash.
Proof. by refine (inj_countable' uh_value MkUrlHash _); intros []. Defined.

Definition new_UrlHash (value : pystr) : result exn UrlHash :=
  if hash_matches value then Ok (MkUrlHash value)
  else Err (invalid "url_hash" "Invalid hash format: %(value)s. Must be 64 hex characters.").

(** ** Owners and password hashes *)

Record OwnerID := MkOwnerID { oid_value : pystr }.

#[global] Instance OwnerID_eq_dec : EqDecision OwnerID.
Proof. solve_decision. Defined.

(** [not value or not value.strip()] is [is_blank value] ([strip_nil]). *)
Definition new_OwnerID (value : pystr) : result exn OwnerID :=
  if bool_decide (value = []) || bool_decide (strip value = [])
  then Err (invalid "owner_id"
    "Owner id must not be empty. An owner-less link carries owner=None.")
  else Ok (MkOwnerID value).

Record PasswordHash := MkPasswordHash { ph_value : pystr }.

#[global] Instance PasswordHash_eq_dec : EqDecision PasswordHash.
Proof. solve_decision. Defined.

(** Raises a plain [ValueError], outside the domain's hierarchy. *)
Definition new_PasswordHash (value : pystr) : result exn PasswordHash :=
  if bool_decide (value = []) || bool_decide (strip value = [])
  then Err (PyError ValueError)
  else Ok (MkPasswordHash value).

Lemma new_OwnerID_ok s o :
  new_OwnerID s = Ok o ↔ is_blank s = false ∧ o = MkOwnerID s.
Proof.
  rewrite /new_OwnerID. destruct (is_blank s) eqn:Hb.
  - assert (strip s = []) as -> by (by apply strip_nil).
    rewrite (bool_decide_eq_true_2 ([] = [])) // orb_true_r. naive_solver.
  - assert (strip s ≠ []) by (rewrite strip_nil; congruence).
    assert (s ≠ []) by (by intros ->).
    rewrite !bool_decide_eq_false_2 //=. naive_solver.
Qed.

(** ** Destinations: the data of [original_url.py]

    The settings that decided admission ([allowed_schemes], [max_length],
    [allow_internal_targets], [trusted]) are [compare=False] in the source:
    a URL is its value. *)

Record OriginalUrl := MkOriginalUrl { ou_value : pystr }.

#[global] Instance OriginalUrl_eq_dec : EqDecision OriginalUrl.
Proof. solve_decision. Defined.

(** ** Deduplication scopes: [dedup_scope.py] *)

Record DedupScope := MkDedupScope {
  ds_owner_id : option pystr;
  ds_guest_identifier : option pystr;
}.

#[global] Instance DedupScope_eq_dec : EqDecision DedupScope.
Proof. solve_decision. Defined.

(** The constructor with [__post_init__]: ownership drops the address. *)
Definition new_DedupScope (owner_id guest_identifier : option pystr) : DedupScope :=
  match owner_id with
  | Some _ => MkDedupScope owner_id None
  | None => MkDedupScope None guest_identifier
  end.

Definition for_guest (guest_identifier : option pystr) : DedupScope :=
  new_DedupScope None guest_identifier.
Definition for_owner (owner_id : pystr) : DedupScope :=
  new_DedupScope (Some owner_id) None.

Definition token (s : DedupScope) : pystr :=
  match ds_owner_id s, ds_guest_identifier s with
  | Some o, _ => lit "u:" ++ o
  | None, Some g => lit "g:" ++ g
  | None, None => lit "anon"
  end.

(** What the constructor establishes. *)
Definition scope_wf (s : DedupScope) : Prop :=
  is_Some (ds_owner_id s) → ds_guest_identifier s = None.

Lemma new_DedupScope_wf o g : scope_wf (new_DedupScope o g).
Proof. destruct o; [done|]. intros [? [=]]. Qed.

#[export] Hint Resolve new_DedupScope_wf : tables.

(** Scopes the constructor builds are named apart by their tokens. *)
Lemma token_inj s1 s2 : scope_wf s1 → scope_wf s2 → token s1 = token s2 → s1 = s2.
Proof.
  destruct s1 as [[o1|] [g1|]], s2 as [[o2|] [g2|]]; rewrite /scope_wf /token /=;
    intros H1 H2 Heq; try (by specialize (H1 (mk_is_Some _ _ eq_refl)));
    try (by specialize (H2 (mk_is_Some _ _ eq_refl))); by simplify_eq.
Qed.

(** ** Email addresses: [email.py] *)

Definition MAX_EMAIL_LENGTH : Z := 254.

(** The class [[^@\s\x1c-\x1f]]. *)
Definition email_char (c : Z) : bool :=
  negb (c =? AT_SIGN) && negb (is_space c) && negb ((28 <=? c) && (c <=? 31)).

(** A string without its first and last characters. *)
Definition interior (s : pystr) : pystr :=
  match s with [] => [] | _ :: t => removelast t end.

(** [re.match(EMAIL_PATTERN_RE, value)]; [email_matches_spec] relates this
    decision procedure to the expression. *)
Definition email_matches (s : pystr) : bool :=
  match split_on AT_SIGN s with
  | [local; domain] =>
      bool_decide (local ≠ []) && forallb email_char local
      && forallb email_char domain && has_char DOT (interior domain)
  | _ => false
  end.

Record Email := MkEmail { em_value : pystr }.

#[global] Instance Email_eq_dec : EqDecision Email.
Proof. solve_decision. Defined.

Section email.
Context `{CaseFolding}.

Definition normalise (value : pystr) : pystr := lower value.

Definition new_Email (value : pystr) : result exn Email :=
  if MAX_EMAIL_LENGTH <? len value then Err (invalid "email" "Email address is too long")
  else if negb (email_matches value) then Err (invalid "email" "Invalid email format")
  else Ok (MkEmail (normalise value)).

(** Validated as an input, then set back to what was stored. *)
Definition email_from_storage (value : pystr) : result exn Email :=
  new_Email value ≫= λ _, Ok (MkEmail value).
End email.

(** The language of the expression: local part, one [@], a domain with a
    dot inside it, no white space anywhere. *)
Definition email_shape (s : pystr) : Prop :=
  ∃ l a b, s = l ++ AT_SIGN :: a ++ DOT :: b ∧ l ≠ [] ∧ a ≠ [] ∧ b ≠ [] ∧
    forallb email_char (l ++ a ++ b) = true.

Lemma email_char_not_at s : forallb email_char s = true → AT_SIGN ∉ s.
Proof.
  rewrite forallb_forall => Hs Hin. apply list_elem_of_In, Hs in Hin. done.
Qed.

Lemma removelast_split {A} (t : list A) : t ≠ [] → ∃ x, t = removelast t ++ [x].
Proof.
  intros Ht. destruct t as [|x t] using rev_ind; [done|].
  exists x. by rewrite removelast_last.
Qed.

Lemma has_dot_interior s :
  has_char DOT (interior s) = true ↔ ∃ a b, s = a ++ DOT :: b ∧ a ≠ [] ∧ b ≠ [].
Proof.
  rewrite has_char_spec. split.
  - destruct s as [|x t]; simpl; [by intros ?%elem_of_nil|]. intros Hin.
    destruct (decide (t = [])) as [->|Ht]; [by apply elem_of_nil in Hin|].
    destruct (removelast_split t Ht) as [y Hy].
    apply list_elem_of_split in Hin as (t1 & t2 & Hsplit).
    exists (x :: t1), (t2 ++ [y]). rewrite Hy Hsplit -app_assoc /=.
    split; [done|]. split; [done|]. by destruct t2.
  - intros (a & b & -> & Ha & Hb). destruct a as [|x a]; [done|]. simpl.
    destruct (removelast_split b Hb) as [y ->].
    rewrite (_ : a ++ DOT :: removelast b ++ [y] = (a ++ DOT :: removelast b) ++ [y]);
      [|by rewrite -app_assoc].
    rewrite removelast_last. set_solver.
Qed.

Lemma email_matches_spec s : email_matches s = true ↔ email_shape s.
Proof.
  rewrite /email_matches /email_shape. split.
  - destruct (split_on AT_SIGN s) as [|l [|d [|]]] eqn:Hs; try done.
    rewrite !andb_true_iff bool_decide_eq_true => [[[[Hl Hlc] Hdc] Hdot]].
    apply has_dot_interior in Hdot as (a & b & -> & Ha & Hb).
    exists l, a, b. split_and!; [|done..|].
    + by rewrite -(join_split AT_SIGN s) Hs.
    + rewrite !forallb_app Hlc /=. rewrite forallb_app /= !andb_true_iff in Hdc.
      rewrite !andb_true_iff. tauto.
  - intros (l & a & b & -> & Hl & Ha & Hb & Hc).
    rewrite !forallb_app !andb_true_iff in Hc. destruct Hc as (Hlc & Hac & Hbc).
    assert (forallb email_char (a ++ DOT :: b) = true) as Hd.
    { rewrite forallb_app /= Hac Hbc. done. }
    rewrite split_on_app; [|by apply email_char_not_at].
    rewrite split_on_no; [|by apply email_char_not_at].
    rewrite bool_decide_eq_true_2 // Hlc Hd /=. apply has_dot_interior. eauto.
Qed.

(** Lowering an ASCII address changes no verdict. *)
Lemma ascii_lower_eqb c k : is_upper k = false → is_lower k = false →
  (ascii_lower c =? k) = (c =? k).
Proof. rewrite /ascii_lower /is_upper /is_lower. case_match; lia. Qed.

Lemma email_char_lower c : email_char (ascii_lower c) = email_char c.
Proof.
  rewrite /email_char ascii_lower_eqb // /is_space /ascii_lower /is_upper.
  case_match; lia.
Qed.

Lemma forallb_email_char_lower s :
  forallb email_char (ascii_lower <$> s) = forallb email_char s.
Proof. induction s as [|c s IH]; simpl; [done|]. by rewrite email_char_lower IH. Qed.

Lemma email_shape_lower s : email_shape s → email_shape (ascii_lower <$> s).
Proof.
  intros (l & a & b & -> & Hl & Ha & Hb & Hc).
  exists (ascii_lower <$> l), (ascii_lower <$> a), (ascii_lower <$> b).
  rewrite !fmap_app !fmap_cons !fmap_app !fmap_cons. split_and!; [done|..].
  1-3: by intros ?%fmap_nil_inv.
  by rewrite -!fmap_app forallb_email_char_lower.
Qed.

(** Lowering keeps [@] and [.] where they are. *)
Lemma ascii_lower_split k s x y : is_upper k = false → is_lower k = false →
  ascii_lower <$> s = x ++ k :: y →
  ∃ x' y', s = x' ++ k :: y' ∧ x = ascii_lower <$> x' ∧ y = ascii_lower <$> y'.
Proof.
  intros Hu Hl (x' & z & -> & Hz & ->)%fmap_app_inv.
  symmetry in Hz. apply fmap_cons_inv in Hz as (k' & y' & Hk & -> & ->).
  exists x', y'. split; [|done]. symmetry in Hk. apply Z.eqb_eq in Hk.
  rewrite ascii_lower_eqb // in Hk. by apply Z.eqb_eq in Hk as ->.
Qed.

Lemma email_shape_unlower s : email_shape (ascii_lower <$> s) → email_shape s.
Proof.
  intros (l & a & b & Heq & Hl & Ha & Hb & Hc).
  apply ascii_lower_split in Heq as (l' & d & -> & -> & Hd); [|done..].
  symmetry in Hd. apply ascii_lower_split in Hd as (a' & b' & -> & -> & ->); [|done..].
  exists l', a', b'. split; [done|]. rewrite -!fmap_app forallb_email_char_lower in Hc.
  split_and!; [by intros ->..|done].
Qed.

(** ** What the constructors guarantee *)

(** an ASCII address the constructor admits is stored in lower case, has
    the shape of an address (one [@], a dot inside the domain, no white
    space), at most 254 characters, and reads back from storage as itself;
    two spellings that differ in case make equal addresses. *)
Theorem admitted_email_is_normal `{CaseFolding} s e :
  isascii s = true → new_Email s = Ok e →
  email_shape (em_value e) ∧ len (em_value e) <= MAX_EMAIL_LENGTH ∧
  email_from_storage (em_value e) = Ok e ∧ new_Email (em_value e) = Ok e ∧
  (∀ s', isascii s' = true → lower s' = lower s → new_Email s' = Ok e).
Proof.
  intros Hs. assert (∀ x, isascii x = true → len (lower x) = len x) as Hlen.
  { intros x Hx. by rewrite /lower Hx /len length_fmap. }
  assert (∀ x, isascii x = true → email_matches (lower x) = email_matches x) as Hm.
  { intros x Hx. rewrite /lower Hx. apply eq_bool_prop_intro.
    rewrite !Is_true_true !email_matches_spec. split; [|apply email_shape_lower].
    apply email_shape_unlower. }
  rewrite {1}/new_Email. destruct (MAX_EMAIL_LENGTH <? len s) eqn:Hl; [done|].
  destruct (email_matches s) eqn:Hms; [|done]. intros [= <-]. simpl.
  rewrite /normalise. assert (isascii (lower s) = true) as Hsl by (by apply isascii_lower).
  assert (new_Email (lower s) = Ok (MkEmail (lower s))) as Hnew.
  { by rewrite /new_Email Hlen // Hl Hm // Hms /= /normalise lower_idemp_ascii. }
  split_and!; [apply email_matches_spec; by rewrite Hm|rewrite Hlen //; lia| |done|].
  - by rewrite /email_from_storage Hnew.
  - intros s' Hs' Heq. rewrite /new_Email -(Hlen s') // -(Hm s') // Heq Hlen // Hl Hm // Hms /=.
    by rewrite /normalise Heq.
Qed.

#[local] Instance ascii_folding : CaseFolding := fmap ascii_lower.

Lemma admitted_email_is_normal_witness :
  email_from_storage (lit "jo@example.org") = Ok (MkEmail (lit "jo@example.org")) ∧
  new_Email (lit "jO@exaMple.org") = Ok (MkEmail (lit "jo@example.org")).
Proof.
  destruct (admitted_email_is_normal (lit "Jo@Example.org") (MkEmail (lit "jo@example.org")))
    as (_ & _ & Hs & _ & Hc); [vm_compute; reflexivity..|].
  split; [exact Hs|]. apply Hc; vm_compute; reflexivity.
Defined.
