(* ===== verification/Entities.v ===== *)
(** * Entities of the domain

    [domain/entities/]: permissions, roles, users, links, refresh sessions
    and the two kinds of mailed token, with the methods that carry business
    rules.  A timestamp is the number of microseconds since the epoch, UTC
    (SQLite's naive values are read as UTC by every entity).  The clock and
    the [uuid4] an operation draws are arguments. *)

From S2P Require Import Prelude PyStr Exceptions ValueObjects.

Definition SECOND : Z := 1000000.
Definition MINUTE : Z := 60 * SECOND.
Definition HOUR : Z := 60 * MINUTE.
Definition DAY : Z := 24 * HOUR.

(** 9999-12-31T23:59:59.999999Z, [datetime.max]. *)
Definition DATETIME_MAX : Z := 253402300800 * SECOND - 1.

(** ** Permissions and roles *)

Record Permission := MkPermission {
  perm_id : pystr;
  perm_name : pystr;
  perm_resource : pystr;
  perm_action : pystr;
  perm_description : option pystr;
}.

#[global] Instance Permission_eq_dec : EqDecision Permission.
Proof. solve_decision. Defined.

Record Role := MkRole {
  role_id : pystr;
  role_name : pystr;
  role_description : option pystr;
  role_is_system : bool;
  role_permissions : list Permission;
}.

#[global] Instance Role_eq_dec : EqDecision Role.
Proof. solve_decision. Defined.

Definition ensure_may_be_changed (r : Role) : result exn unit :=
  if role_is_system r then Err (RoleIsSystemError (role_name r)) else Ok tt.

Definition role_has_permission (r : Role) (permission_name : pystr) : bool :=
  existsb (λ p, bool_decide (perm_name p = permission_name)) (role_permissions r).

Definition GUEST_ROLE_NAME : pystr := lit "guest".

(** [role_policy.require_roles_are_assignable]: the first role no account
    may wear refuses the list. *)
Fixpoint require_roles_are_assignable (roles : list Role) : result exn unit :=
  match roles with
  | [] => Ok tt
  | r :: rs =>
      if decide (role_name r = GUEST_ROLE_NAME)
      then Err (RoleNotAssignableError (role_name r))
      else require_roles_are_assignable rs
  end.

Lemma require_roles_are_assignable_ok roles :
  require_roles_are_assignable roles = Ok tt ↔
  ∀ r, r ∈ roles → role_name r ≠ GUEST_ROLE_NAME.
Proof.
  induction roles as [|r rs IH]; simpl; [set_solver|].
  case_decide as Hr; [split; [done|set_solver]|]. rewrite IH. set_solver.
Qed.

(** ** Users *)

Record User := MkUser {
  user_id : pystr;
  user_email : Email;
  user_password_hash : PasswordHash;
  user_roles : list Role;
  user_is_active : bool;
  user_email_verified : bool;
  user_created_at : Z;
  user_last_login : option Z;
}.

#[global] Instance User_eq_dec : EqDecision User.
Proof. solve_decision. Defined.

(** [User.create]. *)
Definition create_user_entity (now : Z) (uuid : pystr) (email : Email)
    (password_hash : PasswordHash) (roles : list Role) (email_verified : bool)
    : result exn User :=
  require_roles_are_assignable roles ≫= λ _,
  Ok {| user_id := uuid; user_email := email; user_password_hash := password_hash;
        user_roles := roles; user_is_active := true;
        user_email_verified := email_verified; user_created_at := now;
        user_last_login := None |}.

Definition user_has_permission (u : User) (permission_name : pystr) : bool :=
  existsb (λ r, role_has_permission r permission_name) (user_roles u).

Definition set_active (b : bool) (u : User) : User :=
  {| user_id := user_id u; user_email := user_email u;
     user_password_hash := user_password_hash u; user_roles := user_roles u;
     user_is_active := b; user_email_verified := user_email_verified u;
     user_created_at := user_created_at u; user_last_login := user_last_login u |}.
Definition activate : User → User := set_active true.
Definition deactivate : User → User := set_active false.

Definition confirm_email (u : User) : User :=
  {| user_id := user_id u; user_email := user_email u;
     user_password_hash := user_password_hash u; user_roles := user_roles u;
     user_is_active := user_is_active u; user_email_verified := true;
     user_created_at := user_created_at u; user_last_login := user_last_login u |}.

Definition with_roles (roles : list Role) (u : User) : User :=
  {| user_id := user_id u; user_email := user_email u;
     user_password_hash := user_password_hash u; user_roles := roles;
     user_is_active := user_is_active u; user_email_verified := user_email_verified u;
     user_created_at := user_created_at u; user_last_login := user_last_login u |}.

Definition with_password_hash (h : PasswordHash) (u : User) : User :=
  {| user_id := user_id u; user_email := user_email u;
     user_password_hash := h; user_roles := user_roles u;
     user_is_active := user_is_active u; user_email_verified := user_email_verified u;
     user_created_at := user_created_at u; user_last_login := user_last_login u |}.

Definition with_last_login (t : option Z) (u : User) : User :=
  {| user_id := user_id u; user_email := user_email u;
     user_password_hash := user_password_hash u; user_roles := user_roles u;
     user_is_active := user_is_active u; user_email_verified := user_email_verified u;
     user_created_at := user_created_at u; user_last_login := t |}.

(** ** Links *)

Record Link := MkLink {
  link_id : pystr;
  link_url_hash : UrlHash;
  link_short_code : ShortCode;
  link_original_url : OriginalUrl;
  link_created_at : Z;
  link_clicks : Z;
  link_last_accessed : option Z;
  link_owner : option OwnerID;
  link_expires_at : option Z;
  link_guest_identifier : option pystr;
}.

#[global] Instance Link_eq_dec : EqDecision Link.
Proof. solve_decision. Defined.

(** [Link.create].  [timedelta(seconds=...)] and the addition both overflow
    past [datetime.max], and both overflows become the same refusal. *)
Definition create_link (now : Z) (uuid : pystr) (url_hash : UrlHash)
    (short_code : ShortCode) (original_url : OriginalUrl) (owner : option OwnerID)
    (guest_identifier : option pystr) (ttl_seconds : Z) : result exn Link :=
  let expires_at :=
    if 0 <? ttl_seconds then
      if DATETIME_MAX <? now + ttl_seconds * SECOND
      then Err (invalid "ttl_seconds" "ttl_seconds is too large to be a date")
      else Ok (Some (now + ttl_seconds * SECOND))
    else Ok None in
  expires_at ≫= λ e,
  Ok {| link_id := uuid; link_url_hash := url_hash; link_short_code := short_code;
        link_original_url := original_url; link_created_at := now; link_clicks := 0;
        link_last_accessed := None; link_owner := owner; link_expires_at := e;
        link_guest_identifier := guest_identifier |}.

Definition dedup_scope (l : Link) : DedupScope :=
  match link_owner l with
  | Some o => for_owner (oid_value o)
  | None => for_guest (link_guest_identifier l)
  end.

Definition link_increment_clicks (now : Z) (l : Link) : Link :=
  {| link_id := link_id l; link_url_hash := link_url_hash l;
     link_short_code := link_short_code l; link_original_url := link_original_url l;
     link_created_at := link_created_at l; link_clicks := link_clicks l + 1;
     link_last_accessed := Some now; link_owner := link_owner l;
     link_expires_at := link_expires_at l;
     link_guest_identifier := link_guest_identifier l |}.

Definition is_popular (l : Link) (threshold : Z) : bool := threshold <? link_clicks l.

(** [timedelta.days] floors, so a clock behind [created_at] gives [-1]. *)
Definition is_recent (now : Z) (l : Link) (days : Z) : bool :=
  (now - link_created_at l) / DAY <=? days.

Definition is_expired (now : Z) (l : Link) : bool :=
  match link_expires_at l with None => false | Some e => e <=? now end.

Lemma dedup_scope_wf l : scope_wf (dedup_scope l).
Proof. rewrite /dedup_scope /for_owner /for_guest. case_match; auto with tables. Qed.

#[export] Hint Resolve dedup_scope_wf : tables.

Lemma is_expired_mono now now' l :
  now <= now' → is_expired now l = true → is_expired now' l = true.
Proof. rewrite /is_expired. case_match; [lia|done]. Qed.

(** ** Refresh sessions and mailed tokens *)

Record RefreshSession := MkRefreshSession {
  rs_id : pystr;
  rs_user_id : pystr;
  rs_token_id : pystr;
  rs_chain_id : pystr;
  rs_expires_at : Z;
  rs_created_at : Z;
  rs_revoked_at : option Z;
  rs_replaced_by : option pystr;
}.

#[global] Instance RefreshSession_eq_dec : EqDecision RefreshSession.
Proof. solve_decision. Defined.

(** [RefreshSession.create]; [chain_id or token_id] also replaces an empty
    chain name. *)
Definition create_refresh_session (now : Z) (uuid user_id token_id : pystr)
    (expires_at : Z) (chain_id : option pystr) : RefreshSession :=
  {| rs_id := uuid; rs_user_id := user_id; rs_token_id := token_id;
     rs_chain_id := match chain_id with
                    | Some [] | None => token_id
                    | Some c => c
                    end;
     rs_expires_at := expires_at; rs_created_at := now;
     rs_revoked_at := None; rs_replaced_by := None |}.

Definition session_is_usable (now : Z) (s : RefreshSession) : bool :=
  bool_decide (rs_revoked_at s = None) && bool_decide (rs_replaced_by s = None)
  && (now <? rs_expires_at s).

Record EmailVerification := MkEmailVerification {
  ev_id : pystr;
  ev_user_id : pystr;
  ev_token_hash : pystr;
  ev_expires_at : Z;
  ev_created_at : Z;
  ev_used_at : option Z;
}.

#[global] Instance EmailVerification_eq_dec : EqDecision EmailVerification.
Proof. solve_decision. Defined.

Definition issue_verification (now : Z) (uuid user_id token_hash : pystr)
    (ttl_hours : Z) : EmailVerification :=
  {| ev_id := uuid; ev_user_id := user_id; ev_token_hash := token_hash;
     ev_expires_at := now + ttl_hours * HOUR; ev_created_at := now; ev_used_at := None |}.

Definition verification_is_usable (now : Z) (v : EmailVerification) : bool :=
  bool_decide (ev_used_at v = None) && (now <? ev_expires_at v).

(** [spend] leaves an earlier time alone. *)
Definition spend (now : Z) (v : EmailVerification) : EmailVerification :=
  match ev_used_at v with
  | Some _ => v
  | None => {| ev_id := ev_id v; ev_user_id := ev_user_id v;
               ev_token_hash := ev_token_hash v; ev_expires_at := ev_expires_at v;
               ev_created_at := ev_created_at v; ev_used_at := Some now |}
  end.

Record PasswordReset := MkPasswordReset {
  pr_id : pystr;
  pr_user_id : pystr;
  pr_token_hash : pystr;
  pr_expires_at : Z;
  pr_created_at : Z;
  pr_used_at : option Z;
}.

#[global] Instance PasswordReset_eq_dec : EqDecision PasswordReset.
Proof. solve_decision. Defined.

Definition issue_reset (now : Z) (uuid user_id token_hash : pystr)
    (ttl_minutes : Z) : PasswordReset :=
  {| pr_id := uuid; pr_user_id := user_id; pr_token_hash := token_hash;
     pr_expires_at := now + ttl_minutes * MINUTE; pr_created_at := now;
     pr_used_at := None |}.

(** A verification once spent stays spent. *)
Lemma spend_not_usable now now' v : verification_is_usable now' (spend now v) = false.
Proof.
  rewrite /verification_is_usable /spend.
  destruct (ev_used_at v) eqn:E; simpl; by rewrite ?E.
Qed.
