(* ===== verification/Policies.v ===== *)
(** * Policies of the domain

    [domain/policies/] and [domain/system_permissions.py]: what a password
    may be, which codes the service keeps, what a role may be called, who may
    hand out which permission, and how much of a guest's allowance is left.
    Each rule is the function of the source, raising what it raises; the
    theorems say what a rule that lets a value through has established. *)

From S2P Require Import Prelude PyStr Exceptions ValueObjects Entities.

(** ** Passwords: [password_policy.py] *)

Definition MIN_PASSWORD_LENGTH : Z := 8.
Definition MAX_PASSWORD_LENGTH : Z := 64.
Definition MAX_PASSWORD_BYTES : Z := 72.

Definition COMMON_PASSWORDS : list pystr := lit <$>
  ["password"; "password1"; "password12"; "password123"; "passw0rd";
   "123456"; "1234567"; "12345678"; "123456789"; "1234567890";
   "12345678910"; "111111"; "1111111"; "11111111"; "000000"; "00000000";
   "123123"; "123321"; "112233"; "121212"; "654321"; "666666"; "888888";
   "abc123"; "abcd1234"; "a1b2c3d4"; "qwerty"; "qwerty1"; "qwerty12";
   "qwerty123"; "qwertyui"; "qwertyuiop"; "1q2w3e4r"; "1qaz2wsx";
   "zaq12wsx"; "asdfghjk"; "asdfghjkl"; "qazwsx"; "qazwsxedc";
   "iloveyou"; "princess"; "sunshine"; "football"; "baseball";
   "superman"; "batman"; "trustno1"; "letmein"; "welcome"; "welcome1";
   "monkey"; "monkey123"; "dragon"; "master"; "shadow"; "michael";
   "jennifer"; "jordan23"; "hunter2"; "starwars"; "computer"; "internet";
   "samsung"; "google"; "facebook"; "whatever"; "freedom"; "charlie";
   "andrew"; "thomas"; "robert"; "daniel"; "matthew"; "joshua";
   "admin"; "admin123"; "administrator"; "root"; "toor"; "user";
   "guest"; "test"; "test123"; "testtest"; "changeme"; "default";
   "secret"; "secret123"; "login"; "passwd"; "pass123"; "temp123";
   "linkshortener"; "shortener"]%string.

Definition mem (s : pystr) (l : list pystr) : bool := bool_decide (s ∈ l).

(** The rules in the order they are asked.  [or] is lazy: a password over
    the character ceiling is never encoded. *)
Definition validate_password `{CaseFolding} (password : pystr) : result exn unit :=
  if bool_decide (strip password = [])
  then Err (invalid "password" "Password must not be blank")
  else if has_char 0 password
  then Err (invalid "password" "Password must not contain a null character")
  else if len password <? MIN_PASSWORD_LENGTH
  then Err (invalid "password" "Password must be at least %(count)s characters")
  else
    let too_long := invalid "password"
      "Password must not exceed %(count)s characters, and fewer for alphabets that need more room per character" in
    if MAX_PASSWORD_LENGTH <? len password then Err too_long
    else match utf8_encode password with
    | None => Err (PyError UnicodeEncodeError)
    | Some bytes =>
        if MAX_PASSWORD_BYTES <? len bytes then Err too_long
        else if mem (lower password) COMMON_PASSWORDS
        then Err (invalid "password"
          "Password is too common -- choose one that is not on every attacker's list")
        else Ok tt
    end.

(** The bytes bcrypt is handed: what [validate_password] let through. *)
Lemma validate_password_ok `{CaseFolding} p :
  validate_password p = Ok tt →
  is_blank p = false ∧ (0 ∉ p) ∧ (MIN_PASSWORD_LENGTH <= len p <= MAX_PASSWORD_LENGTH) ∧
  (∃ b, utf8_encode p = Some b ∧ (len p <= len b <= MAX_PASSWORD_BYTES)) ∧
  lower p ∉ COMMON_PASSWORDS.
Proof.
  rewrite /validate_password.
  case_bool_decide as Hblank; [done|]. destruct (has_char 0 p) eqn:Hnul; [done|].
  destruct (_ <? MIN_PASSWORD_LENGTH) eqn:?; [done|].
  destruct (MAX_PASSWORD_LENGTH <? _) eqn:?; [done|].
  destruct (utf8_encode p) as [b|] eqn:Hb; [|done].
  destruct (MAX_PASSWORD_BYTES <? _) eqn:?; [done|].
  destruct (mem (lower p) COMMON_PASSWORDS) eqn:Hmem; [done|]. intros _.
  split_and!; [|intros Hin; apply has_char_spec in Hin; congruence|lia|lia| |].
  - destruct (is_blank p) eqn:E; [|done]. by rewrite strip_nil E in Hblank.
  - exists b. apply utf8_encode_bounds in Hb as Hl. split; [done|lia].
  - by apply bool_decide_eq_false in Hmem.
Qed.

(** ** Codes the service keeps: [reserved_codes.py] *)

Definition RESERVED_CODES : list pystr := lit <$>
  ["health"; "console"; "static"; "logout"; "register"; "refresh"; "dashboard";
   "favicon"; "robots"; "sitemap"; "metrics"; "openapi"; "swagger"; "verify"]%string.

Definition is_reserved `{CaseFolding} (code : pystr) : bool := mem (lower code) RESERVED_CODES.

(** ** Role names and descriptions: [role_policy.py] *)

Definition ROLE_NAME_MIN_LENGTH : Z := 2.
Definition ROLE_NAME_MAX_LENGTH : Z := 50.
Definition ROLE_DESCRIPTION_MAX_LENGTH : Z := 255.

(** A value read from a YAML file or a request body: text, or something
    else ([isinstance(name, str)] tells them apart). *)
Inductive yaml_value := YStr (s : pystr) | YOther.

(** [re.fullmatch(ROLE_NAME_PATTERN, name)]: [^[A-Za-z0-9_\-]+$]. *)
Definition role_name_matches (s : pystr) : bool :=
  bool_decide (s ≠ []) && forallb is_code_char s.

Definition require_valid_role_name (name : yaml_value) : result exn unit :=
  match name with
  | YStr s =>
      if negb (role_name_matches s)
      then Err (invalid "name" "A role name must be letters, digits, hyphen or underscore")
      else if negb ((ROLE_NAME_MIN_LENGTH <=? len s) && (len s <=? ROLE_NAME_MAX_LENGTH))
      then Err (invalid "name" "A role name must be %(least)s to %(most)s characters long")
      else Ok tt
  | YOther => Err (invalid "name" "A role name must be letters, digits, hyphen or underscore")
  end.

Definition require_valid_role_description (description : option yaml_value) : result exn unit :=
  match description with
  | None => Ok tt
  | Some YOther => Err (invalid "description" "A role description must be text")
  | Some (YStr s) =>
      if ROLE_DESCRIPTION_MAX_LENGTH <? len s
      then Err (invalid "description"
        "A role description must be at most %(most)s characters long")
      else Ok tt
  end.

(** ** System permissions *)

Definition LINK_CREATE : pystr := lit "link:create".
Definition LINK_VIEW_OWN : pystr := lit "link:view_own".
Definition LINK_DELETE_OWN : pystr := lit "link:delete_own".
Definition LINK_DELETE_ANY : pystr := lit "link:delete_any".
Definition STATS_VIEW_BASIC : pystr := lit "stats:view_basic".
Definition STATS_VIEW_FULL : pystr := lit "stats:view_full".
Definition STATS_VIEW_ANY : pystr := lit "stats:view_any".
Definition AUDIT_VIEW : pystr := lit "audit:view".
Definition LOGS_VIEW : pystr := lit "logs:view".
Definition ADMIN_VIEW_USERS : pystr := lit "admin:view_users".
Definition ADMIN_MANAGE_USERS : pystr := lit "admin:manage_users".
Definition ADMIN_VIEW_ROLES : pystr := lit "admin:view_roles".
Definition ADMIN_MANAGE_ROLES : pystr := lit "admin:manage_roles".
Definition ADMIN_VIEW_SYSTEM_HEALTH : pystr := lit "admin:view_system_health".
Definition ADMIN_ALL : pystr := lit "admin:all".

Definition SystemPermissions : list pystr :=
  [LINK_CREATE; LINK_VIEW_OWN; LINK_DELETE_OWN; LINK_DELETE_ANY; STATS_VIEW_BASIC;
   STATS_VIEW_FULL; STATS_VIEW_ANY; AUDIT_VIEW; LOGS_VIEW; ADMIN_VIEW_USERS;
   ADMIN_MANAGE_USERS; ADMIN_VIEW_ROLES; ADMIN_MANAGE_ROLES;
   ADMIN_VIEW_SYSTEM_HEALTH; ADMIN_ALL].

(** ** Privileges: [privilege_policy.py] *)

(** The names in a role, and the set [permissions_held_by] builds (a list
    stands for the frozenset; membership is all the callers ask). *)
Definition conferred_by (roles : list Role) : list pystr :=
  roles ≫= λ r, perm_name <$> role_permissions r.

Definition permissions_held_by (user : option User) : list pystr :=
  match user with None => [] | Some u => conferred_by (user_roles u) end.

Definition is_superuser (user : option User) : bool :=
  match user with None => false | Some u => user_has_permission u ADMIN_ALL end.

(** [sorted(set(permissions) - held)]. *)
Definition exceeding (permissions held : list pystr) : list pystr :=
  sorted (remove_dups (filter (λ p, p ∉ held) permissions)).

Definition require_may_confer (actor : option User) (permissions : list pystr)
    : result exn unit :=
  if is_superuser actor then Ok tt
  else
    let exceeded := exceeding permissions (permissions_held_by actor) in
    match exceeded with
    | [] => Ok tt
    | _ => Err (PermissionDeniedError [] exceeded)
    end.

Definition PRIVILEGED_RESOURCES : list pystr := lit <$> ["admin"; "audit"; "logs"]%string.
Definition REACHES_ANOTHERS_SUFFIX : pystr := lit "_any".

Definition is_privileged (permission : pystr) : bool :=
  let '(resource, _, action) := partition_at COLON permission in
  mem resource PRIVILEGED_RESOURCES || endswith REACHES_ANOTHERS_SUFFIX action.

Definition require_may_act_on (actor target : option User) : result exn unit :=
  if is_superuser actor then Ok tt
  else match target with
  | None => Ok tt
  | Some _ =>
      let exceeded := exceeding
        (filter (λ p, is_privileged p = true) (permissions_held_by target))
        (permissions_held_by actor) in
      match exceeded with
      | [] => Ok tt
      | _ => Err (PermissionDeniedError [] exceeded)
      end
  end.

Definition require_not_last_administrator (remaining_administrators : Z) : result exn unit :=
  if remaining_administrators <=? 0
  then Err (DomainError (lit "This would leave the system without an administrator")
                        (lit "FORBIDDEN"))
  else Ok tt.

Lemma elem_of_conferred_by p roles :
  p ∈ conferred_by roles ↔ ∃ r, r ∈ roles ∧ role_has_permission r p = true.
Proof.
  rewrite /conferred_by list_elem_of_bind. setoid_rewrite list_elem_of_fmap.
  rewrite /role_has_permission. setoid_rewrite existsb_exists. split.
  - intros (r & (q & -> & Hq) & Hr). exists r. split; [done|]. exists q.
    rewrite -list_elem_of_In bool_decide_eq_true. done.
  - intros (r & Hr & q & Hq & Heq). exists r. split; [|done]. exists q.
    apply list_elem_of_In in Hq. apply bool_decide_eq_true in Heq. done.
Qed.

Lemma user_has_permission_spec u p :
  user_has_permission u p = true ↔ p ∈ permissions_held_by (Some u).
Proof.
  rewrite /= elem_of_conferred_by /user_has_permission existsb_exists.
  setoid_rewrite list_elem_of_In. done.
Qed.

Lemma elem_of_exceeding p permissions held :
  p ∈ exceeding permissions held ↔ p ∈ permissions ∧ p ∉ held.
Proof.
  rewrite /exceeding elem_of_sorted elem_of_remove_dups list_elem_of_filter. tauto.
Qed.

Lemma exceeding_nil permissions held :
  exceeding permissions held = [] ↔ ∀ p, p ∈ permissions → p ∈ held.
Proof.
  split.
  - intros Hnil p Hp. destruct (decide (p ∈ held)) as [|Hn]; [done|].
    assert (p ∈ exceeding permissions held) as Hin by (by apply elem_of_exceeding).
    rewrite Hnil in Hin. by apply elem_of_nil in Hin.
  - intros Hsub. destruct (exceeding permissions held) as [|p l] eqn:E; [done|].
    assert (p ∈ exceeding permissions held) as Hin by (rewrite E; set_solver).
    apply elem_of_exceeding in Hin as [? []]. auto.
Qed.

Lemma require_may_confer_spec actor permissions :
  require_may_confer actor permissions = Ok tt ↔
  is_superuser actor = true ∨ (∀ p, p ∈ permissions → p ∈ permissions_held_by actor).
Proof.
  rewrite /require_may_confer. destruct (is_superuser actor); [tauto|].
  rewrite -exceeding_nil. destruct (exceeding _ _); naive_solver.
Qed.

Lemma require_may_act_on_spec actor target :
  require_may_act_on actor target = Ok tt ↔
  is_superuser actor = true ∨
  (∀ p, p ∈ permissions_held_by target → is_privileged p = true →
        p ∈ permissions_held_by actor).
Proof.
  rewrite /require_may_act_on. destruct (is_superuser actor); [tauto|].
  destruct target as [t|]; [|split; [by set_solver|done]].
  trans (exceeding (filter (λ p, is_privileged p = true) (permissions_held_by (Some t)))
           (permissions_held_by actor) = []).
  { destruct (exceeding _ _); naive_solver. }
  rewrite exceeding_nil. setoid_rewrite list_elem_of_filter. naive_solver.
Qed.

(** ** Guest quota: [guest_quota_policy.py] *)

Definition links_left_for_guest (used limit : Z) : Z := Z.max 0 (limit - used).

Definition guest_quota_spent (limit window_days : Z) : exn :=
  GuestLinkLimitExceededError limit (Some (window_days * 24 * 3600)).

(** Some is left exactly while fewer than the limit are used. *)
Lemma links_left_pos used limit : 0 < links_left_for_guest used limit ↔ used < limit.
Proof. rewrite /links_left_for_guest. lia. Qed.

(** ** The policies' guarantees *)

(** a password the policy lets through is not blank, has no null
    character, is 8 to 64 characters and at most 72 bytes of UTF-8 (so bcrypt
    reads all of it), and no case variant of it is on the list of common
    passwords. *)
Theorem admitted_password `{CaseFolding} p :
  validate_password p = Ok tt →
  is_blank p = false ∧ (0 ∉ p) ∧ (8 <= len p <= 64) ∧
  (∃ b, utf8_encode p = Some b ∧ (len b <= 72)) ∧ lower p ∉ COMMON_PASSWORDS.
Proof.
  intros (Hb & Hn & Hl & (b & He & Hlb) & Hc)%validate_password_ok.
  split; [done|]. split; [done|]. split; [exact Hl|]. split; [|done].
  exists b. split; [done|apply Hlb].
Qed.

#[local] Instance ascii_folding : CaseFolding := fmap ascii_lower.

Lemma admitted_password_witness :
  is_blank (lit "correct horse battery") = false ∧
  lower (lit "correct horse battery") ∉ COMMON_PASSWORDS.
Proof.
  destruct (admitted_password (lit "correct horse battery")) as (? & _ & _ & _ & ?);
    [vm_compute; reflexivity|]. split; assumption.
Defined.

(** an actor who does not hold [admin:all] may hand out a set of
    permissions exactly when each of them is one the actor's own roles
    confer, and the refusal names exactly the ones that are not. *)
Theorem confer_only_what_is_held actor permissions :
  match require_may_confer actor permissions with
  | Ok _ => is_superuser actor = true ∨
            ∀ p, p ∈ permissions → p ∈ permissions_held_by actor
  | Err e => is_superuser actor = false ∧ ∃ exceeded, e = PermissionDeniedError [] exceeded ∧
             exceeded ≠ [] ∧ ∀ p, p ∈ exceeded ↔ p ∈ permissions ∧ p ∉ permissions_held_by actor
  end.
Proof.
  destruct (require_may_confer actor permissions) as [[]|e] eqn:E.
  - by apply require_may_confer_spec.
  - revert E. rewrite /require_may_confer. destruct (is_superuser actor); [done|].
    set (ex := exceeding _ _). intros Hx. destruct ex as [|p ps] eqn:Hex; [done|].
    injection Hx as <-. split; [done|]. exists (p :: ps). split; [done|]. split; [done|].
    intros q. rewrite -Hex. apply elem_of_exceeding.
Qed.

(** an actor who does not hold [admin:all] may act on an account exactly
    when every privileged permission of it (administration, audit, logs, or
    one reaching other people's resources) is one the actor holds. *)
Theorem act_only_within_reach actor target :
  require_may_act_on actor target = Ok tt ↔
  is_superuser actor = true ∨
  ∀ p, p ∈ permissions_held_by target → is_privileged p = true → p ∈ permissions_held_by actor.
Proof. apply require_may_act_on_spec. Qed.
