(* ===== verification/Sha256.v ===== *)
(** * The digest of [hashlib.sha256]

    The standard library's SHA-256 (FIPS 180-4), written out on 32-bit words
    kept as integers with their wrap-around, so that the code generator, the
    deduplication hash and the mailed-token digest are executable.  What the
    components rely on is the shape of the digest: 32 bytes, or 64 lowercase
    hexadecimal characters. *)

From S2P Require Import Prelude PyStr Exceptions ValueObjects.

Definition MASK32 : Z := 4294967295.
Definition add32 (x y : Z) : Z := Z.land (x + y) MASK32.
Definition rotr (n x : Z) : Z :=
  Z.lor (Z.shiftr x n) (Z.land (Z.shiftl x (32 - n)) MASK32).

Definition K256 : list Z :=
  [1116352408; 1899447441; 3049323471; 3921009573; 961987163; 1508970993;
   2453635748; 2870763221; 3624381080; 310598401; 607225278; 1426881987;
   1925078388; 2162078206; 2614888103; 3248222580; 3835390401; 4022224774;
   264347078; 604807628; 770255983; 1249150122; 1555081692; 1996064986;
   2554220882; 2821834349; 2952996808; 3210313671; 3336571891; 3584528711;
   113926993; 338241895; 666307205; 773529912; 1294757372; 1396182291;
   1695183700; 1986661051; 2177026350; 2456956037; 2730485921; 2820302411;
   3259730800; 3345764771; 3516065817; 3600352804; 4094571909; 275423344;
   430227734; 506948616; 659060556; 883997877; 958139571; 1322822218;
   1537002063; 1747873779; 1955562222; 2024104815; 2227730452; 2361852424;
   2428436474; 2756734187; 3204031479; 3329325298].

Definition H256 : list Z :=
  [1779033703; 3144134277; 1013904242; 2773480762; 1359893119; 2600822924;
   528734635; 1541459225].

Definition sigma0 (x : Z) : Z := Z.lxor (rotr 7 x) (Z.lxor (rotr 18 x) (Z.shiftr x 3)).
Definition sigma1 (x : Z) : Z := Z.lxor (rotr 17 x) (Z.lxor (rotr 19 x) (Z.shiftr x 10)).
Definition Sigma0 (x : Z) : Z := Z.lxor (rotr 2 x) (Z.lxor (rotr 13 x) (rotr 22 x)).
Definition Sigma1 (x : Z) : Z := Z.lxor (rotr 6 x) (Z.lxor (rotr 11 x) (rotr 25 x)).
Definition Ch (x y z : Z) : Z := Z.lxor (Z.land x y) (Z.land (Z.lxor x MASK32) z).
Definition Maj (x y z : Z) : Z :=
  Z.lxor (Z.land x y) (Z.lxor (Z.land x z) (Z.land y z)).

(** Big-endian bytes. *)
Fixpoint be_bytes (n : nat) (x : Z) : list Z :=
  match n with
  | O => []
  | S n => Z.land (Z.shiftr x (8 * Z.of_nat n)) 255 :: be_bytes n x
  end.

Definition be_word (b : list Z) : Z := foldl (λ acc x, acc * 256 + x) 0 b.

(** The message, a one bit, zeros, and its length in bits. *)
Definition pad (m : list Z) : list Z :=
  let zeros := Z.to_nat ((55 - len m) mod 64) in
  m ++ 128 :: replicate zeros 0 ++ be_bytes 8 (8 * len m).

Fixpoint chunks {A} (fuel size : nat) (l : list A) : list (list A) :=
  match fuel, l with
  | O, _ | _, [] => []
  | S fuel, _ => take size l :: chunks fuel size (drop size l)
  end.

(** The 64 words of the schedule, newest first. *)
Fixpoint schedule (n : nat) (w : list Z) : list Z :=
  match n with
  | O => w
  | S n =>
      let at_ i := default 0 (w !! i) in
      schedule n (add32 (add32 (sigma1 (at_ 1%nat)) (at_ 6%nat))
                        (add32 (sigma0 (at_ 14%nat)) (at_ 15%nat)) :: w)
  end.

Definition sha_round (s : list Z) (kw : Z * Z) : list Z :=
  match s with
  | [a; b; c; d; e; f; g; h] =>
      let t1 := add32 (add32 h (Sigma1 e)) (add32 (Ch e f g) (add32 kw.1 kw.2)) in
      let t2 := add32 (Sigma0 a) (Maj a b c) in
      [add32 t1 t2; a; b; c; add32 d t1; e; f; g]
  | _ => s
  end.

Definition compress (h : list Z) (block : list Z) : list Z :=
  let w := reverse (schedule 48 (reverse (be_word <$> chunks 16 4 block))) in
  zip_with add32 h (foldl sha_round h (zip K256 w)).

(** [hashlib.sha256(message).digest()]. *)
Definition sha256 (message : list Z) : list Z :=
  let m := pad message in
  foldl compress H256 (chunks (length m) 64 m) ≫= be_bytes 4.

Definition hex_char (n : Z) : Z := if n <? 10 then 48 + n else 87 + n.
Definition hexdigest (digest : list Z) : pystr :=
  digest ≫= λ b, [hex_char (Z.shiftr b 4); hex_char (Z.land b 15)].

Example sha256_abc : hexdigest (sha256 (lit "abc")) =
  lit "ba7816bf8f01cfea414140de5dae2223b00361a396177a9cb410ff61f20015ad".
Proof. vm_compute. reflexivity. Qed.

(** ** Shape of the digest *)

Definition is_byte (b : Z) : Prop := 0 <= b < 256.

Lemma length_be_bytes n x : length (be_bytes n x) = n.
Proof. induction n; simpl; congruence. Qed.

Lemma land_255_byte x : is_byte (Z.land x 255).
Proof. rewrite /is_byte (Z.land_ones x 8) //. by apply Z.mod_pos_bound. Qed.

Lemma be_bytes_byte n x : Forall is_byte (be_bytes n x).
Proof. induction n; simpl; constructor; [apply land_255_byte|done]. Qed.

Lemma length_sha_round s kw : length (sha_round s kw) = length s.
Proof. rewrite /sha_round. by repeat case_match. Qed.

Lemma length_rounds kws s : length (foldl sha_round s kws) = length s.
Proof. revert s; induction kws as [|kw kws IH]; intros s; [done|]. simpl. by rewrite IH length_sha_round. Qed.

Lemma length_compress h b : length (compress h b) = length h.
Proof. by rewrite /compress length_zip_with length_rounds Nat.min_id. Qed.

Lemma length_sha_blocks bs h : length (foldl compress h bs) = length h.
Proof. revert h; induction bs as [|b bs IH]; intros h; [done|]. simpl. by rewrite IH length_compress. Qed.

Lemma length_sha256 m : length (sha256 m) = 32%nat.
Proof.
  rewrite /sha256.
  assert (length (foldl compress H256 (chunks (length (pad m)) 64 (pad m))) = 8%nat) as Hl
    by (by rewrite length_sha_blocks).
  revert Hl. generalize (foldl compress H256 (chunks (length (pad m)) 64 (pad m))).
  intros l Hl. do 9 (destruct l as [|? l]; try done).
Qed.

Lemma sha256_bytes m : Forall is_byte (sha256 m).
Proof. apply Forall_bind, Forall_true. intros. apply be_bytes_byte. Qed.

Lemma hex_char_ok n : 0 <= n < 16 → is_hex_digit (hex_char n) = true.
Proof. rewrite /is_hex_digit /is_digit /hex_char. case_match; lia. Qed.

Lemma hexdigest_ok d :
  Forall is_byte d → forallb is_hex_digit (hexdigest d) = true ∧
                     length (hexdigest d) = (2 * length d)%nat.
Proof.
  induction 1 as [|b d Hb Hd [IH1 IH2]]; [done|]. simpl. rewrite IH1 IH2.
  split; [|lia]. rewrite !hex_char_ok //.
  - rewrite (Z.land_ones b 4) //. by apply Z.mod_pos_bound.
  - rewrite Z.shiftr_div_pow2 //. rewrite /is_byte in Hb.
    change (2 ^ 4) with 16. split; [apply Z.div_pos; lia|].
    apply Z.div_lt_upper_bound; lia.
Qed.

(** The hexadecimal digest is always an admissible [UrlHash]. *)
Lemma hexdigest_sha256_matches m : hash_matches (hexdigest (sha256 m)) = true.
Proof.
  destruct (hexdigest_ok (sha256 m) (sha256_bytes m)) as [H1 H2].
  by rewrite /hash_matches H1 /len H2 length_sha256.
Qed.
