(* ===== verification/CodeGen.v ===== *)
(** * Short codes and deduplication hashes

    [domain/policies/code_generator.py] and [hash_calculator.py] are abstract
    classes, so they are type classes here; [Base64UrlCodeGenerator] and
    [SHA256HashCalculator] ([infrastructure/policies/]) are their
    implementations.  [UrlRules] is what [OriginalUrl] offers the rest of the
    program: admission of a submitted address and its normal form.

    The theorems show that the generator answers a code of exactly the
    configured length for every text that can be encoded, and that the
    calculator always answers an admissible digest. *)

From S2P Require Import Prelude PyStr Exceptions ValueObjects Sha256.

(** The settings a URL is admitted under. *)
Record UrlSettings := MkUrlSettings {
  allowed_schemes : list pystr;
  max_url_length : Z;
  allow_internal_targets : bool;
}.

(** [OriginalUrl(value, ...)], [OriginalUrl.from_storage] and
    [OriginalUrl.normalize]. *)
Class UrlRules := MkUrlRules {
  new_OriginalUrl : UrlSettings → pystr → result exn OriginalUrl;
  from_storage : pystr → result exn OriginalUrl;
  normalize : OriginalUrl → result exn pystr;
}.

(** ** The abstract policies *)

Class CodeGenerator := generate : pystr → result exn ShortCode.
Class HashCalculator := calculate : OriginalUrl → result exn UrlHash.

(** What a generator promises: codes the value object admits. *)
Class GeneratorLaws `{CodeGenerator} : Prop :=
  generate_matches s c : generate s = Ok c → code_matches (sc_value c) = true.

Section code_generator.
Context `{UrlRules} `{CodeGenerator}.

Definition generate_for_url (u : OriginalUrl) : result exn ShortCode :=
  normalize u ≫= generate.

Definition generate_unique (u : OriginalUrl) (attempt : nat) : result exn ShortCode :=
  normalize u ≫= λ base,
  if decide (attempt = 0%nat) then generate base
  else generate (base ++ lit "#collision_" ++ str_of_Z (Z.of_nat attempt)).

(** [uuid_hex] is the [uuid4().hex] the call draws. *)
Definition generate_fresh (uuid_hex : pystr) (u : OriginalUrl) : result exn ShortCode :=
  normalize u ≫= λ base, generate (base ++ lit "#fresh_" ++ uuid_hex).
End code_generator.

(** ** [base64.urlsafe_b64encode] *)

Definition b64_char (n : Z) : Z :=
  if n <? 26 then 65 + n
  else if n <? 52 then 71 + n
  else if n <? 62 then n - 4
  else if n =? 62 then HYPHEN else UNDERSCORE.

Definition EQUALS : Z := 61.

Fixpoint urlsafe_b64encode (b : list Z) : pystr :=
  match b with
  | x :: y :: z :: b' =>
      [b64_char (Z.shiftr x 2);
       b64_char (Z.lor (Z.shiftl (Z.land x 3) 4) (Z.shiftr y 4));
       b64_char (Z.lor (Z.shiftl (Z.land y 15) 2) (Z.shiftr z 6));
       b64_char (Z.land z 63)] ++ urlsafe_b64encode b'
  | [x; y] =>
      [b64_char (Z.shiftr x 2);
       b64_char (Z.lor (Z.shiftl (Z.land x 3) 4) (Z.shiftr y 4));
       b64_char (Z.shiftl (Z.land y 15) 2); EQUALS]
  | [x] => [b64_char (Z.shiftr x 2); b64_char (Z.shiftl (Z.land x 3) 4); EQUALS; EQUALS]
  | [] => []
  end.

(** ** [Base64UrlCodeGenerator] *)

Record Base64UrlCodeGenerator := MkBase64UrlCodeGenerator {
  code_length : Z;
  min_length : Z;
  max_length : Z;
  pepper : pystr;
}.

Definition new_Base64UrlCodeGenerator (code_length min_length max_length : Z)
    (pepper : pystr) : result exn Base64UrlCodeGenerator :=
  if (min_length <=? code_length) && (code_length <=? max_length)
  then Ok (MkBase64UrlCodeGenerator code_length min_length max_length pepper)
  else Err (PyError ValueError).

Definition base64_generate (g : Base64UrlCodeGenerator) (input_str : pystr)
    : result exn ShortCode :=
  let salted := input_str ++ pepper g in
  let target_len := Z.max (code_length g) (min_length g) in
  let need_bytes := (target_len * 6 + 7) / 8 in
  match utf8_encode salted with
  | None => Err (PyError UnicodeEncodeError)
  | Some bytes =>
      let hash_bytes := take (Z.to_nat need_bytes) (sha256 bytes) in
      let b64 := rstrip_by (Z.eqb EQUALS) (urlsafe_b64encode hash_bytes) in
      new_ShortCode (take (Z.to_nat (code_length g)) b64)
  end.

(** ** [SHA256HashCalculator] *)

Definition sha256_calculate `{UrlRules} (u : OriginalUrl) : result exn UrlHash :=
  normalize u ≫= λ normalized,
  match utf8_encode normalized with
  | None => Err (PyError UnicodeEncodeError)
  | Some bytes => new_UrlHash (hexdigest (sha256 bytes))
  end.

(** ** What a base64 text is made of *)

Lemma b64_char_ok n : 0 <= n < 64 → is_code_char (b64_char n) = true.
Proof.
  rewrite /b64_char /is_code_char /is_alnum /is_alpha /is_upper /is_lower /is_digit
    /HYPHEN /UNDERSCORE. repeat case_match; lia.
Qed.

Lemma lor_below_64 a b : 0 <= a < 64 → 0 <= b < 64 → 0 <= Z.lor a b < 64.
Proof.
  intros Ha Hb. split; [by apply Z.lor_nonneg; lia|].
  destruct (decide (Z.lor a b = 0)) as [->|Hn]; [done|].
  assert (0 <= Z.lor a b) by (by apply Z.lor_nonneg; lia).
  apply (Z.log2_lt_cancel _ (2 ^ 6)). rewrite Z.log2_lor; [|lia..].
  rewrite (Z.log2_pow2 6) //.
  assert (∀ x, 0 <= x < 64 → Z.log2 x < 6) as Hlog; [|by apply Z.max_lub_lt; apply Hlog].
  intros x Hx. destruct (decide (x = 0)) as [->|]; [done|].
  apply Z.log2_lt_pow2; lia.
Qed.

Lemma shiftr_bound x n k : 0 <= n → 0 <= x < 2 ^ (n + k) → 0 <= k → 0 <= Z.shiftr x n < 2 ^ k.
Proof.
  intros Hn Hx Hk. rewrite Z.shiftr_div_pow2 //. rewrite Z.pow_add_r // in Hx.
  split; [apply Z.div_pos; lia|]. apply Z.div_lt_upper_bound; lia.
Qed.

Lemma shiftl_land_bound x n k : 0 <= n → 0 <= k →
  0 <= Z.shiftl (Z.land x (Z.ones k)) n < 2 ^ (n + k).
Proof.
  intros Hn Hk. rewrite Z.shiftl_mul_pow2 // Z.land_ones // Z.pow_add_r //.
  pose proof (Z.mod_pos_bound x (2 ^ k) ltac:(lia)). nia.
Qed.

Lemma sextets x y z : is_byte x → is_byte y → is_byte z →
  (0 <= Z.shiftr x 2 < 64) ∧ (0 <= Z.shiftl (Z.land x 3) 4 < 64) ∧
  (0 <= Z.lor (Z.shiftl (Z.land x 3) 4) (Z.shiftr y 4) < 64) ∧
  (0 <= Z.shiftl (Z.land y 15) 2 < 64) ∧
  (0 <= Z.lor (Z.shiftl (Z.land y 15) 2) (Z.shiftr z 6) < 64) ∧
  (0 <= Z.land z 63 < 64).
Proof.
  rewrite /is_byte => Hx Hy Hz.
  assert (0 <= Z.shiftl (Z.land x 3) 4 < 64) by (by apply (shiftl_land_bound x 4 2)).
  assert (0 <= Z.shiftl (Z.land y 15) 2 < 64) by (by apply (shiftl_land_bound y 2 4)).
  assert (0 <= Z.land z 63 < 64) by (by apply (shiftl_land_bound z 0 6)).
  assert (0 <= Z.shiftr x 2 < 64) by (by apply (shiftr_bound x 2 6)).
  assert (0 <= Z.shiftr y 4 < 16) by (by apply (shiftr_bound y 4 4)).
  assert (0 <= Z.shiftr z 6 < 4) by (by apply (shiftr_bound z 6 2)).
  split; [done|]. split; [done|]. split; [apply lor_below_64; lia|].
  split; [done|]. split; [apply lor_below_64; lia|]. done.
Qed.

(** The text is its significant characters, then the padding. *)
Lemma b64_shape b : Forall is_byte b →
  ∃ cs pad, urlsafe_b64encode b = cs ++ pad ∧ forallb is_code_char cs = true ∧
    forallb (Z.eqb EQUALS) pad = true ∧ len cs = (8 * len b + 5) / 6.
Proof.
  remember (length b) as n eqn:Hn. revert b Hn.
  induction n as [n IH] using lt_wf_ind; intros b -> Hb.
  destruct b as [|x [|y [|z b]]].
  - by exists [], [].
  - apply Forall_cons_1 in Hb as [Hx _].
    destruct (sextets x x x) as (?&?&?&?&?&?); [done..|].
    exists [b64_char (Z.shiftr x 2); b64_char (Z.shiftl (Z.land x 3) 4)], [EQUALS; EQUALS].
    by rewrite /= !b64_char_ok.
  - apply Forall_cons_1 in Hb as [Hx Hb]. apply Forall_cons_1 in Hb as [Hy _].
    destruct (sextets x y y) as (?&?&?&?&?&?); [done..|].
    eexists [_; _; _], [EQUALS]. split; [done|]. by rewrite /= !b64_char_ok.
  - apply Forall_cons_1 in Hb as [Hx Hb]. apply Forall_cons_1 in Hb as [Hy Hb].
    apply Forall_cons_1 in Hb as [Hz Hb].
    destruct (sextets x y z) as (?&?&?&?&?&?); [done..|].
    destruct (IH (length b) ltac:(simpl; lia) b eq_refl Hb) as (cs & pad & Heq & Hcs & Hp & Hl).
    exists ([b64_char (Z.shiftr x 2);
       b64_char (Z.lor (Z.shiftl (Z.land x 3) 4) (Z.shiftr y 4));
       b64_char (Z.lor (Z.shiftl (Z.land y 15) 2) (Z.shiftr z 6));
       b64_char (Z.land z 63)] ++ cs), pad.
    split_and!; [by rewrite -app_assoc -Heq| |done|].
    + by rewrite forallb_app Hcs /= !b64_char_ok.
    + revert Hl. rewrite /len /=. intros Hl.
      rewrite (_ : 8 * Z.of_nat (S (S (S (length b)))) + 5 = (8 * Z.of_nat (length b) + 5) + 4 * 6);
        [|lia].
      rewrite Z.div_add //. lia.
Qed.

Lemma lstrip_by_app p s t :
  forallb p s = true → lstrip_by p (s ++ t) = lstrip_by p t.
Proof.
  induction s as [|c s IH]; [done|]. simpl. intros [-> ?]%andb_true_iff. auto.
Qed.

Lemma lstrip_by_keep p s : forallb (λ c, negb (p c)) s = true → lstrip_by p s = s.
Proof. destruct s as [|c s]; [done|]. simpl. intros [Hc _]%andb_true_iff. by destruct (p c). Qed.

Lemma forallb_reverse {A} (p : A → bool) l : forallb p (reverse l) = forallb p l.
Proof.
  apply eq_bool_prop_intro. rewrite !Is_true_true !forallb_forall.
  setoid_rewrite <- list_elem_of_In. setoid_rewrite elem_of_reverse. done.
Qed.

Lemma rstrip_by_app p s t :
  forallb (λ c, negb (p c)) s = true → forallb p t = true → rstrip_by p (s ++ t) = s.
Proof.
  intros Hs Ht. rewrite /rstrip_by reverse_app lstrip_by_app ?forallb_reverse //.
  rewrite lstrip_by_keep ?forallb_reverse // reverse_involutive //.
Qed.

Lemma code_char_not_equals s :
  forallb is_code_char s = true → forallb (λ c, negb (Z.eqb EQUALS c)) s = true.
Proof.
  rewrite !forallb_forall => H c Hc. specialize (H c Hc). revert H.
  rewrite /is_code_char /is_alnum /is_alpha /is_upper /is_lower /is_digit /EQUALS
    /HYPHEN /UNDERSCORE. lia.
Qed.

Lemma forallb_take {A} (p : A → bool) n l : forallb p l = true → forallb p (take n l) = true.
Proof.
  revert n; induction l as [|x l IH]; intros [|n]; simpl; try done.
  intros [-> ?]%andb_true_iff. simpl. auto.
Qed.

(** What the generator's constructor and [ShortCode] together demand. *)
Definition generator_wf (g : Base64UrlCodeGenerator) : Prop :=
  MIN_LENGTH <= code_length g <= MAX_LENGTH ∧ min_length g <= code_length g.

Lemma base64_generate_total g input bytes :
  generator_wf g → utf8_encode (input ++ pepper g) = Some bytes →
  ∃ c, base64_generate g input = Ok c ∧ len (sc_value c) = code_length g ∧
       code_matches (sc_value c) = true.
Proof.
  rewrite /generator_wf /MIN_LENGTH /MAX_LENGTH => [[Hlen Hmin]] Henc.
  rewrite /base64_generate Henc Z.max_l //.
  set (need := (code_length g * 6 + 7) / 8).
  assert (need <= 32 ∧ code_length g <= (8 * need + 5) / 6 ∧ 0 <= need) as (Hneed & Hcl & ?).
  { rewrite /need. Z.to_euclidean_division_equations. lia. }
  set (h := take (Z.to_nat need) (sha256 bytes)).
  assert (len h = need) as Hh by (rewrite /len /h length_take length_sha256; lia).
  destruct (b64_shape h) as (cs & pad & -> & Hcs & Hp & Hl).
  { apply Forall_take, sha256_bytes. }
  rewrite rstrip_by_app //; [|by apply code_char_not_equals].
  rewrite Hh in Hl.
  assert (len (take (Z.to_nat (code_length g)) cs) = code_length g) as Hc.
  { rewrite /len length_take. rewrite /len in Hl. lia. }
  assert (code_matches (take (Z.to_nat (code_length g)) cs) = true) as Hm.
  { rewrite /code_matches forallb_take // Hc /MIN_LENGTH /MAX_LENGTH. lia. }
  eexists. split; [by apply new_ShortCode_ok|]. done.
Qed.

Lemma sha256_calculate_total `{UrlRules} u s bytes :
  normalize u = Ok s → utf8_encode s = Some bytes →
  sha256_calculate u = Ok (MkUrlHash (hexdigest (sha256 bytes))) ∧
  hash_matches (hexdigest (sha256 bytes)) = true.
Proof.
  rewrite /sha256_calculate => -> /= ->. rewrite /new_UrlHash.
  pose proof (hexdigest_sha256_matches bytes) as ->. done.
Qed.

#[global] Instance base64_generator_laws g : @GeneratorLaws (base64_generate g).
Proof.
  intros s c. rewrite /generate /base64_generate. case_match; [|done].
  by intros [Hm ->]%new_ShortCode_ok.
Qed.

(** ** The generator's guarantee *)

(** for every configured length from 6 to 10 and every text that can be
    encoded, the Base64 generator returns (never raises) a code of exactly
    that length made of letters, digits, hyphen and underscore; and the same
    text and pepper always give the same code. *)
Theorem generator_is_total g input bytes :
  generator_wf g → utf8_encode (input ++ pepper g) = Some bytes →
  ∃ c, base64_generate g input = Ok c ∧ len (sc_value c) = code_length g ∧
       new_ShortCode (sc_value c) = Ok c.
Proof.
  intros Hg Hb. destruct (base64_generate_total g input bytes Hg Hb) as (c & Hc & Hl & Hm).
  exists c. split_and!; [done..|]. apply new_ShortCode_ok. by destruct c.
Qed.

Lemma generator_is_total_witness :
  ∃ c, base64_generate (MkBase64UrlCodeGenerator 7 6 10 (lit "pepper")) (lit "https://a.org") = Ok c
       ∧ len (sc_value c) = 7.
Proof.
  destruct (generator_is_total (MkBase64UrlCodeGenerator 7 6 10 (lit "pepper"))
    (lit "https://a.org") (lit "https://a.orgpepper")) as (c & Hc & Hl & _).
  - rewrite /generator_wf /MIN_LENGTH /MAX_LENGTH /=. lia.
  - vm_compute. reflexivity.
  - exists c. split; assumption.
Defined.
