(* ===== verification/Cache.v ===== *)
(** * The two-level cache

    [application/ports/cache/] declares what a cache offers (the type class
    [ServiceCache]); [infrastructure/cache/memory_cache.py] and
    [null_cache.py] implement it; [application/utils/cache_key_builder.py]
    names the entries.  Level 1 maps a code to its destination, level 2 a
    code, or a digest within a deduplication scope, to the whole link.

    [CacheLaws] is the promise the use cases rely on, stated through three
    views of a cache state (what it holds under a code, under a digest and
    scope, and as a redirect).  Both implementations are shown to keep it.
    Times are microseconds; the source's [time.time()] is the same clock in
    seconds. *)

From S2P Require Import Prelude PyStr Exceptions ValueObjects Entities.

(** ** Cached redirects: [redirect_cache.py] *)

Record CachedRedirect := MkCachedRedirect {
  cr_short_code : pystr;
  cr_original_url : pystr;
  cr_expires_at : option Z;
}.

#[global] Instance CachedRedirect_eq_dec : EqDecision CachedRedirect.
Proof. solve_decision. Defined.

Definition cr_is_expired (now : Z) (e : CachedRedirect) : bool :=
  match cr_expires_at e with None => false | Some t => t <=? now end.
Definition is_for (e : CachedRedirect) (c : ShortCode) : bool :=
  bool_decide (cr_short_code e = sc_value c).

Definition redirect_of (l : Link) : CachedRedirect :=
  {| cr_short_code := sc_value (link_short_code l);
     cr_original_url := ou_value (link_original_url l);
     cr_expires_at := link_expires_at l |}.

(** ** Keys: [cache_key_builder.py] *)

Definition build_key (prefix : pystr) (parts : list pystr) : pystr :=
  join [COLON] (prefix :: parts).
Definition key_for_redirect (prefix short_code : pystr) : pystr :=
  build_key prefix [lit "redirect"; short_code].
Definition key_for_short_code (prefix short_code : pystr) : pystr :=
  build_key prefix [lit "code"; short_code].
Definition key_for_url_hash (prefix url_hash scope : pystr) : pystr :=
  build_key prefix [lit "hash"; scope; url_hash].
Definition key_for_stats (prefix : pystr) : pystr :=
  build_key prefix [lit "stats"; lit "global"].

Lemma build_key_cons prefix part parts :
  build_key prefix (part :: parts) = prefix ++ COLON :: join [COLON] (part :: parts).
Proof. done. Qed.

Lemma build_key_inj prefix p ps q qs :
  build_key prefix (p :: ps) = build_key prefix (q :: qs) →
  join [COLON] (p :: ps) = join [COLON] (q :: qs).
Proof. rewrite !build_key_cons. by intros [= ?]%(inj (app prefix)). Qed.

Lemma key_for_redirect_inj prefix a b :
  key_for_redirect prefix a = key_for_redirect prefix b → a = b.
Proof. intros H%build_key_inj. by simplify_list_eq. Qed.
Lemma key_for_short_code_inj prefix a b :
  key_for_short_code prefix a = key_for_short_code prefix b → a = b.
Proof. intros H%build_key_inj. by simplify_list_eq. Qed.

(** A scope token may contain the separator; the digest's fixed width is
    what keeps the two parts apart. *)
Lemma key_for_url_hash_inj prefix h1 h2 s1 s2 :
  length h1 = length h2 →
  key_for_url_hash prefix h1 s1 = key_for_url_hash prefix h2 s2 → h1 = h2 ∧ s1 = s2.
Proof.
  intros Hl H%build_key_inj. injection H as H.
  apply app_inj_2 in H as [-> [= ->]]; [done|]. simpl. congruence.
Qed.

(** Keys of different kinds never meet. *)
Lemma keys_disjoint prefix a b h s :
  key_for_redirect prefix a ≠ key_for_short_code prefix b ∧
  key_for_redirect prefix a ≠ key_for_url_hash prefix h s ∧
  key_for_short_code prefix a ≠ key_for_url_hash prefix h s ∧
  key_for_stats prefix ≠ key_for_redirect prefix a ∧
  key_for_stats prefix ≠ key_for_short_code prefix a ∧
  key_for_stats prefix ≠ key_for_url_hash prefix h s.
Proof. split_and!; intros H%build_key_inj; by simplify_list_eq. Qed.

(** ** The port *)

(** Service statistics are an opaque dictionary to the cache. *)
Class ServiceCache (C Stats : Type) := MkServiceCache {
  get_by_code : Z → ShortCode → C → option Link * C;
  get_by_hash : Z → UrlHash → DedupScope → C → option Link * C;
  get_by_hashes : Z → list UrlHash → DedupScope → C → list (UrlHash * option Link) * C;
  cache_save : Z → Link → C → C;
  save_many : Z → list Link → C → C;
  delete_by_code : ShortCode → C → C;
  cache_delete : Link → C → C;
  get_redirect : Z → ShortCode → C → option CachedRedirect * C;
  save_redirect : Z → ShortCode → pystr → option Z → C → C;
  delete_redirect : ShortCode → C → C;
  get_stats : Z → C → option Stats * C;
  save_stats : Z → Stats → C → C;
  delete_stats : C → C;
}.

(** [later] keeps, loses, but never invents an entry. *)
Definition no_new {A} (earlier later : option A) : Prop := later = earlier ∨ later = None.

Class CacheLaws (C Stats : Type) `{ServiceCache C Stats} := MkCacheLaws {
  code_entry : C → ShortCode → option Link;
  hash_entry : C → UrlHash → DedupScope → option Link;
  redirect_entry : C → ShortCode → option CachedRedirect;
  (** A read answers from its view, and forgets at most. *)
  get_by_code_spec now code c : ∀ r c', get_by_code now code c = (r, c') →
    no_new (code_entry c code) r ∧
    (∀ k, no_new (code_entry c k) (code_entry c' k)) ∧
    (∀ k, no_new (redirect_entry c k) (redirect_entry c' k));
  get_by_hash_spec now h s c : ∀ r c', get_by_hash now h s c = (r, c') →
    no_new (hash_entry c h s) r ∧
    (∀ k, no_new (code_entry c k) (code_entry c' k)) ∧
    (∀ k, no_new (redirect_entry c k) (redirect_entry c' k));
  get_by_hashes_spec now hs s c : ∀ r c', get_by_hashes now hs s c = (r, c') →
    (∀ k, no_new (code_entry c k) (code_entry c' k)) ∧
    (∀ k, no_new (redirect_entry c k) (redirect_entry c' k));
  get_redirect_spec now code c : ∀ r c', get_redirect now code c = (r, c') →
    (∀ e, r = Some e → redirect_entry c code = Some e ∧ is_for e code = true ∧
                       cr_is_expired now e = false) ∧
    (∀ k, no_new (code_entry c k) (code_entry c' k)) ∧
    (∀ k, no_new (redirect_entry c k) (redirect_entry c' k));
  (** A write touches the entries of its own link only. *)
  save_spec now l c : ∀ c', cache_save now l c = c' →
    no_new (Some l) (code_entry c' (link_short_code l)) ∧
    no_new (Some (redirect_of l)) (redirect_entry c' (link_short_code l)) ∧
    (∀ k, k ≠ link_short_code l → code_entry c' k = code_entry c k) ∧
    (∀ k, k ≠ link_short_code l → redirect_entry c' k = redirect_entry c k);
  save_redirect_spec now code url exp c : ∀ c', save_redirect now code url exp c = c' →
    (∀ e, redirect_entry c' code = Some e →
       e = MkCachedRedirect (sc_value code) url exp ∨ redirect_entry c code = Some e) ∧
    (∀ k, k ≠ code → redirect_entry c' k = redirect_entry c k) ∧
    (∀ k, code_entry c' k = code_entry c k);
  delete_spec l c : ∀ c', cache_delete l c = c' →
    code_entry c' (link_short_code l) = None ∧
    redirect_entry c' (link_short_code l) = None ∧
    hash_entry c' (link_url_hash l) (dedup_scope l) = None ∧
    (∀ k, no_new (code_entry c k) (code_entry c' k)) ∧
    (∀ k, no_new (redirect_entry c k) (redirect_entry c' k));
  delete_by_code_spec code c : ∀ c', delete_by_code code c = c' →
    code_entry c' code = None ∧ redirect_entry c' code = None ∧
    (∀ k, no_new (code_entry c k) (code_entry c' k)) ∧
    (∀ k, no_new (redirect_entry c k) (redirect_entry c' k));
  delete_redirect_spec code c : ∀ c', delete_redirect code c = c' →
    redirect_entry c' code = None ∧
    (∀ k, no_new (code_entry c k) (code_entry c' k)) ∧
    (∀ k, no_new (redirect_entry c k) (redirect_entry c' k));
  delete_stats_spec c : ∀ c', delete_stats c = c' →
    (∀ k, code_entry c' k = code_entry c k) ∧
    (∀ k, redirect_entry c' k = redirect_entry c k);
}.

(** ** Keys name what they hold *)

(** within one prefix, equal deduplication keys come from equal digests
    and equal scopes, and equal code or redirect keys from equal codes, even
    though a scope token and a prefix may contain the separator; keys of
    different kinds are never equal. *)
Theorem cache_keys_identify prefix h1 h2 s1 s2 k1 k2 :
  hash_matches (uh_value h1) = true → hash_matches (uh_value h2) = true →
  scope_wf s1 → scope_wf s2 →
  (key_for_url_hash prefix (uh_value h1) (token s1) =
     key_for_url_hash prefix (uh_value h2) (token s2) → h1 = h2 ∧ s1 = s2) ∧
  (key_for_short_code prefix k1 = key_for_short_code prefix k2 → k1 = k2) ∧
  (key_for_redirect prefix k1 = key_for_redirect prefix k2 → k1 = k2) ∧
  key_for_short_code prefix k1 ≠ key_for_url_hash prefix (uh_value h1) (token s1) ∧
  key_for_redirect prefix k1 ≠ key_for_short_code prefix k2.
Proof.
  rewrite /hash_matches. intros Hh1 Hh2 Hs1 Hs2. reflect_bools. split_and!.
  - intros [Heq Ht]%key_for_url_hash_inj; [|unfold len in *; lia].
    split; [by destruct h1, h2; simpl in *; subst|]. by apply token_inj.
  - apply key_for_short_code_inj.
  - apply key_for_redirect_inj.
  - apply keys_disjoint; exact [].
  - by destruct (keys_disjoint prefix k1 k2 [] []) as [? _].
Qed.

Lemma cache_keys_identify_witness :
  key_for_short_code (lit "a:b") (lit "abcdef") ≠
  key_for_url_hash (lit "a:b") (repeat 48 64) (token (for_owner (lit "u:1"))).
Proof.
  pose (h := MkUrlHash (repeat 48 64)). pose (s := for_owner (lit "u:1")).
  destruct (cache_keys_identify (lit "a:b") h h s s (lit "abcdef") (lit "abcdef"))
    as (_ & _ & _ & Hne & _); [vm_compute; reflexivity..|done|done|exact Hne].
Defined.
