(* ===== verification/MemoryCache.v ===== *)
(** * Cache implementations

    [infrastructure/cache/memory_cache.py]: three dictionaries sharing one
    expiry table, swept on every read; and [null_cache.py], which stores
    nothing.  Both keep [CacheLaws]; the in-memory one is also shown to answer
    what was just saved, to drop every key of a deleted link, and never to
    answer a redirect past the link's own expiry.

    The dictionaries hold the link objects themselves; nothing in the program
    mutates a link after it is cached (clicks are counted in the database),
    so values stand for them.  The lock makes each method atomic. *)

From S2P Require Import Prelude PyStr Exceptions ValueObjects Entities Cache.

Section memory_cache.
Context {Stats : Type}.

(** [__init__]: the key prefix and the two lifetimes, in seconds. *)
Record CacheSettings := MkCacheSettings {
  cs_prefix : pystr;
  cs_link_ttl : Z;
  cs_stats_ttl : Z;
}.

Record InMemoryLinkCache := MkInMemoryLinkCache {
  mc_links : gmap pystr Link;
  mc_redirects : gmap pystr CachedRedirect;
  mc_stats : option Stats;
  mc_expiry : gmap pystr Z;
}.

Context (cfg : CacheSettings).
Implicit Types (c : InMemoryLinkCache) (now : Z).

Local Abbreviation k_code code := (key_for_short_code (cs_prefix cfg) (sc_value code)).
Local Abbreviation k_redirect code := (key_for_redirect (cs_prefix cfg) (sc_value code)).
Local Abbreviation k_hash h s := (key_for_url_hash (cs_prefix cfg) (uh_value h) (token s)).
Local Abbreviation k_stats := (key_for_stats (cs_prefix cfg)).

Definition mc_is_expired now (key : pystr) c : bool :=
  match mc_expiry c !! key with None => false | Some t => t <? now end.

(** Keys whose moment has passed. *)
Definition lapsed now c (key : pystr) : Prop := mc_is_expired now key c = true.

#[export] Instance lapsed_dec now c key : Decision (lapsed now c key).
Proof. unfold lapsed. apply _. Defined.

(** [_clean_expired]: drop every lapsed key from all the tables. *)
Definition clean_expired now c : InMemoryLinkCache :=
  {| mc_links := filter (λ kv, ¬ lapsed now c kv.1) (mc_links c);
     mc_redirects := filter (λ kv, ¬ lapsed now c kv.1) (mc_redirects c);
     mc_stats := if mc_is_expired now k_stats c then None else mc_stats c;
     mc_expiry := filter (λ kv, ¬ lapsed now c kv.1) (mc_expiry c) |}.

Definition clear_all c : InMemoryLinkCache := MkInMemoryLinkCache ∅ ∅ None ∅.

(** [link_count], [redirect_count], [has_stats], [total_keys]. *)
Definition get_cache_info now c : (nat * nat * bool * nat) * InMemoryLinkCache :=
  let c := clean_expired now c in
  ((size (mc_links c), size (mc_redirects c), bool_decide (is_Some (mc_stats c)),
    size (mc_expiry c)), c).

Definition mc_get_by_code now (code : ShortCode) c : option Link * InMemoryLinkCache :=
  let c := clean_expired now c in (mc_links c !! k_code code, c).

Definition mc_get_by_hash now (h : UrlHash) (s : DedupScope) c
    : option Link * InMemoryLinkCache :=
  let c := clean_expired now c in (mc_links c !! k_hash h s, c).

(** A dictionary keyed by digest: one entry per distinct digest. *)
Definition mc_get_by_hashes now (hs : list UrlHash) (s : DedupScope) c
    : list (UrlHash * option Link) * InMemoryLinkCache :=
  let c := clean_expired now c in
  ((λ h, (h, mc_links c !! k_hash h s)) <$> remove_dups hs, c).

(** [_redirect_ttl], in microseconds. *)
Definition redirect_ttl now (expires_at : option Z) : option Z :=
  match expires_at with
  | None => Some (cs_link_ttl cfg * SECOND)
  | Some t =>
      let remaining := t - now in
      if remaining <=? 0 then None else Some (Z.min (cs_link_ttl cfg * SECOND) remaining)
  end.

Definition mc_save now (l : Link) c : InMemoryLinkCache :=
  let hash_key := k_hash (link_url_hash l) (dedup_scope l) in
  let code_key := k_code (link_short_code l) in
  let redirect_key := k_redirect (link_short_code l) in
  let until := now + cs_link_ttl cfg * SECOND in
  let links := <[code_key := l]> (<[hash_key := l]> (mc_links c)) in
  let expiry := <[code_key := until]> (<[hash_key := until]> (mc_expiry c)) in
  match redirect_ttl now (link_expires_at l) with
  | None =>
      {| mc_links := links; mc_redirects := delete redirect_key (mc_redirects c);
         mc_stats := mc_stats c; mc_expiry := delete redirect_key expiry |}
  | Some ttl =>
      {| mc_links := links;
         mc_redirects := <[redirect_key := redirect_of l]> (mc_redirects c);
         mc_stats := mc_stats c; mc_expiry := <[redirect_key := now + ttl]> expiry |}
  end.

Definition mc_save_many now (ls : list Link) c : InMemoryLinkCache :=
  foldl (λ c l, mc_save now l c) c ls.

(** [pop(key, None)] from the three tables, for each key. *)
Definition pop_key c (key : pystr) : InMemoryLinkCache :=
  {| mc_links := delete key (mc_links c); mc_redirects := delete key (mc_redirects c);
     mc_stats := mc_stats c; mc_expiry := delete key (mc_expiry c) |}.

Definition mc_delete_by_code (code : ShortCode) c : InMemoryLinkCache :=
  foldl pop_key c [k_code code; k_redirect code].

Definition mc_delete (l : Link) c : InMemoryLinkCache :=
  foldl pop_key c [k_code (link_short_code l); k_redirect (link_short_code l);
                   k_hash (link_url_hash l) (dedup_scope l)].

Definition mc_delete_redirect (code : ShortCode) c : InMemoryLinkCache :=
  {| mc_links := mc_links c; mc_redirects := delete (k_redirect code) (mc_redirects c);
     mc_stats := mc_stats c; mc_expiry := delete (k_redirect code) (mc_expiry c) |}.

Definition mc_get_redirect now (code : ShortCode) c
    : option CachedRedirect * InMemoryLinkCache :=
  let c := clean_expired now c in
  match mc_redirects c !! k_redirect code with
  | None => (None, c)
  | Some e => if negb (is_for e code) || cr_is_expired now e then (None, c) else (Some e, c)
  end.

Definition mc_save_redirect now (code : ShortCode) (original_url : pystr)
    (expires_at : option Z) c : InMemoryLinkCache :=
  match redirect_ttl now expires_at with
  | None => c
  | Some ttl =>
      {| mc_links := mc_links c;
         mc_redirects := <[k_redirect code :=
           MkCachedRedirect (sc_value code) original_url expires_at]> (mc_redirects c);
         mc_stats := mc_stats c;
         mc_expiry := <[k_redirect code := now + ttl]> (mc_expiry c) |}
  end.

Definition set_stats (s : option Stats) c : InMemoryLinkCache :=
  {| mc_links := mc_links c; mc_redirects := mc_redirects c; mc_stats := s;
     mc_expiry := mc_expiry c |}.

Definition mc_get_stats now c : option Stats * InMemoryLinkCache :=
  let c := clean_expired now c in
  if bool_decide (is_Some (mc_expiry c !! k_stats)) && negb (mc_is_expired now k_stats c)
  then (mc_stats c, c) else (None, set_stats None c).

Definition mc_save_stats now (s : Stats) c : InMemoryLinkCache :=
  {| mc_links := mc_links c; mc_redirects := mc_redirects c; mc_stats := Some s;
     mc_expiry := <[k_stats := now + cs_stats_ttl cfg * SECOND]> (mc_expiry c) |}.

Definition mc_delete_stats c : InMemoryLinkCache :=
  {| mc_links := mc_links c; mc_redirects := mc_redirects c; mc_stats := None;
     mc_expiry := delete k_stats (mc_expiry c) |}.

#[export] Instance InMemory_ServiceCache : ServiceCache InMemoryLinkCache Stats := {|
  get_by_code := mc_get_by_code;
  get_by_hash := mc_get_by_hash;
  get_by_hashes := mc_get_by_hashes;
  cache_save := mc_save;
  save_many := mc_save_many;
  delete_by_code := mc_delete_by_code;
  cache_delete := mc_delete;
  get_redirect := mc_get_redirect;
  save_redirect := mc_save_redirect;
  delete_redirect := mc_delete_redirect;
  get_stats := mc_get_stats;
  save_stats := mc_save_stats;
  delete_stats := mc_delete_stats;
|}.

(** ** The laws *)

Definition mc_code_entry c (code : ShortCode) : option Link := mc_links c !! k_code code.
Definition mc_hash_entry c (h : UrlHash) (s : DedupScope) : option Link :=
  mc_links c !! k_hash h s.
Definition mc_redirect_entry c (code : ShortCode) : option CachedRedirect :=
  mc_redirects c !! k_redirect code.

Lemma filter_no_new {A} (P : pystr * A → Prop) `{∀ x, Decision (P x)}
    (m : gmap pystr A) key : no_new (m !! key) (filter P m !! key).
Proof.
  rewrite /no_new map_lookup_filter. destruct (m !! key) as [x|]; simpl; [|by left].
  case_guard; simpl; auto.
Qed.

Lemma delete_no_new {A} (m : gmap pystr A) key key' :
  no_new (m !! key) (delete key' m !! key).
Proof.
  rewrite /no_new. destruct (decide (key = key')) as [->|].
  - right. apply lookup_delete_eq.
  - left. by apply lookup_delete_ne.
Qed.

Lemma no_new_trans {A} (a b d : option A) : no_new a b → no_new b d → no_new a d.
Proof. rewrite /no_new. intros [->| ->] [->| ->]; auto. Qed.

Lemma no_new_refl {A} (a : option A) : no_new a a.
Proof. by left. Qed.

Lemma k_code_inj a b : k_code a = k_code b → a = b.
Proof. intros H%key_for_short_code_inj. destruct a, b. by simpl in *; subst. Qed.
Lemma k_redirect_inj a b : k_redirect a = k_redirect b → a = b.
Proof. intros H%key_for_redirect_inj. destruct a, b. by simpl in *; subst. Qed.
Lemma k_code_redirect a b : k_code a ≠ k_redirect b.
Proof. intros H. by destruct (keys_disjoint (cs_prefix cfg) (sc_value b) (sc_value a) [] []) as [? _]. Qed.
Lemma k_code_hash a h s : k_code a ≠ k_hash h s.
Proof. by destruct (keys_disjoint (cs_prefix cfg) (sc_value a) [] (uh_value h) (token s)) as (_&_&?&_). Qed.
Lemma k_redirect_hash a h s : k_redirect a ≠ k_hash h s.
Proof. by destruct (keys_disjoint (cs_prefix cfg) (sc_value a) [] (uh_value h) (token s)) as (_&?&_). Qed.

Lemma pop_key_no_new c key key' :
  no_new (mc_links c !! key) (mc_links (pop_key c key') !! key) ∧
  no_new (mc_redirects c !! key) (mc_redirects (pop_key c key') !! key).
Proof. split; apply delete_no_new. Qed.

Lemma pop_keys_spec keys c key :
  no_new (mc_links c !! key) (mc_links (foldl pop_key c keys) !! key) ∧
  no_new (mc_redirects c !! key) (mc_redirects (foldl pop_key c keys) !! key) ∧
  (key ∈ keys → mc_links (foldl pop_key c keys) !! key = None ∧
                mc_redirects (foldl pop_key c keys) !! key = None).
Proof.
  revert c; induction keys as [|k keys IH]; intros c; simpl.
  { split; [by left|]. split; [by left|]. by intros ?%elem_of_nil. }
  destruct (IH (pop_key c k)) as (H1 & H2 & H3).
  destruct (pop_key_no_new c key k) as [H4 H5].
  split; [by eapply no_new_trans|]. split; [by eapply no_new_trans|].
  intros [->|Hin]%elem_of_cons; [|auto].
  assert (mc_links (pop_key c k) !! k = None) as Hl by apply lookup_delete_eq.
  assert (mc_redirects (pop_key c k) !! k = None) as Hr by apply lookup_delete_eq.
  rewrite Hl in H1. rewrite Hr in H2.
  split; [by destruct H1|by destruct H2].
Qed.

Lemma mc_save_views now l c key :
  mc_links (mc_save now l c) !! key =
    (if decide (key = k_code (link_short_code l)) then Some l
     else if decide (key = k_hash (link_url_hash l) (dedup_scope l)) then Some l
     else mc_links c !! key) ∧
  mc_redirects (mc_save now l c) !! key =
    (if decide (key = k_redirect (link_short_code l))
     then redirect_ttl now (link_expires_at l) ≫= λ _, Some (redirect_of l)
     else mc_redirects c !! key).
Proof.
  rewrite /mc_save. split.
  - destruct (redirect_ttl _ _); simpl; rewrite !lookup_insert; repeat case_decide; congruence.
  - destruct (redirect_ttl _ _); simpl; rewrite ?lookup_insert ?lookup_delete;
      repeat case_decide; congruence.
Qed.

#[export] Instance InMemory_laws : CacheLaws InMemoryLinkCache Stats.
Proof.
  refine (MkCacheLaws _ _ _ mc_code_entry mc_hash_entry mc_redirect_entry
            _ _ _ _ _ _ _ _ _ _); simpl.
  - intros now code c r c' [= <- <-]. split; [apply filter_no_new|].
    split; intros k; apply filter_no_new.
  - intros now h s c r c' [= <- <-]. split; [apply filter_no_new|].
    split; intros k; apply filter_no_new.
  - intros now hs s c r c' [= <- <-]. split; intros k; apply filter_no_new.
  - intros now code c r c'. rewrite /mc_get_redirect.
    pose proof (filter_no_new (λ kv, ¬ lapsed now c kv.1) (mc_redirects c) (k_redirect code)) as Hn.
    simpl. destruct (filter _ (mc_redirects c) !! k_redirect code) as [e|].
    + destruct Hn as [Hn|Hn]; [|done].
      destruct (is_for e code) eqn:?, (cr_is_expired now e) eqn:?; simpl; intros [= <- <-];
        (split; [intros ? [=]; subst; rewrite /mc_redirect_entry -Hn //|]);
        split; intros k; apply filter_no_new.
    + intros [= <- <-]. split; [done|]. split; intros k; apply filter_no_new.
  - intros now l c c' <-. rewrite /mc_code_entry /mc_redirect_entry.
    destruct (mc_save_views now l c (k_code (link_short_code l))) as [-> _].
    destruct (mc_save_views now l c (k_redirect (link_short_code l))) as [_ ->].
    rewrite !decide_True //. split; [by left|]. split.
    { destruct (redirect_ttl _ _); simpl; [by left|by right]. }
    split; intros k Hk.
    + destruct (mc_save_views now l c (k_code k)) as [-> _].
      rewrite decide_False; [|by intros ?%k_code_inj].
      rewrite decide_False //. apply k_code_hash.
    + destruct (mc_save_views now l c (k_redirect k)) as [_ ->].
      rewrite decide_False //. by intros ?%k_redirect_inj.
  - intros now code url exp c c' <-. rewrite /mc_save_redirect /mc_redirect_entry /mc_code_entry.
    destruct (redirect_ttl _ _); simpl; [|naive_solver].
    split; [|split; [|done]].
    + intros e. rewrite lookup_insert_eq. intros [= <-]. by left.
    + intros k Hk. rewrite lookup_insert_ne //. intros ?%k_redirect_inj. congruence.
  - intros l c c' <-. rewrite /mc_code_entry /mc_redirect_entry /mc_hash_entry.
    split_and!.
    1-3: apply pop_keys_spec; set_solver.
    1-2: intros k; apply pop_keys_spec.
  - intros code c c' <-. rewrite /mc_code_entry /mc_redirect_entry.
    split_and!.
    1-2: apply pop_keys_spec; set_solver.
    1-2: intros k; apply pop_keys_spec.
  - intros code c c' <-. rewrite /mc_code_entry /mc_redirect_entry /=.
    split; [apply lookup_delete_eq|]. split; intros k; [by left|apply delete_no_new].
  - by intros c c' <-.
Defined.

(** ** Reading back *)

Lemma clean_keeps_link now c key l :
  mc_is_expired now key c = false → mc_links c !! key = Some l →
  mc_links (clean_expired now c) !! key = Some l.
Proof.
  intros He Hl. simpl. apply map_lookup_filter_Some. split; [done|].
  rewrite /lapsed /= He. done.
Qed.

Lemma clean_keeps_redirect now c key e :
  mc_is_expired now key c = false → mc_redirects c !! key = Some e →
  mc_redirects (clean_expired now c) !! key = Some e.
Proof.
  intros He Hl. simpl. apply map_lookup_filter_Some. split; [done|].
  rewrite /lapsed /= He. done.
Qed.

Lemma mc_save_expiry now l c key :
  mc_expiry (mc_save now l c) !! key =
    if decide (key = k_redirect (link_short_code l))
    then (λ ttl, now + ttl) <$> redirect_ttl now (link_expires_at l)
    else if decide (key = k_code (link_short_code l)) then Some (now + cs_link_ttl cfg * SECOND)
    else if decide (key = k_hash (link_url_hash l) (dedup_scope l))
    then Some (now + cs_link_ttl cfg * SECOND)
    else mc_expiry c !! key.
Proof.
  rewrite /mc_save. destruct (redirect_ttl _ _); simpl;
    rewrite ?lookup_insert ?lookup_delete ?lookup_insert; repeat case_decide; congruence.
Qed.

Lemma saved_key_alive now now' l c key :
  now' <= now + cs_link_ttl cfg * SECOND →
  key = k_code (link_short_code l) ∨ key = k_hash (link_url_hash l) (dedup_scope l) →
  mc_is_expired now' key (mc_save now l c) = false.
Proof.
  intros Ht Hkey. rewrite /mc_is_expired mc_save_expiry.
  rewrite decide_False; [|destruct Hkey as [->| ->]].
  - destruct Hkey as [->| ->]; repeat case_decide; try done; lia.
  - apply k_code_redirect.
  - intros Heq. by apply (k_redirect_hash (link_short_code l) (link_url_hash l) (dedup_scope l)).
Qed.

Lemma saved_link_is_read now now' l c :
  now' <= now + cs_link_ttl cfg * SECOND →
  (mc_get_by_code now' (link_short_code l) (mc_save now l c)).1 = Some l ∧
  (mc_get_by_hash now' (link_url_hash l) (dedup_scope l) (mc_save now l c)).1 = Some l.
Proof.
  intros Ht. split; apply clean_keeps_link; try (apply saved_key_alive; auto);
    destruct (mc_save_views now l c (k_code (link_short_code l))) as [Hc _],
      (mc_save_views now l c (k_hash (link_url_hash l) (dedup_scope l))) as [Hh _].
  - by rewrite Hc decide_True.
  - rewrite Hh decide_False; [by rewrite decide_True|]. intros Heq.
    by apply (k_code_hash (link_short_code l) (link_url_hash l) (dedup_scope l)).
Qed.

Lemma saved_redirect_is_read now now' l c :
  now <= now' <= now + cs_link_ttl cfg * SECOND → is_expired now' l = false →
  (mc_get_redirect now' (link_short_code l) (mc_save now l c)).1 = Some (redirect_of l).
Proof.
  intros Ht He. rewrite /mc_get_redirect.
  assert (∃ ttl, redirect_ttl now (link_expires_at l) = Some ttl ∧ now' <= now + ttl)
    as (ttl & Httl & Hle).
  { rewrite /redirect_ttl. revert He. rewrite /is_expired.
    destruct (link_expires_at l) as [t|]; [|intros _; eexists; split; [done|lia]].
    intros Hlt. rewrite (_ : (t - now <=? 0) = false); [|lia].
    eexists; split; [done|]. lia. }
  rewrite (clean_keeps_redirect _ _ _ (redirect_of l)).
  - rewrite /is_for /= bool_decide_eq_true_2 //=.
    by rewrite (_ : cr_is_expired now' (redirect_of l) = is_expired now' l) // He.
  - rewrite /mc_is_expired mc_save_expiry decide_True // Httl /=. lia.
  - destruct (mc_save_views now l c (k_redirect (link_short_code l))) as [_ ->].
    by rewrite decide_True // Httl.
Qed.

Lemma no_new_None {A} (o : option A) : no_new None o → o = None.
Proof. by intros [->| ->]. Qed.

Lemma deleted_link_is_gone now l c :
  (mc_get_by_code now (link_short_code l) (mc_delete l c)).1 = None ∧
  (mc_get_by_hash now (link_url_hash l) (dedup_scope l) (mc_delete l c)).1 = None ∧
  (mc_get_redirect now (link_short_code l) (mc_delete l c)).1 = None.
Proof.
  assert (∀ key, key ∈ [k_code (link_short_code l); k_redirect (link_short_code l);
                        k_hash (link_url_hash l) (dedup_scope l)] →
    mc_links (mc_delete l c) !! key = None ∧ mc_redirects (mc_delete l c) !! key = None)
    as Hgone by (intros key Hk; by apply pop_keys_spec).
  rewrite /mc_get_by_code /mc_get_by_hash /mc_get_redirect.
  generalize dependent (mc_delete l c). intros c' Hgone. simpl. split_and!.
  - apply no_new_None. rewrite -(proj1 (Hgone (k_code (link_short_code l)) ltac:(set_solver))).
    apply filter_no_new.
  - apply no_new_None.
    rewrite -(proj1 (Hgone (k_hash (link_url_hash l) (dedup_scope l)) ltac:(set_solver))).
    apply filter_no_new.
  - pose proof (filter_no_new (λ kv, ¬ lapsed now c' kv.1)
      (mc_redirects c') (k_redirect (link_short_code l))) as Hn.
    rewrite (proj2 (Hgone (k_redirect (link_short_code l)) ltac:(set_solver))) in Hn.
    by rewrite (no_new_None _ Hn).
Qed.
End memory_cache.

Arguments InMemoryLinkCache Stats : clear implicits.

(** ** No cache at all: [null_cache.py] *)

Section null_cache.
Context {Stats : Type}.

Definition null_get_by_hashes (hs : list UrlHash) : list (UrlHash * option Link) :=
  (λ h, (h, None)) <$> remove_dups hs.

#[export] Instance Null_ServiceCache : ServiceCache unit Stats := {|
  get_by_code _ _ c := (None, c);
  get_by_hash _ _ _ c := (None, c);
  get_by_hashes _ hs _ c := (null_get_by_hashes hs, c);
  cache_save _ _ c := c;
  save_many _ _ c := c;
  delete_by_code _ c := c;
  cache_delete _ c := c;
  get_redirect _ _ c := (None, c);
  save_redirect _ _ _ _ c := c;
  delete_redirect _ c := c;
  get_stats _ c := (None, c);
  save_stats _ _ c := c;
  delete_stats c := c;
|}.

#[export] Instance Null_laws : CacheLaws unit Stats.
Proof.
  refine (MkCacheLaws _ _ _ (λ _ _, None) (λ _ _ _, None) (λ _ _, None)
            _ _ _ _ _ _ _ _ _ _); simpl; rewrite /no_new; intros; simplify_eq;
    repeat split; intros; simplify_eq; auto.
Defined.
End null_cache.

(** ** The cache's guarantees *)

(** until its lifetime passes, the in-memory cache answers a saved link
    under its code and under its digest and scope, and its redirect while the
    link itself has not expired, whatever was cached before; a redirect it
    answers is for the code asked and has not expired. *)
Theorem saved_link_is_served {Stats} (cfg : CacheSettings) now now' l
    (c : InMemoryLinkCache Stats) :
  now <= now' <= now + cs_link_ttl cfg * SECOND →
  (mc_get_by_code cfg now' (link_short_code l) (mc_save cfg now l c)).1 = Some l ∧
  (mc_get_by_hash cfg now' (link_url_hash l) (dedup_scope l) (mc_save cfg now l c)).1 = Some l ∧
  (mc_get_redirect cfg now' (link_short_code l) (mc_save cfg now l c)).1 =
    if is_expired now' l then None else Some (redirect_of l).
Proof.
  intros Ht. destruct (saved_link_is_read cfg now now' l c) as [Hc Hh]; [lia|].
  split; [done|]. split; [done|].
  destruct (is_expired now' l) eqn:He; [|by apply saved_redirect_is_read].
  destruct (mc_get_redirect cfg now' (link_short_code l) (mc_save cfg now l c)) as [[e|] c'] eqn:Hg;
    [|done].
  exfalso. pose proof (@get_redirect_spec _ Stats _ (InMemory_laws cfg) now' (link_short_code l) (mc_save cfg now l c)) as Hsp.
  edestruct Hsp as [He' _]; [exact Hg|]. destruct (He' e eq_refl) as (Hv & _ & Hx).
  destruct (mc_save_views cfg now l c (key_for_redirect (cs_prefix cfg) (sc_value (link_short_code l))))
    as [_ Hr].
  simpl in Hv. rewrite /mc_redirect_entry Hr decide_True // in Hv.
  destruct (redirect_ttl cfg now (link_expires_at l)); [|done]. simpl in Hv. injection Hv as <-.
  by rewrite (_ : cr_is_expired now' (redirect_of l) = is_expired now' l) // He in Hx.
Qed.

Definition sample_settings : CacheSettings := MkCacheSettings (lit "maiz") 3600 60.
Definition cached_sample : Link :=
  {| link_id := lit "1"; link_url_hash := MkUrlHash (repeat 97 64);
     link_short_code := MkShortCode (lit "abc-12");
     link_original_url := MkOriginalUrl (lit "https://a.org");
     link_created_at := 0; link_clicks := 0; link_last_accessed := None; link_owner := None;
     link_expires_at := Some (10 * SECOND); link_guest_identifier := Some (lit "10.0.0.1") |}.

Lemma saved_link_is_served_witness :
  let c := mc_save sample_settings 0 cached_sample (MkInMemoryLinkCache (Stats := unit) ∅ ∅ None ∅) in
  (mc_get_redirect sample_settings (9 * SECOND) (MkShortCode (lit "abc-12")) c).1 =
    Some (redirect_of cached_sample) ∧
  (mc_get_redirect sample_settings (10 * SECOND) (MkShortCode (lit "abc-12")) c).1 = None.
Proof.
  split.
  - apply (saved_link_is_served sample_settings 0 (9 * SECOND) cached_sample).
    vm_compute. split; discriminate.
  - apply (saved_link_is_served sample_settings 0 (10 * SECOND) cached_sample).
    vm_compute. split; discriminate.
Defined.

(** after a link is deleted from the in-memory cache nothing of it is
    answered, by code, by digest and scope, or as a redirect, and every other
    link's entries under its own code are untouched. *)
Theorem deleted_link_is_not_served {Stats} (cfg : CacheSettings) now l
    (c : InMemoryLinkCache Stats) :
  (mc_get_by_code cfg now (link_short_code l) (mc_delete cfg l c)).1 = None ∧
  (mc_get_by_hash cfg now (link_url_hash l) (dedup_scope l) (mc_delete cfg l c)).1 = None ∧
  (mc_get_redirect cfg now (link_short_code l) (mc_delete cfg l c)).1 = None ∧
  ∀ k, k ≠ link_short_code l →
    mc_links (mc_delete cfg l c) !! key_for_short_code (cs_prefix cfg) (sc_value k) =
    mc_links c !! key_for_short_code (cs_prefix cfg) (sc_value k).
Proof.
  destruct (deleted_link_is_gone cfg now l c) as (? & ? & ?). split_and!; [done..|].
  intros k Hk. rewrite /mc_delete /=. rewrite !lookup_delete_ne //.
  - by intros ?%(k_code_inj cfg).
  - apply not_eq_sym, k_code_redirect.
  - apply not_eq_sym, k_code_hash.
Qed.
