(* ===== verification/Database.v ===== *)
(** * The database, the unit of work and the world an operation runs in

    A table is the list of its rows, each row the entity the repository's
    [_to_domain] makes of it.  [UnitOfWork] ([infrastructure/database/
    unit_of_work.py]) gives an operation a working copy that [commit]
    publishes and that leaving the block without one discards; an exception
    raised after the commit leaves what was committed.

    A request runs at one instant ([w_now]); [uuid4] draws from a supply.
    Log lines are not modelled; audit records and queued tasks are, because
    the program's guarantees speak of them. *)

From S2P Require Import Prelude PyStr Exceptions ValueObjects Entities.

(** ** Rows *)

(** A user row names its roles; [find_by_id] joins them in. *)
Record UserModel := MkUserModel {
  um_id : pystr;
  um_email : pystr;
  um_password_hash : pystr;
  um_roles : list pystr;
  um_is_active : bool;
  um_email_verified : bool;
  um_created_at : Z;
  um_last_login : option Z;
}.

#[global] Instance UserModel_eq_dec : EqDecision UserModel.
Proof. solve_decision. Defined.

(** [domain/entities/link_visit.py]. *)
Record LinkVisit := MkLinkVisit {
  lv_id : pystr;
  lv_link_id : pystr;
  lv_occurred_at : Z;
  lv_visitor_network : option pystr;
  lv_device : pystr;
  lv_browser : pystr;
  lv_is_bot : bool;
}.

#[global] Instance LinkVisit_eq_dec : EqDecision LinkVisit.
Proof. solve_decision. Defined.

(** The visits of one link on one day, once folded. *)
Record VisitsOnADay := MkVisitsOnADay {
  vd_link_id : pystr;
  vd_day : Z;
  vd_total : Z;
  vd_bots : Z;
}.

#[global] Instance VisitsOnADay_eq_dec : EqDecision VisitsOnADay.
Proof. solve_decision. Defined.

Record Database := MkDatabase {
  urls : list Link;
  users : list UserModel;
  roles : list Role;
  permissions : list Permission;
  refresh_sessions : list RefreshSession;
  email_verifications : list EmailVerification;
  password_resets : list PasswordReset;
  link_visits : list LinkVisit;
  link_visit_days : list VisitsOnADay;
}.

#[global] Instance Database_eq_dec : EqDecision Database.
Proof. solve_decision. Defined.

Definition empty_db : Database := MkDatabase [] [] [] [] [] [] [] [] [].

Definition set_urls (t : list Link) (d : Database) : Database :=
  MkDatabase t (users d) (roles d) (permissions d) (refresh_sessions d)
    (email_verifications d) (password_resets d) (link_visits d) (link_visit_days d).
Definition set_users (t : list UserModel) (d : Database) : Database :=
  MkDatabase (urls d) t (roles d) (permissions d) (refresh_sessions d)
    (email_verifications d) (password_resets d) (link_visits d) (link_visit_days d).
Definition set_roles (t : list Role) (d : Database) : Database :=
  MkDatabase (urls d) (users d) t (permissions d) (refresh_sessions d)
    (email_verifications d) (password_resets d) (link_visits d) (link_visit_days d).
Definition set_refresh_sessions (t : list RefreshSession) (d : Database) : Database :=
  MkDatabase (urls d) (users d) (roles d) (permissions d) t
    (email_verifications d) (password_resets d) (link_visits d) (link_visit_days d).
Definition set_email_verifications (t : list EmailVerification) (d : Database) : Database :=
  MkDatabase (urls d) (users d) (roles d) (permissions d) (refresh_sessions d)
    t (password_resets d) (link_visits d) (link_visit_days d).
Definition set_password_resets (t : list PasswordReset) (d : Database) : Database :=
  MkDatabase (urls d) (users d) (roles d) (permissions d) (refresh_sessions d)
    (email_verifications d) t (link_visits d) (link_visit_days d).
Definition set_link_visits (t : list LinkVisit) (d : Database) : Database :=
  MkDatabase (urls d) (users d) (roles d) (permissions d) (refresh_sessions d)
    (email_verifications d) (password_resets d) t (link_visit_days d).
Definition set_link_visit_days (t : list VisitsOnADay) (d : Database) : Database :=
  MkDatabase (urls d) (users d) (roles d) (permissions d) (refresh_sessions d)
    (email_verifications d) (password_resets d) (link_visits d) t.

(** ** Who asks: [context.py], [dtos/current_user_info.py] *)

Record CurrentUserInfo := MkCurrentUserInfo {
  cu_id : pystr;
  cu_email : pystr;
  cu_roles : list pystr;
  cu_is_active : bool;
}.

Record RequestContext := MkRequestContext {
  request_id : pystr;
  remote_addr : option pystr;
  user_agent : option pystr;
  current_user : option CurrentUserInfo;
}.

(** ** What leaves the process besides the answer *)

Inductive audit_event :=
| UrlCreated (short_code original_url : pystr) (batch_id : option pystr)
| UrlAccessed (short_code original_url : pystr)
| UrlDeleted (short_code original_url : pystr)
| ExpiredLinksSwept (links_deleted : nat)
| LoginFailed (email reason : pystr) (target_user_id : option pystr)
| LoginSucceeded (target_user_id email : pystr)
| RefreshTokenReplayed (target_user_id session_id : pystr)
| SessionEnded (target_user_id session_id : option pystr)
| Registered (target_user_id email : pystr)
| EmailConfirmed (target_user_id : pystr)
| PasswordWasReset (target_user_id : pystr) (sessions_revoked : nat)
| PasswordChanged (target_user_id : pystr) (sessions_revoked : nat)
| UserPasswordReset (target_user_id : pystr) (sessions_revoked : nat)
| AddressesNormalised (addresses_changed : nat)
| UnverifiedAccountsSwept (accounts_deleted tokens_deleted : nat)
| UserActivated (target_user_id : pystr)
| UserEmailConfirmed (target_user_id : pystr) (already_confirmed : bool)
| UserCreated (target_user_id email : pystr) (roles : list pystr)
| UserDeactivated (target_user_id : pystr) (sessions_revoked : nat)
| UserDeleted (target_user_id : pystr) (links_deleted : nat)
| RolesChanged (target_user_id : pystr) (roles_before roles_after : list pystr)
| RoleCreated (role : pystr) (permissions : list pystr)
| RoleDeleted (role : pystr) (holders : nat)
| RolePermissionsChanged (role : pystr) (before after : list pystr) (holders : nat)
| AuditViewed (journal reason : pystr) (filters : list (pystr * pystr))
| PermissionDenied (required exceeded : list pystr).

Inductive task :=
| LinkAccessed (short_code : pystr) (context : RequestContext)
| VerificationEmail (email token : pystr) (context : RequestContext)
| PasswordResetEmail (email token : pystr) (context : RequestContext)
| AccountExistsEmail (email : pystr) (context : RequestContext).

(** ** The world *)

Class UuidSupply := uuid4 : nat → pystr.
(** [.hex] of a UUID: the text without its hyphens. *)
Definition uuid_hex (u : pystr) : pystr := filter (λ c, c ≠ HYPHEN) u.

Record Txn := MkTxn { tx_work : Database; tx_committed : bool }.

Section world.
Context {C : Type}.

Record World := MkWorld {
  w_db : Database;
  w_txn : option Txn;
  w_cache : C;
  w_now : Z;
  w_uuids : nat;
  w_audit : list audit_event;
  w_tasks : list task;
  w_failed_at : option Z;
}.

Implicit Type w : World.

Definition set_db (d : Database) w : World :=
  MkWorld d (w_txn w) (w_cache w) (w_now w) (w_uuids w) (w_audit w) (w_tasks w)
    (w_failed_at w).
Definition set_txn (t : option Txn) w : World :=
  MkWorld (w_db w) t (w_cache w) (w_now w) (w_uuids w) (w_audit w) (w_tasks w)
    (w_failed_at w).
Definition set_cache (c : C) w : World :=
  MkWorld (w_db w) (w_txn w) c (w_now w) (w_uuids w) (w_audit w) (w_tasks w)
    (w_failed_at w).
Definition set_uuids (n : nat) w : World :=
  MkWorld (w_db w) (w_txn w) (w_cache w) (w_now w) n (w_audit w) (w_tasks w)
    (w_failed_at w).
Definition add_audit (e : audit_event) w : World :=
  MkWorld (w_db w) (w_txn w) (w_cache w) (w_now w) (w_uuids w) (w_audit w ++ [e]) (w_tasks w)
    (w_failed_at w).
Definition add_task (t : task) w : World :=
  MkWorld (w_db w) (w_txn w) (w_cache w) (w_now w) (w_uuids w) (w_audit w) (w_tasks w ++ [t])
    (w_failed_at w).

Definition set_now (t : Z) w : World :=
  MkWorld (w_db w) (w_txn w) (w_cache w) t (w_uuids w) (w_audit w) (w_tasks w)
    (w_failed_at w).
Definition set_failed_at (t : option Z) w : World :=
  MkWorld (w_db w) (w_txn w) (w_cache w) (w_now w) (w_uuids w) (w_audit w) (w_tasks w) t.

Abbreviation P := (M World exn).

Definition now_utc : P Z := gets w_now.
Definition audit (e : audit_event) : P unit := modify (add_audit e).

(** [uuid4()]: the next draw of the supply. *)
Definition fresh_uuid `{UuidSupply} : P pystr :=
  λ w, (Ok (uuid4 (w_uuids w)), set_uuids (S (w_uuids w)) w).

(** A draw of any other kind of random value ([bcrypt.gensalt],
    [secrets.token_urlsafe]): the number of the draw. *)
Definition draw : P nat := λ w, (Ok (w_uuids w), set_uuids (S (w_uuids w)) w).

(** A cache read, which may forget lapsed entries, and a cache write. *)
Definition with_cache {A} (f : C → A * C) : P A :=
  λ w, let '(a, c) := f (w_cache w) in (Ok a, set_cache c w).
Definition on_cache (f : C → C) : P unit := modify (λ w, set_cache (f (w_cache w)) w).

(** ** The unit of work *)

Definition NOT_ENTERED : exn := PyError RuntimeError.

(** A repository read or write: on the working copy. *)
Definition read {A} (f : Database → A) : P A :=
  λ w, match w_txn w with
       | None => (Err NOT_ENTERED, w)
       | Some t => (Ok (f (tx_work t)), w)
       end.
Definition write (f : Database → Database) : P unit :=
  λ w, match w_txn w with
       | None => (Err NOT_ENTERED, w)
       | Some t => (Ok tt, set_txn (Some (MkTxn (f (tx_work t)) (tx_committed t))) w)
       end.

(** A statement that answers, changes the working copy, or is refused. *)
Definition update {A} (f : Database → result exn (A * Database)) : P A :=
  λ w, match w_txn w with
       | None => (Err NOT_ENTERED, w)
       | Some t =>
           match f (tx_work t) with
           | Ok (a, d) => (Ok a, set_txn (Some (MkTxn d (tx_committed t))) w)
           | Err e => (Err e, w)
           end
       end.

(** Only the first commit of a block does anything. *)
Definition commit : P unit :=
  λ w, match w_txn w with
       | None => (Err NOT_ENTERED, w)
       | Some t =>
           if tx_committed t then (Ok tt, w)
           else (Ok tt, set_txn (Some (MkTxn (tx_work t) true)) (set_db (tx_work t) w))
       end.

Definition rollback : P unit :=
  λ w, match w_txn w with
       | None => (Err NOT_ENTERED, w)
       | Some t => (Ok tt, set_txn (Some (MkTxn (w_db w) false)) w)
       end.

(** [with uow_factory() as uow: body]: a new session of its own, closed on
    the way out whichever way that is; what was not committed is gone. *)
Definition with_uow {A} (body : P A) : P A :=
  λ w, let '(r, w') := body (set_txn (Some (MkTxn (w_db w) false)) w) in
       (r, set_txn (w_txn w) w').

(** ** Running a program in the world *)

Lemma wp_now (Q : result exn Z → World → Prop) w : Q (Ok (w_now w)) w → wp now_utc Q w.
Proof. done. Qed.
Lemma wp_audit e (Q : result exn unit → World → Prop) w :
  Q (Ok tt) (add_audit e w) → wp (audit e) Q w.
Proof. done. Qed.
Lemma wp_fresh_uuid `{UuidSupply} (Q : result exn pystr → World → Prop) w :
  Q (Ok (uuid4 (w_uuids w))) (set_uuids (S (w_uuids w)) w) → wp fresh_uuid Q w.
Proof. done. Qed.
Lemma wp_draw (Q : result exn nat → World → Prop) w :
  Q (Ok (w_uuids w)) (set_uuids (S (w_uuids w)) w) → wp draw Q w.
Proof. done. Qed.
Lemma wp_on_cache f (Q : result exn unit → World → Prop) w :
  Q (Ok tt) (set_cache (f (w_cache w)) w) → wp (on_cache f) Q w.
Proof. done. Qed.
Lemma wp_with_cache {A} f (Q : result exn A → World → Prop) w :
  (∀ a c, f (w_cache w) = (a, c) → Q (Ok a) (set_cache c w)) → wp (with_cache f) Q w.
Proof. rewrite /wp /with_cache. destruct (f (w_cache w)) as [a c]. intros HQ. by apply HQ. Qed.

Lemma wp_read {A} (f : Database → A) (Q : result exn A → World → Prop) w t :
  w_txn w = Some t → Q (Ok (f (tx_work t))) w → wp (read f) Q w.
Proof. rewrite /wp /read. by intros ->. Qed.
Lemma wp_write f (Q : result exn unit → World → Prop) w t :
  w_txn w = Some t →
  Q (Ok tt) (set_txn (Some (MkTxn (f (tx_work t)) (tx_committed t))) w) → wp (write f) Q w.
Proof. rewrite /wp /write. by intros ->. Qed.
Lemma wp_update {A} (f : Database → result exn (A * Database))
    (Q : result exn A → World → Prop) w t :
  w_txn w = Some t →
  match f (tx_work t) with
  | Ok (a, d) => Q (Ok a) (set_txn (Some (MkTxn d (tx_committed t))) w)
  | Err e => Q (Err e) w
  end → wp (update f) Q w.
Proof. rewrite /wp /update. intros ->. by destruct (f (tx_work t)) as [[a d]|e]. Qed.

(** The commit of a block that has not committed publishes its copy. *)
Lemma wp_commit (Q : result exn unit → World → Prop) w d :
  w_txn w = Some (MkTxn d false) →
  Q (Ok tt) (set_txn (Some (MkTxn d true)) (set_db d w)) → wp commit Q w.
Proof. rewrite /wp /commit. by intros ->. Qed.

Lemma wp_with_uow {A} (body : P A) (Q : result exn A → World → Prop) w :
  wp body (λ r w', Q r (set_txn (w_txn w) w')) (set_txn (Some (MkTxn (w_db w) false)) w) →
  wp (with_uow body) Q w.
Proof. rewrite /wp /with_uow. by destruct (body _) as [r w']. Qed.
End world.

Ltac wp_prim ::=
  lazymatch goal with
  | |- wp now_utc _ _ => apply wp_now
  | |- wp (audit _) _ _ => apply wp_audit
  | |- wp fresh_uuid _ _ => apply wp_fresh_uuid
  | |- wp draw _ _ => apply wp_draw
  | |- wp (on_cache _) _ _ => apply wp_on_cache
  | |- wp (read _) _ _ => eapply wp_read; [reflexivity|]
  | |- wp (write _) _ _ => eapply wp_write; [reflexivity|]
  | |- wp (update _) _ _ => eapply wp_update; [reflexivity|]
  | |- wp commit _ _ => eapply wp_commit; [reflexivity|]
  | |- wp (with_uow _) _ _ => apply wp_with_uow
  end.

Arguments World C : clear implicits.
Arguments MkWorld {C}.

(** ** All or nothing *)

Inductive uow_op :=
| Write (f : Database → Database)
| Commit
| Raise (e : exn).

Definition run_op {C} (op : uow_op) : M (World C) exn unit :=
  match op with Write f => write f | Commit => commit | Raise e => raise e end.

(** What a block leaves in the database: its writes up to the first commit,
    if it got that far. *)
Fixpoint committed_writes (work : Database) (ops : list uow_op) : option Database :=
  match ops with
  | [] => None
  | Write f :: ops => committed_writes (f work) ops
  | Commit :: _ => Some work
  | Raise _ :: _ => None
  end.

Lemma run_after_commit {C} (ops : list uow_op) (w : World C) d :
  w_txn w = Some (MkTxn d true) → w_db (for_each run_op ops w).2 = w_db w.
Proof.
  revert w d. induction ops as [|[f| |e] ops IH]; intros w d Ht; [done|..];
    rewrite /= /mbind /M_bind /=; rewrite /write /commit ?Ht /=; [by rewrite (IH _ (f d))|by eapply IH|done].
Qed.

Lemma run_before_commit {C} (ops : list uow_op) (w : World C) d :
  w_txn w = Some (MkTxn d false) →
  w_db (for_each run_op ops w).2 = default (w_db w) (committed_writes d ops).
Proof.
  revert w d. induction ops as [|[f| |e] ops IH]; intros w d Ht; [done|..];
    rewrite /= /mbind /M_bind /=; rewrite /write /commit ?Ht /=; [by rewrite (IH _ (f d))| |done].
  by rewrite (run_after_commit ops _ d).
Qed.

(** a unit of work is all or nothing.  Whatever its statements are and
    wherever it raises, the database afterwards holds all the writes made
    before its first commit and none made after it; without a commit it is
    as it was.  The block's own session is gone either way. *)
Theorem unit_of_work_is_atomic {C} (ops : list uow_op) (w : World C) :
  w_db (with_uow (for_each run_op ops) w).2 = default (w_db w) (committed_writes (w_db w) ops) ∧
  w_txn (with_uow (for_each run_op ops) w).2 = w_txn w.
Proof.
  rewrite /with_uow. destruct (for_each run_op ops _) as [r w'] eqn:Hr. simpl. split; [|done].
  apply (f_equal (w_db ∘ snd)) in Hr. simpl in Hr. rewrite -Hr.
  by rewrite (run_before_commit ops _ (w_db w)).
Qed.
