(* ===== verification/LinkRepo.v ===== *)
(** * The link repository

    [infrastructure/database/repositories/sqlalchemy_link_repository.py] over
    the table [urls]: a query is a selection of the list, an update or a
    delete rewrites it.  The unique index on [short_code] and the primary key
    are the checks in [save]; a violation of the index is the
    [LinkConflictError] the repository reports.

    Shown here: stored rows convert back to the entities they came from, the
    two unique columns survive every operation, lookups by code are exact,
    the deduplication lookup answers the oldest live link of the scope, and
    the chunked sweeps delete exactly the rows their condition selects. *)

From S2P Require Import Prelude PyStr Exceptions ValueObjects Entities Policies CodeGen Database.

(** ** Rows and entities *)

Record LinkModel := MkLinkModel {
  lm_id : pystr;
  lm_url_hash : pystr;
  lm_short_code : pystr;
  lm_original_url : pystr;
  lm_created_at : Z;
  lm_clicks : Z;
  lm_last_accessed : option Z;
  lm_owner_id : option pystr;
  lm_expires_at : option Z;
  lm_guest_identifier : option pystr;
}.

Definition to_model (l : Link) : LinkModel :=
  {| lm_id := link_id l; lm_url_hash := uh_value (link_url_hash l);
     lm_short_code := sc_value (link_short_code l);
     lm_original_url := ou_value (link_original_url l);
     lm_created_at := link_created_at l; lm_clicks := link_clicks l;
     lm_last_accessed := link_last_accessed l;
     lm_owner_id := oid_value <$> link_owner l;
     lm_expires_at := link_expires_at l;
     lm_guest_identifier := link_guest_identifier l |}.

(** [OwnerID(model.owner_id) if model.owner_id else None]: NULL and the
    empty string are both no owner. *)
Definition owner_of_column (owner_id : option pystr) : result exn (option OwnerID) :=
  match owner_id with
  | None | Some [] => Ok None
  | Some o => new_OwnerID o ≫= λ v, Ok (Some v)
  end.

Definition to_domain `{UrlRules} (m : LinkModel) : result exn Link :=
  new_UrlHash (lm_url_hash m) ≫= λ h,
  new_ShortCode (lm_short_code m) ≫= λ c,
  from_storage (lm_original_url m) ≫= λ u,
  owner_of_column (lm_owner_id m) ≫= λ o,
  Ok {| link_id := lm_id m; link_url_hash := h; link_short_code := c;
        link_original_url := u; link_created_at := lm_created_at m;
        link_clicks := lm_clicks m; link_last_accessed := lm_last_accessed m;
        link_owner := o; link_expires_at := lm_expires_at m;
        link_guest_identifier := lm_guest_identifier m |}.

(** The value objects of a link are ones their constructors admit. *)
Definition link_wf `{UrlRules} (l : Link) : Prop :=
  hash_matches (uh_value (link_url_hash l)) = true ∧
  code_matches (sc_value (link_short_code l)) = true ∧
  from_storage (ou_value (link_original_url l)) = Ok (link_original_url l) ∧
  (∀ o, link_owner l = Some o → is_blank (oid_value o) = false).

Lemma to_domain_to_model `{UrlRules} l : link_wf l → to_domain (to_model l) = Ok l.
Proof.
  destruct l as [i [h] [c] u cr cl la o e g]. rewrite /link_wf /to_domain /to_model /=.
  intros (Hh & Hc & Hu & Ho). rewrite /new_UrlHash Hh /= /new_ShortCode Hc /= Hu /=.
  destruct o as [[o]|]; simpl; [|done].
  specialize (Ho _ eq_refl). simpl in Ho.
  assert (new_OwnerID o = Ok (MkOwnerID o)) as Heq by (by apply new_OwnerID_ok).
  destruct o; [done|]. by rewrite /owner_of_column Heq.
Qed.

(** ** Writes *)

Definition same_code (c : ShortCode) (l : Link) : Prop := link_short_code l = c.
Definition same_id (i : pystr) (l : Link) : Prop := link_id l = i.

#[global] Instance same_code_dec c l : Decision (same_code c l).
Proof. unfold same_code. apply _. Defined.
#[global] Instance same_id_dec i l : Decision (same_id i l).
Proof. unfold same_id. apply _. Defined.

(** [save]: [session.merge] writes the whole aggregate over the row with its
    id, or inserts it; another row holding the code is the conflict. *)
Definition save (l : Link) (t : list Link) : result exn (list Link) :=
  if decide (Exists (λ r, link_id r ≠ link_id l ∧ link_short_code r = link_short_code l) t)
  then Err LinkConflictError
  else if decide (Exists (same_id (link_id l)) t)
  then Ok (update_where (same_id (link_id l)) (λ _, l) t)
  else Ok (t ++ [l]).

(** [save_many]: [add_all] inserts; a clash on the primary key is not the
    code index and goes out as the driver raised it. *)
Fixpoint repo_save_many (ls : list Link) (t : list Link) : result exn (list Link) :=
  match ls with
  | [] => Ok t
  | l :: ls =>
      if decide (Exists (same_id (link_id l)) t) then Err (PyError IntegrityError)
      else if decide (Exists (same_code (link_short_code l)) t) then Err LinkConflictError
      else repo_save_many ls (t ++ [l])
  end.

(** [increment_clicks]: one atomic UPDATE; no row is [LinkNotFoundError]. *)
Definition increment_clicks (now : Z) (c : ShortCode) (t : list Link) : result exn (list Link) :=
  if decide (count_where (same_code c) t = 0%nat)
  then Err (LinkNotFoundError (Some (sc_value c)))
  else Ok (update_where (same_code c) (link_increment_clicks now) t).

(** The foreign key [fk_urls_owner_id_users], which both engines enforce. *)
Definition owner_exists (l : Link) (us : list UserModel) : bool :=
  match link_owner l with
  | None => true
  | Some o => bool_decide (oid_value o ∈ (um_id <$> us))
  end.

Definition save_link (l : Link) (d : Database) : result exn (Link * Database) :=
  save l (urls d) ≫= λ t,
  if owner_exists l (users d) then Ok (l, set_urls t d) else Err (PyError IntegrityError).

(** [delete]: answers from the number of rows deleted. *)
Definition repo_delete (i : pystr) (t : list Link) : bool * list Link :=
  (negb (bool_decide (count_where (same_id i) t = 0%nat)), delete_where (same_id i) t).

(** [link_visits.link_id] and [link_visit_days.link_id] are declared
    [ON DELETE CASCADE]. *)
Definition cascade_visits (d : Database) : Database :=
  set_link_visits (filter (λ v, lv_link_id v ∈ (link_id <$> urls d)) (link_visits d))
    (set_link_visit_days
       (filter (λ r, vd_link_id r ∈ (link_id <$> urls d)) (link_visit_days d)) d).

Definition delete_link_row (i : pystr) (d : Database) : bool * Database :=
  let '(deleted, t) := repo_delete i (urls d) in (deleted, cascade_visits (set_urls t d)).

(** ** Reads *)

Definition find_by_code (c : ShortCode) (t : list Link) : option Link :=
  first (filter (same_code c) t).

(** [_live_in_scope]: the conditions of the query. *)
Definition live (now : Z) (l : Link) : Prop :=
  match link_expires_at l with None => True | Some e => now < e end.
Definition in_scope (s : DedupScope) (l : Link) : Prop :=
  match ds_owner_id s with
  | Some o => oid_value <$> link_owner l = Some o
  | None => link_owner l = None ∧
      match ds_guest_identifier s with
      | Some g => link_guest_identifier l = Some g
      | None => link_guest_identifier l = None
      end
  end.

#[global] Instance live_dec now l : Decision (live now l).
Proof. unfold live. destruct (link_expires_at l); apply _. Defined.
#[global] Instance in_scope_dec s l : Decision (in_scope s l).
Proof. unfold in_scope. destruct (ds_owner_id s), (ds_guest_identifier s); apply _. Defined.

(** [ORDER BY created_at, id]. *)
Definition older (a b : Link) : Prop :=
  link_created_at a < link_created_at b ∨
  (link_created_at a = link_created_at b ∧ str_le (link_id a) (link_id b) = true).
#[global] Instance older_dec : RelDecision older.
Proof. intros a b. unfold older. apply _. Defined.

Definition dedup_candidate (now : Z) (h : UrlHash) (s : DedupScope) (l : Link) : Prop :=
  live now l ∧ in_scope s l ∧ link_url_hash l = h.
#[global] Instance dedup_candidate_dec now h s l : Decision (dedup_candidate now h s l).
Proof. unfold dedup_candidate. apply _. Defined.

Definition find_live_by_hash (now : Z) (h : UrlHash) (s : DedupScope) (t : list Link)
    : option Link :=
  first (merge_sort older (filter (dedup_candidate now h s) t)).

(** Newest first; the order of rows created at one instant is the table's. *)
Definition newer_first (a b : Link) : Prop := link_created_at b <= link_created_at a.
#[global] Instance newer_first_dec : RelDecision newer_first.
Proof. intros a b. unfold newer_first. apply _. Defined.

Definition owned_by (user_id : pystr) (l : Link) : Prop :=
  oid_value <$> link_owner l = Some user_id.
#[global] Instance owned_by_dec u l : Decision (owned_by u l).
Proof. unfold owned_by. apply _. Defined.

Definition find_by_owner (user_id : pystr) (offset limit : nat) (t : list Link) : list Link :=
  take limit (drop offset (merge_sort newer_first (filter (owned_by user_id) t))).

Definition get_recent (limit : nat) (t : list Link) : list Link :=
  take limit (merge_sort newer_first t).

(** A dictionary with an entry for every code asked. *)
Definition find_by_codes (cs : list ShortCode) (t : list Link)
    : list (ShortCode * option Link) :=
  (λ c, (c, find_by_code c t)) <$> remove_dups cs.

Definition find_live_by_hashes (now : Z) (hs : list UrlHash) (s : DedupScope) (t : list Link)
    : list (UrlHash * option Link) :=
  (λ h, (h, find_live_by_hash now h s t)) <$> remove_dups hs.

Definition guest_link_since (identifier : pystr) (cutoff : Z) (l : Link) : Prop :=
  link_owner l = None ∧ link_guest_identifier l = Some identifier ∧ cutoff <= link_created_at l.
#[global] Instance guest_link_since_dec i k l : Decision (guest_link_since i k l).
Proof. unfold guest_link_since. apply _. Defined.

Definition count_guest_links_by_identifier (now : Z) (identifier : pystr) (since_days : Z)
    (t : list Link) : Z :=
  Z.of_nat (count_where (guest_link_since identifier (now - since_days * DAY)) t).

(** [guest_quota_policy.guest_allowance]; the advisory lock orders
    transactions and changes nothing within one. *)
Definition guest_allowance (now : Z) (guest_id : pystr) (limit window_days : Z)
    (t : list Link) : Z :=
  links_left_for_guest (count_guest_links_by_identifier now guest_id window_days t) limit.

Definition most_clicked (a b : Link) : Prop := link_clicks b <= link_clicks a.
#[global] Instance most_clicked_dec : RelDecision most_clicked.
Proof. intros a b. unfold most_clicked. apply _. Defined.

(** [get_stats]: totals and the ten most clicked. *)
Definition sum_clicks (t : list Link) : Z := foldr (λ l acc, link_clicks l + acc) 0 t.
Definition get_link_stats (t : list Link) : Z * Z * list Link :=
  (len t, sum_clicks t, take 10 (merge_sort most_clicked t)).
Definition get_user_stats (user_id : pystr) (t : list Link) : Z * Z * list Link :=
  let mine := filter (owned_by user_id) t in
  (len mine, sum_clicks mine, take 10 (merge_sort newer_first mine)).

(** ** Chunked sweeps *)

Definition DELETE_CHUNK_SIZE : nat := 500.

(** [while True: select a chunk, stop on none, delete it by id]. *)
Fixpoint delete_in_chunks (Q : Link → Prop) `{∀ l, Decision (Q l)} (fuel : nat)
    (deleted t : list Link) : option (list Link * list Link) :=
  match fuel with
  | O => None
  | S fuel =>
      match take DELETE_CHUNK_SIZE (filter Q t) with
      | [] => Some (deleted, t)
      | chunk => delete_in_chunks Q fuel (deleted ++ chunk)
                   (delete_where (λ l, link_id l ∈ (link_id <$> chunk)) t)
      end
  end.

Definition expired_at (now : Z) (l : Link) : Prop :=
  match link_expires_at l with None => False | Some e => e <= now end.
#[global] Instance expired_at_dec now l : Decision (expired_at now l).
Proof. unfold expired_at. destruct (link_expires_at l); apply _. Defined.

(** A round deletes at least one row, so the table's size bounds them. *)
Definition delete_by_owner (user_id : pystr) (t : list Link) : option (list Link * list Link) :=
  delete_in_chunks (owned_by user_id) (S (length t)) [] t.
Definition delete_expired (now : Z) (t : list Link) : option (list Link * list Link) :=
  delete_in_chunks (expired_at now) (S (length t)) [] t.

(** ** The unique columns *)

Definition table_ok (t : list Link) : Prop :=
  NoDup (link_id <$> t) ∧ NoDup (link_short_code <$> t).

Lemma table_ok_nil : table_ok [].
Proof. split; constructor. Qed.

Lemma table_ok_app t l :
  table_ok t → ¬ Exists (same_id (link_id l)) t →
  ¬ Exists (same_code (link_short_code l)) t → table_ok (t ++ [l]).
Proof.
  rewrite !Exists_elem /same_id /same_code => [[Hi Hc]] Hni Hnc.
  split; rewrite fmap_app list.NoDup_app.
  - split; [done|]. split; [|apply NoDup_singleton].
    intros i (r & -> & Hr)%list_elem_of_fmap Heq%list_elem_of_singleton.
    apply Hni. by exists r.
  - split; [done|]. split; [|apply NoDup_singleton].
    intros i (r & -> & Hr)%list_elem_of_fmap Heq%list_elem_of_singleton.
    apply Hnc. by exists r.
Qed.

Lemma delete_where_ok (Q : Link → Prop) `{∀ l, Decision (Q l)} t :
  table_ok t → table_ok (delete_where Q t).
Proof. intros [Hi Hc]. split; auto with tables. Qed.

Lemma save_ok l t t' : table_ok t → save l t = Ok t' → table_ok t'.
Proof.
  intros Hok. rewrite /save. case_decide as Hclash; [done|].
  case_decide as Hid; intros [= <-].
  - destruct Hok as [Hi Hc]. split.
    + rewrite (_ : link_id <$> update_where _ _ _ = link_id <$> t) //.
      rewrite /update_where -list_fmap_compose. apply list_fmap_ext.
      intros ? r _. simpl. case_decide as Hr; [|done]. by rewrite Hr.
    + apply NoDup_fmap_2_strong.
      * intros a b Ha Hb Hab. apply elem_of_update_where in Ha as (a' & Ha' & ->).
        apply elem_of_update_where in Hb as (b' & Hb' & ->).
        rewrite Exists_elem in Hclash.
        case_decide as Hda; case_decide as Hdb; simpl in *; try done.
        -- exfalso. apply Hclash. exists b'. split; [done|]. split; [|done]. exact Hdb.
        -- exfalso. apply Hclash. exists a'. split; [done|]. split; [exact Hda|done].
        -- by eapply (key_eq link_short_code).
      * apply (NoDup_fmap_1 link_id).
        rewrite (_ : link_id <$> update_where _ _ _ = link_id <$> t) //.
        rewrite /update_where -list_fmap_compose. apply list_fmap_ext.
        intros ? r _. simpl. case_decide as Hr; [|done]. by rewrite Hr.
  - apply table_ok_app; [done..|]. rewrite !Exists_elem in Hclash, Hid |- *.
    intros (r & Hr & Hrc). apply Hclash. exists r. split; [done|]. split; [|done].
    intros ?. apply Hid. by exists r.
Qed.

Lemma repo_save_many_ok ls t t' :
  table_ok t → repo_save_many ls t = Ok t' → table_ok t' ∧ t' = t ++ ls.
Proof.
  revert t; induction ls as [|l ls IH]; intros t Hok; simpl.
  - intros [= <-]. by rewrite app_nil_r.
  - case_decide; [done|]. case_decide; [done|]. intros Hs.
    destruct (IH (t ++ [l])) as [? ->]; [by apply table_ok_app|done|].
    split; [done|]. by rewrite -app_assoc.
Qed.

Lemma increment_keys now c t :
  table_ok t → table_ok (update_where (same_code c) (link_increment_clicks now) t).
Proof. intros [Hi Hc]. split; by rewrite update_where_key. Qed.

Lemma increment_clicks_ok now c t t' :
  table_ok t → increment_clicks now c t = Ok t' → table_ok t'.
Proof.
  intros Hok. rewrite /increment_clicks. case_decide; [done|]. intros [= <-].
  by apply increment_keys.
Qed.

(** ** Exact lookups *)

Lemma find_by_code_Some c t l :
  find_by_code c t = Some l → l ∈ t ∧ link_short_code l = c.
Proof. apply (first_filter_Some (same_code c)). Qed.

Lemma find_by_code_None c t :
  find_by_code c t = None ↔ ∀ l, l ∈ t → link_short_code l ≠ c.
Proof. apply (first_filter_None (same_code c)). Qed.

Lemma find_by_code_in t l :
  table_ok t → l ∈ t → find_by_code (link_short_code l) t = Some l.
Proof.
  intros [_ Hc] Hl. by apply (first_filter_unique _ link_short_code).
Qed.

Lemma live_not_expired now l : live now l ↔ is_expired now l = false.
Proof. rewrite /live /is_expired. case_match; [lia|done]. Qed.

Lemma expired_at_spec now l : expired_at now l ↔ is_expired now l = true.
Proof. rewrite /expired_at /is_expired. case_match; [lia|done]. Qed.

(** The query's scope condition is equality of scopes. *)
Lemma in_scope_spec s l : scope_wf s → in_scope s l ↔ dedup_scope l = s.
Proof.
  destruct s as [[o|] g]; rewrite /scope_wf /in_scope /dedup_scope /for_owner /for_guest /=;
    intros Hwf.
  - rewrite (Hwf (mk_is_Some _ _ eq_refl)).
    destruct (link_owner l) as [[o']|]; simpl; split; congruence.
  - destruct (link_owner l) as [o'|]; simpl; [split; [by intros [? _]|congruence]|].
    destruct g, (link_guest_identifier l); split; naive_solver.
Qed.

#[global] Instance older_total : Total older.
Proof.
  intros a b. rewrite /older.
  destruct (Z.lt_trichotomy (link_created_at a) (link_created_at b)) as [?|[?|?]]; [auto| |auto].
  pose proof (str_le_total (link_id a) (link_id b)) as [?|?]%orb_true_iff; [left|right]; right;
    split; lia || done.
Qed.
#[global] Instance older_trans : Transitive older.
Proof.
  intros a b c. rewrite /older. intros [?|[? H1]] [?|[? H2]]; try (left; lia).
  right. split; [lia|]. by eapply str_le_trans.
Qed.

Lemma find_live_by_hash_Some now h s t l :
  find_live_by_hash now h s t = Some l →
  l ∈ t ∧ dedup_candidate now h s l ∧
  ∀ r, r ∈ t → dedup_candidate now h s r → r = l ∨ older l r.
Proof.
  rewrite /find_live_by_hash. set (cs := filter _ t).
  pose proof (StronglySorted_merge_sort older cs) as Hs.
  assert (∀ r, r ∈ cs ↔ r ∈ merge_sort older cs) as Hin
    by (intros r; by rewrite merge_sort_Permutation).
  destruct (merge_sort older cs) as [|x k]; [done|]. intros [= ->].
  assert (l ∈ cs) as [Hl Hlt]%list_elem_of_filter by (apply Hin; set_solver).
  split; [done|]. split; [done|]. intros r Hr Hcand.
  assert (r ∈ l :: k) as [->|Hk]%elem_of_cons; [apply Hin, list_elem_of_filter; done|by left|].
  right. inversion Hs as [|?? _ Hall]; subst. rewrite Forall_elem in Hall. by apply Hall.
Qed.

Lemma find_live_by_hash_None now h s t :
  find_live_by_hash now h s t = None ↔ ∀ r, r ∈ t → ¬ dedup_candidate now h s r.
Proof.
  rewrite -first_filter_None /find_live_by_hash.
  pose proof (merge_sort_Permutation older (filter (dedup_candidate now h s) t)) as Hp.
  destruct (merge_sort _ _), (filter _ _); simpl; try done.
  - by apply Permutation_nil_cons in Hp.
  - by apply Permutation_sym, Permutation_nil_cons in Hp.
Qed.

(** ** The sweeps delete what they select, and stop *)

Lemma delete_where_length_lt {A} (Q : A → Prop) `{∀ l, Decision (Q l)} t x :
  x ∈ t → Q x → (length (delete_where Q t) < length t)%nat.
Proof.
  intros Hx HQ. pose proof (count_where_delete Q t).
  assert (count_where Q t ≠ 0%nat); [|lia].
  intros Hz. by apply (proj1 (count_where_zero Q t) Hz x).
Qed.

Lemma delete_where_absorb {A} (Q R : A → Prop) `{∀ l, Decision (Q l)} `{∀ l, Decision (R l)} t :
  (∀ x, x ∈ t → R x → Q x) → delete_where Q (delete_where R t) = delete_where Q t.
Proof.
  rewrite /delete_where. induction t as [|x t IH]; [done|]. intros Hsub.
  assert (∀ y, y ∈ t → R y → Q y) by (intros; apply Hsub; set_solver).
  rewrite (filter_cons (λ y, ¬ R y)). case_decide as HR; rewrite !filter_cons.
  - by rewrite IH.
  - rewrite IH //. case_decide as HQ; [|done].
    exfalso. apply HQ, Hsub; [set_solver|]. by destruct (decide (R x)).
Qed.

(** Deleting a chunk by id takes exactly the chunk out of the selection. *)
Lemma filter_after_chunk (Q : Link → Prop) `{∀ l, Decision (Q l)} n t :
  NoDup (link_id <$> t) →
  filter Q t = take n (filter Q t) ++
    filter Q (delete_where (λ l, link_id l ∈ (link_id <$> take n (filter Q t))) t).
Proof.
  intros Hnd. set (ch := take n (filter Q t)).
  assert (NoDup (filter Q t)) as HndQ.
  { eapply sublist_NoDup; [by apply (NoDup_fmap_1 link_id)|apply sublist_filter]. }
  rewrite -{1}(take_drop n (filter Q t)). f_equal. symmetry.
  rewrite /delete_where list_filter_filter.
  trans (filter (λ l, l ∉ ch) (filter Q t)).
  - rewrite list_filter_filter. apply filter_ext_elem.
    intros l Hl. split; intros [H1 H2]; split; try done; intros Hin; apply H2 || apply H1.
    + apply list_elem_of_fmap. by exists l.
    + apply list_elem_of_fmap in Hin as (r & Heq & Hr).
      assert (r ∈ t) as Hrt.
      { apply (list_elem_of_filter Q). by eapply subseteq_take. }
      by rewrite (key_eq link_id t l r).
  - rewrite -{1}(take_drop n (filter Q t)) -/ch list.filter_app.
    rewrite -(take_drop n (filter Q t)) -/ch in HndQ.
    apply list.NoDup_app in HndQ as (_ & Hdisj & _).
    rewrite (_ : filter (λ l, l ∉ ch) ch = []) /=.
    + apply filter_all. intros l Hl Hch. by apply (Hdisj l).
    + apply filter_none. tauto.
Qed.

Lemma chunk_step (Q : Link → Prop) `{∀ l, Decision (Q l)} ch t :
  ch = take DELETE_CHUNK_SIZE (filter Q t) → ch ≠ [] → NoDup (link_id <$> t) →
  let t' := delete_where (λ l, link_id l ∈ (link_id <$> ch)) t in
  (length t' < length t)%nat ∧ delete_where Q t' = delete_where Q t.
Proof.
  intros Hch Hne Hnd t'. assert (∀ x, x ∈ ch → x ∈ t ∧ Q x) as Hsub.
  { intros x Hx. rewrite Hch in Hx. apply subseteq_take, list_elem_of_filter in Hx. tauto. }
  split.
  - destruct ch as [|x ch]; [done|].
    apply (delete_where_length_lt _ t x); [apply Hsub; set_solver|].
    apply list_elem_of_fmap. exists x. set_solver.
  - apply delete_where_absorb. intros x Hx (r & Heq & Hr)%list_elem_of_fmap.
    rewrite (key_eq link_id t x r); [by apply Hsub|done..|by apply Hsub|done].
Qed.

(** With fuel for one round per row and one to stop, a sweep ends; it
    answers the rows its condition selects and leaves the others. *)
Lemma delete_in_chunks_spec (Q : Link → Prop) `{∀ l, Decision (Q l)} fuel deleted t :
  NoDup (link_id <$> t) → (length t < fuel)%nat →
  delete_in_chunks Q fuel deleted t = Some (deleted ++ filter Q t, delete_where Q t).
Proof.
  revert deleted t. induction fuel as [|fuel IH]; intros deleted t Hnd Hf; [lia|]. cbn [delete_in_chunks].
  destruct (take DELETE_CHUNK_SIZE (filter Q t)) as [|x ch] eqn:E.
  - assert (filter Q t = []) as Hnil by (destruct (filter Q t); [done|discriminate E]).
    rewrite Hnil app_nil_r. do 2 f_equal. symmetry. apply filter_all.
    intros y Hy HQ. assert (y ∈ filter Q t) as Hin by (by apply list_elem_of_filter).
    by rewrite Hnil elem_of_nil in Hin.
  - symmetry in E. destruct (chunk_step Q (x :: ch) t E) as [Hlt Habs]; [done..|].
    rewrite IH; [|auto with tables|eapply Nat.lt_le_trans; [exact Hlt|lia]].
    rewrite Habs -app_assoc. do 3 f_equal. rewrite E. symmetry. by apply filter_after_chunk.
Qed.

(** ** Deleting by id *)

Lemma repo_delete_found l t :
  table_ok t → l ∈ t → ∃ t', repo_delete (link_id l) t = (true, t') ∧ table_ok t' ∧
    ∀ r, r ∈ t' ↔ r ∈ t ∧ r ≠ l.
Proof.
  intros Hok Hl. eexists. split; [|split; [by apply (delete_where_ok (same_id (link_id l)))|]].
  - rewrite /repo_delete bool_decide_eq_false_2 //.
    intros Hz. by apply (proj1 (count_where_zero _ t) Hz l).
  - intros r. rewrite elem_of_delete_where /same_id. split; intros [Hr Hn]; split; try done.
    + by intros ->.
    + intros Heq. apply Hn. by apply (key_eq link_id t); [apply Hok|..].
Qed.

(** The sweeps on the database: fuel never runs out ([sweep_spec]). *)
Definition sweep (r : option (list Link * list Link)) (d : Database)
    : result exn (list Link * Database) :=
  match r with
  | Some (deleted, t) => Ok (deleted, cascade_visits (set_urls t d))
  | None => Err (PyError RuntimeError)
  end.

Lemma sweep_spec (Q : Link → Prop) `{∀ l, Decision (Q l)} d :
  NoDup (link_id <$> urls d) →
  sweep (delete_in_chunks Q (S (length (urls d))) [] (urls d)) d =
    Ok (filter Q (urls d), cascade_visits (set_urls (delete_where Q (urls d)) d)).
Proof. intros Hnd. rewrite delete_in_chunks_spec //. lia. Qed.

(** ** The repository's guarantees *)

(** a link written to the table and read back is the same link, for
    every link whose value objects their constructors admit. *)
Theorem stored_link_reads_back `{UrlRules} l : link_wf l → to_domain (to_model l) = Ok l.
Proof. apply to_domain_to_model. Qed.

#[local] Instance any_url : UrlRules := {|
  new_OriginalUrl _ s := Ok (MkOriginalUrl s);
  from_storage s := Ok (MkOriginalUrl s);
  normalize u := Ok (ou_value u);
|}.

Definition sample_link : Link :=
  {| link_id := lit "1"; link_url_hash := MkUrlHash (repeat 97 64);
     link_short_code := MkShortCode (lit "abc-12"); link_original_url := MkOriginalUrl (lit "https://a.org");
     link_created_at := 5; link_clicks := 3; link_last_accessed := Some 7;
     link_owner := Some (MkOwnerID (lit "user")); link_expires_at := None;
     link_guest_identifier := None |}.

Lemma stored_link_reads_back_witness : to_domain (to_model sample_link) = Ok sample_link.
Proof.
  apply stored_link_reads_back.
  split_and!; [vm_compute; reflexivity..|]. by intros o [= <-].
Defined.

(** the deduplication lookup answers a link exactly when the scope has a
    live link of the digest, and then the oldest (by creation, then id):
    never an expired one, nor one of another owner or guest. *)
Theorem dedup_answers_the_oldest_live now h s t :
  scope_wf s →
  match find_live_by_hash now h s t with
  | Some l => l ∈ t ∧ is_expired now l = false ∧ dedup_scope l = s ∧ link_url_hash l = h ∧
      ∀ r, r ∈ t → is_expired now r = false → dedup_scope r = s → link_url_hash r = h →
           r = l ∨ older l r
  | None => ∀ r, r ∈ t → dedup_scope r = s → link_url_hash r = h → is_expired now r = true
  end.
Proof.
  intros Hwf. assert (∀ r, dedup_candidate now h s r ↔
    is_expired now r = false ∧ dedup_scope r = s ∧ link_url_hash r = h) as Hcand.
  { intros r. rewrite /dedup_candidate live_not_expired in_scope_spec //. }
  destruct (find_live_by_hash now h s t) as [l|] eqn:E.
  - apply find_live_by_hash_Some in E as (Hl & (? & ? & ?)%Hcand & Hold).
    split_and!; [done..|]. intros r Hr ? ? ?. apply Hold; [done|]. by apply Hcand.
  - intros r Hr Hs Hh. destruct (is_expired now r) eqn:He; [done|].
    destruct (proj1 (find_live_by_hash_None now h s t) E r Hr). by apply Hcand.
Qed.

Lemma dedup_answers_the_oldest_live_witness :
  find_live_by_hash 10 (MkUrlHash (repeat 97 64)) (for_owner (lit "user")) [sample_link] =
    Some sample_link ∧ is_expired 10 sample_link = false.
Proof.
  pose proof (dedup_answers_the_oldest_live 10 (MkUrlHash (repeat 97 64)) (for_owner (lit "user"))
    [sample_link] (new_DedupScope_wf _ _)) as Hd.
  assert (find_live_by_hash 10 (MkUrlHash (repeat 97 64)) (for_owner (lit "user")) [sample_link] =
    Some sample_link) as Heq by (vm_compute; reflexivity).
  rewrite Heq in Hd. split; [exact Heq|apply Hd].
Defined.

(** deleting in chunks of 500 by id is the same as one deletion by the
    condition: with a round per row as the bound, the loop ends, answers the
    selected rows in order and leaves the others, for any condition. *)
Theorem chunked_delete_is_delete (Q : Link → Prop) `{∀ l, Decision (Q l)} t :
  NoDup (link_id <$> t) →
  delete_in_chunks Q (S (length t)) [] t = Some (filter Q t, delete_where Q t).
Proof. intros Hnd. rewrite delete_in_chunks_spec //. lia. Qed.

Lemma chunked_delete_is_delete_witness :
  delete_in_chunks (owned_by (lit "user")) 2 [] [sample_link] = Some ([sample_link], []).
Proof.
  assert (NoDup (link_id <$> [sample_link])) as Hnd by (apply NoDup_singleton).
  exact (chunked_delete_is_delete (owned_by (lit "user")) [sample_link] Hnd).
Defined.
