(* ===== verification/RedisCache.v ===== *)
(** * The Redis cache

    [infrastructure/cache/redis_cache.py] and [signing.py]: links and
    redirects as JSON, sealed with the key they are stored under and the time,
    in a server that may be away, refuse a command, or hold what somebody else
    wrote.

    Redis, the signer of [itsdangerous] and the text of a [datetime] are not
    in the repository: classes [RedisServer], [Signer] and [IsoFormat].  The
    client object is there exactly while the cache is available, so one flag
    stands for both.  Log lines are left out. *)

From S2P Require Import Prelude PyStr Utf8 Json Exceptions ValueObjects Entities CodeGen Cache LinkRepo.

(** ** What is outside *)

(** A command is answered, rejected ([ResponseError]), or lost to another
    [RedisError]; a lost command may have been carried out. *)
Inductive outcome (A : Type) := Reply (a : A) | Rejected | Unreachable.
Arguments Reply {A}. Arguments Rejected {A}. Arguments Unreachable {A}.

(** The first argument is the time.  A pipeline is a list of [SET]s with
    their lifetimes in seconds. *)
Class RedisServer (S : Type) := MkRedisServer {
  redis_ping : Z → S → outcome bool * S;
  redis_info : Z → S → outcome (list (pystr * pystr)) * S;
  redis_get : Z → pystr → S → outcome (option (list Z)) * S;
  redis_mget : Z → list pystr → S → outcome (list (option (list Z))) * S;
  redis_set : Z → pystr → list Z → Z → S → outcome unit * S;
  redis_pipeline : Z → list (pystr * list Z * Z) → S → outcome unit * S;
  redis_delete : Z → list pystr → S → outcome Z * S;
  redis_keys : Z → pystr → S → outcome (list pystr) * S;
}.

(** [TimestampSigner(secret, salt).sign] at a time, and [unsign] with the
    oldest age, in seconds; [None] is [BadSignature]. *)
Class Signer := MkSigner {
  sign : pystr → pystr → Z → list Z → list Z;
  unsign : pystr → pystr → list Z → Z → Z → option (list Z);
}.

(** [datetime.isoformat], and [fromisoformat] with a naive result taken as
    UTC. *)
Class IsoFormat := MkIsoFormat {
  isoformat : Z → pystr;
  fromisoformat : pystr → option Z;
}.

(** ** [signing.py] *)

Definition seal `{Signer} (secret_key cache_key : pystr) (now : Z) (payload : list Z) : list Z :=
  sign secret_key cache_key now payload.

Definition unseal `{Signer} (secret_key cache_key : pystr) (blob : option (list Z))
    (max_age_seconds now : Z) : option (list Z) :=
  match blob with
  | None | Some [] => None
  | Some b => unsign secret_key cache_key b max_age_seconds now
  end.

(** ** Serialisation *)

Section serialisation.
Context `{IsoFormat, UrlRules}.

Definition text_or_null (o : option pystr) : json := from_option JString JNull o.

Definition link_fields (l : Link) : fields_t :=
  [(lit "id", JString (link_id l));
   (lit "url_hash", JString (uh_value (link_url_hash l)));
   (lit "short_code", JString (sc_value (link_short_code l)));
   (lit "original_url", JString (ou_value (link_original_url l)));
   (lit "created_at", JString (isoformat (link_created_at l)));
   (lit "clicks", JNumber (str_of_Z (link_clicks l)));
   (lit "last_accessed", text_or_null (isoformat <$> link_last_accessed l));
   (lit "owner_id", text_or_null (oid_value <$> link_owner l));
   (lit "expires_at", text_or_null (isoformat <$> link_expires_at l));
   (lit "guest_identifier", text_or_null (link_guest_identifier l))].
Definition serialize (l : Link) : list Z := dump_bytes (JObject (link_fields l)).

(** [if data_dict.get(k)]. *)
Definition truthy (o : option json) : bool :=
  match o with
  | None | Some JNull | Some (JBool false) | Some (JString []) | Some (JArray []) | Some (JObject []) => false
  | Some (JNumber t) => existsb (λ c, (49 <=? c) && (c <=? 57) || (c =? 78) || (c =? 73)) (partition_at 101 t).1.1
  | _ => true
  end.
(** What [d[k]] must be for the field of a link: a text, a whole number.
    Anything else raises, here or in the constructor of the value object. *)
Definition text (o : option json) : option pystr :=
  match o with Some (JString s) => Some s | _ => None end.
Definition whole (o : option json) : option Z :=
  match o with Some (JNumber t) => json_int t | _ => None end.
(** A time that may be missing. *)
Definition optional_time (o : option json) : option (option Z) :=
  if truthy o then s ← text o; t ← fromisoformat s; Some (Some t) else Some None.
Definition optional_text (o : option json) : option (option pystr) :=
  match o with None | Some JNull => Some None | Some (JString s) => Some (Some s) | _ => None end.

Definition admitted {A} (r : result exn A) : option A := match r with Ok a => Some a | Err _ => None end.

(** [_deserialize]: every exception is a miss. *)
Definition deserialize (data : list Z) : option Link :=
  d ← load_bytes data;
  match d with
  | JObject d =>
      created ← text (json_get (lit "created_at") d) ≫= fromisoformat;
      accessed ← optional_time (json_get (lit "last_accessed") d);
      expires ← optional_time (json_get (lit "expires_at") d);
      guest ← optional_text (json_get (lit "guest_identifier") d);
      i ← text (json_get (lit "id") d);
      h ← text (json_get (lit "url_hash") d) ≫= λ s, admitted (new_UrlHash s);
      c ← text (json_get (lit "short_code") d) ≫= λ s, admitted (new_ShortCode s);
      u ← text (json_get (lit "original_url") d) ≫= λ s, admitted (from_storage s);
      n ← whole (json_get (lit "clicks") d);
      o ← (if truthy (json_get (lit "owner_id") d)
           then o ← text (json_get (lit "owner_id") d) ≫= λ s, admitted (new_OwnerID s); Some (Some o)
           else Some None);
      Some (MkLink i h c u created n accessed o expires guest)
  | _ => None
  end.

Definition redirect_fields (short_code original_url : pystr) (expires_at : option Z) : fields_t :=
  [(lit "short_code", JString short_code); (lit "url", JString original_url);
   (lit "expires_at", text_or_null (isoformat <$> expires_at))].
Definition serialize_redirect (short_code original_url : pystr) (expires_at : option Z) : list Z :=
  dump_bytes (JObject (redirect_fields short_code original_url expires_at)).

Definition deserialize_redirect (data : list Z) (short_code : ShortCode) : option CachedRedirect :=
  d ← load_bytes data;
  match d with
  | JObject d =>
      url ← text (json_get (lit "url") d);
      stored_code ← text (json_get (lit "short_code") d);
      expires ← match json_get (lit "expires_at") d with
                | None | Some JNull => Some None
                | Some (JString s) => Some <$> fromisoformat s
                | Some _ => None
                end;
      let entry := MkCachedRedirect stored_code url expires in
      if is_for entry short_code then Some entry else None
  | _ => None
  end.
End serialisation.

(** ** [RedisLinkCache] *)

Record RedisSettings := MkRedisSettings {
  rs_prefix : pystr;
  rs_secret_key : pystr;
  rs_ttl : Z;
  rs_stats_ttl : Z;
  rs_retry_interval : Z;
}.

Record RedisLinkCache (S : Type) := MkRedisLinkCache {
  rc_available : bool;
  rc_last_attempt : Z;
  rc_server : S;
}.
Arguments MkRedisLinkCache {S}. Arguments rc_available {S}.
Arguments rc_last_attempt {S}. Arguments rc_server {S}.

Section redis_cache.
Context {S : Type} `{RedisServer S, Signer, IsoFormat, UrlRules}.
Context (cfg : RedisSettings).
Implicit Types (now : Z) (c : RedisLinkCache S).

Definition with_server (s : S) c : RedisLinkCache S :=
  MkRedisLinkCache (rc_available c) (rc_last_attempt c) s.

(** [__init__]: the last attempt is the epoch. *)
Definition connect now (s : S) : RedisLinkCache S :=
  let '(o, s) := redis_ping now s in
  MkRedisLinkCache match o with Reply _ => true | _ => false end 0 s.

Definition mark_unavailable now c : RedisLinkCache S := MkRedisLinkCache false now (rc_server c).

Definition ensure_connection now c : bool * RedisLinkCache S :=
  if rc_available c then (true, c)
  else if now - rc_last_attempt c <=? rs_retry_interval cfg * SECOND then (false, c)
  else
    let '(o, s) := redis_ping now (rc_server c) in
    match o with
    | Reply _ => (true, MkRedisLinkCache true now s)
    | _ => (false, MkRedisLinkCache false now s)
    end.

Definition execute_read {A} now (operation : S → outcome A * S) c : option A * RedisLinkCache S :=
  let '(up, c) := ensure_connection now c in
  if negb up then (None, c)
  else let '(o, s) := operation (rc_server c) in
       match o with
       | Reply a => (Some a, with_server s c)
       | Rejected => (None, with_server s c)
       | Unreachable => (None, mark_unavailable now (with_server s c))
       end.

Definition execute_write {A} now (operation : S → outcome A * S) c : bool * RedisLinkCache S :=
  let '(r, c) := execute_read now operation c in
  (match r with Some _ => true | None => false end, c).

Definition rc_ping now c : bool * RedisLinkCache S :=
  let '(r, c) := execute_read now (redis_ping now) c in (default false r, c).

Definition rc_seal now (cache_key : pystr) (payload : list Z) : list Z :=
  seal (rs_secret_key cfg) cache_key now payload.
Definition rc_open now (cache_key : pystr) (blob : option (list Z)) (max_age : Z) : option (list Z) :=
  unseal (rs_secret_key cfg) cache_key blob max_age now.

(** [x if data else None]: an empty payload is none. *)
Definition read_payload {A} (f : list Z → option A) (data : option (list Z)) : option A :=
  match data with None | Some [] => None | Some d => f d end.

(** ** Information and clearing *)

Definition info_get (k default_ : pystr) (info : list (pystr * pystr)) : pystr :=
  default default_ (snd <$> head (filter (λ f, f.1 = k) info)).

Definition rc_get_cache_info now c : list (pystr * pystr) * RedisLinkCache S :=
  let '(r, c) := execute_read now (redis_info now) c in
  (match r with
   | None => [(lit "error", lit "Redis unavailable")]
   | Some info =>
       [(lit "used_memory", info_get (lit "used_memory_human") (lit "N/A") info);
        (lit "connected_clients", info_get (lit "connected_clients") (lit "0") info);
        (lit "uptime", info_get (lit "uptime_in_seconds") (lit "0") info);
        (lit "keyspace_hits", info_get (lit "keyspace_hits") (lit "0") info);
        (lit "keyspace_misses", info_get (lit "keyspace_misses") (lit "0") info)]
   end, c).

Definition clear_keys now (s : S) : outcome Z * S :=
  let '(o, s) := redis_keys now (rs_prefix cfg ++ lit ":*") s in
  match o with
  | Reply [] => (Reply 0, s)
  | Reply keys => redis_delete now keys s
  | Rejected => (Rejected, s)
  | Unreachable => (Unreachable, s)
  end.
Definition rc_clear_all now c : RedisLinkCache S := (execute_write now (clear_keys now) c).2.

(** ** Links *)

Definition k_code (code : ShortCode) : pystr := key_for_short_code (rs_prefix cfg) (sc_value code).
Definition k_redirect (code : ShortCode) : pystr := key_for_redirect (rs_prefix cfg) (sc_value code).
Definition k_hash (h : UrlHash) (scope : DedupScope) : pystr :=
  key_for_url_hash (rs_prefix cfg) (uh_value h) (token scope).
Definition k_stats : pystr := key_for_stats (rs_prefix cfg).

(** Read an entry: what the server holds, opened with its key and its age. *)
Definition read_entry now (key : pystr) (max_age : Z) c : option (list Z) * RedisLinkCache S :=
  let '(r, c) := execute_read now (redis_get now key) c in
  (rc_open now key (mjoin r) max_age, c).

Definition rc_get_by_code now (code : ShortCode) c : option Link * RedisLinkCache S :=
  let '(data, c) := read_entry now (k_code code) (rs_ttl cfg) c in
  (read_payload deserialize data, c).

Definition rc_get_by_hash now (h : UrlHash) (scope : DedupScope) c : option Link * RedisLinkCache S :=
  let '(data, c) := read_entry now (k_hash h scope) (rs_ttl cfg) c in
  (read_payload deserialize data, c).

Definition rc_get_by_hashes now (hs : list UrlHash) (scope : DedupScope) c
    : gmap UrlHash (option Link) * RedisLinkCache S :=
  let '(r, c) := execute_read now (redis_mget now ((λ h, k_hash h scope) <$> hs)) c in
  let data_list := default (replicate (length hs) None) r in
  (foldl (λ m '(h, data),
     <[h := read_payload deserialize (rc_open now (k_hash h scope) data (rs_ttl cfg))]> m)
     ∅ (zip hs data_list), c).

(** [_redirect_ttl], in seconds. *)
Definition rc_redirect_ttl now (expires_at : option Z) : option Z :=
  match expires_at with
  | None => Some (rs_ttl cfg)
  | Some t => let remaining := t - now in
              if remaining <=? 0 then None
              else Some (Z.max 1 (Z.min (rs_ttl cfg) (remaining / SECOND)))
  end.

(** [_queue_link]: the [SET]s of one link. *)
Definition queue_link now (l : Link) : list (pystr * list Z * Z) :=
  let hash_key := k_hash (link_url_hash l) (dedup_scope l) in
  let code_key := k_code (link_short_code l) in
  let redirect_key := k_redirect (link_short_code l) in
  let data := serialize l in
  [(hash_key, rc_seal now hash_key data, rs_ttl cfg);
   (code_key, rc_seal now code_key data, rs_ttl cfg)] ++
  match rc_redirect_ttl now (link_expires_at l) with
  | None => []
  | Some ttl =>
      [(redirect_key,
        rc_seal now redirect_key
          (serialize_redirect (sc_value (link_short_code l)) (ou_value (link_original_url l))
             (link_expires_at l)), ttl)]
  end.

Definition rc_save now (l : Link) c : RedisLinkCache S :=
  (execute_write now (redis_pipeline now (queue_link now l)) c).2.

Definition rc_save_many now (ls : list Link) c : RedisLinkCache S :=
  match ls with
  | [] => c
  | _ => (execute_write now (redis_pipeline now (ls ≫= queue_link now)) c).2
  end.

Definition rc_delete_by_code now (code : ShortCode) c : bool * RedisLinkCache S :=
  execute_write now (redis_delete now [k_code code; k_redirect code]) c.

Definition rc_delete now (l : Link) c : bool * RedisLinkCache S :=
  execute_write now (redis_delete now
    [k_code (link_short_code l); k_redirect (link_short_code l);
     k_hash (link_url_hash l) (dedup_scope l)]) c.

Definition rc_delete_redirect now (code : ShortCode) c : RedisLinkCache S :=
  (execute_write now (redis_delete now [k_redirect code]) c).2.

(** ** Redirects *)

Definition rc_get_redirect now (code : ShortCode) c : option CachedRedirect * RedisLinkCache S :=
  let '(data, c) := read_entry now (k_redirect code) (rs_ttl cfg) c in
  (read_payload (λ d, deserialize_redirect d code) data, c).

Definition rc_save_redirect now (code : ShortCode) (original_url : pystr) (expires_at : option Z) c
    : RedisLinkCache S :=
  match rc_redirect_ttl now expires_at with
  | None => c
  | Some ttl =>
      let value := rc_seal now (k_redirect code)
                     (serialize_redirect (sc_value code) original_url expires_at) in
      (execute_write now (redis_set now (k_redirect code) value ttl) c).2
  end.

(** ** Statistics *)

Definition as_object (data : list Z) : option fields_t :=
  j ← load_bytes data; match j with JObject fields => Some fields | _ => None end.

Definition rc_get_stats now c : option fields_t * RedisLinkCache S :=
  let '(data, c) := read_entry now k_stats (rs_stats_ttl cfg) c in
  (read_payload as_object data, c).

Definition rc_save_stats now (stats : fields_t) c : RedisLinkCache S :=
  let data := rc_seal now k_stats (dump_bytes (JObject stats)) in
  (execute_write now (redis_set now k_stats data (rs_stats_ttl cfg)) c).2.

Definition rc_delete_stats now c : RedisLinkCache S :=
  (execute_write now (redis_delete now [k_stats]) c).2.
End redis_cache.
