(* ===== verification/RedisTheorems.v ===== *)
(** * What the Redis cache can be made to answer

    A link or a redirect written to Redis is read back as it was.  Whatever
    happens to the server's contents, outages and writes of others included,
    the cache answers only what this service saved under that very key, and
    not longer ago than its lifetime; the history of operations and of
    tampering is [redis_history].  While the server is away nothing is sent to
    it until the retry interval has passed. *)

From S2P Require Import Prelude PyStr Utf8 Json Exceptions ValueObjects Entities CodeGen Cache LinkRepo RedisCache.

(** ** What is relied on *)

(** 0001-01-01T00:00:00Z, [datetime.min]. *)
Definition DATETIME_MIN : Z := -62135596800 * SECOND.
Definition is_datetime (t : Z) : Prop := DATETIME_MIN <= t <= DATETIME_MAX.

Class IsoLaws `{IsoFormat} := MkIsoLaws {
  fromisoformat_isoformat t : is_datetime t → fromisoformat (isoformat t) = Some t;
  isoformat_text t : is_datetime t → isoformat t ≠ [] ∧ forallb is_scalar (isoformat t) = true;
}.

(** The age is counted in whole seconds; a signature of another salt does not
    verify. *)
Class SignerLaws `{Signer} := MkSignerLaws {
  unsign_sign secret salt t p age now :
    unsign secret salt (sign secret salt t p) age now =
    (if (0 <=? now / SECOND - t / SECOND) && (now / SECOND - t / SECOND <=? age) then Some p else None);
  unsign_other secret salt salt' t p age now :
    salt ≠ salt' → unsign secret salt' (sign secret salt t p) age now = None;
}.

(** What a server holds under a key changes by writes to that key only, and a
    read answers it. *)
Class RedisLaws (S : Type) `{RedisServer S} := MkRedisLaws {
  holds : S → pystr → option (list Z);
  ping_holds now s k v : holds (redis_ping now s).2 k = Some v → holds s k = Some v;
  info_holds now s k v : holds (redis_info now s).2 k = Some v → holds s k = Some v;
  get_holds now key s k v : holds (redis_get now key s).2 k = Some v → holds s k = Some v;
  mget_holds now keys s k v : holds (redis_mget now keys s).2 k = Some v → holds s k = Some v;
  keys_holds now pattern s k v : holds (redis_keys now pattern s).2 k = Some v → holds s k = Some v;
  delete_holds now keys s k v : holds (redis_delete now keys s).2 k = Some v → holds s k = Some v;
  set_holds now key value ttl s k v :
    holds (redis_set now key value ttl s).2 k = Some v → holds s k = Some v ∨ (k = key ∧ v = value);
  pipeline_holds now sets s k v :
    holds (redis_pipeline now sets s).2 k = Some v → holds s k = Some v ∨ ∃ ttl, (k, v, ttl) ∈ sets;
  get_answers now key s v : (redis_get now key s).1 = Reply (Some v) → holds s key = Some v;
}.

(** ** Round trips *)

(** The value of a field that was just written. *)
Ltac field k fs j :=
  let Hq := fresh in assert (json_get (lit k) fs = Some j) as Hq by reflexivity; rewrite ?Hq; clear Hq.

Section round_trips.
Context `{IsoLaws, UrlRules}.

Definition scalars (s : pystr) : Prop := forallb is_scalar s = true.
Definition on_some {A} (P : A → Prop) (o : option A) : Prop := ∀ a, o = Some a → P a.

(** A link as the program makes them: admitted value objects, texts of
    characters, times of the calendar. *)
Definition storable (l : Link) : Prop :=
  link_wf l ∧
  scalars (link_id l) ∧ scalars (uh_value (link_url_hash l)) ∧
  scalars (sc_value (link_short_code l)) ∧ scalars (ou_value (link_original_url l)) ∧
  on_some (λ o, scalars (oid_value o)) (link_owner l) ∧ on_some scalars (link_guest_identifier l) ∧
  0 <= link_clicks l < 2 ^ 64 ∧ is_datetime (link_created_at l) ∧
  on_some is_datetime (link_last_accessed l) ∧ on_some is_datetime (link_expires_at l).

Lemma time_reads_back o : on_some is_datetime o → optional_time (Some (text_or_null (isoformat <$> o))) = Some o.
Proof.
  intros Ho. destruct o as [t|]; [|done]. specialize (Ho t eq_refl).
  destruct (isoformat_text t Ho) as [Hne _]. rewrite /optional_time /=.
  destruct (isoformat t) as [|c s] eqn:E; [done|]. cbn [truthy text]. rewrite -E /=.
  by rewrite fromisoformat_isoformat.
Qed.

Lemma time_writable o : on_some is_datetime o → writable (text_or_null (isoformat <$> o)).
Proof. intros Ho. destruct o as [t|]; [|done]. by apply isoformat_text, Ho. Qed.
Lemma text_writable o : on_some scalars o → writable (text_or_null o).
Proof. intros Ho. destruct o as [t|]; [|done]. by apply Ho. Qed.

Lemma deserialize_serialize l : storable l → deserialize (serialize l) = Some l.
Proof.
  intros ((Hh & Hc & Hu & Ho) & Si & Sh & Sc & Su & So & Sg & Hn & Tc & Ta & Te).
  destruct (str_of_Z_number (link_clicks l) Hn) as [Hnum Hint].
  rewrite /deserialize /serialize load_dump_bytes; last first.
  { rewrite /link_fields /redirect_fields. cbn [writable foldr]. split_and!; try done.
    - by apply isoformat_text.
    - by apply time_writable.
    - apply text_writable. intros a. destruct (link_owner l) as [o|]; [|done]. intros [= <-]. by apply So.
    - by apply time_writable.
    - by apply text_writable. }
  cbn [mbind option_bind].
  field "created_at" (link_fields l) (JString (isoformat (link_created_at l))).
  field "last_accessed" (link_fields l) (text_or_null (isoformat <$> link_last_accessed l)).
  field "expires_at" (link_fields l) (text_or_null (isoformat <$> link_expires_at l)).
  field "guest_identifier" (link_fields l) (text_or_null (link_guest_identifier l)).
  field "id" (link_fields l) (JString (link_id l)).
  field "url_hash" (link_fields l) (JString (uh_value (link_url_hash l))).
  field "short_code" (link_fields l) (JString (sc_value (link_short_code l))).
  field "original_url" (link_fields l) (JString (ou_value (link_original_url l))).
  field "clicks" (link_fields l) (JNumber (str_of_Z (link_clicks l))).
  field "owner_id" (link_fields l) (text_or_null (oid_value <$> link_owner l)).
  rewrite !time_reads_back //. cbn [text whole mbind option_bind].
  rewrite fromisoformat_isoformat // Hint /new_UrlHash Hh /new_ShortCode Hc Hu.
  cbn [admitted mbind option_bind].
  rewrite (_ : optional_text _ = Some (link_guest_identifier l)); [|by destruct (link_guest_identifier l)].
  cbn [mbind option_bind].
  destruct l as [i [h] [c] u cr n la o e g]. cbn [link_owner] in Ho |- *.
  destruct o as [[o]|]; [|done].
  specialize (Ho _ eq_refl). simpl in Ho. destruct o as [|x o]; [done|].
  cbn [truthy text fmap option_fmap option_map from_option text_or_null oid_value mbind option_bind].
  by rewrite (proj2 (new_OwnerID_ok (x :: o) (MkOwnerID (x :: o)))).
Qed.

Lemma payload_reads_back l : storable l → read_payload deserialize (Some (serialize l)) = Some l.
Proof.
  intros Hl%deserialize_serialize. rewrite /read_payload.
  destruct (serialize l) eqn:E; [by rewrite /deserialize /= in Hl|exact Hl].
Qed.

Lemma redirect_reads_back code url exp :
  scalars (sc_value code) → scalars url → on_some is_datetime exp →
  deserialize_redirect (serialize_redirect (sc_value code) url exp) code =
  Some (MkCachedRedirect (sc_value code) url exp).
Proof.
  intros Sc Su Te. rewrite /deserialize_redirect /serialize_redirect load_dump_bytes; last first.
  { rewrite /link_fields /redirect_fields. cbn [writable foldr]. split_and!; try done. by apply time_writable. }
  cbn [mbind option_bind].
  field "url" (redirect_fields (sc_value code) url exp) (JString url). field "short_code" (redirect_fields (sc_value code) url exp) (JString (sc_value code)).
  field "expires_at" (redirect_fields (sc_value code) url exp) (text_or_null (isoformat <$> exp)). cbn [text mbind option_bind].
  assert (is_for (MkCachedRedirect (sc_value code) url exp) code = true) as Hfor.
  { by rewrite /is_for bool_decide_eq_true_2. }
  destruct exp as [t|]; cbn [text_or_null fmap option_fmap option_map from_option];
    rewrite ?(fromisoformat_isoformat t) /= ?Hfor //. by apply Te.
Qed.
End round_trips.

(** ** Operations and tampering *)

Section histories.
Context {S : Type} `{RedisLaws S, SignerLaws, IsoLaws, UrlRules}.
Context (cfg : RedisSettings).
Implicit Types (now : Z) (c : RedisLinkCache S).
Let secret := rs_secret_key cfg.

Inductive operation :=
| Save (l : Link) | SaveMany (ls : list Link)
| SaveRedirect (code : ShortCode) (url : pystr) (expires_at : option Z) | SaveStats (stats : fields_t)
| Delete (l : Link) | DeleteByCode (code : ShortCode) | DeleteRedirect (code : ShortCode)
| DeleteStats | ClearAll | Ping | Info
| GetByCode (code : ShortCode) | GetByHash (h : UrlHash) (scope : DedupScope)
| GetByHashes (hs : list UrlHash) (scope : DedupScope) | GetRedirect (code : ShortCode) | GetStats.

Definition run now (op : operation) c : RedisLinkCache S :=
  match op with
  | Save l => rc_save cfg now l c
  | SaveMany ls => rc_save_many cfg now ls c
  | SaveRedirect code url expires_at => rc_save_redirect cfg now code url expires_at c
  | SaveStats stats => rc_save_stats cfg now stats c
  | Delete l => (rc_delete cfg now l c).2
  | DeleteByCode code => (rc_delete_by_code cfg now code c).2
  | DeleteRedirect code => rc_delete_redirect cfg now code c
  | DeleteStats => rc_delete_stats cfg now c
  | ClearAll => rc_clear_all cfg now c
  | Ping => (rc_ping cfg now c).2
  | Info => (rc_get_cache_info cfg now c).2
  | GetByCode code => (rc_get_by_code cfg now code c).2
  | GetByHash h scope => (rc_get_by_hash cfg now h scope c).2
  | GetByHashes hs scope => (rc_get_by_hashes cfg now hs scope c).2
  | GetRedirect code => (rc_get_redirect cfg now code c).2
  | GetStats => (rc_get_stats cfg now c).2
  end.

(** The links and the redirects an operation saves. *)
Definition saved_links (op : operation) : list Link :=
  match op with Save l => [l] | SaveMany ls => ls | _ => [] end.
Definition saved_redirects (op : operation) : list CachedRedirect :=
  match op with
  | SaveRedirect code url expires_at => [MkCachedRedirect (sc_value code) url expires_at]
  | _ => redirect_of <$> saved_links op
  end.

(** What is sealed: under the two keys of a link, the key of a redirect, or
    the key of the statistics. *)
Inductive sealed (op : operation) : pystr → list Z → Prop :=
| sealed_hash l : l ∈ saved_links op →
    sealed op (k_hash cfg (link_url_hash l) (dedup_scope l)) (serialize l)
| sealed_code l : l ∈ saved_links op → sealed op (k_code cfg (link_short_code l)) (serialize l)
| sealed_redirect e : e ∈ saved_redirects op →
    sealed op (key_for_redirect (rs_prefix cfg) (cr_short_code e))
      (serialize_redirect (cr_short_code e) (cr_original_url e) (cr_expires_at e))
| sealed_stats stats : op = SaveStats stats → sealed op (k_stats cfg) (dump_bytes (JObject stats)).

(** Bytes that carry no signature of the service. *)
Definition junk (v : list Z) : Prop := ∀ salt age now, unsign secret salt v age now = None.
(** Bytes that somebody without the secret can have. *)
Definition obtainable (log : list (Z * operation)) (v : list Z) : Prop :=
  junk v ∨ ∃ t op k p, (t, op) ∈ log ∧ sealed op k p ∧ v = sign secret k t p.

(** The service's operations in any order, while somebody else writes to the
    server what they please and can: junk, or any entry of the log, under any
    key. *)
Inductive redis_history : list (Z * operation) → Z → RedisLinkCache S → Prop :=
| history_start now s : (∀ k v, holds s k = Some v → junk v) → redis_history [] now (connect now s)
| history_tick log now now' c : redis_history log now c → now <= now' → redis_history log now' c
| history_run log now op c : redis_history log now c →
    redis_history (log ++ [(now, op)]) now (run now op c)
| history_tamper log now c s : redis_history log now c →
    (∀ k v, holds s k = Some v → obtainable log v) → redis_history log now (with_server s c).

(** A command of the client: what the server holds afterwards it held before,
    or the command wrote. *)
Lemma execute_read_holds {A} now (f : S → outcome A * S) (new : pystr → list Z → Prop) c :
  (∀ s k v, holds (f s).2 k = Some v → holds s k = Some v ∨ new k v) →
  ∀ k v, holds (rc_server (execute_read cfg now f c).2) k = Some v →
    holds (rc_server c) k = Some v ∨ new k v.
Proof.
  intros Hf k v. rewrite /execute_read /ensure_connection.
  destruct (rc_available c) eqn:Ea; [|destruct (_ <=? _)].
  - simpl. specialize (Hf (rc_server c) k v). by destruct (f (rc_server c)) as [[] ?].
  - by left.
  - pose proof (ping_holds now (rc_server c)) as Hp. destruct (redis_ping now (rc_server c)) as [o s].
    simpl in Hp. destruct o; simpl; [|by left; apply Hp..].
    specialize (Hf s k v). destruct (f s) as [[] ?]; simpl; intros Hk; destruct (Hf Hk); auto.
Qed.

Lemma execute_write_snd {A} now (f : S → outcome A * S) c :
  (execute_write cfg now f c).2 = (execute_read cfg now f c).2.
Proof. rewrite /execute_write. by destruct (execute_read cfg now f c). Qed.

(** Reading and deleting writes nothing. *)
Lemma execute_keeps {A} now (f : S → outcome A * S) c :
  (∀ s k v, holds (f s).2 k = Some v → holds s k = Some v) →
  ∀ k v, holds (rc_server (execute_read cfg now f c).2) k = Some v → holds (rc_server c) k = Some v.
Proof.
  intros Hf k v Hk. apply (execute_read_holds now f (λ _ _, False)) in Hk as [?|[]]; [done|]. eauto.
Qed.

Lemma read_entry_keeps now key age c k v :
  holds (rc_server (read_entry cfg now key age c).2) k = Some v → holds (rc_server c) k = Some v.
Proof.
  rewrite /read_entry. pose proof (execute_keeps now _ c (get_holds now key) k v) as Hk.
  by destruct (execute_read cfg now _ c).
Qed.

Lemma deletion_keeps now keys c k v :
  holds (rc_server (execute_write cfg now (redis_delete now keys) c).2) k = Some v →
  holds (rc_server c) k = Some v.
Proof. rewrite execute_write_snd. apply execute_keeps, delete_holds. Qed.

(** An operation that saves nothing. *)
Lemma run_keeps now op c k v : saved_redirects op = [] → (∀ stats, op ≠ SaveStats stats) →
  holds (rc_server (run now op c)) k = Some v → holds (rc_server c) k = Some v.
Proof.
  intros Hop Hst. destruct op; try done; cbn [run];
    rewrite ?/rc_get_by_code ?/rc_get_by_hash ?/rc_get_redirect ?/rc_get_stats;
    try (match goal with |- context [read_entry cfg now ?key ?age c] =>
           pose proof (read_entry_keeps now key age c k v) as Hr; by destruct (read_entry cfg now key age c)
         end);
    try (apply deletion_keeps).
  - by destruct ls.
  - by destruct (Hst stats).
  - rewrite /rc_clear_all execute_write_snd. apply execute_keeps. intros s k' v'. rewrite /clear_keys.
    pose proof (keys_holds now (rs_prefix cfg ++ lit ":*") s k' v') as Hk.
    destruct (redis_keys _ _ s) as [[[|x keys]| |] s1]; simpl in *; auto. intros Hd%delete_holds. auto.
  - rewrite /rc_ping. pose proof (execute_keeps now _ c (ping_holds now) k v).
    by destruct (execute_read cfg now (redis_ping now) c).
  - rewrite /rc_get_cache_info. pose proof (execute_keeps now _ c (info_holds now) k v).
    by destruct (execute_read cfg now (redis_info now) c).
  - rewrite /rc_get_by_hashes.
    pose proof (execute_keeps now _ c (mget_holds now ((λ h, k_hash cfg h scope) <$> hs)) k v).
    by destruct (execute_read cfg now _ c).
Qed.

Lemma queue_link_sealed now op l k v ttl : l ∈ saved_links op → (∃ l', op = Save l') ∨ (∃ ls, op = SaveMany ls) →
  (k, v, ttl) ∈ queue_link cfg now l → ∃ p, sealed op k p ∧ v = sign secret k now p.
Proof.
  intros Hl Hop. rewrite /queue_link. intros [Hin|Hin]%elem_of_app.
  - set_unfold. destruct_or!; simplify_eq; eexists; (split; [|done]); by constructor.
  - destruct (rc_redirect_ttl _ _ _); [|by apply elem_of_nil in Hin].
    apply list_elem_of_singleton in Hin as [= -> -> ->]. eexists. split; [|done].
    apply (sealed_redirect op (redirect_of l)).
    destruct Hop as [[? ->]|[? ->]]; apply list_elem_of_fmap_2; exact Hl.
Qed.

(** What the server holds after an operation it held before, or the operation
    sealed. *)
Lemma run_holds now op c k v : holds (rc_server (run now op c)) k = Some v →
  holds (rc_server c) k = Some v ∨ ∃ p, sealed op k p ∧ v = sign secret k now p.
Proof.
  pose (new k v := ∃ p, sealed op k p ∧ v = sign secret k now p).
  intros Hk. destruct (decide (saved_redirects op = [])) as [Hop|Hop].
  { destruct op as [| | |stats| | | | | | | | | | | |]; try (left; by eapply run_keeps); try done.
    - cbn [run] in Hk. rewrite /rc_save_stats execute_write_snd in Hk.
      apply (execute_read_holds now _ new) in Hk; [done|].
      intros s k' v' [?|[-> ->]]%set_holds; [by left|right]. eexists. split; [|done]. by constructor. }
  destruct op; try done; cbn [run] in Hk.
  - rewrite /rc_save execute_write_snd in Hk. apply (execute_read_holds now _ new) in Hk; [done|].
    intros s k' v' [?|[ttl Hin]]%pipeline_holds; [by left|right].
    eapply queue_link_sealed; [|eauto|exact Hin]. by constructor.
  - rewrite /rc_save_many in Hk. destruct ls as [|l ls]; [by left|]. rewrite execute_write_snd in Hk.
    apply (execute_read_holds now _ new) in Hk; [done|].
    intros s k' v' [?|[ttl Hin]]%pipeline_holds; [by left|right].
    apply list_elem_of_bind in Hin as (l' & Hin & Hl'). eapply queue_link_sealed; [|eauto|exact Hin]. done.
  - rewrite /rc_save_redirect in Hk. destruct (rc_redirect_ttl _ _ _); [|by left]. rewrite execute_write_snd in Hk.
    apply (execute_read_holds now _ new) in Hk; [done|].
    intros s k' v' [?|[-> ->]]%set_holds; [by left|right]. eexists. split; [|done].
    apply (sealed_redirect _ (MkCachedRedirect _ _ _)). by constructor.
Qed.

(** Every entry the server can hold is one somebody without the secret can
    have. *)
Lemma history_obtainable log now c : redis_history log now c →
  ∀ k v, holds (rc_server c) k = Some v → obtainable log v.
Proof.
  assert (∀ log x v, obtainable log v → obtainable (log ++ [x]) v) as Hmore.
  { intros log' x v [?|(t & op & k & p & Hin & ?)]; [by left|right]. exists t, op, k, p.
    split; [|done]. apply elem_of_app. by left. }
  induction 1 as [now s Hs|log now now' c Hh IH Hle|log now op c Hh IH|log now c s Hh IH Hs]; intros k v Hk.
  - left. apply (Hs k). rewrite /connect in Hk. pose proof (ping_holds now s k v) as Hp.
    destruct (redis_ping now s). auto.
  - by eapply IH.
  - apply run_holds in Hk as [Hk|(p & Hp & ->)]; [by eapply Hmore, IH|]. right.
    exists now, op, k, p. split; [|done]. apply elem_of_app. right. by constructor.
  - by apply (Hs k).
Qed.

(** What a read answers, the server held. *)
Lemma execute_get_holds now key c b c' :
  execute_read cfg now (redis_get now key) c = (Some (Some b), c') → holds (rc_server c) key = Some b.
Proof.
  rewrite /execute_read /ensure_connection.
  destruct (rc_available c); [|destruct (_ <=? _); [done|]].
  - simpl. pose proof (get_answers now key (rc_server c) b) as Ha.
    destruct (redis_get now key (rc_server c)) as [[] ?]; [|done..]. intros [= -> _]. by apply Ha.
  - pose proof (ping_holds now (rc_server c) key b) as Hp.
    destruct (redis_ping now (rc_server c)) as [[] s]; simpl in *; [|done..].
    pose proof (get_answers now key s b) as Ha. destruct (redis_get now key s) as [[] ?]; [|done..].
    intros [= -> _]. by apply Hp, Ha.
Qed.

(** An entry that opens under a key was sealed under it, not too long ago. *)
Lemma read_entry_sealed log now c key age p c' : redis_history log now c →
  read_entry cfg now key age c = (Some p, c') →
  ∃ t op, (t, op) ∈ log ∧ sealed op key p ∧ 0 <= now / SECOND - t / SECOND <= age.
Proof.
  intros Hh. rewrite /read_entry.
  destruct (execute_read cfg now (redis_get now key) c) as [[[b|]|] c1] eqn:E; [|done..].
  apply execute_get_holds, (history_obtainable log now c Hh) in E.
  intros [= Ho _]. rewrite /rc_open /unseal /= in Ho. destruct b as [|x b]; [done|].
  destruct E as [Hj|(t & op & k & p' & Hin & Hs & Hv)]; [by rewrite Hj in Ho|].
  rewrite Hv in Ho. destruct (decide (k = key)) as [->|Hne]; [|by rewrite unsign_other in Ho].
  rewrite unsign_sign in Ho. case_match eqn:Eage; [|done]. injection Ho as ->. reflect_bools.
  exists t, op. split_and!; done || lia.
Qed.

(** Which operations sealed something under the key of a code. *)
Lemma sealed_code_inv op code p : sealed op (k_code cfg code) p →
  ∃ l, l ∈ saved_links op ∧ link_short_code l = code ∧ p = serialize l.
Proof.
  pose proof (keys_disjoint (rs_prefix cfg)) as Hd. inversion 1 as [l Hl Hk|l Hl Hk|e He Hk|st Hst Hk].
  - by destruct (Hd (sc_value code) (sc_value code) (uh_value (link_url_hash l)) (token (dedup_scope l)))
      as (_ & _ & [] & _).
  - exists l. split_and!; [done| |done]. apply key_for_short_code_inj in Hk.
    destruct (link_short_code l), code; simpl in *. by subst.
  - by destruct (Hd (cr_short_code e) (sc_value code) [] []) as [[] _].
  - by destruct (Hd (sc_value code) (sc_value code) [] []) as (_ & _ & _ & _ & [] & _).
Qed.

Lemma sealed_redirect_inv op code p : sealed op (k_redirect cfg code) p →
  ∃ e, e ∈ saved_redirects op ∧ cr_short_code e = sc_value code ∧
       p = serialize_redirect (cr_short_code e) (cr_original_url e) (cr_expires_at e).
Proof.
  pose proof (keys_disjoint (rs_prefix cfg)) as Hd. inversion 1 as [l Hl Hk|l Hl Hk|e He Hk|st Hst Hk].
  - by destruct (Hd (sc_value code) (sc_value code) (uh_value (link_url_hash l)) (token (dedup_scope l)))
      as (_ & [] & _).
  - by destruct (Hd (sc_value code) (sc_value (link_short_code l)) [] []) as [[] _].
  - exists e. split_and!; [done| |done]. by apply key_for_redirect_inj in Hk.
  - by destruct (Hd (sc_value code) (sc_value code) [] []) as (_ & _ & _ & [] & _).
Qed.

(** What the service saved can be stored as it is. *)
Definition op_storable (op : operation) : Prop :=
  Forall storable (saved_links op) ∧
  Forall (λ e, scalars (cr_short_code e) ∧ scalars (cr_original_url e) ∧
               on_some is_datetime (cr_expires_at e)) (saved_redirects op).

(** C20: Whoever writes to the server what they like, copies entries from key to
    key or puts old ones back, the cache answers a link or a redirect under a
    code only if the service itself saved that very link, or that redirect,
    under that code, and no longer ago than the lifetime of an entry. *)
Theorem only_own_entries_are_answered log now c code :
  redis_history log now c → Forall (λ x : Z * operation, op_storable x.2) log →
  (∀ l c', rc_get_by_code cfg now code c = (Some l, c') →
     ∃ t op, (t, op) ∈ log ∧ l ∈ saved_links op ∧ link_short_code l = code ∧
             0 <= now / SECOND - t / SECOND <= rs_ttl cfg) ∧
  (∀ e c', rc_get_redirect cfg now code c = (Some e, c') →
     ∃ t op, (t, op) ∈ log ∧ e ∈ saved_redirects op ∧ cr_short_code e = sc_value code ∧
             0 <= now / SECOND - t / SECOND <= rs_ttl cfg).
Proof.
  intros Hh Hst. rewrite Forall_elem in Hst. split.
  - intros l c'. rewrite /rc_get_by_code. destruct (read_entry _ _ _ _ _) as [[p|] c1] eqn:E; [|done].
    apply (read_entry_sealed log) in E as (t & op & Hin & (l' & Hl' & <- & ->)%sealed_code_inv & Hage); [|done].
    specialize (Hst _ Hin) as [Hs _]. rewrite Forall_elem in Hs. specialize (Hs _ Hl').
    rewrite payload_reads_back //. intros [= <- _]. eauto 10.
  - intros e c'. rewrite /rc_get_redirect. destruct (read_entry _ _ _ _ _) as [[p|] c1] eqn:E; [|done].
    apply (read_entry_sealed log) in E as (t & op & Hin & (e' & He' & Hc & ->)%sealed_redirect_inv & Hage); [|done].
    specialize (Hst _ Hin) as [_ Hs]. rewrite Forall_elem in Hs. destruct (Hs _ He') as (Sc & Su & Te).
    rewrite /read_payload. destruct (serialize_redirect _ _ _) eqn:Es; [done|]. rewrite -Es Hc.
    rewrite Hc in Sc. rewrite redirect_reads_back //. intros [= <- _].
    exists t, op. split_and!; try done; try lia. destruct e'. simpl in *. by rewrite -Hc.
Qed.

(** ** Outages *)

Lemma execute_read_away {A} now (f : S → outcome A * S) c :
  rc_available c = false → now - rc_last_attempt c <= rs_retry_interval cfg * SECOND →
  execute_read cfg now f c = (None, c).
Proof.
  intros Ha Hl. rewrite /execute_read /ensure_connection Ha (proj2 (Z.leb_le _ _) Hl). done.
Qed.

Lemma run_away now op c :
  rc_available c = false → now - rc_last_attempt c <= rs_retry_interval cfg * SECOND → run now op c = c.
Proof.
  intros Ha Hl. assert (∀ A (f : S → outcome A * S), execute_read cfg now f c = (None, c)) as He.
  { intros. by apply execute_read_away. }
  destruct op; cbn [run];
    rewrite /rc_save /rc_save_many /rc_save_redirect /rc_save_stats /rc_delete /rc_delete_by_code
      /rc_delete_redirect /rc_delete_stats /rc_clear_all /rc_ping /rc_get_cache_info /rc_get_by_code
      /rc_get_by_hash /rc_get_by_hashes /rc_get_redirect /rc_get_stats /read_entry /execute_write ?He //.
  - by destruct ls; rewrite ?He.
  - by case_match; rewrite ?He.
Qed.

(** A command that is lost starts a pause: until the retry interval has
    passed, every operation returns at once without a command to the server
    and leaves the cache as it is, and every lookup is a miss.  A command the
    server rejects starts none. *)
Theorem a_lost_command_starts_a_pause {A} now (f : S → outcome A * S) c :
  rc_available c = true →
  let '(o, s) := f (rc_server c) in
  let '(r, c') := execute_read cfg now f c in
  match o with
  | Reply a => r = Some a ∧ c' = with_server s c
  | Rejected => r = None ∧ c' = with_server s c
  | Unreachable => r = None ∧
      ∀ now' op code, now <= now' <= now + rs_retry_interval cfg * SECOND →
        run now' op c' = c' ∧ rc_get_by_code cfg now' code c' = (None, c') ∧
        rc_get_redirect cfg now' code c' = (None, c')
  end.
Proof.
  intros Ha. rewrite /execute_read /ensure_connection Ha /=.
  destruct (f (rc_server c)) as [[a| |] s]; [done..|]. split; [done|]. intros now' op code Hn.
  set (c' := mark_unavailable _ _).
  assert (now' - rc_last_attempt c' <= rs_retry_interval cfg * SECOND) as Hl by (simpl; lia).
  split; [by apply run_away|]. rewrite /rc_get_by_code /rc_get_redirect /read_entry.
  by rewrite !execute_read_away.
Qed.

(** A redirect is stored only while its link lives, for at least a second
    and at most the lifetime of an entry, and it outlives its link by less
    than a second. *)
Theorem redirect_lifetime_is_bounded now expires_at : 1 <= rs_ttl cfg →
  match rc_redirect_ttl cfg now expires_at with
  | None => ∃ t, expires_at = Some t ∧ t <= now
  | Some ttl => 1 <= ttl <= rs_ttl cfg ∧
      ∀ t, expires_at = Some t → now < t ∧ now + ttl * SECOND < t + SECOND
  end.
Proof.
  intros Ht. rewrite /rc_redirect_ttl. destruct expires_at as [t|]; [|split; [lia|done]].
  destruct (Z.leb_spec (t - now) 0) as [Hle|Hgt]; [exists t; split; [done|lia]|].
  pose proof (Z.div_mod (t - now) SECOND ltac:(done)). pose proof (Z.mod_pos_bound (t - now) SECOND ltac:(done)).
  split; [lia|]. intros t' [= <-]. change SECOND with 1000000 in *. lia.
Qed.
End histories.

(** A link written to Redis is read back as the same link, field by field,
    for every link the program makes, whatever characters its address and its
    owner's name hold. *)
Theorem cached_link_reads_back `{IsoLaws, UrlRules} l :
  storable l → deserialize (serialize l) = Some l.
Proof. apply deserialize_serialize. Qed.

(** ** A server, a signer and a calendar *)

Module RedisDemo.

(** A server that is always there and never forgets. *)
Definition store := gmap pystr (list Z).
#[global] Instance store_server : RedisServer store := {|
  redis_ping _ s := (Reply true, s);
  redis_info _ s := (Reply [], s);
  redis_get _ k s := (Reply (s !! k), s);
  redis_mget _ ks s := (Reply ((s !!.) <$> ks), s);
  redis_set _ k v _ s := (Reply tt, <[k := v]> s);
  redis_pipeline _ sets s := (Reply tt, foldl (λ s '(k, v, _), <[k := v]> s) s sets);
  redis_delete _ ks s := (Reply 0, foldl (λ s k, delete k s) s ks);
  redis_keys _ _ s := (Reply (map_to_list s).*1, s);
|}.

#[global] Instance store_laws : RedisLaws store.
Proof.
  refine {| holds s k := s !! k |}; simpl; try done.
  - intros _ keys. induction keys as [|x keys IH]; intros s k v; simpl; [done|].
    intros Hk%IH. by apply lookup_delete_Some in Hk as [_ ?].
  - intros _ key value _ s k v [[-> ->]|[_ ?]]%lookup_insert_Some; auto.
  - intros _ sets. induction sets as [|[[x y] z] sets IH]; intros s k v; simpl; [by left|].
    intros [[[-> ->]|[_ ?]]%lookup_insert_Some|[ttl ?]]%IH; [right; exists z|by left|right; exists ttl]; set_solver.
  - intros _ key s v [= ->]. done.
Defined.

(** A signature that says what it signs. *)
Definition mark (secret salt : pystr) : pystr := len secret :: secret ++ len salt :: salt.
#[global] Instance plain_signer : Signer := {|
  sign secret salt t p := mark secret salt ++ t :: p;
  unsign secret salt b age now :=
    if startswith (mark secret salt) b then
      match drop (length (mark secret salt)) b with
      | t :: p => if (0 <=? now / SECOND - t / SECOND) && (now / SECOND - t / SECOND <=? age)
                  then Some p else None
      | [] => None
      end
    else None;
|}.

#[global] Instance plain_signer_laws : SignerLaws.
Proof.
  split.
  - intros. cbn [unsign sign plain_signer].
    rewrite (proj2 (startswith_spec (mark secret salt) _)); [|by eexists].
    by rewrite drop_app_length.
  - intros secret salt salt' t p age now Hne. cbn [unsign sign plain_signer].
    destruct (startswith _ _) eqn:E; [|done]. exfalso. apply startswith_spec in E as [x Hx]. revert Hx.
    rewrite /mark -!app_comm_cons -!app_assoc. intros [= Hx].
    apply app_inv_head in Hx. simpl in Hx. injection Hx as Hl Hx. rewrite /len in Hl.
    apply app_inj_1 in Hx as [? _]; [done|lia].
Qed.

(** Times as numbers. *)
#[global] Instance numbers : IsoFormat := {|
  isoformat t := str_of_Z (t - DATETIME_MIN);
  fromisoformat s := (λ n, n + DATETIME_MIN) <$> json_int s;
|}.

#[global] Instance numbers_laws : IsoLaws.
Proof.
  assert (∀ t, is_datetime t → number_text (str_of_Z (t - DATETIME_MIN)) ∧
                               json_int (str_of_Z (t - DATETIME_MIN)) = Some (t - DATETIME_MIN)) as Hn.
  { intros t [H1 H2]. apply str_of_Z_number. change DATETIME_MAX with 253402300799999999 in H2.
    change DATETIME_MIN with (-62135596800000000) in *. lia. }
  split; intros t [Ht Hi]%Hn.
  - rewrite /fromisoformat /isoformat /= Hi /=. f_equal. lia.
  - rewrite /isoformat /=. split; [by intros E; rewrite E in Hi|].
    apply number_text_ascii in Ht. rewrite /isascii forallb_forall in Ht. apply forallb_forall.
    intros x Hx%Ht. rewrite /is_ascii in Hx. rewrite /is_scalar /is_high /is_low. lia.
Qed.

#[global] Instance any_address : UrlRules := {|
  new_OriginalUrl _ s := Ok (MkOriginalUrl s);
  from_storage s := Ok (MkOriginalUrl s);
  normalize u := Ok (ou_value u);
|}.

Definition cfg : RedisSettings := MkRedisSettings (lit "app") (lit "secret") 3600 60 10.
Definition link : Link :=
  MkLink (lit "1") (MkUrlHash (repeat 97 64)) (MkShortCode (lit "abc-12")) (MkOriginalUrl (lit "https://a.org/" ++ [233; 128512]))
    0 3 (Some 7) (Some (MkOwnerID (lit "user"))) None None.
Definition other : ShortCode := MkShortCode (lit "other1").

Lemma link_storable : storable link.
Proof.
  split; [split; [reflexivity|split; [reflexivity|split; [reflexivity|by intros o [= <-]]]]|].
  do 4 (split; [reflexivity|]). split; [by intros o [= <-]|]. split; [by intros g [=]|].
  split; [by vm_compute|]. split; [by vm_compute|]. split; [intros t [= <-]; by vm_compute|]. by intros t [=].
Qed.

Lemma cached_link_reads_back_witness : deserialize (serialize link) = Some link.
Proof. apply cached_link_reads_back, link_storable. Defined.

(** The link is saved; somebody copies its entry under another code. *)
Definition saved : RedisLinkCache store := run cfg 1000 (Save link) (connect 1000 (∅ : store)).
Definition copied : RedisLinkCache store :=
  with_server (<[k_code cfg other := rc_seal cfg 1000 (k_code cfg (link_short_code link)) (serialize link)]>
                 (rc_server saved)) saved.

Lemma saved_history : redis_history cfg [(1000, Save link)] 1000 saved.
Proof.
  apply (history_run cfg [] 1000 (Save link)), history_start. intros k v Hk.
  by rewrite /holds /= lookup_empty in Hk.
Qed.

Lemma copied_history : redis_history cfg [(1000, Save link)] 2000 copied.
Proof.
  apply (history_tick _ _ 1000); [|lia]. apply (history_tamper cfg _ _ saved); [exact saved_history|].
  intros k v Hk. change (holds ?s k) with (s !! k : option (list Z)) in Hk.
  apply lookup_insert_Some in Hk as [[_ <-]|[_ Hk]].
  - right. exists 1000, (Save link), (k_code cfg (link_short_code link)), (serialize link).
    split_and!; [by constructor|apply sealed_code; by constructor|done].
  - exact (history_obtainable cfg _ _ _ saved_history k v Hk).
Qed.

(** The entry of a code is read through its signature. *)
Lemma read_copied code t salt p : rc_server copied !! k_code cfg code = Some (sign (lit "secret") salt t p) →
  read_entry cfg 2000 (k_code cfg code) 3600 copied =
  (unsign (lit "secret") (k_code cfg code) (sign (lit "secret") salt t p) 3600 2000, copied).
Proof. intros Hk. rewrite /read_entry /execute_read /ensure_connection /=. by rewrite Hk. Qed.

Lemma copied_answers :
  rc_get_by_code cfg 2000 (link_short_code link) copied = (Some link, copied) ∧
  rc_get_by_code cfg 2000 other copied = (None, copied).
Proof.
  rewrite /rc_get_by_code. split.
  - rewrite (read_copied _ 1000 (k_code cfg (link_short_code link)) (serialize link)).
    + rewrite unsign_sign. cbn match. by rewrite (payload_reads_back link link_storable).
    + rewrite /copied /= lookup_insert_ne //.
  - rewrite (read_copied _ 1000 (k_code cfg (link_short_code link)) (serialize link)).
    + by rewrite unsign_other.
    + by rewrite /copied /= lookup_insert_eq.
Qed.

Lemma only_own_entries_are_answered_witness :
  (∃ t op, (t, op) ∈ [(1000, Save link)] ∧ link ∈ saved_links op ∧
           link_short_code link = MkShortCode (lit "abc-12") ∧ 0 <= 2000 / SECOND - t / SECOND <= 3600) ∧
  rc_get_by_code cfg 2000 other copied = (None, copied).
Proof.
  split; [|apply copied_answers].
  destruct (only_own_entries_are_answered cfg [(1000, Save link)] 2000 copied (link_short_code link)
    copied_history) as [Hc _].
  - constructor; [|constructor]. split; (constructor; [|constructor]); [exact link_storable|].
    split_and!; [reflexivity..|]. intros ? [=].
  - apply (Hc link copied), copied_answers.
Defined.

Lemma a_lost_command_starts_a_pause_witness :
  let c := connect 1000 (∅ : store) in
  let c' := (execute_read (A:=unit) cfg 1000 (λ s, (Unreachable, s)) c).2 in
  run cfg 5000 (Save link) c' = c'.
Proof.
  intros c c'.
  pose proof (a_lost_command_starts_a_pause (A:=unit) cfg 1000 (λ s, (Unreachable, s)) c eq_refl) as Hp.
  destruct Hp as [_ Hp]. destruct (Hp 5000 (Save link) other) as [Hr _]; [vm_compute; split; discriminate|exact Hr].
Defined.

Lemma redirect_lifetime_is_bounded_witness :
  rc_redirect_ttl cfg 1000 (Some 401000) = Some 1 ∧ 1000 + 1 * SECOND < 401000 + SECOND.
Proof.
  split; [vm_compute; reflexivity|].
  pose proof (redirect_lifetime_is_bounded cfg 1000 (Some 401000) ltac:(vm_compute; discriminate)) as [_ Hb].
  by apply (Hb 401000).
Defined.
End RedisDemo.
