(* ===== verification/UserRepo.v ===== *)
(** * The user and role repositories, and who is allowed what

    [sqlalchemy_user_repository.py] and [sqlalchemy_role_repository.py] over
    the tables [users] and [roles], with the rows' foreign keys: deleting a
    user takes the rows that name it, deleting a role takes it off its
    wearers.  [rbac_authorization_service.py] answers a permission question
    from what they load.

    Shown here: what a saved user reads back as, that saving keeps ids and
    addresses unique and answers the errors the source names, and the exact
    meaning of [is_allowed]. *)

From S2P Require Import Prelude PyStr Exceptions ValueObjects Entities Policies Database LinkRepo.

(** ** Users *)

(** The roles a row names, in the row's order. *)
Definition roles_of (ids : list pystr) (rs : list Role) : list Role :=
  ids ≫= λ i, filter (λ r, role_id r = i) rs.

Section users.
Context `{CaseFolding}.

(** [_orm_to_domain]: the stored text is validated on the way in. *)
Definition orm_to_domain (rs : list Role) (m : UserModel) : result exn User :=
  email_from_storage (um_email m) ≫= λ e,
  new_PasswordHash (um_password_hash m) ≫= λ p,
  Ok {| user_id := um_id m; user_email := e; user_password_hash := p;
        user_roles := roles_of (um_roles m) rs; user_is_active := um_is_active m;
        user_email_verified := um_email_verified m; user_created_at := um_created_at m;
        user_last_login := um_last_login m |}.

Definition load_user (d : Database) (m : option UserModel) : result exn (option User) :=
  match m with
  | None => Ok None
  | Some m => orm_to_domain (roles d) m ≫= λ u, Ok (Some u)
  end.

Definition find_user_by_id (i : pystr) (d : Database) : result exn (option User) :=
  load_user d (first (filter (λ m, um_id m = i) (users d))).
Definition find_user_by_email (e : Email) (d : Database) : result exn (option User) :=
  load_user d (first (filter (λ m, um_email m = em_value e) (users d))).
End users.

(** [_domain_to_orm_fields] and [_sync_roles]. *)
Definition user_row (u : User) : UserModel :=
  {| um_id := user_id u; um_email := em_value (user_email u);
     um_password_hash := ph_value (user_password_hash u);
     um_roles := role_id <$> user_roles u; um_is_active := user_is_active u;
     um_email_verified := user_email_verified u; um_created_at := user_created_at u;
     um_last_login := user_last_login u |}.

(** The first role of the user that has no row. *)
Definition missing_role (rs : list Role) (u : User) : option Role :=
  first (filter (λ r, role_id r ∉ (role_id <$> rs)) (user_roles u)).

Definition save_user (u : User) (d : Database) : result exn (User * Database) :=
  match missing_role (roles d) u with
  | Some r => Err (RoleNotFoundError (role_name r))
  | None =>
      if decide (Exists (λ m, um_id m ≠ user_id u ∧ um_email m = em_value (user_email u)) (users d))
      then Err EmailAlreadyRegisteredError
      else
        let t := if decide (user_id u ∈ (um_id <$> users d))
                 then update_where (λ m, um_id m = user_id u) (λ _, user_row u) (users d)
                 else users d ++ [user_row u] in
        Ok (u, set_users t d)
  end.

(** [record_login]: one column of one row. *)
Definition with_login (when : Z) (m : UserModel) : UserModel :=
  {| um_id := um_id m; um_email := um_email m; um_password_hash := um_password_hash m;
     um_roles := um_roles m; um_is_active := um_is_active m;
     um_email_verified := um_email_verified m; um_created_at := um_created_at m;
     um_last_login := Some when |}.
Definition record_login (i : pystr) (when : Z) (d : Database) : bool * Database :=
  (bool_decide (count_where (λ m, um_id m = i) (users d) = 1%nat),
   set_users (update_where (λ m, um_id m = i) (with_login when) (users d)) d).

(** [ON DELETE CASCADE] of the four tables that name a user. *)
Definition cascade_users (d : Database) : Database :=
  let ids := um_id <$> users d in
  let d := set_urls (filter (λ l, owner_exists l (users d) = true) (urls d)) d in
  let d := set_refresh_sessions (filter (λ s, rs_user_id s ∈ ids) (refresh_sessions d)) d in
  let d := set_email_verifications
             (filter (λ v, ev_user_id v ∈ ids) (email_verifications d)) d in
  let d := set_password_resets (filter (λ p, pr_user_id p ∈ ids) (password_resets d)) d in
  cascade_visits d.

Definition delete_user (i : pystr) (d : Database) : bool * Database :=
  if decide (i ∈ (um_id <$> users d))
  then (true, cascade_users (set_users (delete_where (λ m, um_id m = i) (users d)) d))
  else (false, d).

Definition unverified_before (cutoff : Z) (m : UserModel) : Prop :=
  um_email_verified m = false ∧ um_created_at m < cutoff.
#[global] Instance unverified_before_dec k m : Decision (unverified_before k m).
Proof. unfold unverified_before. apply _. Defined.

Definition delete_unverified_before (cutoff : Z) (d : Database) : nat * Database :=
  (count_where (unverified_before cutoff) (users d),
   cascade_users (set_users (delete_where (unverified_before cutoff) (users d)) d)).

(** A row that would let its user pass a check for the permission, through a
    role other than [excluding_role_id]. *)
Definition row_has_permission (rs : list Role) (permission_name : pystr)
    (excluding_role_id : option pystr) (m : UserModel) : Prop :=
  Exists (λ r, role_id r ∈ um_roles m ∧ role_has_permission r permission_name = true ∧
               Some (role_id r) ≠ excluding_role_id) rs.
#[global] Instance row_has_permission_dec rs p x m : Decision (row_has_permission rs p x m).
Proof. unfold row_has_permission. apply _. Defined.

Definition count_active_with_permission (permission_name : pystr)
    (excluding_user_id excluding_role_id : option pystr) (d : Database) : Z :=
  Z.of_nat (count_where (λ m,
    um_is_active m = true ∧ Some (um_id m) ≠ excluding_user_id ∧
    row_has_permission (roles d) permission_name excluding_role_id m) (users d)).

Definition wearers_of (i : pystr) (d : Database) : list pystr :=
  um_id <$> filter (λ m, i ∈ um_roles m) (users d).
Definition count_with_role (i : pystr) (d : Database) : nat := length (wearers_of i d).

(** ** Roles *)

Definition get_role_by_name (name : pystr) (d : Database) : option Role :=
  first (filter (λ r, role_name r = name) (roles d)).

(** [_update_model]: the permission rows the names select. *)
Definition stored_role (r : Role) (d : Database) : Role :=
  {| role_id := role_id r; role_name := role_name r;
     role_description := role_description r; role_is_system := role_is_system r;
     role_permissions :=
       filter (λ p, perm_name p ∈ (perm_name <$> role_permissions r)) (permissions d) |}.

Definition save_role (r : Role) (d : Database) : result exn (Role * Database) :=
  let s := stored_role r d in
  if decide (Exists (λ x, role_id x ≠ role_id r ∧ role_name x = role_name r) (roles d))
  then Err (RoleAlreadyExistsError (role_name r))
  else
    let t := if decide (role_id r ∈ (role_id <$> roles d))
             then update_where (λ x, role_id x = role_id r) (λ _, s) (roles d)
             else roles d ++ [s] in
    Ok (s, set_roles t d).

(** The association rows of the role go with it. *)
Definition without_role (i : pystr) (m : UserModel) : UserModel :=
  {| um_id := um_id m; um_email := um_email m; um_password_hash := um_password_hash m;
     um_roles := filter (λ j, j ≠ i) (um_roles m); um_is_active := um_is_active m;
     um_email_verified := um_email_verified m; um_created_at := um_created_at m;
     um_last_login := um_last_login m |}.
Definition delete_role_row (i : pystr) (d : Database) : Database :=
  if decide (i ∈ (role_id <$> roles d))
  then set_users (without_role i <$> users d)
         (set_roles (delete_where (λ r, role_id r = i) (roles d)) d)
  else d.

(** ** [RBACAuthorizationService] *)

Definition ANONYMOUS_PERMISSION_CEILING : list pystr := [STATS_VIEW_BASIC; LINK_CREATE].
Definition BEYOND_ADMIN_ALL : list pystr := [AUDIT_VIEW].

Definition anonymous_is_allowed (d : Database) (permission : pystr) : bool :=
  if negb (mem permission ANONYMOUS_PERMISSION_CEILING) then false
  else match get_role_by_name GUEST_ROLE_NAME d with
  | None => false
  | Some guest_role => role_has_permission guest_role permission
  end.

Definition is_allowed (d : Database) (user : option User) (permission : pystr) : bool :=
  match user with
  | None => anonymous_is_allowed d permission
  | Some u =>
      if negb (mem permission BEYOND_ADMIN_ALL) && user_has_permission u ADMIN_ALL
      then true
      else user_has_permission u permission
  end.

(** ** What the checks mean *)

Lemma is_allowed_user d u p :
  is_allowed d (Some u) p = true ↔
  p ∈ permissions_held_by (Some u) ∨
  (p ≠ AUDIT_VIEW ∧ ADMIN_ALL ∈ permissions_held_by (Some u)).
Proof.
  rewrite -!user_has_permission_spec /is_allowed.
  assert (mem p BEYOND_ADMIN_ALL = bool_decide (p = AUDIT_VIEW)) as ->.
  { apply bool_decide_ext. rewrite /BEYOND_ADMIN_ALL. set_solver. }
  case_bool_decide; destruct (user_has_permission u ADMIN_ALL) eqn:E; simpl; rewrite ?E;
    naive_solver.
Qed.

Lemma is_allowed_anonymous d p :
  is_allowed d None p = true ↔
  (p = STATS_VIEW_BASIC ∨ p = LINK_CREATE) ∧
  ∃ r, get_role_by_name GUEST_ROLE_NAME d = Some r ∧ role_has_permission r p = true.
Proof.
  rewrite /is_allowed /anonymous_is_allowed /mem.
  case_bool_decide as Hc; rewrite /ANONYMOUS_PERMISSION_CEILING in Hc; simpl.
  - destruct (get_role_by_name GUEST_ROLE_NAME d) as [r|]; split; [|naive_solver|done|naive_solver].
    intros. split; [set_solver|eauto].
  - split; [done|]. intros [? _]. set_solver.
Qed.

(** What loading a row may raise: a stored text its value object refuses. *)
Lemma load_user_error `{CaseFolding} d m e :
  load_user d m = Err e → is_validation_error e || is_value_error e = true.
Proof.
  destruct m as [m|]; [|done].
  rewrite /load_user /orm_to_domain /email_from_storage /new_Email /new_PasswordHash.
  repeat case_match; simplify_eq/=; try done; intros [= <-]; done.
Qed.

(** ** The unique columns *)

Definition users_ok (us : list UserModel) : Prop :=
  NoDup (um_id <$> us) ∧ NoDup (um_email <$> us).

Lemma update_row_ids u us :
  um_id <$> update_where (λ m, um_id m = user_id u) (λ _, user_row u) us = um_id <$> us.
Proof.
  rewrite /update_where -list_fmap_compose. apply list_fmap_ext. intros ? r _. simpl.
  by case_decide as Hr.
Qed.

(** ** Accounts and roles together *)

(** The unique columns of both tables, and the association table's foreign
    key: a user wears roles that exist. *)
Record accounts_ok (d : Database) : Prop := MkAccountsOk {
  ao_users : users_ok (users d);
  ao_role_ids : NoDup (role_id <$> roles d);
  ao_role_names : NoDup (role_name <$> roles d);
  ao_worn : ∀ m i, m ∈ users d → i ∈ um_roles m → i ∈ (role_id <$> roles d);
}.

#[global] Instance accounts_ok_dec d : Decision (accounts_ok d).
Proof.
  refine (cast_if (decide ((NoDup (um_id <$> users d) ∧ NoDup (um_email <$> users d)) ∧
    NoDup (role_id <$> roles d) ∧ NoDup (role_name <$> roles d) ∧
    Forall (λ m, Forall (λ i, i ∈ (role_id <$> roles d)) (um_roles m)) (users d)))).
  - destruct a as (Hu & Hi & Hn & Hw). constructor; [done..|]. intros m i Hm.
    revert i. by apply Forall_elem, (proj1 (Forall_elem _ _) Hw m).
  - intros [Hu Hi Hn Hw]. apply n. split_and!; [apply Hu|apply Hu|done|done|].
    apply Forall_elem. intros m Hm. apply Forall_elem. intros i. by apply Hw.
Defined.

Lemma roles_of_ids ids rs :
  NoDup (role_id <$> rs) → (∀ i, i ∈ ids → i ∈ (role_id <$> rs)) →
  role_id <$> roles_of ids rs = ids.
Proof.
  intros Hnd. induction ids as [|i ids IH]; intros Hin; [done|].
  rewrite /roles_of /= fmap_app -/(roles_of ids rs) IH; [|set_solver].
  assert (role_id <$> filter (λ r, role_id r = i) rs = [i]) as ->; [|done].
  destruct (proj1 (list_elem_of_fmap role_id rs i)) as (r & -> & Hr); [set_solver|]. clear IH Hin.
  induction rs as [|x rs IH]; [by apply elem_of_nil in Hr|].
  rewrite fmap_cons in Hnd. apply list.NoDup_cons in Hnd as [Hx Hnd]. rewrite filter_cons.
  apply elem_of_cons in Hr as [<-|Hr].
  - rewrite decide_True // fmap_cons filter_none //. intros y Hy Heq. apply Hx. rewrite -Heq.
    by apply list_elem_of_fmap_2.
  - rewrite decide_False; [by apply IH|]. intros Heq. apply Hx. rewrite Heq.
    by apply list_elem_of_fmap_2.
Qed.

Lemma elem_of_roles_of r ids rs : r ∈ roles_of ids rs ↔ r ∈ rs ∧ role_id r ∈ ids.
Proof.
  rewrite /roles_of list_elem_of_bind. setoid_rewrite list_elem_of_filter. naive_solver.
Qed.

Section loaded.
Context `{CaseFolding}.

(** A loaded user is its row again. *)
Lemma orm_to_domain_row rs m u :
  NoDup (role_id <$> rs) → (∀ i, i ∈ um_roles m → i ∈ (role_id <$> rs)) →
  orm_to_domain rs m = Ok u → user_row u = m ∧ user_roles u = roles_of (um_roles m) rs.
Proof.
  intros Hnd Hin. rewrite /orm_to_domain /email_from_storage.
  destruct (new_Email _) as [e|]; [|done]. simpl. rewrite /new_PasswordHash.
  case_match; [done|]. simpl. intros [= <-]. rewrite /user_row /=.
  rewrite roles_of_ids //. by destruct m.
Qed.

Lemma load_user_Some d m u :
  load_user d m = Ok (Some u) → ∃ x, m = Some x ∧ orm_to_domain (roles d) x = Ok u.
Proof.
  destruct m as [x|]; [|done]. simpl. destruct (orm_to_domain _ x) as [u'|] eqn:E; [|done].
  intros [= <-]. eauto.
Qed.

Lemma load_user_None d m : load_user d m = Ok None ↔ m = None.
Proof. destruct m as [x|]; [|done]. simpl. by destruct (orm_to_domain _ x). Qed.

(** What [find_by_id] answers is the row of that id. *)
Lemma find_user_by_id_row d i u :
  accounts_ok d → find_user_by_id i d = Ok (Some u) →
  user_id u = i ∧ user_row u ∈ users d ∧ user_roles u = roles_of (um_roles (user_row u)) (roles d).
Proof.
  intros [_ Hids _ Hworn] (m & [Hm Hi]%first_filter_Some & Hu)%load_user_Some.
  destruct (orm_to_domain_row _ _ _ Hids (λ i, Hworn m i Hm) Hu) as [Hrow Hr].
  split; [by rewrite -Hi -Hrow|]. split; [by rewrite Hrow|]. by rewrite Hrow.
Qed.

Lemma find_user_by_email_row d e u :
  accounts_ok d → find_user_by_email e d = Ok (Some u) →
  user_email u = e ∧ user_row u ∈ users d ∧
  user_roles u = roles_of (um_roles (user_row u)) (roles d).
Proof.
  intros [_ Hids _ Hworn] (m & [Hm Hi]%first_filter_Some & Hu)%load_user_Some.
  destruct (orm_to_domain_row _ _ _ Hids (λ i, Hworn m i Hm) Hu) as [Hrow Hr].
  split; [|split; [by rewrite Hrow|by rewrite Hrow]].
  rewrite -Hrow in Hi. destruct u as [? [v] ?????], e as [v']. by simpl in Hi; subst.
Qed.
End loaded.

Lemma user_row_unique us a b : users_ok us → a ∈ us → b ∈ us → um_id a = um_id b → a = b.
Proof.
  intros [Hnd _] Ha Hb Heq.
  pose proof (first_filter_unique (λ m, um_id m = um_id a) um_id us a Hnd Ha eq_refl (λ _ H, H)) as Hf.
  rewrite (first_filter_unique (λ m, um_id m = um_id a) um_id us b) // in Hf; congruence.
Qed.

(** Saving a stored user back with its roles and address as they were is an
    update of its row. *)
Lemma save_stored_user d m u :
  accounts_ok d → m ∈ users d → user_id u = um_id m →
  em_value (user_email u) = um_email m →
  (∀ r, r ∈ user_roles u → role_id r ∈ (role_id <$> roles d)) →
  save_user u d =
    Ok (u, set_users (update_where (λ x, um_id x = user_id u) (λ _, user_row u) (users d)) d).
Proof.
  intros [Hus Hids Hnames Hworn] Hm Hid Hem Hroles. rewrite /save_user.
  assert (missing_role (roles d) u = None) as ->.
  { apply first_filter_None. intros r Hr Hn. by apply Hn, Hroles. }
  rewrite decide_False.
  - rewrite decide_True // Hid. by apply list_elem_of_fmap_2.
  - intros (x & Hx & Hne & Heq)%Exists_elem. apply Hne. rewrite Hid.
    assert (x = m) as ->; [|done]. destruct Hus as [_ Hnd].
    pose proof (first_filter_unique (λ y, um_email y = um_email m) um_email _ m Hnd Hm eq_refl (λ _ H, H)) as Hf.
    rewrite (first_filter_unique (λ y, um_email y = um_email m) um_email _ x) // in Hf; congruence.
Qed.

(** One row changed in columns no constraint speaks of. *)
Lemma accounts_ok_update (Q : UserModel → Prop) `{∀ m, Decision (Q m)} f d :
  (∀ m, um_id (f m) = um_id m ∧ um_email (f m) = um_email m ∧ um_roles (f m) = um_roles m) →
  accounts_ok d → accounts_ok (set_users (update_where Q f (users d)) d).
Proof.
  intros Hf [[Hi He] Hids Hnames Hworn]. constructor; [|done|done|]; simpl.
  - split; rewrite update_where_key //; intros m; apply Hf.
  - intros m i (x & Hx & ->)%elem_of_update_where. destruct (Hf x) as (_ & _ & Hr).
    case_decide; rewrite ?Hr; by apply Hworn.
Qed.

(** A row replaced by one of the same key, in a table with unique keys. *)
Lemma update_row_as (f : UserModel → UserModel) m us r :
  users_ok us → m ∈ us → r = f m →
  update_where (λ x, um_id x = um_id m) (λ _, r) us = update_where (λ x, um_id x = um_id m) f us.
Proof.
  intros Hus Hm ->. apply list_fmap_ext. intros ? x Hx.
  case_decide as Hid; [|done]. f_equal.
  apply (user_row_unique us); [done|done|by eapply list_elem_of_lookup_2|done].
Qed.
