(* ===== verification/IpAddress.v ===== *)
(** * Internet addresses

    The part of the standard library's [ipaddress] the program uses: reading
    an IPv4 or IPv6 address, masking it to a network, and writing it.  An
    address is its integer value; an IPv6 address may carry a scope id.

    The theorems show that an IPv4 address read back from its own text is
    the same address, and the bounds of what a reader answers. *)

From S2P Require Import Prelude PyStr.

Inductive ip_address :=
| IPv4 (n : Z)
| IPv6 (n : Z) (scope_id : option pystr).

#[global] Instance ip_address_eq_dec : EqDecision ip_address.
Proof. solve_decision. Defined.

(** ** Reading *)

(** [int(text, base)] on digits already checked. *)
Definition digit_value (c : Z) : Z :=
  if is_digit c then c - 48 else if is_upper c then c - 55 else c - 87.
Definition int_of (base : Z) (s : pystr) : Z :=
  foldl (λ acc c, acc * base + digit_value c) 0 s.

(** [_parse_octet]: one to three ASCII digits, no leading zero, at most 255. *)
Definition parse_octet (s : pystr) : option Z :=
  if bool_decide (s = []) || negb (forallb is_digit s) || (3 <? len s) ||
     (bool_decide (s ≠ [48]) && bool_decide (first s = Some 48)) || (255 <? int_of 10 s)
  then None else Some (int_of 10 s).

Definition parse_ipv4 (s : pystr) : option Z :=
  match split_on DOT s with
  | [a; b; c; d] =>
      a ← parse_octet a; b ← parse_octet b; c ← parse_octet c; d ← parse_octet d;
      Some (((a * 256 + b) * 256 + c) * 256 + d)
  | _ => None
  end.

Definition is_hexdigit (c : Z) : bool :=
  is_digit c || ((65 <=? c) && (c <=? 70)) || ((97 <=? c) && (c <=? 102)).

Definition parse_hextet (s : pystr) : option Z :=
  if bool_decide (s = []) || negb (forallb is_hexdigit s) || (4 <? len s)
  then None else Some (int_of 16 s).

(** A part of an IPv6 text: the characters, or a group taken from the
    dotted quad at the end. *)
Definition hextets (parts : list (pystr + Z)) : option (list Z) :=
  mapM (λ p, match p with inl s => parse_hextet s | inr n => Some n end) parts.
Definition blank_part (p : pystr + Z) : Prop := p = inl [].

#[global] Instance blank_part_dec p : Decision (blank_part p).
Proof. unfold blank_part. apply _. Defined.

(** Replace a dotted quad in last place by the two groups it writes. *)
Definition unfold_quad (parts : list pystr) : option (list (pystr + Z)) :=
  match reverse parts with
  | l :: r =>
      if has_char DOT l then
        n ← parse_ipv4 l;
        Some ((inl <$> reverse r) ++ [inr (Z.shiftr n 16); inr (Z.land n 65535)])
      else Some (inl <$> parts)
  | [] => None
  end.

(** Interior positions ([1 <= i < len - 1]) with nothing between colons. *)
Definition skips (parts : list (pystr + Z)) : list nat :=
  filter (λ i, parts !! i = Some (inl [])) (seq 1 (length parts - 2)).

Definition groups_value (gs : list Z) : Z := foldl (λ acc g, acc * 65536 + g) 0 gs.

Definition parse_ipv6_groups (parts : list (pystr + Z)) : option (list Z) :=
  let n := length parts in
  let first_blank := bool_decide (first parts = Some (inl [])) in
  let last_blank := bool_decide (parts !! (n - 1)%nat = Some (inl [])) in
  match skips parts with
  | [] =>
      if bool_decide (n ≠ 8%nat) || first_blank || last_blank then None else hextets parts
  | [skip] =>
      let hi := (skip - if first_blank then 1 else 0)%nat in
      let lo := (n - skip - 1 - if last_blank then 1 else 0)%nat in
      if (first_blank && bool_decide (hi ≠ 0%nat)) || (last_blank && bool_decide (lo ≠ 0%nat))
         || bool_decide (8 <= hi + lo)%nat
      then None
      else
        high ← hextets (take hi parts);
        low ← hextets (drop (n - lo) parts);
        Some (high ++ replicate (8 - (hi + lo)) 0 ++ low)
  | _ => None
  end.

Definition parse_ipv6_value (s : pystr) : option Z :=
  let parts := split_on COLON s in
  if bool_decide (length parts < 3)%nat then None
  else
    parts ← unfold_quad parts;
    if bool_decide (9 < length parts)%nat then None
    else groups_value <$> parse_ipv6_groups parts.

Definition PERCENT : Z := 37.

Definition parse_ipv6 (s : pystr) : option ip_address :=
  if has_char SLASH s then None
  else
    let '(addr, sep, scope_id) := partition_at PERCENT s in
    if sep then
      if bool_decide (scope_id = []) || has_char PERCENT scope_id then None
      else (λ n, IPv6 n (Some scope_id)) <$> parse_ipv6_value addr
    else (λ n, IPv6 n None) <$> parse_ipv6_value addr.

(** [ipaddress.ip_address(text)]; [None] is the [ValueError]. *)
Definition parse_ip (s : pystr) : option ip_address :=
  match parse_ipv4 s with
  | Some n => Some (IPv4 n)
  | None => parse_ipv6 s
  end.

(** ** Properties of an address *)

Definition ipv4_mapped (a : ip_address) : option ip_address :=
  match a with
  | IPv4 _ => None
  | IPv6 n _ => if Z.shiftr n 32 =? 65535 then Some (IPv4 (Z.land n (Z.ones 32))) else None
  end.

(** The network address of [ip_network(f"{a}/{prefix}", strict=False)]: the
    host bits are cleared; where there were none, the address is kept as it
    was, with its scope. *)
Definition clear_low (n bits : Z) : Z := Z.shiftl (Z.shiftr n bits) bits.
Definition network_address (prefix : Z) (a : ip_address) : ip_address :=
  match a with
  | IPv4 n => IPv4 (clear_low n (32 - prefix))
  | IPv6 n sc =>
      let m := clear_low n (128 - prefix) in
      IPv6 m (if m =? n then sc else None)
  end.

(** ** Writing *)

Definition str_ipv4 (n : Z) : pystr :=
  join [DOT] (str_of_Z <$> [Z.shiftr n 24; Z.land (Z.shiftr n 16) 255;
                            Z.land (Z.shiftr n 8) 255; Z.land n 255]).

Definition hex_char (d : Z) : Z := if d <? 10 then 48 + d else 87 + d.
(** [hex(n)] of a group, without leading zeros. *)
Definition str_hextet (n : Z) : pystr :=
  let ds := hex_char <$> [Z.shiftr n 12; Z.land (Z.shiftr n 8) 15;
                          Z.land (Z.shiftr n 4) 15; Z.land n 15] in
  match lstrip_by (Z.eqb 48) ds with [] => [48] | s => s end.

Definition groups_of (n : Z) : list Z :=
  (λ i, Z.land (Z.shiftr n (16 * (7 - Z.of_nat i))) 65535) <$> seq 0 8.

(** [_compress_hextets]: the longest run of zero groups, the first such. *)
Fixpoint zero_run (gs : list Z) : nat :=
  match gs with
  | g :: gs => if g =? 0 then S (zero_run gs) else O
  | [] => O
  end.
Fixpoint longest_run (i : nat) (gs : list Z) : nat * nat :=
  match gs with
  | [] => (i, 0)%nat
  | _ :: gs' =>
      let '(j, k) := longest_run (S i) gs' in
      if decide (k <= zero_run gs)%nat then (i, zero_run gs) else (j, k)
  end.

Definition compress (gs : list Z) : list pystr :=
  let '(start, k) := longest_run 0 gs in
  if decide (k <= 1)%nat then str_hextet <$> gs
  else
    (if decide (start = 0%nat) then [[]] else []) ++
    (str_hextet <$> take start gs) ++ [[]] ++
    (str_hextet <$> drop (start + k) gs) ++
    (if decide (start + k = length gs)%nat then [[]] else []).

Definition str_ip (a : ip_address) : pystr :=
  match a with
  | IPv4 n => str_ipv4 n
  | IPv6 n sc =>
      join [COLON] (compress (groups_of n)) ++
      match sc with None => [] | Some s => PERCENT :: s end
  end.

Example reads_and_writes :
  (λ s, str_ip <$> parse_ip (lit s)) <$>
    ["203.0.113.5"; "2001:DB8::0:1"; "1:0:0:2:0:0:0:5"; "::"; "1::"; "::ffff:1.2.3.4";
     "fe80::1%eth0"; "1:2:3:4:5:6:7:8"; "01.2.3.4"; "1::2::3"; ":1:2:3:4:5:6:7"; "1.2.3"]%string =
  (λ o : option string, lit <$> o) <$>
    [Some "203.0.113.5"; Some "2001:db8::1"; Some "1:0:0:2::5"; Some "::"; Some "1::";
     Some "::ffff:102:304"; Some "fe80::1%eth0"; Some "1:2:3:4:5:6:7:8"; None; None; None;
     None]%string.
Proof. vm_compute. reflexivity. Qed.

(** ** An address survives its own text *)

Lemma byte_forall (P : Z → bool) n k :
  forallb P (Z.of_nat <$> seq 0 k) = true → 0 <= n < Z.of_nat k → P n = true.
Proof.
  rewrite forallb_forall => H Hn. apply H. rewrite -list_elem_of_In list_elem_of_fmap.
  exists (Z.to_nat n). rewrite elem_of_seq. lia.
Qed.

Lemma octet_roundtrip n : 0 <= n < 256 →
  parse_octet (str_of_Z n) = Some n ∧ DOT ∉ str_of_Z n.
Proof.
  intros Hn.
  assert (bool_decide (parse_octet (str_of_Z n) = Some n) &&
          bool_decide (DOT ∉ str_of_Z n) = true) as Hb; [|by reflect_bools].
  apply (byte_forall (λ n, bool_decide (parse_octet (str_of_Z n) = Some n) &&
          bool_decide (DOT ∉ str_of_Z n)) n 256); [vm_compute; reflexivity|lia].
Qed.

Lemma split_on_join c parts :
  parts ≠ [] → (∀ p, p ∈ parts → c ∉ p) → split_on c (join [c] parts) = parts.
Proof.
  induction parts as [|p [|q parts] IH]; intros Hne Hc; [done|..].
  - apply split_on_no. set_solver.
  - change (join [c] (p :: q :: parts)) with (p ++ c :: join [c] (q :: parts)).
    rewrite split_on_app; [|set_solver]. rewrite IH //. set_solver.
Qed.

Lemma land_ones_bound x k : 0 <= k → 0 <= Z.land x (Z.ones k) < 2 ^ k.
Proof. intros Hk. rewrite Z.land_ones //. apply Z.mod_pos_bound. lia. Qed.

(** Four digits of a number in base [B]. *)
Lemma div_chain (B n : Z) : 0 < B → 0 <= n < B * B * B * B →
  let a := n / (B * B * B) in let b := n / (B * B) mod B in
  let c := n / B mod B in let d := n mod B in
  (0 <= a < B) ∧ (0 <= b < B) ∧ (0 <= c < B) ∧ (0 <= d < B) ∧
  ((a * B + b) * B + c) * B + d = n.
Proof.
  intros HB Hn a b c d. assert (0 <= a < B) as Ha.
  { split; [apply Z.div_pos; lia|]. apply Z.div_lt_upper_bound; nia. }
  assert (0 <= b < B) by (by apply Z.mod_pos_bound).
  assert (0 <= c < B) by (by apply Z.mod_pos_bound).
  assert (0 <= d < B) by (by apply Z.mod_pos_bound).
  repeat split; try lia. rewrite /a /b /c /d -!Z.div_div; [|nia..].
  pose proof (Z.div_mod n B ltac:(lia)).
  pose proof (Z.div_mod (n / B) B ltac:(lia)).
  pose proof (Z.div_mod (n / B / B) B ltac:(lia)). lia.
Qed.

Lemma octets_bound n : 0 <= n < 2 ^ 32 →
  (0 <= Z.shiftr n 24 < 256) ∧ (0 <= Z.land (Z.shiftr n 16) 255 < 256) ∧
  (0 <= Z.land (Z.shiftr n 8) 255 < 256) ∧ (0 <= Z.land n 255 < 256) ∧
  ((Z.shiftr n 24 * 256 + Z.land (Z.shiftr n 16) 255) * 256 + Z.land (Z.shiftr n 8) 255) * 256
    + Z.land n 255 = n.
Proof.
  intros Hn. change 255 with (Z.ones 8). rewrite !Z.land_ones // !Z.shiftr_div_pow2 //.
  change (2 ^ 24) with (256 * 256 * 256). change (2 ^ 16) with (256 * 256).
  change (2 ^ 8) with 256. change (2 ^ 32) with (256 * 256 * 256 * 256) in Hn.
  by apply (div_chain 256).
Qed.

Lemma parse_ipv4_quad sa sb sc sd a b c d :
  (parse_octet sa = Some a ∧ DOT ∉ sa) → (parse_octet sb = Some b ∧ DOT ∉ sb) →
  (parse_octet sc = Some c ∧ DOT ∉ sc) → (parse_octet sd = Some d ∧ DOT ∉ sd) →
  parse_ipv4 (join [DOT] [sa; sb; sc; sd]) = Some (((a * 256 + b) * 256 + c) * 256 + d).
Proof.
  intros [Ha ?] [Hb ?] [Hc ?] [Hd ?].
  rewrite /parse_ipv4 split_on_join; [by rewrite Ha Hb Hc Hd|done|].
  intros p. rewrite !elem_of_cons elem_of_nil. naive_solver.
Qed.

Lemma ipv4_roundtrip n : 0 <= n < 2 ^ 32 → parse_ip (str_ip (IPv4 n)) = Some (IPv4 n).
Proof.
  intros Hn. destruct (octets_bound n Hn) as (Ha & Hb & Hc & Hd & Heq).
  rewrite -{2}Heq /parse_ip /str_ip.
  by rewrite (parse_ipv4_quad _ _ _ _ _ _ _ _ (octet_roundtrip _ Ha) (octet_roundtrip _ Hb)
    (octet_roundtrip _ Hc) (octet_roundtrip _ Hd)).
Qed.

Lemma hextet_char_ok d : 0 <= d < 16 →
  digit_value (hex_char d) = d ∧ is_hexdigit (hex_char d) = true.
Proof.
  rewrite /digit_value /hex_char /is_hexdigit /is_digit /is_upper. intros Hd.
  destruct (d <? 10) eqn:?; split; repeat case_match; lia.
Qed.

Lemma int_of_lstrip base s : int_of base (lstrip_by (Z.eqb 48) s) = int_of base s.
Proof.
  induction s as [|c s IH]; [done|]. cbn [lstrip_by]. destruct (48 =? c) eqn:E; [|done].
  apply Z.eqb_eq in E as <-. rewrite IH. reflexivity.
Qed.

Lemma lstrip_by_elem p s c : c ∈ lstrip_by p s → c ∈ s.
Proof.
  induction s as [|x s IH]; [done|]. simpl. case_match; [|done]. intros. set_solver.
Qed.

Lemma lstrip_by_length p s : len (lstrip_by p s) <= len s.
Proof. rewrite /len. induction s as [|x s IH]; [done|]. simpl. case_match; simpl; lia. Qed.

Lemma nibbles_bound n : 0 <= n < 65536 →
  (0 <= Z.shiftr n 12 < 16) ∧ (0 <= Z.land (Z.shiftr n 8) 15 < 16) ∧
  (0 <= Z.land (Z.shiftr n 4) 15 < 16) ∧ (0 <= Z.land n 15 < 16) ∧
  ((Z.shiftr n 12 * 16 + Z.land (Z.shiftr n 8) 15) * 16 + Z.land (Z.shiftr n 4) 15) * 16
    + Z.land n 15 = n.
Proof.
  intros Hn. change 15 with (Z.ones 4). rewrite !Z.land_ones // !Z.shiftr_div_pow2 //.
  change 65536 with (16 * 16 * 16 * 16) in Hn.
  change (2 ^ 12) with (16 * 16 * 16). change (2 ^ 8) with (16 * 16). change (2 ^ 4) with 16.
  by apply (div_chain 16).
Qed.

Lemma hextet_digits n : 0 <= n < 65536 →
  ∃ ds, str_hextet n = (match lstrip_by (Z.eqb 48) ds with [] => [48] | s => s end) ∧
    len ds = 4 ∧ (∀ c, c ∈ ds → is_hexdigit c = true) ∧ int_of 16 ds = n.
Proof.
  intros Hn. destruct (nibbles_bound n Hn) as (Ha & Hb & Hc & Hd & Heq).
  eexists. split; [reflexivity|]. split; [done|].
  apply hextet_char_ok in Ha as [Va Ha], Hb as [Vb Hb], Hc as [Vc Hc], Hd as [Vd Hd]. split.
  - intros c. rewrite !fmap_cons !elem_of_cons elem_of_nil. naive_solver.
  - rewrite /int_of /fmap /list_fmap /foldl Va Vb Vc Vd. lia.
Qed.

Lemma hextet_roundtrip n : 0 <= n < 65536 →
  parse_hextet (str_hextet n) = Some n ∧ str_hextet n ≠ [] ∧
  (∀ c, c ∈ str_hextet n → is_hexdigit c = true).
Proof.
  intros Hn. destruct (hextet_digits n Hn) as (ds & -> & Hlen & Hhex & Hval).
  pose proof (int_of_lstrip 16 ds) as Hs. pose proof (lstrip_by_length (Z.eqb 48) ds) as Hl.
  assert (∀ c, c ∈ lstrip_by (Z.eqb 48) ds → is_hexdigit c = true) as Hx
    by (intros c Hc; by apply Hhex, lstrip_by_elem in Hc || eauto using lstrip_by_elem).
  destruct (lstrip_by (Z.eqb 48) ds) as [|c s].
  - split; [|split; [done|]]; [|by intros c ->%list_elem_of_singleton].
    rewrite Hval in Hs. by rewrite -Hs.
  - split; [|done]. rewrite /parse_hextet bool_decide_eq_false_2 //.
    rewrite (_ : forallb is_hexdigit (c :: s) = true).
    + rewrite (_ : (4 <? len (c :: s)) = false); [|lia]. by rewrite Hs Hval.
    + apply forallb_forall. intros x Hin. apply Hx. by apply list_elem_of_In.
Qed.

(** With the lower half zero, the text is the groups before the last run. *)
Lemma compress_low_zero a b c d : ∃ k, (k <= 4)%nat ∧
  compress [a; b; c; d; 0; 0; 0; 0] =
    (if decide (k = 0%nat) then [[]] else []) ++ (str_hextet <$> take k [a; b; c; d]) ++ [[]; []] ∧
  take k [a; b; c; d] ++ replicate (8 - k) 0 = [a; b; c; d; 0; 0; 0; 0].
Proof.
  rewrite /compress. generalize str_hextet as f. intros f. cbn [longest_run zero_run].
  destruct (decide (a = 0)) as [->|Ha%Z.eqb_neq], (decide (b = 0)) as [->|Hb%Z.eqb_neq],
    (decide (c = 0)) as [->|Hc%Z.eqb_neq], (decide (d = 0)) as [->|Hd%Z.eqb_neq];
    rewrite ?Ha ?Hb ?Hc ?Hd.
  all: first [exists 0%nat; split; [lia|vm_compute; done]|exists 1%nat; split; [lia|vm_compute; done]|exists 2%nat; split; [lia|vm_compute; done]|exists 3%nat; split; [lia|vm_compute; done]|exists 4%nat; split; [lia|vm_compute; done]].
Qed.

Lemma str_hextet_cons n : 0 <= n < 65536 →
  ∃ x s, str_hextet n = x :: s ∧ parse_hextet (x :: s) = Some n ∧ COLON ∉ x :: s ∧
    DOT ∉ x :: s ∧ PERCENT ∉ x :: s ∧ SLASH ∉ x :: s.
Proof.
  intros Hn. destruct (hextet_roundtrip n Hn) as (Hp & Hne & Hx).
  destruct (str_hextet n) as [|x s]; [done|]. exists x, s.
  split_and!; try done; intros Hin; by apply Hx in Hin.
Qed.

(** [groups] written out, then the two empty parts of the final run. *)
Lemma parse_groups_run (parts : list pystr) (gs : list Z) :
  (1 <= length parts <= 4)%nat → ([] ∉ parts) → mapM parse_hextet parts = Some gs →
  parse_ipv6_groups (inl <$> parts ++ [[]; []]) = Some (gs ++ replicate (8 - length parts) 0).
Proof.
  intros Hlen Hne Hgs.
  assert (skips (inl <$> parts ++ [[]; []]) = [length parts]) as Hsk.
  { destruct parts as [|[|? ?] [|[|? ?] [|[|? ?] [|[|? ?] [|? ?]]]]]; simpl in *; try lia;
      try set_solver; vm_compute; reflexivity. }
  assert (hextets (inl <$> parts) = Some gs) as Hh.
  { rewrite /hextets. apply mapM_Some, Forall2_fmap_l, mapM_Some. done. }
  assert (∀ k, (inl <$> parts ++ [[]; []] : list (pystr + Z)) !! k =
               ((inl <$> parts) ++ [inl []; inl []]) !! k) as Happ by (by rewrite fmap_app).
  rewrite /parse_ipv6_groups Hsk. rewrite length_fmap length_app.
  rewrite (bool_decide_eq_false_2 (first _ = _)); last first.
  { destruct parts as [|[|? ?] ?]; simpl in *; [lia|set_solver|done]. }
  rewrite (bool_decide_eq_true_2 (_ !! _ = Some (inl []))); last first.
  { rewrite Happ lookup_app_r length_fmap /=; [|lia].
    by replace (length parts + 2 - 1 - length parts)%nat with 1%nat by lia. }
  replace (length parts + length [[]; [] : pystr] - length parts - 1 - 1)%nat with 0%nat
    by (simpl; lia).
  rewrite Nat.sub_0_r (bool_decide_eq_false_2 (0 ≠ 0)%nat); [|lia].
  rewrite (bool_decide_eq_false_2 (8 <= _)%nat); [|lia]. cbn [andb orb].
  rewrite fmap_app take_app_length' ?length_fmap // Hh /=.
  rewrite drop_ge; [|rewrite length_app length_fmap /=; lia].
  by rewrite /= Nat.add_0_r app_nil_r.
Qed.

Lemma parse_value_run (parts : list pystr) (gs : list Z) :
  (length parts <= 4)%nat → [] ∉ parts → mapM parse_hextet parts = Some gs →
  (∀ p c, p ∈ parts → c ∈ p → is_hexdigit c = true) →
  parse_ipv6_value (join [COLON] ((if decide (length parts = 0%nat) then [[]] else []) ++ parts ++ [[]; []]))
  = Some (groups_value (gs ++ replicate (8 - length parts) 0)).
Proof.
  intros Hlen Hne Hgs Hhex. destruct parts as [|p ps]; [injection Hgs as <-; vm_compute; reflexivity|].
  case_decide; [done|]. rewrite app_nil_l. set (parts := p :: ps) in *.
  rewrite /parse_ipv6_value split_on_join; [|by destruct parts|]; last first.
  { intros q Hq Hin. apply elem_of_app in Hq as [Hq|Hq]; [by apply (Hhex q) in Hin|].
    by repeat (apply elem_of_cons in Hq as [->|Hq]; [by apply elem_of_nil in Hin|]);
      apply elem_of_nil in Hq. }
  rewrite bool_decide_eq_false_2; [|rewrite length_app /parts /=; lia].
  rewrite /unfold_quad reverse_app /=.
  rewrite bool_decide_eq_false_2; [|rewrite length_fmap length_app /parts /=; simpl in *; lia].
  change (p :: ps ++ [[]; []]) with (parts ++ [[]; []]).
  rewrite (parse_groups_run parts gs) //. simpl in *. lia.
Qed.

Lemma int_of_nonneg s acc : forallb is_digit s = true → 0 <= acc →
  0 <= foldl (λ acc c, acc * 10 + digit_value c) acc s.
Proof.
  revert acc. induction s as [|c s IH]; intros acc Hs Hacc; [exact Hacc|].
  cbn [forallb] in Hs. apply andb_true_iff in Hs as [Hc Hs]. apply IH; [done|].
  rewrite /digit_value Hc. rewrite /is_digit in Hc. lia.
Qed.

Lemma parse_octet_digits s n : parse_octet s = Some n → forallb is_digit s = true ∧ 0 <= n < 256.
Proof.
  rewrite /parse_octet. case_match eqn:E; [done|]. intros [= <-]. reflect_bools. split; [done|].
  split; [by apply int_of_nonneg|lia].
Qed.

Lemma parse_ipv4_no_colon s n : parse_ipv4 s = Some n → COLON ∉ s ∧ 0 <= n < 2 ^ 32.
Proof.
  rewrite /parse_ipv4 -{2}(join_split DOT s).
  destruct (split_on DOT s) as [|a [|b [|c [|d [|]]]]]; try done.
  intros (na & Ha & (nb & Hb & (nc & Hc & (nd & Hd & [= <-])%bind_Some)%bind_Some)%bind_Some)%bind_Some.
  apply parse_octet_digits in Ha as [Ha ?], Hb as [Hb ?], Hc as [Hc ?], Hd as [Hd ?].
  split; [|lia].
  assert (∀ p, forallb is_digit p = true → COLON ∉ p) as Hp.
  { intros p Hall Hin. rewrite forallb_forall in Hall. apply list_elem_of_In, Hall in Hin. done. }
  apply Hp in Ha, Hb, Hc, Hd. cbn [join].
  rewrite !elem_of_app. rewrite /COLON /DOT in Ha, Hb, Hc, Hd |- *. set_solver by lia.
Qed.

(** ** Networks of IPv6 *)

Definition scope_ok (sc : option pystr) : Prop :=
  match sc with None => True | Some s => s ≠ [] ∧ PERCENT ∉ s ∧ SLASH ∉ s end.

Lemma partition_at_no c s : c ∉ s → partition_at c s = (s, false, []).
Proof.
  induction s as [|x s IH]; intros Hc; [done|]. simpl.
  rewrite (_ : (x =? c) = false); [|by apply Z.eqb_neq; set_solver].
  rewrite IH //. set_solver.
Qed.
Lemma partition_at_app c s t : c ∉ s → partition_at c (s ++ c :: t) = (s, true, t).
Proof.
  induction s as [|x s IH]; intros Hc; simpl; [by rewrite Z.eqb_refl|].
  rewrite (_ : (x =? c) = false); [|by apply Z.eqb_neq; set_solver].
  rewrite IH //. set_solver.
Qed.
Lemma has_char_false c s : has_char c s = false ↔ c ∉ s.
Proof. rewrite -has_char_spec. by destruct (has_char c s). Qed.

Lemma parse_ipv6_scoped s n sc :
  parse_ipv6_value s = Some n → PERCENT ∉ s → SLASH ∉ s → COLON ∈ s → scope_ok sc →
  parse_ip (s ++ match sc with None => [] | Some t => PERCENT :: t end) = Some (IPv6 n sc).
Proof.
  intros Hv Hp Hs Hc Hsc. rewrite /parse_ip.
  destruct (parse_ipv4 _) as [m|] eqn:E.
  { apply parse_ipv4_no_colon in E as [[] _]. set_solver. }
  rewrite /parse_ipv6. destruct sc as [t|].
  - destruct Hsc as (Hne & Hpt & Hst). rewrite (proj2 (has_char_false SLASH _)); [|set_solver by done].
    rewrite partition_at_app // bool_decide_eq_false_2 // (proj2 (has_char_false PERCENT t)) //.
    by rewrite Hv.
  - rewrite app_nil_r (proj2 (has_char_false SLASH s)) // partition_at_no //. by rewrite Hv.
Qed.

Lemma groups_of_network n : 0 <= n < 2 ^ 128 → clear_low n 64 = n →
  ∃ a b c d, groups_of n = [a; b; c; d; 0; 0; 0; 0] ∧
    (0 <= a < 65536) ∧ (0 <= b < 65536) ∧ (0 <= c < 65536) ∧ (0 <= d < 65536) ∧
    groups_value [a; b; c; d; 0; 0; 0; 0] = n.
Proof.
  rewrite /clear_low Z.shiftl_mul_pow2 // Z.shiftr_div_pow2 // => Hn Heq.
  set (m := n / 2 ^ 64) in *.
  assert (0 <= m < 65536 * 65536 * 65536 * 65536) as Hm by lia.
  destruct (div_chain 65536 m eq_refl Hm) as (Ha & Hb & Hc & Hd & Hsum).
  do 4 eexists. split; [|split; [exact Ha|split; [exact Hb|split; [exact Hc|split; [exact Hd|]]]]].
  - rewrite /groups_of. cbn [fmap list_fmap seq].
    change 65535 with (Z.ones 16). rewrite !Z.land_ones // !Z.shiftr_div_pow2 //.
    rewrite -Heq.
    change (2 ^ (16 * (7 - Z.of_nat 0))) with (2 ^ 64 * (65536 * 65536 * 65536)).
    change (2 ^ (16 * (7 - Z.of_nat 1))) with (2 ^ 64 * (65536 * 65536)).
    change (2 ^ (16 * (7 - Z.of_nat 2))) with (2 ^ 64 * 65536).
    change (2 ^ (16 * (7 - Z.of_nat 3))) with (2 ^ 64).
    change (2 ^ (16 * (7 - Z.of_nat 4))) with (2 ^ 48).
    change (2 ^ (16 * (7 - Z.of_nat 5))) with (2 ^ 32).
    change (2 ^ (16 * (7 - Z.of_nat 6))) with (2 ^ 16).
    change (2 ^ (16 * (7 - Z.of_nat 7))) with 1. change (2 ^ 16) with 65536.
    assert (∀ x, 0 < x → m * 2 ^ 64 / (2 ^ 64 * x) = m / x) as Hhi.
    { intros x Hx. rewrite (Z.mul_comm m). apply Z.div_mul_cancel_l; lia. }
    assert (∀ x y, 0 < y → x * 65536 * y = 2 ^ 64 → (m * 2 ^ 64 / y) mod 65536 = 0) as Hlo.
    { intros x y Hy Hxy. rewrite -Hxy !Z.mul_assoc Z.div_mul; [|lia]. by apply Z.mod_mul. }
    rewrite (Hhi (65536 * 65536 * 65536)) // (Hhi (65536 * 65536)) // (Hhi 65536) //.
    rewrite (Z.div_mul m) // (Z.mod_small (m / _)) //.
    by rewrite (Hlo 1 (2 ^ 48)) // (Hlo 65536 (2 ^ 32)) // (Hlo (2 ^ 32) 65536) //
      (Hlo (2 ^ 48) 1).
  - rewrite /groups_value. cbn [foldl]. rewrite Z.mul_0_l Z.add_0_l Hsum -Heq. lia.
Qed.

Lemma mapM_hextets gs : (∀ g, g ∈ gs → 0 <= g < 65536) →
  mapM parse_hextet (str_hextet <$> gs) = Some gs ∧ [] ∉ str_hextet <$> gs ∧
  ∀ p c, p ∈ str_hextet <$> gs → c ∈ p → is_hexdigit c = true.
Proof.
  intros Hgs. split; [|split].
  - apply mapM_Some, Forall2_fmap_l, Forall_Forall2_diag, Forall_elem.
    intros g Hg. by apply hextet_roundtrip, Hgs.
  - intros (g & Heq & Hg)%list_elem_of_fmap. apply Hgs, hextet_roundtrip in Hg as (_ & Hne & _). done.
  - intros p c (g & -> & Hg)%list_elem_of_fmap. by apply hextet_roundtrip, Hgs.
Qed.

Lemma join_chars (c : Z) parts x : x ∈ join [c] parts → x = c ∨ ∃ p, p ∈ parts ∧ x ∈ p.
Proof.
  induction parts as [|p [|q ps] IH]; [set_solver..|].
  change (join [c] (p :: q :: ps)) with (p ++ c :: join [c] (q :: ps)).
  rewrite elem_of_app elem_of_cons. intros [?|[?|?]]; [set_solver..|].
  destruct IH as [?|(r & ? & ?)]; [done|by left|]. right. exists r. set_solver.
Qed.

Lemma join_sep (c : Z) parts : (2 <= length parts)%nat → c ∈ join [c] parts.
Proof.
  destruct parts as [|p [|q ps]]; simpl; try lia. intros _. set_solver.
Qed.

Lemma ipv6_network_roundtrip n sc : 0 <= n < 2 ^ 128 → clear_low n 64 = n → scope_ok sc →
  parse_ip (str_ip (IPv6 n sc)) = Some (IPv6 n sc).
Proof.
  intros Hn Hlow Hsc. destruct (groups_of_network n Hn Hlow) as (a & b & c & d & Hg & Ha & Hb & Hc & Hd & Hv).
  rewrite /str_ip Hg. destruct (compress_low_zero a b c d) as (k & Hk & Hcomp & Heq).
  set (gs := take k [a; b; c; d]) in *.
  destruct (mapM_hextets gs) as (Hm & Hne & Hhex).
  { intros g Hin. assert (g ∈ [a; b; c; d]) as Hin' by (by eapply subseteq_take).
    rewrite !elem_of_cons elem_of_nil in Hin'. naive_solver. }
  assert (length gs = k) as Hlk by (rewrite /gs length_take /=; lia).
  pose proof (parse_value_run (str_hextet <$> gs) gs) as Hrun.
  rewrite length_fmap Hlk Heq Hv in Hrun. rewrite Hcomp. set (parts := _ ++ _ ++ [[]; []]) in *.
  assert (∀ x, x ∈ join [COLON] parts → x = COLON ∨ is_hexdigit x = true) as Hchars.
  { intros x [?|(p & Hp & Hx)]%join_chars; [by left|right]. rewrite /parts in Hp.
    apply elem_of_app in Hp as [Hp|[Hp|Hp]%elem_of_app]; [|by eapply Hhex|];
      (assert (p = []) as ->; [|by apply elem_of_nil in Hx]).
    - destruct (decide (k = 0%nat)); [by apply list_elem_of_singleton|by apply elem_of_nil in Hp].
    - by repeat (apply elem_of_cons in Hp as [->|Hp]; [done|]); apply elem_of_nil in Hp. }
  apply parse_ipv6_scoped; [by apply Hrun|by intros [?|?]%Hchars..| |done].
  apply join_sep. rewrite /parts !length_app /=. lia.
Qed.

(** ** Bounds of what is read *)

Lemma int_of_16_bound s acc : forallb is_hexdigit s = true → 0 <= acc →
  0 <= foldl (λ acc c, acc * 16 + digit_value c) acc s < (acc + 1) * 16 ^ len s.
Proof.
  revert acc. induction s as [|c s IH]; intros acc Hs Hacc; [rewrite /len /=; lia|].
  cbn [forallb] in Hs. apply andb_true_iff in Hs as [Hc Hs].
  assert (0 <= digit_value c < 16) as Hd.
  { revert Hc. rewrite /is_hexdigit /digit_value /is_digit /is_upper. repeat case_match; lia. }
  specialize (IH (acc * 16 + digit_value c) Hs ltac:(lia)). cbn [foldl].
  rewrite (_ : len (c :: s) = 1 + len s); [|rewrite /len /=; lia].
  rewrite Z.pow_add_r //; [|apply len_nonneg]. assert (0 < 16 ^ len s) by (apply Z.pow_pos_nonneg; [done|apply len_nonneg]).
  nia.
Qed.

Lemma parse_hextet_bound s n : parse_hextet s = Some n → 0 <= n < 65536.
Proof.
  rewrite /parse_hextet. case_match eqn:E; [done|]. intros [= <-]. reflect_bools.
  pose proof (int_of_16_bound s 0 ltac:(done) ltac:(done)) as Hb.
  rewrite /int_of. split; [lia|]. eapply Z.lt_le_trans; [apply Hb|].
  change 65536 with (16 ^ 4). rewrite Z.mul_1_l. apply Z.pow_le_mono_r; lia.
Qed.

Definition part_ok (p : pystr + Z) : Prop := ∀ n, p = inr n → 0 <= n < 65536.

Lemma hextets_bound parts gs : (∀ p, p ∈ parts → part_ok p) → hextets parts = Some gs →
  length gs = length parts ∧ ∀ g, g ∈ gs → 0 <= g < 65536.
Proof.
  intros Hok Hgs%mapM_Some. split; [symmetry; by eapply Forall2_length|].
  intros g [i Hi]%list_elem_of_lookup. eapply Forall2_lookup_r in Hgs as (p & Hp & Hg); [|done].
  apply list_elem_of_lookup_2, Hok in Hp. destruct p; [by eapply parse_hextet_bound|].
  simplify_eq. by apply Hp.
Qed.

Lemma unfold_quad_ok parts ps : unfold_quad parts = Some ps → ∀ p, p ∈ ps → part_ok p.
Proof.
  rewrite /unfold_quad. destruct (reverse parts) as [|l r]; [done|].
  case_match; [|by intros [= <-] p (s & -> & _)%list_elem_of_fmap n].
  intros (n & Hn & [= <-])%bind_Some p. apply parse_ipv4_no_colon in Hn as [_ Hn].
  rewrite elem_of_app !elem_of_cons elem_of_nil. intros [(s & -> & _)%list_elem_of_fmap|[->|[->|[]]]] k; [done|..].
  - intros [= <-]. rewrite Z.shiftr_div_pow2 //. split; [apply Z.div_pos; lia|].
    apply Z.div_lt_upper_bound; lia.
  - intros [= <-]. by apply (land_ones_bound n 16).
Qed.

Lemma parse_ipv6_groups_bound parts gs :
  (∀ p, p ∈ parts → part_ok p) → parse_ipv6_groups parts = Some gs →
  length gs = 8%nat ∧ ∀ g, g ∈ gs → 0 <= g < 65536.
Proof.
  intros Hok. rewrite /parse_ipv6_groups.
  assert (∀ i, i ∈ skips parts → (i < length parts)%nat) as Hsk.
  { intros i [_ Hi%elem_of_seq]%list_elem_of_filter. lia. }
  destruct (skips parts) as [|sk [|]]; [| |done].
  - case_match eqn:E; [done|]. reflect_bools. intros [Hl Hb]%hextets_bound; [|done].
    split; [|done]. rewrite Hl. by apply dec_stable.
  - case_match eqn:E; [done|]. apply orb_false_iff in E as [_ E]. apply bool_decide_eq_false in E.
    intros (high & Hh & (low & Hl & [= <-])%bind_Some)%bind_Some.
    apply hextets_bound in Hh as [Lh Bh], Hl as [Ll Bl].
    2-3: intros p Hp; apply Hok; first [by eapply subseteq_take|by eapply subseteq_drop].
    split.
    + rewrite !length_app length_replicate Lh Ll length_take length_drop.
      specialize (Hsk sk ltac:(set_solver)). lia.
    + intros g [Hg|[Hg|Hg]%elem_of_app]%elem_of_app; [by apply Bh| |by apply Bl].
      apply elem_of_replicate in Hg as [-> _]. lia.
Qed.

Lemma groups_value_bound gs acc : (∀ g, g ∈ gs → 0 <= g < 65536) → 0 <= acc →
  0 <= foldl (λ acc g, acc * 65536 + g) acc gs < (acc + 1) * 65536 ^ len gs.
Proof.
  revert acc. induction gs as [|g gs IH]; intros acc Hgs Hacc; [rewrite /len /=; lia|].
  assert (0 <= g < 65536) by (apply Hgs; set_solver).
  specialize (IH (acc * 65536 + g) ltac:(set_solver) ltac:(lia)). cbn [foldl].
  rewrite (_ : len (g :: gs) = 1 + len gs); [|rewrite /len /=; lia].
  rewrite Z.pow_add_r //; [|apply len_nonneg].
  assert (0 < 65536 ^ len gs) by (apply Z.pow_pos_nonneg; [done|apply len_nonneg]). nia.
Qed.

(** What [parse_ip] answers is an address of its family. *)
Definition ip_ok (a : ip_address) : Prop :=
  match a with
  | IPv4 n => 0 <= n < 2 ^ 32
  | IPv6 n sc => (0 <= n < 2 ^ 128) ∧ scope_ok sc
  end.

Lemma parse_ipv6_value_bound s n : parse_ipv6_value s = Some n → 0 <= n < 2 ^ 128.
Proof.
  rewrite /parse_ipv6_value. case_match; [done|].
  intros (ps & Hps & Hn)%bind_Some. case_match; [done|].
  apply fmap_Some in Hn as (gs & Hgs & ->).
  apply parse_ipv6_groups_bound in Hgs as [Hl Hb]; [|by eapply unfold_quad_ok].
  pose proof (groups_value_bound gs 0 Hb ltac:(done)) as Hv.
  rewrite /len Hl in Hv. exact Hv.
Qed.

Lemma partition_at_after c s a b : partition_at c s = (a, true, b) → ∀ x, x ∈ b → x ∈ s.
Proof.
  revert a. induction s as [|y s IH]; intros a; simpl; [done|].
  case_match; [intros [= <- <-]; set_solver|].
  destruct (partition_at c s) as [[a' f'] b'] eqn:E. intros [= <- -> ->] x Hx.
  apply elem_of_cons. right. by eapply IH.
Qed.

Lemma parse_ip_ok s a : parse_ip s = Some a → ip_ok a.
Proof.
  rewrite /parse_ip. destruct (parse_ipv4 s) as [n|] eqn:E.
  { intros [= <-]. by apply parse_ipv4_no_colon in E as [_ ?]. }
  rewrite /parse_ipv6. destruct (has_char SLASH s) eqn:Hsl; [done|].
  destruct (partition_at PERCENT s) as [[ad [|]] sc] eqn:Hp.
  - case_match eqn:Hc; [done|]. intros (n & Hn & ->)%fmap_Some.
    apply parse_ipv6_value_bound in Hn. reflect_bools. split; [done|]. split; [done|].
    split; [by apply has_char_false|]. apply has_char_false in Hsl. intros Hin.
    by eapply Hsl, partition_at_after.
  - intros (n & Hn & ->)%fmap_Some. by apply parse_ipv6_value_bound in Hn.
Qed.

Lemma clear_low_idemp n k : 0 <= k → clear_low (clear_low n k) k = clear_low n k.
Proof. intros Hk. rewrite /clear_low Z.shiftr_shiftl_l // Z.sub_diag Z.shiftl_0_r //. Qed.

Lemma clear_low_bound n k j : 0 <= k → 0 <= n < 2 ^ j → 0 <= clear_low n k < 2 ^ j.
Proof.
  intros Hk Hn. rewrite /clear_low Z.shiftl_mul_pow2 // Z.shiftr_div_pow2 //.
  pose proof (Z.mul_div_le n (2 ^ k) ltac:(lia)). pose proof (Z.div_pos n (2 ^ k) ltac:(lia) ltac:(lia)).
  nia.
Qed.

(** * Which addresses are public

    The classification of [ipaddress.IPv4Address] and [IPv6Address] that
    [OriginalUrl._is_internal_address] asks for: [is_global], [is_private],
    [is_loopback], [is_link_local], [is_multicast], [is_reserved] and
    [is_unspecified], over the tables of CPython 3.12 (from 3.12.8), and the
    IPv4 addresses an IPv6 address embeds.

    The lemmas state what each block of addresses covers as an interval, so
    that a claim about an address can be read without the tables. *)

(** [address in network], a network being its first address and prefix. *)
Definition in_net (width n : Z) (net : Z * Z) : bool :=
  Z.shiftr n (width - net.2) =? Z.shiftr net.1 (width - net.2).
Definition in_nets (width n : Z) (nets : list (Z * Z)) : bool := existsb (in_net width n) nets.

Definition quad (a b c d : Z) : Z := ((a * 256 + b) * 256 + c) * 256 + d.

(** ** IPv4 *)

Definition v4_private_networks : list (Z * Z) :=
  [(quad 0 0 0 0, 8); (quad 10 0 0 0, 8); (quad 127 0 0 0, 8); (quad 169 254 0 0, 16);
   (quad 172 16 0 0, 12); (quad 192 0 0 0, 24); (quad 192 0 0 170, 31); (quad 192 0 2 0, 24);
   (quad 192 168 0 0, 16); (quad 198 18 0 0, 15); (quad 198 51 100 0, 24);
   (quad 203 0 113 0, 24); (quad 240 0 0 0, 4); (quad 255 255 255 255, 32)].
Definition v4_private_exceptions : list (Z * Z) :=
  [(quad 192 0 0 9, 32); (quad 192 0 0 10, 32)].

Definition v4_is_private (n : Z) : bool :=
  in_nets 32 n v4_private_networks && negb (in_nets 32 n v4_private_exceptions).
Definition v4_is_global (n : Z) : bool :=
  negb (in_net 32 n (quad 100 64 0 0, 10)) && negb (v4_is_private n).
Definition v4_is_loopback (n : Z) : bool := in_net 32 n (quad 127 0 0 0, 8).
Definition v4_is_link_local (n : Z) : bool := in_net 32 n (quad 169 254 0 0, 16).
Definition v4_is_multicast (n : Z) : bool := in_net 32 n (quad 224 0 0 0, 4).
Definition v4_is_reserved (n : Z) : bool := in_net 32 n (quad 240 0 0 0, 4).
Definition v4_is_unspecified (n : Z) : bool := n =? 0.

(** ** IPv6 *)

Definition v6_base (gs : list Z) : Z := groups_value (gs ++ replicate (8 - length gs) 0).

Definition v6_private_networks : list (Z * Z) :=
  [(v6_base [0; 0; 0; 0; 0; 0; 0; 1], 128); (v6_base [], 128);
   (v6_base [0; 0; 0; 0; 0; 0xffff], 96); (v6_base [0x64; 0xff9b; 1], 48);
   (v6_base [0x100], 64); (v6_base [0x2001], 23); (v6_base [0x2001; 0xdb8], 32);
   (v6_base [0x2002], 16); (v6_base [0x3fff], 20); (v6_base [0xfc00], 7);
   (v6_base [0xfe80], 10)].
Definition v6_private_exceptions : list (Z * Z) :=
  [(v6_base [0x2001; 1; 0; 0; 0; 0; 0; 1], 128); (v6_base [0x2001; 1; 0; 0; 0; 0; 0; 2], 128);
   (v6_base [0x2001; 3], 32); (v6_base [0x2001; 4; 0x112], 48); (v6_base [0x2001; 0x20], 28);
   (v6_base [0x2001; 0x30], 28)].
Definition v6_reserved_networks : list (Z * Z) :=
  [(v6_base [], 8); (v6_base [0x100], 8); (v6_base [0x200], 7); (v6_base [0x400], 6);
   (v6_base [0x800], 5); (v6_base [0x1000], 4); (v6_base [0x4000], 3); (v6_base [0x6000], 3);
   (v6_base [0x8000], 3); (v6_base [0xa000], 3); (v6_base [0xc000], 3); (v6_base [0xe000], 4);
   (v6_base [0xf000], 5); (v6_base [0xf800], 6); (v6_base [0xfe00], 9)].

(** [sixtofour] and [teredo]: the IPv4 addresses an IPv6 address carries. *)
Definition sixtofour (a : ip_address) : option ip_address :=
  match a with
  | IPv4 _ => None
  | IPv6 n _ =>
      if Z.shiftr n 112 =? 0x2002 then Some (IPv4 (Z.land (Z.shiftr n 80) (Z.ones 32))) else None
  end.
Definition teredo (a : ip_address) : option (ip_address * ip_address) :=
  match a with
  | IPv4 _ => None
  | IPv6 n _ =>
      if Z.shiftr n 96 =? 0x20010000
      then Some (IPv4 (Z.land (Z.shiftr n 64) (Z.ones 32)), IPv4 (Z.land (Z.lnot n) (Z.ones 32)))
      else None
  end.

(** A property of an IPv6 address that wraps an IPv4 address is that of the
    wrapped address. *)
Definition address_property (v4 v6 : Z → bool) (a : ip_address) : bool :=
  match a with
  | IPv4 n => v4 n
  | IPv6 n _ =>
      match ipv4_mapped a with
      | Some (IPv4 m) => v4 m
      | _ => v6 n
      end
  end.

Definition v6_is_private (n : Z) : bool :=
  in_nets 128 n v6_private_networks && negb (in_nets 128 n v6_private_exceptions).

Definition is_private := address_property v4_is_private v6_is_private.
Definition is_global := address_property v4_is_global (λ n, negb (v6_is_private n)).
Definition is_loopback := address_property v4_is_loopback (λ n, n =? 1).
Definition is_link_local :=
  address_property v4_is_link_local (λ n, in_net 128 n (v6_base [0xfe80], 10)).
Definition is_multicast :=
  address_property v4_is_multicast (λ n, in_net 128 n (v6_base [0xff00], 8)).
Definition is_reserved_address :=
  address_property v4_is_reserved (λ n, in_nets 128 n v6_reserved_networks).
Definition is_unspecified := address_property v4_is_unspecified (λ n, n =? 0).

(** ** Blocks as intervals *)

Lemma in_net_interval width base prefix n :
  0 <= prefix <= width → 0 <= n → base mod 2 ^ (width - prefix) = 0 →
  in_net width n (base, prefix) = true ↔ base <= n < base + 2 ^ (width - prefix).
Proof.
  intros Hp Hn Hb. rewrite /in_net Z.eqb_eq /= !Z.shiftr_div_pow2; [|lia..].
  set (k := 2 ^ (width - prefix)) in *. assert (0 < k) by (apply Z.pow_pos_nonneg; lia).
  pose proof (Z.div_mod base k ltac:(lia)). pose proof (Z.div_mod n k ltac:(lia)).
  pose proof (Z.mod_pos_bound n k ltac:(lia)). split; [nia|].
  intros Hr. apply Z.le_antisymm; [apply Z.lt_succ_r, Z.div_lt_upper_bound; nia|].
  apply Z.div_le_mono; lia.
Qed.

Example classified :
  (λ s, match parse_ip (lit s) with
        | Some a => (is_global a, is_private a, is_reserved_address a)
        | None => (false, false, false)
        end) <$>
    ["8.8.8.8"; "10.1.2.3"; "100.64.0.1"; "224.0.0.1"; "192.0.0.9"; "::ffff:8.8.8.8";
     "2606:4700::1111"; "2001:4:112::1"; "64:ff9b::1"; "fec0::1"]%string =
  [(true, false, false); (false, true, false); (false, false, false); (true, false, false);
   (true, false, false); (true, false, false); (true, false, false); (true, false, false);
   (true, false, true); (true, false, false)].
Proof. vm_compute. reflexivity. Qed.
