(* ===== verification/Visitor.v ===== *)
(** * What a visit remembers of its visitor

    [domain/value_objects/visitor.py] and [LinkVisit.record]: the client's
    network instead of its address, and the browser family, screen and
    robot mark read off the User-Agent header.

    Shown here: the stored network has no host part, writing it again
    changes nothing, and a client that announces itself as a robot has no
    device. *)

From S2P Require Import Prelude PyStr IpAddress Database.

(** ** The network: [anonymise_address] *)

Definition anonymise (a : ip_address) : ip_address :=
  let parsed := default a (ipv4_mapped a) in
  match parsed with
  | IPv4 _ => network_address 24 parsed
  | IPv6 _ _ => network_address 64 parsed
  end.

Definition anonymise_address (address : option pystr) : option pystr :=
  match address with
  | None | Some [] => None
  | Some s => (λ a, str_ip (anonymise a)) <$> parse_ip (strip s)
  end.

(** ** The patterns *)

(** A literal under [re.I]: besides the two ASCII cases, the characters
    Python's matcher holds equal to [i], [k] and [s]. *)
Definition ci_eq (p c : Z) : bool :=
  (ascii_lower c =? p)
  || ((p =? 105) && ((c =? 304) || (c =? 305)))
  || ((p =? 107) && (c =? 8490))
  || ((p =? 115) && (c =? 383)).

Fixpoint ci_prefix (p s : pystr) : bool :=
  match p, s with
  | [], _ => true
  | x :: p, c :: s => ci_eq x c && ci_prefix p s
  | _ :: _, [] => false
  end.

(** [re.search] of a pattern that is tried at every position; the matcher
    sees the character before the position. *)
Fixpoint search_at (m : option Z → pystr → bool) (before : option Z) (s : pystr) : bool :=
  m before s || match s with [] => false | c :: s => search_at m (Some c) s end.
Definition search (m : option Z → pystr → bool) (s : pystr) : bool := search_at m None s.

Definition literal (p : string) : option Z → pystr → bool := λ _ s, ci_prefix (lit p) s.
Definition any_of (ps : list (option Z → pystr → bool)) : option Z → pystr → bool :=
  λ b s, existsb (λ m, m b s) ps.

(** The rest of the line: what [.] may run over. *)
Fixpoint rest_of_line (s : pystr) : pystr :=
  match s with [] => [] | c :: s => if c =? 10 then [] else c :: rest_of_line s end.

(** [android(?!.*(?:mobile|mini))]. *)
Definition android_without_screen : option Z → pystr → bool := λ b s,
  ci_prefix (lit "android") s &&
  negb (search (any_of [literal "mobile"; literal "mini"]) (rest_of_line (drop 7 s))).

(** [\w], a table of the Unicode database. *)
Class WordChars := is_word_char : Z → bool.

Section classify.
Context `{WordChars}.

(** [\bopt/]: [o] is a word character, so the boundary is the start or a
    non-word character before it. *)
Definition bopt : option Z → pystr → bool := λ b s,
  match b with None => true | Some c => negb (is_word_char c) end && literal "opt/" b s.

Definition _BROWSERS : list (pystr * (option Z → pystr → bool)) :=
  [(lit "bot", any_of (literal <$>
      ["bot"; "crawler"; "spider"; "slurp"; "curl"; "wget"; "python-requests"; "headless";
       "monitoring"; "preview"; "facebookexternalhit"; "whatsapp"; "telegrambot";
       "slackbot"]%string));
   (lit "edge", any_of (literal <$> ["edg/"; "edge/"; "edga/"; "edgios/"]%string));
   (lit "opera", any_of [literal "opr/"; literal "opios/"; bopt; literal "opera"]);
   (lit "samsung", literal "samsungbrowser");
   (lit "firefox", any_of (literal <$> ["firefox/"; "fxios/"]%string));
   (lit "chrome", any_of (literal <$> ["chrome/"; "crios/"; "chromium"]%string));
   (lit "safari", literal "safari/")].

Definition _DEVICES : list (pystr * (option Z → pystr → bool)) :=
  [(lit "tablet", any_of [literal "ipad"; literal "tablet"; android_without_screen]);
   (lit "mobile", any_of (literal <$>
      ["mobile"; "iphone"; "ipod"; "windows phone"; "opera mini"]%string))].

(** The first rule that fits. *)
Fixpoint first_match (rules : list (pystr * (option Z → pystr → bool))) (s : pystr)
    : option pystr :=
  match rules with
  | [] => None
  | (name, pattern) :: rules =>
      if search pattern s then Some name else first_match rules s
  end.

Definition UNKNOWN : pystr := lit "unknown".

Definition classify_client (user_agent : option pystr) : pystr * pystr * bool :=
  match user_agent with
  | None | Some [] => (UNKNOWN, UNKNOWN, false)
  | Some ua =>
      let browser := default UNKNOWN (first_match _BROWSERS ua) in
      if decide (browser = lit "bot") then (UNKNOWN, browser, true)
      else match first_match _DEVICES ua with
      | Some device => (device, browser, false)
      | None =>
          (if decide (browser = UNKNOWN) then UNKNOWN else lit "desktop", browser, false)
      end
  end.

(** [LinkVisit.record]. *)
Definition record (now : Z) (uuid link_id : pystr) (remote_addr user_agent : option pystr)
    : LinkVisit :=
  let '(device, browser, is_bot) := classify_client user_agent in
  {| lv_id := uuid; lv_link_id := link_id; lv_occurred_at := now;
     lv_visitor_network := anonymise_address remote_addr;
     lv_device := device; lv_browser := browser; lv_is_bot := is_bot |}.
End classify.

#[local] Instance ascii_words : WordChars := λ c, is_alnum c || (c =? UNDERSCORE).

Example opera_mini_is_a_phone :
  classify_client (Some (lit "Opera/9.80 (Android; Opera Mini/7.5.33361) Presto"))
    = (lit "mobile", lit "opera", false) ∧
  classify_client (Some (lit "Mozilla/5.0 (iPad) EdgiOS/120.0 Mobile/15E148 Safari/604.1"))
    = (lit "tablet", lit "edge", false) ∧
  classify_client (Some (lit "TelegramBot (like TwitterBot)"))
    = (UNKNOWN, lit "bot", true).
Proof. vm_compute. auto. Qed.

(** ** What is stored identifies no host *)

(** The low bits an address gives up: 8 of IPv4, 64 of IPv6. *)
Definition host_part (a : ip_address) : Z :=
  match a with IPv4 n => Z.land n (Z.ones 8) | IPv6 n _ => Z.land n (Z.ones 64) end.

Lemma clear_low_land n k : 0 <= k → Z.land (clear_low n k) (Z.ones k) = 0.
Proof.
  intros Hk. rewrite /clear_low Z.land_ones // Z.shiftl_mul_pow2 //. apply Z.mod_mul. lia.
Qed.

Lemma mapped_value n sc b : ipv4_mapped (IPv6 n sc) = Some b → ∃ m, b = IPv4 m ∧ 0 <= m < 2 ^ 32.
Proof.
  rewrite /ipv4_mapped. case_match; [|done]. intros [= <-]. eexists. split; [done|].
  by apply (land_ones_bound n 32).
Qed.

(** A network with its lower half clear is no mapped address. *)
Lemma network_not_mapped n sc : ipv4_mapped (IPv6 (clear_low n 64) sc) = None.
Proof.
  rewrite /ipv4_mapped (_ : Z.shiftr (clear_low n 64) 32 =? 65535 = false) //.
  apply Z.eqb_neq. rewrite /clear_low Z.shiftr_shiftl_l // Z.shiftl_mul_pow2 //. lia.
Qed.

Lemma anonymise_network a : ip_ok a →
  (∃ n, anonymise a = IPv4 (clear_low n 8) ∧ 0 <= n < 2 ^ 32) ∨
  (∃ n sc, anonymise a = IPv6 (clear_low n 64) sc ∧ (0 <= n < 2 ^ 128) ∧ scope_ok sc).
Proof.
  destruct a as [n|n sc]; [intros Hn; left; by exists n|]. intros [Hn Hsc].
  rewrite /anonymise. destruct (ipv4_mapped (IPv6 n sc)) as [b|] eqn:Hm.
  - apply mapped_value in Hm as (m & -> & Hb). left. by exists m.
  - right. exists n. eexists. split; [reflexivity|]. split; [done|]. by case_match.
Qed.

Lemma anonymise_fixed a : ip_ok a →
  host_part (anonymise a) = 0 ∧ anonymise (anonymise a) = anonymise a ∧
  parse_ip (str_ip (anonymise a)) = Some (anonymise a).
Proof.
  intros [(n & -> & Hn)|(n & sc & -> & Hn & Hsc)]%anonymise_network.
  - split; [by apply clear_low_land|]. split.
    + by rewrite /anonymise /= clear_low_idemp.
    + apply ipv4_roundtrip. by apply clear_low_bound.
  - split; [by apply clear_low_land|]. split.
    + rewrite /anonymise network_not_mapped. cbn [from_option id]. rewrite /network_address.
      change (128 - 64) with 64. rewrite clear_low_idemp; [|done]. by rewrite Z.eqb_refl.
    + apply ipv6_network_roundtrip; [by apply clear_low_bound|by apply clear_low_idemp|done].
Qed.

(** ** The visitor's guarantees *)

(** what a visit stores of an address it could parse has its host part
    zeroed (the last octet of IPv4, also when it arrives mapped into IPv6,
    and the lower 64 bits of IPv6), reads back as the same network, and is
    left as it is by a second anonymisation. *)
Theorem stored_network_has_no_host s a :
  parse_ip s = Some a →
  host_part (anonymise a) = 0 ∧ anonymise (anonymise a) = anonymise a ∧
  parse_ip (str_ip (anonymise a)) = Some (anonymise a).
Proof. intros Ha. by eapply anonymise_fixed, parse_ip_ok. Qed.

Lemma stored_network_has_no_host_witness :
  str_ip (anonymise (IPv6 281473902969345 None)) = lit "192.0.2.0" ∧
  host_part (anonymise (IPv6 281473902969345 None)) = 0.
Proof.
  destruct (stored_network_has_no_host (lit "::ffff:192.0.2.1") (IPv6 281473902969345 None))
    as (Hh & _); [vm_compute; reflexivity|].
  split; [vm_compute; reflexivity|exact Hh].
Defined.

(** The zone of an address whose host bits are clear stays in what is stored:
    the one part of an address that names a host and is not zeroed. *)
Theorem zone_of_a_network_is_kept :
  anonymise_address (Some (lit "fe80::%eth0")) = Some (lit "fe80::%eth0") ∧
  anonymise_address (Some (lit "fe80::1%eth0")) = Some (lit "fe80::").
Proof. vm_compute. auto. Qed.
