(* ===== verification/RollUp.v ===== *)
(** * Days, spans and histories folded into daily totals

    What the visit statistics and the security counts share:
    [infrastructure/database/repositories/sql_time.py],
    [application/utils/chart_spans.py], the [GROUP BY] of the statistics
    queries, and the scheme both repositories keep their history by.  Raw
    rows (a visit, an event) are kept for a while; once a day is over its rows
    are folded into one row per key and day, and later swept.  [Folded] relates
    the two tables to the full log of what ever happened; the lemmas show that
    recording, deleting a key, folding and sweeping keep it, and that reading
    the folded row where there is one and the raw rows otherwise reads the
    log.

    Times are microseconds since the epoch, in UTC. *)

From S2P Require Import Prelude PyStr Exceptions Entities.

(** ** [sql_time.py] *)

Definition DAY_SECONDS : Z := 86400.

(** Both engines' expression: the whole seconds since the epoch. *)
Definition epoch_seconds (t : Z) : Z := t / SECOND.
(** [int(moment.timestamp())] and [int(delta.total_seconds())]. *)
Definition whole_seconds (t : Z) : Z := Z.quot t SECOND.

(** [moment.replace(hour=0, minute=0, second=0, microsecond=0)]. *)
Definition midnight (t : Z) : Z := t - t mod DAY.

(** The index a query groups by; [//] is the engines' integer division. *)
Definition bucket_index (since width t : Z) : Z :=
  Z.quot (epoch_seconds t - whole_seconds since) width.
Definition day_index (t : Z) : Z := Z.quot (epoch_seconds t) DAY_SECONDS.
(** [datetime.fromtimestamp(index * DAY, tz=timezone.utc)]. *)
Definition day_at (index : Z) : Z := index * DAY_SECONDS * SECOND.

Lemma day_seconds : DAY = DAY_SECONDS * SECOND.
Proof. reflexivity. Qed.

(** The day a row is grouped under is the midnight before it. *)
Lemma day_at_index t : 0 <= t → day_at (day_index t) = midnight t.
Proof.
  intros Ht. rewrite /day_at /day_index /midnight /epoch_seconds -Z.mul_assoc -day_seconds.
  assert (0 <= t / SECOND) by (apply Z.div_pos; rewrite /SECOND; lia).
  rewrite Z.quot_div_nonneg //. rewrite Z.div_div; [|done..].
  rewrite (Z.mul_comm SECOND) -day_seconds. pose proof (Z.div_mod t DAY ltac:(done)). lia.
Qed.

Lemma midnight_bounds t : midnight t <= t < midnight t + DAY.
Proof. rewrite /midnight. pose proof (Z.mod_pos_bound t DAY ltac:(done)). lia. Qed.

(** Midnights are the multiples of a day. *)
Lemma midnight_divide t : (DAY | midnight t).
Proof.
  exists (t / DAY). rewrite /midnight. pose proof (Z.div_mod t DAY ltac:(done)). lia.
Qed.

Lemma midnight_unique m t : (DAY | m) → midnight t = m ↔ m <= t < m + DAY.
Proof.
  intros [q ->]. split; [intros <-; apply midnight_bounds|]. intros Hb. rewrite /midnight.
  pose proof (Z.div_mod t DAY ltac:(done)).
  assert (t / DAY = q) as Hq; [|rewrite Hq in H; lia].
  symmetry. apply (Z.div_unique t DAY q (t - q * DAY)); lia.
Qed.

Lemma midnight_before m t : (DAY | m) → midnight t < m ↔ t < m.
Proof.
  intros [q ->]. pose proof (midnight_bounds t). split; [|lia].
  destruct (midnight_divide t) as [p Hp]. rewrite Hp in H |- *. intros Hlt.
  assert (p < q) as Hpq by (by apply (Z.mul_lt_mono_pos_r DAY)).
  assert ((p + 1) * DAY <= q * DAY) by (apply Z.mul_le_mono_nonneg_r; [done|lia]). lia.
Qed.

Lemma midnight_mono s t : s <= t → midnight s <= midnight t.
Proof.
  intros Hst. destruct (decide (midnight t < midnight s)) as [Hlt|]; [|lia].
  pose proof (proj1 (midnight_before (midnight s) t (midnight_divide s)) Hlt).
  pose proof (midnight_bounds s). lia.
Qed.

(** ** [chart_spans.py] *)

Definition PERIODS : list (pystr * (Z * Z)) :=
  [(lit "24h", (24 * HOUR, 24)); (lit "7d", (7 * DAY, 7 * 4));
   (lit "30d", (30 * DAY, 30)); (lit "90d", (90 * DAY, 90))].
Definition DEFAULT_PERIOD : pystr := lit "7d".

Definition period_of (name : pystr) : option (Z * Z) :=
  snd <$> first (filter (λ p, p.1 = name) PERIODS).

(** [span / buckets != timedelta(days=1)]: dividing a [timedelta] rounds to
    the microsecond, half to even. *)
Definition rounded_quotient (a n : Z) : Z :=
  let q := a / n in
  let r := 2 * (a mod n) in
  if r <? n then q else if n <? r then q + 1 else if Z.even q then q else q + 1.

Definition span_of (now span buckets : Z) : Z * Z :=
  if (buckets <? 1) || negb (rounded_quotient span buckets =? DAY) then (now - span, now)
  else let fin := midnight now + DAY in (fin - buckets * DAY, fin).

Lemma day_bucket since t : (DAY | since) → since <= t →
  bucket_index since DAY_SECONDS t = (t - since) / DAY.
Proof.
  intros [q ->] Ht. rewrite /bucket_index /epoch_seconds /whole_seconds.
  rewrite {1}day_seconds (Z.mul_assoc q) Z.quot_mul //.
  rewrite -Z.add_opp_r -Z.div_add //.
  rewrite Z.quot_div_nonneg; [|apply Z.div_pos; [|done]; rewrite day_seconds in Ht; lia|done].
  rewrite Z.div_div // (Z.mul_comm SECOND) -day_seconds. f_equal. lia.
Qed.

Lemma day_bucket_iff since t i : (DAY | since) → since <= t →
  bucket_index since DAY_SECONDS t = i ↔ midnight t = since + i * DAY.
Proof.
  intros Hs Ht. rewrite day_bucket // midnight_unique; last first.
  { apply Z.divide_add_r; [done|by exists i]. }
  split.
  - intros <-. pose proof (Z.div_mod (t - since) DAY ltac:(done)).
    pose proof (Z.mod_pos_bound (t - since) DAY ltac:(done)). lia.
  - intros Hb. symmetry. apply (Z.div_unique _ _ _ (t - since - i * DAY)); lia.
Qed.

(** The span a chart drawn in whole days covers. *)
Lemma whole_days_quotient n : 0 < n → rounded_quotient (n * DAY) n = DAY.
Proof.
  intros Hn. rewrite /rounded_quotient (Z.mul_comm n) Z.div_mul ?Z.mod_mul; [|lia..].
  by rewrite (_ : 2 * 0 <? n = true); [|lia].
Qed.

Lemma whole_days_span now n : 0 < n →
  span_of now (n * DAY) n = (midnight now + DAY - n * DAY, midnight now + DAY).
Proof.
  intros Hn. rewrite /span_of whole_days_quotient // Z.eqb_refl orb_false_r.
  by rewrite (_ : n <? 1 = false); [|lia].
Qed.

Lemma period_buckets name span buckets : period_of name = Some (span, buckets) → 0 < buckets.
Proof.
  rewrite /period_of. destruct (first _) as [[k v]|] eqn:E; [|done].
  apply first_filter_Some in E as [Hin _]. simpl. intros [= ->].
  rewrite /PERIODS !elem_of_cons in Hin.
  destruct Hin as [[= _ _ ->]|[[= _ _ ->]|[[= _ _ ->]|[[= _ _ ->]|Hin]]]]; try lia.
  by apply elem_of_nil in Hin.
Qed.

(** ** Sums over rows *)

Definition sum_of {A} (f : A → Z) (l : list A) : Z := foldr (λ a n, f a + n) 0 l.
Definition b2z (b : bool) : Z := if b then 1 else 0.

Section sums.
Context {A : Type}.
Implicit Types (f g : A → Z) (l : list A).

Lemma sum_of_app f l l' : sum_of f (l ++ l') = sum_of f l + sum_of f l'.
Proof. induction l as [|x l IH]; simpl; lia. Qed.

Lemma sum_of_ext f g l : (∀ x, x ∈ l → f x = g x) → sum_of f l = sum_of g l.
Proof.
  induction l as [|x l IH]; [done|]. intros Hfg. simpl. rewrite IH; [|set_solver].
  by rewrite (Hfg x); [|set_solver].
Qed.

Lemma sum_of_fmap {B} (h : B → A) f (l : list B) : sum_of f (h <$> l) = sum_of (f ∘ h) l.
Proof. induction l as [|x l IH]; simpl; [done|]. by rewrite IH. Qed.

Lemma sum_of_len l : sum_of (λ _, 1) l = len l.
Proof. rewrite /len. induction l as [|x l IH]; simpl; [done|]. lia. Qed.

Lemma sum_of_add f g l : sum_of (λ x, f x + g x) l = sum_of f l + sum_of g l.
Proof. induction l as [|x l IH]; simpl; lia. Qed.

Lemma sum_of_le f g l : (∀ x, f x <= g x) → sum_of f l <= sum_of g l.
Proof. intros Hfg. induction l as [|x l IH]; simpl; [done|]. specialize (Hfg x). lia. Qed.

Lemma sum_of_perm f l l' : l ≡ₚ l' → sum_of f l = sum_of f l'.
Proof. induction 1; simpl; lia. Qed.

Lemma sum_of_zero l : sum_of (λ _ : A, 0) l = 0.
Proof. induction l; simpl; done. Qed.
End sums.

Lemma filter_of_fmap {A B} (f : A → B) (Q : B → Prop) `{∀ x, Decision (Q x)} (l : list A) :
  filter Q (f <$> l) = f <$> filter (λ a, Q (f a)) l.
Proof. induction l as [|a l IH]; [done|]. rewrite fmap_cons !filter_cons IH. by case_decide. Qed.

(** ** [GROUP BY] *)

(** One group per value of the key, each with its rows.  The order of the
    groups is the engine's; nothing below speaks of it. *)
Definition group_by {A K} `{EqDecision K} (key : A → K) (l : list A) : list (K * list A) :=
  (λ k, (k, filter (λ a, key a = k) l)) <$> remove_dups (key <$> l).

Section groups.
Context {A K : Type} `{EqDecision K} (key : A → K).
Implicit Types (l : list A) (k : K).

Lemma elem_of_group_by l k rows :
  (k, rows) ∈ group_by key l ↔ rows = filter (λ a, key a = k) l ∧ ∃ a, a ∈ l ∧ key a = k.
Proof.
  rewrite /group_by list_elem_of_fmap. split.
  - intros (k' & [= -> ->] & Hk). apply elem_of_remove_dups, list_elem_of_fmap in Hk as (a & -> & Ha).
    by eauto.
  - intros (-> & a & Ha & <-). exists (key a). split; [done|].
    apply elem_of_remove_dups, list_elem_of_fmap. by eauto.
Qed.

Lemma group_by_keys l : NoDup (group_by key l).*1.
Proof.
  rewrite /group_by -list_fmap_compose. erewrite (list_fmap_ext _ id);
    [rewrite list_fmap_id; apply NoDup_remove_dups|done].
Qed.

Lemma group_by_nil l : group_by key l = [] ↔ l = [].
Proof.
  split; [|by intros ->]. destruct l as [|a l]; [done|]. intros Hg. exfalso.
  assert ((key a, filter (λ x, key x = key a) (a :: l)) ∈ group_by key (a :: l)) as Hin.
  { apply elem_of_group_by. split; [done|]. exists a. set_solver. }
  rewrite Hg in Hin. set_solver.
Qed.

(** The parts of a sum over keys add up to the sum over the rows. *)
Lemma sum_indicator (k : K) (ks : list K) (n : Z) : NoDup ks → k ∈ ks →
  sum_of (λ k', if decide (k = k') then n else 0) ks = n.
Proof.
  induction 1 as [|k' ks Hn Hd IH]; [set_solver|]. simpl. intros [->|Hk]%elem_of_cons.
  - rewrite decide_True //. rewrite (sum_of_ext _ (λ _, 0)); [rewrite sum_of_zero; lia|].
    intros k'' Hk''. rewrite decide_False //. by intros ->.
  - rewrite decide_False; [|by intros ->]. rewrite IH //.
Qed.

Lemma sum_by_key (w : A → Z) (ks : list K) l : NoDup ks → (∀ a, a ∈ l → key a ∈ ks) →
  sum_of (λ k, sum_of w (filter (λ a, key a = k) l)) ks = sum_of w l.
Proof.
  intros Hd. induction l as [|a l IH]; intros Hk; simpl.
  { apply sum_of_zero. }
  rewrite (sum_of_ext _ (λ k, (if decide (key a = k) then w a else 0) +
    sum_of w (filter (λ a, key a = k) l))).
  - rewrite sum_of_add sum_indicator //; [|apply Hk; set_solver]. rewrite IH //. set_solver.
  - intros k _. rewrite filter_cons. case_decide; simpl; lia.
Qed.

Lemma sum_by_row {B} (kf : B → K) (w : A → Z) (rows : list B) l :
  NoDup (kf <$> rows) → (∀ a, a ∈ l → key a ∈ kf <$> rows) →
  sum_of (λ r, sum_of w (filter (λ a, key a = kf r) l)) rows = sum_of w l.
Proof.
  intros Hd Hk. rewrite -(sum_by_key w (kf <$> rows) l Hd Hk). by rewrite sum_of_fmap.
Qed.

Lemma group_by_sum (w : A → Z) l :
  sum_of (λ g, sum_of w g.2) (group_by key l) = sum_of w l.
Proof.
  rewrite /group_by sum_of_fmap /compose /=. apply sum_by_key; [apply NoDup_remove_dups|].
  intros a Ha. apply elem_of_remove_dups, list_elem_of_fmap. by eauto.
Qed.
End groups.

Lemma group_by_sum_where {A K} `{EqDecision K} (key : A → K) (Q : K → Prop)
    `{∀ k, Decision (Q k)} (w : A → Z) (l : list A) :
  sum_of (λ g, sum_of w g.2) (filter (λ g, Q g.1) (group_by key l)) =
  sum_of w (filter (λ a, Q (key a)) l).
Proof.
  rewrite (sum_of_ext _ (λ g, sum_of w (filter (λ a, key a = g.1) (filter (λ a, Q (key a)) l)))).
  - apply (sum_by_row key fst).
    + eapply sublist_NoDup; [apply (group_by_keys key l)|]. apply fmap_sublist_of, sublist_filter.
    + intros a [HQ Ha]%list_elem_of_filter. apply list_elem_of_fmap.
      exists (key a, filter (λ x, key x = key a) l). split; [done|]. apply list_elem_of_filter.
      split; [done|]. apply elem_of_group_by. eauto.
  - intros [k rows] [HQ [-> _]%elem_of_group_by]%list_elem_of_filter. simpl in *. f_equal.
    rewrite list_filter_filter. apply filter_ext_elem. intros a _. split; [|tauto]. by intros ->.
Qed.

(** ** Folding *)

(** [max(day) + timedelta(days=1)] over the folded rows, if there is one. *)
Definition first_unfolded_day (days : list Z) : option Z :=
  match days with
  | [] => None
  | d :: ds => Some (foldr Z.max d ds + DAY)
  end.

Lemma first_unfolded_day_None days : first_unfolded_day days = None ↔ days = [].
Proof. by destruct days. Qed.

Lemma first_unfolded_day_Some days s : first_unfolded_day days = Some s →
  (∀ d, d ∈ days → d + DAY <= s) ∧ ∃ d, d ∈ days ∧ s = d + DAY.
Proof.
  destruct days as [|d ds]; [done|]. intros [= <-]. split.
  - intros x Hx. apply Z.add_le_mono_r. induction ds as [|y ds IH]; simpl; [set_solver|].
    apply elem_of_cons in Hx as [->|[->|Hx]%elem_of_cons]; [| lia |].
    + specialize (IH ltac:(set_solver)). lia.
    + specialize (IH ltac:(set_solver)). lia.
  - exists (foldr Z.max d ds). split; [|done]. induction ds as [|y ds IH]; simpl; [set_solver|].
    destruct (Z.max_spec y (foldr Z.max d ds)) as [[_ ->]|[_ ->]]; set_solver.
Qed.

Section folding.
Context {A K V : Type} `{EqDecision K} (key : A → K) (at_ : A → Z) (tally : list A → V).
Implicit Types (log raw : list A) (days : list (K * Z * V)) (k : K) (m : Z) (a : A).

(** The raw rows a fold takes, and the rows it adds. *)
Definition to_fold (since : option Z) (before : Z) raw : list A :=
  let rows := filter (λ a, at_ a < before) raw in
  match since with
  | None => rows
  | Some s => filter (λ a, s <= at_ a) rows
  end.
Definition fold_rows raw : list (K * Z * V) :=
  (λ '((k, i), rows), ((k, day_at i), tally rows)) <$>
    group_by (λ a, (key a, day_index (at_ a))) raw.

Definition on_day k m a : Prop := key a = k ∧ midnight (at_ a) = m.
#[global] Instance on_day_dec k m a : Decision (on_day k m a).
Proof. apply _. Defined.

(** The log up to [F] is in the folded rows, from [S] on in the raw ones. *)
Record Folded log raw days (S F : Z) : Prop := MkFolded {
  fd_raw : raw = filter (λ a, S <= at_ a) log;
  fd_order : S <= F;
  fd_aligned : (DAY | F);
  fd_past : ∀ a, a ∈ log → 0 <= at_ a;
  fd_days : ∀ k m v, (k, m, v) ∈ days ↔
    m < F ∧ (∃ a, a ∈ log ∧ on_day k m a) ∧ v = tally (filter (on_day k m) log);
  fd_unique : NoDup days.*1;
}.

Lemma folded_init : Folded [] [] [] 0 0.
Proof.
  split; [done|done|by exists 0|set_solver| |constructor].
  intros k m v. split; [set_solver|]. intros (_ & (a & Ha & _) & _). set_solver.
Qed.

Lemma on_day_before k m a F : (DAY | F) → on_day k m a → m < F ↔ at_ a < F.
Proof. intros HF [_ <-]. by apply midnight_before. Qed.

(** Rows from [F] on leave the days before it alone. *)
Lemma filter_on_day_later k m F log new : (DAY | F) → m < F →
  (∀ a, a ∈ new → F <= at_ a) → filter (on_day k m) (log ++ new) = filter (on_day k m) log.
Proof.
  intros HF Hm Hnew. rewrite list.filter_app (filter_none _ new) ?app_nil_r //.
  intros a Ha Hon. apply (on_day_before k m a F HF Hon) in Hm. specialize (Hnew a Ha). lia.
Qed.

Lemma folded_record log raw days S F a : Folded log raw days S F → F <= at_ a → 0 <= at_ a →
  Folded (log ++ [a]) (raw ++ [a]) days S F.
Proof.
  intros [Hr Ho Hal Hp Hd Hu] HF H0. split; [|done..| | |done].
  - rewrite list.filter_app -Hr filter_cons decide_True //. lia.
  - intros b [Hb| ->%list_elem_of_singleton]%elem_of_app; [by apply Hp|done].
  - intros k m v. rewrite Hd. split; intros (Hm & (b & Hb & Hon) & Hv); (split; [done|]).
    + rewrite (filter_on_day_later k m F) //; [|set_solver]. split; [exists b; set_solver|done].
    + rewrite (filter_on_day_later k m F) // in Hv; [|set_solver]. split; [|done].
      apply elem_of_app in Hb as [Hb| ->%list_elem_of_singleton]; [by exists b|].
      apply (on_day_before k m a F Hal Hon) in Hm. lia.
Qed.

(** Deleting keys ([ON DELETE CASCADE]). *)
Lemma folded_keep (Q : K → Prop) `{∀ k, Decision (Q k)} log raw days S F :
  Folded log raw days S F →
  Folded (filter (λ a, Q (key a)) log) (filter (λ a, Q (key a)) raw)
    (filter (λ r, Q r.1.1) days) S F.
Proof.
  intros [Hr Ho Hal Hp Hd Hu]. split; [|done..| | |].
  - rewrite Hr !list_filter_filter. apply filter_ext_elem. tauto.
  - intros a [_ Ha]%list_elem_of_filter. by apply Hp.
  - assert (∀ k m, Q k → filter (on_day k m) (filter (λ a, Q (key a)) log) = filter (on_day k m) log)
      as Hsame.
    { intros k m HQ. rewrite list_filter_filter. apply filter_ext_elem. intros a _.
      split; [tauto|]. intros Hon. split; [done|]. by destruct Hon as [-> _]. }
    intros k m v. rewrite list_elem_of_filter Hd /=. split.
    + intros (HQ & Hm & (a & Ha & Hon) & ->). split; [done|]. rewrite Hsame //. split; [|done].
      exists a. split; [|done]. apply list_elem_of_filter. split; [|done]. by destruct Hon as [-> _].
    + intros (Hm & (a & [HQ Ha]%list_elem_of_filter & Hon) & Hv).
      assert (Q k) as HQk by (by destruct Hon as [<- _]). rewrite Hsame // in Hv.
      split_and!; [done..|by exists a|done].
  - eapply sublist_NoDup; [exact Hu|]. apply fmap_sublist_of, sublist_filter.
Qed.

Lemma folded_sweep log raw days S F cutoff : Folded log raw days S F → cutoff <= F →
  Folded log (filter (λ a, ¬ at_ a < cutoff) raw) days (Z.max S cutoff) F.
Proof.
  intros [Hr Ho Hal Hp Hd Hu] Hc. split; [|lia|done..].
  rewrite Hr list_filter_filter. apply filter_ext_elem. lia.
Qed.

Lemma day_at_inj i j : day_at i = day_at j → i = j.
Proof. rewrite /day_at /DAY_SECONDS /SECOND. lia. Qed.

Lemma day_at_divide i : (DAY | day_at i).
Proof. exists i. rewrite /day_at day_seconds. lia. Qed.

Lemma grouped_on_day k i a : 0 <= at_ a →
  (key a, day_index (at_ a)) = (k, i) ↔ on_day k (day_at i) a.
Proof.
  intros Ha. rewrite /on_day -day_at_index //. split; [by intros [= -> ->]|].
  intros [-> Hi]. by apply day_at_inj in Hi as ->.
Qed.

Lemma elem_of_fold_rows rows k m v : (∀ a, a ∈ rows → 0 <= at_ a) →
  (k, m, v) ∈ fold_rows rows ↔
  (∃ a, a ∈ rows ∧ on_day k m a) ∧ v = tally (filter (on_day k m) rows).
Proof.
  intros Hp. rewrite /fold_rows list_elem_of_fmap.
  assert (∀ i, filter (λ a, (key a, day_index (at_ a)) = (k, i)) rows =
               filter (on_day k (day_at i)) rows) as Hf.
  { intros i. apply filter_ext_elem. intros a Ha. by apply grouped_on_day, Hp. }
  split.
  - intros ([[k' i] g] & [= <- -> ->] & (-> & a & Ha & Hk)%elem_of_group_by). rewrite Hf. split; [|done].
    exists a. split; [done|]. by apply grouped_on_day; [apply Hp|].
  - intros [(a & Ha & Hon) ->]. exists (k, day_index (at_ a), filter (on_day k m) rows).
    assert (m = day_at (day_index (at_ a))) as -> by (rewrite day_at_index; [|by apply Hp]; by destruct Hon).
    split; [done|]. apply elem_of_group_by. rewrite Hf. split; [done|]. exists a. split; [done|].
    by apply grouped_on_day; [apply Hp|].
Qed.

Lemma fold_rows_unique rows : NoDup (fold_rows rows).*1.
Proof.
  rewrite /fold_rows -list_fmap_compose.
  rewrite (list_fmap_ext _ ((λ '(k, i), (k, day_at i)) ∘ fst)); [|by intros ? [[k i] g]].
  rewrite list_fmap_compose. apply (NoDup_fmap_2_strong _); [|apply group_by_keys].
  intros [k i] [k' j] _ _ [= -> Hij]. by apply day_at_inj in Hij as ->.
Qed.

(** The rows taken are those of the log between the two horizons: a day
    before [F] that has rows has been folded. *)
Lemma to_fold_log log raw days S F before : Folded log raw days S F → F <= before →
  to_fold (first_unfolded_day (snd <$> days.*1)) before raw =
  filter (λ a, F <= at_ a ∧ at_ a < before) log.
Proof.
  intros [Hr Ho Hal Hp Hd Hu] Hb.
  assert (∀ a, a ∈ log → at_ a < F → midnight (at_ a) ∈ (snd <$> days.*1)) as Hrow.
  { intros a Ha Hlt. apply list_elem_of_fmap. exists (key a, midnight (at_ a)). split; [done|].
    apply list_elem_of_fmap. eexists (_, _, _). split; [done|]. apply Hd. split; [by apply midnight_before|].
    split; [by exists a|reflexivity]. }
  assert (∀ m, m ∈ (snd <$> days.*1) → m + DAY <= F) as Hrows.
  { intros m ([k m'] & -> & ([[? ?] v] & [= -> ->] & (Hm & (a & _ & _ & <-) & _)%Hd)%list_elem_of_fmap)%list_elem_of_fmap.
    simpl. destruct Hal as [q ->]. destruct (midnight_divide (at_ a)) as [p Hpq]. rewrite Hpq in Hm |- *.
    assert (p < q) by (by apply (Z.mul_lt_mono_pos_r DAY)).
    assert ((p + 1) * DAY <= q * DAY) by (apply Z.mul_le_mono_nonneg_r; [done|lia]). lia. }
  rewrite /to_fold Hr. destruct (first_unfolded_day _) as [s|] eqn:Hs.
  - apply first_unfolded_day_Some in Hs as [Hge (d & Hin & ->)]. specialize (Hrows d Hin).
    rewrite !list_filter_filter. apply filter_ext_elem. intros a Ha. split; [|lia].
    intros Hc. destruct (decide (F <= at_ a)) as [|HF]; [lia|].
    specialize (Hge _ (Hrow a Ha ltac:(lia))). pose proof (midnight_bounds (at_ a)). lia.
  - apply first_unfolded_day_None in Hs. rewrite !list_filter_filter. apply filter_ext_elem.
    intros a Ha. split; [|lia]. intros Hc.
    destruct (decide (F <= at_ a)) as [|HF]; [lia|]. specialize (Hrow a Ha ltac:(lia)).
    rewrite Hs in Hrow. set_solver.
Qed.

Lemma folded_fold log raw days S F before : Folded log raw days S F → F <= before → (DAY | before) →
  Folded log raw (days ++ fold_rows (to_fold (first_unfolded_day (snd <$> days.*1)) before raw)) S before.
Proof.
  intros HF Hb Hal'. rewrite (to_fold_log _ _ _ _ _ _ HF Hb). destruct HF as [Hr Ho Hal Hp Hd Hu].
  set (new := filter _ log).
  assert (∀ a, a ∈ new → 0 <= at_ a) as Hn by (intros a [_ Ha]%list_elem_of_filter; by apply Hp).
  assert (∀ k m, F <= m < before → filter (on_day k m) new = filter (on_day k m) log) as Hsame.
  { intros k m Hm. rewrite /new list_filter_filter. apply filter_ext_elem. intros a Ha. split; [tauto|].
    intros Hon. split; [done|]. pose proof (on_day_before k m a F Hal Hon).
    pose proof (on_day_before k m a before Hal' Hon). lia. }
  assert (∀ k m a, a ∈ new → on_day k m a → F <= m < before) as Hday.
  { intros k m a [[Hge Hlt] Ha]%list_elem_of_filter Hon. pose proof (on_day_before k m a F Hal Hon).
    pose proof (on_day_before k m a before Hal' Hon). lia. }
  split; [done|lia|done|done| |].
  - intros k m v. rewrite elem_of_app Hd elem_of_fold_rows //. split.
    + intros [(Hm & Ha & ->)|((a & Ha & Hon) & ->)]; [split_and!; [lia|done..]|].
      pose proof (Hday k m a Ha Hon) as Hm. rewrite Hsame //. split_and!; [lia| |done].
      apply list_elem_of_filter in Ha as [_ Ha]. by exists a.
    + intros (Hm & (a & Ha & Hon) & ->). destruct (decide (m < F)) as [Hlt|Hge].
      * left. split_and!; [done|by exists a|done].
      * right. rewrite Hsame; [|lia]. split; [|done]. exists a. split; [|done].
        apply list_elem_of_filter. split; [|done]. pose proof (on_day_before k m a F Hal Hon).
        pose proof (on_day_before k m a before Hal' Hon). lia.
  - rewrite fmap_app. apply list.NoDup_app. split_and!; [done| |apply fold_rows_unique].
    intros [k m] ([[? ?] v] & [= <- <-] & (Hm & _)%Hd)%list_elem_of_fmap.
    intros ([[? ?] v'] & [= <- <-] & ((a & Ha & Hon) & _)%elem_of_fold_rows)%list_elem_of_fmap; [|done].
    specialize (Hday _ _ _ Ha Hon). lia.
Qed.

(** ** Reading *)

(** Where a day has folded rows of the keys asked for, they add up to the
    log; where it has none, the raw rows are the log. *)
Lemma folded_read (Q : K → Prop) `{∀ k, Decision (Q k)} (w : A → Z) (get : V → Z) log raw days S F m :
  Folded log raw days S F → (∀ rows, get (tally rows) = sum_of w rows) → (DAY | m) →
  let of_log := sum_of w (filter (λ a, Q (key a) ∧ midnight (at_ a) = m) log) in
  let rows := filter (λ r, Q r.1.1 ∧ r.1.2 = m) days in
  (rows ≠ [] → sum_of (λ r, get r.2) rows = of_log) ∧
  (rows = [] → sum_of w (filter (λ a, Q (key a) ∧ midnight (at_ a) = m) raw) = of_log).
Proof.
  intros [Hr Ho Hal Hp Hd Hu] Hget Hm of_log rows. split.
  - intros Hne. assert (m < F) as HmF.
    { destruct rows as [|[[k m'] v] rs] eqn:E; [done|].
      assert ((k, m', v) ∈ rows) as ([_ Heq] & (Hlt & _)%Hd)%list_elem_of_filter by (rewrite E; set_solver).
      simpl in Heq. by subst. }
    assert (∀ r, r ∈ rows → get r.2 = sum_of w (filter (λ a, key a = r.1.1)
      (filter (λ a, Q (key a) ∧ midnight (at_ a) = m) log))) as Heach.
    { intros [[k m'] v] [[HQ Hm'] (_ & _ & ->)%Hd]%list_elem_of_filter. simpl in *. subst m'.
      rewrite Hget list_filter_filter. f_equal. apply filter_ext_elem. intros a _. rewrite /on_day.
      split; [|tauto]. by intros [-> ->]. }
    rewrite (sum_of_ext _ _ _ Heach). apply (sum_by_row key (λ r : K * Z * V, r.1.1)).
    + assert (∀ r, r ∈ rows → r.1.2 = m) as Hall by (by intros r [[_ ?] _]%list_elem_of_filter).
      apply (NoDup_fmap_1 (λ k, (k, m))). rewrite -list_fmap_compose.
      rewrite (list_fmap_ext _ fst); last first.
      { intros i r Hin. simpl. rewrite -(Hall r); [by destruct r as [[]]|by eapply list_elem_of_lookup_2]. }
      eapply sublist_NoDup; [exact Hu|]. apply fmap_sublist_of, sublist_filter.
    + intros a [[HQ Hon] Ha]%list_elem_of_filter. apply list_elem_of_fmap.
      exists (key a, m, tally (filter (on_day (key a) m) log)). split; [done|].
      apply list_elem_of_filter. split; [done|]. apply Hd. split; [done|]. split; [by exists a|done].
  - intros Hnone. rewrite Hr list_filter_filter /of_log. f_equal. apply filter_ext_elem.
    intros a Ha. split; [tauto|]. intros [HQ Hon]. split; [done|].
    destruct (decide (m < F)) as [Hlt|Hge]; last first.
    { pose proof (midnight_bounds (at_ a)). lia. }
    exfalso. assert ((key a, m, tally (filter (on_day (key a) m) log)) ∈ rows) as Hin.
    { apply list_elem_of_filter. split; [done|]. apply Hd. split; [done|]. split; [by exists a|done]. }
    rewrite Hnone in Hin. set_solver.
Qed.
End folding.
