(* ===== verification/Visits.v ===== *)
(** * Visit statistics

    [infrastructure/database/repositories/sqlalchemy_link_visit_repository.py],
    [application/use_cases/stats/get_visit_stats.py] and
    [application/use_cases/admin/links/roll_up_visits.py]: the chart of a
    period, the daily series, and the nightly task that folds finished days
    into one row per link and day and sweeps the raw visits past their
    retention.  Storing a visit is [Links.add_visit]. *)

From S2P Require Import Prelude PyStr Exceptions ValueObjects Entities Database LinkRepo RollUp.

(** ** What is answered: [link_visit.py] *)

Record VisitBucket := MkVisitBucket { vb_at : Z; vb_total : Z; vb_bots : Z }.
Record VisitBreakdown := MkVisitBreakdown { br_label : pystr; br_total : Z }.
Record VisitSummary := MkVisitSummary {
  vs_since : Z;
  vs_until : Z;
  vs_total : Z;
  vs_bots : Z;
  vs_buckets : list VisitBucket;
  vs_devices : list VisitBreakdown;
  vs_browsers : list VisitBreakdown;
  vs_top_links : list VisitBreakdown;
}.

(** [(count(id), sum(is_bot))] of a group. *)
Definition tally (rows : list LinkVisit) : Z * Z :=
  (len rows, sum_of (λ v, b2z (lv_is_bot v)) rows).

(** ** Queries *)

Section queries.
Context (d : Database).

(** [LinkVisitModel.occurred_at >= since, < until]. *)
Definition within (since until : Z) (rows : list LinkVisit) : list LinkVisit :=
  filter (λ v, lv_occurred_at v < until) (filter (λ v, since <= lv_occurred_at v) rows).

(** [join(LinkModel, LinkModel.id == ...).where(owner_id == ...)]: one copy of
    the row per link it meets. *)
Definition owned_by (owner link_id_ : pystr) (l : Link) : Prop :=
  link_id l = link_id_ ∧ (oid_value <$> link_owner l) = Some owner.
#[global] Instance owned_by_dec owner i l : Decision (owned_by owner i l).
Proof. unfold owned_by. apply _. Defined.

Definition join_owner {A} (link_of : A → pystr) (owner_id : option pystr) (rows : list A) : list A :=
  match owner_id with
  | None => rows
  | Some o => rows ≫= λ r, (λ _, r) <$> filter (owned_by o (link_of r)) (urls d)
  end.

(** [_scoped]. *)
Definition scoped {A} (link_of : A → pystr) (link_id_ owner_id : option pystr) (rows : list A)
    : list A :=
  join_owner link_of owner_id
    (match link_id_ with None => rows | Some i => filter (λ r, link_of r = i) rows end).

Definition bucket_counts (since until width : Z) (link_id_ owner_id : option pystr)
    : list (Z * (Z * Z)) :=
  (λ '(i, rows), (i, tally rows)) <$>
    group_by (λ v, bucket_index since width (lv_occurred_at v))
      (scoped lv_link_id link_id_ owner_id (within since until (link_visits d))).

(** [_clamped]: counts outside the chart go to its nearest end. *)
Definition clamp (buckets index : Z) : Z := Z.min (Z.max index 0) (buckets - 1).
Definition clamped (counted : list (Z * (Z * Z))) (buckets : Z) : gmap Z (Z * Z) :=
  foldl (λ folded '(index, (total, bots)),
    let slot := clamp buckets index in
    let seen := default (0, 0) (folded !! slot) in
    <[slot := (seen.1 + total, seen.2 + bots)]> folded) ∅ counted.

(** [order_by(func.count(...).desc())]. *)
Definition more_visited (a b : VisitBreakdown) : Prop := br_total b <= br_total a.
#[global] Instance more_visited_dec a b : Decision (more_visited a b).
Proof. unfold more_visited. apply _. Defined.

Definition breakdown (column : LinkVisit → pystr) (since until : Z)
    (link_id_ owner_id : option pystr) : list VisitBreakdown :=
  merge_sort more_visited
    ((λ '(label, rows),
        MkVisitBreakdown (match label with [] => lit "unknown" | _ => label end) (len rows)) <$>
      group_by column (scoped lv_link_id link_id_ owner_id (within since until (link_visits d)))).

(** [_top_links]: the visits joined to their links, by code. *)
Definition visits_with_links : list (LinkVisit * Link) :=
  link_visits d ≫= λ v, (λ l, (v, l)) <$> filter (λ l, link_id l = lv_link_id v) (urls d).

Definition top_links (since until : Z) (link_id_ owner_id : option pystr) : list VisitBreakdown :=
  let rows := filter (λ r, since <= lv_occurred_at r.1 ∧ lv_occurred_at r.1 < until)
                visits_with_links in
  let rows := match link_id_ with
              | None => rows
              | Some i => filter (λ r, lv_link_id r.1 = i) rows end in
  let rows := match owner_id with
              | None => rows
              | Some o => filter (λ r, (oid_value <$> link_owner r.2) = Some o) rows end in
  take 10 (merge_sort more_visited
    ((λ '(code, rows), MkVisitBreakdown code (len rows)) <$>
      group_by (λ r, sc_value (link_short_code r.2)) rows)).

(** One point per interval of a chart, filled from a count by index. *)
Definition series (at_ : Z → Z) (seen : Z → Z → Z * Z) (buckets : Z) : list VisitBucket :=
  (λ i, let at_i := at_ (Z.of_nat i) in
        let '(total, bots) := seen (Z.of_nat i) at_i in MkVisitBucket at_i total bots) <$>
    seq 0 (Z.to_nat buckets).

Definition summary (since until buckets : Z) (link_id_ owner_id : option pystr) : VisitSummary :=
  let buckets := Z.max 1 buckets in
  let span := Z.max 1 (whole_seconds (until - since)) in
  let width := Z.max 1 (span / buckets) in
  let counted := clamped (bucket_counts since until width link_id_ owner_id) buckets in
  let points := series (λ i, since + i * width * SECOND)
                  (λ i _, default (0, 0) (counted !! i)) buckets in
  MkVisitSummary since until (sum_of vb_total points) (sum_of vb_bots points) points
    (breakdown lv_device since until link_id_ owner_id)
    (breakdown lv_browser since until link_id_ owner_id)
    (top_links since until link_id_ owner_id).

(** [_rolled_totals]: the folded rows of each day, added up. *)
Definition rolled_totals (since until : Z) (link_id_ owner_id : option pystr)
    : list (Z * (Z * Z)) :=
  (λ '(day, rows), (day, (sum_of vd_total rows, sum_of vd_bots rows))) <$>
    group_by vd_day
      (scoped vd_link_id link_id_ owner_id
         (filter (λ r, vd_day r < until) (filter (λ r, since <= vd_day r) (link_visit_days d)))).

Definition at_day (day : Z) (rolled : list (Z * (Z * Z))) : option (Z * Z) :=
  snd <$> first (filter (λ r, r.1 = day) rolled).

(** [math.ceil(seconds / DAY)]. *)
Definition ceil_days (t : Z) : Z := - (- t / DAY).

Definition daily_totals (since until : Z) (link_id_ owner_id : option pystr) : list VisitBucket :=
  let start := midnight since in
  let days := Z.max 1 (ceil_days (until - start)) in
  let rolled := rolled_totals start until link_id_ owner_id in
  let raw := clamped (bucket_counts start until DAY_SECONDS link_id_ owner_id) days in
  series (λ i, start + i * DAY)
    (λ i at_i, match at_day at_i rolled with
               | Some seen => seen
               | None => default (0, 0) (raw !! i)
               end) days.

(** [rolled_days]: the folded rows of one link, in order. *)
Definition earlier_day (a b : VisitsOnADay) : Prop := vd_day a <= vd_day b.
#[global] Instance earlier_day_dec a b : Decision (earlier_day a b).
Proof. unfold earlier_day. apply _. Defined.

Definition rolled_days (i : pystr) (since until : Z) : list VisitsOnADay :=
  merge_sort earlier_day
    (filter (λ r, vd_link_id r = i ∧ since <= vd_day r ∧ vd_day r < until) (link_visit_days d)).
End queries.

(** ** The nightly task *)

(** A folded row as the shared scheme has it. *)
Definition day_row (r : VisitsOnADay) : pystr * Z * (Z * Z) :=
  ((vd_link_id r, vd_day r), (vd_total r, vd_bots r)).
Definition of_day_row (r : pystr * Z * (Z * Z)) : VisitsOnADay :=
  MkVisitsOnADay r.1.1 r.1.2 r.2.1 r.2.2.

(** [add_all]: each row is refused by the primary key and the foreign key. *)
Fixpoint add_days (rows : list VisitsOnADay) (d : Database) : result exn Database :=
  match rows with
  | [] => Ok d
  | r :: rows =>
      if decide (Exists (λ r', (day_row r').1 = (day_row r).1) (link_visit_days d))
      then Err (PyError IntegrityError)
      else if decide (vd_link_id r ∈ (link_id <$> urls d))
      then add_days rows (set_link_visit_days (link_visit_days d ++ [r]) d)
      else Err (PyError IntegrityError)
  end.

Definition roll_up_days (before : Z) (d : Database) : result exn (Z * Database) :=
  let since := first_unfolded_day (vd_day <$> link_visit_days d) in
  let rows := of_day_row <$>
    fold_rows lv_link_id lv_occurred_at tally
      (to_fold lv_occurred_at since before (link_visits d)) in
  match rows with
  | [] => Ok (0, d)
  | _ => add_days rows d ≫= λ d', Ok (len rows, d')
  end.

Definition delete_raw_before (cutoff : Z) (d : Database) : result exn (Z * Database) :=
  Ok (Z.of_nat (count_where (λ v, lv_occurred_at v < cutoff) (link_visits d)),
      set_link_visits (delete_where (λ v, lv_occurred_at v < cutoff) (link_visits d)) d).

Section use_cases.
Context {C : Type}.
Abbreviation P := (M (World C) exn).

(** [RollUpVisitsUseCase.execute]. *)
Definition roll_up_visits (retention_days : Z) : P (Z * Z) :=
  moment ← now_utc;
  let today := midnight moment in
  folded ← with_uow (n ← update (roll_up_days today); commit;; mret n);
  swept ← (if 0 <? retention_days
           then let cutoff := today - retention_days * DAY in
                with_uow (n ← update (delete_raw_before cutoff); commit;; mret n)
           else mret 0);
  mret (folded, swept).

(** [GetVisitStatsUseCase.execute] and [daily]. *)
Definition get_visit_stats (period : pystr) (link_id_ owner_id : option pystr) : P VisitSummary :=
  match period_of period with
  | None => raise (DomainError (lit "Unknown period '%(period)s'. Choose one of: %(choices)s")
              (lit "VALIDATION_ERROR"))
  | Some (span, buckets) =>
      now ← now_utc;
      let '(since, until) := span_of now span buckets in
      with_uow (read (λ d, summary d since until buckets link_id_ owner_id))
  end.

Definition daily (days : Z) (link_id_ owner_id : option pystr) : P (list VisitBucket) :=
  if (1 <=? days) && (days <=? 730) then
    moment ← now_utc;
    let tomorrow := midnight moment + DAY in
    let since := tomorrow - days * DAY in
    with_uow (read (λ d, daily_totals d since tomorrow link_id_ owner_id))
  else raise (DomainError (lit "days must be between 1 and 730, got %(days)s") (lit "VALIDATION_ERROR")).
End use_cases.
