(* ===== verification/VisitTheorems.v ===== *)
(** * What the visit statistics show

    A chart counts every visit of its window once, however it is cut
    ([summary_rows]); the nightly task keeps the two tables a faithful record
    of the log of visits ([VisitInv]), so the daily series reads the log
    whatever has been folded or swept ([daily_reads_the_log]). *)

From S2P Require Import Prelude PyStr Exceptions ValueObjects Entities Database LinkRepo RollUp Visits.

(** ** Scope *)

(** The visits a reader asked for: one link's, one owner's, or everybody's. *)
Definition visible (d : Database) (link_id_ owner_id : option pystr) (i : pystr) : Prop :=
  (match link_id_ with None => True | Some j => i = j end) ∧
  (match owner_id with None => True | Some o => Exists (owned_by o i) (urls d) end).
#[global] Instance visible_dec d link_id_ owner_id i : Decision (visible d link_id_ owner_id i).
Proof. unfold visible. destruct link_id_, owner_id; apply _. Defined.

Lemma owned_unique d o i : NoDup (link_id <$> urls d) →
  filter (owned_by o i) (urls d) = [] ∨ ∃ l, filter (owned_by o i) (urls d) = [l].
Proof.
  intros Hnd. destruct (filter (owned_by o i) (urls d)) as [|l ls] eqn:E; [by left|right].
  exists l. f_equal. destruct ls as [|l' ls]; [done|exfalso].
  assert (NoDup (link_id <$> filter (owned_by o i) (urls d))) as Hf.
  { eapply sublist_NoDup; [exact Hnd|]. apply fmap_sublist_of, sublist_filter. }
  assert (∀ x, x ∈ filter (owned_by o i) (urls d) → link_id x = i) as Hi.
  { by intros x [[? _] _]%list_elem_of_filter. }
  rewrite E in Hf, Hi. simpl in Hf. apply list.NoDup_cons in Hf as [Hn _]. apply Hn.
  rewrite (Hi l); [|left]. rewrite (Hi l'); [left|right; left].
Qed.

Lemma join_owner_filter {A} (link_of : A → pystr) d o rows : NoDup (link_id <$> urls d) →
  join_owner d link_of (Some o) rows = filter (λ r, Exists (owned_by o (link_of r)) (urls d)) rows.
Proof.
  intros Hnd. rewrite /join_owner. induction rows as [|r rows IH]; [done|].
  rewrite bind_cons IH filter_cons.
  destruct (owned_unique d o (link_of r) Hnd) as [E|[l E]]; rewrite E.
  - rewrite decide_False //. intros (l & Hl & Hp)%Exists_elem.
    assert (l ∈ filter (owned_by o (link_of r)) (urls d)) as Hin by (by apply list_elem_of_filter).
    rewrite E in Hin. set_solver.
  - rewrite decide_True //. apply Exists_elem. exists l.
    assert (l ∈ filter (owned_by o (link_of r)) (urls d)) as Hin by (rewrite E; set_solver).
    by apply list_elem_of_filter in Hin as [? ?].
Qed.

(** With unique link ids the joins are selections. *)
Lemma scoped_filter {A} (link_of : A → pystr) d link_id_ owner_id rows :
  NoDup (link_id <$> urls d) →
  scoped d link_of link_id_ owner_id rows = filter (λ r, visible d link_id_ owner_id (link_of r)) rows.
Proof.
  intros Hnd. rewrite /scoped /visible. destruct owner_id as [o|].
  - rewrite join_owner_filter //. destruct link_id_ as [i|]; rewrite ?list_filter_filter;
      apply filter_ext_elem; tauto.
  - rewrite /join_owner. destruct link_id_ as [i|]; [apply filter_ext_elem; tauto|].
    symmetry. by apply filter_all.
Qed.

(** ** Counts by index *)

Lemma clamp_range n i : 0 < n → 0 <= clamp n i < n.
Proof. rewrite /clamp. lia. Qed.

(** What the clamped dictionary holds under an index: the counts whose own
    index is clamped to it. *)
Definition clamped_to (n i : Z) (counted : list (Z * (Z * Z))) : list (Z * (Z * Z)) :=
  filter (λ r, clamp n r.1 = i) counted.

Lemma clamped_lookup n counted i :
  default (0, 0) (clamped counted n !! i) =
  (sum_of (λ r, r.2.1) (clamped_to n i counted), sum_of (λ r, r.2.2) (clamped_to n i counted)).
Proof.
  rewrite /clamped /clamped_to.
  assert (∀ (m : gmap Z (Z * Z)),
    default (0, 0) (foldl (λ folded '(index, (total, bots)),
      let slot := clamp n index in let seen := default (0, 0) (folded !! slot) in
      <[slot := (seen.1 + total, seen.2 + bots)]> folded) m counted !! i) =
    ((default (0, 0) (m !! i)).1 + sum_of (λ r, r.2.1) (filter (λ r, clamp n r.1 = i) counted),
     (default (0, 0) (m !! i)).2 + sum_of (λ r, r.2.2) (filter (λ r, clamp n r.1 = i) counted))) as Hgen.
  { induction counted as [|[j [t b]] counted IH]; intros m.
    - simpl. rewrite !Z.add_0_r. by destruct (default _ _).
    - cbn [foldl]. rewrite IH filter_cons /=. destruct (decide (clamp n j = i)) as [<-|Hne].
      + rewrite lookup_insert_eq /=. f_equal; lia.
      + by rewrite lookup_insert_ne. }
  rewrite Hgen lookup_empty. done.
Qed.

Section chart.
Context (d : Database) (Hids : NoDup (link_id <$> urls d)).

(** The rows a question is about. *)
Definition asked_for (since until : Z) (link_id_ owner_id : option pystr) (vs : list LinkVisit)
    : list LinkVisit :=
  filter (λ v, visible d link_id_ owner_id (lv_link_id v) ∧
               since <= lv_occurred_at v ∧ lv_occurred_at v < until) vs.

Lemma scoped_within since until link_id_ owner_id :
  scoped d lv_link_id link_id_ owner_id (within since until (link_visits d)) =
  asked_for since until link_id_ owner_id (link_visits d).
Proof.
  rewrite scoped_filter // /within !list_filter_filter. apply filter_ext_elem. tauto.
Qed.

Definition bots_of (rows : list LinkVisit) : Z := sum_of (λ v, b2z (lv_is_bot v)) rows.

(** One bucket: the visits whose index is clamped to it. *)
Lemma bucket_lookup since until width n link_id_ owner_id i :
  default (0, 0) (clamped (bucket_counts d since until width link_id_ owner_id) n !! i) =
  tally (filter (λ v, clamp n (bucket_index since width (lv_occurred_at v)) = i)
           (asked_for since until link_id_ owner_id (link_visits d))).
Proof.
  rewrite clamped_lookup /clamped_to /bucket_counts scoped_within /tally.
  set (rows := asked_for _ _ _ _ _). set (ix := λ v, bucket_index since width (lv_occurred_at v)).
  assert (∀ w : LinkVisit → Z,
    sum_of (λ g, sum_of w g.2) (filter (λ g, clamp n g.1 = i) (group_by ix rows)) =
    sum_of w (filter (λ v, clamp n (ix v) = i) rows)) as Hsum.
  { intros w. exact (group_by_sum_where ix (λ k, clamp n k = i) w rows). }
  rewrite -(Hsum (λ v, b2z (lv_is_bot v))) -sum_of_len -(Hsum (λ _, 1)).
  assert (∀ (f : Z * Z → Z), sum_of (λ r, f r.2) (filter (λ r, clamp n r.1 = i)
      ((λ '(i, rows), (i, tally rows)) <$> group_by ix rows)) =
    sum_of (λ g, f (tally g.2)) (filter (λ g, clamp n g.1 = i) (group_by ix rows))) as Hmap.
  { clear Hsum. intros f. induction (group_by ix rows) as [|[k g] gs IH]; [done|].
    rewrite fmap_cons !filter_cons /=. by case_decide; simpl; rewrite IH. }
  rewrite (Hmap fst) (Hmap snd) /tally /=. f_equal.
  apply sum_of_ext. intros g _. by rewrite sum_of_len.
Qed.

(** The points of a chart, each fed from the visits of its own index. *)
Lemma series_lookup at_ seen n i : (i < Z.to_nat n)%nat →
  series at_ seen n !! i = Some (MkVisitBucket (at_ (Z.of_nat i))
    (seen (Z.of_nat i) (at_ (Z.of_nat i))).1 (seen (Z.of_nat i) (at_ (Z.of_nat i))).2).
Proof.
  intros Hi. rewrite /series list_lookup_fmap lookup_seq_lt //=.
  by destruct (seen _ _) as [t b].
Qed.

Lemma series_sum (w : LinkVisit → Z) (f : VisitBucket → Z) at_ seen n rows (ix : LinkVisit → Z) :
  (∀ i, i < n → 0 <= i →
    f (MkVisitBucket (at_ i) (seen i (at_ i)).1 (seen i (at_ i)).2) =
    sum_of w (filter (λ v, ix v = i) rows)) →
  (∀ v, v ∈ rows → 0 <= ix v < n) →
  sum_of f (series at_ seen n) = sum_of w rows.
Proof.
  intros Hf Hix. rewrite /series sum_of_fmap.
  rewrite (sum_of_ext _ (λ i, sum_of w (filter (λ v, ix v = Z.of_nat i) rows))).
  - apply (sum_by_row ix Z.of_nat).
    + apply (NoDup_fmap_2 _), NoDup_seq.
    + intros v Hv. specialize (Hix v Hv). apply list_elem_of_fmap. exists (Z.to_nat (ix v)).
      split; [lia|]. apply elem_of_seq. lia.
  - intros i Hi%elem_of_seq. simpl. rewrite -Hf; [|lia..]. by destruct (seen _ _).
Qed.

Lemma breakdown_sum column since until link_id_ owner_id :
  sum_of br_total (breakdown d column since until link_id_ owner_id) =
  len (asked_for since until link_id_ owner_id (link_visits d)).
Proof.
  rewrite /breakdown (sum_of_perm _ _ _ (merge_sort_Permutation _ _)) scoped_within.
  rewrite sum_of_fmap -sum_of_len -(group_by_sum column (λ _, 1)). apply sum_of_ext.
  intros [k rows] _. simpl. by rewrite sum_of_len.
Qed.

Lemma asked_for_index since until width link_id_ owner_id n v :
  0 < n → v ∈ asked_for since until link_id_ owner_id (link_visits d) →
  0 <= clamp n (bucket_index since width (lv_occurred_at v)) < n.
Proof. intros Hn _. by apply clamp_range. Qed.

(** ** A chart *)

Definition chart_width (since until buckets : Z) : Z :=
  Z.max 1 (Z.max 1 (whole_seconds (until - since)) / Z.max 1 buckets).

Lemma summary_rows since until buckets link_id_ owner_id :
  let s := summary d since until buckets link_id_ owner_id in
  let rows := asked_for since until link_id_ owner_id (link_visits d) in
  let n := Z.max 1 buckets in
  vs_total s = len rows ∧ vs_bots s = bots_of rows ∧
  sum_of br_total (vs_devices s) = len rows ∧ sum_of br_total (vs_browsers s) = len rows ∧
  len (vs_buckets s) = n ∧
  ∀ i, (i < Z.to_nat n)%nat → vs_buckets s !! i =
    let here := filter (λ v, clamp n (bucket_index since (chart_width since until buckets)
                               (lv_occurred_at v)) = Z.of_nat i) rows in
    Some (MkVisitBucket (since + Z.of_nat i * chart_width since until buckets * SECOND)
            (len here) (bots_of here)).
Proof.
  intros s rows n. rewrite /s /summary /=. fold n. fold (chart_width since until buckets).
  set (width := chart_width since until buckets).
  set (ix := λ v, clamp n (bucket_index since width (lv_occurred_at v))).
  assert (∀ v, v ∈ rows → 0 <= ix v < n) as Hix by (intros v Hv; eapply asked_for_index; [lia|exact Hv]).
  split_and!.
  - rewrite (series_sum (λ _, 1) _ _ _ _ rows ix) ?sum_of_len //.
    intros i Hn H0. rewrite bucket_lookup sum_of_len //.
  - apply (series_sum _ _ _ _ _ rows ix); [|done]. intros i Hn H0. by rewrite bucket_lookup.
  - apply breakdown_sum.
  - apply breakdown_sum.
  - rewrite /len /series length_fmap length_seq. lia.
  - intros i Hi. rewrite series_lookup // bucket_lookup. done.
Qed.
End chart.

(** ** Charts drawn in days *)

(** Inside a span of whole days no index needs clamping. *)
Lemma day_bucket_clamp since n t i : (DAY | since) → since <= t → t < since + n * DAY → 0 <= i < n →
  clamp n (bucket_index since DAY_SECONDS t) = i ↔ midnight t = since + i * DAY.
Proof.
  intros Hs Ht Hlt Hi. rewrite -(day_bucket_iff since t i) //.
  assert (0 <= bucket_index since DAY_SECONDS t < n) as Hb; [|rewrite /clamp; lia].
  rewrite day_bucket //. split; [apply Z.div_pos; [lia|done]|].
  apply Z.div_lt_upper_bound; [done|]. lia.
Qed.

Lemma whole_days_width since n : 0 < n → chart_width since (since + n * DAY) n = DAY_SECONDS.
Proof.
  intros Hn. rewrite /chart_width (_ : since + n * DAY - since = n * DAY_SECONDS * SECOND);
    [|rewrite day_seconds; lia].
  rewrite /whole_seconds Z.quot_mul // (Z.max_r 1 n); [|lia].
  rewrite (Z.max_r 1 (n * DAY_SECONDS)); [|rewrite /DAY_SECONDS; lia].
  rewrite Z.mul_comm Z.div_mul //. lia.
Qed.

(** ** The busiest links *)

Section busiest.
Context (d : Database) (Hok : table_ok (urls d)).
Context (since until : Z) (link_id_ owner_id : option pystr).

Definition visits_of (l : Link) : list LinkVisit :=
  filter (λ v, lv_link_id v = link_id l) (asked_for d since until link_id_ owner_id (link_visits d)).


(** The joined rows of a code are the visits of its link. *)
Definition top_rows : list (LinkVisit * Link) :=
  let rows := filter (λ r, since <= lv_occurred_at r.1 ∧ lv_occurred_at r.1 < until)
                (visits_with_links d) in
  let rows := match link_id_ with
              | None => rows
              | Some i => filter (λ r, lv_link_id r.1 = i) rows end in
  match owner_id with
  | None => rows
  | Some o => filter (λ r, (oid_value <$> link_owner r.2) = Some o) rows
  end.

Definition row_kept (r : LinkVisit * Link) : Prop :=
  (since <= lv_occurred_at r.1 ∧ lv_occurred_at r.1 < until) ∧
  (match link_id_ with None => True | Some i => lv_link_id r.1 = i end) ∧
  (match owner_id with None => True | Some o => (oid_value <$> link_owner r.2) = Some o end).
#[local] Instance row_kept_dec r : Decision (row_kept r).
Proof. unfold row_kept. destruct link_id_, owner_id; apply _. Defined.

Lemma top_rows_filter : top_rows = filter row_kept (visits_with_links d).
Proof.
  rewrite /top_rows. destruct link_id_ as [i|] eqn:Hi, owner_id as [o|] eqn:Ho;
    rewrite ?list_filter_filter; apply filter_ext_elem; intros r _; rewrite /row_kept Hi Ho; tauto.
Qed.

Lemma filter_single (Q : Link → Prop) `{∀ l, Decision (Q l)} l : l ∈ urls d →
  (∀ l', l' ∈ urls d → Q l' → l' = l) →
  filter Q (urls d) = if decide (Q l) then [l] else [].
Proof.
  intros Hl Hu. assert (NoDup (filter Q (urls d))) as Hn.
  { eapply sublist_NoDup; [apply (NoDup_fmap_1 link_id), Hok|apply sublist_filter]. }
  assert (∀ x, x ∈ filter Q (urls d) → x = l) as Hall.
  { intros x [HQ Hx]%list_elem_of_filter. by apply Hu. }
  case_decide as HQ.
  - assert (l ∈ filter Q (urls d)) as Hin by (by apply list_elem_of_filter).
    destruct (filter Q (urls d)) as [|x ls]; [by apply elem_of_nil in Hin|].
    assert (x = l) as -> by (apply Hall; left). destruct ls as [|y ls]; [done|].
    assert (y = l) as -> by (apply Hall; right; left).
    apply list.NoDup_cons in Hn as [Hn _]. destruct Hn. left.
  - apply filter_none. intros x Hx HQx. apply HQ. by rewrite -(Hu x Hx HQx).
Qed.

Lemma visible_kept v l : l ∈ urls d → lv_link_id v = link_id l →
  row_kept (v, l) ↔ visible d link_id_ owner_id (lv_link_id v) ∧
    since <= lv_occurred_at v ∧ lv_occurred_at v < until.
Proof.
  intros Hl Hv. rewrite /row_kept /visible /=.
  assert (∀ o, Exists (owned_by o (lv_link_id v)) (urls d) ↔ (oid_value <$> link_owner l) = Some o) as Ho.
  { intros o. rewrite Exists_elem. split.
    - intros (l' & Hl' & Hid & <-). do 2 f_equal.
      apply (key_eq link_id (urls d)); [apply Hok|done..|congruence].
    - intros Ho. exists l. by split. }
  destruct owner_id as [o|]; [rewrite Ho|]; tauto.
Qed.

Lemma top_rows_of l : l ∈ urls d →
  fst <$> filter (λ r, sc_value (link_short_code r.2) = sc_value (link_short_code l)) top_rows =
  visits_of l.
Proof.
  intros Hl. rewrite top_rows_filter /visits_with_links /visits_of /asked_for !list_filter_filter.
  induction (link_visits d) as [|v vs IH]; [done|].
  rewrite bind_cons list.filter_app fmap_app IH filter_cons. clear IH.
  rewrite filter_of_fmap list_filter_filter -list_fmap_compose.
  rewrite (filter_single _ l Hl).
  - rewrite /compose /=. destruct (decide (lv_link_id v = link_id l)) as [Hv|Hv].
    + pose proof (visible_kept v l Hl Hv).
      repeat case_decide; simpl; (done || (exfalso; intuition congruence)).
    + repeat case_decide; simpl; (done || (exfalso; intuition congruence)).
  - intros l' Hl' [[Hc _] _]. apply (key_eq link_short_code (urls d)); [apply Hok|done..|].
    simpl in Hc. destruct (link_short_code l'), (link_short_code l). simpl in Hc. by subst.
Qed.

Lemma top_entry code rows : (code, rows) ∈ group_by (λ r, sc_value (link_short_code r.2)) top_rows →
  ∃ l, l ∈ urls d ∧ sc_value (link_short_code l) = code ∧ len rows = len (visits_of l) ∧ visits_of l ≠ [].
Proof.
  intros (-> & r & Hr & Hc)%elem_of_group_by.
  assert (r.2 ∈ urls d) as Hl.
  { rewrite top_rows_filter in Hr. apply list_elem_of_filter in Hr as [_ Hr].
    apply list_elem_of_bind in Hr as (v & Hr & _).
    by apply list_elem_of_fmap in Hr as (l & -> & [_ ?]%list_elem_of_filter). }
  exists r.2. rewrite -Hc. split_and!; [done..| |].
  - rewrite -(top_rows_of r.2) // /len length_fmap //.
  - rewrite -(top_rows_of r.2) //. intros Hnil%fmap_nil_inv.
    assert (r ∈ filter (λ x, sc_value (link_short_code x.2) = sc_value (link_short_code r.2)) top_rows)
      as Hin by (by apply list_elem_of_filter). rewrite Hnil in Hin. set_solver.
Qed.

Lemma top_group l : l ∈ urls d → visits_of l ≠ [] →
  (sc_value (link_short_code l), filter (λ r, sc_value (link_short_code r.2) = sc_value (link_short_code l)) top_rows)
    ∈ group_by (λ r, sc_value (link_short_code r.2)) top_rows.
Proof.
  intros Hl Hne. apply elem_of_group_by. split; [done|]. rewrite -(top_rows_of l Hl) in Hne.
  destruct (filter _ top_rows) as [|r rs] eqn:E; [done|]. exists r.
  assert (r ∈ filter (λ r, sc_value (link_short_code r.2) = sc_value (link_short_code l)) top_rows) as Hin
    by (rewrite E; set_solver). by apply list_elem_of_filter in Hin as [? ?].
Qed.

#[local] Instance more_visited_total : Total more_visited.
Proof. intros a b. rewrite /more_visited. lia. Qed.
#[local] Instance more_visited_trans : Transitive more_visited.
Proof. intros a b c. rewrite /more_visited. lia. Qed.

(** The ten busiest links of the window, busiest first, each with its number
    of visits; a link left out has no more visits than any of them. *)
Lemma top_links_spec :
  let top := top_links d since until link_id_ owner_id in
  StronglySorted more_visited top ∧ len top <= 10 ∧
  (∀ e, e ∈ top → ∃ l, l ∈ urls d ∧ br_label e = sc_value (link_short_code l) ∧
     br_total e = len (visits_of l) ∧ visits_of l ≠ []) ∧
  ∀ l, l ∈ urls d → visits_of l ≠ [] →
    MkVisitBreakdown (sc_value (link_short_code l)) (len (visits_of l)) ∈ top ∨
    len top = 10 ∧ ∀ e, e ∈ top → len (visits_of l) <= br_total e.
Proof.
  intros top. set (f := λ '(code, rows), MkVisitBreakdown code (len (rows : list (LinkVisit * Link)))).
  set (all := merge_sort more_visited (f <$> group_by (λ r, sc_value (link_short_code r.2)) top_rows)).
  assert (top = take 10 all) as Htop by done.
  assert (StronglySorted more_visited all) as Hs.
  { apply StronglySorted_merge_sort; apply _. }
  assert (top ++ drop 10 all = all) as Happ by (rewrite Htop; apply take_drop). clearbody top.
  assert (StronglySorted more_visited top ∧ ∀ a b, a ∈ top → b ∈ drop 10 all → more_visited a b) as [Ht Hrest].
  { rewrite -Happ in Hs. apply StronglySorted_app in Hs as (? & ? & ?). auto. }
  split_and!; [done|rewrite Htop /len length_take; lia| |].
  - intros e He. assert (e ∈ all) as Hin by (rewrite -Happ; set_solver).
    rewrite /all merge_sort_Permutation in Hin.
    apply list_elem_of_fmap in Hin as ([code rows] & -> & (l & ? & <- & ? & ?)%top_entry). by exists l.
  - intros l Hl Hne.
    assert (MkVisitBreakdown (sc_value (link_short_code l)) (len (visits_of l)) ∈ all) as Hin.
    { rewrite /all merge_sort_Permutation. apply list_elem_of_fmap.
      eexists (_, _). split; [|by apply top_group]. simpl. f_equal.
      rewrite -(top_rows_of l Hl) /len length_fmap //. }
    rewrite -Happ in Hin. apply elem_of_app in Hin as [?|Hin]; [by left|right]. split.
    + rewrite Htop /len length_take. assert (drop 10 all ≠ []) as Hd by (intros E; rewrite E in Hin; set_solver).
      destruct (decide (length all <= 10)%nat); [by rewrite drop_ge in Hd|lia].
    + intros e He. exact (Hrest e _ He Hin).
Qed.
End busiest.

(** ** The daily series *)

Lemma grouped_lookup {A V} (key : A → Z) (g : list A → V) (l : list A) (k : Z) :
  (snd <$> first (filter (λ r, r.1 = k) ((λ '(k, rows), (k, g rows)) <$> group_by key l))) =
  match filter (λ a, key a = k) l with [] => None | rows => Some (g rows) end.
Proof.
  set (rs := (λ '(k, rows), (k, g rows)) <$> group_by key l).
  destruct (first (filter (λ r, r.1 = k) rs)) as [[k' v]|] eqn:E; simpl.
  - apply first_filter_Some in E as [([k1 rows] & [= -> ->] & [-> Hex]%elem_of_group_by)%list_elem_of_fmap Hk'].
    simpl in Hk'. subst k1. destruct (filter (λ a, key a = k) l) eqn:Ef; [|done]. exfalso.
    destruct Hex as (a & Ha & Hk).
    assert (a ∈ filter (λ a, key a = k) l) as Hin by (by apply list_elem_of_filter).
    rewrite Ef in Hin. by apply elem_of_nil in Hin.
  - destruct (filter (λ a, key a = k) l) as [|a rows] eqn:Ef; [done|].
    assert (a ∈ filter (λ a, key a = k) l) as [Hk Ha]%list_elem_of_filter by (rewrite Ef; left).
    exfalso. eapply (proj1 (first_filter_None _ rs) E (k, g (filter (λ a, key a = k) l))); [|done].
    apply list_elem_of_fmap. exists (k, filter (λ a, key a = k) l). split; [done|].
    apply elem_of_group_by. eauto.
Qed.

Section daily.
Context (d : Database) (Hids : NoDup (link_id <$> urls d)).
Context (link_id_ owner_id : option pystr).

(** The visits of one day that a reader may see. *)
Definition on_the_day (day : Z) (vs : list LinkVisit) : list LinkVisit :=
  filter (λ v, visible d link_id_ owner_id (lv_link_id v) ∧ midnight (lv_occurred_at v) = day) vs.

Lemma at_day_rolled start until day : start <= day → day < until →
  at_day day (rolled_totals d start until link_id_ owner_id) =
  match filter (λ r, visible d link_id_ owner_id (vd_link_id r) ∧ vd_day r = day) (link_visit_days d) with
  | [] => None
  | rows => Some (sum_of vd_total rows, sum_of vd_bots rows)
  end.
Proof.
  intros Hs Hu. rewrite /at_day /rolled_totals.
  rewrite (grouped_lookup vd_day (λ rows, (sum_of vd_total rows, sum_of vd_bots rows))).
  rewrite scoped_filter // !list_filter_filter.
  rewrite (filter_ext_elem _ (λ r, visible d link_id_ owner_id (vd_link_id r) ∧ vd_day r = day)) //.
  intros r _. split; [tauto|]. intros [Hv Hd]. rewrite Hd. tauto.
Qed.

Lemma asked_on_day start n i vs : (DAY | start) → 0 <= i < n →
  filter (λ v, clamp n (bucket_index start DAY_SECONDS (lv_occurred_at v)) = i)
    (asked_for d start (start + n * DAY) link_id_ owner_id vs) = on_the_day (start + i * DAY) vs.
Proof.
  intros Hs Hi. rewrite /on_the_day /asked_for list_filter_filter.
  apply filter_ext_elem. intros v _. split.
  - intros (Hc & Hv & Hge & Hlt). split; [done|]. by apply (day_bucket_clamp start n).
  - intros [Hv Hm]. apply midnight_unique in Hm as Hb; last first.
    { apply Z.divide_add_r; [done|by exists i]. }
    assert (start <= lv_occurred_at v ∧ lv_occurred_at v < start + n * DAY) as [??].
    { rewrite /DAY /HOUR /MINUTE /SECOND in Hb |- *. lia. }
    split_and!; [|done..]. by apply day_bucket_clamp.
Qed.

Lemma raw_on_day start n i : (DAY | start) → 0 <= i < n →
  default (0, 0) (clamped (bucket_counts d start (start + n * DAY) DAY_SECONDS link_id_ owner_id) n !! i) =
  tally (on_the_day (start + i * DAY) (link_visits d)).
Proof. intros Hs Hi. by rewrite bucket_lookup // asked_on_day. Qed.

Context (log : list LinkVisit) (S F : Z).
Context (Hf : Folded lv_link_id lv_occurred_at tally log (link_visits d)
                (day_row <$> link_visit_days d) S F).

(** Folded rows where there are any, raw visits otherwise: the log. *)
Lemma folded_day day : (DAY | day) →
  let rows := filter (λ r, visible d link_id_ owner_id (vd_link_id r) ∧ vd_day r = day) (link_visit_days d) in
  tally (on_the_day day log) =
  match rows with
  | [] => tally (on_the_day day (link_visits d))
  | _ => (sum_of vd_total rows, sum_of vd_bots rows)
  end.
Proof.
  intros Hd rows.
  pose proof (folded_read _ _ _ (visible d link_id_ owner_id) (λ _, 1) fst _ _ _ _ _ day Hf
    (λ l, eq_sym (sum_of_len l)) Hd) as [Ht1 Ht2].
  pose proof (folded_read _ _ _ (visible d link_id_ owner_id) (λ v, b2z (lv_is_bot v)) snd _ _ _ _ _ day Hf
    (λ l, eq_refl) Hd) as [Hb1 Hb2].
  rewrite filter_of_fmap /= in Ht1, Ht2, Hb1, Hb2. fold rows in Ht1, Ht2, Hb1, Hb2.
  rewrite !sum_of_len in Ht1, Ht2. rewrite !sum_of_fmap in Ht1, Hb1. rewrite /tally.
  destruct rows as [|r rs].
  - by rewrite -Ht2 // -Hb2.
  - by rewrite -Ht1 // -Hb1.
Qed.

Lemma ceil_days_whole n : ceil_days (n * DAY) = n.
Proof. rewrite /ceil_days -Z.mul_opp_l Z.div_mul //. lia. Qed.

Lemma daily_reads_the_log start n i : (DAY | start) → (i < Z.to_nat n)%nat →
  daily_totals d start (start + n * DAY) link_id_ owner_id !! i =
  let here := on_the_day (start + Z.of_nat i * DAY) log in
  Some (MkVisitBucket (start + Z.of_nat i * DAY) (len here) (bots_of here)).
Proof.
  intros Hs Hi. rewrite /daily_totals (_ : midnight start = start); last first.
  { apply midnight_unique; [done|]. rewrite /DAY /HOUR /MINUTE /SECOND. lia. }
  rewrite (_ : start + n * DAY - start = n * DAY); [|lia]. rewrite ceil_days_whole.
  rewrite (_ : Z.max 1 n = n); [|lia]. rewrite series_lookup //.
  set (day := start + Z.of_nat i * DAY) in *.
  assert (DAY | day) as Hd by (apply Z.divide_add_r; [done|by eexists]).
  rewrite at_day_rolled; [|rewrite /day /DAY /HOUR /MINUTE /SECOND; lia..].
  pose proof (folded_day day Hd) as Hlog. cbv zeta in Hlog.
  destruct (filter _ (link_visit_days d)) as [|r rs].
  - rewrite raw_on_day; [|done|lia]. fold day. rewrite -Hlog. done.
  - injection Hlog as Ht Hb. by rewrite /bots_of Ht Hb.
Qed.
End daily.

(** ** The nightly task *)

Lemma day_row_of r : day_row (of_day_row r) = r.
Proof. by destruct r as [[i m] [t b]]. Qed.

Lemma add_days_ok rows d :
  NoDup (fst <$> (day_row <$> (link_visit_days d ++ rows))) →
  (∀ r, r ∈ rows → vd_link_id r ∈ (link_id <$> urls d)) →
  add_days rows d = Ok (set_link_visit_days (link_visit_days d ++ rows) d).
Proof.
  revert d. induction rows as [|r rows IH]; intros d Hnd Hfk; simpl.
  { rewrite app_nil_r. by destruct d. }
  rewrite decide_False; last first.
  { intros (r' & Hr' & Heq)%Exists_elem. rewrite !fmap_app !fmap_cons in Hnd.
    apply list.NoDup_app in Hnd as (_ & Hnd & _). apply (Hnd (day_row r').1).
    - by do 2 apply list_elem_of_fmap_2.
    - apply elem_of_cons. by left. }
  rewrite decide_True; [|apply Hfk; left]. rewrite IH /=.
  - by rewrite -(assoc_L app).
  - by rewrite -(assoc_L app).
  - intros r' Hr'. apply Hfk. by right.
Qed.

(** The log is what the two tables stand for, up to today's midnight. *)
Record VisitInv (log : list LinkVisit) (now : Z) (d : Database) : Prop := MkVisitInv {
  vi_now : 0 <= now;
  vi_links : ∀ v, v ∈ log → lv_link_id v ∈ (link_id <$> urls d);
  vi_folded : ∃ S F, Folded lv_link_id lv_occurred_at tally log (link_visits d)
                       (day_row <$> link_visit_days d) S F ∧ F <= midnight now;
}.

Lemma roll_up_days_spec log now d : VisitInv log now d →
  ∃ n rows S, roll_up_days (midnight now) d =
      Ok (n, set_link_visit_days (link_visit_days d ++ rows) d) ∧ n = len rows ∧
    Folded lv_link_id lv_occurred_at tally log (link_visits d)
      (day_row <$> (link_visit_days d ++ rows)) S (midnight now).
Proof.
  intros [H0 Hl (S & F & Hf & HF)].
  pose proof (folded_fold _ _ _ _ _ _ _ _ _ Hf HF (midnight_divide now)) as Hf'.
  assert (snd <$> (day_row <$> link_visit_days d).*1 = vd_day <$> link_visit_days d) as Hdays.
  { by rewrite -!list_fmap_compose. }
  rewrite Hdays in Hf'. rewrite /roll_up_days.
  set (new := fold_rows _ _ _ _) in *.
  assert (day_row <$> (of_day_row <$> new) = new) as Hnew.
  { rewrite -list_fmap_compose -{2}(list_fmap_id new). apply list_fmap_ext. intros i r _. apply day_row_of. }
  assert (add_days (of_day_row <$> new) d =
    Ok (set_link_visit_days (link_visit_days d ++ (of_day_row <$> new)) d)) as Hadd.
  { apply add_days_ok; [rewrite fmap_app Hnew; apply Hf'|].
    intros r' ([[k m] v] & -> & Hin)%list_elem_of_fmap.
    assert ((k, m, v) ∈ (day_row <$> link_visit_days d) ++ new) as Hrow by (apply elem_of_app; by right).
    apply (fd_days _ _ _ _ _ _ _ _ Hf') in Hrow as (_ & (a & Ha & <- & _) & _). by apply Hl. }
  exists (len (of_day_row <$> new)), (of_day_row <$> new), S.
  split_and!; [|done|by rewrite fmap_app Hnew].
  destruct (of_day_row <$> new) as [|r rs]; [|by rewrite Hadd].
  rewrite app_nil_r. by destruct d.
Qed.

(** Every finished day has been folded. *)
Definition settled (log : list LinkVisit) (now : Z) (d : Database) : Prop :=
  ∃ S, Folded lv_link_id lv_occurred_at tally log (link_visits d)
         (day_row <$> link_visit_days d) S (midnight now).

Lemma roll_up_days_again log now d : settled log now d → roll_up_days (midnight now) d = Ok (0, d).
Proof.
  intros [S Hf]. rewrite /roll_up_days.
  assert (vd_day <$> link_visit_days d = snd <$> (day_row <$> link_visit_days d).*1) as ->.
  { by rewrite -!list_fmap_compose. }
  rewrite (to_fold_log _ _ _ _ _ _ _ _ _ Hf); [|done].
  rewrite (filter_none (λ a, midnight now <= lv_occurred_at a ∧ lv_occurred_at a < midnight now)) //.
  intros a _. lia.
Qed.

Lemma delete_raw_spec log d S F cutoff :
  Folded lv_link_id lv_occurred_at tally log (link_visits d) (day_row <$> link_visit_days d) S F →
  cutoff <= F →
  Folded lv_link_id lv_occurred_at tally log
    (delete_where (λ v, lv_occurred_at v < cutoff) (link_visits d))
    (day_row <$> link_visit_days d) (Z.max S cutoff) F.
Proof. intros Hf Hc. by apply folded_sweep. Qed.

Section task.
Context {C : Type}.
Implicit Types (w : World C).

(** The task ends, folds the finished days, keeps the log and leaves no raw
    visit past the retention. *)
Lemma roll_up_visits_spec log w retention_days :
  VisitInv log (w_now w) (w_db w) →
  wp (roll_up_visits retention_days)
    (λ r w', ∃ folded swept raw days, r = Ok (folded, swept) ∧
       w' = set_db (set_link_visits raw (set_link_visit_days (link_visit_days (w_db w) ++ days) (w_db w))) w ∧
       folded = len days ∧ swept = len (link_visits (w_db w)) - len raw ∧
       raw `sublist_of` link_visits (w_db w) ∧
       settled log (w_now w) (w_db w') ∧
       (0 < retention_days → ∀ v, v ∈ raw →
          midnight (w_now w) - retention_days * DAY <= lv_occurred_at v) ∧
       (∀ v, v ∈ link_visits (w_db w) → midnight (w_now w) - retention_days * DAY <= lv_occurred_at v →
          v ∈ raw)) w.
Proof.
  intros Hw. destruct (roll_up_days_spec _ _ _ Hw) as (n & rows & S & Hroll & -> & Hf).
  rewrite /roll_up_visits. wp_steps. cbn [tx_work]. rewrite Hroll. wp_steps.
  set (d1 := set_link_visit_days _ _). destruct (Z.ltb_spec 0 retention_days) as [Hpos|Hz].
  - wp_steps. set (cutoff := midnight (w_now w) - retention_days * DAY).
    eexists _, _, _, rows. split; [reflexivity|]. split; [by destruct w|]. split_and!; [done| |apply delete_where_sublist| | |].
    + pose proof (count_where_delete (λ v, lv_occurred_at v < cutoff) (link_visits (w_db w))).
      rewrite /len /=. lia.
    + exists (Z.max S cutoff).
      apply (delete_raw_spec log d1); [done|].
      rewrite /cutoff. assert (0 <= retention_days * DAY) by (apply Z.mul_nonneg_nonneg; [lia|done]). lia.
    + intros _ v [Hv _]%list_elem_of_filter. lia.
    + intros v Hv Hge. apply list_elem_of_filter. split; [lia|done].
  - wp_steps. eexists _, _, (link_visits (w_db w)), rows. split; [reflexivity|].
    split; [by destruct w as [[]]|]. split_and!; [done|lia|done| |lia|done].
    by exists S.
Qed.
End task.
