(* ===== verification/UrlParse.v ===== *)
(** * Reading and writing a URL

    The part of the standard library's [urllib.parse] that [OriginalUrl]
    stands on (CPython 3.12, the interpreter the images are built from):
    [urlparse] with its checks of a bracketed host and of compatibility
    characters, the [hostname] and [port] properties of its result, and
    [ParseResult.geturl].  [None] is the [ValueError] they raise.

    Unicode compatibility normalisation is a table the interpreter carries
    ([unicodedata.normalize("NFKC", s)]); it is the class [Nfkc].

    The lemmas show what the fields of a parsed URL can hold, and that a URL
    written from well-formed parts is read back as those parts. *)

From S2P Require Import Prelude PyStr IpAddress.

Class Nfkc := nfkc : pystr → pystr.

Definition HASH : Z := 35.
Definition QUESTION : Z := 63.
Definition SEMICOLON : Z := 59.
Definition OPEN_BRACKET : Z := 91.
Definition CLOSE_BRACKET : Z := 93.

(** [s.rpartition(c)]. *)
Definition rpartition_at (c : Z) (s : pystr) : pystr * bool * pystr :=
  let '(a, found, b) := partition_at c (reverse s) in
  if found then (reverse b, true, reverse a) else ([], false, s).

(** The text up to the first character in [p], and the rest. *)
Fixpoint cut_at (p : Z → bool) (s : pystr) : pystr * pystr :=
  match s with
  | [] => ([], [])
  | c :: s' => if p c then ([], s) else let '(a, b) := cut_at p s' in (c :: a, b)
  end.

Record ParseResult := MkParseResult {
  scheme : pystr;
  netloc : pystr;
  path : pystr;
  params : pystr;
  query : pystr;
  fragment : pystr;
}.

Definition uses_netloc : list pystr :=
  lit <$> [""; "ftp"; "http"; "gopher"; "nntp"; "telnet"; "imap"; "wais"; "file"; "mms";
           "https"; "shttp"; "snews"; "prospero"; "rtsp"; "rtspu"; "rsync"; "svn"; "svn+ssh";
           "sftp"; "nfs"; "git"; "git+ssh"; "ws"; "wss"; "itms-services"]%string.
Definition uses_params : list pystr :=
  lit <$> [""; "ftp"; "hdl"; "prospero"; "http"; "imap"; "https"; "shttp"; "rtsp"; "rtspu";
           "sip"; "sips"; "mms"; "sftp"; "tel"]%string.

Definition is_scheme_char (c : Z) : bool :=
  is_alnum c || (c =? 43) || (c =? HYPHEN) || (c =? DOT).
(** Tab, newline and carriage return, removed wherever they stand. *)
Definition is_unsafe (c : Z) : bool := (c =? 9) || (c =? 10) || (c =? 13).
Definition is_delim (c : Z) : bool := (c =? SLASH) || (c =? QUESTION) || (c =? HASH).
Definition starts_alpha (s : pystr) : bool :=
  match s with c :: _ => is_alpha c | [] => false end.

Definition clean_url (url : pystr) : pystr :=
  List.filter (λ c, negb (is_unsafe c)) (lstrip_by (λ c, c <=? 32) url).

(** [_check_bracketed_host]: an IPvFuture text ([v], hexadecimal digits, a
    dot, anything) or an IPv6 address. *)
Definition check_bracketed_host (hostname : pystr) : bool :=
  match hostname with
  | 118 :: rest =>
      let '(hex, tail) := cut_at (λ c, negb (is_hexdigit c)) rest in
      negb (bool_decide (hex = [])) &&
      match tail with
      | 46 :: ((_ :: _) as t) => forallb (λ c, negb (c =? 10)) t
      | _ => false
      end
  | _ => match parse_ip hostname with Some (IPv6 _ _) => true | _ => false end
  end.

(** [_check_bracketed_netloc]. *)
Definition check_bracketed_netloc (netloc : pystr) : bool :=
  let '(_, _, hostname_and_port) := rpartition_at AT_SIGN netloc in
  let '(before_bracket, have_open_br, bracketed) :=
    partition_at OPEN_BRACKET hostname_and_port in
  if have_open_br then
    let '(hostname, _, port) := partition_at CLOSE_BRACKET bracketed in
    bool_decide (before_bracket = []) &&
    (bool_decide (port = []) || startswith [COLON] port) &&
    check_bracketed_host hostname
  else
    let '(hostname, _, _) := partition_at COLON hostname_and_port in
    check_bracketed_host hostname.

Definition brackets_ok (netloc : pystr) : bool :=
  match has_char OPEN_BRACKET netloc, has_char CLOSE_BRACKET netloc with
  | true, true => check_bracketed_netloc netloc
  | false, false => true
  | _, _ => false
  end.

Section parse.
Context `{CaseFolding} `{Nfkc}.

(** [_checknetloc]: no character may turn into a delimiter under NFKC. *)
Definition checknetloc (netloc : pystr) : bool :=
  isascii netloc ||
  let n := List.filter (λ c, negb ((c =? AT_SIGN) || (c =? COLON) || (c =? HASH) || (c =? QUESTION)))
             netloc in
  bool_decide (n = nfkc n) ||
  forallb (λ c, negb (has_char c (nfkc n))) [SLASH; QUESTION; HASH; AT_SIGN; COLON].

Definition split_scheme (url : pystr) : pystr * pystr :=
  let '(a, found, b) := partition_at COLON url in
  if found && starts_alpha a && forallb is_scheme_char a then (lower a, b) else ([], url).

Definition split_netloc (url : pystr) : pystr * pystr :=
  match url with
  | 47 :: 47 :: rest => cut_at is_delim rest
  | _ => ([], url)
  end.

(** [_splitparams]: the parameters follow the first semicolon of the last
    path segment. *)
Definition splitparams (url : pystr) : pystr * pystr :=
  let '(dir, slash, segment) := rpartition_at SLASH url in
  let '(a, _, b) := partition_at SEMICOLON segment in
  (dir ++ (if slash then [SLASH] else []) ++ a, b).

Definition takes_params (scheme : pystr) : bool := bool_decide (scheme ∈ uses_params).

Definition urlparse (url : pystr) : option ParseResult :=
  let '(scheme, url) := split_scheme (clean_url url) in
  let '(netloc, url) := split_netloc url in
  let '(url, _, fragment) := partition_at HASH url in
  let '(url, _, query) := partition_at QUESTION url in
  if brackets_ok netloc && checknetloc netloc then
    let '(path, params) :=
      if takes_params scheme && has_char SEMICOLON url then splitparams url else (url, []) in
    Some (MkParseResult scheme netloc path params query fragment)
  else None.

(** [_hostinfo]. *)
Definition hostinfo (netloc : pystr) : pystr * option pystr :=
  let '(_, _, info) := rpartition_at AT_SIGN netloc in
  let '(_, have_open_br, bracketed) := partition_at OPEN_BRACKET info in
  let '(hostname, port) :=
    if have_open_br then
      let '(hostname, _, port) := partition_at CLOSE_BRACKET bracketed in
      let '(_, _, port) := partition_at COLON port in (hostname, port)
    else let '(hostname, _, port) := partition_at COLON info in (hostname, port) in
  (hostname, match port with [] => None | _ => Some port end).

(** The [hostname] property: lower case, the zone of a scoped address apart. *)
Definition hostname (p : ParseResult) : option pystr :=
  match (hostinfo (netloc p)).1 with
  | [] => None
  | h => let '(name, percent, zone) := partition_at PERCENT h in
         Some (lower name ++ (if percent then [PERCENT] else []) ++ zone)
  end.

(** [int(text)] of a decimal text gives up beyond 4300 digits. *)
Definition MAX_STR_DIGITS : Z := 4300.

(** The [port] property: [None] for the [ValueError], [Some None] when the
    URL names no port. *)
Definition port (p : ParseResult) : option (option Z) :=
  match (hostinfo (netloc p)).2 with
  | None => Some None
  | Some text =>
      if forallb is_digit text && (len text <=? MAX_STR_DIGITS) && (int_of 10 text <=? 65535)
      then Some (Some (int_of 10 text)) else None
  end.

(** [urlunsplit] and [urlunparse]. *)
Definition geturl (p : ParseResult) : pystr :=
  let url := path p ++ match params p with [] => [] | ps => SEMICOLON :: ps end in
  let url :=
    match netloc p with
    | [] =>
        if startswith (lit "//") url then lit "//" ++ url
        else if negb (bool_decide (scheme p = [])) && bool_decide (scheme p ∈ uses_netloc) &&
                (bool_decide (url = []) || startswith [SLASH] url)
        then lit "//" ++ url else url
    | n => lit "//" ++ n ++
           (if negb (bool_decide (url = [])) && negb (startswith [SLASH] url)
            then SLASH :: url else url)
    end in
  let url := match scheme p with [] => url | s => s ++ COLON :: url end in
  let url := url ++ match query p with [] => [] | q => QUESTION :: q end in
  url ++ match fragment p with [] => [] | f => HASH :: f end.
End parse.

(** ** Cutting texts *)

Lemma partition_at_spec c s a found b : partition_at c s = (a, found, b) →
  c ∉ a ∧ if found then s = a ++ c :: b else s = a ∧ b = [].
Proof.
  revert a b; induction s as [|d s IH]; intros a b; simpl.
  - intros [= <- <- <-]. set_solver.
  - destruct (d =? c) eqn:E; [reflect_bools; intros [= <- <- <-]; set_solver|].
    destruct (partition_at c s) as [[a' f'] b'] eqn:Hp. intros [= <- <- <-].
    destruct (IH _ _ eq_refl) as [Ha Hs]. reflect_bools.
    split; [set_solver|]. destruct f'; [by subst|]. destruct Hs as [-> ->]. done.
Qed.

Lemma rpartition_at_spec c s a found b : rpartition_at c s = (a, found, b) →
  c ∉ b ∧ if found then s = a ++ c :: b else s = b ∧ a = [].
Proof.
  rewrite /rpartition_at. destruct (partition_at c (reverse s)) as [[x f] y] eqn:Hp.
  apply partition_at_spec in Hp as [Hx Hs]. destruct f; intros [= <- <- <-].
  - split; [set_solver|]. apply (f_equal reverse) in Hs.
    rewrite reverse_involutive reverse_app reverse_cons -app_assoc in Hs. done.
  - destruct Hs as [Hs _]. split; [|done]. intros Hc. apply Hx. rewrite -Hs. set_solver.
Qed.

Lemma rpartition_at_no c s : c ∉ s → rpartition_at c s = ([], false, s).
Proof. intros Hc. rewrite /rpartition_at partition_at_no //. set_solver. Qed.

Lemma rpartition_at_app c s t : c ∉ t → rpartition_at c (s ++ c :: t) = (s, true, t).
Proof.
  intros Hc. rewrite /rpartition_at reverse_app reverse_cons -app_assoc /=.
  rewrite partition_at_app; [|set_solver]. by rewrite !reverse_involutive.
Qed.

Lemma cut_at_spec p s a b : cut_at p s = (a, b) →
  s = a ++ b ∧ (∀ c, c ∈ a → p c = false) ∧ (b = [] ∨ ∃ c b', b = c :: b' ∧ p c = true).
Proof.
  revert a b; induction s as [|d s IH]; intros a b; simpl.
  - intros [= <- <-]. set_solver.
  - destruct (p d) eqn:E; [intros [= <- <-]; split; [done|]; split; [set_solver|eauto]|].
    destruct (cut_at p s) as [a' b'] eqn:Hc. intros [= <- <-].
    destruct (IH _ _ eq_refl) as (-> & Ha & Hb). split; [done|]. split; [|done].
    intros c [->|?]%elem_of_cons; auto.
Qed.

Lemma cut_at_app p a b : (∀ c, c ∈ a → p c = false) →
  (b = [] ∨ ∃ c b', b = c :: b' ∧ p c = true) → cut_at p (a ++ b) = (a, b).
Proof.
  intros Ha Hb. induction a as [|d a IH]; simpl.
  - destruct Hb as [->|(c & b' & -> & Hc)]; [done|]. by rewrite /= Hc.
  - rewrite Ha; [|set_solver]. rewrite IH //. set_solver.
Qed.

Lemma filter_keep {A} (p : A → bool) l : (∀ x, x ∈ l → p x = true) → List.filter p l = l.
Proof.
  induction l as [|x l IH]; intros Hp; [done|]. simpl. rewrite Hp; [|set_solver].
  f_equal. apply IH. set_solver.
Qed.

Definition last_segment (s : pystr) : pystr := (rpartition_at SLASH s).2.

Lemma last_segment_app d s : SLASH ∉ s → last_segment (d ++ SLASH :: s) = s.
Proof. intros Hs. by rewrite /last_segment rpartition_at_app. Qed.

(** A text without the characters of a class. *)
Definition free (bad : Z → bool) (s : pystr) : Prop := ∀ c, c ∈ s → bad c = false.

Lemma free_app bad s t : free bad (s ++ t) ↔ free bad s ∧ free bad t.
Proof. rewrite /free. set_solver. Qed.
Lemma free_cons bad c s : free bad (c :: s) ↔ bad c = false ∧ free bad s.
Proof. rewrite /free. set_solver. Qed.
Lemma free_nil bad : free bad [].
Proof. rewrite /free. set_solver. Qed.
Lemma free_sub bad s t : free bad s → (∀ c, c ∈ t → c ∈ s) → free bad t.
Proof. rewrite /free. eauto. Qed.
Lemma free_not_in bad c s : free bad s → bad c = true → c ∉ s.
Proof. intros Hs Hc Hin. apply Hs in Hin. congruence. Qed.

(** ** What a parsed URL holds *)

Definition scheme_ok `{CaseFolding} (s : pystr) : Prop :=
  starts_alpha s = true ∧ forallb is_scheme_char s = true ∧ lower s = s.

Definition query_mark (c : Z) : bool := (c =? QUESTION) || (c =? HASH).

Record parsed_ok `{CaseFolding} `{Nfkc} (p : ParseResult) : Prop := MkParsedOk {
  po_scheme : scheme p = [] ∨ scheme_ok (scheme p);
  po_netloc : free is_delim (netloc p);
  po_brackets : brackets_ok (netloc p) = true;
  po_check : checknetloc (netloc p) = true;
  po_path : free query_mark (path p);
  po_rooted : netloc p ≠ [] → path p = [] ∨ first (path p) = Some SLASH;
  po_params : free is_delim (params p);
  po_segment : if takes_params (scheme p) then SEMICOLON ∉ last_segment (path p)
               else params p = [];
  po_query : HASH ∉ query p;
  po_clean : free is_unsafe
    (scheme p ++ netloc p ++ path p ++ params p ++ query p ++ fragment p);
}.

Section parsed.
Context `{CaseFolding} `{Nfkc}.
Implicit Types (p : ParseResult) (url : pystr).

Lemma clean_url_free url : free is_unsafe (clean_url url).
Proof.
  intros c Hc. rewrite /clean_url list_elem_of_In filter_In in Hc.
  destruct Hc as [_ Hc]. by apply negb_true_iff.
Qed.

Lemma scheme_char_facts c : is_scheme_char c = true →
  is_ascii c = true ∧ is_unsafe c = false ∧ is_delim c = false ∧ c ≠ COLON ∧
  is_scheme_char (ascii_lower c) = true.
Proof.
  rewrite /is_scheme_char /is_alnum /is_alpha /is_ascii /is_unsafe /is_delim /ascii_lower
    /COLON /HYPHEN /DOT /SLASH /QUESTION /HASH /is_upper /is_lower /is_digit.
  intros. repeat split; repeat case_match; lia.
Qed.

Lemma scheme_ascii a : forallb is_scheme_char a = true → isascii a = true.
Proof.
  rewrite /isascii !forallb_forall. intros Ha c Hc. by apply scheme_char_facts, Ha.
Qed.

Lemma lower_ascii a : isascii a = true → lower a = ascii_lower <$> a.
Proof. by rewrite /lower => ->. Qed.

Lemma scheme_ok_lower a :
  starts_alpha a = true → forallb is_scheme_char a = true → scheme_ok (lower a).
Proof.
  intros Hs Hc. pose proof (scheme_ascii _ Hc) as Ha. split_and!.
  - rewrite lower_ascii //. destruct a as [|c a]; [done|]. revert Hs. simpl.
    rewrite /is_alpha /ascii_lower /is_upper /is_lower. case_match; lia.
  - rewrite lower_ascii // forallb_forall. intros c. rewrite -list_elem_of_In list_elem_of_fmap.
    intros (d & -> & Hd). apply scheme_char_facts. rewrite forallb_forall in Hc.
    by apply Hc, list_elem_of_In.
  - by apply lower_idemp_ascii.
Qed.

Lemma scheme_ok_free s : scheme_ok s → free is_unsafe s ∧ COLON ∉ s.
Proof.
  intros (_ & Hc & _). rewrite forallb_forall in Hc. split.
  - intros c Hin. by apply scheme_char_facts, Hc, list_elem_of_In.
  - intros Hin%list_elem_of_In%Hc. by apply scheme_char_facts in Hin as (_&_&_&?&_).
Qed.

Lemma split_scheme_spec url s rest : split_scheme url = (s, rest) →
  (s = [] ∨ scheme_ok s) ∧ (∀ c, c ∈ rest → c ∈ url).
Proof.
  rewrite /split_scheme. destruct (partition_at COLON url) as [[a f] b] eqn:Hp.
  destruct (f && starts_alpha a && forallb is_scheme_char a) eqn:E;
    intros [= <- <-]; [|by auto].
  apply partition_at_spec in Hp as [_ Hp].
  reflect_bools. destruct f; [|done]. split; [right; by apply scheme_ok_lower|]. set_solver.
Qed.

Lemma split_netloc_spec url n rest : split_netloc url = (n, rest) →
  free is_delim n ∧ (∀ c, c ∈ n ++ rest → c ∈ url) ∧
  (n ≠ [] → rest = [] ∨ ∃ c r, rest = c :: r ∧ is_delim c = true).
Proof.
  rewrite /split_netloc. intros Hs.
  assert ((n = [] ∧ rest = url) ∨ ∃ t, url = 47 :: 47 :: t ∧ cut_at is_delim t = (n, rest))
    as [[-> ->]|(t & -> & Ht)].
  { repeat case_match; simplify_eq; eauto. }
  - split; [apply free_nil|]. set_solver.
  - apply cut_at_spec in Ht as (-> & Hf & Hr). split; [exact Hf|]. split; [set_solver|done].
Qed.

Lemma splitparams_spec url a b : splitparams url = (a, b) →
  SEMICOLON ∉ last_segment a ∧ SLASH ∉ b ∧ (∀ c, c ∈ a ++ b → c ∈ url) ∧
  (first url = Some SLASH → first a = Some SLASH).
Proof.
  rewrite /splitparams. destruct (rpartition_at SLASH url) as [[d f] seg] eqn:Hr.
  apply rpartition_at_spec in Hr as [Hseg Hu].
  destruct (partition_at SEMICOLON seg) as [[x g] y] eqn:Hp.
  apply partition_at_spec in Hp as [Hx Hs]. intros [= <- <-].
  assert (SLASH ∉ x ∧ SLASH ∉ y ∧ ∀ c, c ∈ x ++ y → c ∈ seg) as (Hsx & Hsy & Hin).
  { destruct g; [subst; set_solver|]. destruct Hs as [-> ->]. set_solver. }
  destruct f.
  - subst url. rewrite last_segment_app //. split_and!; [done..|set_solver|].
    by destruct d.
  - destruct Hu as [-> ->]. rewrite /last_segment /= rpartition_at_no //=.
    split_and!; [done..|set_solver|].
    intros Hf. exfalso. apply Hseg. destruct seg; simplify_eq/=. set_solver.
Qed.

Lemma rooted_front (rest path tail : pystr) :
  rest = [] ∨ (∃ c r, rest = c :: r ∧ is_delim c = true) →
  rest = path ++ tail → free query_mark path →
  path = [] ∨ first path = Some SLASH.
Proof.
  intros Hr Hs Hf. destruct path as [|x path]; [by left|]. right. simpl. f_equal.
  apply free_cons in Hf as [Hx _]. revert Hx. rewrite /query_mark.
  destruct Hr as [->|(y & r & -> & Hy)]; [done|]. simplify_eq/=.
  revert Hy. rewrite /is_delim /SLASH /QUESTION /HASH. lia.
Qed.

Lemma partition_at_front c s a f b :
  partition_at c s = (a, f, b) → c ∉ a ∧ (∃ t, s = a ++ t) ∧ ∀ x, x ∈ b → x ∈ s.
Proof.
  intros [Ha Hs]%partition_at_spec. destruct f; [subst; split; [done|]; set_solver|].
  destruct Hs as [-> ->]. split; [done|]. split; [exists []; by rewrite app_nil_r|set_solver].
Qed.

(** Everything a parsed URL holds, whatever was submitted. *)
Lemma urlparse_ok url p : urlparse url = Some p → parsed_ok p.
Proof.
  rewrite /urlparse. pose proof (clean_url_free url) as Hclean.
  destruct (split_scheme (clean_url url)) as [s r1] eqn:H1.
  apply split_scheme_spec in H1 as [Hs Hr1].
  destruct (split_netloc r1) as [n r2] eqn:H2. apply split_netloc_spec in H2 as (Hn & Hr2 & Hroot).
  destruct (partition_at HASH r2) as [[r3 f3] frag] eqn:H3.
  apply partition_at_front in H3 as (Hr3 & [t3 E3] & Hfrag).
  destruct (partition_at QUESTION r3) as [[r4 f4] q] eqn:H4.
  apply partition_at_front in H4 as (Hr4 & [t4 E4] & Hq).
  destruct (brackets_ok n && checknetloc n) eqn:Hb; [|done]. reflect_bools.
  assert (∀ c, c ∈ r4 → c ∈ r3) as H43 by (subst r3; set_solver).
  assert (∀ c, c ∈ r3 → c ∈ r2) as H32 by (subst r2; set_solver).
  assert (free query_mark r4) as Hqm.
  { intros c Hc. apply orb_false_iff. split; apply Z.eqb_neq; intros ->; [done|]. auto. }
  assert (n ≠ [] → r4 = [] ∨ first r4 = Some SLASH) as Hroot4.
  { intros Hne. eapply rooted_front; [by apply Hroot| |done]. by rewrite E3 E4 -app_assoc. }
  assert (free is_unsafe s) by (destruct Hs as [->|Hs]; [apply free_nil|by apply scheme_ok_free]).
  assert (free is_unsafe r4 ∧ free is_unsafe n ∧ free is_unsafe q ∧ free is_unsafe frag)
    as (?&?&?&?).
  { assert (∀ c, c ∈ n ++ r2 → is_unsafe c = false) as Hnr by eauto.
    split_and!; intros c Hc; apply Hnr, elem_of_app; eauto. }
  destruct (takes_params s && has_char SEMICOLON r4) eqn:Ht.
  - destruct (splitparams r4) as [a b] eqn:Hp. intros [= <-].
    apply splitparams_spec in Hp as (Hseg & Hsl & Hin & Hfirst). reflect_bools.
    split; simpl; try done; rewrite ?free_app; split_and?; try done.
    + apply (free_sub _ _ _ Hqm). intros; apply Hin, elem_of_app; auto.
    + intros Hne. destruct (Hroot4 Hne) as [->|Hf]; [done|auto].
    + intros c Hc. assert (query_mark c = false) as Hqc by (apply Hqm, Hin, elem_of_app; auto).
      rewrite /is_delim -orb_assoc. apply orb_false_iff.
      split; [apply Z.eqb_neq; by intros ->|done].
    + by case_match.
    + auto.
    + apply (free_sub _ r4); [done|]. intros; apply Hin, elem_of_app; auto.
    + apply (free_sub _ r4); [done|]. intros; apply Hin, elem_of_app; auto.
  - intros [= <-]. split; simpl; try done; rewrite ?free_app; split_and?; try done; try apply free_nil.
    + destruct (takes_params s); [|done]. simpl in Ht.
      intros Hin. apply (has_char_false SEMICOLON r4); [done|]. revert Hin. rewrite /last_segment.
      destruct (rpartition_at SLASH r4) as [[d f] x] eqn:Hr. simpl.
      apply rpartition_at_spec in Hr as [_ Hr]. destruct f; [subst; set_solver|].
      destruct Hr as [-> _]. done.
    + auto.
Qed.

(** ** A URL written from well-formed parts is read back *)

Definition canonical p : Prop :=
  parsed_ok p ∧ scheme p ≠ [] ∧ netloc p ≠ [] ∧ path p ≠ [].

Lemma split_scheme_app s rest :
  scheme_ok s → split_scheme (s ++ COLON :: rest) = (s, rest).
Proof.
  intros Hs. pose proof (scheme_ok_free s Hs) as [_ Hc]. destruct Hs as (Ha & Hf & Hl).
  rewrite /split_scheme partition_at_app // Ha Hf /= Hl. done.
Qed.

Lemma splitparams_app a b :
  SEMICOLON ∉ last_segment a → SLASH ∉ b → splitparams (a ++ SEMICOLON :: b) = (a, b).
Proof.
  rewrite /splitparams /last_segment. destruct (rpartition_at SLASH a) as [[d f] x] eqn:Hr. simpl.
  apply rpartition_at_spec in Hr as [Hx Ha]. intros Hsemi Hb.
  assert (SLASH ∉ x ++ SEMICOLON :: b) by set_solver. destruct f.
  - subst a. rewrite -app_assoc -app_comm_cons rpartition_at_app // partition_at_app //.
  - destruct Ha as [-> ->]. rewrite rpartition_at_no // partition_at_app //.
Qed.

Lemma splitparams_none a : SEMICOLON ∉ last_segment a → splitparams a = (a, []).
Proof.
  rewrite /splitparams /last_segment. destruct (rpartition_at SLASH a) as [[d f] x] eqn:Hr. simpl.
  apply rpartition_at_spec in Hr as [Hx Ha]. intros Hsemi. rewrite partition_at_no //.
  destruct f; [by subst|]. by destruct Ha as [-> ->].
Qed.

Definition with_mark (c : Z) (s : pystr) : pystr := match s with [] => [] | s => c :: s end.

Lemma with_mark_elem c s x : x ∈ with_mark c s → x = c ∨ x ∈ s.
Proof. destruct s; [by intros ?%elem_of_nil|]. by intros [->|?]%elem_of_cons; auto. Qed.

Lemma partition_with_mark c s t : c ∉ s → ∃ f, partition_at c (s ++ with_mark c t) = (s, f, t).
Proof.
  intros Hc. destruct t as [|d t]; simpl.
  - rewrite app_nil_r partition_at_no //. by eexists.
  - rewrite partition_at_app //. by eexists.
Qed.

Lemma geturl_canonical p : canonical p →
  geturl p = scheme p ++ COLON :: 47 :: 47 :: netloc p ++
    ((path p ++ with_mark SEMICOLON (params p)) ++ with_mark QUESTION (query p)) ++
    with_mark HASH (fragment p).
Proof.
  intros (Hok & Hs & Hn & Hp). pose proof (po_rooted p Hok Hn) as [?|Hroot]; [done|].
  rewrite /geturl. destruct (netloc p) as [|n0 n] eqn:En; [done|].
  destruct (scheme p) as [|s0 s] eqn:Es; [done|].
  destruct (path p) as [|c0 pa] eqn:Ep; [done|]. injection Hroot as ->.
  rewrite bool_decide_false //= /with_mark -!app_assoc /= -!app_assoc /= -!app_assoc.
  by destruct (params p), (query p), (fragment p).
Qed.

Lemma clean_url_id url : starts_alpha url = true → free is_unsafe url → clean_url url = url.
Proof.
  intros Ha Hf. rewrite /clean_url. destruct url as [|c url]; [done|]. simpl in *.
  assert ((c <=? 32) = false) as ->.
  { revert Ha. rewrite /is_alpha /is_upper /is_lower. lia. }
  apply filter_keep. intros x Hx. apply negb_true_iff. by apply Hf.
Qed.

Lemma cut_params s pa ps :
  (if takes_params s then SEMICOLON ∉ last_segment pa else ps = []) → free is_delim ps →
  (let url := pa ++ with_mark SEMICOLON ps in
   if takes_params s && has_char SEMICOLON url then splitparams url else (url, [])) = (pa, ps).
Proof.
  intros Hseg Hps. simpl. destruct (takes_params s); simpl; [|subst; by rewrite /= app_nil_r].
  assert (SLASH ∉ ps) by (by eapply free_not_in).
  destruct ps as [|x ps]; simpl.
  - rewrite app_nil_r. case_match; [by apply splitparams_none|done].
  - assert (has_char SEMICOLON (pa ++ SEMICOLON :: x :: ps) = true) as ->
      by (apply has_char_spec; set_solver).
    by apply splitparams_app.
Qed.

Lemma urlparse_geturl p : canonical p → urlparse (geturl p) = Some p.
Proof.
  intros Hc. rewrite geturl_canonical //. destruct Hc as (Hok & Hs & Hn & Hp).
  destruct Hok as [[?|Hsch] Hnet Hbr Hck Hpath Hroot Hpar Hseg Hq Hcl]; [done|].
  rewrite !free_app in Hcl. destruct Hcl as (?&?&?&?&?&?).
  specialize (Hroot Hn) as [?|Hroot]; [done|]. rewrite /urlparse clean_url_id.
  - rewrite split_scheme_app //. cbn [split_netloc]. rewrite cut_at_app; [|exact Hnet|].
    2:{ right. destruct (path p); [done|]. simplify_eq/=. by eexists _, _. }
    assert (HASH ∉ path p) by (eapply free_not_in; [exact Hpath|done]).
    assert (QUESTION ∉ path p) by (eapply free_not_in; [exact Hpath|done]).
    assert (HASH ∉ params p) by (eapply free_not_in; [exact Hpar|done]).
    assert (QUESTION ∉ params p) by (eapply free_not_in; [exact Hpar|done]).
    edestruct (partition_with_mark HASH) as [f1 ->].
    { rewrite !not_elem_of_app. split_and!; [done|..]; by intros [?|?]%with_mark_elem. }
    edestruct (partition_with_mark QUESTION) as [f2 ->].
    { rewrite !not_elem_of_app. split_and!; [done|..]; by intros [?|?]%with_mark_elem. }
    rewrite Hbr Hck /=. pose proof (cut_params (scheme p) (path p) (params p) Hseg Hpar) as Hcut.
    simpl in Hcut. rewrite Hcut. by destruct p.
  - destruct Hsch as [Ha _]. by destruct (scheme p).
  - rewrite !free_app !free_cons !free_app. split_and!; try done;
      intros c [->|?]%with_mark_elem; auto.
Qed.

(** Every character kept by the parser stood in the text. *)
Lemma urlparse_elem url p c : urlparse url = Some p →
  c ∈ netloc p ++ path p ++ params p ++ query p → c ∈ url.
Proof.
  assert (∀ c, c ∈ clean_url url → c ∈ url) as Hcl.
  { intros d. rewrite /clean_url list_elem_of_In filter_In -list_elem_of_In.
    intros [Hd _]. by eapply lstrip_by_elem. }
  rewrite /urlparse. destruct (split_scheme (clean_url url)) as [s r1] eqn:H1.
  apply split_scheme_spec in H1 as [_ Hr1].
  destruct (split_netloc r1) as [n r2] eqn:H2. apply split_netloc_spec in H2 as (_ & Hr2 & _).
  destruct (partition_at HASH r2) as [[r3 f3] frag] eqn:H3.
  apply partition_at_front in H3 as (_ & [t3 E3] & _).
  destruct (partition_at QUESTION r3) as [[r4 f4] q] eqn:H4.
  apply partition_at_front in H4 as (_ & [t4 E4] & Hq).
  case_match; [|done].
  assert (∀ c, c ∈ n ∨ c ∈ r4 ∨ c ∈ q → c ∈ url) as Hin.
  { intros d Hd. apply Hcl, Hr1, Hr2, elem_of_app. rewrite E3 elem_of_app E4 elem_of_app.
    rewrite E4 in Hq. setoid_rewrite elem_of_app in Hq. naive_solver. }
  destruct (takes_params s && has_char SEMICOLON r4).
  - destruct (splitparams r4) as [a b] eqn:Hp. apply splitparams_spec in Hp as (_ & _ & Hab & _).
    intros [= <-]. simpl. rewrite !elem_of_app. setoid_rewrite elem_of_app in Hab. naive_solver.
  - intros [= <-]. simpl. rewrite !elem_of_app. naive_solver.
Qed.

(** ** The host of an authority *)

Lemma hostinfo_elem n c : c ∈ (hostinfo n).1 → c ∈ n.
Proof.
  rewrite /hostinfo. destruct (rpartition_at AT_SIGN n) as [[u f] info] eqn:H1.
  apply rpartition_at_spec in H1 as [_ H1].
  assert (∀ c, c ∈ info → c ∈ n) as Hi.
  { destruct f; [subst; set_solver|]. by destruct H1 as [-> _]. }
  destruct (partition_at OPEN_BRACKET info) as [[x g] b] eqn:H2.
  apply partition_at_front in H2 as (_ & _ & Hb). destruct g.
  - destruct (partition_at CLOSE_BRACKET b) as [[h g'] r] eqn:H3.
    apply partition_at_front in H3 as (_ & [t Eb] & _). subst b.
    destruct (partition_at COLON r) as [[? ?] ?]. simpl. intros Hc. apply Hi, Hb, elem_of_app. auto.
  - destruct (partition_at COLON info) as [[h g'] r] eqn:H3.
    apply partition_at_front in H3 as (_ & [t Eb] & _). subst info. simpl. intros Hc.
    apply Hi, elem_of_app. auto.
Qed.

Lemma hostinfo_marks n : AT_SIGN ∉ n →
  if has_char OPEN_BRACKET n then CLOSE_BRACKET ∉ (hostinfo n).1 else COLON ∉ (hostinfo n).1.
Proof.
  intros Ha. rewrite /hostinfo rpartition_at_no //.
  destruct (partition_at OPEN_BRACKET n) as [[x g] b] eqn:H2.
  apply partition_at_spec in H2 as [Hx H2]. destruct g.
  - assert (has_char OPEN_BRACKET n = true) as -> by (apply has_char_spec; set_solver).
    destruct (partition_at CLOSE_BRACKET b) as [[h g'] r] eqn:H3.
    apply partition_at_front in H3 as (Hh & _). by destruct (partition_at COLON r) as [[? ?] ?].
  - destruct H2 as [-> _]. rewrite (proj2 (has_char_false _ _) Hx).
    destruct (partition_at COLON x) as [[h g'] r] eqn:H3.
    by apply partition_at_front in H3 as (Hh & _).
Qed.
End parsed.
