(* ===== verification/OriginalUrl.v ===== *)
(** * Destination addresses

    [domain/value_objects/original_url.py]: what a submitted URL must satisfy
    to become the target of a link, and the normal form that deduplication
    and code generation work on.

    Two things the file relies on are not in the repository: the Unicode
    tables of the interpreter (classes [CaseFolding] and [Nfkc]) and the
    [idna] package (class [Idna], whose [None] stands for the [IDNAError] or
    [UnicodeError] it raises).  [IdnaLaws] is what that package documents of
    its results: they are A-labels and lower-case letter-digit-hyphen labels,
    and a name with a colon in it is refused.

    A parsed host holds no newline ([urlparse] removes it, and no A-label has
    one), so the patterns are written without the newline [$] would let pass
    at the end of a text. *)

From S2P Require Import Prelude PyStr Exceptions ValueObjects IpAddress UrlParse CodeGen.

Class Idna := idna_encode : pystr → option pystr.

Definition is_ldh (c : Z) : bool := is_lower c || is_digit c || (c =? HYPHEN) || (c =? DOT).

Class IdnaLaws `{Idna} : Prop := {
  idna_ldh h a : idna_encode h = Some a → forallb is_ldh a = true;
  idna_no_colon h : COLON ∈ h → idna_encode h = None;
}.

Definition default_port (scheme : pystr) : option Z :=
  if bool_decide (scheme = lit "http") then Some 80
  else if bool_decide (scheme = lit "https") then Some 443 else None.

Definition SPECIAL_USE_SUFFIXES : list pystr :=
  lit <$> ["localhost"; "local"; "home.arpa"; "internal"; "alt"; "corp"; "home"; "mail";
           "localdomain"; "intranet"; "lan"; "private"; "svc"; "consul"; "novalocal";
           "openstacklocal"]%string.

(** [_without_root_label]. *)
Definition without_root_label (host : pystr) : pystr :=
  if endswith [DOT] host && negb (endswith [DOT; DOT] host)
  then take (length host - 1) host else host.

Definition is_label_char (c : Z) : bool := is_alnum c || (c =? HYPHEN).
(** [LABEL_PATTERN.match]. *)
Definition label_matches (s : pystr) : bool :=
  match first s, list.last s with
  | Some a, Some z => is_alnum a && is_alnum z && forallb is_label_char s && (len s <=? 63)
  | _, _ => false
  end.

(** The digits [_RADIX_DIGITS] admits. *)
Definition radix_digit (radix c : Z) : bool :=
  if radix =? 8 then (48 <=? c) && (c <=? 55)
  else if radix =? 10 then is_digit c else is_hexdigit c.

Definition is_control (c : Z) : bool := (c <? 32) || (c =? 127).

Definition bad_url {A} (template : string) : result exn A := Err (invalid "url" template).

Section original_url.
Context `{CaseFolding} `{Nfkc} `{Idna}.

(** ** The address a host stands for *)

Definition parse_ipv4_part (part : pystr) : option Z :=
  match part with
  | [] => None
  | c :: _ =>
      if bool_decide (lower (take 2 part) = lit "0x") then
        match drop 2 part with
        | [] => Some 0
        | digits => if forallb (radix_digit 16) digits then Some (int_of 16 digits) else None
        end
      else if (c =? 48) && (1 <? len part) then
        if forallb (radix_digit 8) (drop 1 part) then Some (int_of 8 (drop 1 part)) else None
      else if forallb (radix_digit 10) part then Some (int_of 10 part) else None
  end.

Definition ends_in_number (part : pystr) : bool := bool_decide (is_Some (parse_ipv4_part part)).

(** A single trailing dot is the root, not an empty label. *)
Definition address_parts (host : pystr) : list pystr :=
  let parts := split_on DOT host in
  match list.last parts with Some [] => take (length parts - 1) parts | _ => parts end.

(** [packed]: the last number, and the others at their byte. *)
Fixpoint packed_front (index : Z) (front : list Z) : Z :=
  match front with
  | [] => 0
  | n :: front => n * 256 ^ (3 - index) + packed_front (index + 1) front
  end.

Definition as_ip_address (host : pystr) : result exn (option ip_address) :=
  if has_char COLON host then
    match parse_ipv6 host with
    | Some a => Ok (Some a)
    | None => bad_url "Invalid IP address in host"
    end
  else
    let parts := address_parts host in
    match list.last parts with
    | None => Ok None
    | Some final =>
        if negb (ends_in_number final) then Ok None
        else if bool_decide (4 < length parts)%nat then bad_url "Invalid IP address in host"
        else
          match mapM parse_ipv4_part parts with
          | None => bad_url "Invalid IP address in host"
          | Some numbers =>
              let front := take (length numbers - 1) numbers in
              let tail := default 0 (list.last numbers) in
              if existsb (λ n, 255 <? n) front then bad_url "Invalid IP address in host"
              else if 256 ^ (4 - (len numbers - 1)) <=? tail
              then bad_url "Invalid IP address in host"
              else Ok (Some (IPv4 (tail + packed_front 0 front)))
          end
    end.

(** The address itself and the IPv4 addresses it embeds. *)
Definition candidates (a : ip_address) : list ip_address :=
  a :: omap id [ipv4_mapped a; sixtofour a] ++
  match teredo a with Some (server, client) => [server; client] | None => [] end.

Definition is_internal_address (a : ip_address) : bool :=
  existsb (λ c, negb (is_global c) || is_private c || is_loopback c || is_link_local c
                || is_multicast c || is_reserved_address c || is_unspecified c)
    (candidates a).

Definition to_ascii_host (host : pystr) : result exn pystr :=
  let host := without_root_label host in
  if isascii host then Ok (lower host)
  else match idna_encode host with
       | Some a => Ok a
       | None => bad_url "Invalid international domain name: %(reason)s"
       end.

(** ** Admission *)

Definition parse (value : pystr) : result exn ParseResult :=
  match urlparse value with
  | Some p => Ok p
  | None => bad_url "Malformed URL: its authority cannot be parsed"
  end.

Definition validate_length (st : UrlSettings) (value : pystr) : result exn unit :=
  require (len value <=? max_url_length st) (invalid "url" "URL too long (max %(max)s characters)").

Definition validate_admissible_characters (value : pystr) : result exn unit :=
  require (negb (existsb is_control value)) (invalid "url" "URL contains control characters").

Definition validate_scheme (st : UrlSettings) (p : ParseResult) : result exn unit :=
  if bool_decide (scheme p = []) then bad_url "URL must have a scheme!"
  else require (bool_decide (scheme p ∈ allowed_schemes st))
         (invalid "url" "Scheme '%(scheme)s' is not allowed. Allowed schemes: %(allowed)s").

Definition validate_no_credentials (p : ParseResult) : result exn unit :=
  require (negb (has_char AT_SIGN (netloc p)))
    (invalid "url" "URL must not contain credentials before the host").

Definition validate_bracketed_host_is_an_address (p : ParseResult) : result exn unit :=
  if negb (has_char OPEN_BRACKET (netloc p)) && negb (has_char CLOSE_BRACKET (netloc p)) then Ok tt
  else require (bool_decide (is_Some (parse_ipv6 (default [] (hostname p)))))
         (invalid "url" "Brackets in a URL enclose an IPv6 address").

Definition validate_authority_present (p : ParseResult) : result exn unit :=
  if bool_decide (netloc p = []) then bad_url "URL must have a domain!"
  else if bool_decide (hostname p = None) then bad_url "URL must have a hostname"
  else require (bool_decide (is_Some (port p))) (invalid "url" "Invalid port number").

Fixpoint validate_labels (labels : list pystr) : result exn unit :=
  match labels with
  | [] => Ok tt
  | label :: labels =>
      if bool_decide (label = []) then bad_url "Empty label in host"
      else if 63 <? len label then bad_url "Label too long"
      else if label_matches label then validate_labels labels
      else bad_url "Invalid characters in host label: %(label)s"
  end.

Definition validate_host (host : pystr) : result exn unit :=
  if bool_decide (host = []) then bad_url "Empty host"
  else
    let host := without_root_label host in
    if bool_decide (is_Some (parse_ip host)) then Ok tt
    else if bool_decide (host = lit "localhost") then Ok tt
    else
      to_ascii_host host ≫= λ host,
      if negb (has_char DOT host) then bad_url "Host must contain a dot (e.g., example.com)"
      else if 253 <? len host then bad_url "Host too long"
      else validate_labels (split_on DOT host).

Definition validate_netloc (p : ParseResult) : result exn unit :=
  match port p with
  | Some (Some n) =>
      require ((1 <=? n) && (n <=? 65535)) (invalid "url" "Invalid port number") ≫= λ _,
      validate_host (default [] (hostname p))
  | Some None => validate_host (default [] (hostname p))
  | None => Err (PyError ValueError)
  end.

Definition validate_path (p : ParseResult) : result exn unit :=
  require (negb (existsb is_control (path p))) (invalid "url" "Path contains control characters").

Definition special_use (host : pystr) : bool :=
  let ascii_host := rstrip_by (Z.eqb DOT) host in
  existsb (λ suffix, bool_decide (ascii_host = suffix) || endswith (DOT :: suffix) ascii_host)
    SPECIAL_USE_SUFFIXES.

Definition validate_public_target (st : UrlSettings) (p : ParseResult) : result exn unit :=
  if allow_internal_targets st then Ok tt
  else
    to_ascii_host (default [] (hostname p)) ≫= λ host,
    as_ip_address host ≫= λ address,
    match address with
    | None => require (negb (special_use host)) (invalid "url" "URL must point at a public address")
    | Some a =>
        require (negb (is_internal_address a)) (invalid "url" "URL must point at a public address")
    end.

(** [OriginalUrl(value, ...)] and [OriginalUrl.from_storage(value)]. *)
Definition new_url (st : UrlSettings) (value : pystr) : result exn OriginalUrl :=
  validate_length st value ≫= λ _,
  validate_admissible_characters value ≫= λ _,
  parse value ≫= λ p,
  validate_scheme st p ≫= λ _,
  validate_authority_present p ≫= λ _,
  validate_no_credentials p ≫= λ _,
  validate_bracketed_host_is_an_address p ≫= λ _,
  validate_netloc p ≫= λ _,
  validate_path p ≫= λ _,
  validate_public_target st p ≫= λ _,
  Ok (MkOriginalUrl value).

Definition url_from_storage (value : pystr) : result exn OriginalUrl :=
  parse value ≫= λ p, validate_authority_present p ≫= λ _, Ok (MkOriginalUrl value).

(** ** The normal form *)

Definition normal_netloc (p : ParseResult) (host : pystr) (port : option Z) : pystr :=
  let host := if has_char COLON host || has_char OPEN_BRACKET (netloc p)
              then OPEN_BRACKET :: host ++ [CLOSE_BRACKET] else host in
  let authority :=
    match port with
    | Some n => if bool_decide (default_port (lower (scheme p)) = Some n) then host
                else host ++ COLON :: str_of_Z n
    | None => host
    end in
  let '(userinfo, separator, _) := rpartition_at AT_SIGN (netloc p) in
  userinfo ++ (if separator then [AT_SIGN] else []) ++ authority.

Definition url_normalize (u : OriginalUrl) : result exn pystr :=
  parse (ou_value u) ≫= λ p,
  to_ascii_host (default [] (hostname p)) ≫= λ host,
  match port p with
  | None => Err (PyError ValueError)
  | Some n =>
      Ok (geturl (MkParseResult (lower (scheme p)) (normal_netloc p host n)
                    (match path p with [] => [SLASH] | s => s end) (params p) (query p) []))
  end.

#[export] Instance OriginalUrl_rules : UrlRules :=
  MkUrlRules new_url url_from_storage url_normalize.
End original_url.
