(* ===== verification/UrlTheorems.v ===== *)
(** * What an admitted destination is, and its normal form

    Theorems about [OriginalUrl].  A host that a resolver reads as an IPv4
    address is recognised however it is spelt (fewer than four parts, octal
    or hexadecimal numbers, a trailing dot), so no spelling of an internal
    address is admitted; [reads_ipv4] is that reading, written independently
    of the code, after [inet_aton].  The normal form of an admitted URL is a
    fixed point of normalisation and keeps the target. *)

From S2P Require Import Prelude PyStr Exceptions ValueObjects IpAddress UrlParse.
From S2P Require Import CodeGen OriginalUrl.

(** ** How a resolver reads an IPv4 address *)

Definition is_octal (c : Z) : bool := (48 <=? c) && (c <=? 55).

Inductive reads_part : pystr → Z → Prop :=
| reads_hexadecimal x ds : x = 120 ∨ x = 88 → forallb is_hexdigit ds = true →
    reads_part (48 :: x :: ds) (int_of 16 ds)
| reads_octal ds : forallb is_octal ds = true → reads_part (48 :: ds) (int_of 8 ds)
| reads_decimal c ds : c ≠ 48 → forallb is_digit (c :: ds) = true →
    reads_part (c :: ds) (int_of 10 (c :: ds)).

Definition byte (n : Z) : Prop := 0 <= n < 256.

Inductive reads_parts : list pystr → Z → Prop :=
| reads_1 a n : reads_part a n → n < 2 ^ 32 → reads_parts [a] n
| reads_2 a b m n : reads_part a m → reads_part b n → byte m → n < 2 ^ 24 →
    reads_parts [a; b] (m * 2 ^ 24 + n)
| reads_3 a b c k m n : reads_part a k → reads_part b m → reads_part c n →
    byte k → byte m → n < 2 ^ 16 → reads_parts [a; b; c] (k * 2 ^ 24 + m * 2 ^ 16 + n)
| reads_4 a b c d j k m n : reads_part a j → reads_part b k → reads_part c m → reads_part d n →
    byte j → byte k → byte m → byte n → reads_parts [a; b; c; d] (quad j k m n).

(** The parts joined by dots, with or without the dot of the root. *)
Definition reads_ipv4 (host : pystr) (n : Z) : Prop :=
  ∃ parts, reads_parts parts n ∧ (host = join [DOT] parts ∨ host = join [DOT] parts ++ [DOT]).

(** The blocks nobody outside the deployment's network can reach. *)
Definition internal_v4 (n : Z) : Prop :=
  Exists (λ b, b.1 <= n <= b.2)
    [(quad 0 0 0 0, quad 0 255 255 255); (quad 10 0 0 0, quad 10 255 255 255);
     (quad 100 64 0 0, quad 100 127 255 255); (quad 127 0 0 0, quad 127 255 255 255);
     (quad 169 254 0 0, quad 169 254 255 255); (quad 172 16 0 0, quad 172 31 255 255);
     (quad 192 168 0 0, quad 192 168 255 255); (quad 224 0 0 0, quad 255 255 255 255)].

(** A block given by its first and last address. *)
Definition block_ok (b k hi : Z) : bool :=
  (0 <=? b) && (b mod 2 ^ (32 - k) =? 0) && (0 <=? k) && (k <=? 32) && (b + 2 ^ (32 - k) =? hi + 1).

Lemma in_block b k hi n : block_ok b k hi = true → b <= n <= hi → in_net 32 n (b, k) = true.
Proof. rewrite /block_ok => Hb Hn. reflect_bools. apply in_net_interval; lia. Qed.

Lemma not_exception n : ¬ (3221225481 <= n <= 3221225482) → 0 <= n →
  in_nets 32 n v4_private_exceptions = false.
Proof.
  intros Hn Hpos. apply not_true_iff_false. rewrite /in_nets existsb_exists.
  intros (b & Hb & Hin). rewrite -list_elem_of_In in Hb.
  change v4_private_exceptions with [(3221225481, 32); (3221225482, 32)] in Hb.
  rewrite !elem_of_cons elem_of_nil in Hb.
  destruct Hb as [->|[->|[]]]; apply in_net_interval in Hin; try done;
    change (2 ^ (32 - 32)) with 1 in Hin; lia.
Qed.

Lemma private_block n b : b ∈ v4_private_networks → in_net 32 n b = true →
  in_nets 32 n v4_private_exceptions = false → v4_is_global n = false.
Proof.
  intros Hin Hb He. rewrite /v4_is_global /v4_is_private He.
  assert (in_nets 32 n v4_private_networks = true) as ->; [|by rewrite andb_false_r].
  apply existsb_exists. exists b. by rewrite -list_elem_of_In.
Qed.

Definition refused_v4 (n : Z) : bool :=
  negb (v4_is_global n) || v4_is_multicast n || v4_is_reserved n.

Lemma refused_is_internal n : refused_v4 n = true → is_internal_address (IPv4 n) = true.
Proof.
  rewrite /refused_v4 /is_internal_address. cbn [existsb candidates].
  change (is_global (IPv4 n)) with (v4_is_global n).
  change (is_multicast (IPv4 n)) with (v4_is_multicast n).
  change (is_reserved_address (IPv4 n)) with (v4_is_reserved n).
  rewrite !orb_true_iff. tauto.
Qed.

Lemma private_interval b k hi n : b <= n <= hi → block_ok b k hi = true →
  (b, k) ∈ v4_private_networks → (hi <? 3221225481) || (3221225482 <? b) = true →
  refused_v4 n = true.
Proof.
  intros Hn Hb Hin He. rewrite /refused_v4 (private_block n (b, k)) //; [by eapply in_block|].
  rewrite /block_ok in Hb. reflect_bools. apply not_exception; lia.
Qed.

Ltac in_table := vm_compute; repeat first [left; reflexivity | right].
Ltac private_block_is H k :=
  eapply (private_interval _ k _ _ H); [reflexivity|in_table|reflexivity].

Lemma internal_is_refused n : internal_v4 n → refused_v4 n = true.
Proof.
  rewrite /internal_v4 !Exists_cons Exists_nil.
  intros [Hn|[Hn|[Hn|[Hn|[Hn|[Hn|[Hn|[Hn|[]]]]]]]]]; cbn [fst snd] in Hn.
  - private_block_is Hn 8.
  - private_block_is Hn 8.
  - rewrite /refused_v4 /v4_is_global (in_block (quad 100 64 0 0) 10 (quad 100 127 255 255)) //.
  - private_block_is Hn 8.
  - private_block_is Hn 16.
  - private_block_is Hn 12.
  - private_block_is Hn 16.
  - rewrite /refused_v4 /v4_is_multicast /v4_is_reserved.
    destruct (decide (n < quad 240 0 0 0)) as [Hlt|Hge].
    + rewrite (in_block (quad 224 0 0 0) 4 (quad 239 255 255 255)) //; [by rewrite orb_true_r|].
      rewrite /quad in Hn Hlt |- *. lia.
    + rewrite (in_block (quad 240 0 0 0) 4 (quad 255 255 255 255)) //; [by rewrite orb_true_r|].
      rewrite /quad in Hn Hge |- *. lia.
Qed.

(** ** Every spelling is recognised *)

Lemma hexdigit_alnum c : is_hexdigit c = true → is_alnum c = true.
Proof. rewrite /is_hexdigit /is_alnum /is_alpha /is_upper /is_lower /is_digit. intros. lia. Qed.

Lemma forallb_impl {A} (p q : A → bool) l :
  (∀ x, p x = true → q x = true) → forallb p l = true → forallb q l = true.
Proof. rewrite !forallb_forall. auto. Qed.

Lemma reads_part_alnum s n : reads_part s n → s ≠ [] ∧ forallb is_alnum s = true.
Proof.
  destruct 1 as [x ds Hx Hd|ds Hd|c ds Hc Hd]; split; try done; simpl.
  - assert (is_alnum x = true) as -> by (destruct Hx; by subst).
    eapply forallb_impl; [|done]. apply hexdigit_alnum.
  - eapply forallb_impl; [|done]. rewrite /is_octal /is_alnum /is_digit. intros. lia.
  - eapply (forallb_impl is_digit _ (c :: ds)); [|done]. rewrite /is_alnum => x Hx. by rewrite Hx orb_true_r.
Qed.

Lemma alnum_not s c : forallb is_alnum s = true → is_alnum c = false → c ∉ s.
Proof. rewrite forallb_forall. intros Hs Hc Hin%list_elem_of_In%Hs. congruence. Qed.

Lemma digit_value_lower c : is_hexdigit c = true →
  digit_value (ascii_lower c) = digit_value c ∧ is_hexdigit (ascii_lower c) = true.
Proof.
  rewrite /is_hexdigit /digit_value /ascii_lower /is_digit /is_upper. intros.
  split; repeat case_match; lia.
Qed.

Lemma int_of_lower base s : forallb is_hexdigit s = true →
  int_of base (ascii_lower <$> s) = int_of base s ∧ forallb is_hexdigit (ascii_lower <$> s) = true.
Proof.
  rewrite /int_of. generalize 0. induction s as [|c s IH]; intros acc Hs; [done|]. simpl in *.
  reflect_bools. destruct (digit_value_lower c) as [-> ->]; [done|]. by apply IH.
Qed.

Lemma lower_digits s : forallb is_digit s = true → ascii_lower <$> s = s.
Proof.
  induction s as [|c s IH]; [done|]. cbn [forallb]. intros [Hc Hs]%andb_true_iff.
  rewrite fmap_cons IH //. f_equal.
  revert Hc. rewrite /ascii_lower /is_digit /is_upper. intros. case_match; lia.
Qed.

Lemma int_of_pos base s : 0 <= base → forallb is_hexdigit s = true → 0 <= int_of base s.
Proof.
  intros Hb. rewrite /int_of. generalize (Z.le_refl 0). generalize 0 at 2 4.
  induction s as [|c s IH]; intros acc Hacc; [done|]. cbn [forallb foldl].
  intros [Hc Hs]%andb_true_iff.
  apply IH; [|done]. assert (0 <= digit_value c); [|nia].
  revert Hc. rewrite /is_hexdigit /digit_value /is_digit /is_upper. repeat case_match; lia.
Qed.

Lemma digits_hex s : forallb is_digit s = true → forallb is_hexdigit s = true.
Proof. apply forallb_impl. by rewrite /is_hexdigit => x ->. Qed.

Lemma octal_digits s : forallb is_octal s = true → forallb is_digit s = true.
Proof. apply forallb_impl. rewrite /is_octal /is_digit. intros. lia. Qed.

Lemma reads_part_lower s n : reads_part s n → reads_part (ascii_lower <$> s) n.
Proof.
  destruct 1 as [x ds Hx Hd|ds Hd|c ds Hc Hd].
  - destruct (int_of_lower 16 ds Hd) as [<- Hl]. cbn [fmap list_fmap].
    apply (reads_hexadecimal (ascii_lower x)); [|done]. destruct Hx; subst; by auto.
  - change (ascii_lower <$> 48 :: ds) with (48 :: (ascii_lower <$> ds)).
    rewrite lower_digits; [by apply reads_octal|by apply octal_digits].
  - rewrite lower_digits //. by apply reads_decimal.
Qed.

Section spellings.
Context `{CaseFolding} `{Nfkc} `{Idna}.

Lemma reads_part_parse s n : reads_part s n → parse_ipv4_part s = Some n ∧ 0 <= n.
Proof.
  assert (∀ ds, forallb is_digit ds = true → bool_decide (lower (take 2 ds) = lit "0x") = false)
    as Hno.
  { intros ds Hd%(forallb_take _ 2). apply bool_decide_false. rewrite lower_ascii.
    - rewrite lower_digits //. intros Heq. by rewrite Heq in Hd.
    - revert Hd. apply forallb_impl. rewrite /is_digit /is_ascii. intros. lia. }
  destruct 1 as [x ds Hx Hd|ds Hd|c ds Hc Hd].
  - split; [|by apply int_of_pos].
    rewrite /parse_ipv4_part bool_decide_true; [|by destruct Hx; subst].
    cbn [drop]. destruct ds as [|d ds]; [done|].
    rewrite drop_0. by rewrite (_ : forallb (radix_digit 16) (d :: ds) = true).
  - pose proof (octal_digits ds Hd) as Hd'. split; [|by apply int_of_pos, digits_hex].
    rewrite /parse_ipv4_part Hno; [|done]. cbn [drop]. destruct ds as [|d ds]; [done|].
    assert ((1 <? len (48 :: d :: ds)) = true) as -> by (apply Z.ltb_lt; rewrite /len !length_cons; lia).
    cbn [andb Z.eqb Pos.eqb].
    by rewrite (_ : forallb (radix_digit 8) (d :: ds) = true).
  - split; [|by apply int_of_pos, digits_hex].
    rewrite /parse_ipv4_part Hno //. rewrite (proj2 (Z.eqb_neq c 48)) // andb_false_l.
    by rewrite (_ : forallb (radix_digit 10) (c :: ds) = true).
Qed.

Lemma reads_parts_each parts n : reads_parts parts n →
  parts ≠ [] ∧ (∀ s, s ∈ parts → ∃ m, reads_part s m).
Proof.
  destruct 1; (split; [done|]); intros s; rewrite !elem_of_cons elem_of_nil; naive_solver.
Qed.

Lemma parts_alnum parts n s : reads_parts parts n → s ∈ parts → s ≠ [] ∧ forallb is_alnum s = true.
Proof. intros [_ Hr]%reads_parts_each [m Hm]%Hr. by eapply reads_part_alnum. Qed.

Lemma spelling_chars parts n c : reads_parts parts n → c ∈ join [DOT] parts →
  c = DOT ∨ is_alnum c = true.
Proof.
  intros Hr [->|(s & Hs & Hc)]%join_chars; [by left|right].
  pose proof (parts_alnum _ _ _ Hr Hs) as [_ Ha]. rewrite forallb_forall in Ha.
  by apply Ha, list_elem_of_In.
Qed.

Lemma split_spelling parts n : reads_parts parts n → split_on DOT (join [DOT] parts) = parts.
Proof.
  intros Hr. apply split_on_join; [by apply reads_parts_each in Hr as [? _]|].
  intros s Hs. pose proof (parts_alnum _ _ _ Hr Hs) as [_ Ha]. by eapply alnum_not.
Qed.

Lemma address_parts_spelling parts n :
  reads_parts parts n → address_parts (join [DOT] parts) = parts.
Proof.
  intros Hr. rewrite /address_parts (split_spelling _ _ Hr).
  destruct (list.last parts) as [l|] eqn:Hl; [|done].
  apply last_Some_elem_of in Hl. apply (parts_alnum _ _ _ Hr) in Hl as [Hl _]. by destruct l.
Qed.

Lemma mapM_parts parts numbers :
  Forall2 reads_part parts numbers → mapM parse_ipv4_part parts = Some numbers.
Proof.
  induction 1 as [|s m parts numbers Hs _ IH]; [done|]. simpl.
  apply reads_part_parse in Hs as [-> _]. by rewrite /= IH.
Qed.

(** The numbers read, every one but the last a byte, the last within what is
    left of the 32 bits. *)
Lemma as_ip_address_numbers host parts numbers front tail :
  COLON ∉ host → address_parts host = parts → Forall2 reads_part parts numbers →
  numbers = front ++ [tail] → (length front <= 3)%nat → Forall byte front →
  tail < 256 ^ (4 - len front) →
  as_ip_address host = Ok (Some (IPv4 (tail + packed_front 0 front))).
Proof.
  intros Hc Hp HF -> Hlen Hfront Htail. rewrite /as_ip_address Hp (proj2 (has_char_false _ _) Hc).
  pose proof (Forall2_length HF) as Hl. rewrite length_app /= in Hl.
  rewrite (mapM_parts _ _ HF). apply Forall2_app_inv_r in HF as (ps & qs & _ & Hq & ->).
  apply Forall2_cons_inv_r in Hq as (q & qs' & Hq & Hqs & ->). apply Forall2_nil_inv_r in Hqs as ->.
  rewrite last_snoc /ends_in_number.
  apply reads_part_parse in Hq as [-> _]. rewrite bool_decide_true //=.
  rewrite bool_decide_false; [|lia]. rewrite length_app Nat.add_sub take_app_length last_snoc /=.
  assert (existsb (λ n, 255 <? n) front = false) as ->.
  { apply not_true_iff_false. rewrite existsb_exists. intros (n & Hn & Hn').
    rewrite Forall_forall in Hfront. apply Hfront in Hn. rewrite /byte in Hn. lia. }
  rewrite (_ : len (front ++ [tail]) - 1 = len front); [|rewrite /len length_app /=; lia].
  by rewrite (proj2 (Z.leb_gt _ _) Htail).
Qed.

Ltac pack :=
  do 3 f_equal; cbn [packed_front]; try change (256 ^ (3 - 0)) with 16777216;
  try change (256 ^ (3 - (0 + 1))) with 65536; try change (256 ^ (3 - (0 + 1 + 1))) with 256; lia.

Lemma as_ip_address_spelling parts n :
  reads_parts parts n → as_ip_address (join [DOT] parts) = Ok (Some (IPv4 n)).
Proof.
  intros Hr. assert (COLON ∉ join [DOT] parts) as Hc.
  { intros Hc. by destruct (spelling_chars _ _ _ Hr Hc). }
  pose proof (address_parts_spelling _ _ Hr) as Hp.
  destruct Hr as [a n Ha|a b m n Ha Hb|a b c k m n Ha Hb Hd|a b c d j k m n Ha Hb Hd He].
  - rewrite (as_ip_address_numbers _ _ [n] [] n Hc Hp); [..|done]; eauto.
    pack.
  - rewrite (as_ip_address_numbers _ _ [m; n] [m] n Hc Hp); [..|done]; eauto.
    pack.
  - rewrite (as_ip_address_numbers _ _ [k; m; n] [k; m] n Hc Hp); [..|done]; eauto.
    pack.
  - rewrite (as_ip_address_numbers _ _ [j; k; m; n] [j; k; m] n Hc Hp); eauto.
    + rewrite /quad. pack.
    + unfold byte in *. change (256 ^ (4 - len [j; k; m])) with 256. lia.
Qed.

(** ** The root label *)

Lemma endswith_snoc c d s : endswith [c] (s ++ [d]) = (c =? d).
Proof. rewrite /endswith reverse_snoc /=. by rewrite andb_true_r. Qed.

Lemma endswith_dot_nil : endswith [DOT] [] = false.
Proof. done. Qed.

Lemma without_root_keep s : endswith [DOT] s = false → without_root_label s = s.
Proof. by rewrite /without_root_label => ->. Qed.

Lemma without_root_drop s : endswith [DOT] s = false → without_root_label (s ++ [DOT]) = s.
Proof.
  intros Hs. rewrite /without_root_label endswith_snoc Z.eqb_refl.
  assert (endswith [DOT; DOT] (s ++ [DOT]) = false) as ->.
  { revert Hs. rewrite /endswith reverse_snoc. cbn [reverse]. by destruct (reverse s). }
  by rewrite /= length_app Nat.add_sub take_app_length.
Qed.

Lemma without_root_idemp s : without_root_label (without_root_label s) = without_root_label s.
Proof.
  destruct s as [|c s _] using rev_ind; [done|].
  destruct (endswith [DOT] (s ++ [c])) eqn:E; [|by rewrite !(without_root_keep (s ++ [c]))].
  rewrite endswith_snoc in E. apply Z.eqb_eq in E as <-.
  destruct (endswith [DOT] s) eqn:Es; [|rewrite without_root_drop //; by apply without_root_keep].
  assert (without_root_label (s ++ [DOT]) = s ++ [DOT]) as Hk; [|by rewrite !Hk].
  apply endswith_spec in Es as [t ->]. rewrite /without_root_label.
  assert (endswith [DOT; DOT] ((t ++ [DOT]) ++ [DOT]) = true) as ->; [|by rewrite andb_false_r].
  apply endswith_spec. exists t. by rewrite -app_assoc.
Qed.
End spellings.

(** ** Authorities *)

(** A host written without brackets, zone or user. *)
Definition is_mark (c : Z) : bool :=
  is_delim c || (c =? AT_SIGN) || (c =? COLON) || (c =? OPEN_BRACKET) || (c =? CLOSE_BRACKET)
  || (c =? PERCENT).

Record plain (h : pystr) : Prop := MkPlain {
  plain_nonempty : h ≠ [];
  plain_ascii : isascii h = true;
  plain_free : free is_mark h;
}.

Lemma ldh_plain c : is_alnum c = true ∨ c = HYPHEN ∨ c = DOT → is_ascii c = true ∧ is_mark c = false.
Proof.
  rewrite /is_alnum /is_alpha /is_ascii /is_mark /is_delim /is_upper /is_lower /is_digit
    /HYPHEN /DOT /SLASH /QUESTION /HASH /AT_SIGN /COLON /OPEN_BRACKET /CLOSE_BRACKET /PERCENT.
  intros. split; lia.
Qed.

Lemma plain_chars h : h ≠ [] → (∀ c, c ∈ h → is_alnum c = true ∨ c = HYPHEN ∨ c = DOT) → plain h.
Proof.
  intros Hne Hc. split; [done|..].
  - apply forallb_forall. intros c Hin. by apply ldh_plain, Hc, list_elem_of_In.
  - intros c Hin. by apply ldh_plain, Hc.
Qed.

Lemma plain_no h c : plain h → is_mark c = true → c ∉ h.
Proof. intros Hp Hc. by apply (free_not_in is_mark); [apply plain_free|]. Qed.

Definition decimal (s : pystr) : Prop := forallb is_digit s = true.

Lemma decimal_no s c : decimal s → is_digit c = false → c ∉ s.
Proof. rewrite /decimal forallb_forall. intros Hs Hc Hin%list_elem_of_In%Hs. congruence. Qed.


Lemma decimal_ascii s : decimal s → isascii s = true.
Proof. apply forallb_impl. rewrite /is_digit /is_ascii. intros. lia. Qed.

Section authority.
Context `{CaseFolding} `{Nfkc}.

Definition authority (h ptext : pystr) : pystr := h ++ with_mark COLON ptext.

Lemma authority_no h ptext c : plain h → decimal ptext → is_mark c = true → c ≠ COLON →
  is_digit c = false → c ∉ authority h ptext.
Proof.
  intros Hh Hp Hc Hne Hd. rewrite /authority not_elem_of_app. split; [by apply plain_no|].
  intros [->|?]%with_mark_elem; [done|]. by apply (decimal_no ptext c).
Qed.

Lemma authority_ascii h ptext : isascii h = true → decimal ptext → isascii (authority h ptext) = true.
Proof.
  intros Hh Hp%decimal_ascii. rewrite /authority isascii_app Hh /=.
  destruct ptext; [done|]. by rewrite /with_mark /isascii /=.
Qed.

Lemma authority_hostinfo h ptext : plain h → decimal ptext →
  hostinfo (authority h ptext) = (h, match ptext with [] => None | _ => Some ptext end).
Proof.
  intros Hh Hp. rewrite /hostinfo rpartition_at_no; [|by apply authority_no].
  rewrite partition_at_no; [|by apply authority_no]. rewrite /authority.
  edestruct (partition_with_mark COLON h ptext) as [f ->]; [by apply plain_no|]. by destruct ptext.
Qed.

Lemma authority_checks h ptext : plain h → decimal ptext →
  brackets_ok (authority h ptext) = true ∧ checknetloc (authority h ptext) = true ∧
  free is_delim (authority h ptext) ∧ free is_unsafe ptext.
Proof.
  intros Hh Hp. split_and!.
  - rewrite /brackets_ok !(proj2 (has_char_false _ _)) //; by apply authority_no.
  - rewrite /checknetloc authority_ascii //. apply Hh.
  - rewrite /authority free_app. split.
    + intros c Hc. pose proof (plain_free h Hh c Hc) as Hm. rewrite /is_mark in Hm.
      by destruct (is_delim c).
    + intros c [->|Hc]%with_mark_elem; [done|]. rewrite /decimal forallb_forall in Hp.
      apply list_elem_of_In, Hp in Hc. revert Hc.
      rewrite /is_digit /is_delim /SLASH /QUESTION /HASH. lia.
  - intros c Hc. rewrite /decimal forallb_forall in Hp. apply list_elem_of_In, Hp in Hc.
    revert Hc. rewrite /is_digit /is_unsafe. lia.
Qed.

Lemma plain_hostname p h ptext : plain h → decimal ptext → netloc p = authority h ptext →
  hostname p = Some (lower h).
Proof.
  intros Hh Hp Hn. rewrite /hostname Hn authority_hostinfo //. cbn [fst].
  destruct h as [|c h]; [by destruct (plain_nonempty _ Hh)|].
  rewrite partition_at_no; [|by apply (plain_no _ _ Hh)]. by rewrite /= app_nil_r.
Qed.
End authority.

(** ** No spelling of an internal address is admitted *)

Section public.
Context `{CaseFolding} `{Nfkc} `{Idna}.

(** What [new_url] established when it answered. *)
Record admitted (st : UrlSettings) (v : pystr) (p : ParseResult) : Prop := MkAdmitted {
  ad_length : len v <= max_url_length st;
  ad_chars : free is_control v;
  ad_parse : urlparse v = Some p;
  ad_scheme : scheme p ≠ [] ∧ scheme p ∈ allowed_schemes st;
  ad_authority : netloc p ≠ [] ∧ hostname p ≠ None;
  ad_user : AT_SIGN ∉ netloc p;
  ad_brackets : OPEN_BRACKET ∈ netloc p ∨ CLOSE_BRACKET ∈ netloc p →
    is_Some (parse_ipv6 (default [] (hostname p)));
  ad_port : ∃ n, port p = Some n ∧ match n with Some n => 1 <= n <= 65535 | None => True end;
  ad_host : validate_host (default [] (hostname p)) = Ok tt;
  ad_path : free is_control (path p);
  ad_public : validate_public_target st p = Ok tt;
}.

Lemma bind_unit_ok {E A} (r : result E unit) (k : unit → result E A) a :
  (r ≫= k) = Ok a ↔ r = Ok tt ∧ k tt = Ok a.
Proof. rewrite result_bind_ok. split; [by intros ([] & ? & ?)|by intros []; exists tt]. Qed.

Lemma no_control s : negb (existsb is_control s) = true ↔ free is_control s.
Proof.
  rewrite negb_true_iff -not_true_iff_false existsb_exists. split.
  - intros Hs c Hc. apply not_true_iff_false. intros Hb. apply Hs. exists c.
    by rewrite -list_elem_of_In.
  - intros Hs (c & Hc%list_elem_of_In & Hb). by rewrite Hs in Hb.
Qed.

Lemma scheme_valid st p :
  validate_scheme st p = Ok tt ↔ scheme p ≠ [] ∧ scheme p ∈ allowed_schemes st.
Proof.
  rewrite /validate_scheme. case_bool_decide; [naive_solver|].
  rewrite require_ok bool_decide_eq_true. naive_solver.
Qed.

Lemma authority_valid p : validate_authority_present p = Ok tt ↔
  (netloc p ≠ [] ∧ hostname p ≠ None) ∧ is_Some (port p).
Proof.
  rewrite /validate_authority_present. do 2 (case_bool_decide; [naive_solver|]).
  rewrite require_ok bool_decide_eq_true. naive_solver.
Qed.

Lemma brackets_valid p : validate_bracketed_host_is_an_address p = Ok tt ↔
  (OPEN_BRACKET ∈ netloc p ∨ CLOSE_BRACKET ∈ netloc p →
   is_Some (parse_ipv6 (default [] (hostname p)))).
Proof.
  rewrite /validate_bracketed_host_is_an_address -!has_char_spec.
  destruct (has_char OPEN_BRACKET (netloc p)), (has_char CLOSE_BRACKET (netloc p)); simpl;
    rewrite ?require_ok ?bool_decide_eq_true; naive_solver.
Qed.

Lemma netloc_valid p : validate_netloc p = Ok tt ↔
  (∃ n, port p = Some n ∧ match n with Some n => 1 <= n <= 65535 | None => True end) ∧
  validate_host (default [] (hostname p)) = Ok tt.
Proof.
  rewrite /validate_netloc. destruct (port p) as [[n|]|]; [|naive_solver..].
  rewrite bind_unit_ok require_ok andb_true_iff !Z.leb_le. naive_solver.
Qed.

Lemma new_url_admits st v u : new_url st v = Ok u ↔ u = MkOriginalUrl v ∧ ∃ p, admitted st v p.
Proof.
  rewrite /new_url bind_unit_ok require_ok Z.leb_le bind_unit_ok require_ok no_control result_bind_ok.
  setoid_rewrite bind_unit_ok. setoid_rewrite scheme_valid. setoid_rewrite bind_unit_ok.
  setoid_rewrite authority_valid. setoid_rewrite bind_unit_ok. rewrite /validate_no_credentials.
  setoid_rewrite require_ok. setoid_rewrite negb_true_iff. setoid_rewrite has_char_false.
  setoid_rewrite bind_unit_ok. setoid_rewrite brackets_valid.
  setoid_rewrite bind_unit_ok. setoid_rewrite netloc_valid.
  setoid_rewrite bind_unit_ok. rewrite /validate_path. setoid_rewrite require_ok.
  setoid_rewrite no_control. setoid_rewrite bind_unit_ok. rewrite /parse. split.
  - intros (? & ? & p & Hp & ? & [? _] & ? & ? & [? ?] & ? & ? & [= <-]). split; [done|].
    exists p. destruct (urlparse v) as [q|] eqn:Hv; [|done]. injection Hp as ->. by split.
  - intros (-> & p & []). do 2 (split; [done|]). exists p.
    rewrite ad_parse0. pose proof ad_port0 as (n & Hn & _).
    repeat (split; [done || (split; [done|]; done || by eexists)|]). done.
Qed.

Definition after_authority (tail : pystr) : Prop :=
  tail = [] ∨ ∃ c t, tail = c :: t ∧ is_delim c = true.

Lemma urlparse_authority s n tail p : scheme_ok s → free is_delim n → after_authority tail →
  free is_unsafe (s ++ lit "://" ++ n ++ tail) → urlparse (s ++ lit "://" ++ n ++ tail) = Some p →
  scheme p = s ∧ netloc p = n.
Proof.
  intros Hs Hn Ht Hf. change (lit "://" ++ n ++ tail) with (COLON :: 47 :: 47 :: n ++ tail) in *.
  rewrite /urlparse clean_url_id //; [|by destruct Hs as [Ha _]; destruct s].
  rewrite split_scheme_app //. cbn [split_netloc]. rewrite cut_at_app //.
  repeat case_match; intros; by simplify_eq/=.
Qed.

Lemma reads_ipv4_plain host n : reads_ipv4 host n → plain host.
Proof.
  intros (parts & Hr & Hh). pose proof (reads_parts_each _ _ Hr) as [Hne _].
  apply plain_chars.
  - destruct Hh as [->| ->]; [|by destruct (join [DOT] parts)].
    destruct parts as [|a [|b parts]]; [done|..].
    + by apply (parts_alnum _ _ a Hr); set_solver.
    + destruct a; done.
  - intros c Hc. assert (c ∈ join [DOT] parts ∨ c = DOT) as [Hin|?] by (destruct Hh; set_solver).
    + destruct (spelling_chars _ _ _ Hr Hin); auto.
    + auto.
Qed.

Definition lowered (parts : list pystr) : list pystr := (λ s : pystr, ascii_lower <$> s) <$> parts.

Lemma lower_join parts : ascii_lower <$> join [DOT] parts = join [DOT] (lowered parts).
Proof.
  induction parts as [|a [|b parts] IH]; [done..|].
  change (join [DOT] (a :: b :: parts)) with (a ++ DOT :: join [DOT] (b :: parts)).
  rewrite fmap_app fmap_cons IH. done.
Qed.

Lemma reads_parts_lower parts n : reads_parts parts n → reads_parts (lowered parts) n.
Proof. destruct 1; rewrite /lowered; cbn [fmap list_fmap]; constructor; by try apply reads_part_lower. Qed.

Lemma split_on_snoc c s : split_on c (s ++ [c]) = split_on c s ++ [[]].
Proof.
  induction s as [|d s IH]; simpl; [by rewrite Z.eqb_refl|]. rewrite IH.
  destruct (d =? c); [done|]. destruct (split_on c s) eqn:E; [by apply split_on_nonempty in E|done].
Qed.

Lemma spelling_end parts n : reads_parts parts n → endswith [DOT] (join [DOT] parts) = false.
Proof.
  intros Hr. apply not_true_iff_false. intros [t Ht]%endswith_spec.
  pose proof (split_spelling _ _ Hr) as Hs. rewrite Ht split_on_snoc in Hs.
  assert ([] ∈ parts) as Hin by (rewrite -Hs; set_solver).
  by apply (parts_alnum _ _ _ Hr) in Hin as [? _].
Qed.

Lemma reads_ipv4_ascii host n : reads_ipv4 host n →
  ∃ parts, reads_parts parts n ∧ to_ascii_host (lower host) = Ok (join [DOT] parts).
Proof.
  intros Hr. pose proof (plain_ascii _ (reads_ipv4_plain _ _ Hr)) as Ha.
  destruct Hr as (parts & Hr & Hh).
  assert (isascii (join [DOT] parts) = true) as Hj by (apply (reads_ipv4_plain _ n); exists parts; auto).
  exists (lowered parts). split; [by apply reads_parts_lower|].
  rewrite -lower_join -(lower_ascii _ Hj).
  assert (without_root_label (lower host) = lower (join [DOT] parts)) as Hw.
  { pose proof (spelling_end _ _ (reads_parts_lower _ _ Hr)) as He. rewrite -lower_join in He.
    rewrite !lower_ascii //. destruct Hh as [->| ->];
      [by apply without_root_keep|rewrite fmap_app; by apply without_root_drop]. }
  rewrite /to_ascii_host Hw isascii_lower //. by rewrite lower_idemp_ascii.
Qed.

(** A refusal is a validation error about the submitted address: no
    exception of the interpreter gets through. *)
Definition url_error {A} (r : result exn A) : Prop :=
  ∀ e, r = Err e → ∃ t, e = ValidationError t (Some (lit "url")).

Lemma url_error_ok {A} (a : A) : url_error (Ok a).
Proof. by intros e. Qed.
Lemma url_error_bad {A} t : url_error (bad_url (A := A) t).
Proof. intros e [= <-]. by eexists. Qed.
Lemma url_error_require b t : url_error (require b (invalid "url" t)).
Proof. destruct b; [by intros e|]. intros e [= <-]. by eexists. Qed.
Lemma url_error_bind {A B} (r : result exn A) (k : A → result exn B) :
  url_error r → (∀ a, r = Ok a → url_error (k a)) → url_error (r ≫= k).
Proof. destruct r as [a|e]; intros Hr Hk; [by apply Hk|]. intros e' [= <-]. by apply Hr. Qed.

Create HintDb url_error.
#[local] Hint Resolve url_error_ok url_error_bad url_error_require : url_error.

Ltac url_error :=
  repeat first [solve [eauto with url_error] | apply url_error_bind; [|intros] | case_match].

Lemma to_ascii_host_error h : url_error (to_ascii_host h).
Proof. rewrite /to_ascii_host. url_error. Qed.
Lemma as_ip_address_error h : url_error (as_ip_address h).
Proof. rewrite /as_ip_address. url_error. Qed.
Lemma validate_labels_error ls : url_error (validate_labels ls).
Proof. induction ls; simpl; url_error. Qed.
#[local] Hint Resolve to_ascii_host_error as_ip_address_error validate_labels_error : url_error.
Lemma validate_host_error h : url_error (validate_host h).
Proof. rewrite /validate_host. url_error. Qed.
Lemma validate_public_error st p : url_error (validate_public_target st p).
Proof. rewrite /validate_public_target. url_error. Qed.
#[local] Hint Resolve validate_host_error validate_public_error : url_error.

Lemma new_url_error st v : url_error (new_url st v).
Proof.
  rewrite /new_url /validate_length /validate_admissible_characters /parse /validate_scheme
    /validate_no_credentials /validate_bracketed_host_is_an_address /validate_path.
  do 4 (apply url_error_bind; [url_error|intros ? _]).
  apply url_error_bind; [rewrite /validate_authority_present; url_error|].
  intros [] [_ [n Hn]]%authority_valid. rewrite /validate_netloc Hn. url_error.
Qed.

Lemma public_address st p a host :
  allow_internal_targets st = false → to_ascii_host (default [] (hostname p)) = Ok host →
  as_ip_address host = Ok (Some a) → validate_public_target st p = Ok tt →
  is_internal_address a = false.
Proof.
  rewrite /validate_public_target => -> -> Ha. cbn [mbind result_bind]. rewrite Ha.
  cbn [mbind result_bind]. by rewrite require_ok negb_true_iff.
Qed.

Lemma spelling_refused st s host ptext tail n u :
  allow_internal_targets st = false → scheme_ok s → decimal ptext → after_authority tail →
  reads_ipv4 host n → internal_v4 n →
  new_url st (s ++ lit "://" ++ authority host ptext ++ tail) ≠ Ok u.
Proof.
  intros Hst Hs Hp Ht Hr Hn (_ & p & Ha)%new_url_admits.
  pose proof (reads_ipv4_plain _ _ Hr) as Hh. destruct (authority_checks host ptext Hh Hp) as (_ & _ & Hd & _).
  assert (free is_unsafe (s ++ lit "://" ++ authority host ptext ++ tail)) as Hf.
  { intros c Hc. apply (ad_chars _ _ _ Ha) in Hc. revert Hc. rewrite /is_control /is_unsafe. lia. }
  destruct (urlparse_authority _ _ _ _ Hs Hd Ht Hf (ad_parse _ _ _ Ha)) as [_ Hnet].
  destruct (reads_ipv4_ascii _ _ Hr) as (parts & Hparts & Hto).
  eapply (public_address _ _ (IPv4 n)) in Hst; [..|exact (ad_public _ _ _ Ha)].
  - by rewrite (refused_is_internal _ (internal_is_refused _ Hn)) in Hst.
  - by rewrite (plain_hostname _ _ _ Hh Hp Hnet).
  - by apply as_ip_address_spelling.
Qed.
End public.
