(* ===== verification/UrlNormal.v ===== *)
(** * The normal form of a destination

    [OriginalUrl.normalize] is what deduplication and code generation hash,
    so two things matter of it: normalising again changes nothing, and the
    normal form names the same target.  Both are proved for every admitted
    URL, international names and IPv6 literals included.

    The file starts with what the readers of addresses do not see: the case
    of letters.  [CaseLaws] is the one fact used of the Unicode case table:
    lower-casing yields no ASCII character that was not there, letters
    apart. *)

From S2P Require Import Prelude PyStr Exceptions ValueObjects CodeGen IpAddress UrlParse OriginalUrl UrlTheorems.

Class CaseLaws `{CaseFolding} : Prop :=
  unicode_lower_ascii s c : c ∈ unicode_lower s → c < 128 → c ∈ s ∨ is_lower c = true.

(** ** Reading an address ignores case *)

Abbreviation low := (fmap (M := list) ascii_lower).

Lemma is_digit_lower c : is_digit (ascii_lower c) = is_digit c.
Proof. rewrite /ascii_lower /is_upper /is_digit. case_match; lia. Qed.
Lemma is_hexdigit_lower c : is_hexdigit (ascii_lower c) = is_hexdigit c.
Proof. rewrite /is_hexdigit /is_digit /ascii_lower /is_upper. case_match; lia. Qed.
Lemma lower_fixed_iff c d : is_alpha d = false → ascii_lower c = d ↔ c = d.
Proof. rewrite /ascii_lower /is_alpha /is_upper /is_lower. case_match; lia. Qed.
Lemma lower_eqb c d : is_alpha d = false → (ascii_lower c =? d) = (c =? d).
Proof.
  intros Hd. destruct (c =? d) eqn:E.
  - apply Z.eqb_eq in E as ->. apply Z.eqb_eq. by apply lower_fixed_iff.
  - apply Z.eqb_neq. rewrite lower_fixed_iff //. by apply Z.eqb_neq.
Qed.

Lemma forallb_low (p : Z → bool) s :
  (∀ c, p (ascii_lower c) = p c) → forallb p (low s) = forallb p s.
Proof. intros Hp. induction s as [|c s IH]; [done|]. simpl. by rewrite Hp IH. Qed.

Lemma has_char_low c s : is_alpha c = false → has_char c (low s) = has_char c s.
Proof.
  intros Hc. rewrite /has_char. induction s as [|d s IH]; [done|]. simpl.
  by rewrite IH Z.eqb_sym lower_eqb // Z.eqb_sym.
Qed.

Lemma split_on_low c s : is_alpha c = false →
  split_on c (low s) = (low : pystr → pystr) <$> split_on c s.
Proof.
  intros Hc. induction s as [|d s IH]; [done|]. cbn [fmap list_fmap split_on].
  rewrite lower_eqb //. change (list_fmap _ _ ascii_lower s) with (low s). rewrite IH.
  destruct (d =? c); [done|]. by destruct (split_on c s).
Qed.

Lemma partition_at_low c s : is_alpha c = false →
  partition_at c (low s) = let '(a, f, b) := partition_at c s in (low a, f, low b).
Proof.
  intros Hc. induction s as [|d s IH]; [done|]. cbn [fmap list_fmap partition_at].
  rewrite lower_eqb //. change (list_fmap _ _ ascii_lower s) with (low s). rewrite IH.
  destruct (d =? c); [done|]. by destruct (partition_at c s) as [[a f] b].
Qed.

Lemma low_nil s : low s = [] ↔ s = [].
Proof. by destruct s. Qed.

Lemma len_low s : len (low s) = len s.
Proof. by rewrite /len length_fmap. Qed.

Lemma parse_octet_low s : parse_octet (low s) = parse_octet s.
Proof.
  destruct (forallb is_digit s) eqn:E; [by rewrite lower_digits|].
  rewrite /parse_octet (forallb_low is_digit _ is_digit_lower) E !orb_true_r. by simpl.
Qed.

Lemma parse_ipv4_low s : parse_ipv4 (low s) = parse_ipv4 s.
Proof.
  rewrite /parse_ipv4 split_on_low //.
  destruct (split_on DOT s) as [|a [|b [|c [|d [|e l]]]]]; try done. simpl.
  change (list_fmap _ _ ascii_lower a) with (low a). by rewrite !parse_octet_low.
Qed.

Lemma parse_hextet_low s : parse_hextet (low s) = parse_hextet s.
Proof.
  rewrite /parse_hextet (forallb_low is_hexdigit _ is_hexdigit_lower) len_low.
  rewrite (bool_decide_ext _ _ (low_nil s)).
  destruct (forallb is_hexdigit s) eqn:E; [|by rewrite orb_true_r].
  by destruct (int_of_lower 16 s E) as [-> _].
Qed.

Definition low_part (p : pystr + Z) : pystr + Z :=
  match p with inl s => inl (low s) | inr n => inr n end.

Lemma hextets_low ps : hextets (low_part <$> ps) = hextets ps.
Proof.
  rewrite /hextets. induction ps as [|p ps IH]; [done|]. simpl. rewrite -IH.
  destruct p as [s|n]; [|done]. simpl. by rewrite parse_hextet_low.
Qed.

Lemma low_part_blank (ps : list (pystr + Z)) i :
  (low_part <$> ps) !! i = Some (inl []) ↔ ps !! i = Some (inl []).
Proof.
  rewrite list_lookup_fmap. destruct (ps !! i) as [[s|n]|]; simpl; [|naive_solver..].
  split; [intros [= Hs]; by rewrite (proj1 (low_nil s) Hs)|by intros [= ->]].
Qed.

Lemma first_low_blank (ps : list (pystr + Z)) :
  first (low_part <$> ps) = Some (inl []) ↔ first ps = Some (inl []).
Proof. pose proof (low_part_blank ps 0) as Hb. destruct ps; [done|exact Hb]. Qed.

Lemma skips_low ps : skips (low_part <$> ps) = skips ps.
Proof.
  rewrite /skips length_fmap. apply list_filter_iff. intros i. apply low_part_blank.
Qed.

Lemma parse_ipv6_groups_low ps : parse_ipv6_groups (low_part <$> ps) = parse_ipv6_groups ps.
Proof.
  rewrite /parse_ipv6_groups skips_low length_fmap (bool_decide_ext _ _ (first_low_blank ps))
    (bool_decide_ext _ _ (low_part_blank ps (length ps - 1))) hextets_low.
  destruct (skips ps) as [|k [|? ?]]; [done| |done]. by rewrite -fmap_take -fmap_drop !hextets_low.
Qed.

Lemma unfold_quad_low (parts : list pystr) :
  unfold_quad ((low : pystr → pystr) <$> parts) = fmap (M := list) low_part <$> unfold_quad parts.
Proof.
  rewrite /unfold_quad -fmap_reverse. destruct (reverse parts) as [|l r]; [done|].
  cbn [fmap list_fmap]. change (list_fmap _ _ ascii_lower l) with (low l).
  rewrite has_char_low // parse_ipv4_low. destruct (has_char DOT l).
  - destruct (parse_ipv4 l) as [n|]; [|done]. simpl. f_equal. rewrite fmap_app. f_equal.
    rewrite -fmap_reverse -!list_fmap_compose. done.
  - simpl. f_equal. by rewrite -!list_fmap_compose.
Qed.

Lemma parse_ipv6_value_low s : parse_ipv6_value (low s) = parse_ipv6_value s.
Proof.
  rewrite /parse_ipv6_value split_on_low // length_fmap unfold_quad_low.
  case_bool_decide; [done|]. destruct (unfold_quad (split_on COLON s)) as [ps|]; [|done]. simpl.
  by rewrite length_fmap parse_ipv6_groups_low.
Qed.

Lemma parse_ipv6_low s : is_Some (parse_ipv6 (low s)) ↔ is_Some (parse_ipv6 s).
Proof.
  rewrite /parse_ipv6 has_char_low // partition_at_low //.
  destruct (has_char SLASH s); [done|]. destruct (partition_at PERCENT s) as [[a f] b].
  destruct f; rewrite parse_ipv6_value_low; [|done].
  rewrite (bool_decide_ext _ _ (low_nil b)) has_char_low //.
  destruct (bool_decide (b = []) || has_char PERCENT b); [done|]. by rewrite !fmap_is_Some.
Qed.

Lemma parse_ip_low s : is_Some (parse_ip (low s)) ↔ is_Some (parse_ip s).
Proof. rewrite /parse_ip parse_ipv4_low. destruct (parse_ipv4 s); [done|]. apply parse_ipv6_low. Qed.

(** ** The characters of an address *)

Lemma parse_ipv6_colon s a : parse_ipv6 s = Some a → COLON ∈ s.
Proof.
  rewrite /parse_ipv6 /parse_ipv6_value. case_match; [done|].
  destruct (partition_at PERCENT s) as [[x f] y] eqn:Hp. apply partition_at_front in Hp as (_ & [t ->] & _).
  assert (bool_decide (length (split_on COLON x) < 3)%nat = false → COLON ∈ x) as Hc.
  { intros Hl. destruct (decide (COLON ∈ x)) as [|Hn]; [done|]. by rewrite split_on_no in Hl. }
  destruct (bool_decide (length (split_on COLON x) < 3)%nat); [by repeat case_match|].
  intros _. apply elem_of_app. auto.
Qed.

Lemma parse_ip_no_colon s a : parse_ip s = Some a → COLON ∉ s → ∃ n, parse_ipv4 s = Some n.
Proof.
  rewrite /parse_ip. destruct (parse_ipv4 s) as [n|]; [by eauto|]. by intros ?%parse_ipv6_colon.
Qed.

Lemma parse_ip_colon s a : parse_ip s = Some a → COLON ∈ s → parse_ipv6 s = Some a.
Proof.
  rewrite /parse_ip. destruct (parse_ipv4 s) as [n|] eqn:E; [|done].
  by apply parse_ipv4_no_colon in E as [? _].
Qed.

Lemma parse_ipv4_chars s n c : parse_ipv4 s = Some n → c ∈ s → is_digit c = true ∨ c = DOT.
Proof.
  rewrite /parse_ipv4. intros Hp. rewrite -{1}(join_split DOT s).
  intros [->|(p & Hin & Hc)]%join_chars; [by right|left].
  destruct (split_on DOT s) as [|w [|x [|y [|z [|? ?]]]]]; try done.
  destruct (parse_octet w) eqn:E1; [|done]. destruct (parse_octet x) eqn:E2; [|done].
  destruct (parse_octet y) eqn:E3; [|done]. destruct (parse_octet z) eqn:E4; [|done].
  apply parse_octet_digits in E1 as [E1 _], E2 as [E2 _], E3 as [E3 _], E4 as [E4 _].
  rewrite !forallb_forall in E1, E2, E3, E4. apply list_elem_of_In in Hc.
  rewrite !elem_of_cons elem_of_nil in Hin. naive_solver.
Qed.

(** An address never starts like an IPvFuture literal. *)
Definition LETTER_V : Z := 118.

Lemma groups_no_v w ps : parse_ipv6_groups (inl (LETTER_V :: w) :: ps) = None.
Proof.
  assert (∀ l, hextets (inl (LETTER_V :: w) :: l) = None) as Hh by done.
  rewrite /parse_ipv6_groups. destruct (skips (inl (LETTER_V :: w) :: ps)) as [|k [|? ?]] eqn:E; [..|done].
  - rewrite Hh. by case_match.
  - assert (k ∈ skips (inl (LETTER_V :: w) :: ps)) as Hk by (rewrite E; set_solver).
    rewrite /skips list_elem_of_filter elem_of_seq in Hk. destruct Hk as [_ Hk].
    cbn [first]. rewrite (bool_decide_false (Some (inl (LETTER_V :: w)) = Some (inl []))) //.
    rewrite Nat.sub_0_r. destruct k as [|k]; [lia|]. cbn [firstn take]. rewrite Hh. by case_match.
Qed.

Lemma unfold_quad_cons (x : pystr) y parts ps :
  unfold_quad (x :: y :: parts) = Some ps → ∃ qs, ps = inl x :: qs.
Proof.
  rewrite /unfold_quad. destruct (reverse (x :: y :: parts)) as [|l r] eqn:E; [done|].
  apply (f_equal reverse) in E. rewrite reverse_involutive reverse_cons in E.
  case_match.
  - destruct (parse_ipv4 l); [|done]. intros [= <-].
    destruct (reverse r) as [|a r'] eqn:Er; [done|]. injection E as -> _. by eexists.
  - intros [= <-]. by eexists.
Qed.

Lemma ipv6_no_v s : parse_ipv6 (LETTER_V :: s) = None.
Proof.
  assert (∀ s, parse_ipv6_value (LETTER_V :: s) = None) as Hv.
  { intros t. rewrite /parse_ipv6_value. cbn [split_on].
    change (LETTER_V =? COLON) with false. cbn iota.
    destruct (split_on COLON t) as [|w [|x ws]] eqn:E; [done..|].
    case_match; [done|]. destruct (unfold_quad _) as [ps|] eqn:Hu; [|done].
    apply unfold_quad_cons in Hu as [qs ->]. cbn [mbind option_bind]. rewrite groups_no_v.
    by case_match. }
  rewrite /parse_ipv6. case_match; [done|]. cbn [partition_at].
  change (LETTER_V =? PERCENT) with false. cbn iota.
  destruct (partition_at PERCENT s) as [[a f] b]. rewrite Hv. by repeat case_match.
Qed.

Lemma check_bracketed_ipv6 h : is_Some (parse_ip h) → COLON ∈ h → check_bracketed_host h = true.
Proof.
  intros [a Ha] Hc. pose proof (parse_ip_colon _ _ Ha Hc) as H6. rewrite /check_bracketed_host Ha.
  assert (∃ n sc, a = IPv6 n sc) as (n & sc & ->).
  { revert H6. rewrite /parse_ipv6. repeat case_match; try done.
    all: by intros (n & ? & ->)%fmap_Some; eauto. }
  repeat case_match; simplify_eq; try done; by rewrite ipv6_no_v in H6.
Qed.

(** ** The host of an admitted URL *)

Lemma without_root_cases h : without_root_label h = h ∨ h = without_root_label h ++ [DOT].
Proof.
  rewrite /without_root_label. case_match eqn:E; [right|by left].
  apply andb_true_iff in E as [[t ->]%endswith_spec _].
  by rewrite length_app Nat.add_sub take_app_length.
Qed.

Lemma without_root_elem h c : c ∈ without_root_label h → c ∈ h.
Proof. intros Hc. destruct (without_root_cases h) as [<-| ->]; [done|]. apply elem_of_app. auto. Qed.

Lemma without_root_keeps h c : c ≠ DOT → c ∈ h → c ∈ without_root_label h.
Proof. intros Hd Hc. destruct (without_root_cases h) as [->|E]; [done|]. rewrite E in Hc. set_solver. Qed.

Lemma endswith_low (p s : pystr) : (∀ c, c ∈ p → is_alpha c = false) →
  endswith p (low s) = endswith p s.
Proof.
  rewrite /endswith -fmap_reverse. generalize (reverse s) => t Hp.
  assert (∀ c, c ∈ reverse p → is_alpha c = false) as Hr by set_solver. clear Hp.
  revert t Hr. induction (reverse p) as [|a q IH]; intros [|b t] Hr; try done. simpl.
  rewrite Z.eqb_sym lower_eqb; [|set_solver]. rewrite Z.eqb_sym. f_equal. apply IH. set_solver.
Qed.

Lemma without_root_low h : without_root_label (low h) = low (without_root_label h).
Proof.
  rewrite /without_root_label !endswith_low; [|by intros c; rewrite !elem_of_cons elem_of_nil; naive_solver..].
  case_match; [by rewrite length_fmap fmap_take|done].
Qed.

Definition good_label (l : pystr) : Prop :=
  l ≠ [] ∧ (63 <? len l) = false ∧ label_matches l = true.

Lemma validate_labels_ok ls : validate_labels ls = Ok tt ↔ Forall good_label ls.
Proof.
  induction ls as [|l ls IH]; simpl; [done|]. rewrite Forall_cons_iff /good_label.
  case_bool_decide; [naive_solver|]. destruct (63 <? len l) eqn:E1; [naive_solver|].
  destruct (label_matches l) eqn:E2; [rewrite IH|]; naive_solver.
Qed.

Lemma label_chars l c : label_matches l = true → c ∈ l → is_alnum c = true ∨ c = HYPHEN.
Proof.
  rewrite /label_matches. repeat case_match; try done. intros Hl Hc. reflect_bools.
  rewrite forallb_forall in H3. apply list_elem_of_In, H3 in Hc. revert Hc.
  rewrite /is_label_char orb_true_iff Z.eqb_eq. done.
Qed.

Lemma free_forallb bad s : forallb (λ c, negb (bad c)) s = true → free bad s.
Proof. rewrite forallb_forall. intros Hs c Hc%list_elem_of_In%Hs. by apply negb_true_iff. Qed.

Lemma low_id s : free is_upper s → low s = s.
Proof.
  intros Hs. induction s as [|c s IH]; [done|]. apply free_cons in Hs as [Hc Hs].
  rewrite fmap_cons IH // /ascii_lower Hc. done.
Qed.

Lemma low_no_upper s : free is_upper (low s).
Proof.
  intros c (d & -> & _)%list_elem_of_fmap. rewrite /ascii_lower /is_upper. case_match; lia.
Qed.

Section normal.
Context `{CaseFolding} `{Nfkc} `{Idna} `{!CaseLaws} `{!IdnaLaws}.

Lemma lower_chars s c : c ∈ lower s → c < 128 → is_alpha c = false → c ∈ s.
Proof.
  rewrite /lower. intros Hc Ha Hl. destruct (isascii s).
  - apply list_elem_of_fmap in Hc as (d & Hd & Hin). symmetry in Hd.
    rewrite lower_fixed_iff // in Hd. by subst.
  - destruct (unicode_lower_ascii _ _ Hc Ha) as [|Hlow]; [done|].
    by rewrite /is_alpha Hlow orb_true_r in Hl.
Qed.

(** What the ASCII form of a host is, once the host has been validated. *)
Definition settled (host : pystr) : Prop :=
  isascii host = true ∧ free is_upper host ∧ without_root_label host = host.

Lemma settled_ascii host : settled host → to_ascii_host host = Ok host.
Proof.
  intros (Ha & Hu & Hw). rewrite /to_ascii_host Hw Ha lower_ascii // low_id //.
Qed.

Lemma ascii_settled h : isascii (without_root_label h) = true →
  settled (lower (without_root_label h)).
Proof.
  intros Ha. split_and!.
  - by apply isascii_lower.
  - rewrite lower_ascii //. apply low_no_upper.
  - by rewrite lower_ascii // without_root_low without_root_idemp.
Qed.

Lemma to_ascii_host_root h : to_ascii_host (without_root_label h) = to_ascii_host h.
Proof. by rewrite /to_ascii_host without_root_idemp. Qed.

Lemma colon_ascii h host : COLON ∈ h → to_ascii_host h = Ok host →
  host = low (without_root_label h) ∧ settled host ∧ COLON ∈ host.
Proof.
  intros Hc%(without_root_keeps _ COLON); [|done]. rewrite /to_ascii_host.
  destruct (isascii (without_root_label h)) eqn:Ha; [|by rewrite (idna_no_colon _ Hc)].
  intros [= <-]. split; [by apply lower_ascii|]. split; [by apply ascii_settled|].
  rewrite lower_ascii //. apply list_elem_of_fmap. by exists COLON.
Qed.

Lemma address_valid host : host ≠ [] → settled host → is_Some (parse_ip host) →
  validate_host host = Ok tt.
Proof.
  intros Hne (_ & _ & Hw) Hp. rewrite /validate_host bool_decide_false // Hw.
  by rewrite bool_decide_true.
Qed.

Lemma parse_ip_nil : parse_ip [] = None.
Proof. done. Qed.

Lemma address_host h host : is_Some (parse_ip (without_root_label h)) → to_ascii_host h = Ok host →
  settled host ∧ validate_host host = Ok tt ∧ is_Some (parse_ip host) ∧ (COLON ∉ h → plain host).
Proof.
  intros Hip Hto.
  assert (host = low (without_root_label h) ∧ settled host ∧ (COLON ∉ h → plain host)) as (E & Hs & Hp).
  { destruct (decide (COLON ∈ h)) as [Hc|Hc];
      [destruct (colon_ascii _ _ Hc Hto) as (?&?&_); by split_and!|].
    destruct Hip as [a Ha]. assert (COLON ∉ without_root_label h) as Hc' by eauto using without_root_elem.
    destruct (parse_ip_no_colon _ _ Ha Hc') as [n Hn].
    assert (plain (without_root_label h)) as Hp.
    { apply plain_chars; [by intros Hnil; rewrite Hnil in Hn|]. intros c Hin.
      destruct (parse_ipv4_chars _ _ _ Hn Hin) as [Hd| ->]; [|auto].
      left. by rewrite /is_alnum Hd orb_true_r. }
    revert Hto. rewrite /to_ascii_host (plain_ascii _ Hp). intros [= <-].
    split_and!; [apply lower_ascii, Hp|apply ascii_settled, Hp|]. intros _.
    rewrite lower_ascii; [|apply Hp]. rewrite low_id //. intros c Hin.
    destruct (parse_ipv4_chars _ _ _ Hn Hin) as [Hd| ->]; [|done].
    revert Hd. rewrite /is_digit /is_upper. lia. }
  assert (is_Some (parse_ip host)) as Hh by (by rewrite E parse_ip_low).
  split_and!; [done| |done..]. apply address_valid; [|done..].
  intros ->. by destruct Hh.
Qed.

Lemma labels_end host :
  Forall good_label (split_on DOT host) →
  without_root_label host = host.
Proof.
  intros Hl. apply without_root_keep, not_true_iff_false. intros [t ->]%endswith_spec.
  rewrite split_on_snoc Forall_app in Hl. destruct Hl as [_ Hl].
  apply Forall_cons_iff in Hl as [[? _] _]. done.
Qed.

Lemma labels_plain host : DOT ∈ host →
  Forall good_label (split_on DOT host) →
  plain host.
Proof.
  intros Hd Hl. apply plain_chars; [by intros ->; apply elem_of_nil in Hd|].
  intros c. rewrite -{1}(join_split DOT host). intros [->|(l & Hin & Hc)]%join_chars; [auto|].
  rewrite Forall_forall in Hl. apply list_elem_of_In, Hl in Hin as (_ & _ & Hm).
  destruct (label_chars _ _ Hm Hc); auto.
Qed.

Lemma name_host h host : to_ascii_host h = Ok host → DOT ∈ host →
  Forall good_label (split_on DOT host) →
  COLON ∉ h ∧ settled host ∧ plain host.
Proof.
  intros Hto Hd Hl. pose proof (labels_plain _ Hd Hl) as Hp. split_and!; [|split_and!|done].
  - intros Hc. destruct (colon_ascii _ _ Hc Hto) as (_ & _ & Hin). revert Hin. by apply plain_no.
  - apply Hp.
  - revert Hto. rewrite /to_ascii_host. case_match eqn:Ha.
    + intros [= <-]. rewrite lower_ascii //. apply low_no_upper.
    + destruct (idna_encode _) as [a|] eqn:Hi; [|done]. intros [= ->].
      apply idna_ldh in Hi. rewrite forallb_forall in Hi. intros c Hc.
      apply list_elem_of_In, Hi in Hc. revert Hc.
      rewrite /is_ldh /is_upper /is_lower /is_digit /HYPHEN /DOT. lia.
  - by apply labels_end.
Qed.

Lemma validated_host h host : validate_host h = Ok tt → to_ascii_host h = Ok host →
  settled host ∧ validate_host host = Ok tt ∧
  if decide (COLON ∈ h) then is_Some (parse_ip host) else plain host.
Proof.
  rewrite {1}/validate_host. case_bool_decide; [done|]. case_bool_decide as Hip.
  { intros _ Hto. destruct (address_host _ _ Hip Hto) as (?&?&?&?). case_decide; auto. }
  case_bool_decide as Hloc.
  { intros _. rewrite /to_ascii_host Hloc. change (isascii (lit "localhost")) with true. cbn iota.
    intros [= <-]. change (lower (lit "localhost")) with (lit "localhost").
    split; [split; [done|]; split; [by apply free_forallb|done]|]. split; [done|].
    case_decide as Hc.
    - apply (without_root_keeps _ COLON) in Hc; [|done]. rewrite Hloc in Hc. by apply alnum_not in Hc.
    - apply plain_chars; [done|]. intros c Hin. left.
      apply (proj1 (forallb_forall is_alnum (lit "localhost")) eq_refl). by apply list_elem_of_In. }
  rewrite to_ascii_host_root => Hv Hto. rewrite Hto /= in Hv.
  destruct (has_char DOT host) eqn:Hd; [|done]. simpl in Hv.
  destruct (253 <? len host) eqn:Hlen; [done|]. pose proof Hv as Hl. rewrite validate_labels_ok in Hl.
  pose proof (proj1 (has_char_spec _ _) Hd) as Hdot.
  destruct (name_host _ _ Hto Hdot Hl) as (Hc & Hs & Hp). rewrite decide_False //.
  split_and!; [done| |done]. rewrite /validate_host.
  rewrite bool_decide_false; [|apply Hp]. destruct Hs as (?&?&Hw). rewrite Hw.
  do 2 (case_match; [done|]). rewrite settled_ascii // /= Hd Hlen. done.
Qed.

(** ** Ports *)

Lemma decimal_digits_ok fuel n : (0 < fuel)%nat → 0 <= n < 10 ^ Z.of_nat fuel →
  let s := decimal_digits fuel n in
  s ≠ [] ∧ decimal s ∧ int_of 10 s = n ∧ len s <= Z.of_nat fuel.
Proof.
  revert n. induction fuel as [|fuel IH]; intros n Hf Hn; [lia|]. cbn [decimal_digits].
  assert (∀ d, 0 <= d < 10 → is_digit (48 + d) = true ∧ digit_value (48 + d) = d) as Hd.
  { intros d ?. rewrite /digit_value /is_digit. split; [lia|]. case_match; lia. }
  destruct (n <? 10) eqn:E.
  - destruct (Hd n) as [K1 K2]; [lia|]. rewrite /decimal /int_of /len. cbn [forallb foldl length].
    rewrite K1 K2. split_and!; [done..|lia|lia].
  - apply Z.ltb_ge in E. rewrite Nat2Z.inj_succ Z.pow_succ_r in Hn; [|lia].
    destruct fuel as [|fuel']; [simpl in Hn; lia|].
    destruct (IH (n / 10)) as (K1 & K2 & K3 & K4); [lia| |].
    { split; [apply Z.div_pos; lia|apply Z.div_lt_upper_bound; lia]. }
    destruct (Hd (n mod 10)) as [K5 K6]; [by apply Z.mod_pos_bound|].
    set (t := decimal_digits (S fuel') (n / 10)) in *. split_and!.
    + by destruct t.
    + rewrite /decimal forallb_app. cbn [forallb]. by rewrite K2 K5.
    + rewrite /int_of foldl_app. cbn [foldl]. fold (int_of 10 t). rewrite K3 K6.
      pose proof (Z.div_mod n 10). lia.
    + rewrite /len length_app in K4 |- *. cbn [length]. lia.
Qed.

Definition port_text (p : ParseResult) (n : option Z) : pystr :=
  match n with
  | Some n => if bool_decide (default_port (scheme p) = Some n) then [] else str_of_Z n
  | None => []
  end.

Definition port_kept (p : ParseResult) (n : option Z) : option Z :=
  match n with
  | Some n => if bool_decide (default_port (scheme p) = Some n) then None else Some n
  | None => None
  end.

Definition port_in_range (n : option Z) : Prop :=
  match n with Some n => 1 <= n <= 65535 | None => True end.

Definition text_of (s : pystr) : option pystr := match s with [] => None | _ => Some s end.

Lemma str_of_port n : 1 <= n <= 65535 →
  str_of_Z n ≠ [] ∧ decimal (str_of_Z n) ∧ int_of 10 (str_of_Z n) = n ∧ len (str_of_Z n) <= 16.
Proof.
  intros Hn. rewrite /str_of_Z. assert ((n <? 0) = false) as -> by lia.
  pose proof (Z.log2_spec n ltac:(lia)) as [_ Hl]. pose proof (Z.log2_nonneg n).
  assert (Z.log2 n < 16) by (apply Z.log2_lt_pow2; lia).
  destruct (decimal_digits_ok (S (Z.to_nat (Z.log2 n))) n) as (?&?&?&?); [lia| |].
  - split; [lia|]. rewrite Nat2Z.inj_succ Z2Nat.id //. eapply Z.lt_le_trans; [exact Hl|].
    apply Z.pow_le_mono_l. lia.
  - split_and!; [done..|lia].
Qed.

Lemma port_text_read p n : port_in_range n →
  decimal (port_text p n) ∧
  match text_of (port_text p n) with
  | None => Some None
  | Some text =>
      if forallb is_digit text && (len text <=? MAX_STR_DIGITS) && (int_of 10 text <=? 65535)
      then Some (Some (int_of 10 text)) else None
  end = Some (port_kept p n).
Proof.
  destruct n as [n|]; simpl; [|done]. intros Hn. case_bool_decide; [done|].
  destruct (str_of_port n Hn) as (Hne & Hd & Hi & Hl). split; [done|].
  rewrite /text_of. destruct (str_of_Z n) as [|c t] eqn:E; [done|]. rewrite Hd Hi.
  assert ((len (c :: t) <=? MAX_STR_DIGITS) = true) as -> by (rewrite /MAX_STR_DIGITS; lia).
  assert ((n <=? 65535) = true) as -> by lia. done.
Qed.

Lemma port_kept_idemp p n : port_kept p (port_kept p n) = port_kept p n.
Proof.
  destruct n as [n|]; [|done]. simpl. case_bool_decide as E; [done|]. simpl.
  by rewrite bool_decide_false.
Qed.

Lemma port_text_kept p n : port_text p (port_kept p n) = port_text p n.
Proof.
  destruct n as [n|]; [|done]. simpl. case_bool_decide as E; [done|]. simpl.
  by rewrite bool_decide_false.
Qed.

(** ** The authority of a normal form *)

Record normal_authority (n host text : pystr) : Prop := MkNormalAuthority {
  na_nonempty : n ≠ [];
  na_info : hostinfo n = (host, text_of text);
  na_brackets : brackets_ok n = true;
  na_check : checknetloc n = true;
  na_delim : free is_delim n;
  na_user : AT_SIGN ∉ n;
  na_open : has_char OPEN_BRACKET n = has_char COLON host;
  na_close : has_char CLOSE_BRACKET n = has_char COLON host;
}.

Lemma plain_authority host text : plain host → decimal text →
  normal_authority (authority host text) host text.
Proof.
  intros Hh Ht. destruct (authority_checks host text Hh Ht) as (?&?&?&_). split; try done.
  - rewrite /authority. pose proof (plain_nonempty _ Hh). by destruct host.
  - by apply authority_hostinfo.
  - by apply authority_no.
  - rewrite !(proj2 (has_char_false _ _)) //; [by apply plain_no|by apply authority_no].
  - rewrite !(proj2 (has_char_false _ _)) //; [by apply plain_no|by apply authority_no].
Qed.

Definition bracketed (host : pystr) : pystr := OPEN_BRACKET :: host ++ [CLOSE_BRACKET].

Lemma bracketed_elem host text c : c ∈ authority (bracketed host) text →
  c = OPEN_BRACKET ∨ c ∈ host ∨ c = CLOSE_BRACKET ∨ c = COLON ∨ c ∈ text.
Proof.
  rewrite /authority /bracketed elem_of_app elem_of_cons elem_of_app list_elem_of_singleton.
  intros [[?|[?|?]]|[?|?]%with_mark_elem]; auto.
Qed.

Lemma bracketed_parts host text : CLOSE_BRACKET ∉ host →
  let n := authority (bracketed host) text in
  partition_at OPEN_BRACKET n = ([], true, host ++ CLOSE_BRACKET :: with_mark COLON text) ∧
  partition_at CLOSE_BRACKET (host ++ CLOSE_BRACKET :: with_mark COLON text) =
    (host, true, with_mark COLON text).
Proof.
  intros Hc. split; [|by apply partition_at_app].
  rewrite /authority /bracketed -app_comm_cons -app_assoc. done.
Qed.

Lemma bracketed_authority host text : isascii host = true → free is_delim host → AT_SIGN ∉ host →
  CLOSE_BRACKET ∉ host → COLON ∈ host → is_Some (parse_ip host) → decimal text →
  normal_authority (authority (bracketed host) text) host text.
Proof.
  intros Ha Hdl Hat Hcl Hco Hip Ht. destruct (bracketed_parts host text Hcl) as [Ho Hc].
  assert (AT_SIGN ∉ authority (bracketed host) text) as Hu.
  { intros [?|[?|[?|[?|Hin]]]]%bracketed_elem; [done..|]. revert Hin. by apply decimal_no. }
  assert (has_char COLON host = true) as Hh by (by apply has_char_spec).
  split; try done.
  - rewrite /hostinfo rpartition_at_no // Ho Hc.
    edestruct (partition_with_mark COLON [] text) as [f E]; [by apply not_elem_of_nil|].
    rewrite /= in E. rewrite E. by destruct text.
  - rewrite /brackets_ok !(proj2 (has_char_spec _ _)).
    + rewrite /check_bracketed_netloc rpartition_at_no // Ho Hc.
      rewrite bool_decide_true // check_bracketed_ipv6 //. by destruct text.
    + rewrite /authority /bracketed. set_solver.
    + rewrite /authority /bracketed. set_solver.
  - rewrite /checknetloc authority_ascii // /bracketed. rewrite /isascii /= forallb_app /=.
    by rewrite andb_true_r.
  - intros c [->|[Hin|[->|[->|Hin]]]]%bracketed_elem; [done|by apply Hdl|done|done|].
    rewrite /decimal forallb_forall in Ht. apply list_elem_of_In, Ht in Hin. revert Hin.
    rewrite /is_digit /is_delim /SLASH /QUESTION /HASH. lia.
  - rewrite Hh. apply has_char_spec. rewrite /authority /bracketed. set_solver.
Qed.

(** The name of a normal authority is read back as it stands. *)
Lemma normal_hostname p n host text : normal_authority n host text → netloc p = n →
  host ≠ [] → isascii host = true → free is_upper host → hostname p = Some host.
Proof.
  intros Hn Hp Hne Ha Hu. rewrite /hostname Hp (na_info _ _ _ Hn). cbn [fst].
  destruct host as [|c h] eqn:E; [done|]. rewrite -E in Ha Hu |- *.
  destruct (partition_at PERCENT host) as [[a f] b] eqn:Hpt.
  apply partition_at_spec in Hpt as [_ Hh].
  assert (isascii a = true ∧ free is_upper a) as [Haa Hua].
  { destruct f; [|by destruct Hh as [-> _]]. rewrite Hh isascii_app in Ha. rewrite Hh free_app in Hu.
    apply andb_true_iff in Ha. naive_solver. }
  rewrite lower_ascii // low_id //. destruct f; [by rewrite Hh|]. destruct Hh as [-> ->].
  by rewrite /= app_nil_r.
Qed.

(** ** The parts of a normal form *)

Definition normal_parts (p : ParseResult) (host : pystr) (n : option Z) : ParseResult :=
  MkParseResult (lower (scheme p)) (normal_netloc p host n)
    (match path p with [] => [SLASH] | s => s end) (params p) (query p) [].

Lemma hostname_elem p h c : hostname p = Some h → c ∈ h → c < 128 → is_alpha c = false →
  c ∈ (hostinfo (netloc p)).1 ∨ c = PERCENT.
Proof.
  rewrite /hostname. destruct (hostinfo (netloc p)).1 as [|x t] eqn:E; [done|]. rewrite -E.
  generalize (hostinfo (netloc p)).1 => name. destruct (partition_at PERCENT name) as [[a f] b] eqn:Hp.
  apply partition_at_spec in Hp as [_ Hp]. intros [= <-] Hc Ha Hl.
  rewrite !elem_of_app in Hc. destruct Hc as [Hc|[Hc|Hc]].
  - apply lower_chars in Hc; [|done..]. left. destruct f; [subst; set_solver|]. by destruct Hp as [-> _].
  - right. destruct f; set_solver.
  - left. destruct f; [subst; set_solver|]. destruct Hp as [_ ->]. by apply elem_of_nil in Hc.
Qed.

Lemma ascii_host_elem h host c : to_ascii_host h = Ok host → c ∈ host → is_alpha c = false →
  c ∈ h ∨ is_ldh c = true.
Proof.
  rewrite /to_ascii_host. destruct (isascii (without_root_label h)) eqn:Ha.
  - intros [= <-] Hc Hl. left. apply without_root_elem. rewrite lower_ascii // in Hc.
    apply list_elem_of_fmap in Hc as (d & Hd & Hin). symmetry in Hd.
    rewrite lower_fixed_iff // in Hd. by subst.
  - destruct (idna_encode _) as [a|] eqn:Hi; [|done]. intros [= <-] Hc _. right.
    apply idna_ldh in Hi. rewrite forallb_forall in Hi. by apply Hi, list_elem_of_In.
Qed.

(** A class of characters no host can gain on the way to its ASCII form. *)
Lemma host_free bad p h host : hostname p = Some h → to_ascii_host h = Ok host →
  free bad (hostinfo (netloc p)).1 → bad PERCENT = false →
  (∀ c, bad c = true → c < 128 ∧ is_alnum c = false ∧ c ≠ HYPHEN ∧ c ≠ DOT) →
  free bad host.
Proof.
  intros Hh Hto Hf Hpc Hbad c Hc. apply not_true_iff_false. intros Hb.
  destruct (Hbad c Hb) as (Ha & Hn & ? & ?).
  apply orb_false_iff in Hn as [Hal Hdi].
  destruct (ascii_host_elem _ _ _ Hto Hc Hal) as [Hin|Hin].
  - destruct (hostname_elem _ _ _ Hh Hin Ha Hal) as [Hn| ->]; [|congruence].
    apply Hf in Hn. congruence.
  - revert Hin. apply orb_false_iff in Hal as [_ Hlo]. rewrite /is_ldh Hlo Hdi !(proj2 (Z.eqb_neq _ _)) //.
Qed.

Lemma admitted_host st v p host : admitted st v p →
  to_ascii_host (default [] (hostname p)) = Ok host →
  ∃ h, hostname p = Some h ∧ to_ascii_host h = Ok host ∧ validate_host h = Ok tt ∧
    has_char COLON h = has_char OPEN_BRACKET (netloc p).
Proof.
  intros Ha Hto. destruct (ad_authority _ _ _ Ha) as [_ Hh].
  destruct (hostname p) as [h|] eqn:Eh; [|done]. simpl in Hto. exists h.
  pose proof (ad_host _ _ _ Ha) as Hv. rewrite Eh /= in Hv. split_and!; [done..|].
  pose proof (hostinfo_marks _ (ad_user _ _ _ Ha)) as Hm.
  destruct (has_char OPEN_BRACKET (netloc p)) eqn:Eo.
  - apply has_char_spec. pose proof (ad_brackets _ _ _ Ha) as Hb. rewrite Eh /= in Hb.
    destruct Hb as [a Hb]; [left; by apply has_char_spec|]. by eapply parse_ipv6_colon.
  - apply has_char_false. intros Hc. by destruct (hostname_elem _ _ _ Eh Hc).
Qed.

Lemma scheme_admitted st v p : admitted st v p → scheme_ok (scheme p).
Proof.
  intros Ha. destruct (po_scheme _ (urlparse_ok _ _ (ad_parse _ _ _ Ha))) as [?|?]; [|done].
  by destruct (ad_scheme _ _ _ Ha).
Qed.

Lemma normal_netloc_text p host n : AT_SIGN ∉ netloc p → scheme_ok (scheme p) → port_in_range n →
  normal_netloc p host n =
    authority (if has_char COLON host || has_char OPEN_BRACKET (netloc p) then bracketed host else host)
      (port_text p n).
Proof.
  intros Hu (_ & _ & Hs) Hn. rewrite /normal_netloc rpartition_at_no // Hs /authority /port_text.
  fold (bracketed host). destruct n as [n|]; [|by rewrite /= app_nil_r].
  destruct (str_of_port n Hn) as (Hne & _). case_bool_decide; [by rewrite /= app_nil_r|].
  by destruct (str_of_Z n).
Qed.

Lemma decimal_control text : decimal text → free is_control text.
Proof.
  rewrite /decimal forallb_forall. intros Ht c Hc%list_elem_of_In%Ht. revert Hc.
  rewrite /is_digit /is_control. lia.
Qed.

Lemma authority_control (b : bool) host text : free is_control host → decimal text →
  free is_control (authority (if b then bracketed host else host) text).
Proof.
  intros Hh Ht%decimal_control. rewrite /authority /bracketed. apply free_app. split.
  - destruct b; [|done]. rewrite free_cons free_app free_cons. split_and!; try done. apply free_nil.
  - intros c [->|?]%with_mark_elem; auto.
Qed.

Lemma admitted_authority st v p host n : admitted st v p →
  to_ascii_host (default [] (hostname p)) = Ok host → port p = Some n →
  settled host ∧ host ≠ [] ∧ validate_host host = Ok tt ∧
  normal_authority (normal_netloc p host n) host (port_text p n) ∧
  free is_control (normal_netloc p host n).
Proof.
  intros Ha Hto Hn. destruct (admitted_host _ _ _ _ Ha Hto) as (h & Hh & Hth & Hv & Hmark).
  destruct (ad_port _ _ _ Ha) as (n' & Hn' & Hrange). rewrite Hn in Hn'. injection Hn' as <-.
  destruct (validated_host _ _ Hv Hth) as (Hs & Hvh & Hcase).
  pose proof (urlparse_ok _ _ (ad_parse _ _ _ Ha)) as Hok.
  destruct (port_text_read p n Hrange) as [Hdec _].
  assert (∀ bad, free bad (netloc p) → free bad (hostinfo (netloc p)).1) as Hsub.
  { intros bad Hb c Hc. by apply Hb, hostinfo_elem. }
  assert (free is_control host) as Hctl.
  { eapply host_free; [done..| |done|].
    - apply Hsub. intros c Hc. apply (ad_chars _ _ _ Ha), (urlparse_elem _ p); [apply Ha|].
      apply elem_of_app. by left.
    - intros c. rewrite /is_control /is_alnum /is_alpha /is_upper /is_lower /is_digit /HYPHEN /DOT.
      lia. }
  split; [done|]. assert (host ≠ []) as Hne.
  { intros ->. by rewrite /validate_host in Hvh. }
  split; [done|]. split; [done|].
  rewrite normal_netloc_text //; [|apply Ha|by eapply scheme_admitted].
  split; [rewrite -Hmark|by apply authority_control].
  destruct (decide (COLON ∈ h)) as [Hc|Hc].
  - destruct (colon_ascii _ _ Hc Hth) as (_ & (Hasc & _) & Hch).
    rewrite (proj2 (has_char_spec _ _) Hch) orb_true_l.
    assert (∀ c, c < 128 → is_alnum c = false → c ≠ HYPHEN → c ≠ DOT → c ≠ PERCENT →
      c ∉ (hostinfo (netloc p)).1 → c ∉ host) as Hno.
    { intros c ? ? ? ? ? Hnot. apply (free_not_in (Z.eqb c)); [|apply Z.eqb_refl].
      eapply host_free; [done..| | |].
      - intros d Hd. apply Z.eqb_neq. by intros ->.
      - by apply Z.eqb_neq.
      - by intros d ->%Z.eqb_eq. }
    apply bracketed_authority; try done.
    + eapply host_free; [done..|apply Hsub, Hok|done|].
      intros c. rewrite /is_delim /is_alnum /is_alpha /is_upper /is_lower /is_digit /HYPHEN /DOT
        /SLASH /QUESTION /HASH. lia.
    + apply Hno; try done. intros Hin. by apply hostinfo_elem, (ad_user _ _ _ Ha) in Hin.
    + apply Hno; try done. pose proof (hostinfo_marks _ (ad_user _ _ _ Ha)) as Hm.
      rewrite -Hmark (proj2 (has_char_spec _ _) Hc) in Hm. done.
  - rewrite (proj2 (has_char_false _ _) Hc) orb_false_r.
    rewrite (proj2 (has_char_false COLON host)); [by apply plain_authority|by apply plain_no].
Qed.

Lemma normal_path p : path (normal_parts p [] None) ≠ [] ∧
  (free query_mark (path p) → free query_mark (match path p with [] => [SLASH] | s => s end)) ∧
  (SEMICOLON ∉ last_segment (path p) →
   SEMICOLON ∉ last_segment (match path p with [] => [SLASH] | s => s end)).
Proof.
  simpl. destruct (path p); split_and!; try done.
  intros _ c ->%list_elem_of_singleton. done.
Qed.

Lemma normal_canonical st v p host n : admitted st v p →
  to_ascii_host (default [] (hostname p)) = Ok host → port p = Some n →
  canonical (normal_parts p host n).
Proof.
  intros Ha Hto Hn. pose proof (urlparse_ok _ _ (ad_parse _ _ _ Ha)) as Hok.
  destruct (admitted_authority _ _ _ _ _ Ha Hto Hn) as (_ & _ & _ & Hna & Hctl).
  pose proof (scheme_admitted _ _ _ Ha) as Hs. destruct (normal_path p) as (Hpne & Hpq & Hpseg).
  assert (lower (scheme p) = scheme p) as Hlow by apply Hs.
  split; [|split_and!; [by rewrite /= Hlow; apply Ha|apply Hna|done]].
  split; rewrite /normal_parts; cbn [scheme netloc path params query fragment];
    rewrite ?Hlow; try apply Hok; try apply Hna; try by auto.
  - apply Hpq, Hok.
  - intros _. destruct (po_rooted _ Hok) as [->|Hr]; [apply Ha|by right|].
    destruct (path p); [done|]. by right.
  - pose proof (po_segment _ Hok) as Hseg. destruct (takes_params (scheme p)); [by apply Hpseg|done].
  - assert (∀ s, free is_control s → free is_unsafe s) as Hcu.
    { intros s Hfs c Hc. apply Hfs in Hc. revert Hc. rewrite /is_control /is_unsafe. lia. }
    pose proof (po_clean _ Hok) as Hcl. rewrite !free_app in Hcl |- *.
    destruct Hcl as (?&_&?&?&?&_). split_and!; try done; [by apply Hcu| |apply free_nil].
    destruct (path p); [|done]. intros c ->%list_elem_of_singleton. done.
Qed.

(** Two readings of one target: everything that is sent to the server. *)
Definition effective_port (p : ParseResult) : option (option Z) :=
  (λ n, match n with Some n => Some n | None => default_port (scheme p) end) <$> port p.

Definition same_target (p q : ParseResult) : Prop :=
  scheme q = scheme p ∧
  to_ascii_host (default [] (hostname q)) = to_ascii_host (default [] (hostname p)) ∧
  effective_port q = effective_port p ∧
  path q = (match path p with [] => [SLASH] | s => s end) ∧
  params q = params p ∧ query q = query p ∧ fragment q = [].

Lemma normal_parts_read st v p host n : admitted st v p →
  to_ascii_host (default [] (hostname p)) = Ok host → port p = Some n →
  let q := normal_parts p host n in
  urlparse (geturl q) = Some q ∧ scheme q = scheme p ∧ hostname q = Some host ∧
  to_ascii_host host = Ok host ∧ port q = Some (port_kept p n) ∧
  normal_parts q host (port_kept p n) = q.
Proof.
  intros Ha Hto Hn q. pose proof (normal_canonical _ _ _ _ _ Ha Hto Hn) as Hcan.
  destruct (admitted_authority _ _ _ _ _ Ha Hto Hn) as (Hs & Hne & Hv & Hna & _).
  assert (scheme q = scheme p) as Hsq by apply (scheme_admitted _ _ _ Ha).
  destruct (ad_port _ _ _ Ha) as (n' & Hn' & Hrange). rewrite Hn in Hn'. injection Hn' as <-.
  assert (port_kept q = port_kept p) as Hk by (by rewrite /port_kept Hsq).
  assert (port_text q = port_text p) as Ht by (by rewrite /port_text Hsq).
  split; [by apply urlparse_geturl|]. split; [done|]. split; [|split; [by apply settled_ascii|]].
  { destruct Hs as (?&?&_). by eapply normal_hostname. }
  split; [|].
  - rewrite /port (na_info _ _ _ Hna). cbn [snd]. by destruct (port_text_read p n Hrange).
  - rewrite {1}/normal_parts. rewrite {6}/q /normal_parts. f_equal.
    + rewrite Hsq. done.
    + pose proof (normal_netloc_text p host n (ad_user _ _ _ Ha) (scheme_admitted _ _ _ Ha) Hrange) as E.
      change (normal_netloc q host (port_kept p n) = normal_netloc p host n).
      rewrite normal_netloc_text; [|apply Hna|rewrite Hsq; by eapply scheme_admitted|].
      * change (netloc q) with (normal_netloc p host n). rewrite (na_open _ _ _ Hna) orb_diag Ht
          port_text_kept. pose proof (na_open _ _ _ Hna) as Ho. rewrite E in Ho |- *.
        destruct (has_char COLON host); [done|]. by destruct (has_char OPEN_BRACKET (netloc p)).
      * destruct n as [n|]; [|done]. simpl. by case_bool_decide.
    + rewrite /q /=. by destruct (path p).
Qed.

Lemma normalize_admitted st v p : admitted st v p →
  url_normalize (MkOriginalUrl v) =
    to_ascii_host (default [] (hostname p)) ≫= λ host,
    match port p with
    | None => Err (PyError ValueError)
    | Some n => Ok (geturl (normal_parts p host n))
    end.
Proof. intros Ha. by rewrite /url_normalize /parse /= (ad_parse _ _ _ Ha). Qed.

(** Normalising again changes nothing, and the target stays the same. *)
Lemma normal_form_fixed st v p s : admitted st v p → url_normalize (MkOriginalUrl v) = Ok s →
  url_normalize (MkOriginalUrl s) = Ok s ∧ ∃ q, urlparse s = Some q ∧ same_target p q.
Proof.
  intros Ha. rewrite (normalize_admitted _ _ _ Ha) result_bind_ok. intros (host & Hto & Hs).
  destruct (port p) as [n|] eqn:Hn; [|done]. injection Hs as <-.
  destruct (normal_parts_read _ _ _ _ _ Ha Hto Hn) as (Hp & Hsq & Hh & Hth & Hport & Hfix).
  set (q := normal_parts p host n) in *. split.
  - rewrite /url_normalize /parse /= Hp /= Hh /= Hth /= Hport. by rewrite -{2}Hfix.
  - exists q. split; [done|]. split; [done|]. rewrite Hh Hto /=. split; [done|].
    split; [|done]. rewrite /effective_port Hport Hn Hsq /=. f_equal.
    destruct n as [n|]; [|done]. simpl. by case_bool_decide.
Qed.

Lemma normal_control st v p host n : admitted st v p →
  to_ascii_host (default [] (hostname p)) = Ok host → port p = Some n →
  let q := normal_parts p host n in free is_control (path q) ∧ free is_control (geturl q).
Proof.
  intros Ha Hto Hn q. destruct (admitted_authority _ _ _ _ _ Ha Hto Hn) as (_ & _ & _ & _ & Hctl).
  assert (∀ c, c ∈ netloc p ++ path p ++ params p ++ query p → is_control c = false) as Hv.
  { intros c Hc. apply (ad_chars _ _ _ Ha). by eapply urlparse_elem; [apply Ha|]. }
  assert (free is_control (path q)) as Hpath.
  { rewrite /q /=. destruct (path p) as [|c0 t] eqn:E.
    - intros c ->%list_elem_of_singleton. done.
    - intros c Hc. apply Hv. rewrite !elem_of_app. auto. }
  split; [done|]. rewrite geturl_canonical; [|by eapply normal_canonical].
  assert (∀ m s, is_control m = false → free is_control s → free is_control (with_mark m s)) as Hm.
  { intros m t ? ? c [->|?]%with_mark_elem; auto. }
  rewrite !free_app !free_cons !free_app. split_and!; try done; try apply free_nil.
  - change (scheme q) with (lower (scheme p)). pose proof (scheme_admitted _ _ _ Ha) as (_ & Hc & ->).
    intros c Hin. rewrite forallb_forall in Hc. apply list_elem_of_In, Hc in Hin. revert Hin.
    rewrite /is_scheme_char /is_alnum /is_alpha /is_upper /is_lower /is_digit /is_control
      /HYPHEN /DOT. lia.
  - apply Hm; [done|]. intros c Hc. apply Hv. rewrite !elem_of_app. auto.
  - apply Hm; [done|]. intros c Hc. apply Hv. rewrite !elem_of_app. auto.
Qed.

(** The normal form of an admitted URL is itself admissible, length apart. *)
Lemma normal_form_admitted st v p s : admitted st v p → url_normalize (MkOriginalUrl v) = Ok s →
  len s <= max_url_length st → new_url st s = Ok (MkOriginalUrl s).
Proof.
  intros Ha. rewrite (normalize_admitted _ _ _ Ha) result_bind_ok. intros (host & Hto & Hs) Hlen.
  destruct (port p) as [n|] eqn:Hn; [|done]. injection Hs as <-.
  destruct (normal_parts_read _ _ _ _ _ Ha Hto Hn) as (Hp & Hsq & Hh & Hth & Hport & _).
  destruct (admitted_authority _ _ _ _ _ Ha Hto Hn) as (Hset & Hne & Hvh & Hna & _).
  destruct (normal_control _ _ _ _ _ Ha Hto Hn) as [Hcp Hcu].
  set (q := normal_parts p host n) in *. apply new_url_admits. split; [done|]. exists q.
  split; try done.
  - rewrite Hsq. apply Ha.
  - rewrite Hh. split; [apply Hna|done].
  - apply Hna.
  - rewrite Hh. intros Hb. assert (COLON ∈ host) as Hc.
    { apply has_char_spec. destruct Hb as [Hb%has_char_spec|Hb%has_char_spec];
        [by rewrite -(na_open _ _ _ Hna)|by rewrite -(na_close _ _ _ Hna)]. }
    destruct (validated_host _ _ Hvh Hth) as (_ & _ & Hip). rewrite decide_True // in Hip.
    destruct Hip as [a Hip]. exists a. by apply parse_ip_colon.
  - exists (port_kept p n). split; [done|]. destruct (ad_port _ _ _ Ha) as (n' & Hn' & Hr).
    rewrite Hn in Hn'. injection Hn' as <-. destruct n as [n|]; [|done]. simpl. by case_bool_decide.
  - by rewrite Hh.
  - pose proof (ad_public _ _ _ Ha) as Hpub. revert Hpub. rewrite /validate_public_target Hto Hh.
    change (default [] (Some host)) with host. by rewrite Hth.
Qed.

(** Where internal targets are refused, every admitted URL has a normal form. *)
Lemma normal_form_exists st v p : admitted st v p → allow_internal_targets st = false →
  ∃ s, url_normalize (MkOriginalUrl v) = Ok s.
Proof.
  intros Ha Hst. rewrite (normalize_admitted _ _ _ Ha).
  pose proof (ad_public _ _ _ Ha) as Hpub. rewrite /validate_public_target Hst in Hpub.
  apply result_bind_ok in Hpub as (host & -> & _). destruct (ad_port _ _ _ Ha) as (n & -> & _).
  by eexists.
Qed.
End normal.

(** * What is claimed of destination addresses

    The properties of [OriginalUrl] that the rest of the program builds on,
    each at a concrete input as well.  [UrlDemo] fixes the parameters (case
    table, compatibility table, [idna]) to functions that satisfy their laws,
    so that admission can be evaluated. *)

Section claims.
Context `{CaseFolding} `{Nfkc} `{Idna}.

(** C9: An address of the deployment's own network is refused however it is
    spelt: one to four parts, each decimal, octal or hexadecimal, upper or
    lower case, with or without the dot of the root, with or without a port,
    whatever follows the authority.  The refusal is a validation error about
    the submitted address. *)
Theorem internal_spellings_are_refused st s host ptext tail n :
  allow_internal_targets st = false → scheme_ok s → decimal ptext → after_authority tail →
  reads_ipv4 host n → internal_v4 n →
  ∃ t, new_url st (s ++ lit "://" ++ authority host ptext ++ tail) =
         Err (ValidationError t (Some (lit "url"))).
Proof.
  intros Hst Hs Hp Ht Hr Hn.
  destruct (new_url st (s ++ lit "://" ++ authority host ptext ++ tail)) as [u|e] eqn:E.
  - by destruct (spelling_refused st s host ptext tail n u Hst Hs Hp Ht Hr Hn).
  - destruct (new_url_error _ _ _ E) as [t ->]. by exists t.
Qed.

(** A submitted address is admitted as it stands or refused with a
    validation error about it; no exception of the interpreter, of the URL
    parser or of the address parser reaches the caller. *)
Theorem submitted_url_outcome st v :
  new_url st v = Ok (MkOriginalUrl v) ∨
  ∃ t, new_url st v = Err (ValidationError t (Some (lit "url"))).
Proof.
  destruct (new_url st v) as [u|e] eqn:E.
  - left. by apply new_url_admits in E as [-> _].
  - right. destruct (new_url_error _ _ _ E) as [t ->]. by exists t.
Qed.

(** C17: The normal form of an admitted address exists where internal targets
    are refused, is its own normal form, names the same target (scheme, ASCII
    host, effective port, path, parameters and query), and is admissible
    itself while it fits the length limit. *)
Theorem normal_form_is_stable `{!CaseLaws} `{!IdnaLaws} st v u :
  new_url st v = Ok u →
  (allow_internal_targets st = false → is_ok (url_normalize u) = true) ∧
  ∀ s, url_normalize u = Ok s →
    url_normalize (MkOriginalUrl s) = Ok s ∧
    (∃ p q, urlparse v = Some p ∧ urlparse s = Some q ∧ same_target p q) ∧
    (len s <= max_url_length st → new_url st s = Ok (MkOriginalUrl s)).
Proof.
  intros (-> & p & Ha)%new_url_admits. split.
  - intros Hst. by destruct (normal_form_exists _ _ _ Ha Hst) as [s ->].
  - intros s Hs. destruct (normal_form_fixed _ _ _ _ Ha Hs) as (? & q & ? & ?). split; [done|].
    split; [by exists p, q; split; [apply Ha|]|]. by apply (normal_form_admitted _ _ _ _ Ha Hs).
Qed.

(** A site-local IPv6 address ([fec0::/10]) is inside somebody's network and
    is admitted all the same: none of the properties asked of an address
    covers that block. *)
Theorem site_local_target_is_admitted :
  let st := MkUrlSettings [lit "http"; lit "https"] 2048 false in
  let v := lit "http://[fec0::1]/" in
  new_url st v = Ok (MkOriginalUrl v).
Proof. vm_compute. reflexivity. Qed.
End claims.

Module UrlDemo.
#[local] Instance demo_case : CaseFolding := λ s, ascii_lower <$> s.
#[local] Instance demo_nfkc : Nfkc := λ s, s.
#[local] Instance demo_idna : Idna := λ _, None.
#[local] Instance demo_case_laws : CaseLaws.
Proof.
  intros s c (d & -> & Hd)%list_elem_of_fmap _. rewrite /ascii_lower.
  destruct (is_upper d) eqn:E; [right|by left]. revert E. rewrite /is_upper /is_lower. lia.
Qed.
#[local] Instance demo_idna_laws : IdnaLaws.
Proof. by split. Qed.

Definition web : UrlSettings := MkUrlSettings [lit "http"; lit "https"] 2048 false.

Example admission :
  (λ s, is_ok (new_url web (lit s))) <$>
    ["https://example.com/a?b=c#d"; "http://8.8.8.8:8080/"; "http://[2606:4700::1111]/";
     "http://0177.0.0.1/"; "http://0x7f.1/"; "http://127.1./"; "http://[::1]/";
     "http://[::ffff:10.0.0.1]/"; "http://user@example.com/"; "http://metadata.google.internal/";
     "ftp://example.com/"; "http://example.com:70000/"; "http://-bad.com/"; "http://[v1.a]/"]%string =
  [true; true; true; false; false; false; false; false; false; false; false; false; false; false].
Proof. vm_compute. reflexivity. Qed.

Lemma internal_spellings_are_refused_witness :
  ∃ t, new_url web (lit "http://0X7f.1:80/admin") = Err (ValidationError t (Some (lit "url"))).
Proof.
  apply (internal_spellings_are_refused web (lit "http") (lit "0X7f.1") (lit "80") (lit "/admin")
    (127 * 2 ^ 24 + 1)).
  - reflexivity.
  - split; [reflexivity|split; reflexivity].
  - reflexivity.
  - right. by eexists _, _.
  - exists [lit "0X7f"; lit "1"]. split; [|by left].
    apply reads_2; [apply (reads_hexadecimal 88 (lit "7f")); [by right|reflexivity]|
      apply (reads_decimal 49 []); [done|reflexivity]|rewrite /byte; lia|lia].
  - rewrite /internal_v4 !Exists_cons. do 3 right. left. vm_compute. split; discriminate.
Defined.

Lemma normal_form_is_stable_witness :
  let v := lit "HTTP://Example.com.:80#top" in let s := lit "http://example.com/" in
  url_normalize (MkOriginalUrl v) = Ok s ∧ url_normalize (MkOriginalUrl s) = Ok s.
Proof.
  intros v s. assert (url_normalize (MkOriginalUrl v) = Ok s) as Hn by (vm_compute; reflexivity).
  split; [exact Hn|].
  apply (proj2 (normal_form_is_stable web v (MkOriginalUrl v) ltac:(vm_compute; reflexivity)) s Hn).
Defined.
End UrlDemo.
