(* ===== verification/Links.v ===== *)
(** * Links: the use cases

    [application/use_cases/links/]: creation with deduplication, redirect
    through the two cache levels, deletion, information and the click
    counter, and the sweep of expired links
    ([admin/links/clean_expired_links.py]).  Each is the whole [execute] of
    its class, over the world of [Database]: cache reads and writes, the
    unit of work, audit records and queued tasks in the order of the source.

    The task queue is a port (type class [TaskQueue]); [NullTaskQueue] runs
    the click counter on the spot, [CeleryTaskQueue] hands it to a broker
    and suspends itself after a failure. *)

From S2P Require Import Prelude PyStr Exceptions ValueObjects Entities Policies CodeGen Cache.
From S2P Require Import Database LinkRepo UserRepo Visitor.

(** ** Settings and answers *)

Record LinkSettings := MkLinkSettings {
  base_url : pystr;
  url_settings : UrlSettings;
  guest_link_limit : Z;
  guest_link_window_days : Z;
  default_guest_ttl_seconds : Z;
  max_ttl_seconds : Z;
  max_collision_attempts : nat;
  record_visits : bool;
}.

Record ShortLinkResponse := MkShortLinkResponse {
  slr_short_code : pystr;
  slr_short_url : pystr;
  slr_original_url : pystr;
  slr_clicks : Z;
  slr_created_at : Z;
  slr_last_accessed : option Z;
  slr_expires_at : option Z;
  slr_is_new : bool;
  slr_from_cache : bool;
  slr_owner_id : option pystr;
  slr_link_id : pystr;
}.

(** [url_utils.build_short_url]. *)
Definition build_short_url (base_url short_code : pystr) : result exn pystr :=
  if bool_decide (base_url = []) || bool_decide (short_code = [])
  then Err (PyError ValueError)
  else Ok (rstrip_by (Z.eqb SLASH) base_url ++ SLASH :: short_code).

Definition from_link (l : Link) (base_url : pystr) (is_new from_cache : bool)
    : result exn ShortLinkResponse :=
  build_short_url base_url (sc_value (link_short_code l)) ≫= λ short_url,
  Ok {| slr_short_code := sc_value (link_short_code l); slr_short_url := short_url;
        slr_original_url := ou_value (link_original_url l); slr_clicks := link_clicks l;
        slr_created_at := link_created_at l; slr_last_accessed := link_last_accessed l;
        slr_expires_at := link_expires_at l; slr_is_new := is_new;
        slr_from_cache := from_cache; slr_owner_id := oid_value <$> link_owner l;
        slr_link_id := link_id l |}.

(** [BaseUseCase._code_to_look_up]. *)
Definition code_to_look_up (s : pystr) : result exn ShortCode :=
  match new_ShortCode s with
  | Ok c => Ok c
  | Err _ => Err (LinkNotFoundError (Some s))
  end.

Class TaskQueue (C : Type) :=
  enqueue_link_accessed : pystr → RequestContext → M (World C) exn unit.

Section links.
Context {C Stats : Type} `{ServiceCache C Stats} `{UrlRules} `{CodeGenerator}
        `{HashCalculator} `{CaseFolding} `{WordChars} `{UuidSupply}.
Context (cfg : LinkSettings).
Abbreviation P := (M (World C) exn).

(** A query of the links table inside the open unit of work. *)
Abbreviation links f := (read (λ d, f (urls d)) : P _).

(** ** [CreateShortLinkUseCase] *)

Definition validate_ttl (ttl_seconds : Z) : result exn unit :=
  if ttl_seconds <? 0
  then Err (invalid "ttl_seconds" "ttl_seconds must not be negative")
  else if max_ttl_seconds cfg <? ttl_seconds
  then Err (invalid "ttl_seconds" "ttl_seconds must not exceed %(max)s")
  else Ok tt.

Definition read_custom_code (custom_code : option pystr) : result exn (option ShortCode) :=
  match custom_code with
  | None | Some [] => Ok None
  | Some s =>
      new_ShortCode s ≫= λ code,
      if is_reserved (sc_value code)
      then Err (invalid "code"
        "'%(code)s' is reserved by the service and cannot be used as a short code")
      else Ok (Some code)
  end.

(** [_confirm]: the stored row, if the cached link still answers. *)
Definition confirm (cached_link : Link) (url_hash : UrlHash) (scope : DedupScope)
    : P (option Link) :=
  now ← now_utc;
  stored ← links (find_by_code (link_short_code cached_link));
  mret match stored with
       | None => None
       | Some s =>
           if decide (link_url_hash s ≠ url_hash) then None
           else if decide (dedup_scope s ≠ scope) then None
           else if is_expired now s then None
           else Some s
       end.

(** The two loops of [_generate_unique_code]: the first code nobody has. *)
Fixpoint first_free (gen : nat → P ShortCode) (attempt n : nat) : P (option ShortCode) :=
  match n with
  | O => mret None
  | S n =>
      code ← gen attempt;
      taken ← links (find_by_code code);
      match taken with
      | None => mret (Some code)
      | Some _ => first_free gen (S attempt) n
      end
  end.

Definition generate_unique_code (original_url : OriginalUrl) : P ShortCode :=
  det ← first_free (λ attempt, lift (generate_unique original_url attempt)) 0
          (max_collision_attempts cfg);
  match det with
  | Some code => mret code
  | None =>
      fresh ← first_free (λ _, u ← fresh_uuid; lift (generate_fresh (uuid_hex u) original_url))
                0 (max_collision_attempts cfg);
      match fresh with
      | Some code => mret code
      | None => raise CodeGenerationError
      end
  end.

(** The lookups before a creation: the cache's link confirmed against its
    row, then the table. *)
Definition find_existing (cached_link : option Link) (url_hash : UrlHash)
    (scope : DedupScope) : P (option (Link * bool)) :=
  now ← now_utc;
  confirmed ← match cached_link with
              | None => mret None
              | Some cl =>
                  s ← confirm cl url_hash scope;
                  match s with
                  | Some l => mret (Some l)
                  | None => on_cache (cache_delete cl);; mret None
                  end
              end;
  match confirmed with
  | Some l => mret (Some (l, true))
  | None =>
      found ← links (find_live_by_hash now url_hash scope);
      match found with
      | None => mret None
      | Some l => on_cache (cache_save now l);; mret (Some (l, false))
      end
  end.

Definition choose_code (original_url : OriginalUrl) (chosen_code : option ShortCode)
    : P ShortCode :=
  match chosen_code with
  | Some code =>
      taken ← links (find_by_code code);
      match taken with
      | Some _ => raise (LinkCodeTakenError (sc_value code))
      | None => mret code
      end
  | None => generate_unique_code original_url
  end.

Definition check_guest_quota (guest_id : option pystr) : P unit :=
  match guest_id with
  | None => mret tt
  | Some g =>
      now ← now_utc;
      left ← links (guest_allowance now g (guest_link_limit cfg) (guest_link_window_days cfg));
      if left =? 0
      then raise (guest_quota_spent (guest_link_limit cfg) (guest_link_window_days cfg))
      else mret tt
  end.

(** What the unit of work of [_find_or_create] returns: the link found
    (and whether through the cache) or the link stored. *)
Definition find_or_store (cached_link : option Link) (original_url : OriginalUrl)
    (url_hash : UrlHash) (scope : DedupScope) (owner : option OwnerID)
    (guest_id : option pystr) (ttl_seconds : Z) (chosen_code : option ShortCode)
    : P (Link * bool + Link) :=
  existing ← find_existing cached_link url_hash scope;
  match existing with
  | Some found => mret (inl found)
  | None =>
      check_guest_quota guest_id;;
      short_code ← choose_code original_url chosen_code;
      now ← now_utc;
      uuid ← fresh_uuid;
      new_link ← lift (create_link now uuid url_hash short_code original_url owner
                         guest_id ttl_seconds);
      saved ← update (save_link new_link);
      commit;;
      mret (inr saved)
  end.

Definition find_or_create (original_url : OriginalUrl) (url_hash : UrlHash)
    (scope : DedupScope) (owner : option OwnerID) (guest_id : option pystr)
    (ttl_seconds : Z) (chosen_code : option ShortCode) : P ShortLinkResponse :=
  now ← now_utc;
  cached_link ← with_cache (get_by_hash now url_hash scope);
  r ← with_uow (find_or_store cached_link original_url url_hash scope owner guest_id
                  ttl_seconds chosen_code);
  match r with
  | inl (l, from_cache) => lift (from_link l (base_url cfg) false from_cache)
  | inr saved =>
      on_cache (cache_save now saved);;
      on_cache delete_stats;;
      audit (UrlCreated (sc_value (link_short_code saved))
               (ou_value (link_original_url saved)) None);;
      lift (from_link saved (base_url cfg) true false)
  end.

(** [for attempt in range(n): try ... except LinkConflictError]. *)
Fixpoint retry_conflicts {A} (n : nat) (body : P A) : P A :=
  match n with
  | O => raise CodeGenerationError
  | S n => try_except body (λ e, if decide (e = LinkConflictError)
                                 then retry_conflicts n body else raise e)
  end.

(** A guest's link lives no longer than the service allows guests. *)
Definition effective_ttl (guest_id : option pystr) (ttl_seconds : Z) : Z :=
  match guest_id with
  | None => ttl_seconds
  | Some _ => if ttl_seconds =? 0 then default_guest_ttl_seconds cfg
              else Z.min ttl_seconds (default_guest_ttl_seconds cfg)
  end.

Definition guest_of (context : RequestContext) : option pystr :=
  match current_user context with Some _ => None | None => remote_addr context end.

Definition owner_of (context : RequestContext) : result exn (option OwnerID) :=
  match current_user context with
  | None => Ok None
  | Some u => new_OwnerID (cu_id u) ≫= λ o, Ok (Some o)
  end.

Definition scope_of (owner : option OwnerID) (guest_id : option pystr) : DedupScope :=
  match owner with Some o => for_owner (oid_value o) | None => for_guest guest_id end.

Definition create_short_link (url : pystr) (context : RequestContext) (ttl_seconds : Z)
    (custom_code : option pystr) : P ShortLinkResponse :=
  lift (validate_ttl ttl_seconds);;
  chosen_code ← lift (read_custom_code custom_code);
  original_url ← lift (new_OriginalUrl (url_settings cfg) url);
  url_hash ← lift (calculate original_url);
  let guest_id := guest_of context in
  let ttl_seconds := effective_ttl guest_id ttl_seconds in
  owner ← lift (owner_of context);
  let scope := scope_of owner guest_id in
  retry_conflicts (max_collision_attempts cfg)
    (find_or_create original_url url_hash scope owner guest_id ttl_seconds chosen_code).

(** ** [RedirectLinkUseCase] *)

Section redirect.
Context `{TaskQueue C}.

Definition answer (short_code : ShortCode) (original_url : pystr)
    (context : RequestContext) : P pystr :=
  enqueue_link_accessed (sc_value short_code) context;;
  audit (UrlAccessed (sc_value short_code) original_url);;
  mret original_url.

(** The row, saved to both levels on the way out. *)
Definition redirect_from_db (short_code_str : pystr) (short_code : ShortCode)
    : P pystr :=
  now ← now_utc;
  with_uow (
    link ← links (find_by_code short_code);
    match link with
    | None => raise (LinkNotFoundError (Some short_code_str))
    | Some l =>
        if is_expired now l then raise (LinkExpiredError (sc_value short_code))
        else on_cache (cache_save now l);; mret (ou_value (link_original_url l))
    end).

Definition redirect_link (short_code_str : pystr) (context : RequestContext) : P pystr :=
  short_code ← lift (code_to_look_up short_code_str);
  now ← now_utc;
  cached_redirect ← with_cache (get_redirect now short_code);
  match cached_redirect with
  | Some e =>
      if cr_is_expired now e then raise (LinkExpiredError (sc_value short_code))
      else answer short_code (cr_original_url e) context
  | None =>
      cached_link ← with_cache (get_by_code now short_code);
      match cached_link with
      | Some l =>
          if is_expired now l then raise (LinkExpiredError (sc_value short_code))
          else
            let orig_url := ou_value (link_original_url l) in
            on_cache (save_redirect now short_code orig_url (link_expires_at l));;
            answer short_code orig_url context
      | None =>
          orig_url ← redirect_from_db short_code_str short_code;
          answer short_code orig_url context
      end
  end.
End redirect.

(** ** [DeleteLinkUseCase] *)

(** [try] ... [except Exception]: logged and passed over.  The operations of
    [ServiceCache] do not raise (the Redis cache answers [RedisError] itself,
    in [_execute_read] and [_execute_write]; a Redis that is down keeps the
    entry, which [CacheLaws] excludes and only the other two caches meet). *)
Definition drop_cached (short_code : ShortCode) (link : option Link) : P unit :=
  try_except
    (match link with
     | Some l => on_cache (cache_delete l)
     | None => on_cache (delete_by_code short_code)
     end;;
     on_cache (delete_redirect short_code);;
     on_cache delete_stats)
    (λ _, mret tt).

Definition load_requester (context : RequestContext) : P (option User) :=
  match current_user context with
  | None => mret None
  | Some u => found ← read (find_user_by_id (cu_id u)); lift found
  end.

Definition owns_it (l : Link) (requester : User) : bool :=
  bool_decide (oid_value <$> link_owner l = Some (user_id requester)).

Definition permission_to_delete (l : Link) (requester : User) : pystr :=
  if owns_it l requester then LINK_DELETE_OWN else LINK_DELETE_ANY.

Definition require_may_delete (l : Link) (context : RequestContext) : P unit :=
  requester ← load_requester context;
  match requester with
  | None => raise (DomainError (lit "Authentication required") (lit "UNAUTHENTICATED"))
  | Some u =>
      let required := permission_to_delete l u in
      d ← gets w_db;
      if is_allowed d (Some u) required then mret tt
      else raise (PermissionDeniedError [required] [])
  end.

Definition delete_link_body (short_code : ShortCode) (context : RequestContext)
    (enforce_ownership : bool) (authorized_link_id : option pystr) : P bool :=
  found ← links (find_by_code short_code);
  match found with
  | None => drop_cached short_code None;; mret false
  | Some l =>
      (if enforce_ownership && negb (bool_decide (Some (link_id l) = authorized_link_id))
       then require_may_delete l context else mret tt);;
      deleted ← update (λ d, Ok (delete_link_row (link_id l) d));
      if (deleted : bool) then
        commit;;
        drop_cached short_code (Some l);;
        audit (UrlDeleted (sc_value (link_short_code l)) (ou_value (link_original_url l)));;
        mret true
      else mret false
  end.

Definition delete_link (short_code_str : pystr) (context : RequestContext)
    (enforce_ownership : bool) (authorized_link_id : option pystr) : P bool :=
  try_except
    (short_code ← lift (code_to_look_up short_code_str);
     with_uow (delete_link_body short_code context enforce_ownership authorized_link_id))
    (λ e, match e with LinkNotFoundError _ => mret false | _ => raise e end).

(** ** [GetLinkInfoUseCase], [GetUserLinksUseCase] *)

Definition get_link_info (short_code_str : pystr) : P ShortLinkResponse :=
  short_code ← lift (code_to_look_up short_code_str);
  now ← now_utc;
  l ← with_uow (
    link ← links (find_by_code short_code);
    match link with
    | None => raise (LinkNotFoundError (Some short_code_str))
    | Some l =>
        if is_expired now l then raise (LinkExpiredError (sc_value short_code)) else mret l
    end);
  lift (from_link l (base_url cfg) false false).

Fixpoint responses (ls : list Link) : result exn (list ShortLinkResponse) :=
  match ls with
  | [] => Ok []
  | l :: ls =>
      from_link l (base_url cfg) false false ≫= λ r, responses ls ≫= λ rs, Ok (r :: rs)
  end.

Definition get_user_links (user_id : pystr) (offset limit : nat) : P (list ShortLinkResponse) :=
  ls ← with_uow (links (find_by_owner user_id offset (limit `min` 200)));
  lift (responses ls).

(** ** [UpdateLinkStatsUseCase] *)

Definition add_visit (v : LinkVisit) (d : Database) : Database :=
  set_link_visits (link_visits d ++ [v]) d.

Definition record_visit (short_code : ShortCode) (context : RequestContext) : P unit :=
  now ← now_utc;
  link ← links (find_by_code short_code);
  match link with
  | None => mret tt
  | Some l =>
      uuid ← fresh_uuid;
      write (add_visit (record now uuid (link_id l) (remote_addr context) (user_agent context)))
  end.

(** [increment_clicks] on the database, answering whether the row was there. *)
Definition count_click (now : Z) (short_code : ShortCode) (d : Database)
    : result exn (bool * Database) :=
  match increment_clicks now short_code (urls d) with
  | Ok t => Ok (true, set_urls t d)
  | Err (LinkNotFoundError _) => Ok (false, d)
  | Err e => Err e
  end.

Definition update_link_stats (short_code_str : pystr) (context : RequestContext) : P unit :=
  match new_ShortCode short_code_str with
  | Err _ => mret tt
  | Ok short_code =>
      with_uow (
        now ← now_utc;
        counted ← update (count_click now short_code);
        if (counted : bool) then
          (if record_visits cfg then record_visit short_code context else mret tt);;
          commit
        else
          on_cache (delete_redirect short_code);;
          on_cache (delete_by_code short_code))
  end.

(** ** [CleanExpiredLinksUseCase] *)

Definition clean_expired_links : P nat :=
  now ← now_utc;
  deleted_links ← with_uow (
    deleted ← update (λ d, sweep (delete_expired now (urls d)) d);
    commit;; mret deleted);
  for_each (λ l, on_cache (cache_delete l)) deleted_links;;
  match deleted_links with
  | [] => mret 0%nat
  | _ => on_cache delete_stats;; audit (ExpiredLinksSwept (length deleted_links));;
         mret (length deleted_links)
  end.

(** ** Task queues *)

(** [NullTaskQueue]: the counter runs in the request, and no failure of it
    reaches the reader. *)
Definition null_enqueue (short_code_str : pystr) (context : RequestContext) : P unit :=
  try_except (update_link_stats short_code_str context) (λ _, mret tt).

(** [CeleryTaskQueue]: [delay] is the broker, which takes a task or fails;
    after a failure nothing is tried for [retry_interval]. *)
Definition claim_attempt (retry_interval : Z) : P bool :=
  now ← now_utc;
  failed_at ← gets w_failed_at;
  match failed_at with
  | None => mret true
  | Some t =>
      if now - t <? retry_interval then mret false
      else modify (set_failed_at (Some now));; mret true
  end.

Definition celery_enqueue (delay : Z → task → bool) (retry_interval : Z)
    (short_code_str : pystr) (context : RequestContext) : P unit :=
  go ← claim_attempt retry_interval;
  if negb go then mret tt
  else
    now ← now_utc;
    let t := LinkAccessed short_code_str context in
    if delay now t then modify (add_task t);; modify (set_failed_at None)
    else modify (set_failed_at (Some now)).
End links.
