(* ===== verification/Stats.v ===== *)
(** * Figures: one link, one account, the whole service

    [application/use_cases/links/get_extended_link_info.py],
    [application/use_cases/stats/get_service_stats.py],
    [get_user_activity_stats.py], [admin/links/get_recent_links.py] and their
    answers ([application/dtos/]).

    An average is a double rounded to two places.  [true_div] is the division
    of two integers as Python has it, correctly rounded to 53 bits, and
    [round2] is [round(x, 2)]; both are exact integer arithmetic.  A rounded
    average is kept as its number of hundredths. *)

From S2P Require Import Prelude PyStr Exceptions ValueObjects Entities Policies CodeGen Cache MemoryCache Database LinkRepo RedisCache RedisTheorems Links.

(** ** Averages *)

(** [a / b] to the nearest integer, a tie to the even one. *)
Definition nearest (a b : Z) : Z :=
  match 2 * (a mod b) ?= b with
  | Lt => a / b
  | Gt => a / b + 1
  | Eq => if Z.even (a / b) then a / b else a / b + 1
  end.

(** [a / (b * 2 ^ e)] as a quotient of integers. *)
Definition scaled (a b e : Z) : Z * Z := if e <? 0 then (a * 2 ^ (- e), b) else (a, b * 2 ^ e).

(** The exponent with which the quotient has 53 bits before the point. *)
Definition exponent (a b : Z) : Z :=
  let e := Z.log2 a - Z.log2 b - 52 in
  let '(n, d) := scaled a b e in if n <? 2 ^ 52 * d then e - 1 else e.

(** [a / b] for [0 <= a] and [0 < b]: mantissa and exponent. *)
Definition true_div (a b : Z) : Z * Z :=
  if a =? 0 then (0, 0)
  else let e := exponent a b in let '(n, d) := scaled a b e in (nearest n d, e).

(** [round(x, 2)], in hundredths. *)
Definition round2 (x : Z * Z) : Z :=
  let '(m, e) := x in if e <? 0 then nearest (100 * m) (2 ^ (- e)) else 100 * m * 2 ^ e.

(** [round(total / count, 2) if count > 0 else 0]. *)
Definition average (total count : Z) : Z := if 0 <? count then round2 (true_div total count) else 0.

(** [round(n, 2)] of an average already rounded. *)
Definition round_again (n : Z) : Z := round2 (true_div n 100).

(** [timedelta.days]. *)
Definition days_of (span : Z) : Z := span / DAY.

(** ** Answers *)

Record ExtendedLinkInfoResponse := MkExtendedLinkInfoResponse {
  el_short_code : pystr;
  el_short_url : pystr;
  el_original_url : pystr;
  el_clicks : Z;
  el_created_at : Z;
  el_last_accessed : option Z;
  el_is_popular : bool;
  el_is_recent : bool;
  el_age_days : Z;
  el_clicks_per_day : Z;
  el_last_access_days_ago : option Z;
  el_owner_id : option pystr;
  el_link_id : pystr;
}.

Definition extended_from_link (now : Z) (l : Link) (base_url : pystr) (popular_threshold recent_days : Z)
    : result exn ExtendedLinkInfoResponse :=
  short_url ← build_short_url base_url (sc_value (link_short_code l));
  let age_days := days_of (now - link_created_at l) in
  Ok {| el_short_code := sc_value (link_short_code l); el_short_url := short_url;
        el_original_url := ou_value (link_original_url l); el_clicks := link_clicks l;
        el_created_at := link_created_at l; el_last_accessed := link_last_accessed l;
        el_is_popular := is_popular l popular_threshold; el_is_recent := is_recent now l recent_days;
        el_age_days := age_days;
        el_clicks_per_day := if 0 <? link_clicks l then average (link_clicks l) (Z.max age_days 1) else 0;
        el_last_access_days_ago := (λ t, days_of (now - t)) <$> link_last_accessed l;
        el_owner_id := oid_value <$> link_owner l; el_link_id := link_id l |}.

Record StatsItemResponse := MkStatsItemResponse {
  si_short_code : pystr;
  si_short_url : pystr;
  si_original_url : pystr;
  si_clicks : Z;
  si_created_at : Z;
}.

Definition stats_item (l : Link) (base_url : pystr) : result exn StatsItemResponse :=
  short_url ← build_short_url base_url (sc_value (link_short_code l));
  Ok (MkStatsItemResponse (sc_value (link_short_code l)) short_url
        (ou_value (link_original_url l)) (link_clicks l) (link_created_at l)).

Record ServiceStatsResponse := MkServiceStatsResponse {
  ss_total_urls : Z;
  ss_total_clicks : Z;
  ss_avg_clicks_per_url : Z;
  ss_popular_links : list StatsItemResponse;
}.

(** What the cache keeps: [to_dict()], times as text. *)
Record StatsItemDict := MkStatsItemDict {
  sd_short_code : pystr;
  sd_short_url : pystr;
  sd_original_url : pystr;
  sd_clicks : Z;
  sd_created_at : pystr;
}.
Record StatsDict := MkStatsDict {
  sd_total_urls : Z;
  sd_total_clicks : Z;
  sd_avg_clicks_per_url : Z;
  sd_popular_links : list StatsItemDict;
}.

Record UserActivityResponse := MkUserActivityResponse {
  ua_user_id : pystr;
  ua_total_links : Z;
  ua_total_clicks : Z;
  ua_avg_clicks_per_link : Z;
  ua_recent_links : list ShortLinkResponse;
}.

Section dicts.
Context `{IsoFormat}.

Definition item_to_dict (i : StatsItemResponse) : StatsItemDict :=
  MkStatsItemDict (si_short_code i) (si_short_url i) (si_original_url i) (si_clicks i)
    (isoformat (si_created_at i)).
Definition to_dict (s : ServiceStatsResponse) : StatsDict :=
  MkStatsDict (ss_total_urls s) (ss_total_clicks s) (round_again (ss_avg_clicks_per_url s))
    (item_to_dict <$> ss_popular_links s).

Definition item_from_dict (i : StatsItemDict) : result exn StatsItemResponse :=
  match fromisoformat (sd_created_at i) with
  | Some t => Ok (MkStatsItemResponse (sd_short_code i) (sd_short_url i) (sd_original_url i) (sd_clicks i) t)
  | None => Err (PyError ValueError)
  end.
Definition from_cached (s : StatsDict) : result exn ServiceStatsResponse :=
  popular ← mapM item_from_dict (sd_popular_links s);
  Ok (MkServiceStatsResponse (sd_total_urls s) (sd_total_clicks s) (sd_avg_clicks_per_url s) popular).
End dicts.

(** ** The use cases *)

Section use_cases.
Context {C : Type} `{ServiceCache C StatsDict} `{IsoFormat}.
Context (cfg : LinkSettings) (popular_threshold recent_days : Z).
Abbreviation P := (M (World C) exn).
Abbreviation links f := (read (λ d, f (urls d)) : P _).

Definition get_extended_link_info (short_code_str : pystr) : P ExtendedLinkInfoResponse :=
  short_code ← lift (code_to_look_up short_code_str);
  now ← now_utc;
  l ← with_uow (
    link ← links (find_by_code short_code);
    match link with
    | None => raise (LinkNotFoundError (Some short_code_str))
    | Some l =>
        if is_expired now l then raise (LinkExpiredError (sc_value short_code)) else mret l
    end);
  lift (extended_from_link now l (base_url cfg) popular_threshold recent_days).

Definition get_service_stats : P ServiceStatsResponse :=
  now ← now_utc;
  cached_stats ← with_cache (get_stats now);
  match cached_stats with
  | Some s => lift (from_cached s)
  | None =>
      stats_data ← with_uow (links get_link_stats);
      let '(total_urls, total_clicks, most_clicked) := stats_data in
      popular_links ← lift (mapM (λ l, stats_item l (base_url cfg)) most_clicked);
      let response := MkServiceStatsResponse total_urls total_clicks
                        (average total_clicks total_urls) popular_links in
      on_cache (save_stats now (to_dict response));;
      mret response
  end.

Definition get_user_activity_stats (user_id : pystr) : P UserActivityResponse :=
  stats ← with_uow (links (get_user_stats user_id));
  let '(total_links, total_clicks, recent_links) := stats in
  recent ← lift (responses cfg recent_links);
  mret (MkUserActivityResponse user_id total_links total_clicks
          (average total_clicks total_links) recent).

Definition get_recent_links (limit : nat) : P (list Link) := with_uow (links (get_recent limit)).
End use_cases.

(** * Theorems on the figures *)

(** ** Averages *)

Lemma nearest_close a b : 0 < b → 2 * Z.abs (nearest a b * b - a) <= b.
Proof.
  intros Hb. pose proof (Z.div_mod a b ltac:(lia)) as Hdm. pose proof (Z.mod_pos_bound a b Hb).
  rewrite /nearest. destruct (Z.compare_spec (2 * (a mod b)) b); [destruct (Z.even (a / b))|..]; nia.
Qed.

Lemma scaled_pos a b e : 0 < a → 0 < b → 0 < (scaled a b e).2.
Proof. intros Ha Hb. rewrite /scaled. destruct (Z.ltb_spec e 0); simpl; [lia|]. pose proof (Z.pow_pos_nonneg 2 e); nia. Qed.

(** The quotient has its 53 bits. *)
Lemma exponent_normal a b : 0 < a → 0 < b →
  2 ^ 52 * (scaled a b (exponent a b)).2 <= (scaled a b (exponent a b)).1.
Proof.
  intros Ha Hb. rewrite /exponent. set (e := _ - 52).
  destruct (scaled a b e) as [n d] eqn:Hs. destruct (Z.ltb_spec n (2 ^ 52 * d)); [|by rewrite Hs].
  destruct (Z.log2_spec a Ha) as [Hla _]. destruct (Z.log2_spec b Hb) as [_ Hlb].
  pose proof (Z.log2_nonneg a). pose proof (Z.log2_nonneg b).
  rewrite /scaled. destruct (Z.ltb_spec (e - 1) 0); simpl.
  - transitivity (2 ^ Z.log2 a * 2 ^ (- (e - 1))).
    + rewrite -Z.pow_add_r; [|lia|lia]. replace (Z.log2 a + - (e - 1)) with (52 + Z.succ (Z.log2 b)) by lia.
      rewrite Z.pow_add_r; [|lia..]. nia.
    + apply Z.mul_le_mono_nonneg_r; lia.
  - transitivity (2 ^ Z.log2 a); [|lia].
    replace (Z.log2 a) with (52 + (Z.succ (Z.log2 b) + (e - 1))) by lia.
    rewrite (Z.pow_add_r 2 52); [|lia|lia]. rewrite (Z.pow_add_r 2 (Z.succ _)); [|lia|lia].
    apply Z.mul_le_mono_nonneg_l; [lia|]. apply Z.mul_le_mono_nonneg_r; lia.
Qed.

Lemma average_error total count : 0 <= total → 0 < count →
  2 ^ 53 * Z.abs (average total count * count - 100 * total) <= 2 ^ 52 * count + 100 * total.
Proof.
  intros Ht Hc. rewrite /average. destruct (Z.ltb_spec 0 count); [|lia]. rewrite /true_div.
  destruct (Z.eqb_spec total 0) as [->|Hne]; [change (round2 (0, 0)) with 0; lia|].
  pose proof (exponent_normal total count ltac:(lia) Hc) as Hn.
  pose proof (scaled_pos total count (exponent total count) ltac:(lia) Hc) as Hd.
  set (e := exponent total count) in *.
  destruct (scaled total count e) as [n d] eqn:Hs. simpl in Hn, Hd.
  pose proof (nearest_close n d Hd) as Hm. set (m := nearest n d) in *.
  rewrite /scaled in Hs. rewrite /round2. destruct (Z.ltb_spec e 0); injection Hs as <- <-.
  - pose proof (Z.pow_pos_nonneg 2 (- e) ltac:(lia) ltac:(lia)) as HD. set (D := 2 ^ (- e)) in *.
    pose proof (nearest_close (100 * m) D HD) as Hr. set (r := nearest _ _) in *. nia.
  - pose proof (Z.pow_pos_nonneg 2 e ltac:(lia) ltac:(lia)) as HD. set (D := 2 ^ e) in *. nia.
Qed.

(** An average is shown within half a hundredth of the true quotient, but
    for one part in [2 ^ 53] of it from the division of doubles; one that has
    two places, of fewer than [2 ^ 52] hundredths, is shown exactly. *)
Theorem shown_average_is_close total count : 0 <= total → 0 < count →
  2 ^ 53 * Z.abs (average total count * count - 100 * total) <= 2 ^ 52 * count + 100 * total ∧
  ∀ n, 100 * total = n * count → n < 2 ^ 52 → average total count = n.
Proof.
  intros Ht Hc. pose proof (average_error total count Ht Hc) as He. split; [done|].
  intros n Hn Hlt. rewrite Hn in He.
  replace (average total count * count - n * count) with ((average total count - n) * count) in He by lia.
  rewrite Z.abs_mul (Z.abs_eq count) in He; [|lia]. assert (Z.abs (average total count - n) < 1) by nia. lia.
Qed.

Lemma shown_average_is_close_witness : average 10 3 = 333 ∧ average 25 4 = 625.
Proof.
  pose proof (shown_average_is_close 10 3 ltac:(lia) ltac:(lia)) as [_ _].
  split; [vm_compute; reflexivity|].
  apply (proj2 (shown_average_is_close 25 4 ltac:(lia) ltac:(lia))); lia.
Defined.

Lemma round_again_id n : 0 <= n < 2 ^ 52 → round_again n = n.
Proof.
  intros Hn. pose proof (average_error n 100 ltac:(lia) ltac:(lia)) as He.
  change (average n 100) with (round_again n) in He. lia.
Qed.

(** ** Statistics in the cache *)

Section kept.
Context `{IsoLaws} (cfg : LinkSettings) (cs : CacheSettings).
Abbreviation Memory := (InMemoryLinkCache StatsDict).
Implicit Types (w : World Memory).
#[local] Existing Instance InMemory_ServiceCache.
#[local] Instance memory : ServiceCache Memory StatsDict := InMemory_ServiceCache cs.

Lemma saved_stats_are_read now later (d : StatsDict) (c : Memory) : later <= now + cs_stats_ttl cs * SECOND →
  (mc_get_stats cs later (mc_save_stats cs now d c)).1 = Some d.
Proof.
  intros Hl. set (c' := mc_save_stats cs now d c).
  assert (mc_is_expired later (key_for_stats (cs_prefix cs)) c' = false) as Hx.
  { rewrite /mc_is_expired /= lookup_insert_eq. lia. }
  assert (mc_expiry (clean_expired cs later c') !! key_for_stats (cs_prefix cs) = Some (now + cs_stats_ttl cs * SECOND)) as Hk.
  { apply map_lookup_filter_Some. split; [apply lookup_insert_eq|]. by rewrite /lapsed Hx. }
  rewrite /mc_get_stats bool_decide_eq_true_2; [|by eauto].
  rewrite {1}/mc_is_expired Hk. rewrite (_ : _ <? _ = false); [|lia]. by rewrite /= Hx.
Qed.

Lemma dropped_stats_are_gone later (c : Memory) : (mc_get_stats cs later (mc_delete_stats cs c)).1 = None.
Proof.
  rewrite /mc_get_stats. rewrite bool_decide_eq_false_2; [done|]. intros [t Ht].
  apply map_lookup_filter_Some in Ht as [Ht _]. by rewrite /= lookup_delete_eq in Ht.
Qed.

Lemma items_read_back items : Forall (λ i, is_datetime (si_created_at i)) items →
  mapM item_from_dict (item_to_dict <$> items) = Ok items.
Proof.
  induction 1 as [|i l Hi _ IH]; [done|].
  rewrite /= /item_from_dict /= fromisoformat_isoformat // /= IH. by destruct i.
Qed.

Lemma cached_stats_read_back s : Forall (λ i, is_datetime (si_created_at i)) (ss_popular_links s) →
  0 <= ss_avg_clicks_per_url s < 2 ^ 52 → from_cached (to_dict s) = Ok s.
Proof.
  intros Hi Ha. rewrite /from_cached /to_dict /= items_read_back //= round_again_id //. by destruct s.
Qed.

Lemma stats_items_dates ls items : Forall (λ l, is_datetime (link_created_at l)) ls →
  mapM (λ l, stats_item l (base_url cfg)) ls = Ok items → Forall (λ i, is_datetime (si_created_at i)) items.
Proof.
  intros Hl. revert items. induction Hl as [|l ls Hl _ IH]; intros items Hm.
  { by injection Hm as <-. }
  simpl in Hm. apply result_bind_ok in Hm as (i & Hi & Hm). apply result_bind_ok in Hm as (rest & Hrest & Hm).
  injection Hm as <-. constructor; [|by apply IH]. rewrite /stats_item in Hi.
  apply result_bind_ok in Hi as (u & _ & Hi). by injection Hi as <-.
Qed.

(** What the table gives, asked afresh. *)
Definition fresh_stats (t : list Link) : result exn ServiceStatsResponse :=
  popular ← mapM (λ l, stats_item l (base_url cfg)) (get_link_stats t).2;
  Ok (MkServiceStatsResponse (len t) (sum_clicks t) (average (sum_clicks t) (len t)) popular).

Lemma run_stats_miss w : (get_stats (w_now w) (w_cache w)).1 = None →
  ∃ w1, get_service_stats cfg w = (fresh_stats (urls (w_db w)), w1) ∧
    ∀ s, fresh_stats (urls (w_db w)) = Ok s →
      w_cache w1 = save_stats (w_now w) (to_dict s) (get_stats (w_now w) (w_cache w)).2.
Proof.
  simpl. rewrite /get_service_stats /fresh_stats. rewrite {1}/mbind /M_bind /=.
  rewrite {1}/mbind /M_bind /with_cache /=. destruct (mc_get_stats _ _ _) as [x c]. simpl. intros ->.
  rewrite {1}/mbind /M_bind /with_uow /=. rewrite {1}/mbind /M_bind /lift /=.
  destruct (mapM _ _) as [popular|e]; simpl; eexists; (split; [reflexivity|]); [|done]. by intros s [= <-].
Qed.

Lemma run_stats_hit w d : (get_stats (w_now w) (w_cache w)).1 = Some d →
  (get_service_stats cfg w).1 = from_cached d.
Proof.
  simpl. rewrite /get_service_stats {1}/mbind /M_bind /= {1}/mbind /M_bind /with_cache /=.
  destruct (mc_get_stats _ _ _) as [x c]. simpl. by intros ->.
Qed.

Lemma sum_clicks_nonneg t : Forall (λ l, 0 <= link_clicks l) t → 0 <= sum_clicks t.
Proof. induction 1; simpl; lia. Qed.

Lemma fresh_average t s : Forall (λ l, 0 <= link_clicks l) t → sum_clicks t < 2 ^ 44 →
  fresh_stats t = Ok s → 0 <= ss_avg_clicks_per_url s < 2 ^ 52.
Proof.
  intros Ht%sum_clicks_nonneg Hb Hs. apply result_bind_ok in Hs as (popular & _ & Hs). injection Hs as <-. simpl.
  destruct (Z.ltb_spec 0 (len t)) as [Hl|Hl]; [|rewrite /average (proj2 (Z.ltb_ge _ _) Hl); lia].
  pose proof (average_error _ _ Ht Hl). nia.
Qed.

(** The statistics of the service are computed when the cache has none and
    are then the same answer, dates and rounded average included, until their
    lifetime ends, whatever becomes of the table; a write of the service drops
    them, and the next answer is computed afresh. *)
Theorem statistics_are_kept_for_their_lifetime w s w1 later d :
  (get_stats (w_now w) (w_cache w)).1 = None →
  Forall (λ l, 0 <= link_clicks l ∧ is_datetime (link_created_at l)) (urls (w_db w)) →
  sum_clicks (urls (w_db w)) < 2 ^ 44 →
  get_service_stats cfg w = (Ok s, w1) →
  (later <= w_now w + cs_stats_ttl cs * SECOND →
     (get_service_stats cfg (set_now later (set_db d w1))).1 = Ok s) ∧
  (get_service_stats cfg (set_now later (set_db d (set_cache (delete_stats (w_cache w1)) w1)))).1 =
    fresh_stats (urls d).
Proof.
  intros Hm Hrows Hb Hrun. destruct (run_stats_miss w Hm) as (w' & Hw' & Hc).
  rewrite Hrun in Hw'. injection Hw' as Hs <-. symmetry in Hs. specialize (Hc s Hs).
  assert (Forall (λ l, 0 <= link_clicks l) (urls (w_db w))) as Hclicks by (eapply list.Forall_impl; [exact Hrows|by intros l []]).
  assert (Forall (λ l, is_datetime (link_created_at l)) (urls (w_db w))) as Hdates
    by (eapply list.Forall_impl; [exact Hrows|by intros l []]).
  split.
  - intros Hl. rewrite (run_stats_hit _ (to_dict s)).
    + apply cached_stats_read_back; [|by eapply fresh_average].
      apply result_bind_ok in Hs as (popular & Hp & [= <-]).
      eapply stats_items_dates; [|exact Hp]. apply list.Forall_take. by rewrite merge_sort_Permutation.
    + simpl. rewrite Hc. by apply saved_stats_are_read.
  - edestruct run_stats_miss as (w'' & -> & _); [|done]. apply dropped_stats_are_gone.
Qed.
End kept.

Module StatsDemo.
#[local] Existing Instances RedisTheorems.RedisDemo.numbers RedisTheorems.RedisDemo.numbers_laws.
Definition settings : LinkSettings := MkLinkSettings (lit "https://maiz.link") (MkUrlSettings [] 10 false) 1 1 1 1 1 false.
Definition cache_settings : CacheSettings := MkCacheSettings (lit "maiz") 3600 60.
Definition busy : Link :=
  MkLink (lit "1") (MkUrlHash (lit "h")) (MkShortCode (lit "abc-12")) (MkOriginalUrl (lit "https://a.org"))
    5 3 None None None None.
Definition world : World (InMemoryLinkCache StatsDict) :=
  MkWorld (set_urls [busy; busy; busy] empty_db) None (MkInMemoryLinkCache ∅ ∅ None ∅) 100 10 [] [] None.
#[local] Instance demo_cache : ServiceCache (InMemoryLinkCache StatsDict) StatsDict := memory cache_settings.

(** Thirty seconds after, with the table emptied behind its back. *)
Lemma statistics_are_kept_for_their_lifetime_witness : ∃ s,
  (get_service_stats settings world).1 = Ok s ∧
  (get_service_stats settings (set_now (100 + 30 * SECOND) (set_db empty_db (get_service_stats settings world).2))).1 = Ok s.
Proof.
  destruct (get_service_stats settings world) as [x w1] eqn:Hr.
  assert (∃ s, x = Ok s) as [s ->].
  { apply (f_equal fst) in Hr. vm_compute in Hr. subst x. by eexists. }
  exists s. split; [reflexivity|].
  apply (proj1 (statistics_are_kept_for_their_lifetime settings cache_settings world s w1
    (100 + 30 * SECOND) empty_db ltac:(vm_compute; reflexivity)
    ltac:(repeat constructor; vm_compute; discriminate) ltac:(vm_compute; reflexivity) Hr)).
  vm_compute. discriminate.
Defined.
End StatsDemo.
