(* ===== verification/Demo.v ===== *)
(** * A small deployment

    Concrete instances of the parameters, on which the theorems' hypotheses
    are discharged by evaluation: ASCII case folding, numbered UUIDs,
    and the program's own URL rules, code generator, digest and in-memory
    cache. *)

From S2P Require Import Prelude PyStr Exceptions ValueObjects Entities Policies CodeGen.
From S2P Require Import UrlParse OriginalUrl.
From S2P Require Import Cache MemoryCache Database LinkRepo UserRepo Visitor Links.

Module Demo.
Instance folding : CaseFolding := fmap ascii_lower.
Instance words : WordChars := λ c, is_alnum c || (c =? UNDERSCORE).

(** A draw is as many characters as its number, so no two are equal. *)
Instance uuids : UuidSupply := λ n, repeat 48 (S n).

Lemma uuids_inj : Inj (=) (=) uuid4.
Proof. intros m n Heq. apply (f_equal length) in Heq. rewrite !repeat_length in Heq. lia. Qed.

(** The tables and the package [OriginalUrl] stands on: ASCII only. *)
Instance compatibility : Nfkc := λ s, s.
Instance idna_package : Idna := λ _, None.
Instance url_rules : UrlRules := OriginalUrl_rules.

Definition generator_settings := MkBase64UrlCodeGenerator 6 6 10 (lit "pepper").
Instance generator : CodeGenerator := base64_generate generator_settings.
Instance calculator : HashCalculator := sha256_calculate.

Definition cache_settings := MkCacheSettings (lit "maiz") 3600 60.
Abbreviation Cache := (InMemoryLinkCache unit).
Instance cache : ServiceCache Cache unit := InMemory_ServiceCache cache_settings.
Instance cache_laws : CacheLaws Cache unit := InMemory_laws cache_settings.

Definition link_settings : LinkSettings := {|
  base_url := lit "https://maiz.link/";
  url_settings := MkUrlSettings [lit "http"; lit "https"] 2048 false;
  guest_link_limit := 2;
  guest_link_window_days := 30;
  default_guest_ttl_seconds := 7 * 24 * 3600;
  max_ttl_seconds := 10 * 365 * 24 * 3600;
  max_collision_attempts := 5;
  record_visits := true;
|}.

Definition start : Z := 1700000000 * SECOND.
Definition empty_cache : Cache := MkInMemoryLinkCache ∅ ∅ None ∅.
Definition world (d : Database) : World Cache :=
  MkWorld d None empty_cache start 10 [] [] None.

Definition guest : RequestContext :=
  MkRequestContext (lit "req-1") (Some (lit "203.0.113.5")) (Some (lit "curl/8.0")) None.
Definition url : pystr := lit "https://example.org/a/long/path".
End Demo.
