(* ===== verification/LinkTheorems.v ===== *)
(** * What the link use cases guarantee

    The invariant of a world between requests ([Inv]): no unit of work open,
    the constraints of the links' tables hold, and no cache level answers a
    destination the table would not.  Every use case keeps it; under it the
    redirect through two cache levels answers exactly what one query of the
    table would ([resolve]).  The theorems are proved against [CacheLaws] and
    [QueueLaws], so they hold of every cache and queue that keeps them; both
    queues of the program are shown to. *)

From S2P Require Import Prelude PyStr Exceptions ValueObjects Entities Policies CodeGen Cache.
From S2P Require Import MemoryCache Database LinkRepo UserRepo Visitor Links Demo.

(** ** The constraints of the tables *)

Definition links_ok (d : Database) : Prop :=
  table_ok (urls d) ∧
  (∀ l, l ∈ urls d → owner_exists l (users d) = true ∧
                     code_matches (sc_value (link_short_code l)) = true) ∧
  (∀ v, v ∈ link_visits d → lv_link_id v ∈ (link_id <$> urls d)).

Lemma save_link_ok l d l' d' :
  links_ok d → code_matches (sc_value (link_short_code l)) = true →
  save_link l d = Ok (l', d') → links_ok d' ∧ l' = l ∧ users d' = users d.
Proof.
  intros (Ht & Ho & Hv) Hm. rewrite /save_link. intros (t & Hs & Hd)%result_bind_ok.
  destruct (owner_exists l (users d)) eqn:Hown; [|done]. injection Hd as <- <-.
  split; [|done]. split; [by eapply save_ok|]. simpl.
  rewrite /save in Hs. case_decide; [done|]. case_decide as Hid; injection Hs as <-.
  - split.
    + intros r (x & Hx & ->)%elem_of_update_where. case_decide; [done|by apply Ho].
    + intros v (r & Heq & Hr)%Hv%list_elem_of_fmap. apply list_elem_of_fmap.
      exists (if decide (same_id (link_id l) r) then l else r).
      split; [by case_decide as Hd; [rewrite Heq Hd|]|]. apply elem_of_update_where. by exists r.
  - split; [|by intros v Hin%Hv; rewrite fmap_app; apply elem_of_app; left].
    intros r [Hr|Hr]%elem_of_app; [by apply Ho|]. by apply list_elem_of_singleton in Hr as ->.
Qed.

(** A new id inserts. *)
Lemma save_link_new l d l' d' :
  (∀ r, r ∈ urls d → link_id r ≠ link_id l) → save_link l d = Ok (l', d') →
  d' = set_urls (urls d ++ [l]) d ∧ owner_exists l (users d) = true.
Proof.
  intros Hnew. rewrite /save_link. intros (t & Hs & Hd)%result_bind_ok.
  destruct (owner_exists l (users d)) eqn:Hown; [|done]. injection Hd as <- <-.
  rewrite /save in Hs. case_decide; [done|]. case_decide as Hid; injection Hs as <-; [|done].
  apply Exists_elem in Hid as (r & Hr & Heq). by destruct (Hnew r).
Qed.

Lemma cascade_ok (Q : Link → Prop) `{∀ l, Decision (Q l)} d :
  links_ok d → links_ok (cascade_visits (set_urls (delete_where Q (urls d)) d)).
Proof.
  intros (Ht & Ho & Hv). split; [by apply delete_where_ok|]. simpl. split.
  - intros l [Hl _]%elem_of_delete_where. by apply Ho.
  - intros v [Hin _]%list_elem_of_filter. done.
Qed.

(** Rewriting columns no key, owner or destination reads. *)
Lemma update_clicks_ok now c d :
  links_ok d → links_ok (set_urls (update_where (same_code c) (link_increment_clicks now) (urls d)) d).
Proof.
  intros ([Hi Hc] & Ho & Hv). split; [by apply (increment_keys now c (urls d))|]. simpl. split.
  - intros l (r & Hr & ->)%elem_of_update_where. case_decide; exact (Ho r Hr).
  - intros v Hin. rewrite update_where_key //. by apply Hv.
Qed.

Lemma add_visit_ok v d :
  links_ok d → lv_link_id v ∈ (link_id <$> urls d) → links_ok (add_visit v d).
Proof.
  intros (Ht & Ho & Hv) Hin. split; [done|]. split; [done|]. simpl.
  intros x [Hx|Hx]%elem_of_app; [by apply Hv|]. by apply list_elem_of_singleton in Hx as ->.
Qed.

(** ** Coherence of a cache with a table *)

Section coherence.
Context {C Stats : Type} `{CacheLaws C Stats}.
Implicit Types (c : C) (t : list Link) (k : ShortCode) (mine : ShortCode → Prop).

(** What either level would redirect a code to. *)
Definition answers c k (e : CachedRedirect) : Prop :=
  redirect_entry c k = Some e ∨ ∃ l, code_entry c k = Some l ∧ redirect_of l = e.

(** For the codes of [mine], what the cache would answer is what a row says.
    [mine] is the set of codes no other process deletes: an invalidation
    reaches the cache of the process that performs it and no other. *)
Definition coherent (mine : ShortCode → Prop) c t : Prop :=
  ∀ k e, mine k → answers c k e → ∃ r, r ∈ t ∧ link_short_code r = k ∧ redirect_of r = e.

Definition shrinks c c' : Prop :=
  (∀ k, no_new (code_entry c k) (code_entry c' k)) ∧
  (∀ k, no_new (redirect_entry c k) (redirect_entry c' k)).

Lemma shrinks_refl c : shrinks c c.
Proof. split; by left. Qed.

Lemma shrinks_trans c1 c2 c3 : shrinks c1 c2 → shrinks c2 c3 → shrinks c1 c3.
Proof.
  rewrite /shrinks /no_new. intros [H1 H2] [H3 H4]. split; intros k.
  - destruct (H1 k), (H3 k); intuition congruence.
  - destruct (H2 k), (H4 k); intuition congruence.
Qed.

Lemma shrinks_answers c c' k e : shrinks c c' → answers c' k e → answers c k e.
Proof.
  rewrite /answers /no_new. intros [H1 H2] [Hr|(l & Hl & Heq)].
  - left. destruct (H2 k); congruence.
  - right. exists l. split; [|done]. destruct (H1 k); congruence.
Qed.

Lemma coherent_shrinks mine c c' t : shrinks c c' → coherent mine c t → coherent mine c' t.
Proof. intros Hs Hc k e Hk Ha. eapply Hc; [done|by eapply shrinks_answers]. Qed.

(** Rows may come, and may be rewritten, while their codes keep their
    destinations. *)
Definition keeps_rows mine t t' : Prop :=
  ∀ r, r ∈ t → mine (link_short_code r) →
    ∃ r', r' ∈ t' ∧ link_short_code r' = link_short_code r ∧ redirect_of r' = redirect_of r.

Lemma coherent_keeps mine c t t' : keeps_rows mine t t' → coherent mine c t → coherent mine c t'.
Proof.
  intros Hk Hc k e Hm Ha. destruct (Hc k e Hm Ha) as (r & Hr & <- & <-).
  destruct (Hk r Hr Hm) as (r' & ? & ? & ?). by exists r'.
Qed.

Lemma coherent_grow mine c t t' : (∀ r, r ∈ t → r ∈ t') → coherent mine c t → coherent mine c t'.
Proof. intros Hsub. apply coherent_keeps. intros r Hr _. exists r. auto. Qed.

(** Rewriting rows without moving a code or a destination. *)
Lemma coherent_map (f : Link → Link) mine c t :
  (∀ l, link_short_code (f l) = link_short_code l ∧ redirect_of (f l) = redirect_of l) →
  coherent mine c t → coherent mine c (f <$> t).
Proof.
  intros Hf. apply coherent_keeps. intros r Hr _. exists (f r).
  split; [apply list_elem_of_fmap; eauto|by destruct (Hf r) as [-> ->]].
Qed.

Lemma coherent_save mine now l c t :
  l ∈ t → coherent mine c t → coherent mine (cache_save now l c) t.
Proof.
  intros Hl Hc k e Hm Ha. destruct (save_spec now l c _ eq_refl) as (Hcode & Hred & Hc' & Hr').
  destruct (decide (k = link_short_code l)) as [->|Hk].
  - exists l. split; [done|]. split; [done|]. rewrite /no_new in Hcode, Hred.
    destruct Ha as [Ha|(x & Hx & <-)]; intuition congruence.
  - apply Hc; [done|]. rewrite /answers in Ha |- *. by rewrite -Hc' // -Hr' //.
Qed.

Lemma coherent_save_redirect mine now k url exp c t :
  (mine k → ∃ r, r ∈ t ∧ link_short_code r = k ∧
                 redirect_of r = MkCachedRedirect (sc_value k) url exp) →
  coherent mine c t → coherent mine (save_redirect now k url exp c) t.
Proof.
  intros Hrow Hc k' e Hm Ha.
  destruct (save_redirect_spec now k url exp c _ eq_refl) as (Hnew & Hred & Hcode).
  destruct Ha as [Ha|(x & Hx & <-)].
  - destruct (decide (k' = k)) as [->|Hk].
    + apply Hnew in Ha as [->|Ha]; [by apply Hrow|apply Hc; [done|by left]].
    + apply Hc; [done|]. left. by rewrite -Hred.
  - apply Hc; [done|]. right. exists x. by rewrite -Hcode.
Qed.

(** Nothing is cached under [k]. *)
Definition forgotten c k : Prop := code_entry c k = None ∧ redirect_entry c k = None.

Lemma forgotten_shrinks c c' k : shrinks c c' → forgotten c k → forgotten c' k.
Proof.
  rewrite /shrinks /forgotten /no_new. intros [H1 H2] [H3 H4].
  destruct (H1 k), (H2 k); intuition congruence.
Qed.

Lemma forgotten_answers c k e : forgotten c k → ¬ answers c k e.
Proof. intros [H1 H2] [Hr|(l & Hl & _)]; congruence. Qed.

(** Rows may leave the table once their codes are forgotten. *)
Lemma coherent_forget mine c t t' :
  (∀ r, r ∈ t → r ∈ t' ∨ forgotten c (link_short_code r)) → coherent mine c t → coherent mine c t'.
Proof.
  intros Hsub Hc k e Hm Ha. destruct (Hc k e Hm Ha) as (r & Hr & <- & Hd). exists r.
  destruct (Hsub r Hr) as [?|Hf]; [done|]. by destruct (forgotten_answers _ _ _ Hf Ha).
Qed.

Lemma delete_forgets l c :
  shrinks c (cache_delete l c) ∧ forgotten (cache_delete l c) (link_short_code l).
Proof. by destruct (delete_spec l c _ eq_refl) as (? & ? & _ & ? & ?). Qed.

Lemma delete_by_code_forgets k c :
  shrinks c (delete_by_code k c) ∧ forgotten (delete_by_code k c) k.
Proof. by destruct (delete_by_code_spec k c _ eq_refl) as (? & ? & ? & ?). Qed.

Lemma delete_redirect_shrinks k c : shrinks c (delete_redirect k c).
Proof. by destruct (delete_redirect_spec k c _ eq_refl) as (_ & ? & ?). Qed.

Lemma delete_stats_shrinks c : shrinks c (delete_stats c).
Proof.
  destruct (delete_stats_spec c _ eq_refl) as (H1 & H2).
  split; intros k; left; [by rewrite H1|by rewrite H2].
Qed.
End coherence.

(** ** Between requests *)

Section guarantees.
Context {C Stats : Type} `{CacheLaws C Stats} `{UrlRules} `{CodeGenerator}
        `{HashCalculator} `{CaseFolding} `{WordChars} `{UuidSupply}.
Context (cfg : LinkSettings).
Implicit Types (w : World C) (c : C).

(** No draw still to come names a row. *)
Definition uuids_fresh (d : Database) (n : nat) : Prop :=
  ∀ m l, (n <= m)%nat → l ∈ urls d → link_id l ≠ uuid4 m.

Lemma uuids_fresh_later d n n' : (n <= n')%nat → uuids_fresh d n → uuids_fresh d n'.
Proof. intros Hle Hf m l Hm. apply Hf. lia. Qed.

Lemma uuids_fresh_ids d d' n :
  (∀ l, l ∈ urls d' → ∃ r, r ∈ urls d ∧ link_id l = link_id r) →
  uuids_fresh d n → uuids_fresh d' n.
Proof. intros Hids Hf m l Hm (r & Hr & ->)%Hids. by apply Hf. Qed.

Record InvFor (mine : ShortCode → Prop) w : Prop := MkInv {
  inv_txn : w_txn w = None;
  inv_links : links_ok (w_db w);
  inv_cache : coherent mine (w_cache w) (urls (w_db w));
  inv_fresh : uuids_fresh (w_db w) (w_uuids w);
}.
#[local] Arguments inv_txn {_ _} _.
#[local] Arguments inv_links {_ _} _.

(** A queue answers nothing, keeps the invariant and does not take time. *)
Class QueueLaws `{TaskQueue C} : Prop :=
  enqueue_spec mine code ctx w : InvFor mine w →
    wp (enqueue_link_accessed code ctx)
      (λ r w', r = Ok tt ∧ InvFor mine w' ∧ w_now w' = w_now w) w.

Section reading.
Context {mine : ShortCode → Prop}.
Abbreviation Inv := (InvFor mine).

(** The invariant reads four fields only. *)
Lemma Inv_frame w w' :
  w_txn w' = w_txn w → w_db w' = w_db w → w_cache w' = w_cache w → w_uuids w' = w_uuids w →
  Inv w → Inv w'.
Proof. intros Ht Hd Hc Hu [Hi Hl Hk Hf]. constructor; by rewrite ?Ht ?Hd ?Hc ?Hu. Qed.

Lemma Inv_shrinks w c : Inv w → shrinks (w_cache w) c → Inv (set_cache c w).
Proof. intros [Hi Hl Hk Hf] Hs. constructor; [done..| |done]. by eapply coherent_shrinks. Qed.

(** A redirect decided by the table alone. *)
Definition resolve (now : Z) (short_code_str : pystr) (d : Database) : result exn pystr :=
  code_to_look_up short_code_str ≫= λ short_code,
  match find_by_code short_code (urls d) with
  | None => Err (LinkNotFoundError (Some short_code_str))
  | Some l => if is_expired now l then Err (LinkExpiredError (sc_value short_code))
              else Ok (ou_value (link_original_url l))
  end.

Lemma answers_resolve w k e : Inv w → mine k → answers (w_cache w) k e →
  ∃ l, find_by_code k (urls (w_db w)) = Some l ∧ redirect_of l = e.
Proof.
  intros [_ (Ht & _) Hc _] Hm Ha. destruct (Hc k e Hm Ha) as (r & Hr & <- & <-).
  exists r. split; [|done]. by apply find_by_code_in.
Qed.

Section redirect.
Context `{!TaskQueue C} `{!QueueLaws}.

Lemma answer_spec code url ctx w : Inv w →
  wp (answer code url ctx) (λ r w', r = Ok url ∧ Inv w' ∧ w_now w' = w_now w) w.
Proof.
  intros Hw. rewrite /answer. wp_step. eapply wp_mono; [by apply enqueue_spec|].
  intros r w' (-> & Hw' & Hn). wp_steps. split; [done|]. split; [|done].
  by apply (Inv_frame w').
Qed.

Lemma redirect_from_db_spec s k w : Inv w → code_to_look_up s = Ok k →
  wp (redirect_from_db s k)
    (λ r w', r = resolve (w_now w) s (w_db w) ∧ Inv w' ∧ w_now w' = w_now w) w.
Proof.
  intros Hw Hk. rewrite /redirect_from_db /resolve Hk /=. wp_steps. simpl.
  destruct (find_by_code k (urls (w_db w))) as [l|] eqn:Hl.
  - destruct (is_expired (w_now w) l); wp_steps.
    + split; [done|]. split; [|done]. by apply (Inv_frame w).
    + split; [done|]. split; [|done].
      apply find_by_code_Some in Hl as [Hl _]. destruct Hw as [Hx Hok Hc Hf].
      constructor; [done..| |done]. simpl. by apply coherent_save.
  - wp_steps. split; [done|]. split; [|done]. by apply (Inv_frame w).
Qed.

(** A code, if it is one, that no other process deletes. *)
Definition reads_mine (s : pystr) : Prop := ∀ k, code_to_look_up s = Ok k → mine k.

Lemma redirect_link_spec s ctx w : Inv w →
  wp (redirect_link s ctx)
    (λ r w', (reads_mine s → r = resolve (w_now w) s (w_db w)) ∧ Inv w' ∧ w_now w' = w_now w) w.
Proof.
  intros Hw. rewrite /redirect_link. wp_steps.
  destruct (code_to_look_up s) as [k|e] eqn:Hk; last by rewrite /resolve Hk.
  assert (reads_mine s → mine k) as Hmine by (intros Hm; by apply Hm).
  wp_steps. apply wp_with_cache. intros r c Hr.
  destruct (get_redirect_spec (w_now w) k (w_cache w) _ _ Hr) as (Hhit & Hs).
  destruct r as [e|].
  - destruct (Hhit e eq_refl) as (He & _ & Hx). rewrite Hx.
    eapply wp_mono; [apply answer_spec; by apply Inv_shrinks|].
    intros r w' (-> & Hw' & Hn). split; [|done]. intros Hm%Hmine.
    destruct (answers_resolve w k e) as (l & Hl & <-); [done|done|by left|].
    by rewrite /resolve Hk /= Hl (_ : is_expired _ l = false).
  - clear Hhit. pose proof (Inv_shrinks w c Hw Hs) as Hw1.
    wp_step. apply wp_with_cache. simpl. intros r c' Hr'.
    destruct (get_by_code_spec (w_now w) k c _ _ Hr') as (Hhit & Hs').
    pose proof (Inv_shrinks _ c' Hw1 Hs') as Hw2. destruct r as [l|].
    + assert (code_entry c k = Some l) as Hcl by (rewrite /no_new in Hhit; naive_solver).
      assert (mine k → ∃ r, find_by_code k (urls (w_db w)) = Some r ∧ redirect_of r = redirect_of l)
        as Hrow by (intros Hm; apply (answers_resolve _ k _ Hw1 Hm); right; by exists l).
      assert (reads_mine s → resolve (w_now w) s (w_db w) =
        if is_expired (w_now w) l then Err (LinkExpiredError (sc_value k))
        else Ok (ou_value (link_original_url l))) as Hres.
      { intros (r & Hrf & Heq)%Hmine%Hrow. injection Heq as _ Hu He.
        by rewrite /resolve Hk /= Hrf /is_expired He Hu. }
      destruct (is_expired (w_now w) l); [wp_steps; split; [by intros ->%Hres|done]|]. wp_steps.
      eapply wp_mono; [apply answer_spec|intros r' w' (-> & ? & ?); split; [by intros ->%Hres|done]].
      destruct Hw2 as [Hi Hok Hc Hf]. constructor; [done..| |done]. simpl.
      apply coherent_save_redirect; [|done]. intros (r & Hrf & Heq)%Hrow.
      apply find_by_code_Some in Hrf as [Hin <-]. exists r. split_and!; [done..|].
      injection Heq as _ Hu He. by rewrite /redirect_of Hu He.
    + wp_step. eapply wp_mono; [by apply redirect_from_db_spec|]. cbn.
      intros r w' (-> & Hw' & Hn). destruct (resolve _ _ _) as [url|e].
      * eapply wp_mono; [by apply answer_spec|]. cbn. intros r w'' (-> & ? & ?).
        split; [done|]. split; [done|congruence].
      * done.
Qed.
End redirect.

(** ** The click counter and the queues *)

Lemma increment_redirect now l :
  link_short_code (link_increment_clicks now l) = link_short_code l ∧
  redirect_of (link_increment_clicks now l) = redirect_of l.
Proof. done. Qed.

Lemma update_where_none {A} (Q : A → Prop) `{∀ x, Decision (Q x)} (f : A → A) t :
  count_where Q t = 0%nat → update_where Q f t = t.
Proof.
  intros Hz. rewrite /update_where -{2}(list_fmap_id t). apply list_fmap_ext.
  intros i x Hx. rewrite decide_False //. eapply count_where_zero; [done|].
  by eapply list_elem_of_lookup_2.
Qed.

(** The table after a click on a code: the row's counter, if there is one. *)
Definition clicked (now : Z) (short_code_str : pystr) (t : list Link) : list Link :=
  match new_ShortCode short_code_str with
  | Ok k => update_where (same_code k) (link_increment_clicks now) t
  | Err _ => t
  end.

Lemma coherent_clicked now k c t :
  coherent mine c t → coherent mine c (update_where (same_code k) (link_increment_clicks now) t).
Proof. apply coherent_map. intros l. by case_decide. Qed.

Lemma update_link_stats_spec s ctx w : Inv w →
  wp (update_link_stats cfg s ctx)
    (λ r w', r = Ok tt ∧ Inv w' ∧ w_now w' = w_now w ∧
             urls (w_db w') = clicked (w_now w) s (urls (w_db w))) w.
Proof.
  intros Hw. rewrite /update_link_stats /clicked.
  destruct (new_ShortCode s) as [k|e]; wp_steps; [|done].
  rewrite /count_click /increment_clicks /=. case_decide as Hz.
  - destruct Hw as [Hi Hok Hc Hf]. wp_steps. split; [done|].
    split; [|by rewrite update_where_none]. constructor; [done..| |done]. simpl.
    eapply coherent_shrinks; [|done]. eapply shrinks_trans; [apply delete_redirect_shrinks|].
    apply delete_by_code_forgets.
  - destruct Hw as [Hi Hok Hc Hf]. apply (update_clicks_ok (w_now w) k) in Hok as Hok'.
    apply (coherent_clicked (w_now w) k) in Hc. set (t := update_where _ _ _) in *.
    assert (uuids_fresh (set_urls t (w_db w)) (w_uuids w)) as Hf'.
    { eapply uuids_fresh_ids; [|done]. intros l (r & Hr & ->)%elem_of_update_where.
      exists r. split; [done|]. by case_decide. }
    wp_step. destruct (record_visits cfg); wp_steps; [|by constructor].
    rewrite /record_visit. wp_steps. cbn [tx_work urls set_urls].
    destruct (find_by_code k t) as [l|] eqn:Hl; wp_steps; [|by split_and!; try constructor].
    split; [done|]. split; [|done]. constructor; [done| |done|]; last first.
    { eapply uuids_fresh_later; [|exact Hf']. simpl. lia. }
    simpl.
    apply find_by_code_Some in Hl as [Hl _].
    apply (add_visit_ok _ (set_urls _ (w_db w))); [done|]. rewrite /record.
    destruct (classify_client _) as [[dv br] bot]. simpl. apply list_elem_of_fmap. by exists l.
Qed.

End reading.

#[local] Instance Null_TaskQueue : TaskQueue C := null_enqueue cfg.

Lemma null_queue_laws : QueueLaws.
Proof.
  intros mine code ctx w Hw. rewrite /enqueue_link_accessed /Null_TaskQueue /null_enqueue. wp_step.
  eapply wp_mono; [by apply (update_link_stats_spec (mine:=mine))|]. by intros r w' (-> & ? & ? & _).
Qed.

Lemma claim_attempt_spec ri w :
  wp (claim_attempt ri) (λ r w', ∃ b, r = Ok b ∧ (w' = w ∨ w' = set_failed_at (Some (w_now w)) w)) w.
Proof.
  rewrite /claim_attempt. wp_steps. destruct (w_failed_at w); [case_match|]; wp_steps; eauto.
Qed.

Lemma celery_queue_laws delay ri :
  @QueueLaws (celery_enqueue delay ri).
Proof.
  intros mine code ctx w Hw. rewrite /enqueue_link_accessed /celery_enqueue. wp_step.
  eapply wp_mono; [apply claim_attempt_spec|]. intros r w' (b & -> & Hw').
  assert (InvFor mine w' ∧ w_now w' = w_now w) as [Hi Hn].
  { destruct Hw' as [->| ->]; split; [done..| |done]. by apply (Inv_frame w). }
  destruct b; cbn [negb]; [|by wp_steps]. wp_steps.
  case_match; wp_steps; (split; [done|]; split; [by apply (Inv_frame w')|done]).
Qed.

Section changes.
Context {mine : ShortCode → Prop}.
Abbreviation Inv := (InvFor mine).

(** ** Deletion *)

Lemma drop_cached_spec k l w :
  (∀ x, l = Some x → link_short_code x = k) →
  wp (drop_cached k l)
    (λ r w', r = Ok tt ∧ ∃ c, w' = set_cache c w ∧ shrinks (w_cache w) c ∧ forgotten c k) w.
Proof.
  intros Hl. rewrite /drop_cached.
  assert (∀ c0, shrinks (w_cache w) c0 → forgotten c0 k →
    wp (on_cache (delete_redirect k);; on_cache delete_stats)
      (λ r w', r = Ok tt ∧ ∃ c, w' = set_cache c w ∧ shrinks (w_cache w) c ∧ forgotten c k)
      (set_cache c0 w)) as Hrest.
  { intros c0 Hs Hf. wp_steps. simpl. split; [done|]. eexists. split; [reflexivity|].
    assert (shrinks c0 (delete_stats (delete_redirect k c0))) as Hs'
      by (eapply shrinks_trans; [apply delete_redirect_shrinks|apply delete_stats_shrinks]).
    split; [by eapply shrinks_trans|by eapply forgotten_shrinks]. }
  apply wp_try. wp_step. destruct l as [x|]; wp_step.
  - rewrite -(Hl x) // in Hrest |- *. eapply wp_mono; [by apply Hrest; apply delete_forgets|].
    by intros r w' [-> ?].
  - eapply wp_mono; [by apply Hrest; apply delete_by_code_forgets|]. by intros r w' [-> ?].
Qed.

(** Who may delete a link when ownership is enforced. *)
Definition may_delete (d : Database) (context : RequestContext) (l : Link) : Prop :=
  ∃ cu u, current_user context = Some cu ∧ find_user_by_id (cu_id cu) d = Ok (Some u) ∧
          is_allowed d (Some u) (permission_to_delete l u) = true.

Lemma require_may_delete_spec l ctx w : w_txn w = Some (MkTxn (w_db w) false) →
  wp (require_may_delete l ctx) 
    (λ r w', w' = w ∧ match r with
                      | Ok _ => may_delete (w_db w) ctx l
                      | Err e => ∀ x, e ≠ LinkNotFoundError x
                      end) w.
Proof.
  intros Ht. rewrite /require_may_delete /load_requester. wp_step.
  destruct (current_user ctx) as [cu|] eqn:Hcu; wp_steps; [|done].
  eapply wp_read; [exact Ht|]. wp_steps. cbn [tx_work].
  destruct (find_user_by_id (cu_id cu) (w_db w)) as [[u|]|e] eqn:Hu; wp_steps; [|done|].
  - destruct (is_allowed (w_db w) (Some u) _) eqn:Ha; wp_steps; [|done]. split; [done|].
    by exists cu, u.
  - split; [done|]. apply load_user_error in Hu. by intros x ->.
Qed.

(** What a deletion leaves behind, for each answer. *)
Definition deletion (k : ShortCode) (ctx : RequestContext) (enforce : bool)
    (authorized : option pystr) w (r : result exn bool) w' : Prop :=
  match r with
  | Ok true => ∃ l, find_by_code k (urls (w_db w)) = Some l ∧
      w_db w' = (delete_link_row (link_id l) (w_db w)).2 ∧ forgotten (w_cache w') k ∧
      (enforce = true → authorized = Some (link_id l) ∨ may_delete (w_db w) ctx l)
  | Ok false => w_db w' = w_db w ∧ find_by_code k (urls (w_db w)) = None ∧
      forgotten (w_cache w') k
  | Err _ => w_db w' = w_db w
  end.

Lemma delete_row_inv l w c : Inv w → l ∈ urls (w_db w) →
  shrinks (w_cache w) c → forgotten c (link_short_code l) →
  Inv (set_cache c (set_db (delete_link_row (link_id l) (w_db w)).2 w)).
Proof.
  intros [Hi Hok Hc Hu] Hl Hs Hf. constructor; [done|by apply cascade_ok| |]; last first.
  { eapply uuids_fresh_ids; [|done]. intros r [Hr _]%elem_of_delete_where. by exists r. }
  simpl.
  eapply coherent_forget; [|by eapply coherent_shrinks]. intros r Hr.
  destruct (decide (r = l)) as [->|Hne]; [by right|left].
  apply elem_of_delete_where. split; [done|]. intros Heq. apply Hne.
  by apply (key_eq link_id (urls (w_db w))); [apply Hok|..].
Qed.

Lemma delete_link_body_spec k ctx enf auth w : Inv w →
  wp (with_uow (delete_link_body k ctx enf auth))
    (λ r w', deletion k ctx enf auth w r w' ∧ Inv w' ∧ w_now w' = w_now w ∧
             (∀ x, r ≠ Err (LinkNotFoundError x))) w.
Proof.
  intros Hw. rewrite /delete_link_body. wp_steps. cbn [tx_work].
  destruct (find_by_code k (urls (w_db w))) as [l|] eqn:Hl; wp_steps.
  - apply find_by_code_Some in Hl as Hin. destruct Hin as [Hin Hk].
    set (w1 := set_txn _ w).
    assert (wp (if enf && negb (bool_decide (Some (link_id l) = auth))
                then require_may_delete l ctx else mret tt)
      (λ r w', w' = w1 ∧ match r with
         | Ok _ => enf = true → auth = Some (link_id l) ∨ may_delete (w_db w) ctx l
         | Err e => ∀ x, e ≠ LinkNotFoundError x end) w1) as Hguard.
    { destruct (enf && _) eqn:Hg.
      - eapply wp_mono; [by apply require_may_delete_spec|]. intros [[]|e] w' [-> Hr]; auto.
      - wp_steps. split; [done|]. intros ->. left. simpl in Hg. by reflect_bools. }
    eapply wp_mono; [exact Hguard|]. clear Hguard. intros [[]|e] w' [-> Hr]; last first.
    { split_and!; [done|by apply (Inv_frame w)|done|]. intros x [= ->]. by apply (Hr x). }
    wp_steps. rewrite /= bool_decide_eq_false_2.
    + cbn [negb]. wp_steps. eapply wp_mono; [apply drop_cached_spec; by intros x [= <-]|].
      intros r w' (-> & c & -> & Hs & Hf). wp_steps. split_and!; try done; [by exists l|].
      apply (Inv_frame (set_cache c (set_db (delete_link_row (link_id l) (w_db w)).2 w)));
        [done..|]. apply delete_row_inv; [done..|by rewrite Hk].
    + intros Hz. by apply (proj1 (count_where_zero _ (urls (w_db w))) Hz l).
  - eapply wp_mono; [by apply drop_cached_spec|].
    intros r w' (-> & c & -> & Hs & Hf). wp_steps. split_and!; try done.
    by apply (Inv_frame (set_cache c w)); [..|apply Inv_shrinks].
Qed.

Lemma delete_link_spec s ctx enf auth w : Inv w →
  wp (delete_link s ctx enf auth)
    (λ r w', Inv w' ∧ w_now w' = w_now w ∧
       match code_to_look_up s with
       | Ok k => deletion k ctx enf auth w r w'
       | Err _ => r = Ok false ∧ w' = w
       end) w.
Proof.
  intros Hw. rewrite /delete_link. wp_step. wp_step. wp_step.
  destruct (code_to_look_up s) as [k|e] eqn:Hk.
  - eapply wp_mono; [by apply delete_link_body_spec|].
    intros [b|e] w' (Hd & Hi & Hn & Hne); [done|]. destruct e; try by wp_steps.
    by destruct (Hne short_code).
  - rewrite /code_to_look_up in Hk. destruct (new_ShortCode s); [done|].
    injection Hk as <-. by wp_steps.
Qed.

(** ** The sweep *)

Lemma forget_all ls w :
  wp (for_each (λ l, on_cache (cache_delete l)) ls)
    (λ r w', r = Ok tt ∧ ∃ c, w' = set_cache c w ∧ shrinks (w_cache w) c ∧
             ∀ l, l ∈ ls → forgotten c (link_short_code l)) w.
Proof.
  apply (wp_for_each (λ done w', ∃ c, w' = set_cache c w ∧ shrinks (w_cache w) c ∧
             ∀ l, l ∈ done → forgotten c (link_short_code l))).
  - intros ds x w' (c & -> & Hs & Hf). wp_steps. split; [done|].
    destruct (delete_forgets x c) as [Hs' Hx]. eexists. split; [reflexivity|]. simpl.
    split; [by eapply shrinks_trans|]. intros l [Hl|Hl]%elem_of_app.
    + eapply forgotten_shrinks; [done|by apply Hf].
    + by apply list_elem_of_singleton in Hl as ->.
  - exists (w_cache w). split; [by destruct w|]. split; [apply shrinks_refl|set_solver].
  - eauto.
Qed.

Lemma clean_expired_links_spec w : Inv w →
  wp clean_expired_links
    (λ r w', r = Ok (count_where (expired_at (w_now w)) (urls (w_db w))) ∧ Inv w' ∧
       w_now w' = w_now w ∧
       urls (w_db w') = delete_where (expired_at (w_now w)) (urls (w_db w)) ∧
       ∀ l, l ∈ urls (w_db w) → is_expired (w_now w) l = true →
            forgotten (w_cache w') (link_short_code l)) w.
Proof.
  intros Hw. destruct Hw as [Hi Hok Hc Hu]. rewrite /clean_expired_links. wp_steps.
  cbn [tx_work]. rewrite /delete_expired sweep_spec; [|apply Hok]. wp_steps.
  set (del := filter (expired_at (w_now w)) (urls (w_db w))).
  eapply wp_mono; [apply forget_all|]. intros r w' (-> & c & -> & Hs & Hf).
  set (d := cascade_visits _) in *.
  assert (Inv (set_cache c (set_db d w))) as Hinv.
  { constructor; [done|by apply cascade_ok| |]; last first.
    { eapply uuids_fresh_ids; [|done]. intros r [Hr _]%elem_of_delete_where. by exists r. }
    simpl. eapply coherent_forget; [|by eapply coherent_shrinks]. intros l Hl.
    destruct (decide (expired_at (w_now w) l)) as [Hx|Hx].
    - right. apply Hf. by apply list_elem_of_filter.
    - left. by apply elem_of_delete_where. }
  assert (∀ l, l ∈ urls (w_db w) → is_expired (w_now w) l = true →
    forgotten c (link_short_code l)) as Hforg.
  { intros l Hl Hx. apply Hf, list_elem_of_filter. split; [by apply expired_at_spec|done]. }
  rewrite /count_where -/del. destruct del as [|x del']; wp_steps.
  - split_and!; done.
  - split_and!; try done.
    + apply (Inv_frame (set_cache (delete_stats c) (set_db d w))); [done..|].
      by apply (Inv_shrinks (set_cache c (set_db d w))), delete_stats_shrinks.
    + intros l Hl Hx. eapply forgotten_shrinks; [apply delete_stats_shrinks|by apply Hforg].
Qed.

(** ** Creation *)

(** Inside the unit of work of a creation, before its commit. *)
Record Inside (d : Database) (now : Z) w : Prop := MkInside {
  in_txn : w_txn w = Some (MkTxn d false);
  in_db : w_db w = d;
  in_now : w_now w = now;
  in_cache : coherent mine (w_cache w) (urls d);
}.

Lemma Inside_cache d now w c :
  Inside d now w → coherent mine c (urls d) → Inside d now (set_cache c w).
Proof. by intros [? ? ? ?] ?. Qed.

Lemma Inside_uuids d now w n : Inside d now w → Inside d now (set_uuids n w).
Proof. by intros [? ? ? ?]. Qed.

Lemma confirm_spec cl h sc d now w : Inside d now w → scope_wf sc →
  wp (confirm cl h sc) (λ r w', w' = w ∧ ∃ o, r = Ok o ∧
    ∀ l, o = Some l → l ∈ urls d ∧ dedup_candidate now h sc l) w.
Proof.
  intros [Ht Hd Hn Hc] Hwf. rewrite /confirm. wp_steps. eapply wp_read; [exact Ht|].
  wp_steps. cbn [tx_work]. split; [done|]. eexists. split; [reflexivity|]. intros l.
  destruct (find_by_code _ (urls d)) as [st|] eqn:Hf; [|done].
  apply find_by_code_Some in Hf as [Hin _]. rewrite Hn.
  repeat case_decide; try done. case_match eqn:He; [done|]. intros [= <-].
  split; [done|]. split; [by apply live_not_expired|].
  split; [by apply in_scope_spec|done].
Qed.

(** What the lookups before a creation establish. *)
Definition looked_up (d : Database) (now : Z) (h : UrlHash) (sc : DedupScope)
    (o : option (Link * bool)) : Prop :=
  match o with
  | Some (l, _) => l ∈ urls d ∧ dedup_candidate now h sc l
  | None => ∀ l, l ∈ urls d → ¬ dedup_candidate now h sc l
  end.

Lemma find_existing_spec cl h sc d now w : Inside d now w → scope_wf sc →
  wp (find_existing cl h sc) (λ r w', Inside d now w' ∧ w_uuids w' = w_uuids w ∧
    ∃ o, r = Ok o ∧ looked_up d now h sc o) w.
Proof.
  intros Hw Hwf. rewrite /find_existing. wp_step. wp_step. wp_step.
  assert (∀ w', Inside d now w' → w_uuids w' = w_uuids w →
    wp (found ← read (λ d0, find_live_by_hash (w_now w) h sc (urls d0));
        match found with
        | None => mret None
        | Some l => on_cache (cache_save (w_now w) l);; mret (Some (l, false))
        end)
      (λ r w', Inside d now w' ∧ w_uuids w' = w_uuids w ∧
         ∃ o, r = Ok o ∧ looked_up d now h sc o) w') as Htable.
  { intros w' Hw' Hu. wp_step. eapply wp_read; [apply Hw'|]. rewrite (in_now _ _ _ Hw).
    cbn [tx_work]. destruct (find_live_by_hash now h sc (urls d)) as [l|] eqn:Hl; wp_steps.
    - apply find_live_by_hash_Some in Hl as (Hin & Hcand & _).
      split; [|split; [done|by eexists]]. apply Inside_cache; [done|].
      apply coherent_save; [done|apply Hw'].
    - split; [done|]. split; [done|]. eexists. split; [done|]. exact (proj1 (find_live_by_hash_None now h sc (urls d)) Hl). }
  destruct cl as [cl|]; [|by wp_step; apply Htable].
  wp_step. eapply wp_mono; [by apply confirm_spec|]. intros r w' (-> & o & -> & Ho).
  destruct o as [l|].
  - wp_steps. split; [done|]. split; [done|]. eexists. split; [done|]. by apply Ho.
  - do 3 wp_step. apply Htable; [|done]. apply Inside_cache; [done|].
    eapply coherent_shrinks; [apply delete_forgets|apply Hw].
Qed.

Lemma first_free_spec gen d now : (∀ a w, Inside d now w →
    wp (gen a) (λ r w', Inside d now w' ∧ (w_uuids w <= w_uuids w')%nat ∧
      ∀ k, r = Ok k → code_matches (sc_value k) = true) w) →
  ∀ n a w, Inside d now w →
  wp (first_free gen a n) (λ r w', Inside d now w' ∧ (w_uuids w <= w_uuids w')%nat ∧
    ∀ k, r = Ok (Some k) → find_by_code k (urls d) = None ∧
                           code_matches (sc_value k) = true) w.
Proof.
  intros Hgen n. induction n as [|n IH]; intros a w Hw; cbn [first_free]; wp_step.
  - split_and!; [done|lia|done].
  - eapply wp_mono; [by apply Hgen|]. intros [k|e] w' (Hw' & Hu & Hk); [|done].
    wp_step. eapply wp_read; [apply Hw'|]. cbn [tx_work].
    destruct (find_by_code k (urls d)) eqn:Hf.
    + eapply wp_mono; [by apply IH|]. intros r w'' (? & ? & ?). split_and!; [done|lia|done].
    + wp_steps. split_and!; [done..|]. intros k' [= <-]. auto.
Qed.

Section creation.
Context `{!GeneratorLaws} `{!Inj (=) (=) uuid4}.

Lemma generate_unique_matches u a k :
  generate_unique u a = Ok k → code_matches (sc_value k) = true.
Proof.
  rewrite /generate_unique. intros (b & _ & Hk)%result_bind_ok.
  case_decide; by apply generate_matches in Hk.
Qed.

Lemma generate_fresh_matches x u k :
  generate_fresh x u = Ok k → code_matches (sc_value k) = true.
Proof. intros (b & _ & Hk)%result_bind_ok. by apply generate_matches in Hk. Qed.

Lemma generate_unique_code_spec u d now w : Inside d now w →
  wp (generate_unique_code cfg u) (λ r w', Inside d now w' ∧ (w_uuids w <= w_uuids w')%nat ∧
    ∀ k, r = Ok k → find_by_code k (urls d) = None ∧ code_matches (sc_value k) = true) w.
Proof.
  intros Hw. rewrite /generate_unique_code. wp_step.
  eapply wp_mono; [apply (first_free_spec _ d now)|]; [|done|].
  { intros a w1 Hw1. wp_steps. split_and!; [done..|]. intros k Hk.
    by eapply generate_unique_matches. }
  intros [[k|]|e] w' (Hw' & Hu & Hk); [..|done].
  - wp_steps. split_and!; [done..|]. intros k' [= <-]. by apply Hk.
  - wp_step. eapply wp_mono; [apply (first_free_spec _ d now)|]; [|done|].
    { intros a w1 Hw1. wp_steps. split_and!; [by apply Inside_uuids|simpl; lia|].
      intros k Hk'. by eapply generate_fresh_matches. }
    intros [[k|]|e] w'' (Hw'' & Hu' & Hk'); wp_steps; split_and!; try done; try lia.
    intros k' [= <-]. by apply Hk'.
Qed.

Lemma choose_code_spec u chosen d now w : Inside d now w →
  (∀ k, chosen = Some k → code_matches (sc_value k) = true) →
  wp (choose_code cfg u chosen) (λ r w', Inside d now w' ∧ (w_uuids w <= w_uuids w')%nat ∧
    ∀ k, r = Ok k → find_by_code k (urls d) = None ∧ code_matches (sc_value k) = true ∧
         (∀ k', chosen = Some k' → k = k')) w.
Proof.
  intros Hw Hch. destruct chosen as [k|]; rewrite /choose_code.
  - wp_step. eapply wp_read; [apply Hw|]. cbn [tx_work].
    destruct (find_by_code k (urls d)) eqn:Hf; wp_steps; split_and!; try done.
    intros k' [= <-]. split_and!; [done|by apply Hch|congruence].
  - eapply wp_mono; [by apply generate_unique_code_spec|].
    intros r w' (? & ? & Hk). split_and!; [done..|]. intros k Hr. by apply Hk in Hr as [? ?].
Qed.

(** A guest has fewer links in the window than the limit. *)
Definition within_quota (d : Database) (now : Z) (guest : option pystr) : Prop :=
  ∀ g, guest = Some g →
    count_guest_links_by_identifier now g (guest_link_window_days cfg) (urls d)
      < guest_link_limit cfg.

Lemma check_guest_quota_spec guest d now w : Inside d now w →
  wp (check_guest_quota cfg guest)
    (λ r w', w' = w ∧ (r = Ok tt → within_quota d now guest) ∧
       (∀ e, r = Err e → e = guest_quota_spent (guest_link_limit cfg)
                              (guest_link_window_days cfg) ∧ ¬ within_quota d now guest)) w.
Proof.
  intros Hw. rewrite /check_guest_quota /within_quota. destruct guest as [g|]; [|by wp_steps].
  wp_steps. eapply wp_read; [apply Hw|]. cbn [tx_work]. rewrite (in_now _ _ _ Hw).
  rewrite /guest_allowance /links_left_for_guest.
  case_match eqn:E; wp_steps; split_and!; try done.
  - intros e [= <-]. split; [done|]. intros Hq. specialize (Hq g eq_refl). lia.
  - intros _ g' [= <-]. lia.
Qed.

(** The link a creation stores, and what held when it did. *)
Record Created (d : Database) (now : Z) (u : OriginalUrl) (h : UrlHash) (sc : DedupScope)
    (owner : option OwnerID) (guest : option pystr) (ttl : Z)
    (chosen : option ShortCode) (l : Link) : Prop := MkCreated {
  cr_url : link_original_url l = u;
  cr_hash : link_url_hash l = h;
  cr_owner : link_owner l = owner;
  cr_guest : link_guest_identifier l = guest;
  cr_created : link_created_at l = now;
  cr_unread : link_clicks l = 0 ∧ link_last_accessed l = None;
  cr_expires : link_expires_at l =
    (if 0 <? ttl then Some (now + ttl * SECOND) else None);
  cr_code : find_by_code (link_short_code l) (urls d) = None;
  cr_chosen : ∀ k, chosen = Some k → link_short_code l = k;
  cr_no_duplicate : ∀ r, r ∈ urls d → ¬ dedup_candidate now h sc r;
  cr_quota : within_quota d now guest;
}.

Definition stored (d : Database) (now : Z) (u : OriginalUrl) (h : UrlHash)
    (sc : DedupScope) (owner : option OwnerID) (guest : option pystr) (ttl : Z)
    (chosen : option ShortCode) (r : result exn (Link * bool + Link)) w : Prop :=
  match r with
  | Ok (inl (l, b)) => Inside d now w ∧ looked_up d now h sc (Some (l, b))
  | Ok (inr l) =>
      w_db w = set_urls (urls d ++ [l]) d ∧ w_now w = now ∧
      coherent mine (w_cache w) (urls d) ∧ links_ok (w_db w) ∧
      (∃ m, link_id l = uuid4 m ∧ (m < w_uuids w)%nat) ∧
      Created d now u h sc owner guest ttl chosen l
  | Err _ => Inside d now w
  end.

Lemma create_link_ok now i h k u o g ttl l :
  create_link now i h k u o g ttl = Ok l →
  link_id l = i ∧ link_url_hash l = h ∧ link_short_code l = k ∧ link_original_url l = u ∧
  link_owner l = o ∧ link_guest_identifier l = g ∧ link_created_at l = now ∧
  link_clicks l = 0 ∧ link_last_accessed l = None ∧
  link_expires_at l = (if 0 <? ttl then Some (now + ttl * SECOND) else None).
Proof.
  rewrite /create_link. destruct (0 <? ttl); [case_match; [done|]|]; by intros [= <-].
Qed.

Lemma find_or_store_spec cl u h sc owner guest ttl chosen d now w :
  Inside d now w → links_ok d → uuids_fresh d (w_uuids w) → scope_wf sc →
  (∀ k, chosen = Some k → code_matches (sc_value k) = true) →
  wp (find_or_store cfg cl u h sc owner guest ttl chosen)
    (λ r w', stored d now u h sc owner guest ttl chosen r w' ∧
             (w_uuids w <= w_uuids w')%nat) w.
Proof.
  intros Hw Hok Hu Hwf Hch. rewrite /find_or_store. wp_step.
  eapply wp_mono; [by apply find_existing_spec|].
  intros r w1 (Hw1 & Hu1 & o & -> & Ho). destruct o as [[l b]|].
  { wp_steps. split; [done|lia]. }
  wp_step. eapply wp_mono; [by apply check_guest_quota_spec|].
  intros [[]|e] w2 (-> & Hq & _); [|split; [done|lia]]. specialize (Hq eq_refl).
  wp_step. eapply wp_mono; [by apply choose_code_spec|].
  intros [k|e] w3 (Hw3 & Hu3 & Hk); [|split; [done|lia]].
  destruct (Hk k eq_refl) as (Hfree & Hm & Hchk).
  wp_steps. destruct (create_link _ _ _ _ _ _ _ _) as [l|e] eqn:Hl;
    [|split; [by apply Inside_uuids|simpl; lia]].
  apply create_link_ok in Hl as (Hid & Hhash & Hcode & Hurl & Hown & Hg & Hcr & Hcl & Hla & Hex).
  rewrite (in_now _ _ _ Hw3) in Hcr, Hex. subst.
  wp_step. eapply wp_update; [apply Hw3|]. cbn [tx_work tx_committed].
  destruct (save_link l d) as [[l' d']|e] eqn:Hs; [|split; [by apply Inside_uuids|simpl; lia]].
  apply save_link_ok in Hs as Hs'; [|done..]. destruct Hs' as (Hok' & -> & _).
  apply save_link_new in Hs as [-> _]; last first.
  { intros r Hr. rewrite Hid. apply Hu; [lia|done]. }
  wp_steps. split; [|simpl; lia]. split_and!; try done; try apply Hw3.
  exists (w_uuids w3). simpl. split; [done|lia].
Qed.

(** What a creation answers and leaves. *)
Definition creation (u : OriginalUrl) (h : UrlHash) (sc : DedupScope)
    (owner : option OwnerID) (guest : option pystr) (ttl : Z)
    (chosen : option ShortCode) w (r : result exn ShortLinkResponse) w' : Prop :=
  match r with
  | Ok resp => ∃ l,
      from_link l (base_url cfg) (slr_is_new resp) (slr_from_cache resp) = Ok resp ∧
      if slr_is_new resp
      then w_db w' = set_urls (urls (w_db w) ++ [l]) (w_db w) ∧
           (∃ m, link_id l = uuid4 m ∧ (m < w_uuids w')%nat) ∧
           Created (w_db w) (w_now w) u h sc owner guest ttl chosen l
      else w_db w' = w_db w ∧ l ∈ urls (w_db w) ∧ dedup_candidate (w_now w) h sc l
  | Err _ => w_db w' = w_db w
  end.

Lemma from_link_ok l is_new from_cache :
  base_url cfg ≠ [] → code_matches (sc_value (link_short_code l)) = true →
  ∃ r, from_link l (base_url cfg) is_new from_cache = Ok r ∧
       slr_is_new r = is_new ∧ slr_from_cache r = from_cache.
Proof.
  intros Hb Hm. rewrite /from_link /build_short_url bool_decide_eq_false_2 //.
  rewrite bool_decide_eq_false_2; [by eexists|]. by intros Heq; rewrite Heq in Hm.
Qed.

Lemma find_or_create_spec u h sc owner guest ttl chosen w :
  Inv w → base_url cfg ≠ [] → scope_wf sc →
  (∀ k, chosen = Some k → code_matches (sc_value k) = true) →
  wp (find_or_create cfg u h sc owner guest ttl chosen)
    (λ r w', creation u h sc owner guest ttl chosen w r w' ∧ Inv w' ∧
       w_now w' = w_now w ∧ (w_uuids w <= w_uuids w')%nat) w.
Proof.
  intros [Hi Hok Hc Hu] Hb Hwf Hch. rewrite /find_or_create. wp_step. wp_step. wp_step.
  apply wp_with_cache. intros cl c Hcl. apply get_by_hash_spec in Hcl as (_ & Hs).
  wp_step. wp_step.
  eapply wp_mono; [apply (find_or_store_spec _ _ _ _ _ _ _ _ (w_db w) (w_now w)); try done|].
  { constructor; try done. by eapply coherent_shrinks. }
  intros [[[l b]|l]|e] w' [Hst Hle]; cbn [stored] in Hst; simpl in Hle.
  - destruct Hst as [Hin [Hl Hcand]]. destruct (proj1 (proj2 Hok) l Hl) as [_ Hm].
    destruct (from_link_ok l false b Hb Hm) as (resp & Hr & Hnew & Hcache).
    wp_steps. rewrite Hr. simpl. destruct Hin as [_ Hd Hn Hcoh].
    split_and!; [|constructor; rewrite /= ?Hd //; by eapply uuids_fresh_later|done..].
    exists l. by rewrite Hnew Hcache.
  - destruct Hst as (Hd & Hn & Hcoh & Hok' & Hm' & Hcr).
    assert (l ∈ urls (w_db w')) as Hl by (rewrite Hd /=; set_solver).
    destruct (proj1 (proj2 Hok') l Hl) as [_ Hm].
    destruct (from_link_ok l true false Hb Hm) as (resp & Hr & Hnew & Hcache).
    assert (uuids_fresh (w_db w') (w_uuids w')) as Hfresh.
    { rewrite Hd. destruct Hm' as (m0 & Hid & Hlt). intros m r Hm0 [Hx|Hx]%elem_of_app.
      - apply Hu; [lia|done].
      - apply list_elem_of_singleton in Hx as ->. rewrite Hid. intros ?%(inj uuid4). lia. }
    wp_steps. rewrite Hr. simpl. split_and!; [|constructor; try done; simpl|done..].
    + exists l. by rewrite Hnew Hcache.
    + eapply coherent_shrinks; [apply delete_stats_shrinks|]. apply coherent_save; [done|].
      eapply coherent_grow; [|done]. intros r. rewrite Hd /=. set_solver.
  - destruct Hst as [_ Hd Hn Hcoh]. split_and!; [done| |done..].
    constructor; rewrite /= ?Hd //. by eapply uuids_fresh_later.
Qed.

Lemma retry_conflicts_spec {A} (body : M (World C) exn A) (Q : result exn A → World C → Prop) w n :
  (∀ w1, Inv w1 → w_db w1 = w_db w → w_now w1 = w_now w → (w_uuids w <= w_uuids w1)%nat →
     wp body (λ r w', Q r w' ∧ Inv w' ∧ w_now w' = w_now w ∧ (w_uuids w <= w_uuids w')%nat ∧
                      ∀ e, r = Err e → w_db w' = w_db w) w1) →
  (∀ e w', w_db w' = w_db w → Q (Err e) w') →
  ∀ w1, Inv w1 → w_db w1 = w_db w → w_now w1 = w_now w → (w_uuids w <= w_uuids w1)%nat →
  wp (retry_conflicts n body)
    (λ r w', Q r w' ∧ Inv w' ∧ w_now w' = w_now w ∧ (w_uuids w <= w_uuids w')%nat) w1.
Proof.
  intros Hbody HQ. induction n as [|n IH]; intros w1 Hi Hd Hn Hu; cbn [retry_conflicts].
  - wp_steps. split_and!; auto.
  - wp_step. eapply wp_mono; [by apply Hbody|].
    intros [a|e] w' (? & ? & ? & ? & He); [done|]. case_decide; [|by wp_steps].
    apply IH; eauto.
Qed.

Lemma scope_of_wf owner guest : scope_wf (scope_of owner guest).
Proof. destruct owner; simpl; apply new_DedupScope_wf. Qed.

Lemma read_custom_code_ok custom chosen :
  read_custom_code custom = Ok chosen →
  ∀ k, chosen = Some k → code_matches (sc_value k) = true ∧
    is_reserved (sc_value k) = false ∧ custom = Some (sc_value k).
Proof.
  rewrite /read_custom_code. destruct custom as [[|x s]|]; [by intros [= <-]| |by intros [= <-]].
  intros (k & [Hm ->]%new_ShortCode_ok & Hr)%result_bind_ok k' ->.
  destruct (is_reserved _) eqn:E; [done|]. by injection Hr as <-.
Qed.

(** A request's inputs, as the use case reads them. *)
Record Request (url : pystr) (ctx : RequestContext) (ttl : Z) (custom : option pystr)
    (u : OriginalUrl) (h : UrlHash) (owner : option OwnerID)
    (chosen : option ShortCode) : Prop := MkRequest {
  rq_ttl : validate_ttl cfg ttl = Ok tt;
  rq_code : read_custom_code custom = Ok chosen;
  rq_url : new_OriginalUrl (url_settings cfg) url = Ok u;
  rq_hash : calculate u = Ok h;
  rq_owner : owner_of ctx = Ok owner;
}.

Definition create_outcome url ctx ttl custom w (r : result exn ShortLinkResponse) w' : Prop :=
  match r with
  | Err _ => w_db w' = w_db w
  | Ok _ => ∃ u h owner chosen, Request url ctx ttl custom u h owner chosen ∧
      creation u h (scope_of owner (guest_of ctx)) owner (guest_of ctx)
        (effective_ttl cfg (guest_of ctx) ttl) chosen w r w'
  end.

Lemma create_short_link_spec url ctx ttl custom w :
  Inv w → base_url cfg ≠ [] →
  wp (create_short_link cfg url ctx ttl custom)
    (λ r w', create_outcome url ctx ttl custom w r w' ∧ Inv w' ∧
             w_now w' = w_now w ∧ (w_uuids w <= w_uuids w')%nat) w.
Proof.
  intros Hw Hb. rewrite /create_short_link.
  wp_step. wp_step. destruct (validate_ttl cfg ttl) as [[]|e] eqn:Httl; [|done].
  wp_step. wp_step. destruct (read_custom_code custom) as [chosen|e] eqn:Hcode; [|done].
  wp_step. wp_step. destruct (new_OriginalUrl _ url) as [u|e] eqn:Hurl; [|done].
  wp_step. wp_step. destruct (calculate u) as [h|e] eqn:Hh; [|done].
  wp_step. wp_step. destruct (owner_of ctx) as [owner|e] eqn:Ho; [|done].
  assert (Request url ctx ttl custom u h owner chosen) as Hrq by done.
  apply (retry_conflicts_spec _ _ w); try done.
  intros w1 Hi Hd Hn Hle.
  eapply wp_mono; [apply find_or_create_spec; try done|].
  - apply scope_of_wf.
  - intros k Hk. by eapply read_custom_code_ok.
  - intros r w' (Hc & Hi' & Hn' & Hle'). rewrite /creation Hd Hn in Hc.
    split_and!; [|done|congruence|lia|by intros e ->].
    destruct r as [resp|e]; [|done]. exists u, h, owner, chosen. by split.
Qed.
End creation.
End changes.

End guarantees.

(** The invariant of a process that alone deletes links. *)
Definition Inv {C Stats : Type} `{CacheLaws C Stats} `{UuidSupply} : World C → Prop :=
  InvFor (λ _, True).

(** ** The guarantees *)

Section claims.
Context {C Stats : Type} `{CacheLaws C Stats} `{UrlRules} `{CodeGenerator} `{!GeneratorLaws}
        `{HashCalculator} `{CaseFolding} `{WordChars} `{UuidSupply} `{!Inj (=) (=) uuid4}
        `{!TaskQueue C} `{!QueueLaws}.
Context (cfg : LinkSettings).
Implicit Types (w : World C).

(** C4: a creation either fails and changes no row; or answers a live link
    of the same digest and scope and changes no row; or, when there is
    none, appends exactly one link with the requested destination, owner,
    expiry and (if given) code, whose code nobody had, and for a guest only
    while the quota lasts. *)
Theorem creation_stores_or_reuses url ctx ttl custom w r w' :
  base_url cfg ≠ [] → Inv w → create_short_link cfg url ctx ttl custom w = (r, w') →
  create_outcome cfg url ctx ttl custom w r w' ∧ Inv w'.
Proof.
  intros Hb Hw Hr. pose proof (create_short_link_spec cfg url ctx ttl custom w Hw Hb) as Hs.
  apply (wp_elim _ _ _ _ _ Hs) in Hr as (? & ? & _). done.
Qed.

Lemma count_guest_app now g days t l :
  count_guest_links_by_identifier now g days (t ++ [l]) <=
  count_guest_links_by_identifier now g days t + 1.
Proof.
  rewrite /count_guest_links_by_identifier /count_where list.filter_app length_app.
  rewrite filter_cons. case_decide; simpl; lia.
Qed.

(** C19: a creation by a guest never takes the guest's links of the window
    past the limit, and the link it makes expires no later than the
    service allows guests. *)
Theorem guest_creation_within_limits url ctx ttl custom w resp w' g :
  base_url cfg ≠ [] → 0 < default_guest_ttl_seconds cfg → Inv w → guest_of ctx = Some g →
  create_short_link cfg url ctx ttl custom w = (Ok resp, w') → slr_is_new resp = true →
  count_guest_links_by_identifier (w_now w) g (guest_link_window_days cfg) (urls (w_db w'))
    <= guest_link_limit cfg ∧
  ∃ e, slr_expires_at resp = Some e ∧
       w_now w < e <= w_now w + default_guest_ttl_seconds cfg * SECOND.
Proof.
  intros Hb Hd Hw Hg Hr Hnew.
  pose proof (create_short_link_spec cfg url ctx ttl custom w Hw Hb) as Hs.
  apply (wp_elim _ _ _ _ _ Hs) in Hr as ((u & h & owner & chosen & Hrq & Hc) & _).
  rewrite /creation Hnew Hg in Hc. destruct Hc as (l & Hl & -> & _ & Hcr). split.
  - etrans; [apply count_guest_app|]. pose proof (cr_quota _ _ _ _ _ _ _ _ _ _ _ Hcr g eq_refl). lia.
  - assert (slr_expires_at resp = link_expires_at l) as ->.
    { rewrite /from_link in Hl. apply result_bind_ok in Hl as (x & _ & [= <-]). done. }
    rewrite (cr_expires _ _ _ _ _ _ _ _ _ _ _ Hcr) /effective_ttl.
    destruct Hrq as [Httl _ _ _ _]. rewrite /validate_ttl in Httl.
    destruct (ttl <? 0) eqn:?; [done|]. clear Httl. set (eff := if ttl =? 0 then _ else _).
    assert (0 < eff <= default_guest_ttl_seconds cfg) as He
      by (rewrite /eff; destruct (ttl =? 0) eqn:?; lia).
    rewrite (_ : (0 <? eff) = true); [|lia]. eexists. split; [reflexivity|].
    rewrite /SECOND. lia.
Qed.

(** C15: where ownership is enforced (the web; the command line deletes
    without), a link is removed only for a requester the check was made for,
    or for a stored user allowed to delete it (its owner with
    [link:delete_own], anyone with [link:delete_any]), and everybody else is
    refused.  Enforced or not, a deletion removes that row and its visits and
    nothing else, and leaves neither level of this process's cache an entry
    for the code, whatever other processes have deleted behind its back; an
    answer of [False] means there was no such link; a refusal changes no
    row. *)
Theorem deletion_authorised_and_complete mine s ctx enforce authorized w r w' :
  InvFor mine w → delete_link s ctx enforce authorized w = (r, w') →
  InvFor mine w' ∧ match code_to_look_up s with
    | Ok k => deletion k ctx enforce authorized w r w' ∧
        (∀ l, enforce = true → find_by_code k (urls (w_db w)) = Some l →
           authorized ≠ Some (link_id l) → ¬ may_delete (w_db w) ctx l → is_ok r = false)
    | Err _ => r = Ok false ∧ w' = w
    end.
Proof.
  intros Hw Hr. pose proof (delete_link_spec s ctx enforce authorized w Hw) as Hs.
  apply (wp_elim _ _ _ _ _ Hs) in Hr as (? & _ & Hd). split; [done|].
  destruct (code_to_look_up s) as [k|e]; [|done]. split; [done|].
  intros l He Hl Ha Hm. destruct r as [[]|]; [|by destruct Hd as (_ & ? & _); congruence|done].
  destruct Hd as (l' & Hl' & _ & _ & Hd). rewrite Hl in Hl'. injection Hl' as <-.
  by destruct (Hd He).
Qed.

(** C40: the sweep always ends, deletes exactly the links that have expired,
    answers their number, and leaves no cache entry for any of them. *)
Theorem sweep_deletes_exactly_the_expired w :
  Inv w → ∃ w', clean_expired_links w =
      (Ok (count_where (expired_at (w_now w)) (urls (w_db w))), w') ∧
    urls (w_db w') = filter (λ l, is_expired (w_now w) l = false) (urls (w_db w)) ∧
    (∀ l, l ∈ urls (w_db w) → is_expired (w_now w) l = true →
          forgotten (w_cache w') (link_short_code l)) ∧ Inv w'.
Proof.
  intros Hw. destruct (clean_expired_links_spec w Hw) as (Hr & Hi & _ & Hu & Hf).
  exists (clean_expired_links w).2. split; [by rewrite -Hr; destruct (clean_expired_links w)|].
  split; [|done]. rewrite Hu. apply filter_ext_elem. intros l _.
  rewrite expired_at_spec. by destruct (is_expired _ l).
Qed.

(** counting a click never fails, adds one to the clicks of the row
    with that code and stamps it, and changes no other link. *)
Theorem click_counts_once s ctx w :
  Inv w → ∃ w', update_link_stats cfg s ctx w = (Ok tt, w') ∧
    urls (w_db w') = clicked (w_now w) s (urls (w_db w)) ∧ Inv w'.
Proof.
  intros Hw. destruct (update_link_stats_spec cfg s ctx w Hw) as (Hr & Hi & _ & Hu).
  exists (update_link_stats cfg s ctx w).2.
  split; [by rewrite -Hr; destruct (update_link_stats cfg s ctx w)|done].
Qed.
End claims.

Section witnesses.
Import Demo.
#[local] Existing Instances Demo.folding Demo.words Demo.uuids Demo.uuids_inj Demo.url_rules
  Demo.generator Demo.calculator Demo.cache Demo.cache_laws.
#[local] Instance queue : TaskQueue Cache := null_enqueue link_settings.
#[local] Instance queue_laws : QueueLaws := null_queue_laws link_settings.

Lemma empty_inv : Inv (Demo.world empty_db).
Proof.
  constructor; [done| |intros k e _ [He|(l & Hl & _)]; by vm_compute in *|by intros m l _ Hl%elem_of_nil].
  split; [apply table_ok_nil|]. split; intros x Hx%elem_of_nil; done.
Qed.

(** A guest shortens a link and follows it. *)
Definition created : World Cache :=
  (create_short_link link_settings Demo.url Demo.guest 0 None (Demo.world empty_db)).2.

Lemma created_inv : Inv created.
Proof. exact (proj1 (proj2 (create_short_link_spec link_settings Demo.url Demo.guest 0 None _ empty_inv ltac:(discriminate)))). Qed.

Lemma created_response : ∃ resp,
  create_short_link link_settings Demo.url Demo.guest 0 None (Demo.world empty_db)
    = (Ok resp, created) ∧ slr_is_new resp = true.
Proof.
  rewrite /created.
  destruct (create_short_link _ _ _ _ _ _) as [r w] eqn:Hr. apply (f_equal fst) in Hr.
  vm_compute in Hr. subst r. by eexists.
Qed.

Lemma creation_stores_or_reuses_witness : ∃ resp,
  create_outcome link_settings Demo.url Demo.guest 0 None (Demo.world empty_db)
    (Ok resp) created ∧ slr_is_new resp = true.
Proof.
  destruct created_response as (resp & Hr & Hn). exists resp. split; [|exact Hn].
  exact (proj1 (creation_stores_or_reuses link_settings Demo.url Demo.guest 0 None
    (Demo.world empty_db) (Ok resp) created ltac:(discriminate) empty_inv Hr)).
Defined.

Lemma guest_creation_within_limits_witness :
  count_guest_links_by_identifier (w_now (Demo.world empty_db)) (lit "203.0.113.5")
    (guest_link_window_days link_settings) (urls (w_db created))
    <= guest_link_limit link_settings.
Proof.
  destruct created_response as (resp & Hr & Hn).
  apply (guest_creation_within_limits link_settings Demo.url Demo.guest 0 None
           (Demo.world empty_db) resp created (lit "203.0.113.5"));
    [discriminate|reflexivity|exact empty_inv|reflexivity|exact Hr|exact Hn].
Defined.

Definition demo_code : ShortCode := MkShortCode (lit "JoSz74").

Lemma demo_code_found : code_to_look_up (lit "JoSz74") = Ok demo_code.
Proof. vm_compute. reflexivity. Qed.

(** An account of the role that may delete its own links makes one and takes
    it back, ownership enforced; a guest is refused. *)
Definition delete_own : Permission :=
  MkPermission (lit "p1") LINK_DELETE_OWN (lit "link") (lit "delete_own") None.
Definition owners_db : Database :=
  MkDatabase [] [MkUserModel (lit "u1") (lit "a@a.org") [61] [lit "r1"] true true 0 None]
    [MkRole (lit "r1") (lit "user") None true [delete_own]] [delete_own] [] [] [] [] [].
Definition owner_ctx : RequestContext :=
  MkRequestContext (lit "req-2") None None
    (Some (MkCurrentUserInfo (lit "u1") (lit "a@a.org") [lit "user"] true)).
Definition owned : World Cache :=
  (create_short_link link_settings Demo.url owner_ctx 0 None (Demo.world owners_db)).2.

Lemma owners_inv : Inv (Demo.world owners_db).
Proof.
  constructor; [done| |intros k e _ [He|(l & Hl & _)]; by vm_compute in *|by intros m l _ Hl%elem_of_nil].
  split; [apply table_ok_nil|]. split; intros x Hx%elem_of_nil; done.
Qed.

Lemma owned_inv : Inv owned.
Proof. exact (proj1 (proj2 (create_short_link_spec link_settings Demo.url owner_ctx 0 None _ owners_inv ltac:(discriminate)))). Qed.

Lemma deleted_response : ∃ w',
  delete_link (lit "JoSz74") owner_ctx true None owned = (Ok true, w').
Proof.
  destruct (delete_link _ _ _ _ _) as [r w] eqn:Hr. apply (f_equal fst) in Hr.
  vm_compute in Hr. subst r. by eexists.
Qed.

Lemma deletion_authorised_and_complete_witness :
  is_ok (delete_link (lit "JoSz74") Demo.guest true None owned).1 = false ∧
  ∃ w', deletion demo_code owner_ctx true None owned (Ok true) w' ∧ urls (w_db w') = [].
Proof.
  split; [vm_compute; reflexivity|].
  destruct deleted_response as (w' & Hr). exists w'.
  pose proof (deletion_authorised_and_complete _ (lit "JoSz74") owner_ctx true None owned
    (Ok true) w' owned_inv Hr) as [_ Hd].
  rewrite demo_code_found in Hd. split; [exact (proj1 Hd)|].
  replace w' with (delete_link (lit "JoSz74") owner_ctx true None owned).2 by (by rewrite Hr).
  vm_compute. reflexivity.
Defined.

(** Eight days later the guest's link has expired. *)
Definition lapsed_world : World Cache := set_now (start + 8 * DAY) created.

Lemma sweep_deletes_exactly_the_expired_witness :
  ∃ w', clean_expired_links lapsed_world = (Ok 1%nat, w') ∧ urls (w_db w') = [].
Proof.
  destruct (sweep_deletes_exactly_the_expired lapsed_world) as (w' & Hr & Hu & _).
  - apply (Inv_frame created); [reflexivity..|exact created_inv].
  - exists w'. split; [exact Hr|]. rewrite Hu. vm_compute. reflexivity.
Defined.

Lemma click_counts_once_witness :
  ∃ w', update_link_stats link_settings (lit "JoSz74") Demo.guest created = (Ok tt, w') ∧
        link_clicks <$> urls (w_db w') = [1].
Proof.
  destruct (click_counts_once link_settings (lit "JoSz74") Demo.guest created created_inv)
    as (w' & Hr & Hu & _).
  exists w'. split; [exact Hr|]. rewrite Hu. vm_compute. reflexivity.
Defined.
End witnesses.
