(* ===== verification/Batch.v ===== *)
(** * Batches of links

    [application/use_cases/batch/]: one request with many addresses.  The
    grouper validates and groups them by digest, the fetcher finds the links
    that exist, the quota trims what a guest may still create, the creator
    settles a free code for every new link in rounds, and the builder turns
    the outcome into one verdict per submitted address.

    A Python dictionary keyed by a digest is an association list in insertion
    order.  Messages and templates of a refusal are presentation; its code
    and waiting time are what a caller acts on.  The processing time of the
    answer is left out. *)

From S2P Require Import Prelude PyStr Exceptions ValueObjects Entities Policies CodeGen Cache.
From S2P Require Import Database LinkRepo UserRepo Visitor Links.

(** ** Groups and verdicts: [groups.py], [dtos/batch.py], [dtos/refusal.py] *)

Record UrlGroup := MkUrlGroup {
  ug_hash : UrlHash;
  ug_original_url : OriginalUrl;
  ug_urls : list pystr;
}.

Record Refusal := MkRefusal {
  rf_code : pystr;
  rf_retry_after_seconds : option Z;
}.

Record RejectedUrl := MkRejectedUrl {
  rj_url : pystr;
  rj_refusal : Refusal;
}.

(** [Refusal.from_error] of a domain error, and [Refusal.of] for the rest. *)
Definition retry_after_of (e : exn) : option Z :=
  match e with GuestLinkLimitExceededError _ r => r | _ => None end.
Definition refusal_of (e : exn) : Refusal :=
  match exn_code e with
  | Some code => MkRefusal code (retry_after_of e)
  | None => MkRefusal (lit "VALIDATION_ERROR") None
  end.

Record BatchItemResponse := MkBatchItemResponse {
  bi_success : bool;
  bi_url : pystr;
  bi_short_code : option pystr;
  bi_original_url : option pystr;
  bi_short_url : option pystr;
  bi_clicks : Z;
  bi_expires_at : option Z;
  bi_error : option Refusal;
  bi_is_new : bool;
  bi_from_cache : bool;
  bi_duplicate_of : option pystr;
  bi_link_id : option pystr;
}.

(** [BatchItemResponse.success_] of a link, and [error_]. *)
Definition success_ (url : pystr) (l : Link) (base_url : pystr) (is_new from_cache : bool)
    (duplicate_of link_id : option pystr) : result exn BatchItemResponse :=
  build_short_url base_url (sc_value (link_short_code l)) ≫= λ short_url,
  Ok {| bi_success := true; bi_url := url; bi_short_code := Some (sc_value (link_short_code l));
        bi_original_url := Some (ou_value (link_original_url l)); bi_short_url := Some short_url;
        bi_clicks := link_clicks l; bi_expires_at := link_expires_at l; bi_error := None;
        bi_is_new := is_new; bi_from_cache := from_cache; bi_duplicate_of := duplicate_of;
        bi_link_id := link_id |}.

Definition error_ (url : pystr) (r : Refusal) : BatchItemResponse :=
  {| bi_success := false; bi_url := url; bi_short_code := None; bi_original_url := None;
     bi_short_url := None; bi_clicks := 0; bi_expires_at := None; bi_error := Some r;
     bi_is_new := false; bi_from_cache := false; bi_duplicate_of := None; bi_link_id := None |}.

Record BatchCreateResponse := MkBatchCreateResponse {
  bc_items : list BatchItemResponse;
  bc_total : Z;
  bc_successful : Z;
  bc_failed : Z;
  bc_from_cache_count : Z;
  bc_from_db_count : Z;
  bc_new_count : Z;
}.

Definition count_if {A} (p : A → bool) (l : list A) : Z := len (List.filter p l).

Definition from_results (results : list BatchItemResponse) : BatchCreateResponse :=
  let total := len results in
  let successful := count_if bi_success results in
  {| bc_items := results; bc_total := total; bc_successful := successful;
     bc_failed := total - successful; bc_from_cache_count := count_if bi_from_cache results;
     bc_from_db_count :=
       count_if (λ r, bi_success r && negb (bi_is_new r) && negb (bi_from_cache r) &&
                      match bi_duplicate_of r with None | Some [] => true | _ => false end) results;
     bc_new_count := count_if bi_is_new results |}.

(** [[f url for url in urls]], where [f] may raise. *)
Fixpoint map_ok {A B} (f : A → result exn B) (l : list A) : result exn (list B) :=
  match l with
  | [] => Ok []
  | x :: l => f x ≫= λ y, map_ok f l ≫= λ ys, Ok (y :: ys)
  end.

(** A dictionary lookup, and the entry set in place or at the end. *)
Definition dict_get {K V} `{EqDecision K} (k : K) (d : list (K * V)) : option V :=
  snd <$> first (filter (λ e, e.1 = k) d).
Definition dict_set {K V} `{EqDecision K} (k : K) (v : V) (d : list (K * V)) : list (K * V) :=
  if decide (Exists (λ e, e.1 = k) d)
  then (λ e, if decide (e.1 = k) then (k, v) else e) <$> d
  else d ++ [(k, v)].

Record BatchSettings := MkBatchSettings {
  batch_limit : Z;
  creator_max_attempts : nat;
}.

Section batch.
Context {C Stats : Type} `{ServiceCache C Stats} `{UrlRules} `{CodeGenerator}
        `{HashCalculator} `{CaseFolding} `{WordChars} `{UuidSupply}.
Context (cfg : LinkSettings) (bcfg : BatchSettings).
Abbreviation P := (M (World C) exn).
Abbreviation links f := (read (λ d, f (urls d)) : P _).

(** ** [UrlGrouper] *)

Fixpoint add_to_group (h : UrlHash) (u : OriginalUrl) (url : pystr) (groups : list UrlGroup)
    : list UrlGroup :=
  match groups with
  | [] => [MkUrlGroup h u [url]]
  | g :: groups =>
      if decide (uh_value (ug_hash g) = uh_value h)
      then MkUrlGroup (ug_hash g) (ug_original_url g) (ug_urls g ++ [url]) :: groups
      else g :: add_to_group h u url groups
  end.

Definition read_url (url : pystr) : result exn (OriginalUrl * UrlHash) :=
  new_OriginalUrl (url_settings cfg) url ≫= λ u, calculate u ≫= λ h, Ok (u, h).

Fixpoint group_from (groups : list UrlGroup) (rejected : list RejectedUrl) (urls : list pystr)
    : result exn (list UrlGroup * list RejectedUrl) :=
  match urls with
  | [] => Ok (groups, rejected)
  | url :: urls =>
      match read_url url with
      | Ok (u, h) => group_from (add_to_group h u url groups) rejected urls
      | Err e =>
          if is_validation_error e || is_value_error e
          then group_from groups (rejected ++ [MkRejectedUrl url (refusal_of e)]) urls
          else Err e
      end
  end.

Definition group (urls : list pystr) : result exn (list UrlGroup * list RejectedUrl) :=
  group_from [] [] urls.

(** ** [BatchLinkFetcher] *)

(** The cached links that still answer, against their rows; the others are
    dropped from the cache. *)
Fixpoint confirm_each (now : Z) (scope : DedupScope) (stored : list (ShortCode * option Link))
    (candidates : list (UrlHash * Link)) : P (list (UrlHash * Link)) :=
  match candidates with
  | [] => mret []
  | (url_hash, cached_link) :: candidates =>
      let answer :=
        match dict_get (link_short_code cached_link) stored with
        | Some (Some l) =>
            if decide (link_url_hash l = url_hash ∧ dedup_scope l = scope) then
              if is_expired now l then None else Some l
            else None
        | _ => None
        end in
      match answer with
      | Some l => rest ← confirm_each now scope stored candidates; mret ((url_hash, l) :: rest)
      | None => on_cache (cache_delete cached_link);; confirm_each now scope stored candidates
      end
  end.

Definition cached_candidates (cached_map : list (UrlHash * option Link)) : list (UrlHash * Link) :=
  omap (λ e, (λ l, (e.1, l)) <$> e.2) cached_map.

Definition batch_confirm (cached_map : list (UrlHash * option Link)) (scope : DedupScope)
    : P (list (UrlHash * Link)) :=
  match cached_candidates cached_map with
  | [] => mret []
  | candidates =>
      now ← now_utc;
      stored ← links (find_by_codes (link_short_code ∘ snd <$> candidates));
      confirm_each now scope stored candidates
  end.

(** Split groups by whether a link was found, building the verdicts. *)
Fixpoint serve_groups (found : UrlHash → option Link) (from_cache : bool) (groups : list UrlGroup)
    : result exn (list BatchItemResponse * list UrlGroup * list Link) :=
  match groups with
  | [] => Ok ([], [], [])
  | g :: groups =>
      match found (ug_hash g) with
      | Some l =>
          map_ok (λ url, success_ url l (base_url cfg) false from_cache None None) (ug_urls g)
            ≫= λ items, serve_groups found from_cache groups ≫= λ '(rest, missing, found_links),
          Ok (items ++ rest, missing, l :: found_links)
      | None =>
          serve_groups found from_cache groups ≫= λ '(rest, missing, found_links),
          Ok (rest, g :: missing, found_links)
      end
  end.

Definition fetch (groups : list UrlGroup) (scope : DedupScope)
    : P (list BatchItemResponse * list UrlGroup * list Link) :=
  match groups with
  | [] => mret ([], [], [])
  | _ =>
      now ← now_utc;
      cached_map ← with_cache (get_by_hashes now (ug_hash <$> groups) scope);
      confirmed ← batch_confirm cached_map scope;
      '(cache_results, not_in_cache, _) ←
        lift (serve_groups (λ h, dict_get h confirmed) true groups);
      match not_in_cache with
      | [] => mret (cache_results, [], [])
      | _ =>
          db_map ← links (find_live_by_hashes now (ug_hash <$> not_in_cache) scope);
          '(db_results, to_create, found_links) ←
            lift (serve_groups (λ h, mjoin (dict_get h db_map)) false not_in_cache);
          mret (cache_results ++ db_results, to_create, found_links)
      end
  end.

(** ** The guest quota *)

(** [remaining] is never negative ([links_left_for_guest]). *)
Definition apply_guest_quota (groups_to_create : list UrlGroup) (remaining : option Z)
    : list UrlGroup * list BatchItemResponse :=
  match remaining with
  | None => (groups_to_create, [])
  | Some n =>
      if len groups_to_create <=? n then (groups_to_create, [])
      else
        let refusal := refusal_of (guest_quota_spent (guest_link_limit cfg)
                                     (guest_link_window_days cfg)) in
        (take (Z.to_nat n) groups_to_create,
         (λ url, error_ url refusal) <$> (drop (Z.to_nat n) groups_to_create ≫= ug_urls))
  end.

(** ** [BatchLinkCreator] *)

Record Resolution := MkResolution {
  rs_resolved : list (UrlHash * ShortCode);
  rs_attempts : UrlHash → nat;
  rs_occupied : list ShortCode;
  rs_next : list (UrlHash * ShortCode);
}.

Definition another_code (u : OriginalUrl) (attempts : nat) : P ShortCode :=
  if decide (attempts <= creator_max_attempts bcfg)%nat then lift (generate_unique u attempts)
  else uuid ← fresh_uuid; lift (generate_fresh (uuid_hex uuid) u).

(** The body of the [for] over one round's candidates. *)
Fixpoint resolve_round (url_of : UrlHash → option OriginalUrl)
    (candidates : list (UrlHash * ShortCode)) (st : Resolution) : P Resolution :=
  match candidates with
  | [] => mret st
  | (url_hash, code) :: candidates =>
      if decide (code ∈ rs_occupied st) then
        let n := S (rs_attempts st url_hash) in
        let attempts := λ h, if decide (h = url_hash) then n else rs_attempts st h in
        if decide (creator_max_attempts bcfg * 2 < n)%nat then
          resolve_round url_of candidates
            (MkResolution (rs_resolved st) attempts (rs_occupied st) (rs_next st))
        else
          match url_of url_hash with
          | None => raise (PyError RuntimeError)
          | Some u =>
              code' ← another_code u n;
              resolve_round url_of candidates
                (MkResolution (rs_resolved st) attempts (rs_occupied st)
                   (rs_next st ++ [(url_hash, code')]))
          end
      else
        resolve_round url_of candidates
          (MkResolution (rs_resolved st ++ [(url_hash, code)]) (rs_attempts st)
             (code :: rs_occupied st) (rs_next st))
  end.

(** Every round a candidate stays costs it an attempt, so [2 * max + 1]
    rounds settle or abandon it; running out of fuel would be an error of
    its own. *)
Fixpoint resolve_rounds (fuel : nat) (url_of : UrlHash → option OriginalUrl) (st : Resolution)
    : P (list (UrlHash * ShortCode)) :=
  match rs_next st with
  | [] => mret (rs_resolved st)
  | candidates =>
      match fuel with
      | O => raise (PyError OverflowError)
      | S fuel =>
          stored ← links (find_by_codes (remove_dups (snd <$> candidates)));
          let taken := omap (λ e, match e.2 with Some _ => Some e.1 | None => None end) stored in
          st' ← resolve_round url_of candidates
                  (MkResolution (rs_resolved st) (rs_attempts st) (taken ++ rs_occupied st) []);
          resolve_rounds fuel url_of st'
      end
  end.

Definition url_of_group (groups : list UrlGroup) (h : UrlHash) : option OriginalUrl :=
  ug_original_url <$> first (filter (λ g, ug_hash g = h) groups).

Definition first_codes (groups : list UrlGroup) : result exn (list (UrlHash * ShortCode)) :=
  map_ok (λ g, generate_for_url (ug_original_url g) ≫= λ c, Ok (ug_hash g, c)) groups.

Definition resolve_collisions (hash_to_code : list (UrlHash * ShortCode)) (groups : list UrlGroup)
    : P (list (UrlHash * ShortCode)) :=
  resolve_rounds (2 * creator_max_attempts bcfg + 2) (url_of_group groups)
    (MkResolution [] (λ _, 0%nat) [] hash_to_code).

(** A group whose code was not settled is left out. *)
Fixpoint build_links (owner : option OwnerID) (guest_identifier : option pystr) (ttl_seconds : Z)
    (resolved : list (UrlHash * ShortCode)) (groups : list UrlGroup) : P (list Link) :=
  match groups with
  | [] => mret []
  | g :: groups =>
      match dict_get (ug_hash g) resolved with
      | None => build_links owner guest_identifier ttl_seconds resolved groups
      | Some code =>
          now ← now_utc;
          uuid ← fresh_uuid;
          l ← lift (create_link now uuid (ug_hash g) code (ug_original_url g) owner
                      guest_identifier ttl_seconds);
          rest ← build_links owner guest_identifier ttl_seconds resolved groups;
          mret (l :: rest)
      end
  end.

Definition create_new_links (groups : list UrlGroup) (owner : option OwnerID)
    (guest_identifier : option pystr) (ttl_seconds : Z) : P (list Link) :=
  match groups with
  | [] => mret []
  | _ =>
      hash_to_code ← lift (first_codes groups);
      resolved ← resolve_collisions hash_to_code groups;
      build_links owner guest_identifier ttl_seconds resolved groups
  end.

(** [save_many] of the repository, with the owner's foreign key. *)
Definition save_links (ls : list Link) (d : Database) : result exn (list Link * Database) :=
  repo_save_many ls (urls d) ≫= λ t,
  if forallb (λ l, owner_exists l (users d)) ls then Ok (ls, set_urls t d)
  else Err (PyError IntegrityError).

(** ** [BatchResponseBuilder] *)

Definition LINK_NOT_STORED : Refusal := MkRefusal (lit "LINK_NOT_STORED") None.

Definition build_group (g : UrlGroup) (link : option Link) : result exn (list BatchItemResponse) :=
  match link with
  | None => Ok ((λ url, error_ url LINK_NOT_STORED) <$> ug_urls g)
  | Some l =>
      match ug_urls g with
      | [] => Err (PyError RuntimeError)
      | url :: rest =>
          success_ url l (base_url cfg) true false None (Some (link_id l)) ≫= λ first_item,
          map_ok (λ url, success_ url l (base_url cfg) false false
                           (Some (ou_value (link_original_url l))) None) rest ≫= λ items,
          Ok (first_item :: items)
      end
  end.

(** The last link of a digest is the one a dictionary keeps. *)
Definition saved_for (saved_links : list Link) (h : UrlHash) : option Link :=
  first (reverse (filter (λ l, link_url_hash l = h) saved_links)).

Fixpoint build_from_new_links (groups : list UrlGroup) (saved_links : list Link)
    : result exn (list BatchItemResponse) :=
  match groups with
  | [] => Ok []
  | g :: groups =>
      build_group g (saved_for saved_links (ug_hash g)) ≫= λ items,
      build_from_new_links groups saved_links ≫= λ rest, Ok (items ++ rest)
  end.

(** ** [BatchCreateLinksUseCase] *)

Record Attempt := MkAttempt {
  at_fetched : list BatchItemResponse;
  at_to_create : list UrlGroup;
  at_quota_results : list BatchItemResponse;
  at_saved : list Link;
}.

Definition look_up_and_create (valid_groups : list UrlGroup) (scope : DedupScope)
    (owner : option OwnerID) (guest_id : option pystr) (ttl_seconds : Z) : P Attempt :=
  with_uow (
    '(fetched_results, groups_to_create, _) ← fetch valid_groups scope;
    remaining_quota ← match guest_id with
                      | None => mret None
                      | Some g =>
                          now ← now_utc;
                          left ← links (guest_allowance now g (guest_link_limit cfg)
                                          (guest_link_window_days cfg));
                          mret (Some left)
                      end;
    let '(groups_to_create, quota_results) := apply_guest_quota groups_to_create remaining_quota in
    new_links ← create_new_links groups_to_create owner guest_id ttl_seconds;
    saved_links ← match new_links with [] => mret [] | _ => update (save_links new_links) end;
    commit;;
    match saved_links with
    | [] => mret tt
    | _ =>
        batch_id ← fresh_uuid;
        for_each (λ l, audit (UrlCreated (sc_value (link_short_code l))
                                (ou_value (link_original_url l)) (Some batch_id))) saved_links
    end;;
    mret (MkAttempt fetched_results groups_to_create quota_results saved_links)).

(** [for attempt in range(n): try: ... break; else: raise]. *)
Fixpoint retry_batch {A} (n : nat) (body : P A) : P A :=
  match n with
  | O => raise LinkConflictError
  | S n => try_except body (λ e, if decide (e = LinkConflictError)
                                 then retry_batch n body else raise e)
  end.

Definition batch_create_links (urls : list pystr) (context : RequestContext)
    : P BatchCreateResponse :=
  match urls with
  | [] => mret (from_results [])
  | _ =>
      if batch_limit bcfg <? len urls
      then raise (invalid "urls" "Batch limit exceeded. Max: %(max)s, requested: %(requested)s")
      else
        '(valid_groups, rejected) ← lift (group urls);
        let invalid_results := (λ r, error_ (rj_url r) (rj_refusal r)) <$> rejected in
        match valid_groups with
        | [] => mret (from_results invalid_results)
        | _ =>
            owner ← lift (owner_of context);
            let guest_id := guest_of context in
            let ttl_seconds :=
              match guest_id with Some _ => default_guest_ttl_seconds cfg | None => 0 end in
            let scope := scope_of owner guest_id in
            a ← retry_batch (max_collision_attempts cfg)
                  (look_up_and_create valid_groups scope owner guest_id ttl_seconds);
            (if bool_decide (at_saved a = []) then mret tt else on_cache delete_stats);;
            if negb (bool_decide (at_quota_results a = [])) &&
               bool_decide (at_saved a = []) && bool_decide (at_fetched a = []) &&
               bool_decide (invalid_results = [])
            then raise (guest_quota_spent (guest_link_limit cfg) (guest_link_window_days cfg))
            else
              new_results ← lift (build_from_new_links (at_to_create a) (at_saved a));
              mret (from_results (at_fetched a ++ new_results ++ at_quota_results a
                                  ++ invalid_results))
        end
  end.
End batch.
