(* ===== verification/BatchTheorems.v ===== *)
(** * Batches: one verdict per address, one transaction per batch

    First the yields: whatever a batch returns holds exactly one verdict for
    every submitted address, by a permutation carried through grouping,
    fetching, the quota and the builder.  Then the database: a batch adds
    exactly the links its answer calls new or, raising, nothing at all, their
    codes free and distinct, and a guest's links stay within the limit.  Last
    the invariant of the links ([batch_inv]). *)

From S2P Require Import Prelude PyStr Exceptions ValueObjects Entities Policies CodeGen Cache MemoryCache Database LinkRepo UserRepo Visitor UrlParse OriginalUrl Links Demo LinkTheorems Batch.

(** ** What a program yields, whatever the world *)

Definition yields {S E A} (p : M S E A) (Q : A → Prop) : Prop :=
  ∀ s a s', p s = (Ok a, s') → Q a.

Lemma yields_ret {S E A} (a : A) (Q : A → Prop) : Q a → yields (mret a : M S E A) Q.
Proof. by intros Ha s b s' [= <- <-]. Qed.
Lemma yields_raise {S E A} (e : E) (Q : A → Prop) : yields (raise e : M S E A) Q.
Proof. by intros s b s'. Qed.
Lemma yields_lift {S E A} (r : result E A) (Q : A → Prop) :
  (∀ a, r = Ok a → Q a) → yields (lift r : M S E A) Q.
Proof. intros Hr s b s' [= -> <-]. by apply Hr. Qed.
Lemma yields_bind {S E A B} (p : M S E A) (k : A → M S E B) (R : A → Prop) (Q : B → Prop) :
  yields p R → (∀ a, R a → yields (k a) Q) → yields (p ≫= k) Q.
Proof. intros Hp Hk s b s' (a & s1 & H1 & H2)%bind_ok_inv. eapply Hk; [by eapply Hp|done]. Qed.
Lemma yields_any {S E A} (p : M S E A) : yields p (λ _, True).
Proof. by intros s a s'. Qed.
Lemma yields_uow {C A} (p : M (World C) exn A) (Q : A → Prop) :
  yields p Q → yields (with_uow p) Q.
Proof.
  intros Hp w a w'. rewrite /with_uow. destruct (p _) as [r w1] eqn:E.
  intros [= -> <-]. by eapply Hp.
Qed.
Lemma yields_retry {C A} n (p : M (World C) exn A) (Q : A → Prop) :
  yields p Q → yields (retry_batch n p) Q.
Proof.
  intros Hp. induction n as [|n IH]; [apply yields_raise|]. intros w a w'. simpl.
  rewrite /try_except. destruct (p w) as [[x|e] w1] eqn:E; [intros [= <- <-]; by eapply Hp|].
  case_decide; [apply IH|done].
Qed.

Lemma map_ok_spec {A B} (f : A → result exn B) l ys : map_ok f l = Ok ys →
  Forall2 (λ x y, f x = Ok y) l ys.
Proof.
  revert ys. induction l as [|x l IH]; intros ys; simpl; [by intros [= <-]|].
  intros (y & Hy & (ys' & Hys & [= <-])%result_bind_ok)%result_bind_ok. constructor; auto.
Qed.

Lemma map_ok_urls (f : pystr → result exn BatchItemResponse) urls items :
  (∀ u i, f u = Ok i → bi_url i = u) → map_ok f urls = Ok items → bi_url <$> items = urls.
Proof.
  intros Hf Hm%map_ok_spec. induction Hm as [|u i urls items Hu _ IH]; [done|].
  rewrite fmap_cons IH. f_equal. by apply Hf.
Qed.

Lemma success_url url l base new cached dup i r :
  success_ url l base new cached dup i = Ok r → bi_url r = url.
Proof. rewrite /success_. by intros (? & _ & [= <-])%result_bind_ok. Qed.

(** The addresses of a list of groups. *)
Definition urls_of (groups : list UrlGroup) : list pystr := groups ≫= ug_urls.
Arguments urls_of : simpl never.

Lemma urls_of_cons g groups : urls_of (g :: groups) = ug_urls g ++ urls_of groups.
Proof. done. Qed.

Section verdicts.
Context {C Stats : Type} `{ServiceCache C Stats} `{UrlRules} `{CodeGenerator}
        `{HashCalculator} `{CaseFolding} `{WordChars} `{UuidSupply}.
Context (cfg : LinkSettings) (bcfg : BatchSettings).

Lemma add_to_group_urls h u url groups :
  urls_of (add_to_group h u url groups) ≡ₚ url :: urls_of groups.
Proof.
  induction groups as [|g groups IH]; [done|]. simpl. case_decide; rewrite !urls_of_cons; simpl.
  - rewrite -app_assoc. by rewrite -Permutation_middle.
  - rewrite IH. by rewrite -Permutation_middle.
Qed.

Lemma group_from_urls groups rejected urls groups' rejected' :
  group_from cfg groups rejected urls = Ok (groups', rejected') →
  urls_of groups' ++ (rj_url <$> rejected') ≡ₚ
  urls_of groups ++ (rj_url <$> rejected) ++ urls.
Proof.
  revert groups rejected. induction urls as [|url urls IH]; intros groups rejected; simpl.
  - intros [= <- <-]. by rewrite app_nil_r.
  - destruct (read_url cfg url) as [[u h]|e].
    + intros ->%IH. rewrite add_to_group_urls. simpl. by rewrite !app_assoc -Permutation_middle.
    + case_match; [|done]. intros ->%IH. by rewrite fmap_app -!app_assoc.
Qed.

Lemma serve_groups_urls found fc groups items missing ls :
  serve_groups cfg found fc groups = Ok (items, missing, ls) →
  (bi_url <$> items) ++ urls_of missing ≡ₚ urls_of groups.
Proof.
  revert items missing ls. induction groups as [|g groups IH]; intros items missing ls; simpl.
  - by intros [= <- <- <-].
  - destruct (found (ug_hash g)) as [l|].
    + intros (its & His & Hr)%result_bind_ok. apply result_bind_ok in Hr as ([[rest ms] fs] & Hr & [= <- <- <-]).
      apply IH in Hr. apply map_ok_urls in His; [|intros; by eapply success_url].
      by rewrite fmap_app His -app_assoc Hr.
    + intros ([[rest ms] fs] & Hr & [= <- <- <-])%result_bind_ok. apply IH in Hr.
      rewrite !urls_of_cons -Hr. apply Permutation_app_swap_app.
Qed.

Lemma quota_urls groups remaining allowed refused :
  apply_guest_quota cfg groups remaining = (allowed, refused) →
  urls_of allowed ++ (bi_url <$> refused) = urls_of groups.
Proof.
  rewrite /apply_guest_quota. destruct remaining as [n|]; [|by intros [= <- <-]; rewrite app_nil_r].
  case_match; intros [= <- <-]; [by rewrite app_nil_r|].
  rewrite -list_fmap_compose /compose /= list_fmap_id -bind_app take_drop. done.
Qed.

Lemma build_urls groups saved items :
  build_from_new_links cfg groups saved = Ok items → bi_url <$> items = urls_of groups.
Proof.
  revert items. induction groups as [|g groups IH]; intros items; simpl; [by intros [= <-]|].
  intros (its & His & (rest & Hr & [= <-])%result_bind_ok)%result_bind_ok.
  rewrite fmap_app (IH _ Hr) urls_of_cons. f_equal. revert His. rewrite /build_group.
  destruct (saved_for saved (ug_hash g)) as [l|].
  - destruct (ug_urls g) as [|url us]; [done|].
    intros (i & Hi & (js & Hjs & [= <-])%result_bind_ok)%result_bind_ok.
    apply success_url in Hi. apply map_ok_urls in Hjs; [|intros; by eapply success_url].
    by rewrite fmap_cons Hi Hjs.
  - intros [= <-]. by rewrite -list_fmap_compose /compose /= list_fmap_id.
Qed.

Lemma fetch_urls groups scope :
  yields (fetch cfg groups scope : M (World C) exn _)
    (λ r, (bi_url <$> r.1.1) ++ urls_of r.1.2 ≡ₚ urls_of groups).
Proof.
  rewrite /fetch. destruct groups as [|g0 gs]; [by apply yields_ret|].
  set (groups := g0 :: gs). do 3 (eapply yields_bind; [apply yields_any|intros ? _]).
  eapply yields_bind; [apply yields_lift; intros ? Hs; exact Hs|].
  intros [[cache_results missing] ls] Hs%serve_groups_urls.
  destruct missing as [|m ms]; [apply yields_ret; exact Hs|].
  eapply yields_bind; [apply yields_any|intros ? _].
  eapply yields_bind; [apply yields_lift; intros ? Hs'; exact Hs'|].
  intros [[db_results to_create] ls'] Hs'%serve_groups_urls. apply yields_ret. simpl.
  by rewrite fmap_app -app_assoc Hs'.
Qed.

Lemma attempt_urls groups scope owner guest ttl :
  yields (look_up_and_create cfg bcfg groups scope owner guest ttl : M (World C) exn _)
    (λ a, (bi_url <$> at_fetched a) ++ urls_of (at_to_create a) ++ (bi_url <$> at_quota_results a)
          ≡ₚ urls_of groups).
Proof.
  apply yields_uow. eapply yields_bind; [apply fetch_urls|].
  intros [[fetched to_create] ls] Hf. simpl in Hf.
  eapply yields_bind; [apply yields_any|intros remaining _].
  destruct (apply_guest_quota cfg to_create remaining) as [allowed refused] eqn:Hq.
  apply quota_urls in Hq. do 4 (eapply yields_bind; [apply yields_any|intros ? _]).
  apply yields_ret. simpl. by rewrite Hq.
Qed.

Lemma batch_urls urls context :
  yields (batch_create_links cfg bcfg urls context : M (World C) exn _)
    (λ r, (bi_url <$> bc_items r) ≡ₚ urls ∧ ∃ items, r = from_results items).
Proof.
  rewrite /batch_create_links. destruct urls as [|u0 us]; [apply yields_ret; eauto|].
  set (urls := u0 :: us). case_match; [apply yields_raise|].
  eapply yields_bind; [apply yields_lift; intros ? Hg; exact Hg|].
  intros [groups rejected] Hg%group_from_urls. simpl in Hg.
  assert (bi_url <$> ((λ r, error_ (rj_url r) (rj_refusal r)) <$> rejected) = rj_url <$> rejected) as Hrej
    by (by rewrite -list_fmap_compose).
  destruct groups as [|g gs]; [apply yields_ret; split; [simpl; by rewrite Hrej|by eexists]|].
  eapply yields_bind; [apply yields_any|intros owner _].
  eapply yields_bind; [apply yields_retry, attempt_urls|]. intros a Ha.
  eapply yields_bind; [apply yields_any|intros _ _]. case_match; [apply yields_raise|].
  eapply yields_bind; [apply yields_lift; intros ? Hn; exact Hn|]. intros items Hn%build_urls.
  apply yields_ret. split; [|by eexists]. simpl.
  rewrite !fmap_app Hn Hrej. by rewrite -Hg -Ha -!app_assoc.
Qed.
End verdicts.

(** ** What a batch stores *)

(** A program that touches neither the database nor the open transaction. *)
Class Steady {C A} (p : M (World C) exn A) : Prop :=
  steady : ∀ w, w_db (p w).2 = w_db w ∧ w_txn (p w).2 = w_txn w ∧ w_now (p w).2 = w_now w ∧
                (w_uuids w <= w_uuids (p w).2)%nat.

#[global] Instance Steady_ret {C A} (a : A) : Steady (C:=C) (mret a).
Proof. done. Qed.
#[global] Instance Steady_raise {C A} e : Steady (C:=C) (A:=A) (raise e).
Proof. done. Qed.
#[global] Instance Steady_lift {C A} (r : result exn A) : Steady (C:=C) (lift r).
Proof. done. Qed.
#[global] Instance Steady_now {C} : Steady (C:=C) now_utc.
Proof. done. Qed.
#[global] Instance Steady_read {C A} (f : Database → A) : Steady (C:=C) (read f).
Proof. intros w. rewrite /read. by case_match. Qed.
#[global] Instance Steady_uuid {C} `{UuidSupply} : Steady (C:=C) fresh_uuid.
Proof. intros w. split_and!; [done..|]. simpl. lia. Qed.
#[global] Instance Steady_audit {C} e : Steady (C:=C) (audit e).
Proof. done. Qed.
#[global] Instance Steady_on_cache {C} (f : C → C) : Steady (on_cache f).
Proof. done. Qed.
#[global] Instance Steady_with_cache {C A} (f : C → A * C) : Steady (with_cache f).
Proof. intros w. rewrite /with_cache. by destruct (f (w_cache w)). Qed.
#[global] Instance Steady_bind {C A B} (p : M (World C) exn A) (k : A → M (World C) exn B) :
  Steady p → (∀ a, Steady (k a)) → Steady (p ≫= k).
Proof.
  intros Hp Hk w. destruct (Hp w) as (Hd & Ht & Hn & Hu). rewrite /mbind /M_bind.
  destruct (p w) as [[a|e] w']; simpl in *; [|done].
  destruct (Hk a w') as (-> & -> & -> & ?). split_and!; [done..|lia].
Qed.
#[global] Instance Steady_for_each {C A} (body : A → M (World C) exn unit) xs :
  (∀ x, Steady (body x)) → Steady (for_each body xs).
Proof. intros Hb. induction xs; simpl; apply _. Qed.

Ltac steady := repeat first [apply _ | apply Steady_bind; [apply _|intros] | case_match].

Lemma wp_steady {C A} (p : M (World C) exn A) `{!Steady p} (Q : result exn A → World C → Prop) w :
  (∀ r w', p w = (r, w') → w_db w' = w_db w → w_txn w' = w_txn w → w_now w' = w_now w →
           (w_uuids w <= w_uuids w')%nat → Q r w') →
  wp p Q w.
Proof.
  intros HQ. rewrite /wp. destruct (steady (p:=p) w) as (?&?&?&?).
  destruct (p w) as [r w'] eqn:E. by apply HQ.
Qed.

Lemma wp_yields {S E A} (p : M S E A) (R : A → Prop) (Q : result E A → S → Prop) s :
  yields p R → wp p Q s → wp p (λ r s', Q r s' ∧ ∀ a, r = Ok a → R a) s.
Proof.
  intros HR. rewrite /wp. destruct (p s) as [r s'] eqn:Hp. simpl. intros HQ. split; [done|].
  intros a Ha. subst r. by eapply HR.
Qed.

(** ** The links of a batch and its groups *)

(** The group a stored link was made of. *)
Definition saved_as (l : Link) (g : UrlGroup) : Prop :=
  link_url_hash l = ug_hash g ∧ link_original_url l = ug_original_url g.

Definition made_of (groups : list UrlGroup) (saved : list Link) : Prop :=
  ∃ gs, gs `sublist_of` groups ∧ Forall2 saved_as saved gs.

Lemma made_of_nil groups : made_of groups [].
Proof. exists []. split; [apply sublist_nil_l|constructor]. Qed.

Lemma made_of_length groups saved : made_of groups saved → (length saved <= length groups)%nat.
Proof. intros (gs & Hs & Hf). rewrite (Forall2_length Hf). by apply sublist_length. Qed.

Lemma made_of_group groups saved l : made_of groups saved → l ∈ saved →
  ∃ g, g ∈ groups ∧ saved_as l g.
Proof.
  intros (gs & Hs & Hf) Hl. apply list_elem_of_lookup in Hl as [i Hi].
  destruct (list.Forall2_lookup_l _ _ _ _ _ Hf Hi) as (g & Hg & Ha). exists g. split; [|done].
  eapply elem_of_sublist; [|exact Hs]. by eapply list_elem_of_lookup_2.
Qed.

Lemma saved_hashes saved gs : Forall2 saved_as saved gs → link_url_hash <$> saved = ug_hash <$> gs.
Proof. induction 1 as [|l g saved gs [Hh _] _ IH]; [done|]. by rewrite !fmap_cons IH Hh. Qed.

Lemma filter_hash_none saved h : h ∉ (link_url_hash <$> saved) →
  filter (λ x, link_url_hash x = h) saved = [].
Proof.
  intros Hn. induction saved as [|l saved IH]; [done|].
  rewrite fmap_cons not_elem_of_cons in Hn. destruct Hn as [Hne Hn].
  rewrite filter_cons decide_False; [by apply IH|congruence].
Qed.

Lemma saved_for_in saved l : NoDup (link_url_hash <$> saved) → l ∈ saved →
  saved_for saved (link_url_hash l) = Some l.
Proof.
  intros Hnd Hl. rewrite /saved_for.
  assert (filter (λ x, link_url_hash x = link_url_hash l) saved = [l]) as ->; [|done].
  induction saved as [|x saved IH]; [by apply elem_of_nil in Hl|].
  rewrite fmap_cons in Hnd. apply list.NoDup_cons in Hnd as [Hx Hnd]. rewrite filter_cons.
  apply elem_of_cons in Hl as [<-|Hl].
  - rewrite decide_True //. by rewrite filter_hash_none.
  - rewrite decide_False; [by apply IH|]. intros Heq. apply Hx. rewrite Heq.
    apply list_elem_of_fmap. by exists l.
Qed.

Lemma saved_for_out saved h : h ∉ (link_url_hash <$> saved) → saved_for saved h = None.
Proof. intros Hn. by rewrite /saved_for filter_hash_none. Qed.

(** The dictionary of a batch's saved links gives every group its own link,
    and all of them. *)
Lemma saved_for_groups groups saved : NoDup (ug_hash <$> groups) → made_of groups saved →
  omap (λ g, saved_for saved (ug_hash g)) groups = saved.
Proof.
  intros Hnd (gs & Hs & Hf).
  assert (NoDup (link_url_hash <$> saved)) as Hns.
  { rewrite (saved_hashes _ _ Hf). eapply sublist_NoDup; [exact Hnd|by apply fmap_sublist_of]. }
  assert (∀ f : UrlHash → option Link, (∀ l, l ∈ saved → f (link_url_hash l) = Some l) →
    (∀ h, h ∈ (ug_hash <$> groups) → h ∉ (link_url_hash <$> saved) → f h = None) →
    omap (λ g, f (ug_hash g)) groups = saved) as Hgen; last first.
  { apply Hgen; [intros l Hl; by apply saved_for_in|]. intros h _. apply saved_for_out. }
  clear Hns. revert saved Hf. induction Hs as [|g gs groups Hs IH|g gs groups Hs IH];
    intros saved Hf f Hin Hout.
  - by inversion Hf.
  - inversion Hf as [|l ? saved' ? [Hh Ho] Hf']; subst. rewrite fmap_cons in Hnd.
    apply list.NoDup_cons in Hnd as [Hg Hnd]. simpl. rewrite -Hh Hin; [|apply elem_of_cons; by left].
    f_equal. apply IH; [done..| |].
    + intros x Hx. apply Hin. apply elem_of_cons. by right.
    + intros h Hh' Hn. apply Hout; [rewrite fmap_cons; apply elem_of_cons; by right|].
      rewrite fmap_cons. intros [->|?]%elem_of_cons; [|done]. by rewrite Hh in Hh'.
  - rewrite fmap_cons in Hnd. apply list.NoDup_cons in Hnd as [Hg Hnd]. simpl. rewrite Hout.
    + apply IH; [done..|]. intros h Hh. apply Hout. rewrite fmap_cons. apply elem_of_cons. by right.
    + rewrite fmap_cons. apply elem_of_cons. by left.
    + rewrite (saved_hashes _ _ Hf). intros (g' & Heq & Hg')%list_elem_of_fmap. apply Hg.
      apply list_elem_of_fmap. exists g'. split; [done|]. by eapply elem_of_sublist.
Qed.

(** What the answer says of a link it calls new, and what a link is. *)
Definition reported (items : list BatchItemResponse) :
    list (option pystr * option pystr * option pystr * option Z) :=
  (λ i, (bi_link_id i, bi_short_code i, bi_original_url i, bi_expires_at i)) <$>
    List.filter bi_is_new items.
Definition as_reported (l : Link) : option pystr * option pystr * option pystr * option Z :=
  (Some (link_id l), Some (sc_value (link_short_code l)), Some (ou_value (link_original_url l)),
   link_expires_at l).

Lemma reported_app xs ys : reported (xs ++ ys) = reported xs ++ reported ys.
Proof. by rewrite /reported List.filter_app fmap_app. Qed.

Lemma reported_none items : Forall (λ i, bi_is_new i = false) items → reported items = [].
Proof. rewrite /reported. induction 1 as [|i items Hi _ IH]; [done|]. simpl. by rewrite Hi. Qed.

Lemma map_ok_Forall {A B} (f : A → result exn B) (P : B → Prop) l ys :
  (∀ x y, f x = Ok y → P y) → map_ok f l = Ok ys → Forall P ys.
Proof. intros Hf Hm%map_ok_spec. induction Hm; constructor; eauto. Qed.

Lemma success_new url l base new cached dup i r :
  success_ url l base new cached dup i = Ok r →
  bi_is_new r = new ∧ (i = Some (link_id l) →
    (bi_link_id r, bi_short_code r, bi_original_url r, bi_expires_at r) = as_reported l).
Proof. rewrite /success_. intros (? & _ & [= <-])%result_bind_ok. split; [done|]. by intros ->. Qed.

Section stores.
Context {C Stats : Type} `{ServiceCache C Stats} `{UrlRules} `{CodeGenerator} `{!GeneratorLaws}
        `{HashCalculator} `{CaseFolding} `{WordChars} `{UuidSupply}.
Context (cfg : LinkSettings) (bcfg : BatchSettings).
Implicit Types (w : World C).

#[global] Instance Steady_confirm_each now scope stored cands :
  Steady (confirm_each now scope stored cands : M (World C) exn _).
Proof. induction cands as [|[h l] cands IH]; simpl; steady. Qed.
#[global] Instance Steady_batch_confirm m scope : Steady (batch_confirm m scope : M (World C) exn _).
Proof. rewrite /batch_confirm. steady. Qed.
#[global] Instance Steady_fetch groups scope : Steady (fetch cfg groups scope : M (World C) exn _).
Proof. rewrite /fetch. steady. Qed.
#[global] Instance Steady_another_code u n : Steady (another_code bcfg u n : M (World C) exn _).
Proof. rewrite /another_code. steady. Qed.
#[global] Instance Steady_resolve_round url_of cands st :
  Steady (resolve_round bcfg url_of cands st : M (World C) exn _).
Proof. revert st. induction cands as [|[h c] cands IH]; intros st; simpl; steady. Qed.
#[global] Instance Steady_resolve_rounds fuel url_of st :
  Steady (resolve_rounds bcfg fuel url_of st : M (World C) exn _).
Proof. revert st. induction fuel as [|fuel IH]; intros st; simpl; steady. Qed.
#[global] Instance Steady_build_links o g ttl resolved groups :
  Steady (build_links o g ttl resolved groups : M (World C) exn _).
Proof. induction groups as [|x groups IH]; simpl; steady. Qed.
#[global] Instance Steady_create_new_links groups o g ttl :
  Steady (create_new_links bcfg groups o g ttl : M (World C) exn _).
Proof. rewrite /create_new_links /resolve_collisions. steady. Qed.

(** *** Codes are well formed *)

Abbreviation codes_match m := (Forall (λ e : UrlHash * ShortCode, code_matches (sc_value e.2) = true) m).

Lemma another_code_matches u n :
  yields (another_code bcfg u n : M (World C) exn _) (λ k, code_matches (sc_value k) = true).
Proof.
  rewrite /another_code. case_decide.
  - apply yields_lift. intros k. apply generate_unique_matches.
  - eapply yields_bind; [apply yields_any|intros x _]. apply yields_lift. intros k.
    apply generate_fresh_matches.
Qed.

Lemma resolve_round_matches url_of cands st :
  codes_match cands → codes_match (rs_resolved st) → codes_match (rs_next st) →
  yields (resolve_round bcfg url_of cands st : M (World C) exn _)
    (λ st', codes_match (rs_resolved st') ∧ codes_match (rs_next st')).
Proof.
  revert st. induction cands as [|[h c] cands IH]; intros st Hc Hr Hn; simpl; [by apply yields_ret|].
  apply Forall_cons_iff in Hc as [Hc Hcs]. case_decide; [case_decide|].
  - by apply IH.
  - destruct (url_of h); [|apply yields_raise].
    eapply yields_bind; [apply another_code_matches|]. intros k Hk. apply IH; [done..|].
    simpl. apply Forall_app. split; [done|]. by apply Forall_singleton.
  - apply IH; [done| |done]. simpl. apply Forall_app. split; [done|]. by apply Forall_singleton.
Qed.

Lemma resolve_rounds_matches fuel url_of st :
  codes_match (rs_resolved st) → codes_match (rs_next st) →
  yields (resolve_rounds bcfg fuel url_of st : M (World C) exn _) (λ m, codes_match m).
Proof.
  revert st. induction fuel as [|fuel IH]; intros st Hr Hn; cbn [resolve_rounds];
    (destruct (rs_next st) as [|e es] eqn:He; [by apply yields_ret|]); [apply yields_raise|].
  eapply yields_bind; [apply yields_any|intros stored _].
  eapply yields_bind; [apply resolve_round_matches; [done..|constructor]|].
  intros st' [Hr' Hn']. by apply IH.
Qed.

Lemma first_codes_match groups m : first_codes groups = Ok m → codes_match m.
Proof.
  apply map_ok_Forall. intros g [h k] (c & Hc & [= <- <-])%result_bind_ok. simpl.
  apply result_bind_ok in Hc as (b & _ & Hc). by apply generate_matches in Hc.
Qed.

Lemma dict_get_in {K V} `{EqDecision K} (k : K) (d : list (K * V)) v :
  dict_get k d = Some v → (k, v) ∈ d.
Proof.
  rewrite /dict_get. intros ([k' v'] & Hf & ->)%fmap_Some. simpl.
  assert ((k', v') ∈ filter (λ e : K * V, e.1 = k) d) as Hin.
  { destruct (filter _ d); [done|]. injection Hf as ->. apply elem_of_cons. by left. }
  by apply list_elem_of_filter in Hin as [<- Hin].
Qed.

(** *** The links of one attempt *)

(** A link a batch creates for its caller. *)
Definition made_for (now : Z) (owner : option OwnerID) (guest : option pystr) (ttl : Z) (l : Link)
    : Prop :=
  link_owner l = owner ∧ link_guest_identifier l = guest ∧ link_created_at l = now ∧
  link_clicks l = 0 ∧ link_expires_at l = (if 0 <? ttl then Some (now + ttl * SECOND) else None).

(** Its id is a draw of the batch. *)
Definition drawn (n n' : nat) (l : Link) : Prop :=
  ∃ m, (n <= m < n')%nat ∧ link_id l = uuid4 m.

Lemma drawn_mono n1 n1' n2 n2' l :
  (n2 <= n1)%nat → (n1' <= n2')%nat → drawn n1 n1' l → drawn n2 n2' l.
Proof. intros ? ? (m & ? & ?). exists m. split; [lia|done]. Qed.

Lemma create_link_made now i h k u o g ttl l :
  create_link now i h k u o g ttl = Ok l →
  made_for now o g ttl l ∧ link_id l = i ∧ link_url_hash l = h ∧ link_short_code l = k ∧
  link_original_url l = u.
Proof. rewrite /create_link /made_for. destruct (0 <? ttl); [case_match; [done|]|]; by intros [= <-]. Qed.

Record Links_made (now : Z) (o : option OwnerID) (g : option pystr) (ttl : Z)
    (groups : list UrlGroup) (n n' : nat) (ls : list Link) : Prop := {
  lm_for : Forall (made_for now o g ttl) ls;
  lm_of : made_of groups ls;
  lm_ids : Forall (drawn n n') ls;
  lm_codes : Forall (λ l, code_matches (sc_value (link_short_code l)) = true) ls;
}.

Lemma Links_made_nil now o g ttl groups n n' : Links_made now o g ttl groups n n' [].
Proof. split; [constructor|apply made_of_nil|constructor..]. Qed.

Lemma Links_made_mono now o g ttl groups n1 n1' n2 n2' ls :
  (n2 <= n1)%nat → (n1' <= n2')%nat →
  Links_made now o g ttl groups n1 n1' ls → Links_made now o g ttl groups n2 n2' ls.
Proof.
  intros Hle Hle' [? ? Hd ?]. split; [done..| |done]. eapply list.Forall_impl; [exact Hd|].
  intros l. by apply drawn_mono.
Qed.

Lemma build_links_made o g ttl resolved groups w ls w' : codes_match resolved →
  build_links o g ttl resolved groups w = (Ok ls, w') →
  Links_made (w_now w) o g ttl groups (w_uuids w) (w_uuids w') ls.
Proof.
  intros Hm. revert w ls w'. induction groups as [|x groups IH]; intros w ls w'; simpl.
  { intros [= <- <-]. apply Links_made_nil. }
  destruct (dict_get (ug_hash x) resolved) as [code|] eqn:Hc.
  - intros (now & w1 & [= <- <-] & Hb)%bind_ok_inv.
    apply bind_ok_inv in Hb as (u & w2 & [= <- <-] & Hb).
    apply bind_ok_inv in Hb as (l & w3 & [= Hl <-] & Hb).
    apply bind_ok_inv in Hb as (rest & w4 & Hr & [= <- <-]).
    assert (w_uuids (set_uuids (S (w_uuids w)) w) <= w_uuids w4)%nat as Hu.
    { destruct (Steady_build_links o g ttl resolved groups (set_uuids (S (w_uuids w)) w))
        as (_ & _ & _ & Hu). by rewrite Hr in Hu. }
    apply IH in Hr. simpl in Hr, Hu. destruct Hr as [Hfor (gs & Hs & Hf) Hids Hcodes].
    apply create_link_made in Hl as (Hl & Hi & Hh & Hk & Ho). split; [by constructor| | |].
    + exists (x :: gs). split; [by apply sublist_skip|]. by constructor.
    + constructor; [exists (w_uuids w); split; [lia|done]|]. eapply list.Forall_impl; [exact Hids|].
      intros y. apply drawn_mono; lia.
    + constructor; [|done]. rewrite Hk. rewrite Forall_elem in Hm. exact (Hm _ (dict_get_in _ _ _ Hc)).
  - intros [Hfor (gs & Hs & Hf) Hids Hcodes]%IH. split; [done| |done..]. exists gs. split; [by apply sublist_cons|done].
Qed.

Lemma create_new_links_made groups o g ttl w ls w' :
  create_new_links bcfg groups o g ttl w = (Ok ls, w') →
  Links_made (w_now w) o g ttl groups (w_uuids w) (w_uuids w') ls.
Proof.
  rewrite /create_new_links. destruct groups as [|x groups].
  { intros [= <- <-]. apply Links_made_nil. }
  intros (m & w1 & [= Hm <-] & Hb)%bind_ok_inv. apply first_codes_match in Hm.
  apply bind_ok_inv in Hb as (resolved & w2 & Hr & Hb).
  assert (Steady (resolve_collisions bcfg m (x :: groups) : M (World C) exn _)) as Hst
    by (rewrite /resolve_collisions; apply _).
  destruct (Hst w) as (_ & _ & Hn & Hu). rewrite Hr in Hn, Hu. simpl in Hn, Hu.
  apply build_links_made in Hb.
  - rewrite Hn in Hb. by eapply Links_made_mono; [..|exact Hb].
  - by eapply resolve_rounds_matches; [..|exact Hr].
Qed.

Definition allowance (now : Z) (guest : option pystr) (d : Database) : option Z :=
  (λ g, guest_allowance now g (guest_link_limit cfg) (guest_link_window_days cfg) (urls d)) <$> guest.

Lemma quota_length groups remaining allowed refused :
  (∀ n, remaining = Some n → 0 <= n) →
  apply_guest_quota cfg groups remaining = (allowed, refused) →
  ∀ n, remaining = Some n → len allowed <= n.
Proof.
  intros Hn. rewrite /apply_guest_quota. destruct remaining as [m|]; [|done].
  specialize (Hn m eq_refl). case_match; intros [= <- <-] n [= <-]; [lia|].
  rewrite /len length_take. lia.
Qed.

(** What one committed attempt leaves in the database. *)
Record stored_batch (d : Database) (now : Z) (owner : option OwnerID) (guest : option pystr)
    (ttl : Z) (groups : list UrlGroup) (n n' : nat) (saved : list Link) (d' : Database) : Prop := {
  sb_db : d' = set_urls (urls d ++ saved) d;
  sb_table : table_ok (urls d ++ saved);
  sb_made : Links_made now owner guest ttl groups n n' saved;
  sb_owners : Forall (λ l, owner_exists l (users d) = true) saved;
  sb_quota : ∀ k, allowance now guest d = Some k → len saved <= k;
}.

Lemma set_urls_same d : set_urls (urls d ++ []) d = d.
Proof. rewrite app_nil_r. by destruct d. Qed.

Lemma stored_nothing d now owner guest ttl groups n n' :
  table_ok (urls d) → stored_batch d now owner guest ttl groups n n' [] d.
Proof.
  intros Hok. split; [by rewrite set_urls_same|by rewrite app_nil_r|apply Links_made_nil|constructor|].
  rewrite /allowance. intros k (g & _ & ->)%fmap_Some. rewrite /guest_allowance /links_left_for_guest.
  rewrite /len /=. lia.
Qed.

Lemma stored_batch_mono d now owner guest ttl groups n1 n1' n2 n2' saved d' :
  (n2 <= n1)%nat → (n1' <= n2')%nat →
  stored_batch d now owner guest ttl groups n1 n1' saved d' →
  stored_batch d now owner guest ttl groups n2 n2' saved d'.
Proof. intros Hle Hle' [? ? Hm ? ?]. split; [done..| |done|done]. by eapply Links_made_mono. Qed.

Lemma save_links_ok ls d ls' d' : table_ok (urls d) → save_links ls d = Ok (ls', d') →
  ls' = ls ∧ d' = set_urls (urls d ++ ls) d ∧ table_ok (urls d ++ ls) ∧
  Forall (λ l, owner_exists l (users d) = true) ls.
Proof.
  intros Hok. rewrite /save_links. intros (t & Ht & Hs)%result_bind_ok.
  apply repo_save_many_ok in Ht as [Ht ->]; [|done]. destruct (forallb _ ls) eqn:Ho; [|done].
  injection Hs as <- <-. split_and!; [done..|]. rewrite Forall_elem. intros l Hl.
  rewrite forallb_forall in Ho. apply Ho. by apply list_elem_of_In.
Qed.

Definition attempt_outcome (owner : option OwnerID) (guest : option pystr) (ttl : Z) w
    (r : result exn Attempt) w' : Prop :=
  w_txn w' = w_txn w ∧ w_now w' = w_now w ∧ (w_uuids w <= w_uuids w')%nat ∧
  match r with
  | Ok a => stored_batch (w_db w) (w_now w) owner guest ttl (at_to_create a)
              (w_uuids w) (w_uuids w') (at_saved a) (w_db w')
  | Err _ => w_db w' = w_db w
  end.

Lemma wp_audits {A} (f : A → audit_event) (l : list A) (Q : result exn unit → World C → Prop) w :
  (∀ w', w_db w' = w_db w → w_now w' = w_now w → w_uuids w' = w_uuids w → Q (Ok tt) w') →
  wp (for_each (λ x, audit (f x)) l) Q w.
Proof.
  revert w. induction l as [|x l IH]; intros w HQ; simpl; [by apply HQ|].
  wp_step. wp_step. apply IH. intros w' Hd Hn Hu. by apply HQ.
Qed.

Lemma commit_and_audit fetched allowed refused saved owner guest ttl w w3 d' :
  w_txn w3 = Some (MkTxn d' false) → w_now w3 = w_now w → (w_uuids w <= w_uuids w3)%nat →
  stored_batch (w_db w) (w_now w) owner guest ttl allowed (w_uuids w) (w_uuids w3) saved d' →
  wp (commit;;
      match saved with
      | [] => mret tt
      | _ => batch_id ← fresh_uuid;
             for_each (λ l, audit (UrlCreated (sc_value (link_short_code l))
                              (ou_value (link_original_url l)) (Some batch_id))) saved
      end;;
      mret (MkAttempt fetched allowed refused saved))
    (λ r w', attempt_outcome owner guest ttl w r (set_txn (w_txn w) w')) w3.
Proof.
  intros Ht Hn Hu Hst. wp_step. eapply wp_commit; [exact Ht|]. wp_step.
  assert (∀ w4, w_db w4 = d' → w_now w4 = w_now w → (w_uuids w3 <= w_uuids w4)%nat →
    wp (mret (MkAttempt fetched allowed refused saved))
      (λ r w', attempt_outcome owner guest ttl w r (set_txn (w_txn w) w')) w4) as Hret.
  { intros w4 Hd4 Hn4 Hu4. wp_step. split_and!; simpl; [done..|lia|]. rewrite Hd4.
    by eapply stored_batch_mono; [..|exact Hst]. }
  destruct saved as [|l ls]; [wp_step; by apply Hret|]. wp_step. wp_step.
  apply wp_audits. intros w4 Hd4 Hn4 Hu4. apply Hret; simpl in *; [congruence..|lia].
Qed.

Lemma look_up_and_create_spec groups scope owner guest ttl w : table_ok (urls (w_db w)) →
  wp (look_up_and_create cfg bcfg groups scope owner guest ttl)
    (attempt_outcome owner guest ttl w) w.
Proof.
  intros Hok. rewrite /look_up_and_create. wp_step. wp_step.
  apply wp_steady; [apply _|]. intros [[[fetched to_create] ls]|e] w1 _ Hd1 Ht1 Hn1 Hu1;
    simpl in Hd1, Ht1, Hn1, Hu1; [|done].
  wp_step. apply wp_steady; [steady|].
  intros [remaining|e] w2 Hrem Hd2 Ht2 Hn2 Hu2; [|by split_and!; simpl; (congruence || lia)].
  assert (remaining = allowance (w_now w) guest (w_db w)) as ->.
  { revert Hrem. rewrite /allowance. destruct guest as [g|]; [|by intros [= <- _]].
    rewrite /mbind /M_bind /now_utc /gets /read Ht1 Hn1. by intros [= <- _]. }
  destruct (apply_guest_quota cfg to_create (allowance (w_now w) guest (w_db w)))
    as [allowed refused] eqn:Hq.
  assert (∀ n, allowance (w_now w) guest (w_db w) = Some n → 0 <= n) as Hpos.
  { rewrite /allowance /guest_allowance /links_left_for_guest. intros n (g & _ & ->)%fmap_Some. lia. }
  pose proof (quota_length _ _ _ _ Hpos Hq) as Hlen.
  wp_step. apply wp_steady; [apply _|].
  intros [new_links|e] w3 Hnew Hd3 Ht3 Hn3 Hu3; [|by split_and!; simpl; (congruence || lia)].
  apply create_new_links_made in Hnew as Hmade. rewrite Hn2 Hn1 in Hmade.
  apply (Links_made_mono _ _ _ _ _ _ _ (w_uuids w) (w_uuids w3)) in Hmade; [|lia..].
  assert (w_txn w3 = Some (MkTxn (w_db w) false)) as Ht by congruence.
  wp_step. destruct new_links as [|l0 ls0].
  - wp_step. eapply wp_mono; [apply (commit_and_audit fetched allowed refused [] owner guest ttl w _ (w_db w))|];
      [done|congruence|lia|by apply stored_nothing|]. by intros r w' Hr.
  - eapply wp_update; [exact Ht|]. cbn [tx_work tx_committed].
    destruct (save_links (l0 :: ls0) (w_db w)) as [[saved d']|e] eqn:Hs;
      [|by split_and!; simpl; (congruence || lia)].
    apply save_links_ok in Hs as (-> & -> & Hok' & Hown); [|done].
    eapply wp_mono; [apply (commit_and_audit fetched allowed refused (l0 :: ls0) owner guest ttl w _
      (set_urls (urls (w_db w) ++ l0 :: ls0) (w_db w)))|];
      [done|simpl; congruence|simpl; lia| |by intros r w' Hr].
    split; [done..|]. intros n Hn. specialize (Hlen n Hn).
    pose proof (made_of_length _ _ (lm_of _ _ _ _ _ _ _ _ Hmade)). rewrite /len in Hlen |- *. lia.
Qed.

Lemma retry_batch_spec n groups scope owner guest ttl w : table_ok (urls (w_db w)) →
  wp (retry_batch n (look_up_and_create cfg bcfg groups scope owner guest ttl))
    (attempt_outcome owner guest ttl w) w.
Proof.
  revert w. induction n as [|n IH]; intros w Hok; simpl; [by wp_step|].
  apply wp_try. eapply wp_mono; [by apply look_up_and_create_spec|].
  intros [a|e] w1 Hout; [done|]. destruct Hout as (Ht & Hn & Hu & Hd).
  case_decide; [|by wp_step]. eapply wp_mono; [apply IH; by rewrite Hd|].
  intros r w2 (Ht2 & Hn2 & Hu2 & Hr). rewrite Hd Hn in Hr. split_and!; [congruence..|lia|].
  destruct r; [by eapply stored_batch_mono; [..|exact Hr]|congruence].
Qed.

(** *** The answer and the table *)

Lemma serve_groups_spec found fc groups items missing ls :
  serve_groups cfg found fc groups = Ok (items, missing, ls) →
  missing `sublist_of` groups ∧ Forall (λ i, bi_is_new i = false) items.
Proof.
  revert items missing ls. induction groups as [|g groups IH]; intros items missing ls; simpl.
  { by intros [= <- <- <-]. }
  destruct (found (ug_hash g)) as [l|].
  - intros (its & His & Hr)%result_bind_ok. apply result_bind_ok in Hr as ([[rest ms] fs] & Hr & [= <- <- <-]).
    apply IH in Hr as [Hs Hf]. split; [by apply sublist_cons|]. apply Forall_app. split; [|done].
    eapply map_ok_Forall; [|exact His]. by intros u i [? _]%success_new.
  - intros ([[rest ms] fs] & Hr & [= <- <- <-])%result_bind_ok. apply IH in Hr as [Hs Hf].
    split; [by apply sublist_skip|done].
Qed.

Lemma fetch_groups groups scope :
  yields (fetch cfg groups scope : M (World C) exn _)
    (λ r, r.1.2 `sublist_of` groups ∧ Forall (λ i, bi_is_new i = false) r.1.1).
Proof.
  rewrite /fetch. destruct groups as [|g0 gs]; [by apply yields_ret|].
  set (groups := g0 :: gs). do 3 (eapply yields_bind; [apply yields_any|intros ? _]).
  eapply yields_bind; [apply yields_lift; intros ? Hs; exact Hs|].
  intros [[cache_results missing] ls] [Hs Hc]%serve_groups_spec.
  destruct missing as [|m ms]; [by apply yields_ret|].
  eapply yields_bind; [apply yields_any|intros ? _].
  eapply yields_bind; [apply yields_lift; intros ? Hs'; exact Hs'|].
  intros [[db_results to_create] ls'] [Hs' Hd]%serve_groups_spec. apply yields_ret. simpl.
  split; [by etrans|by apply Forall_app].
Qed.

Lemma error_not_new (us : list pystr) (rf : pystr → Refusal) :
  Forall (λ i, bi_is_new i = false) ((λ u, error_ u (rf u)) <$> us).
Proof. apply Forall_fmap, Forall_true. done. Qed.

Lemma quota_groups groups remaining allowed refused :
  apply_guest_quota cfg groups remaining = (allowed, refused) →
  allowed `sublist_of` groups ∧ Forall (λ i, bi_is_new i = false) refused.
Proof.
  rewrite /apply_guest_quota. destruct remaining as [n|]; [|by intros [= <- <-]].
  case_match; intros [= <- <-]; [done|]. split; [apply sublist_take|by apply error_not_new].
Qed.

Lemma attempt_groups groups scope owner guest ttl :
  yields (look_up_and_create cfg bcfg groups scope owner guest ttl : M (World C) exn _)
    (λ a, at_to_create a `sublist_of` groups ∧ reported (at_fetched a) = [] ∧
          reported (at_quota_results a) = []).
Proof.
  apply yields_uow. eapply yields_bind; [apply fetch_groups|].
  intros [[fetched to_create] ls] [Hs Hf]. simpl in Hs, Hf.
  eapply yields_bind; [apply yields_any|intros remaining _].
  destruct (apply_guest_quota cfg to_create remaining) as [allowed refused] eqn:Hq.
  apply quota_groups in Hq as [Hs' Hr]. do 4 (eapply yields_bind; [apply yields_any|intros ? _]).
  apply yields_ret. simpl. split_and!; [by etrans|by apply reported_none..].
Qed.

(** A group starts with an address that reads as its destination and digest. *)
Definition headed (g : UrlGroup) : Prop :=
  ∃ url rest, ug_urls g = url :: rest ∧ read_url cfg url = Ok (ug_original_url g, ug_hash g).

Lemma add_to_group_headed h u url groups : read_url cfg url = Ok (u, h) →
  Forall headed groups → Forall headed (add_to_group h u url groups).
Proof.
  intros Hr. induction 1 as [|g groups Hg Hgs IH]; simpl.
  - repeat constructor. by exists url, [].
  - case_decide; constructor; try done. destruct Hg as (x & rest & Hx & Hrd).
    exists x, (rest ++ [url]). simpl. by rewrite Hx.
Qed.

Lemma group_from_headed groups rejected urls groups' rejected' : Forall headed groups →
  group_from cfg groups rejected urls = Ok (groups', rejected') → Forall headed groups'.
Proof.
  revert groups rejected. induction urls as [|url urls IH]; intros groups rejected Hh; simpl.
  - by intros [= <- <-].
  - destruct (read_url cfg url) as [[u h]|e] eqn:Hr; [apply IH; by apply add_to_group_headed|].
    case_match; [by apply IH|done].
Qed.

Lemma success_ok url l new cached dup i :
  base_url cfg ≠ [] → code_matches (sc_value (link_short_code l)) = true →
  ∃ r, success_ url l (base_url cfg) new cached dup i = Ok r.
Proof.
  intros Hb Hm. rewrite /success_ /build_short_url bool_decide_eq_false_2 //.
  rewrite bool_decide_eq_false_2; [by eexists|]. by intros Heq; rewrite Heq in Hm.
Qed.

Lemma map_ok_total {A B} (f : A → result exn B) l : (∀ x, ∃ y, f x = Ok y) → ∃ ys, map_ok f l = Ok ys.
Proof.
  intros Hf. induction l as [|x l [ys IH]]; [by eexists|]. destruct (Hf x) as [y Hy]. simpl.
  rewrite Hy /= IH. by eexists.
Qed.

Lemma build_group_spec g o :
  base_url cfg ≠ [] → headed g → (∀ l, o = Some l → code_matches (sc_value (link_short_code l)) = true) →
  ∃ items, build_group cfg g o = Ok items ∧ reported items = as_reported <$> option_list o.
Proof.
  intros Hb (url & rest & Hu & _) Hm. rewrite /build_group. destruct o as [l|].
  - rewrite Hu. specialize (Hm l eq_refl).
    destruct (success_ok url l true false None (Some (link_id l)) Hb Hm) as [i Hi].
    destruct (map_ok_total (λ url, success_ url l (base_url cfg) false false
      (Some (ou_value (link_original_url l))) None) rest) as [items His];
      [intros u; by apply success_ok|].
    rewrite Hi /= His /=. eexists. split; [done|]. apply success_new in Hi as [Hn Hr].
    rewrite (reported_app [i] items) (reported_none items); [by rewrite /reported /= Hn /= Hr|].
    eapply map_ok_Forall; [|exact His]. by intros x y [? _]%success_new.
  - eexists. split; [done|]. rewrite reported_none //. apply error_not_new.
Qed.

(** With a base address and well-formed codes the builder never fails, and
    calls new exactly the links of its groups. *)
Lemma build_spec groups saved :
  base_url cfg ≠ [] → Forall headed groups →
  (∀ l, l ∈ saved → code_matches (sc_value (link_short_code l)) = true) →
  ∃ items, build_from_new_links cfg groups saved = Ok items ∧
    reported items = as_reported <$> omap (λ g, saved_for saved (ug_hash g)) groups.
Proof.
  intros Hb Hh Hm. induction Hh as [|g groups Hg _ (rest & IH & Hr)]; [by eexists|]. simpl.
  destruct (build_group_spec g (saved_for saved (ug_hash g)) Hb Hg) as (items & Hi & Hri).
  { intros l Hl. apply Hm. revert Hl. rewrite /saved_for.
    destruct (reverse _) as [|x xs] eqn:E; [done|]. intros [= ->].
    assert (l ∈ reverse (filter (λ l, link_url_hash l = ug_hash g) saved)) as Hin
      by (rewrite E; apply elem_of_cons; by left).
    by rewrite elem_of_reverse list_elem_of_filter in Hin; destruct Hin. }
  rewrite Hi /= IH /=. eexists. split; [done|]. rewrite reported_app Hri Hr.
  by destruct (saved_for saved (ug_hash g)).
Qed.

(** The time to live a batch gives its links. *)
Definition batch_ttl (guest : option pystr) : Z :=
  match guest with Some _ => default_guest_ttl_seconds cfg | None => 0 end.

(** A link of one of the submitted addresses. *)
Definition of_submitted (urls : list pystr) (l : Link) : Prop :=
  ∃ url, url ∈ urls ∧ read_url cfg url = Ok (link_original_url l, link_url_hash l).

Definition batch_outcome (urls : list pystr) (context : RequestContext) w
    (r : result exn BatchCreateResponse) w' : Prop :=
  match r with
  | Err _ => w_db w' = w_db w
  | Ok resp => ∃ owner groups saved,
      stored_batch (w_db w) (w_now w) owner (guest_of context) (batch_ttl (guest_of context)) groups
        (w_uuids w) (w_uuids w') saved (w_db w') ∧
      (saved ≠ [] → owner_of context = Ok owner) ∧
      reported (bc_items resp) = as_reported <$> saved ∧ Forall (of_submitted urls) saved
  end.

Lemma outcome_of_nothing urls context w resp w' : table_ok (Database.urls (w_db w)) →
  w_db w' = w_db w → reported (bc_items resp) = [] → batch_outcome urls context w (Ok resp) w'.
Proof.
  intros Hok Hd Hr. exists None, [], []. rewrite Hd. split_and!; [by apply stored_nothing|done..|constructor].
Qed.
Lemma count_guest_batch now g days t saved :
  count_guest_links_by_identifier now g days (t ++ saved) <=
  count_guest_links_by_identifier now g days t + len saved.
Proof.
  rewrite /count_guest_links_by_identifier count_where_app /len.
  assert (count_where (guest_link_since g (now - days * DAY)) saved <= length saved)%nat
    by apply length_filter. lia.
Qed.
End stores.

(** ** Settling the codes ends *)

Section rounds.
Context {C Stats : Type} `{ServiceCache C Stats} `{UrlRules} `{CodeGenerator}
        `{HashCalculator} `{CaseFolding} `{WordChars} `{UuidSupply}.
Context (bcfg : BatchSettings).
Implicit Types (w : World C) (st : Resolution) (cands : list (UrlHash * ShortCode)).
Abbreviation tries := (creator_max_attempts bcfg * 2)%nat.

Lemma bind_ext {S E A B} (p : M S E A) (k k' : A → M S E B) s :
  (∀ a s', p s = (Ok a, s') → k a s' = k' a s') → (p ≫= k) s = (p ≫= k') s.
Proof. intros Hk. rewrite /mbind /M_bind. destruct (p s) as [[a|e] s']; [by apply Hk|done]. Qed.

(** What a round does to the ledger: whoever is asked again has used up one
    more attempt, and is still entitled to it. *)
Definition round_spec cands st st' : Prop :=
  NoDup (rs_next st').*1 ∧
  (∀ h, h ∉ cands.*1 → rs_attempts st' h = rs_attempts st h) ∧
  ∀ h, h ∈ (rs_next st').*1 → h ∈ (rs_next st).*1 ∨
    h ∈ cands.*1 ∧ rs_attempts st' h = S (rs_attempts st h) ∧ (S (rs_attempts st h) <= tries)%nat.

Lemma resolve_round_spec url_of cands st w st' w' :
  NoDup ((rs_next st).*1 ++ cands.*1) →
  resolve_round bcfg url_of cands st w = (Ok st', w') → round_spec cands st st'.
Proof.
  revert st w. induction cands as [|[h c] cands IH]; intros st w Hnd; simpl.
  { intros [= <- _]. rewrite app_nil_r in Hnd. split; [done|]. split; [done|]. by left. }
  rewrite fmap_cons in Hnd. simpl in Hnd.
  pose proof Hnd as (Hn1 & Hdis & [Hh Hn2]%list.NoDup_cons)%list.NoDup_app.
  assert (NoDup ((rs_next st).*1 ++ cands.*1)) as Hnd'.
  { apply list.NoDup_app. split; [done|]. split; [set_solver|done]. }
  assert (h ∉ (rs_next st).*1) as Hnext by set_solver.
  case_decide as Hoc; [case_decide as Hgive|].
  - intros (K1 & K2 & K3)%IH; [|done]. split; [done|]. simpl in *. split.
    + intros h' Hh'. rewrite K2; [|set_solver]. rewrite decide_False //. set_solver.
    + intros h' Hin. destruct (K3 h' Hin) as [?|(Hc & Ha & Hle)]; [by left|right].
      rewrite decide_False in Ha, Hle; [|set_solver..]. split; [set_solver|done].
  - destruct (url_of h) as [u|]; [|done]. intros (c' & w1 & _ & Hr)%bind_ok_inv. revert Hr.
    intros (K1 & K2 & K3)%IH; simpl in *; last first.
    { rewrite fmap_app /= -app_assoc. exact Hnd. }
    split; [done|]. split.
    + intros h' Hh'. rewrite K2; [|set_solver]. rewrite decide_False //. set_solver.
    + intros h' Hin. destruct (K3 h' Hin) as [Hold|(Hc & Ha & Hle)].
      * rewrite fmap_app elem_of_app /= list_elem_of_singleton in Hold.
        destruct Hold as [?| ->]; [by left|right]. split; [set_solver|].
        rewrite K2 // decide_True //. split; [done|lia].
      * right. rewrite decide_False in Ha, Hle; [|set_solver..]. split; [set_solver|done].
  - intros (K1 & K2 & K3)%IH; [|done]. split; [done|]. simpl in *. split.
    + intros h' Hh'. apply K2. set_solver.
    + intros h' Hin. destruct (K3 h' Hin) as [?|(Hc & Ha & Hle)]; [by left|right].
      split; [set_solver|done].
Qed.

(** Fuel for the attempts that are left is enough: more changes nothing. *)
Lemma resolve_rounds_fuel url_of fuel extra st w :
  NoDup (rs_next st).*1 →
  (∀ h, h ∈ (rs_next st).*1 → (rs_attempts st h <= tries)%nat ∧
                               (tries < rs_attempts st h + fuel)%nat) →
  resolve_rounds bcfg (fuel + extra) url_of st w = resolve_rounds bcfg fuel url_of st w.
Proof.
  revert st w. induction fuel as [|fuel IH]; intros st w Hnd Hb.
  - destruct (rs_next st) as [|[h c] l] eqn:E.
    + destruct extra; simpl; by rewrite E.
    + destruct (Hb h) as [? ?]; [rewrite /= elem_of_cons; by left|lia].
  - cbn [Nat.add resolve_rounds]. destruct (rs_next st) as [|[h0 c0] l] eqn:E; [done|].
    set (cands := (h0, c0) :: l) in *. apply bind_ext. intros stored w1 _.
    apply bind_ext. intros st' w2 Hr.
    apply resolve_round_spec in Hr as (K1 & K2 & K3); [|exact Hnd]. apply IH; [done|].
    intros h Hin. destruct (K3 h Hin) as [Hold|(Hc & Ha & Hle)]; [by apply elem_of_nil in Hold|].
    simpl in Ha, Hle. destruct (Hb h Hc). lia.
Qed.

Lemma resolve_collisions_fuel m groups extra w : NoDup m.*1 →
  resolve_rounds bcfg (2 * creator_max_attempts bcfg + 2 + extra) (url_of_group groups)
    (MkResolution [] (λ _, 0%nat) [] m) w = resolve_collisions bcfg m groups w.
Proof. intros Hnd. apply resolve_rounds_fuel; [done|]. simpl. intros h _. lia. Qed.

(** The groups of a batch have distinct digests. *)
Definition digests (groups : list UrlGroup) : list pystr := uh_value ∘ ug_hash <$> groups.

Lemma add_to_group_digests h u url groups :
  digests (add_to_group h u url groups) =
    if decide (uh_value h ∈ digests groups) then digests groups else digests groups ++ [uh_value h].
Proof.
  induction groups as [|g groups IH]; [done|]. rewrite /digests. cbn [add_to_group].
  destruct (decide (uh_value (ug_hash g) = uh_value h)) as [E|E].
  - rewrite decide_True; [done|]. simpl. rewrite E. apply elem_of_cons. by left.
  - rewrite !fmap_cons. fold (digests (add_to_group h u url groups)) (digests groups). rewrite IH.
    destruct (decide (uh_value h ∈ digests groups)).
    + rewrite decide_True; [done|]. apply elem_of_cons. by right.
    + rewrite decide_False; [done|]. rewrite elem_of_cons. simpl. intros [?|?]; [by apply E|done].
Qed.

Lemma group_from_digests cfg groups rejected urls groups' rejected' : NoDup (digests groups) →
  group_from cfg groups rejected urls = Ok (groups', rejected') → NoDup (digests groups').
Proof.
  revert groups rejected. induction urls as [|url urls IH]; intros groups rejected Hnd; simpl.
  - by intros [= <- <-].
  - destruct (read_url cfg url) as [[u h]|e].
    + apply IH. rewrite add_to_group_digests. case_decide as Hin; [done|].
      apply list.NoDup_app. split; [done|]. split; [|apply NoDup_singleton].
      intros x Hx ->%list_elem_of_singleton. done.
    + case_match; [by apply IH|done].
Qed.

Lemma first_codes_keys groups m : first_codes groups = Ok m → m.*1 = ug_hash <$> groups.
Proof.
  intros Hm%map_ok_spec. induction Hm as [|g e groups m He _ IH]; [done|].
  rewrite !fmap_cons IH. f_equal. by apply result_bind_ok in He as (c & _ & [= <-]).
Qed.
End rounds.

(** ** A batch and its answer *)

Section outcome.
Context {C Stats : Type} `{ServiceCache C Stats} `{UrlRules} `{CodeGenerator} `{!GeneratorLaws}
        `{HashCalculator} `{CaseFolding} `{WordChars} `{UuidSupply}.
Context (cfg : LinkSettings) (bcfg : BatchSettings).
Implicit Types (w : World C).

Lemma distinct_hashes groups : NoDup (digests groups) → NoDup (ug_hash <$> groups).
Proof. intros Hnd. apply (NoDup_fmap_1 uh_value). by rewrite -list_fmap_compose. Qed.

Lemma group_spec urls groups rejected : group cfg urls = Ok (groups, rejected) →
  NoDup (ug_hash <$> groups) ∧ Forall (headed cfg) groups ∧ ∀ url, url ∈ urls_of groups → url ∈ urls.
Proof.
  intros Hg. split_and!.
  - apply distinct_hashes. eapply group_from_digests; [|exact Hg]. constructor.
  - eapply group_from_headed; [|exact Hg]. constructor.
  - apply group_from_urls in Hg. simpl in Hg. intros url Hu. rewrite -Hg. apply elem_of_app. by left.
Qed.

Lemma submitted_of urls groups gs saved :
  Forall (headed cfg) groups → (∀ url, url ∈ urls_of groups → url ∈ urls) →
  gs `sublist_of` groups → made_of gs saved → Forall (of_submitted cfg urls) saved.
Proof.
  intros Hh Hin Hs Hm. rewrite Forall_elem. intros l Hl.
  destruct (made_of_group _ _ _ Hm Hl) as (g & Hg & Hlh & Hlo).
  apply (fun H => elem_of_sublist _ _ _ H Hs) in Hg.
  rewrite Forall_elem in Hh. destruct (Hh g Hg) as (url & rest & Hu & Hr).
  exists url. rewrite Hlh Hlo. split; [|done]. apply Hin. rewrite /urls_of list_elem_of_bind.
  exists g. split; [rewrite Hu; apply elem_of_cons; by left|done].
Qed.

Lemma yields_batch_groups n groups scope owner guest ttl :
  yields (retry_batch n (look_up_and_create cfg bcfg groups scope owner guest ttl) : M (World C) exn _)
    (λ a, at_to_create a `sublist_of` groups ∧ reported (at_fetched a) = [] ∧
          reported (at_quota_results a) = []).
Proof. apply yields_retry, attempt_groups. Qed.

Lemma batch_stores urls context w : base_url cfg ≠ [] → table_ok (Database.urls (w_db w)) →
  wp (batch_create_links cfg bcfg urls context)
    (λ r w', batch_outcome cfg urls context w r w' ∧ w_txn w' = w_txn w ∧ w_now w' = w_now w ∧
             (w_uuids w <= w_uuids w')%nat) w.
Proof.
  intros Hb Hok. rewrite /batch_create_links.
  destruct urls as [|u us]; [wp_step; split; [by apply outcome_of_nothing|done]|].
  case_match; [by wp_step|]. wp_step. wp_step.
  destruct (group cfg (u :: us)) as [[groups rejected]|e] eqn:Hg; [|done].
  apply group_spec in Hg as (Hnd & Hh & Hsub).
  assert (reported ((λ r, error_ (rj_url r) (rj_refusal r)) <$> rejected) = []) as Hrej.
  { apply reported_none, Forall_fmap, Forall_true. done. }
  destruct groups as [|g gs]; [wp_step; split; [by apply outcome_of_nothing|done]|].
  wp_step. wp_step. destruct (owner_of context) as [owner|e] eqn:Ho; [|done].
  wp_step. eapply wp_mono; [apply wp_yields; [apply yields_batch_groups|by apply retry_batch_spec]|].
  intros [a|e] w1 ((Ht & Hn & Hu & Hst) & Hy); [|done].
  destruct (Hy a eq_refl) as (Hs & Hf & Hq).
  apply wp_bind, wp_steady; [destruct (bool_decide (at_saved a = [])); apply _|]. intros r w2 Hr Hd2 Ht2 Hn2 Hu2.
  assert (r = Ok tt) as ->.
  { revert Hr. destruct (bool_decide (at_saved a = [])); by intros [= <- _]. }
  destruct (_ && bool_decide (_ <$> rejected = [])) eqn:Hraise.
  - wp_step. split_and!; [|congruence..|lia]. reflect_bools. destruct Hst as [Hdb _ _ _ _].
    rewrite /batch_outcome Hd2 Hdb. rewrite (_ : at_saved a = []); [apply set_urls_same|done].
  - destruct (build_spec cfg (at_to_create a) (at_saved a) Hb) as (items & Hi & Hrep).
    { rewrite !Forall_elem in Hh |- *. intros x Hx. apply Hh. by eapply elem_of_sublist. }
    { destruct Hst as [_ _ [_ _ _ Hcs] _ _]. by rewrite Forall_elem in Hcs. }
    wp_step. wp_step. rewrite Hi. wp_step. split_and!; [|congruence..|lia].
    exists owner, (at_to_create a), (at_saved a). rewrite Hd2.
    split; [by eapply stored_batch_mono; [..|exact Hst]|]. split; [done|].
    destruct Hst as [_ _ [_ Hof _ _] _ _]. split.
    + simpl. rewrite !reported_app Hf Hq Hrej !app_nil_r Hrep saved_for_groups //.
      eapply sublist_NoDup; [exact Hnd|]. by apply fmap_sublist_of.
    + by eapply submitted_of.
Qed.
End outcome.

(** ** A batch and the caches *)

(** A program that at most forgets what the caches hold. *)
Section tidy.
Context {C Stats : Type} `{CacheLaws C Stats}.
Implicit Types (w : World C).

Class Tidy {A} (p : M (World C) exn A) : Prop :=
  tidy : ∀ w, shrinks (w_cache w) (w_cache (p w).2).

#[global] Instance Tidy_ret {A} (a : A) : Tidy (mret a).
Proof. intros w. apply shrinks_refl. Qed.
#[global] Instance Tidy_raise {A} e : Tidy (A:=A) (raise e).
Proof. intros w. apply shrinks_refl. Qed.
#[global] Instance Tidy_lift {A} (r : result exn A) : Tidy (lift r).
Proof. intros w. apply shrinks_refl. Qed.
#[global] Instance Tidy_now : Tidy now_utc.
Proof. intros w. apply shrinks_refl. Qed.
#[global] Instance Tidy_audit e : Tidy (audit e).
Proof. intros w. apply shrinks_refl. Qed.
#[global] Instance Tidy_uuid `{UuidSupply} : Tidy fresh_uuid.
Proof. intros w. apply shrinks_refl. Qed.
#[global] Instance Tidy_read {A} (f : Database → A) : Tidy (read f).
Proof. intros w. rewrite /read. case_match; apply shrinks_refl. Qed.
#[global] Instance Tidy_update {A} (f : Database → result exn (A * Database)) : Tidy (update f).
Proof.
  intros w. rewrite /update. destruct (w_txn w) as [t|]; [|apply shrinks_refl].
  destruct (f (tx_work t)) as [[a d]|e]; apply shrinks_refl.
Qed.
#[global] Instance Tidy_commit : Tidy commit.
Proof. intros w. rewrite /commit. repeat case_match; apply shrinks_refl. Qed.
#[global] Instance Tidy_delete l : Tidy (on_cache (cache_delete l)).
Proof. intros w. apply delete_forgets. Qed.
#[global] Instance Tidy_delete_stats : Tidy (on_cache delete_stats).
Proof. intros w. apply delete_stats_shrinks. Qed.
#[global] Instance Tidy_get_by_hashes now hs scope : Tidy (with_cache (get_by_hashes now hs scope)).
Proof.
  intros w. rewrite /with_cache. destruct (get_by_hashes now hs scope (w_cache w)) as [r c] eqn:E.
  by apply get_by_hashes_spec in E.
Qed.
#[global] Instance Tidy_bind {A B} (p : M (World C) exn A) (k : A → M (World C) exn B) :
  Tidy p → (∀ a, Tidy (k a)) → Tidy (p ≫= k).
Proof.
  intros Hp Hk w. pose proof (Hp w) as Hw. rewrite /mbind /M_bind.
  destruct (p w) as [[a|e] w']; simpl in *; [|done]. eapply shrinks_trans; [done|apply Hk].
Qed.
#[global] Instance Tidy_for_each {A} (body : A → M (World C) exn unit) xs :
  (∀ x, Tidy (body x)) → Tidy (for_each body xs).
Proof. intros Hb. induction xs; simpl; apply _. Qed.
#[global] Instance Tidy_uow {A} (p : M (World C) exn A) : Tidy p → Tidy (with_uow p).
Proof.
  intros Hp w. rewrite /with_uow. pose proof (Hp (set_txn (Some (MkTxn (w_db w) false)) w)) as Hw.
  by destruct (p _).
Qed.
#[global] Instance Tidy_retry {A} n (p : M (World C) exn A) : Tidy p → Tidy (retry_batch n p).
Proof.
  intros Hp. induction n as [|n IH]; simpl; [apply _|]. intros w. rewrite /try_except.
  pose proof (Hp w) as Hw. destruct (p w) as [[a|e] w']; [done|]. simpl in Hw.
  case_decide; [|done]. eapply shrinks_trans; [done|apply IH].
Qed.

Ltac tidy := repeat first [apply _ | apply Tidy_bind; [apply _|intros] | case_match].

Context `{UrlRules} `{CodeGenerator} `{!GeneratorLaws} `{HashCalculator} `{CaseFolding}
        `{WordChars} `{UuidSupply} `{!Inj (=) (=) uuid4}.
Context (cfg : LinkSettings) (bcfg : BatchSettings).

#[local] Instance Tidy_confirm_each now scope stored cands :
  Tidy (confirm_each now scope stored cands).
Proof. induction cands as [|[h l] cands IH]; simpl; tidy. Qed.
#[local] Instance Tidy_batch_confirm m scope : Tidy (batch_confirm m scope).
Proof. rewrite /batch_confirm. tidy. Qed.
#[local] Instance Tidy_fetch groups scope : Tidy (fetch cfg groups scope).
Proof. rewrite /fetch. tidy. Qed.
#[local] Instance Tidy_another_code u n : Tidy (another_code bcfg u n).
Proof. rewrite /another_code. tidy. Qed.
#[local] Instance Tidy_resolve_round url_of cands st : Tidy (resolve_round bcfg url_of cands st).
Proof. revert st. induction cands as [|[h c] cands IH]; intros st; simpl; tidy. Qed.
#[local] Instance Tidy_resolve_rounds fuel url_of st : Tidy (resolve_rounds bcfg fuel url_of st).
Proof. revert st. induction fuel as [|fuel IH]; intros st; simpl; tidy. Qed.
#[local] Instance Tidy_build_links o g ttl resolved groups : Tidy (build_links o g ttl resolved groups).
Proof. induction groups as [|x groups IH]; simpl; tidy. Qed.
#[local] Instance Tidy_look_up groups scope owner guest ttl :
  Tidy (look_up_and_create cfg bcfg groups scope owner guest ttl).
Proof. rewrite /look_up_and_create /create_new_links /resolve_collisions. apply Tidy_uow. tidy. Qed.

Lemma Tidy_batch urls context : Tidy (batch_create_links cfg bcfg urls context).
Proof. rewrite /batch_create_links. tidy. Qed.

(** A batch keeps the invariant of the links. *)
Lemma batch_inv mine urls context w : base_url cfg ≠ [] → InvFor mine w →
  InvFor mine (batch_create_links cfg bcfg urls context w).2.
Proof.
  intros Hb [Hi Hok Hc Hf]. pose proof (Tidy_batch urls context w) as Hs.
  destruct (batch_stores cfg bcfg urls context w Hb (proj1 Hok)) as (Hout & Ht & _ & Hu).
  destruct (batch_create_links cfg bcfg urls context w) as [r w'].
  apply (coherent_shrinks _ _ _ _ Hs) in Hc. simpl in *. destruct r as [resp|e]; last first.
  { constructor; [congruence|by rewrite Hout..|]. rewrite Hout. by eapply uuids_fresh_later. }
  destruct Hout as (owner & groups & saved & [Hdb Htab [_ _ Hids Hcs] Hown _] & _).
  destruct Hok as (_ & Ho & Hv). rewrite !Forall_elem in Hids, Hcs, Hown.
  constructor; [congruence| | |]; rewrite Hdb.
  - split; [done|]. simpl. split.
    + intros l [Hl|Hl]%elem_of_app; [by apply Ho|auto].
    + intros v Hin%Hv. rewrite fmap_app. apply elem_of_app. by left.
  - eapply coherent_grow; [|done]. intros l Hl. simpl. apply elem_of_app. by left.
  - intros m l Hm [Hl|Hl]%elem_of_app; [apply Hf; [lia|done]|].
    destruct (Hids l Hl) as (m' & Hm' & ->). intros Heq%(inj uuid4). lia.
Qed.
End tidy.

(** * What is claimed of batches

    One verdict per submitted address, one transaction per batch, and an end
    to the search for free codes; with a batch of five addresses run against
    the small deployment of [Demo]. *)

Section claims.
Context {C Stats : Type} `{ServiceCache C Stats} `{UrlRules} `{CodeGenerator} `{!GeneratorLaws}
        `{HashCalculator} `{CaseFolding} `{WordChars} `{UuidSupply}.
Context (cfg : LinkSettings) (bcfg : BatchSettings).
Implicit Types (w : World C).

(** The answer to a batch holds exactly one verdict for every submitted
    address, repetitions included, and its totals add up: the total is the
    number of addresses, and every verdict is counted once, as a success or
    as a failure. *)
Theorem every_address_gets_one_verdict urls context w r w' :
  batch_create_links cfg bcfg urls context w = (Ok r, w') →
  (bi_url <$> bc_items r) ≡ₚ urls ∧ bc_total r = len urls ∧
  bc_successful r + bc_failed r = len urls ∧ 0 <= bc_successful r <= len urls.
Proof.
  intros Hr. apply batch_urls in Hr as [Hp [items ->]]. split; [done|]. simpl in *.
  assert (len items = len urls) as Hlen.
  { apply Permutation_length in Hp. rewrite length_fmap in Hp. rewrite /len. lia. }
  assert (0 <= count_if bi_success items <= len items) as Hc.
  { rewrite /count_if /len. pose proof (filter_length_le bi_success items). lia. }
  split_and!; lia.
Qed.

(** C8: a batch is one transaction, and its answer tells the truth about it.
    When it raises, retries included, no row of any table has changed.  When
    it answers, the links the answer calls new (by id, code, destination and
    expiry) are exactly, and in this order, the rows added to the table: none
    of them is missing and none was added besides.  Each is the link of one of
    the submitted addresses; codes and ids stay unique; every new link is the
    caller's, created now, unread and with the caller's time to live; and a
    guest's links of the window do not go past the limit on its account. *)
Theorem batch_is_one_transaction urls context w r w' :
  base_url cfg ≠ [] → table_ok (Database.urls (w_db w)) →
  batch_create_links cfg bcfg urls context w = (r, w') →
  match r with
  | Err _ => w_db w' = w_db w
  | Ok response => ∃ owner saved,
      w_db w' = set_urls (Database.urls (w_db w) ++ saved) (w_db w) ∧
      reported (bc_items response) = as_reported <$> saved ∧
      Forall (of_submitted cfg urls) saved ∧
      table_ok (Database.urls (w_db w')) ∧
      (saved ≠ [] → owner_of context = Ok owner) ∧
      Forall (made_for (w_now w) owner (guest_of context) (batch_ttl cfg (guest_of context))) saved ∧
      ∀ g, guest_of context = Some g →
        count_guest_links_by_identifier (w_now w) g (guest_link_window_days cfg) (Database.urls (w_db w'))
        <= Z.max (guest_link_limit cfg)
             (count_guest_links_by_identifier (w_now w) g (guest_link_window_days cfg)
                (Database.urls (w_db w)))
  end.
Proof.
  intros Hb Hok Hr. pose proof (batch_stores cfg bcfg urls context w Hb Hok) as Hs.
  apply (wp_elim _ _ _ _ _ Hs) in Hr as [Hout _]. destruct r as [resp|e]; [|done].
  destruct Hout as (owner & groups & saved & [Hd Ht Hm _ Hq] & Ho & Hrep & Hsub).
  exists owner, saved. rewrite Hd. split_and!; try done; [apply Hm|].
  intros g Hg. simpl. etrans; [apply count_guest_batch|].
  assert (allowance cfg (w_now w) (guest_of context) (w_db w) =
    Some (guest_allowance (w_now w) g (guest_link_limit cfg) (guest_link_window_days cfg)
            (Database.urls (w_db w)))) as Ha by (by rewrite /allowance Hg).
  specialize (Hq _ Ha). rewrite /guest_allowance /links_left_for_guest in Hq. lia.
Qed.

(** The search for free codes ends: for the digests of the groups of a
    batch, or of any part of them, the rounds the model allows are enough,
    and allowing more changes neither the answer nor the world. *)
Theorem settling_codes_ends urls groups rejected part m extra w :
  group cfg urls = Ok (groups, rejected) → part `sublist_of` groups → first_codes part = Ok m →
  resolve_rounds bcfg (2 * creator_max_attempts bcfg + 2 + extra) (url_of_group part)
    (MkResolution [] (λ _, 0%nat) [] m) w = resolve_collisions bcfg m part w.
Proof.
  intros Hg Hsub Hm. apply resolve_collisions_fuel. rewrite (first_codes_keys _ _ Hm).
  eapply sublist_NoDup; [|by apply fmap_sublist_of]. by eapply group_spec.
Qed.
End claims.

Module BatchDemo.
Import Demo.
#[local] Existing Instances Demo.folding Demo.words Demo.uuids Demo.url_rules
  Demo.generator Demo.calculator Demo.cache.

Definition batch_settings : BatchSettings := MkBatchSettings 100 5.
(** Two spellings of one address, an address inside the network, and two more
    addresses; the guest of [Demo] may create two links. *)
Definition submitted : list pystr :=
  lit <$> ["https://example.org/a"; "HTTPS://Example.org/a#x"; "http://127.1/"; "https://b.org";
           "https://c.org"]%string.

Definition outcome := batch_create_links link_settings batch_settings submitted Demo.guest (world empty_db).

Lemma outcome_ok : ∃ r, outcome.1 = Ok r ∧ bc_successful r = 3 ∧ bc_new_count r = 2.
Proof.
  destruct outcome as [o w] eqn:E. apply (f_equal fst) in E. vm_compute in E. subst o.
  eexists. split; [reflexivity|]. split; reflexivity.
Qed.

Lemma every_address_gets_one_verdict_witness :
  ∃ r, outcome.1 = Ok r ∧ bc_total r = 5 ∧ bc_successful r + bc_failed r = 5.
Proof.
  destruct outcome_ok as (r & Hr & _). exists r. split; [exact Hr|].
  destruct (every_address_gets_one_verdict link_settings batch_settings submitted Demo.guest (world empty_db)
    r outcome.2) as (_ & Ht & Hs & _); [unfold outcome in *; destruct (batch_create_links _ _ _ _ _); simpl in *; congruence|].
  split; [exact Ht|exact Hs].
Defined.

Lemma batch_is_one_transaction_witness : ∃ r saved, outcome.1 = Ok r ∧
  Database.urls (w_db outcome.2) = saved ∧ reported (bc_items r) = as_reported <$> saved ∧
  length saved = 2%nat.
Proof.
  destruct outcome_ok as (r & Hr & _). exists r.
  destruct (batch_is_one_transaction link_settings batch_settings submitted Demo.guest (world empty_db)
    (Ok r) outcome.2 ltac:(discriminate) table_ok_nil) as (owner & saved & Hd & Hrep & _);
    [rewrite -Hr; apply surjective_pairing|].
  exists saved. split; [exact Hr|]. rewrite Hd. split; [reflexivity|]. split; [exact Hrep|].
  apply (f_equal (λ d, length (Database.urls d))) in Hd. symmetry. revert Hd. vm_compute.
  intros <-. reflexivity.
Defined.

Lemma settling_codes_ends_witness :
  ∃ groups rejected m, group link_settings submitted = Ok (groups, rejected) ∧ first_codes groups = Ok m ∧
    resolve_rounds batch_settings 112 (url_of_group groups) (MkResolution [] (λ _, 0%nat) [] m)
      (world empty_db) = resolve_collisions batch_settings m groups (world empty_db).
Proof.
  destruct (group link_settings submitted) as [[groups rejected]|e] eqn:Hg; [|by vm_compute in Hg].
  destruct (first_codes groups) as [m|e] eqn:Hm.
  - exists groups, rejected, m. split; [done|]. split; [exact Hm|].
    exact (settling_codes_ends link_settings batch_settings submitted groups rejected groups m 100
      (world empty_db) Hg (reflexivity groups) Hm).
  - exfalso. revert Hm. assert (groups = match group link_settings submitted with Ok (g, _) => g | Err _ => [] end)
      as -> by (by rewrite Hg). vm_compute. discriminate.
Defined.
End BatchDemo.
