(* ===== verification/Sessions.v ===== *)
(** * Refresh sessions

    [sqlalchemy_refresh_session_repository.py] over the table
    [refresh_sessions], and the session methods of [jwt_auth_service.py]:
    opening a session, rotating its refresh token, ending its chain, with the
    use cases [auth/refresh_session.py] and [auth/sign_out.py] on top.

    A token's text is the business of PyJWT: [TokenCodec] is that library,
    with the claims the service writes and reads.  Rotation is a conditional
    UPDATE; [System] interleaves any number of concurrent refreshes statement
    by statement. *)

From S2P Require Import Prelude PyStr Exceptions ValueObjects Entities Policies Database.
From S2P Require Import LinkRepo UserRepo.

(** ** The repository *)

Definition has_token (token_id : pystr) (s : RefreshSession) : Prop := rs_token_id s = token_id.
Definition in_chain (chain_id : pystr) (s : RefreshSession) : Prop := rs_chain_id s = chain_id.
Definition unrevoked (s : RefreshSession) : Prop := rs_revoked_at s = None.

#[global] Instance has_token_dec t s : Decision (has_token t s).
Proof. unfold has_token. apply _. Defined.
#[global] Instance in_chain_dec t s : Decision (in_chain t s).
Proof. unfold in_chain. apply _. Defined.
#[global] Instance unrevoked_dec s : Decision (unrevoked s).
Proof. unfold unrevoked. apply _. Defined.

Definition find_by_token_id (token_id : pystr) (t : list RefreshSession)
    : option RefreshSession :=
  first (filter (has_token token_id) t).

(** [save]: one row per id; [token_id] is unique and [user_id] a foreign key. *)
Definition save_session (s : RefreshSession) (d : Database)
    : result exn (RefreshSession * Database) :=
  let t := refresh_sessions d in
  if decide (Exists (λ r, rs_id r ≠ rs_id s ∧ rs_token_id r = rs_token_id s) t)
  then Err (PyError IntegrityError)
  else if negb (bool_decide (rs_user_id s ∈ (um_id <$> users d)))
  then Err (PyError IntegrityError)
  else
    let t' := if decide (rs_id s ∈ (rs_id <$> t))
              then update_where (λ r, rs_id r = rs_id s) (λ _, s) t else t ++ [s] in
    Ok (s, set_refresh_sessions t' d).

Definition with_replacement (token_id : pystr) (s : RefreshSession) : RefreshSession :=
  {| rs_id := rs_id s; rs_user_id := rs_user_id s; rs_token_id := rs_token_id s;
     rs_chain_id := rs_chain_id s; rs_expires_at := rs_expires_at s;
     rs_created_at := rs_created_at s; rs_revoked_at := rs_revoked_at s;
     rs_replaced_by := Some token_id |}.

Definition with_revocation (now : Z) (s : RefreshSession) : RefreshSession :=
  {| rs_id := rs_id s; rs_user_id := rs_user_id s; rs_token_id := rs_token_id s;
     rs_chain_id := rs_chain_id s; rs_expires_at := rs_expires_at s;
     rs_created_at := rs_created_at s; rs_revoked_at := Some now;
     rs_replaced_by := rs_replaced_by s |}.

(** The WHERE clause of the rotation. *)
Definition rotatable (now : Z) (token_id : pystr) (s : RefreshSession) : Prop :=
  rs_token_id s = token_id ∧ rs_revoked_at s = None ∧ rs_replaced_by s = None ∧
  now < rs_expires_at s.
#[global] Instance rotatable_dec now t s : Decision (rotatable now t s).
Proof. unfold rotatable. apply _. Defined.

Definition claim_for_rotation (now : Z) (token_id replacement_token_id : pystr)
    (t : list RefreshSession) : bool * list RefreshSession :=
  (bool_decide (count_where (rotatable now token_id) t = 1%nat),
   update_where (rotatable now token_id) (with_replacement replacement_token_id) t).

Definition chain_live (now : Z) (chain_id : pystr) (s : RefreshSession) : Prop :=
  rs_chain_id s = chain_id ∧ rs_revoked_at s = None ∧ now < rs_expires_at s.
#[global] Instance chain_live_dec now t s : Decision (chain_live now t s).
Proof. unfold chain_live. apply _. Defined.

Definition chain_is_live (now : Z) (chain_id : pystr) (t : list RefreshSession) : bool :=
  bool_decide (is_Some (first (filter (chain_live now chain_id) t))).

Definition open_in_chain (chain_id : pystr) (s : RefreshSession) : Prop :=
  in_chain chain_id s ∧ unrevoked s.
#[global] Instance open_in_chain_dec t s : Decision (open_in_chain t s).
Proof. unfold open_in_chain. apply _. Defined.

Definition revoke_chain (now : Z) (chain_id : pystr) (t : list RefreshSession)
    : nat * list RefreshSession :=
  (count_where (open_in_chain chain_id) t,
   update_where (open_in_chain chain_id) (with_revocation now) t).

Definition open_of_user (user_id : pystr) (s : RefreshSession) : Prop :=
  rs_user_id s = user_id ∧ unrevoked s.
#[global] Instance open_of_user_dec t s : Decision (open_of_user t s).
Proof. unfold open_of_user. apply _. Defined.

Definition revoke_all_for_user (now : Z) (user_id : pystr) (t : list RefreshSession)
    : nat * list RefreshSession :=
  (count_where (open_of_user user_id) t,
   update_where (open_of_user user_id) (with_revocation now) t).

Definition delete_expired_sessions (now : Z) (t : list RefreshSession)
    : nat * list RefreshSession :=
  (count_where (λ s, rs_expires_at s < now) t, delete_where (λ s, rs_expires_at s < now) t).

(** A repository statement on the open unit of work. *)
Definition on_sessions {A} (f : list RefreshSession → A * list RefreshSession) (d : Database)
    : result exn (A * Database) :=
  let '(a, t) := f (refresh_sessions d) in Ok (a, set_refresh_sessions t d).

(** ** Tokens *)

Record claims := MkClaims {
  cl_sub : pystr;
  cl_email : pystr;
  cl_exp : Z;
  cl_iat : Z;
  cl_type : pystr;
  cl_jti : option pystr;
  cl_sid : option pystr;
}.

(** [jwt.encode] and [jwt.decode] under the service's key and algorithm, with
    [REQUIRED_CLAIMS]; [decode] answers [None] for every [PyJWTError]
    (signature, algorithm, expiry, a missing claim). *)
Class TokenCodec := MkTokenCodec {
  jwt_encode : claims → pystr;
  jwt_decode : Z → pystr → option claims;
}.

(** A time as PyJWT writes it: whole seconds. *)
Definition whole_second (t : Z) : Z := t / SECOND * SECOND.
Definition whole_seconds (c : claims) : claims :=
  {| cl_sub := cl_sub c; cl_email := cl_email c; cl_exp := whole_second (cl_exp c);
     cl_iat := whole_second (cl_iat c); cl_type := cl_type c; cl_jti := cl_jti c;
     cl_sid := cl_sid c |}.

(** What PyJWT documents: a token is a text; its times are kept in whole
    seconds; it reads back from the second it was issued in until the second
    it expires in, and no token reads once it has expired. *)
Class JwtLaws `{TokenCodec} : Prop := MkJwtLaws {
  jwt_text c : jwt_encode c ≠ [];
  jwt_reads_back now c : cl_iat (whole_seconds c) <= now < cl_exp (whole_seconds c) →
    jwt_decode now (jwt_encode c) = Some (whole_seconds c);
  jwt_expires now t c : jwt_decode now t = Some c → now < cl_exp c;
}.

Record JwtSettings := MkJwtSettings { access_expire : Z; refresh_expire : Z }.

Record RefreshedTokens := MkRefreshedTokens {
  access_token : pystr;
  refresh_token : pystr;
}.

Section jwt.
Context {C : Type} `{TokenCodec} `{CaseFolding} `{UuidSupply}.
Context (cfg : JwtSettings).
Abbreviation P := (M (World C) exn).

(** An empty [jti] or [sid] is left out. *)
Definition unless_empty (o : option pystr) : option pystr :=
  match o with Some [] => None | o => o end.

Definition create_token (now : Z) (user : User) (expires_delta : Z) (token_type : pystr)
    (token_id session_id : option pystr) : pystr :=
  jwt_encode {| cl_sub := user_id user; cl_email := em_value (user_email user);
                cl_exp := now + expires_delta; cl_iat := now; cl_type := token_type;
                cl_jti := unless_empty token_id; cl_sid := unless_empty session_id |}.

Definition ACCESS : pystr := lit "access".
Definition REFRESH : pystr := lit "refresh".

Definition create_access_token (now : Z) (user : User) (session_id : pystr) : pystr :=
  create_token now user (access_expire cfg) ACCESS None (Some session_id).

Definition session_tokens (now : Z) (user : User) (chain_id token_id : pystr) : RefreshedTokens :=
  {| access_token := create_access_token now user chain_id;
     refresh_token := create_token now user (refresh_expire cfg) REFRESH (Some token_id) None |}.

Definition create_session_tokens (user : User) : P RefreshedTokens :=
  now ← now_utc;
  token_id ← fresh_uuid;
  row_id ← fresh_uuid;
  let session := create_refresh_session now row_id (user_id user) token_id
                   (now + refresh_expire cfg) None in
  with_uow (update (save_session session) ;; commit);;
  mret (session_tokens now user (rs_chain_id session) token_id).

Definition validate_token (now : Z) (token : pystr) (expected_type : option pystr)
    : option claims :=
  match jwt_decode now token with
  | None => None
  | Some payload =>
      match expected_type with
      | Some t => if decide (cl_type payload = t) then Some payload else None
      | None => Some payload
      end
  end.

Definition revoke_session_chain (chain_id : pystr) : P nat :=
  now ← now_utc;
  with_uow (
    revoked ← update (on_sessions (revoke_chain now chain_id));
    commit;; mret revoked).

Definition revoke_refresh_token (token : pystr) : P bool :=
  now ← now_utc;
  match validate_token now token (Some REFRESH) with
  | None => mret false
  | Some payload =>
      match unless_empty (cl_jti payload) with
      | None => mret false
      | Some token_id =>
          with_uow (
            session ← read (λ d, find_by_token_id token_id (refresh_sessions d));
            match session with
            | None => mret false
            | Some s =>
                if decide (rs_user_id s ≠ cl_sub payload) then mret false
                else
                  revoked ← update (on_sessions (revoke_chain now (rs_chain_id s)));
                  commit;; mret (bool_decide (0 < revoked)%nat)
            end)
      end
  end.

(** The token turned down: a replay retires the chain and says so. *)
Definition turn_down (now : Z) (s : RefreshSession) (user_id : pystr) : P (option RefreshedTokens) :=
  match rs_replaced_by s with
  | None => mret None
  | Some _ =>
      update (on_sessions (revoke_chain now (rs_chain_id s)));;
      commit;;
      raise (RefreshTokenReplayedError user_id (rs_chain_id s))
  end.

(** The claim, and the session that follows it. *)
Definition rotate (now : Z) (s : RefreshSession) (user : User) : P (option RefreshedTokens) :=
  new_token_id ← fresh_uuid;
  claimed ← update (on_sessions (claim_for_rotation now (rs_token_id s) new_token_id));
  if negb claimed then mret None
  else
    row_id ← fresh_uuid;
    update (save_session (create_refresh_session now row_id (user_id user) new_token_id
                            (now + refresh_expire cfg) (Some (rs_chain_id s))));;
    commit;;
    mret (Some (session_tokens now user (rs_chain_id s) new_token_id)).

Definition refresh_body (now : Z) (user_id token_id : pystr) : P (option RefreshedTokens) :=
  session ← read (λ d, find_by_token_id token_id (refresh_sessions d));
  match session with
  | None => mret None
  | Some s =>
      if decide (rs_user_id s ≠ user_id) then mret None
      else if negb (session_is_usable now s) then turn_down now s user_id
      else
        found ← read (find_user_by_id user_id);
        user ← lift found;
        match user with
        | None => mret None
        | Some u => if negb (user_is_active u) then mret None else rotate now s u
        end
  end.

Definition refresh_access_token (token : pystr) : P (option RefreshedTokens) :=
  now ← now_utc;
  match validate_token now token (Some REFRESH) with
  | None => mret None
  | Some payload =>
      match cl_sub payload, unless_empty (cl_jti payload) with
      | [], _ | _, None => mret None
      | user_id, Some token_id => with_uow (refresh_body now user_id token_id)
      end
  end.

(** ** [RefreshSessionUseCase], [SignOutUseCase] *)

Definition refresh_session (token : pystr) (context : option RequestContext)
    : P (option RefreshedTokens) :=
  try_except (refresh_access_token token)
    (λ e, match e with
          | RefreshTokenReplayedError user_id chain_id =>
              match context with
              | Some _ => audit (RefreshTokenReplayed user_id chain_id)
              | None => mret tt
              end;; mret None
          | _ => raise e
          end).

Definition chain_of (token_id : option pystr) : P (option pystr) :=
  match unless_empty token_id with
  | None => mret None
  | Some t =>
      with_uow (row ← read (λ d, find_by_token_id t (refresh_sessions d));
                mret (rs_chain_id <$> row))
  end.

Definition sign_out (context : RequestContext) (token session_id : option pystr) : P bool :=
  now ← now_utc;
  match unless_empty token, unless_empty session_id with
  | Some t, _ =>
      let payload := validate_token now t (Some REFRESH) in
      chain ← match session_id with
              | Some c => mret (Some c)
              | None => chain_of (payload ≫= cl_jti)
              end;
      ended ← revoke_refresh_token t;
      if (ended : bool)
      then audit (SessionEnded (unless_empty (cl_sub <$> payload)) chain);; mret true
      else mret false
  | None, Some c =>
      revoked ← revoke_session_chain c;
      if bool_decide (0 < revoked)%nat
      then audit (SessionEnded (cu_id <$> current_user context) (Some c));; mret true
      else mret false
  | None, None => mret false
  end.
End jwt.

(** ** The table's invariant *)

Definition sessions_ok (t : list RefreshSession) : Prop :=
  NoDup (rs_id <$> t) ∧ NoDup (rs_token_id <$> t).

Lemma session_unique t a b :
  sessions_ok t → a ∈ t → b ∈ t → rs_token_id a = rs_token_id b → a = b.
Proof.
  intros [_ Hnd] [i Hi]%list_elem_of_lookup [j Hj]%list_elem_of_lookup Heq.
  assert (i = j) as ->; [|congruence].
  eapply (NoDup_lookup (rs_token_id <$> t)); [done| |]; rewrite list_lookup_fmap.
  - by rewrite Hi.
  - by rewrite Hj /= Heq.
Qed.

Lemma find_by_token_id_Some i t s : find_by_token_id i t = Some s → s ∈ t ∧ rs_token_id s = i.
Proof. apply (first_filter_Some (has_token i)). Qed.

Lemma find_by_token_id_in t s :
  sessions_ok t → s ∈ t → find_by_token_id (rs_token_id s) t = Some s.
Proof. intros [_ Hnd] Hs. by apply (first_filter_unique _ rs_token_id). Qed.

Lemma update_sessions_ok (Q : RefreshSession → Prop) `{∀ s, Decision (Q s)} f t :
  (∀ s, rs_id (f s) = rs_id s ∧ rs_token_id (f s) = rs_token_id s) →
  sessions_ok t → sessions_ok (update_where Q f t).
Proof.
  intros Hf [Hi Ht]. split; rewrite update_where_key //; intros s; apply Hf.
Qed.

Lemma save_session_ok s d s' d' :
  sessions_ok (refresh_sessions d) → save_session s d = Ok (s', d') →
  rs_id s ∉ (rs_id <$> refresh_sessions d) →
  sessions_ok (refresh_sessions d') ∧ s' = s ∧
  d' = set_refresh_sessions (refresh_sessions d ++ [s]) d.
Proof.
  intros [Hi Ht]. rewrite /save_session. case_decide as Hclash; [done|].
  case_match; [done|]. intros [= <- <-] Hnew. rewrite decide_False //. split; [|done].
  simpl. split; rewrite fmap_app list.NoDup_app.
  - split; [done|]. split; [|apply NoDup_singleton].
    intros i Hin Heq%list_elem_of_singleton. by subst.
  - split; [done|]. split; [|apply NoDup_singleton].
    intros i (r & -> & Hr)%list_elem_of_fmap Heq%list_elem_of_singleton.
    apply Hclash, Exists_elem. exists r. split; [done|]. split; [|done].
    intros Hid. apply Hnew. rewrite -Hid. by apply list_elem_of_fmap_2.
Qed.

(** ** Revocation *)

Lemma revoked_chain_is_dead now now' chain t :
  chain_is_live now' chain (revoke_chain now chain t).2 = false.
Proof.
  rewrite /chain_is_live. apply bool_decide_eq_false_2.
  destruct (first _) as [s|] eqn:E; [|by intros []].
  apply first_filter_Some in E as [Hs (Hc & Hr & _)].
  apply elem_of_update_where in Hs as (x & _ & ->). case_decide as Hx; [done|].
  exfalso. apply Hx. by split.
Qed.

Lemma revoked_not_usable now now' s : session_is_usable now' (with_revocation now s) = false.
Proof. done. Qed.

(** ** Rotation *)

Lemma usable_rotatable now s : session_is_usable now s = true ↔ rotatable now (rs_token_id s) s.
Proof.
  rewrite /session_is_usable /rotatable.
  destruct (rs_revoked_at s), (rs_replaced_by s); simpl; split; try naive_solver lia.
  all: intros; try (destruct_and!; done); rewrite ?bool_decide_eq_true_2 //; lia.
Qed.

(** Claiming the token of a usable session succeeds and touches its row only. *)
Lemma claim_usable now s new t :
  sessions_ok t → s ∈ t → session_is_usable now s = true →
  claim_for_rotation now (rs_token_id s) new t =
    (true, update_where (has_token (rs_token_id s)) (with_replacement new) t).
Proof.
  intros Hok Hs Hu. apply usable_rotatable in Hu.
  assert (∀ x, x ∈ t → rotatable now (rs_token_id s) x ↔ has_token (rs_token_id s) x) as Hiff.
  { intros x Hx. split; [by intros [? _]|]. intros Ht.
    by rewrite (session_unique t x s). }
  rewrite /claim_for_rotation. f_equal.
  - apply bool_decide_eq_true_2. rewrite /count_where.
    assert (filter (rotatable now (rs_token_id s)) t = [s]) as ->; [|done].
    apply Permutation_length_1_inv. apply NoDup_Permutation.
    + apply NoDup_singleton.
    + eapply sublist_NoDup; [|apply sublist_filter]. apply (NoDup_fmap_1 rs_id), Hok.
    + intros x. rewrite list_elem_of_singleton list_elem_of_filter. split; [by intros ->|].
      intros [Hx Hin]. apply (session_unique t); [done..|]. by apply Hiff in Hx.
  - rewrite /update_where. apply list_fmap_ext. intros i x Hx%list_elem_of_lookup_2.
    destruct (decide (has_token (rs_token_id s) x)) as [Hh|Hh];
      [by rewrite decide_True //; apply Hiff|rewrite decide_False // Hiff //].
Qed.

(** A token already exchanged is never claimed again. *)
Lemma claim_replaced now i new t s :
  sessions_ok t → s ∈ t → rs_token_id s = i → rs_replaced_by s ≠ None →
  (claim_for_rotation now i new t).1 = false.
Proof.
  intros Hok Hs Hi Hr. simpl. apply bool_decide_eq_false_2. intros Hc.
  assert (count_where (rotatable now i) t = 0%nat) as Hz; [|lia].
  apply count_where_zero. intros x Hx (Ht & _ & Hn & _). apply Hr.
  rewrite -(session_unique t x s) //. congruence.
Qed.

(** ** Concurrent refreshes *)

(** A refresh in flight: about to read the session of the token it was
    given, about to claim it (with the session it read and the token it would
    issue), or finished.  Which subject the token names and whether the
    account is active is left open: a thread may be refused for either at any
    time. *)
Inductive refresh_thread :=
| Reading (token_id : pystr)
| Claiming (session : RefreshSession)
| Finished (token_id : pystr) (issued : option pystr).

Record System := MkSystem {
  sys_now : Z;
  sys_sessions : list RefreshSession;
  sys_threads : list refresh_thread;
}.

(** A statement of one thread against the shared table.  The claim, the new
    row and the commit are one step: the claim locks the row until then, and
    another claim of it waits and asks its condition again. *)
Inductive thread_step (now : Z) :
  list RefreshSession → refresh_thread → list RefreshSession → refresh_thread → Prop :=
| read_missing t i :
    find_by_token_id i t = None → thread_step now t (Reading i) t (Finished i None)
| read_usable t i s :
    find_by_token_id i t = Some s → session_is_usable now s = true →
    thread_step now t (Reading i) t (Claiming s)
| read_replayed t i s :
    find_by_token_id i t = Some s → session_is_usable now s = false →
    rs_replaced_by s ≠ None →
    thread_step now t (Reading i) (revoke_chain now (rs_chain_id s) t).2 (Finished i None)
| read_spent t i s :
    find_by_token_id i t = Some s → session_is_usable now s = false →
    rs_replaced_by s = None → thread_step now t (Reading i) t (Finished i None)
| read_refused t i s :
    (* the session is another subject's than the token's, or the account is
       gone or inactive *)
    find_by_token_id i t = Some s → thread_step now t (Reading i) t (Finished i None)
| claim_lost t s new :
    (claim_for_rotation now (rs_token_id s) new t).1 = false →
    thread_step now t (Claiming s) (claim_for_rotation now (rs_token_id s) new t).2
      (Finished (rs_token_id s) None)
| claim_won t s new row_id lifetime :
    (claim_for_rotation now (rs_token_id s) new t).1 = true →
    new ∉ (rs_token_id <$> t) → row_id ∉ (rs_id <$> t) →
    thread_step now t (Claiming s)
      ((claim_for_rotation now (rs_token_id s) new t).2 ++
       [create_refresh_session now row_id (rs_user_id s) new (now + lifetime)
          (Some (rs_chain_id s))])
      (Finished (rs_token_id s) (Some new)).

(** Everything else that happens meanwhile; a token id is never issued twice. *)
Inductive system_step : System → System → Prop :=
| sys_thread now t ts1 th ts2 t' th' :
    thread_step now t th t' th' →
    (∀ i new j o, th' = Finished i (Some new) → Finished j o ∈ ts1 ++ ts2 → new ≠ j) →
    system_step (MkSystem now t (ts1 ++ th :: ts2)) (MkSystem now t' (ts1 ++ th' :: ts2))
| sys_start now t ts i :
    system_step (MkSystem now t ts) (MkSystem now t (ts ++ [Reading i]))
| sys_open now t ts s :
    rs_token_id s ∉ (rs_token_id <$> t) → rs_id s ∉ (rs_id <$> t) →
    (∀ i o, Finished i o ∈ ts → rs_token_id s ≠ i) →
    system_step (MkSystem now t ts) (MkSystem now (t ++ [s]) ts)
| sys_revoke now t ts chain :
    system_step (MkSystem now t ts) (MkSystem now (revoke_chain now chain t).2 ts)
| sys_revoke_user now t ts u :
    system_step (MkSystem now t ts) (MkSystem now (revoke_all_for_user now u t).2 ts)
| sys_sweep now t ts :
    system_step (MkSystem now t ts) (MkSystem now (delete_expired_sessions now t).2 ts)
| sys_tick now now' t ts : now <= now' →
    system_step (MkSystem now t ts) (MkSystem now' t ts).

(** How often a token was exchanged. *)
Definition exchanged (i : pystr) (th : refresh_thread) : Prop :=
  match th with Finished j (Some _) => j = i | _ => False end.
#[global] Instance exchanged_dec i th : Decision (exchanged i th).
Proof. destruct th as [| |j [|]]; simpl; apply _. Defined.

Definition exchanges (i : pystr) (ts : list refresh_thread) : nat := count_where (exchanged i) ts.

(** Once exchanged, a token is marked so for as long as its row exists; it is
    exchanged at most once. *)
Record SystemInv (i : pystr) (y : System) : Prop := MkSystemInv {
  si_table : sessions_ok (sys_sessions y);
  si_once : (exchanges i (sys_threads y) <= 1)%nat;
  si_marked : exchanges i (sys_threads y) = 1%nat →
    ∀ s, s ∈ sys_sessions y → rs_token_id s = i → rs_replaced_by s ≠ None;
}.

Lemma exchanges_app i ts1 ts2 : exchanges i (ts1 ++ ts2) = (exchanges i ts1 + exchanges i ts2)%nat.
Proof. by rewrite /exchanges /count_where list.filter_app length_app. Qed.

Lemma exchanges_cons i th ts :
  exchanges i (th :: ts) = ((if decide (exchanged i th) then 1 else 0) + exchanges i ts)%nat.
Proof. rewrite /exchanges /count_where filter_cons. by case_decide. Qed.

Lemma exchanges_mid i th ts1 ts2 :
  exchanges i (ts1 ++ th :: ts2) =
    ((if decide (exchanged i th) then 1 else 0) + exchanges i (ts1 ++ ts2))%nat.
Proof. rewrite !exchanges_app exchanges_cons. lia. Qed.

Lemma exchanges_skip i th ts1 ts2 :
  ¬ exchanged i th → exchanges i (ts1 ++ th :: ts2) = exchanges i (ts1 ++ ts2).
Proof. intros Hn. by rewrite exchanges_mid decide_False. Qed.

(** A table change that renames no token and unmarks none. *)
Definition keeps_marks (t t' : list RefreshSession) : Prop :=
  ∀ s, s ∈ t' → ∃ r, r ∈ t ∧ rs_token_id s = rs_token_id r ∧
    (rs_replaced_by r ≠ None → rs_replaced_by s ≠ None).

Lemma update_keeps_marks (Q : RefreshSession → Prop) `{∀ s, Decision (Q s)} f t :
  (∀ s, rs_token_id (f s) = rs_token_id s ∧ (rs_replaced_by s ≠ None → rs_replaced_by (f s) ≠ None)) →
  keeps_marks t (update_where Q f t).
Proof.
  intros Hf s (r & Hr & ->)%elem_of_update_where. exists r. destruct (Hf r).
  case_decide; auto.
Qed.

Lemma SystemInv_table i now now' t t' ts :
  sessions_ok t' → keeps_marks t t' → SystemInv i (MkSystem now t ts) → SystemInv i (MkSystem now' t' ts).
Proof.
  intros Hok Hk [_ Ho Hm]. constructor; [done|done|]. simpl in *.
  intros He s (r & Hr & Heq & Hmark)%Hk Hi. apply Hmark, (Hm He); [done|congruence].
Qed.

Lemma exchanged_in i ts : exchanges i ts ≠ 0%nat → ∃ o, Finished i o ∈ ts.
Proof.
  intros Hne. destruct (filter (exchanged i) ts) as [|th l] eqn:E.
  { by rewrite /exchanges /count_where E in Hne. }
  assert (th ∈ filter (exchanged i) ts) as Hin by (rewrite E; set_solver).
  apply list_elem_of_filter in Hin as [Hx Hin].
  destruct th as [| |j [o|]]; try done. simpl in Hx. subst. by eexists.
Qed.

Lemma replacement_marks now i new t :
  sessions_ok t → (claim_for_rotation now i new t).1 = true →
  ∃ s, s ∈ t ∧ rotatable now i s ∧
    ∀ x, x ∈ (claim_for_rotation now i new t).2 → rs_token_id x = i → rs_replaced_by x ≠ None.
Proof.
  intros Hok Hc. simpl in Hc. apply bool_decide_eq_true in Hc.
  destruct (filter (rotatable now i) t) as [|s l] eqn:E; [by rewrite /count_where E in Hc|].
  assert (s ∈ filter (rotatable now i) t) as [Hs Hin]%list_elem_of_filter by (rewrite E; set_solver).
  exists s. split; [done|]. split; [done|]. simpl.
  intros x (y & Hy & ->)%elem_of_update_where Hx. case_decide as Hr; [done|].
  exfalso. apply Hr. destruct Hs as [Hsi Hs]. 
  assert (y = s) as -> by (apply (session_unique t); [done..|congruence]). by split.
Qed.

(** The winning claim: the new row is of another token, and nobody had won. *)
Lemma claim_won_inv i now t ts s new row_id lifetime :
  (claim_for_rotation now (rs_token_id s) new t).1 = true →
  new ∉ (rs_token_id <$> t) → row_id ∉ (rs_id <$> t) →
  (∀ j o, Finished j o ∈ ts → new ≠ j) →
  SystemInv i (MkSystem now t ts) →
  let t' := (claim_for_rotation now (rs_token_id s) new t).2 ++
            [create_refresh_session now row_id (rs_user_id s) new (now + lifetime)
               (Some (rs_chain_id s))] in
  sessions_ok t' ∧
  (rs_token_id s = i → exchanges i ts = 0%nat) ∧
  (rs_token_id s = i ∨ exchanges i ts = 1%nat →
   ∀ x, x ∈ t' → rs_token_id x = i → rs_replaced_by x ≠ None).
Proof.
  intros Hc Hnew Hrow Hfresh [Hok Honce Hmark] t'. simpl in *.
  destruct (replacement_marks now (rs_token_id s) new t Hok Hc) as (r & Hr & (Hri & _ & Hrn & _) & Hall).
  assert (sessions_ok (claim_for_rotation now (rs_token_id s) new t).2) as Hok'
    by (by apply update_sessions_ok).
  assert (∀ x, x ∈ (claim_for_rotation now (rs_token_id s) new t).2 → rs_token_id x ∈ (rs_token_id <$> t)
    ∧ rs_id x ∈ (rs_id <$> t)) as Hold.
  { intros x (y & Hy & ->)%elem_of_update_where.
    split; apply list_elem_of_fmap; exists y; (split; [|done]);
      by destruct (decide (rotatable now (rs_token_id s) y)). }
  split_and!.
  - split; rewrite fmap_app list.NoDup_app; (split; [apply Hok'|split; [|apply NoDup_singleton]]).
    + intros k (x & -> & [_ Hx]%Hold)%list_elem_of_fmap Heq%list_elem_of_singleton.
      rewrite Heq in Hx. by apply Hrow.
    + intros k (x & -> & [Hx _]%Hold)%list_elem_of_fmap Heq%list_elem_of_singleton.
      rewrite Heq in Hx. by apply Hnew.
  - intros Hi. destruct (exchanges i ts) as [|[|n]] eqn:E; [done| |lia].
    exfalso. apply (Hmark eq_refl r); [done|congruence|done].
  - intros Hcase x [Hx|Hx]%elem_of_app Hi.
    + destruct Hcase as [Hsi|He]; [by eapply Hall; [|congruence]|].
      apply elem_of_update_where in Hx as (y & Hy & ->). case_decide; [done|].
      by apply (Hmark He).
    + apply list_elem_of_singleton in Hx as ->. simpl in Hi. subst i. exfalso.
      destruct Hcase as [Hsi|He].
      * apply Hnew. rewrite -Hsi -Hri. by apply list_elem_of_fmap_2.
      * destruct (exchanged_in new ts) as [o Ho]; [lia|]. by apply (Hfresh new o).
Qed.

(** A thread that ends without a token leaves the count alone. *)
Lemma SystemInv_thread i now t ts1 th ts2 t' th' :
  sessions_ok t' → keeps_marks t t' → ¬ exchanged i th → ¬ exchanged i th' →
  SystemInv i (MkSystem now t (ts1 ++ th :: ts2)) →
  SystemInv i (MkSystem now t' (ts1 ++ th' :: ts2)).
Proof.
  intros Hok Hk Hn Hn' Hinv. apply (SystemInv_table i now now t); [done..|].
  destruct Hinv as [Ht Ho Hm]. simpl in *.
  assert (exchanges i (ts1 ++ th' :: ts2) = exchanges i (ts1 ++ th :: ts2)) as Heq.
  { by rewrite !exchanges_skip. }
  constructor; simpl; by rewrite ?Heq.
Qed.

Lemma keeps_marks_refl t : keeps_marks t t.
Proof. intros s Hs. by exists s. Qed.

Lemma thread_step_inv i now t ts1 th ts2 t' th' :
  thread_step now t th t' th' →
  (∀ j new k o, th' = Finished j (Some new) → Finished k o ∈ ts1 ++ ts2 → new ≠ k) →
  SystemInv i (MkSystem now t (ts1 ++ th :: ts2)) →
  SystemInv i (MkSystem now t' (ts1 ++ th' :: ts2)).
Proof.
  intros Hs Hfresh Hinv. pose proof (si_table _ _ Hinv) as Hok. simpl in Hok.
  destruct Hs as [t j|t j s|t j s|t j s|t j s|t s new Hc|t s new row lifetime Hc Hnew Hrow].
  - eapply SystemInv_thread; [| |..|exact Hinv]; [done|apply keeps_marks_refl|by intros []..].
  - eapply SystemInv_thread; [| |..|exact Hinv]; [done|apply keeps_marks_refl|by intros []..].
  - eapply SystemInv_thread; [| |..|exact Hinv]; [by apply update_sessions_ok|by apply update_keeps_marks|by intros []..].
  - eapply SystemInv_thread; [| |..|exact Hinv]; [done|apply keeps_marks_refl|by intros []..].
  - eapply SystemInv_thread; [| |..|exact Hinv]; [done|apply keeps_marks_refl|by intros []..].
  - eapply SystemInv_thread; [| |..|exact Hinv]; [by apply update_sessions_ok|by apply update_keeps_marks|by intros []..].
  - assert (SystemInv i (MkSystem now t (ts1 ++ ts2))) as Hrest.
    { destruct Hinv as [Ht Ho Hm]. simpl in *.
      assert (exchanges i (ts1 ++ ts2) = exchanges i (ts1 ++ Claiming s :: ts2)) as Heq
        by (by rewrite exchanges_skip; [|intros []]).
      constructor; simpl; by rewrite ?Heq. }
    destruct (claim_won_inv i now t (ts1 ++ ts2) s new row lifetime Hc Hnew Hrow) as (Hok' & Hz & Hm);
      [by intros j o Hj; eapply Hfresh|done|].
    assert (exchanges i (ts1 ++ Finished (rs_token_id s) (Some new) :: ts2) =
      (if decide (rs_token_id s = i) then 1 else exchanges i (ts1 ++ ts2))%nat) as Heq.
    { destruct (decide (rs_token_id s = i)) as [He|He]; [|by rewrite exchanges_skip].
      by rewrite exchanges_mid decide_True // (Hz He). }
    constructor; simpl; [done|rewrite Heq; case_decide; [lia|apply Hrest]|].
    rewrite Heq. intros He. apply Hm. case_decide; auto.
Qed.

Lemma system_step_inv i y y' : SystemInv i y → system_step y y' → SystemInv i y'.
Proof.
  intros Hinv Hs. pose proof (si_table _ _ Hinv) as Hok.
  destruct Hs as [now t ts1 th ts2 t' th' Hth Hf|now t ts j|now t ts s Hnt Hni Hf|now t ts ch|now t ts u|now t ts|now now' t ts Hle];
    simpl in *.
  - by eapply thread_step_inv.
  - destruct Hinv as [Ht Ho Hm]. simpl in *.
    assert (exchanges i (ts ++ [Reading j]) = exchanges i ts) as Heq
      by (rewrite exchanges_skip; [by rewrite app_nil_r|intros []]).
    constructor; simpl; by rewrite ?Heq.
  - destruct Hinv as [[Hi Ht] Ho Hm]. simpl in *. constructor; [|done|]; simpl.
    + split; rewrite fmap_app list.NoDup_app; (split; [done|split; [|apply NoDup_singleton]]).
      * by intros k Hk ->%list_elem_of_singleton.
      * by intros k Hk ->%list_elem_of_singleton.
    + intros He x [Hx|Hx]%elem_of_app Hxi; [by apply (Hm He)|].
      apply list_elem_of_singleton in Hx as ->. exfalso.
      destruct (exchanged_in i ts) as [o Ho']; [lia|]. by apply (Hf i o).
  - by eapply SystemInv_table; [by apply update_sessions_ok|by apply update_keeps_marks|].
  - by eapply SystemInv_table; [by apply update_sessions_ok|by apply update_keeps_marks|].
  - eapply SystemInv_table; [| |exact Hinv].
    + destruct Hok as [Hi Ht]. split; auto with tables.
    + intros s [Hs _]%elem_of_delete_where. by exists s.
  - by eapply SystemInv_table; [|apply keeps_marks_refl|].
Qed.

(** C5: of any number of refreshes in flight at once with the same token, in
    every interleaving of their statements with each other and with
    sign-ins, revocations and sweeps, at most one is answered with new
    tokens. *)
Theorem token_is_exchanged_once i y y' :
  sessions_ok (sys_sessions y) → exchanges i (sys_threads y) = 0%nat →
  rtc system_step y y' → (exchanges i (sys_threads y') <= 1)%nat.
Proof.
  intros Hok Hz Hs.
  assert (SystemInv i y) as Hinv by (constructor; [done|lia|lia]).
  cut (SystemInv i y'); [by intros []|]. clear Hz Hok.
  induction Hs as [|y y1 y2 Hstep _ IH]; [done|]. by apply IH, (system_step_inv i y).
Qed.

Definition demo_session : RefreshSession :=
  create_refresh_session 0 (lit "row") (lit "user") (lit "jti") 100 None.

(** Two refreshes read the same usable session; the first to claim wins. *)
Lemma token_is_exchanged_once_witness :
  ∃ t, rtc system_step (MkSystem 1 [demo_session] [Reading (lit "jti"); Reading (lit "jti")])
         (MkSystem 1 t [Finished (lit "jti") (Some (lit "new")); Finished (lit "jti") None]) ∧
       (exchanges (lit "jti")
          [Finished (lit "jti") (Some (lit "new")); Finished (lit "jti") None] <= 1)%nat.
Proof.
  eexists. match goal with |- ?G ∧ _ => assert G as Hs end.
  - eapply rtc_l; [apply (sys_thread 1 _ [] _ [Reading (lit "jti")])|].
    { apply read_usable with (s := demo_session); vm_compute; reflexivity. }
    { discriminate. }
    eapply rtc_l; [apply (sys_thread 1 _ [Claiming demo_session] _ [])|].
    { apply read_usable with (s := demo_session); vm_compute; reflexivity. }
    { discriminate. }
    eapply rtc_l; [apply (sys_thread 1 _ [] _ [Claiming demo_session])|].
    { apply claim_won with (new := lit "new") (row_id := lit "row2") (lifetime := 100);
        [vm_compute; reflexivity|apply (bool_decide_unpack _); vm_compute; exact I..]. }
    { intros i new j o _ Hin. apply list_elem_of_singleton in Hin. discriminate. }
    eapply rtc_l; [apply (sys_thread 1 _ [Finished (lit "jti") (Some (lit "new"))] _ [])|].
    { apply claim_lost with (new := lit "other"). vm_compute. reflexivity. }
    { discriminate. }
    apply rtc_refl.
  - split; [exact Hs|].
    refine (token_is_exchanged_once (lit "jti") _ _ _ _ Hs); [|vm_compute; reflexivity].
    split; apply NoDup_singleton.
Defined.

(** ** One refresh at a time *)

Section outcomes.
Context {C : Type} `{TokenCodec} `{CaseFolding} `{UuidSupply}.
Context (cfg : JwtSettings).
Implicit Types (w : World C).

(** The session a presented token names, and its holder's name. *)
Definition presented (now : Z) (token : pystr) (d : Database) (s : RefreshSession) : Prop :=
  ∃ payload i, validate_token now token (Some REFRESH) = Some payload ∧
    cl_jti payload = Some i ∧ i ≠ [] ∧ cl_sub payload ≠ [] ∧
    find_by_token_id i (refresh_sessions d) = Some s ∧ rs_user_id s = cl_sub payload.

(** The row of a rotation and the row it issues. *)
Definition rotated_table (s : RefreshSession) (new : pystr) (fresh : RefreshSession)
    (t : list RefreshSession) : list RefreshSession :=
  update_where (has_token (rs_token_id s)) (with_replacement new) t ++ [fresh].

Definition refresh_outcome (token : pystr) w (r : result exn (option RefreshedTokens)) w' : Prop :=
  match r with
  | Ok None => w_db w' = w_db w
  | Ok (Some tokens) => ∃ s u new row,
      presented (w_now w) token (w_db w) s ∧ session_is_usable (w_now w) s = true ∧
      find_user_by_id (rs_user_id s) (w_db w) = Ok (Some u) ∧ user_is_active u = true ∧
      tokens = session_tokens cfg (w_now w) u (rs_chain_id s) new ∧
      w_db w' = set_refresh_sessions (rotated_table s new
        (create_refresh_session (w_now w) row (user_id u) new
           (w_now w + refresh_expire cfg) (Some (rs_chain_id s)))
        (refresh_sessions (w_db w))) (w_db w)
  | Err (RefreshTokenReplayedError user chain) => ∃ s,
      presented (w_now w) token (w_db w) s ∧ rs_replaced_by s ≠ None ∧
      user = rs_user_id s ∧ chain = rs_chain_id s ∧
      w_db w' = set_refresh_sessions
        (revoke_chain (w_now w) chain (refresh_sessions (w_db w))).2 (w_db w)
  | Err _ => w_db w' = w_db w
  end.

(** Nothing drawn from now on names a session row. *)
Definition session_ids_fresh w : Prop :=
  ∀ n, (w_uuids w <= n)%nat → uuid4 n ∉ (rs_id <$> refresh_sessions (w_db w)).

Lemma update_where_ids (Q : RefreshSession → Prop) `{∀ s, Decision (Q s)} f t :
  (∀ s, rs_id (f s) = rs_id s) → rs_id <$> update_where Q f t = rs_id <$> t.
Proof. intros Hf. by rewrite update_where_key. Qed.

Lemma rotate_spec s u w :
  w_txn w = Some (MkTxn (w_db w) false) → sessions_ok (refresh_sessions (w_db w)) →
  session_ids_fresh w → s ∈ refresh_sessions (w_db w) → session_is_usable (w_now w) s = true →
  wp (rotate cfg (w_now w) s u) (λ r w',
    match r with
    | Ok (Some tokens) => ∃ new row,
        tokens = session_tokens cfg (w_now w) u (rs_chain_id s) new ∧
        w_db w' = set_refresh_sessions (rotated_table s new
          (create_refresh_session (w_now w) row (user_id u) new
             (w_now w + refresh_expire cfg) (Some (rs_chain_id s)))
          (refresh_sessions (w_db w))) (w_db w)
    | Ok None => False
    | Err e => w_db w' = w_db w ∧ e = PyError IntegrityError
    end) w.
Proof.
  intros Ht Hok Hf Hs Hu. rewrite /rotate. wp_step. wp_step. wp_step.
  eapply wp_update; [exact Ht|]. cbn [tx_work tx_committed].
  rewrite /on_sessions claim_usable //. cbn [negb]. wp_steps. cbn [tx_work tx_committed].
  set (d1 := set_refresh_sessions _ _). set (fresh := create_refresh_session _ _ _ _ _ _).
  assert (sessions_ok (refresh_sessions d1)) as Hok1 by (by apply update_sessions_ok).
  destruct (save_session fresh d1) as [[s' d']|e] eqn:Hsave.
  - apply save_session_ok in Hsave as (_ & _ & ->); [|done|]; last first.
    { rewrite /d1 /= update_where_ids //. apply Hf. simpl. lia. }
    wp_steps. do 2 eexists. split; reflexivity.
  - split; [done|]. revert Hsave. rewrite /save_session. case_decide; [by intros [= <-]|].
    by case_match; intros [= <-].
Qed.

Lemma turn_down_spec s user w :
  w_txn w = Some (MkTxn (w_db w) false) → rs_user_id s = user →
  wp (turn_down (w_now w) s user) (λ r w',
    match rs_replaced_by s with
    | None => r = Ok None ∧ w_db w' = w_db w
    | Some _ => r = Err (RefreshTokenReplayedError user (rs_chain_id s)) ∧
        w_db w' = set_refresh_sessions
          (revoke_chain (w_now w) (rs_chain_id s) (refresh_sessions (w_db w))).2 (w_db w)
    end) w.
Proof.
  intros Ht Hu. rewrite /turn_down. destruct (rs_replaced_by s); [|by wp_steps].
  wp_step. eapply wp_update; [exact Ht|]. cbn [tx_work tx_committed]. by wp_steps.
Qed.

Lemma refresh_access_token_spec token w :
  sessions_ok (refresh_sessions (w_db w)) → session_ids_fresh w →
  wp (refresh_access_token cfg token) (λ r w', refresh_outcome token w r w' ∧
    ∀ s, presented (w_now w) token (w_db w) s → rs_replaced_by s ≠ None →
         r = Err (RefreshTokenReplayedError (rs_user_id s) (rs_chain_id s))) w.
Proof.
  intros Hok Hf. rewrite /refresh_access_token. wp_step. wp_step.
  assert (∀ payload, validate_token (w_now w) token (Some REFRESH) = Some payload →
    ∀ s, presented (w_now w) token (w_db w) s → cl_sub payload ≠ [] ∧ cl_jti payload ≠ None ∧
      cl_jti payload ≠ Some []) as Hpres.
  { intros p Hp s (p' & i & Hp' & Hj & Hi & Hsub & _). rewrite Hp in Hp'. injection Hp' as <-.
    rewrite Hj. naive_solver. }
  destruct (validate_token (w_now w) token (Some REFRESH)) as [payload|] eqn:Hv; last first.
  { wp_steps. split; [done|]. intros s (p & i & Hp & _). congruence. }
  specialize (Hpres payload eq_refl).
  destruct (cl_sub payload) as [|x sub] eqn:Hsub.
  { wp_steps. split; [done|]. by intros s [? _]%Hpres. }
  destruct (unless_empty (cl_jti payload)) as [i|] eqn:Hj; last first.
  { wp_steps. split; [done|]. intros s (_ & H1' & H2')%Hpres. exfalso.
    rewrite /unless_empty in Hj. by destruct (cl_jti payload) as [[|]|]. }
  assert (cl_jti payload = Some i ∧ i ≠ []) as [Hjti Hi].
  { rewrite /unless_empty in Hj. destruct (cl_jti payload) as [[|]|]; naive_solver. }
  clear Hpres. rewrite /refresh_body. wp_steps. cbn [tx_work].
  assert (∀ s, presented (w_now w) token (w_db w) s ↔
    find_by_token_id i (refresh_sessions (w_db w)) = Some s ∧ rs_user_id s = x :: sub) as Hpres.
  { intros s. split.
    - intros (p & j & Hp & Hpj & _ & _ & Hfind & Hus). simplify_eq. by rewrite Hus Hsub.
    - intros [Hfind Hus]. exists payload, i. split_and!; try done; by rewrite Hsub. }
  clear Hv Hsub Hj Hjti Hi.
  destruct (find_by_token_id i (refresh_sessions (w_db w))) as [s|] eqn:Hfind; last first.
  { wp_steps. split; [done|]. by intros s [? _]%Hpres. }
  case_decide as Hus; [wp_steps; split; [done|]; intros s' [[= <-] ?]%Hpres; congruence|].
  assert (presented (w_now w) token (w_db w) s) as Hp by (by apply Hpres).
  assert (∀ s', presented (w_now w) token (w_db w) s' → s' = s) as Honly
    by (by intros s' [[= <-] _]%Hpres).
  apply find_by_token_id_Some in Hfind as [Hin _].
  destruct (session_is_usable (w_now w) s) eqn:Huse; cbn [negb].
  - assert (rs_replaced_by s = None) as Hnone.
    { apply usable_rotatable in Huse. apply Huse. }
    assert (∀ r, ∀ s', presented (w_now w) token (w_db w) s' → rs_replaced_by s' ≠ None →
      r = Err (RefreshTokenReplayedError (rs_user_id s') (rs_chain_id s')) :> result exn (option RefreshedTokens))
      as Hno by (intros r s' ->%Honly; congruence).
    wp_steps. cbn [tx_work].
    destruct (find_user_by_id (x :: sub) (w_db w)) as [[u|]|e] eqn:Hu; wp_steps.
    + destruct (user_is_active u) eqn:Hact; cbn [negb]; [|by wp_steps; split; [|apply Hno]].
      eapply wp_mono; [by apply (rotate_spec s u (set_txn _ w))|]. cbn.
      intros [[tk|]|e] w' Hr; (split; [|apply Hno]); [|done|by destruct Hr as [? ->]].
      destruct Hr as (new & row & -> & Hd). exists s, u, new, row. split_and!; try done.
      by rewrite Hus.
    + by split; [|apply Hno].
    + split; [|apply Hno]. apply load_user_error in Hu. by destruct e.
  - eapply wp_mono; [by apply (turn_down_spec s (x :: sub) (set_txn _ w))|].
    intros r w' Hr. destruct (rs_replaced_by s) eqn:Hrep; destruct Hr as [-> Hd].
    + split; [exists s; by rewrite Hrep|]. intros s' ->%Honly _. by rewrite Hus.
    + split; [done|]. intros s' ->%Honly. congruence.
Qed.

(** a refresh either answers nothing and changes nothing; or answers
    tokens, and then the presented token was the usable one of an active
    user, its row is marked as replaced by the token answered, and one new
    session of the same chain is stored; or reports a replay, and then the
    presented token had been exchanged before and every open session of its
    chain is revoked and committed; any other failure changes nothing. *)
Theorem refresh_rotates_or_refuses token w r w' :
  sessions_ok (refresh_sessions (w_db w)) → session_ids_fresh w →
  refresh_access_token cfg token w = (r, w') → refresh_outcome token w r w'.
Proof.
  intros Hok Hf Hr. pose proof (refresh_access_token_spec token w Hok Hf) as Hs.
  by apply (wp_elim _ _ _ _ _ Hs) in Hr as [? _].
Qed.

(** presenting a refresh token that was already exchanged, whenever that
    was, raises the replay error and leaves its chain dead for good: no later
    check finds the chain live, and no session of it is usable again. *)
Theorem replay_retires_the_chain token w s :
  sessions_ok (refresh_sessions (w_db w)) → session_ids_fresh w →
  presented (w_now w) token (w_db w) s → rs_replaced_by s ≠ None →
  ∃ w', refresh_access_token cfg token w =
      (Err (RefreshTokenReplayedError (rs_user_id s) (rs_chain_id s)), w') ∧
    ∀ now', chain_is_live now' (rs_chain_id s) (refresh_sessions (w_db w')) = false ∧
      ∀ x, x ∈ refresh_sessions (w_db w') → rs_chain_id x = rs_chain_id s →
           session_is_usable now' x = false.
Proof.
  intros Hok Hf Hp Hrep. destruct (refresh_access_token_spec token w Hok Hf) as [Hout Hr].
  specialize (Hr s Hp Hrep). rewrite Hr in Hout. destruct Hout as (s' & _ & _ & _ & _ & Hd).
  exists (refresh_access_token cfg token w).2.
  split; [by rewrite -Hr; destruct (refresh_access_token cfg token w)|].
  rewrite Hd. intros now'. split; [apply revoked_chain_is_dead|].
  intros x Hx Hc. simpl in Hx. apply elem_of_update_where in Hx as (y & _ & ->).
  destruct (decide (open_in_chain (rs_chain_id s) y)) as [Hy|Hy]; [done|].
  rewrite /session_is_usable. destruct (rs_revoked_at y) eqn:E; [done|].
  exfalso. apply Hy. by split.
Qed.

(** signing out with a refresh token that names a session of its holder
    ends every session of the chain; from then on the chain is not live and
    no token of it can be exchanged. *)
Theorem sign_out_ends_the_chain token w s :
  presented (w_now w) token (w_db w) s → rs_revoked_at s = None →
  s ∈ refresh_sessions (w_db w) →
  ∃ w', revoke_refresh_token token w = (Ok true, w') ∧
    ∀ now', chain_is_live now' (rs_chain_id s) (refresh_sessions (w_db w')) = false.
Proof.
  intros (payload & i & Hv & Hj & Hi & Hsub & Hfind & Hus) Hopen Hin.
  cut (wp (revoke_refresh_token token) (λ r w', r = Ok true ∧
    ∀ now', chain_is_live now' (rs_chain_id s) (refresh_sessions (w_db w')) = false) w).
  { intros [Hr Hd]. exists (revoke_refresh_token token w).2.
    split; [by rewrite -Hr; destruct (revoke_refresh_token token w)|done]. }
  rewrite /revoke_refresh_token. wp_step. wp_step. rewrite Hv Hj.
  destruct i as [|x i]; [done|]. cbn [unless_empty]. wp_steps. cbn [tx_work]. rewrite Hfind.
  case_decide; [congruence|]. wp_steps. cbn [tx_work on_sessions]. wp_steps.
  split.
  - rewrite bool_decide_eq_true_2 //. rewrite /count_where.
    assert (s ∈ filter (open_in_chain (rs_chain_id s)) (refresh_sessions (w_db w))) as Hs
      by (by apply list_elem_of_filter).
    destruct (filter _ _); [by apply elem_of_nil in Hs|simpl; lia].
  - intros now'. apply revoked_chain_is_dead.
Qed.
End outcomes.

Section session_witnesses.
#[local] Instance demo_folding : CaseFolding := fmap ascii_lower.
#[local] Instance demo_uuids : UuidSupply := λ n, repeat 48 (S n).

(** A codec for two tokens: the first names [demo_session]. *)
#[local] Instance demo_codec : TokenCodec := {|
  jwt_encode c := default [] (cl_jti c);
  jwt_decode _ t := Some (MkClaims (lit "user") [] 1000 0 REFRESH (Some t) None);
|}.

Definition demo_user : UserModel :=
  MkUserModel (lit "user") (lit "jo@a.org") (lit "hash") [] true true 0 None.
Definition session_db : Database :=
  MkDatabase [] [demo_user] [] [] [demo_session] [] [] [] [].
Definition session_world : World unit := MkWorld session_db None tt 1 10 [] [] None.
Definition jwt_settings : JwtSettings := MkJwtSettings 10 100.
Definition refreshed : World unit := (refresh_access_token jwt_settings (lit "jti") session_world).2.

Lemma one_row_ok s : sessions_ok [s].
Proof. split; apply NoDup_singleton. Qed.

Lemma demo_ids_fresh : session_ids_fresh session_world.
Proof. intros n _ Heq%list_elem_of_singleton. by destruct n. Qed.

Lemma refresh_rotates_or_refuses_witness :
  ∃ r, is_ok r = true ∧ refresh_outcome jwt_settings (lit "jti") session_world r refreshed.
Proof.
  exists (refresh_access_token jwt_settings (lit "jti") session_world).1.
  split; [vm_compute; reflexivity|].
  apply (refresh_rotates_or_refuses jwt_settings (lit "jti") session_world _ refreshed);
    [apply one_row_ok|exact demo_ids_fresh|apply surjective_pairing].
Defined.

(** The first token, presented again after it was exchanged. *)
Definition spent_session : RefreshSession := with_replacement (lit "new") demo_session.
Definition spent_world : World unit :=
  MkWorld (set_refresh_sessions [spent_session] session_db) None tt 2 10 [] [] None.

Lemma spent_presented : presented (w_now spent_world) (lit "jti") (w_db spent_world) spent_session.
Proof.
  exists (MkClaims (lit "user") [] 1000 0 REFRESH (Some (lit "jti")) None), (lit "jti").
  split_and!; try discriminate; vm_compute; reflexivity.
Qed.

Lemma replay_retires_the_chain_witness :
  ∃ w', (refresh_access_token jwt_settings (lit "jti") spent_world) =
    (Err (RefreshTokenReplayedError (lit "user") (lit "jti")), w').
Proof.
  destruct (replay_retires_the_chain jwt_settings (lit "jti") spent_world spent_session)
    as (w' & Hr & _);
    [apply one_row_ok| |exact spent_presented|discriminate|exists w'; exact Hr].
  intros n _ Heq%list_elem_of_singleton. by destruct n.
Defined.

Lemma sign_out_ends_the_chain_witness :
  ∃ w', revoke_refresh_token (lit "jti") spent_world = (Ok true, w').
Proof.
  destruct (sign_out_ends_the_chain (lit "jti") spent_world spent_session) as (w' & Hr & _);
    [exact spent_presented|reflexivity|apply list_elem_of_singleton; reflexivity|
     exists w'; exact Hr].
Defined.
End session_witnesses.
