(* ===== verification/RateLimit.v ===== *)
(** * Rate limiting

    The port [application/ports/rate_limiter.py] and its in-process
    implementation [infrastructure/rate_limit/memory_rate_limiter.py].  The
    port is the class [RateLimiter]: the sign-in use case is written against
    it.  [time.time()] is the instant the caller passes, in microseconds.

    Shown here: a run of the limiter answers as the sliding window over the
    whole log of granted requests does, and grants no more than the limit in
    any window, wherever the window starts. *)

From S2P Require Import Prelude PyStr Entities.

(** ** The port *)

Class RateLimiter (C : Type) := MkRateLimiter {
  rl_is_allowed : Z → pystr → Z → Z → C → bool * C;
  rl_get_remaining : Z → pystr → Z → Z → C → Z * C;
}.

Record RateLimitDecision := MkRateLimitDecision { allowed : bool; remaining : Z }.

(** [RateLimiter.check]: the default, two calls. *)
Definition rl_check `{RateLimiter C} (now : Z) (key : pystr) (limit period : Z) (c : C)
    : RateLimitDecision * C :=
  let '(a, c) := rl_is_allowed now key limit period c in
  let '(r, c) := rl_get_remaining now key limit period c in
  (MkRateLimitDecision a r, c).

(** ** [MemoryRateLimiter] *)

Definition Storage : Type := gmap pystr (list Z).

(** [defaultdict(list)]: an absent key reads as the empty list. *)
Definition stamps (s : Storage) (key : pystr) : list Z := default [] (s !! key).

Definition in_window (now period : Z) (ts : Z) : Prop := now - period * SECOND < ts.
#[global] Instance in_window_dec now period ts : Decision (in_window now period ts).
Proof. unfold in_window. apply _. Defined.

Definition mem_is_allowed (now : Z) (key : pystr) (limit period : Z) (s : Storage)
    : bool * Storage :=
  let kept := filter (in_window now period) (stamps s key) in
  if Z.of_nat (length kept) <? limit
  then (true, <[key := kept ++ [now]]> s)
  else (false, <[key := kept]> s).

(** Reading a [defaultdict] leaves the key behind. *)
Definition mem_get_remaining (now : Z) (key : pystr) (limit period : Z) (s : Storage)
    : Z * Storage :=
  (Z.max 0 (limit - Z.of_nat (length (filter (in_window now period) (stamps s key)))),
   <[key := stamps s key]> s).

#[global] Instance MemoryRateLimiter : RateLimiter Storage :=
  {| rl_is_allowed := mem_is_allowed; rl_get_remaining := mem_get_remaining |}.

Lemma stamps_insert s k l : stamps (<[k := l]> s) k = l.
Proof. by rewrite /stamps lookup_insert_eq. Qed.
Lemma stamps_insert_ne s k k' l : k ≠ k' → stamps (<[k := l]> s) k' = stamps s k'.
Proof. intros Hk. by rewrite /stamps lookup_insert_ne. Qed.

(** ** The window over the whole log *)

(** A request: when, and by whom. *)
Definition request : Type := Z * pystr.

Definition counted (now period : Z) (key : pystr) (r : request) : Prop :=
  r.2 = key ∧ in_window now period r.1.
#[global] Instance counted_dec now period key r : Decision (counted now period key r).
Proof. unfold counted. apply _. Defined.

Definition granted_in_window (now period : Z) (key : pystr) (log : list request) : Z :=
  Z.of_nat (count_where (counted now period key) log).

Section runs.
Context (limit period : Z).

(** Requests in order; the specification keeps every grant. *)
Fixpoint window_run (log : list request) (rs : list request) : list bool * list request :=
  match rs with
  | [] => ([], log)
  | (now, key) :: rs =>
      let ok := granted_in_window now period key log <? limit in
      let '(answers, log') := window_run (if ok then log ++ [(now, key)] else log) rs in
      (ok :: answers, log')
  end.

Fixpoint limiter_run `{RateLimiter C} (c : C) (rs : list request) : list bool * C :=
  match rs with
  | [] => ([], c)
  | (now, key) :: rs =>
      let '(ok, c') := rl_is_allowed now key limit period c in
      let '(answers, c'') := limiter_run c' rs in
      (ok :: answers, c'')
  end.

(** The requests' clock does not run back, and starts at [t]. *)
Fixpoint clock_from (t : Z) (rs : list request) : Prop :=
  match rs with
  | [] => True
  | (now, _) :: rs => t <= now ∧ clock_from now rs
  end.

(** From [t] on, the storage and the log have the same stamps in every
    window. *)
Definition same_windows (t : Z) (s : Storage) (log : list request) : Prop :=
  ∀ now key, t <= now →
    filter (in_window now period) (stamps s key) =
    (filter (counted now period key) log).*1.

Lemma filter_window_later now now' (l : list Z) :
  now <= now' →
  filter (in_window now' period) (filter (in_window now period) l) =
  filter (in_window now' period) l.
Proof.
  intros Hle. rewrite list_filter_filter. apply filter_ext_elem.
  rewrite /in_window. lia.
Qed.

Lemma same_windows_later t t' s log : t <= t' → same_windows t s log → same_windows t' s log.
Proof. intros ? Hs now key ?. apply Hs. lia. Qed.

(** One call answers as the specification and keeps the agreement. *)
Lemma limiter_step t now key s log ok s' :
  t <= now → same_windows t s log →
  mem_is_allowed now key limit period s = (ok, s') →
  ok = (granted_in_window now period key log <? limit) ∧
  same_windows now s' (if ok then log ++ [(now, key)] else log).
Proof.
  intros Hle Hs. rewrite /mem_is_allowed (Hs now key Hle) length_fmap.
  change (length (filter (counted now period key) log))
    with (count_where (counted now period key) log).
  fold (granted_in_window now period key log).
  assert (Hkeep : ∀ now' key', now <= now' →
    filter (in_window now' period)
      (stamps (<[key := (filter (counted now period key) log).*1]> s) key') =
    (filter (counted now' period key') log).*1).
  { intros now' key' ?. destruct (decide (key = key')) as [<-|Hk].
    - rewrite stamps_insert -(Hs now key Hle) filter_window_later // Hs //; lia.
    - rewrite stamps_insert_ne // Hs //; lia. }
  destruct (_ <? limit); intros [= <- <-]; (split; [done|]); intros now' key' Hle'; [|auto].
  rewrite list.filter_app fmap_app -(Hkeep now' key' Hle') filter_cons filter_nil.
  destruct (decide (key = key')) as [<-|Hk].
  - rewrite !stamps_insert list.filter_app filter_cons filter_nil. f_equal.
    rewrite /counted /=. repeat case_decide; naive_solver.
  - rewrite !stamps_insert_ne // decide_False ?app_nil_r //. by intros [? _].
Qed.

Lemma limiter_run_window t rs s log :
  clock_from t rs → same_windows t s log →
  (limiter_run s rs).1 = (window_run log rs).1.
Proof.
  revert t s log. induction rs as [|[now key] rs IH]; intros t s log Hc Hs; [done|]. simpl.
  destruct Hc as [Hle Hc].
  destruct (mem_is_allowed now key limit period s) as [ok s'] eqn:E.
  destruct (limiter_step _ _ _ _ _ _ _ Hle Hs E) as [-> Hs'].
  specialize (IH now s' _ Hc Hs'). simpl in *. rewrite /rl_is_allowed /=.
  destruct (limiter_run s' rs) as [a c]. destruct (window_run _ rs) as [b l].
  simpl in *. by rewrite IH.
Qed.

(** Grants of [key] in the window that ends at [stop]. *)
Definition grants_up_to (stop : Z) (key : pystr) (log : list request) : Z :=
  Z.of_nat (count_where (λ r, counted stop period key r ∧ r.1 <= stop) log).

Lemma grants_up_to_now now key log :
  (∀ r, r ∈ log → r.1 <= now) →
  grants_up_to now key log = granted_in_window now period key log.
Proof.
  intros Hpast. rewrite /grants_up_to /granted_in_window /count_where. do 2 f_equal.
  apply filter_ext_elem. intros r ?%Hpast. tauto.
Qed.

Lemma grants_up_to_app stop key log r :
  grants_up_to stop key (log ++ [r]) =
  grants_up_to stop key log + (if decide (counted stop period key r ∧ r.1 <= stop) then 1 else 0).
Proof.
  rewrite /grants_up_to count_where_app Nat2Z.inj_add. f_equal.
  rewrite /count_where filter_cons filter_nil. by case_decide.
Qed.

(** Every window of the log is within the limit. *)
Definition within_limit (log : list request) : Prop :=
  ∀ stop key, grants_up_to stop key log <= Z.max 0 limit.

Lemma within_limit_grant now key log :
  (∀ r, r ∈ log → r.1 <= now) → within_limit log →
  granted_in_window now period key log < limit → within_limit (log ++ [(now, key)]).
Proof.
  intros Hpast Hlog Hless stop key'. rewrite grants_up_to_app. specialize (Hlog stop key').
  case_decide as Hin; [|lia]. destruct Hin as [[[= <-] _] Hle]. simpl in Hle.
  assert (grants_up_to stop key log <= granted_in_window now period key log); [|lia].
  apply inj_le, count_where_mono. rewrite /counted /in_window. intros r _. lia || naive_solver lia.
Qed.

Lemma window_run_within t rs log :
  clock_from t rs → (∀ r, r ∈ log → r.1 <= t) → within_limit log →
  within_limit (window_run log rs).2.
Proof.
  revert t log. induction rs as [|[now key] rs IH]; intros t log Hc Hpast Hlog; [done|]. simpl.
  destruct Hc as [Hle Hc]. destruct (granted_in_window now period key log <? limit) eqn:E.
  - assert (within_limit (window_run (log ++ [(now, key)]) rs).2) as Hw.
    + apply (IH now); [done| |].
      * intros r [Hr|Hr]%elem_of_app; [|by apply list_elem_of_singleton in Hr as ->].
        specialize (Hpast r Hr). lia.
      * apply within_limit_grant; [|done|lia]. intros r Hr. specialize (Hpast r Hr). lia.
    + by destruct (window_run _ rs).
  - assert (within_limit (window_run log rs).2) as Hw.
    + apply (IH now); [done| |done]. intros r Hr. specialize (Hpast r Hr). lia.
    + by destruct (window_run _ rs).
Qed.
End runs.

(** started empty and asked in the order of the clock, the limiter
    answers each request exactly as the sliding window over every request
    granted so far does (granted while fewer than the limit lie within the
    period before it), and no window of the period's length, wherever it
    ends, holds more grants of one key than the limit. *)
Theorem limiter_is_a_sliding_window limit period t rs :
  clock_from t rs →
  (limiter_run limit period (∅ : Storage) rs).1 = (window_run limit period [] rs).1 ∧
  ∀ stop key, grants_up_to period stop key (window_run limit period [] rs).2 <= Z.max 0 limit.
Proof.
  intros Hc. split.
  - apply (limiter_run_window limit period t); [done|].
    intros now key _. by rewrite /stamps lookup_empty.
  - apply (window_run_within limit period t); [done|set_solver|].
    intros stop key. rewrite /grants_up_to /count_where /=. lia.
Qed.

Lemma limiter_is_a_sliding_window_witness :
  (limiter_run 2 60 (∅ : Storage)
     ((λ s, (s * SECOND, lit "a")) <$> [0; 10; 20; 59; 60; 61; 71])).1 =
  [true; true; false; false; true; false; true] ∧
  grants_up_to 60 (60 * SECOND) (lit "a")
    (window_run 2 60 [] ((λ s, (s * SECOND, lit "a")) <$> [0; 10; 20; 59; 60; 61; 71])).2 <= 2.
Proof.
  destruct (limiter_is_a_sliding_window 2 60 0
    ((λ s, (s * SECOND, lit "a")) <$> [0; 10; 20; 59; 60; 61; 71])) as [Hrun Hlim];
    [vm_compute; repeat split; discriminate|].
  split; [rewrite Hrun; vm_compute; reflexivity|exact (Hlim (60 * SECOND) (lit "a"))].
Defined.
