(* ===== verification/RedisLimit.v ===== *)
(** * The rate limiter on Redis

    [infrastructure/rate_limit/redis_rate_limiter.py]: the sliding window as a
    Lua script over a sorted set per key, and a client that lets requests
    pass while the server is away and leaves it alone for a while after a
    failure.

    The script is written out over the commands it calls; the commands are
    the class [SortedSets], [SortedSetLaws] what Redis documents of them.  The
    text of a member is a parameter: it is the time, as Lua writes a number,
    and a draw of [math.random], whose sequence Redis starts anew for every
    run of a script, so it is a function of the time.  [time.time] and
    [time.monotonic] are the instant the caller passes. *)

From S2P Require Import Prelude PyStr Entities Exceptions ValueObjects CodeGen Cache LinkRepo RedisCache RateLimit.

(** ** The server *)

(** [attempt]: how the server meets a command sent to it at some time. *)
Class SortedSets (S : Type) := MkSortedSets {
  attempt : Z → S → outcome unit * S;
  zremrangebyscore : Z → pystr → Z → Z → S → S;
  zcard : Z → pystr → S → Z;
  zadd : Z → pystr → Z → pystr → S → S;
  expire : Z → pystr → Z → S → S;
}.

(** [contents]: a sorted set as it is at some time, members with their
    scores; [deadline]: when a key expires.  Lifetimes are in seconds. *)
Class SortedSetLaws (S : Type) `{SortedSets S} := MkSortedSetLaws {
  contents : Z → S → pystr → gmap pystr Z;
  deadline : S → pystr → option Z;
  zcard_spec now k s : zcard now k s = Z.of_nat (size (contents now s k));
  zrem_contents now k lo hi s k' :
    contents now (zremrangebyscore now k lo hi s) k' =
    (if decide (k' = k) then filter (λ ms, ¬ (lo <= ms.2 <= hi)) (contents now s k) else contents now s k');
  zrem_deadline now k lo hi s k' d :
    deadline (zremrangebyscore now k lo hi s) k' = Some d → deadline s k' = Some d;
  zadd_contents now k score m s k' :
    contents now (zadd now k score m s) k' =
    (if decide (k' = k) then <[m := score]> (contents now s k) else contents now s k');
  zadd_deadline now k score m s k' : k' ≠ k → deadline (zadd now k score m s) k' = deadline s k';
  expire_contents now k ttl s k' : 0 < ttl → contents now (expire now k ttl s) k' = contents now s k';
  expire_deadline now k ttl s k' :
    deadline (expire now k ttl s) k' = (if decide (k' = k) then Some (now + ttl * SECOND) else deadline s k');
  (** A key keeps its set until its deadline, and is then gone. *)
  contents_later now now' s k : now <= now' →
    contents now' s k = contents now s k ∨
    (contents now' s k = ∅ ∧ ∃ d, deadline s k = Some d ∧ d <= now');
}.

(** ** [RedisRateLimiter] *)

Record LimiterSettings := MkLimiterSettings { ls_prefix : pystr; ls_retry_interval : Z }.

Record RedisRateLimiter (S : Type) := MkRedisRateLimiter {
  rr_unreachable_since : option Z;
  rr_refused : bool;
  rr_server : S;
}.
Arguments MkRedisRateLimiter {S}. Arguments rr_unreachable_since {S}.
Arguments rr_refused {S}. Arguments rr_server {S}.

Section limiter.
Context {S : Type} `{SortedSets S}.
Context (cfg : LimiterSettings) (member : Z → pystr).
Implicit Types (now limit period : Z) (key : pystr) (c : RedisRateLimiter S).

(** [SLIDING_WINDOW_SCRIPT]. *)
Definition sliding_window_script (key : pystr) now window_start limit ttl (s : S) : (bool * Z) * S :=
  let s := zremrangebyscore now key 0 window_start s in
  let current := zcard now key s in
  if current <? limit
  then ((true, limit - current - 1), expire now key ttl (zadd now key now (member now) s))
  else ((false, 0), s).

Definition backing_off now c : bool :=
  match rr_unreachable_since c with
  | None => false
  | Some t => now - t <? ls_retry_interval cfg * SECOND
  end.

Definition claim_attempt now c : bool * RedisRateLimiter S :=
  match rr_unreachable_since c with
  | None => (true, c)
  | Some _ => if backing_off now c then (false, c)
              else (true, MkRedisRateLimiter (Some now) (rr_refused c) (rr_server c))
  end.

Definition is_enforcing now c : bool * RedisRateLimiter S :=
  if rr_refused c then (false, c)
  else if backing_off now c then (false, c)
  else let '(o, s) := attempt now (rr_server c) in
       (match o with Reply _ => true | _ => false end,
        MkRedisRateLimiter (rr_unreachable_since c) (rr_refused c) s).

Definition note_success c : RedisRateLimiter S := MkRedisRateLimiter None false (rr_server c).
Definition note_refusal c : RedisRateLimiter S :=
  MkRedisRateLimiter (rr_unreachable_since c) true (rr_server c).
Definition note_outage now c : RedisRateLimiter S :=
  MkRedisRateLimiter (Some now) (rr_refused c) (rr_server c).
Definition on_server (s : S) c : RedisRateLimiter S :=
  MkRedisRateLimiter (rr_unreachable_since c) (rr_refused c) s.

Definition get_key key : pystr := ls_prefix cfg ++ COLON :: key.

(** [_evaluate]. *)
Definition evaluate now key limit period (s : S) : outcome (bool * Z) * S :=
  let '(o, s) := attempt now s in
  match o with
  | Reply _ => let '(a, s) := sliding_window_script (get_key key) now (now - period * SECOND) limit period s in
               (Reply a, s)
  | Rejected => (Rejected, s)
  | Unreachable => (Unreachable, s)
  end.

Definition check now key limit period c : RateLimitDecision * RedisRateLimiter S :=
  let '(claimed, c) := claim_attempt now c in
  if negb claimed then (MkRateLimitDecision true limit, c)
  else let '(o, s) := evaluate now key limit period (rr_server c) in
       let c := on_server s c in
       match o with
       | Reply (a, r) => (MkRateLimitDecision a r, note_success c)
       | Rejected => (MkRateLimitDecision true limit, note_refusal c)
       | Unreachable => (MkRateLimitDecision true limit, note_outage now c)
       end.

Definition redis_is_allowed now key limit period c : bool * RedisRateLimiter S :=
  let '(d, c) := check now key limit period c in (allowed d, c).

(** Two commands, each of which may fail. *)
Definition count_window now key period (s : S) : outcome Z * S :=
  let '(o, s) := attempt now s in
  match o with
  | Reply _ =>
      let s := zremrangebyscore now (get_key key) 0 (now - period * SECOND) s in
      let '(o, s) := attempt now s in
      (match o with
       | Reply _ => Reply (zcard now (get_key key) s)
       | Rejected => Rejected
       | Unreachable => Unreachable
       end, s)
  | Rejected => (Rejected, s)
  | Unreachable => (Unreachable, s)
  end.

Definition redis_get_remaining now key limit period c : Z * RedisRateLimiter S :=
  let '(claimed, c) := claim_attempt now c in
  if negb claimed then (limit, c)
  else let '(o, s) := count_window now key period (rr_server c) in
       let c := on_server s c in
       match o with
       | Reply current => (Z.max 0 (limit - current), c)
       | Rejected => (limit, note_refusal c)
       | Unreachable => (limit, note_outage now c)
       end.

Definition RedisLimiter : RateLimiter (RedisRateLimiter S) :=
  {| rl_is_allowed := redis_is_allowed; rl_get_remaining := redis_get_remaining |}.
End limiter.

(** ** The script is the sliding window *)

Section window.
Context {S : Type} `{SortedSetLaws S}.
Context (cfg : LimiterSettings) (member : Z → pystr).
Context (limit period : Z) (Hperiod : 0 < period).
(** The server answers, and nothing else changes it. *)
Context (answers : ∀ now s, attempt now s = (Reply tt, s)).
Implicit Types (now : Z) (key : pystr) (s : S) (log : list request).

#[local] Instance limiter_instance : RateLimiter (RedisRateLimiter S) := RedisLimiter cfg member.

(** The set a key should have: a member for every granted request that
    counts. *)
Definition log_map now key log : gmap pystr Z :=
  list_to_map ((λ ts, (member ts, ts)) <$> (filter (counted now period key) log).*1).

Definition tag (r : request) : pystr * pystr := (r.2, member r.1).

Lemma log_members now key log : NoDup (tag <$> log) →
  NoDup ((λ ts, (member ts, ts)) <$> (filter (counted now period key) log).*1).*1.
Proof.
  intros Hn. rewrite -!list_fmap_compose.
  induction log as [|[ts k] log IH]; [constructor|]. rewrite fmap_cons list.NoDup_cons in Hn. destruct Hn as [Hx Hn].
  rewrite filter_cons. case_decide as Hc; [|by apply IH]. rewrite fmap_cons list.NoDup_cons. split; [|by apply IH].
  intros (r & Heq & Hr)%list_elem_of_fmap. apply Hx, list_elem_of_fmap. exists r.
  apply list_elem_of_filter in Hr as [[Hk _] Hr]. split; [|done].
  destruct Hc as [Hk' _]. simpl in *. rewrite /tag /=. by rewrite Hk Hk' Heq.
Qed.

Lemma log_map_size now key log : NoDup (tag <$> log) →
  Z.of_nat (size (log_map now key log)) = granted_in_window now period key log.
Proof.
  intros Hn. rewrite /log_map -(length_map_to_list (list_to_map _)).
  rewrite map_to_list_to_map; [|by apply log_members].
  by rewrite !length_fmap.
Qed.

Lemma log_map_lookup now key log m ts : NoDup (tag <$> log) →
  log_map now key log !! m = Some ts ↔ m = member ts ∧ in_window now period ts ∧ (ts, key) ∈ log.
Proof.
  intros Hn. rewrite /log_map -elem_of_list_to_map; [|by apply log_members].
  rewrite list_elem_of_fmap. split.
  - intros (x & [= -> ->] & ([x' k] & -> & [[Hk Hw] Hin]%list_elem_of_filter)%list_elem_of_fmap).
    simpl in *. by subst.
  - intros (-> & Hw & Hin). exists ts. split; [done|]. apply list_elem_of_fmap. exists (ts, key).
    split; [done|]. by apply list_elem_of_filter.
Qed.

(** The sets of the server agree with the log at some time. *)
Record agrees now s log : Prop := {
  ag_nodup : NoDup (tag <$> log);
  ag_past ts key : (ts, key) ∈ log → ts <= now;
  ag_scores key m sc : contents now s (get_key cfg key) !! m = Some sc → 0 <= sc;
  ag_contents key : filter (λ ms, in_window now period ms.2) (contents now s (get_key cfg key)) = log_map now key log;
  ag_deadline key d ts : deadline s (get_key cfg key) = Some d → (ts, key) ∈ log → ts + period * SECOND <= d;
}.

Lemma agrees_later now now' s log : now <= now' → agrees now s log → agrees now' s log.
Proof.
  intros Hle [Hn Hp Hsc Hc Hd]. split; [done|intros ts key Hin; specialize (Hp ts key Hin); lia| | |exact Hd].
  - intros key m sc Hm. destruct (contents_later now now' s (get_key cfg key) Hle) as [Heq|[Heq _]]; rewrite Heq in Hm; [|done].
    by eapply Hsc.
  - intros key. apply map_eq. intros m. apply option_eq. intros ts.
    rewrite log_map_lookup // map_lookup_filter_Some /=.
    destruct (contents_later now now' s (get_key cfg key) Hle) as [Heq|[Heq (d & Hdl & Hex)]]; rewrite Heq.
    + assert (in_window now' period ts → in_window now period ts) as Hw by (rewrite /in_window; lia).
      pose proof (log_map_lookup now key log m ts Hn) as Hl. rewrite -Hc map_lookup_filter_Some /= in Hl. naive_solver.
    + rewrite lookup_empty. split; [by intros [? _]|]. intros (_ & Hw & Hin). exfalso.
      specialize (Hd key d ts Hdl Hin). rewrite /in_window in Hw. lia.
Qed.

Lemma get_key_inj key key' : get_key cfg key = get_key cfg key' → key = key'.
Proof. rewrite /get_key. by intros [= ?]%(inj (app (ls_prefix cfg))). Qed.

Lemma trim_contents now key s log : agrees now s log →
  contents now (zremrangebyscore now (get_key cfg key) 0 (now - period * SECOND) s) (get_key cfg key) =
  log_map now key log.
Proof.
  intros Ha. rewrite zrem_contents decide_True // -(ag_contents now s log Ha).
  apply map_filter_ext. intros m sc Hm. apply (ag_scores now s log Ha) in Hm. rewrite /in_window /=. lia.
Qed.

Lemma trim_agrees now key s log : agrees now s log →
  agrees now (zremrangebyscore now (get_key cfg key) 0 (now - period * SECOND) s) log.
Proof.
  intros Ha. pose proof (trim_contents now key s log Ha) as Ht. destruct Ha as [Hn Hp Hsc Hc Hd].
  split; [done|done| | |].
  - intros key' m sc. rewrite zrem_contents. case_decide; [|apply Hsc].
    intros [Hm _]%map_lookup_filter_Some. by eapply Hsc.
  - intros key'. destruct (decide (key' = key)) as [->|Hne].
    + rewrite Ht. apply map_filter_id. intros m ts Hm. by apply log_map_lookup in Hm as (_ & ? & _).
    + rewrite zrem_contents decide_False //. by intros ?%get_key_inj.
  - intros key' d ts Hdl. apply (Hd key' d ts). by eapply zrem_deadline.
Qed.

Lemma grant_agrees now key s log : 0 <= now → tag (now, key) ∉ tag <$> log → agrees now s log →
  contents now s (get_key cfg key) = log_map now key log →
  agrees now (expire now (get_key cfg key) period (zadd now (get_key cfg key) now (member now) s))
    (log ++ [(now, key)]).
Proof.
  intros Hnow Hnew [Hn Hp Hsc Hc Hd] Hk.
  assert (NoDup (tag <$> log ++ [(now, key)])) as Hn'.
  { rewrite fmap_app. apply list.NoDup_app. split_and!; [done| |apply NoDup_singleton].
    intros x Hx Hin%list_elem_of_singleton. by subst. }
  split; [done| | | |].
  - intros ts k [Hin|[= -> ->]%list_elem_of_singleton]%elem_of_app; [by eapply Hp|lia].
  - intros key' m sc. rewrite expire_contents // zadd_contents. case_decide as Heq; [|apply Hsc].
    intros [[_ <-]|[_ Hm]]%lookup_insert_Some; [done|]. by eapply Hsc.
  - intros key'. apply map_eq. intros m. apply option_eq. intros ts.
    rewrite log_map_lookup // expire_contents // zadd_contents map_lookup_filter_Some elem_of_app list_elem_of_singleton /=.
    assert (in_window now period now) as Hin by (rewrite /in_window; change SECOND with 1000000; lia).
    destruct (decide (key' = key)) as [->|Hne].
    + rewrite decide_True // Hk lookup_insert_Some log_map_lookup //. split.
      * intros [[[<- <-]|(_ & -> & _ & ?)] Hw]; naive_solver.
      * intros (-> & Hw & [Hl|[= ->]]); [|naive_solver]. split; [|done]. right. split; [|naive_solver].
        intros Heq. apply Hnew, list_elem_of_fmap. exists (ts, key). split; [|done]. by rewrite /tag /= Heq.
    + rewrite decide_False; [|by intros ?%get_key_inj].
      pose proof (log_map_lookup now key' log m ts Hn) as Hl. rewrite -Hc map_lookup_filter_Some /= in Hl. naive_solver.
  - intros key' d ts. rewrite expire_deadline. case_decide as Heq.
    + intros [= <-] [Hl|[= -> ->]%list_elem_of_singleton]%elem_of_app; [|lia]. specialize (Hp ts key' Hl). lia.
    + rewrite zadd_deadline //. intros Hdl [Hl|[= -> ->]%list_elem_of_singleton]%elem_of_app; [by eapply Hd|done].
Qed.

(** One request: the answer of the window, and the sets agree again. *)
Lemma allowed_step now key c log ok c' : 0 <= now → rr_unreachable_since c = None →
  agrees now (rr_server c) log → tag (now, key) ∉ tag <$> log →
  redis_is_allowed cfg member now key limit period c = (ok, c') →
  ok = (granted_in_window now period key log <? limit) ∧ rr_unreachable_since c' = None ∧
  agrees now (rr_server c') (if ok then log ++ [(now, key)] else log).
Proof.
  intros Hnow Hup Ha Hnew. rewrite /redis_is_allowed /check /claim_attempt Hup /= /evaluate answers.
  rewrite /sliding_window_script zcard_spec (trim_contents now key _ log Ha) log_map_size; [|by destruct Ha].
  pose proof (trim_agrees now key _ log Ha) as Ht. pose proof (trim_contents now key _ log Ha) as Htc.
  destruct (_ <? limit); intros [= <- <-]; (split; [done|split; [done|]]); [|done].
  simpl. by apply grant_agrees.
Qed.

Lemma redis_run_window t rs c log : 0 <= t → clock_from t rs → rr_unreachable_since c = None →
  agrees t (rr_server c) log → NoDup (tag <$> log ++ rs) →
  (limiter_run limit period c rs).1 = (window_run limit period log rs).1.
Proof.
  revert t c log. induction rs as [|[now key] rs IH]; intros t c log Ht Hc Hup Ha Hn; [done|].
  destruct Hc as [Hle Hc]. cbn [limiter_run window_run]. unfold rl_is_allowed, limiter_instance, RedisLimiter.
  assert (tag (now, key) ∉ tag <$> log ∧ NoDup (tag <$> log ++ rs) ∧ NoDup (tag <$> (log ++ [(now, key)]) ++ rs)) as (Hnew & Hn1 & Hn2).
  { rewrite -app_assoc. split_and!; [..|done]; rewrite !fmap_app fmap_cons in Hn |- *.
    - intros Hin. apply list.NoDup_app in Hn as (_ & Hd & _). by eapply Hd; [|constructor].
    - eapply sublist_NoDup; [exact Hn|]. apply sublist_app; [done|by apply sublist_cons]. }
  destruct (redis_is_allowed cfg member now key limit period c) as [ok c'] eqn:E.
  destruct (allowed_step now key c log ok c') as (-> & Hup' & Ha'); [lia|done|by eapply agrees_later|done|done|].
  specialize (IH now c' (if granted_in_window now period key log <? limit then log ++ [(now, key)] else log)
    ltac:(lia) Hc Hup' Ha' ltac:(by case_match)).
  destruct (limiter_run _ _ c' rs). destruct (window_run _ _ _ rs). simpl in *. by rewrite IH.
Qed.
End window.

(** C21: On a server that answers, started with no sets and asked in the order
    of the clock, the limiter on Redis grants exactly the requests the sliding
    window over all granted requests does, as the limiter in memory: the
    trimming and the expiry of the sets lose nothing that counts.  This needs
    that no two requests of one key get the same member. *)
Theorem redis_limiter_is_a_sliding_window {S} `{SortedSetLaws S} cfg member limit period t rs (s : S) :
  (∀ now s, attempt now s = (Reply tt, s)) → 0 < period → 0 <= t → clock_from t rs →
  (∀ key, contents t s (get_key cfg key) = ∅) → NoDup (tag member <$> rs) →
  (limiter_run (H := RedisLimiter cfg member) limit period (MkRedisRateLimiter None false s) rs).1 =
  (window_run limit period [] rs).1.
Proof.
  intros Hans Hp Ht Hc Hs Hn. apply (redis_run_window cfg member limit period Hp Hans t); try done.
  split; [constructor|by intros ?? ?%elem_of_nil| | |by intros ??? _ ?%elem_of_nil].
  - intros key m sc. simpl. by rewrite Hs lookup_empty.
  - intros key. simpl. rewrite Hs. apply map_filter_empty.
Qed.

(** ** Requests that share a member *)

Section bursts.
Context {S : Type} `{SortedSetLaws S}.
Context (cfg : LimiterSettings) (member : Z → pystr).
Context (answers : ∀ now s, attempt now s = (Reply tt, s)).

Definition only_member (m0 : pystr) (set : gmap pystr Z) : Prop := ∀ m sc, set !! m = Some sc → m = m0.

Lemma only_member_size m0 set : only_member m0 set → Z.of_nat (size set) <= 1.
Proof.
  intros Ho. assert (set ⊆ <[m0 := default 0 (set !! m0)]> ∅) as Hs.
  { apply map_subseteq_spec. intros m sc Hm. pose proof (Ho _ _ Hm) as ->. by rewrite lookup_insert_eq Hm. }
  apply map_subseteq_size in Hs. rewrite map_size_insert_None // map_size_empty in Hs. lia.
Qed.

Lemma shared_member_run limit period t key m0 rs c :
  0 < period → 2 <= limit → clock_from t rs → Forall (λ r : request, r.2 = key ∧ member r.1 = m0) rs →
  rr_unreachable_since c = None → only_member m0 (contents t (rr_server c) (get_key cfg key)) →
  (limiter_run (H := RedisLimiter cfg member) limit period c rs).1 = replicate (length rs) true.
Proof.
  intros Hp Hl. revert t c. induction rs as [|[now k] rs IH]; intros t c Hc Hm Hup Ho; [done|].
  destruct Hc as [Hle Hc]. apply Forall_cons_iff in Hm as [[Hk Hm0] Hm]. simpl in Hk, Hm0. subst k.
  cbn [limiter_run]. unfold rl_is_allowed at 1, RedisLimiter at 1.
  rewrite {1}/redis_is_allowed /check /claim_attempt Hup /= /evaluate answers /sliding_window_script.
  set (s1 := zremrangebyscore _ _ _ _ _).
  assert (only_member m0 (contents now s1 (get_key cfg key))) as Ho1.
  { intros m sc. rewrite zrem_contents decide_True //. intros [Hms _]%map_lookup_filter_Some. revert Hms.
    destruct (contents_later t now (rr_server c) (get_key cfg key) Hle) as [->|[-> _]]; [apply Ho|done]. }
  pose proof (only_member_size _ _ Ho1). rewrite zcard_spec (_ : _ <? limit = true); [|lia].
  specialize (IH now (note_success (on_server (expire now (get_key cfg key) period
    (zadd now (get_key cfg key) now (member now) s1)) c)) Hc Hm eq_refl).
  destruct (limiter_run _ _ _ rs). simpl in *. rewrite IH //.
  intros m sc. rewrite expire_contents // zadd_contents decide_True //.
  intros [[<- _]|[_ Hms]]%lookup_insert_Some; [done|]. by eapply Ho1.
Qed.
End bursts.

(** Requests of one key whose times give the same member are counted as
    one: from an empty set, and with a limit of two or more, every one of them
    is granted, however many there are. *)
Theorem requests_that_share_a_member_are_one {S} `{SortedSetLaws S} cfg member limit period t key m0 rs (s : S) :
  (∀ now s, attempt now s = (Reply tt, s)) → 0 < period → 2 <= limit → clock_from t rs →
  Forall (λ r : request, r.2 = key ∧ member r.1 = m0) rs → contents t s (get_key cfg key) = ∅ →
  (limiter_run (H := RedisLimiter cfg member) limit period (MkRedisRateLimiter None false s) rs).1 =
  replicate (length rs) true.
Proof.
  intros Hans Hp Hl Hc Hm Hs. apply (shared_member_run cfg member Hans limit period t key m0); try done.
  simpl. rewrite Hs. intros m sc. by rewrite lookup_empty.
Qed.

(** ** Outages *)

(** The limiter on Redis never refuses a request because of a failure.
    After a lost command it grants with the whole limit left and sends nothing
    until the retry interval has passed; after a command the server refuses it
    grants, and says it is not enforcing; an answer clears both. *)
Theorem failures_let_requests_pass {S} `{SortedSets S} cfg member now key limit period
    (c : RedisRateLimiter S) d c' :
  check cfg member now key limit period c = (d, c') →
  let granted := MkRateLimitDecision true limit in
  if backing_off cfg now c then d = granted ∧ c' = c
  else match (attempt now (rr_server c)).1 with
       | Reply _ => rr_unreachable_since c' = None ∧ rr_refused c' = false
       | Rejected => d = granted ∧ ∀ now', (is_enforcing cfg now' c').1 = false
       | Unreachable => d = granted ∧
           ∀ now' key' limit' period', now <= now' < now + ls_retry_interval cfg * SECOND →
             check cfg member now' key' limit' period' c' = (MkRateLimitDecision true limit', c') ∧
             redis_get_remaining cfg now' key' limit' period' c' = (limit', c')
       end.
Proof.
  intros Hcheck granted. rewrite {1}/check /claim_attempt in Hcheck.
  assert (∀ c1, rr_server c1 = rr_server c →
    (let '(o, s) := evaluate cfg member now key limit period (rr_server c1) in
     let c := on_server s c1 in
     match o with
     | Reply (a, r) => (MkRateLimitDecision a r, note_success c)
     | Rejected => (MkRateLimitDecision true limit, note_refusal c)
     | Unreachable => (MkRateLimitDecision true limit, note_outage now c)
     end) = (d, c') →
    match (attempt now (rr_server c)).1 with
    | Reply _ => rr_unreachable_since c' = None ∧ rr_refused c' = false
    | Rejected => d = granted ∧ ∀ now', (is_enforcing cfg now' c').1 = false
    | Unreachable => d = granted ∧
        ∀ now' key' limit' period', now <= now' < now + ls_retry_interval cfg * SECOND →
          check cfg member now' key' limit' period' c' = (MkRateLimitDecision true limit', c') ∧
          redis_get_remaining cfg now' key' limit' period' c' = (limit', c')
    end) as Hsent.
  { intros c1 Hc1. rewrite Hc1 /evaluate. destruct (attempt now (rr_server c)) as [[a| |] s]; simpl.
    - destruct (sliding_window_script _ _ _ _ _ _ _) as [[a' r] s']. by intros [= <- <-].
    - by intros [= <- <-].
    - intros [= <- <-]. split; [done|]. intros now' key' limit' period' Hn.
      rewrite /check /redis_get_remaining /claim_attempt /backing_off /=.
      by rewrite (_ : now' - now <? _ = true); [|lia]. }
  destruct (rr_unreachable_since c) as [u|] eqn:Eu.
  - destruct (backing_off cfg now c) eqn:Eb; [by simplify_eq/=|].
    by apply (Hsent (MkRedisRateLimiter (Some now) (rr_refused c) (rr_server c))).
  - rewrite (_ : backing_off cfg now c = false); [by apply (Hsent c)|]. by rewrite /backing_off Eu.
Qed.

(** ** A server of sorted sets *)

Module RedisLimitDemo.
(** A set and, perhaps, its deadline. *)
Record zsets := MkZsets { z_sets : gmap pystr (gmap pystr Z); z_deadlines : gmap pystr Z }.
Definition live (now : Z) (k : pystr) (s : zsets) : gmap pystr Z :=
  match z_deadlines s !! k with
  | Some d => if d <=? now then ∅ else default ∅ (z_sets s !! k)
  | None => default ∅ (z_sets s !! k)
  end.
(** An expired key is gone, with its deadline, before a command touches it. *)
Definition drop_expired (now : Z) (k : pystr) (s : zsets) : zsets :=
  MkZsets (<[k := live now k s]> (z_sets s))
    (match z_deadlines s !! k with
     | Some d => if d <=? now then delete k (z_deadlines s) else z_deadlines s
     | None => z_deadlines s
     end).
Definition put (k : pystr) (set : gmap pystr Z) (s : zsets) : zsets := MkZsets (<[k := set]> (z_sets s)) (z_deadlines s).

#[global] Instance zsets_server : SortedSets zsets := {|
  attempt _ s := (Reply tt, s);
  zremrangebyscore now k lo hi s :=
    let s := drop_expired now k s in put k (filter (λ ms, ¬ (lo <= ms.2 <= hi)) (live now k s)) s;
  zcard now k s := Z.of_nat (size (live now k s));
  zadd now k score m s := let s := drop_expired now k s in put k (<[m := score]> (live now k s)) s;
  expire now k ttl s := let s := drop_expired now k s in
                        MkZsets (z_sets s) (<[k := now + ttl * SECOND]> (z_deadlines s));
|}.

Lemma drop_expired_live now k s k' : live now k' (drop_expired now k s) = live now k' s.
Proof.
  rewrite /live /drop_expired /=. destruct (decide (k' = k)) as [->|Hne].
  - rewrite lookup_insert_eq. destruct (z_deadlines s !! k) as [d|] eqn:Ed; [|by rewrite Ed /live Ed].
    destruct (d <=? now) eqn:El; [by rewrite lookup_delete_eq /live Ed El|by rewrite Ed El /live Ed El].
  - rewrite lookup_insert_ne //. destruct (z_deadlines s !! k) as [d|]; [|done].
    destruct (d <=? now); [by rewrite lookup_delete_ne|done].
Qed.

Lemma drop_expired_deadline now k s k' d :
  z_deadlines (drop_expired now k s) !! k' = Some d → z_deadlines s !! k' = Some d.
Proof.
  rewrite /drop_expired /=. destruct (z_deadlines s !! k) as [e|]; [|done].
  destruct (e <=? now); [|done]. by intros [_ ?]%lookup_delete_Some.
Qed.

Lemma put_live now k set s k' : z_deadlines s !! k = None ∨ (∃ d, z_deadlines s !! k = Some d ∧ now < d) →
  live now k' (put k set s) = if decide (k' = k) then set else live now k' s.
Proof.
  intros Hd. rewrite /live /put /=. case_decide as Heq; [subst|by rewrite lookup_insert_ne].
  rewrite lookup_insert_eq. destruct Hd as [->|(d & -> & Hlt)]; [done|].
  by rewrite (_ : d <=? now = false); [|lia].
Qed.

Lemma drop_expired_pending now k s :
  let s := drop_expired now k s in
  z_deadlines s !! k = None ∨ (∃ d, z_deadlines s !! k = Some d ∧ now < d).
Proof.
  rewrite /drop_expired /=. destruct (z_deadlines s !! k) as [d|] eqn:Ed; [|by left].
  destruct (Z.leb_spec d now); [left; apply lookup_delete_eq|right; by exists d].
Qed.

#[global] Instance zsets_laws : SortedSetLaws zsets.
Proof.
  refine {| contents now s k := live now k s; deadline s k := z_deadlines s !! k |}; simpl.
  - done.
  - intros now k lo hi s k'. rewrite put_live; [|apply drop_expired_pending]. by rewrite !drop_expired_live.
  - intros now k lo hi s k' d. apply drop_expired_deadline.
  - intros now k score m s k'. rewrite put_live; [|apply drop_expired_pending]. by rewrite !drop_expired_live.
  - intros now k score m s k' Hne. rewrite /drop_expired /=. destruct (z_deadlines s !! k); [|done].
    case_match; [by rewrite lookup_delete_ne|done].
  - intros now k ttl s k' Ht. rewrite -(drop_expired_live now k s k') /live /=.
    destruct (decide (k' = k)) as [->|Hne]; [|by rewrite lookup_insert_ne].
    rewrite lookup_insert_eq (_ : _ <=? now = false); [|change SECOND with 1000000; lia].
    destruct (drop_expired_pending now k s) as [He|(d & He & Hlt)]; rewrite /= in He; rewrite He; [done|].
    by rewrite (_ : d <=? now = false); [|lia].
  - intros now k ttl s k'. case_decide as Heq; [subst; apply lookup_insert_eq|]. rewrite lookup_insert_ne //.
    rewrite /drop_expired /=. destruct (z_deadlines s !! k); [|done]. case_match; [by rewrite lookup_delete_ne|done].
  - intros now now' s k Hle. rewrite /live. destruct (z_deadlines s !! k) as [d|]; [|by left].
    destruct (Z.leb_spec d now'); [right; eauto|left]. by rewrite (_ : d <=? now = false); [|lia].
Defined.

Definition cfg : LimiterSettings := MkLimiterSettings (lit "rate_limiter") 10.
(** The time in tenths of a millisecond, which is what Lua writes of it. *)
Definition member (now : Z) : pystr := str_of_Z (now / 100) ++ lit ":0.17".
Definition requests : list request := (λ s, (s * SECOND, lit "a")) <$> [0; 10; 20; 59; 60; 61; 71].

Lemma redis_limiter_is_a_sliding_window_witness :
  (limiter_run (H := RedisLimiter cfg member) 2 60 (MkRedisRateLimiter None false (MkZsets ∅ ∅)) requests).1 =
  [true; true; false; false; true; false; true].
Proof.
  rewrite (redis_limiter_is_a_sliding_window cfg member 2 60 0 requests (MkZsets ∅ ∅));
    [vm_compute; reflexivity|done|done|done|vm_compute; repeat split; discriminate|done|].
  apply (bool_decide_unpack _). vm_compute. exact I.
Defined.

Lemma requests_that_share_a_member_are_one_witness :
  (limiter_run (H := RedisLimiter cfg member) 2 60 (MkRedisRateLimiter None false (MkZsets ∅ ∅))
     ((λ n, (n, lit "a")) <$> [1000; 1010; 1020; 1030])).1 = [true; true; true; true].
Proof.
  rewrite (requests_that_share_a_member_are_one cfg member 2 60 0 (lit "a") (member 1000) _ (MkZsets ∅ ∅));
    [reflexivity|done|done|done|vm_compute; repeat split; discriminate|repeat constructor|done].
Defined.

Lemma failures_let_requests_pass_witness :
  check cfg member 5000 (lit "a") 3 60 (MkRedisRateLimiter (Some 0) false (MkZsets ∅ ∅)) =
  (MkRateLimitDecision true 3, MkRedisRateLimiter (Some 0) false (MkZsets ∅ ∅)).
Proof.
  destruct (check cfg member 5000 (lit "a") 3 60 (MkRedisRateLimiter (Some 0) false (MkZsets ∅ ∅))) as [d c'] eqn:E.
  destruct (failures_let_requests_pass cfg member 5000 (lit "a") 3 60
    (MkRedisRateLimiter (Some 0) false (MkZsets ∅ ∅)) d c' E) as [-> ->]. reflexivity.
Defined.
End RedisLimitDemo.
