(* ===== verification/Failover.v ===== *)
(** * Failover between interchangeable services

    [infrastructure/failover/failover_service.py]: a chain of services in
    priority order, of which one at a time takes the work.  Calls move the
    work down when a service raises, background rounds move it down on a
    failed probe and back up on a good one.

    The lock is held around the shared state and not around a call, so calls
    and rounds interleave between the points where it is taken.  A call is
    therefore a small state machine ([phase]), one step per stretch of code
    between two such points, and [sys_step] interleaves the steps of any
    number of calls with background rounds.  The services are outside the
    model: what a service does with one call is an argument ([None] when it
    raises), and so are a probe's answer and the clock.

    A logger that raises costs a line, never the operation; [logger_raises]
    says which of the lines offered to it are lost. *)

From S2P Require Import Prelude PyStr Exceptions.

Inductive CheckOutcome := NOT_RUN | HEALTHY | UNHEALTHY | PROBE_FAILED.

#[global] Instance CheckOutcome_eq_dec : EqDecision CheckOutcome.
Proof. solve_decision. Defined.

(** What the constructor fixes. *)
Record FailoverConfig := MkFailoverConfig {
  services : list pystr;
  has_checker : bool;
  upgrade_cooldown : Z;
}.

Record FailoverService := MkFailoverService {
  current_index : nat;
  last_upgrade_attempt : Z;
  dropped_calls : Z;
  failed_checks : Z;
  lost_log_lines : Z;
  last_check : CheckOutcome;
  said : nat;
}.

Definition new_FailoverService (cfg : FailoverConfig) : result exn FailoverService :=
  if bool_decide (services cfg = []) then Err (PyError ValueError)
  else Ok (MkFailoverService 0 0 0 0 0 NOT_RUN 0).

Definition with_index (i : nat) (s : FailoverService) : FailoverService :=
  MkFailoverService i (last_upgrade_attempt s) (dropped_calls s) (failed_checks s)
    (lost_log_lines s) (last_check s) (said s).
Definition with_check (o : CheckOutcome) (s : FailoverService) : FailoverService :=
  MkFailoverService (current_index s) (last_upgrade_attempt s) (dropped_calls s) (failed_checks s)
    (lost_log_lines s) o (said s).
Definition with_attempt (now : Z) (s : FailoverService) : FailoverService :=
  MkFailoverService (current_index s) now (dropped_calls s) (failed_checks s)
    (lost_log_lines s) (last_check s) (said s).
Definition count_dropped (s : FailoverService) : FailoverService :=
  MkFailoverService (current_index s) (last_upgrade_attempt s) (dropped_calls s + 1)
    (failed_checks s) (lost_log_lines s) (last_check s) (said s).
Definition count_failed_check (s : FailoverService) : FailoverService :=
  MkFailoverService (current_index s) (last_upgrade_attempt s) (dropped_calls s)
    (failed_checks s + 1) (lost_log_lines s) (last_check s) (said s).

Section failover.
Context (cfg : FailoverConfig) (logger_raises : nat → bool).

Definition size : nat := length (services cfg).

Definition say (s : FailoverService) : FailoverService :=
  MkFailoverService (current_index s) (last_upgrade_attempt s) (dropped_calls s) (failed_checks s)
    (lost_log_lines s + if logger_raises (said s) then 1 else 0) (last_check s) (S (said s)).

(** ** Background rounds *)

(** Ask services in turn until one answers for itself; a probe that raises
    is announced and passed over. *)
Fixpoint ask (probe : nat → option bool) (candidates : list nat) (s : FailoverService)
    : option nat * FailoverService :=
  match candidates with
  | [] => (None, s)
  | i :: candidates =>
      match probe i with
      | None => ask probe candidates (say s)
      | Some true => (Some i, s)
      | Some false => ask probe candidates s
      end
  end.

Definition attempt_demotion (probe : nat → option bool) (s : FailoverService)
    : bool * FailoverService :=
  if negb (has_checker cfg) then (false, s)
  else
    match probe (current_index s) with
    | Some true => (false, with_check HEALTHY s)
    | None => (false, say (with_check PROBE_FAILED s))
    | Some false =>
        let s := with_check UNHEALTHY s in
        let below := seq (S (current_index s)) (size - S (current_index s)) in
        match ask probe below s with
        | (Some i, s) => (true, say (with_check HEALTHY (with_index i s)))
        | (None, s) => (false, say s)
        end
    end.

(** [clock] is [None] when reading the time raises. *)
Definition attempt_upgrade (probe : nat → option bool) (clock : option Z) (s : FailoverService)
    : result exn unit * FailoverService :=
  if bool_decide (current_index s = 0%nat) then (Ok tt, s)
  else
    match clock with
    | None => (Err (PyError RuntimeError), s)
    | Some now =>
        if now - last_upgrade_attempt s <? upgrade_cooldown cfg then (Ok tt, s)
        else
          let s := with_attempt now s in
          let answered := if has_checker cfg then probe else λ _, Some true in
          match ask answered (seq 0 (current_index s)) s with
          | (Some i, s) => (Ok tt, say (with_check HEALTHY (with_index i s)))
          | (None, s) => (Ok tt, s)
          end
    end.

Definition run_check (probe : nat → option bool) (clock : option Z) (s : FailoverService)
    : result exn unit * FailoverService :=
  let '(demoted, s) := attempt_demotion probe s in
  if demoted then (Ok tt, s) else attempt_upgrade probe clock s.

(** One turn of [_periodic_check]: a round that throws costs that round. *)
Definition periodic_check (probe : nat → option bool) (clock : option Z) (s : FailoverService)
    : FailoverService :=
  match run_check probe clock s with
  | (Ok _, s) => s
  | (Err _, s) => say (count_failed_check s)
  end.

Definition switch_to_next (s : FailoverService) : bool * FailoverService :=
  let next_index := S (current_index s) in
  if bool_decide (size <= next_index)%nat then (false, s)
  else (true, say (with_index next_index s)).

(** ** Calls *)

(** Where a call stands: at the head of the loop, inside a service's method,
    after that service refused (or was passed over, having been asked
    before), past the loop, or back with its caller ([None] is
    [ALL_SERVICES_FAILED]). *)
Inductive phase (R : Type) :=
| Choosing
| Asking (index : nat)
| Refused (index : nat)
| Dropping
| Returned (answer : option R).
Arguments Choosing {R}.
Arguments Asking {R} index.
Arguments Refused {R} index.
Arguments Dropping {R}.
Arguments Returned {R} answer.

Record call (R : Type) := MkCall {
  tried : list nat;
  turns_left : nat;
  stands : phase R;
}.
Arguments MkCall {R} tried turns_left stands.
Arguments tried {R} c.
Arguments turns_left {R} c.
Arguments stands {R} c.

Definition new_call (R : Type) : call R := MkCall [] (2 * size) Choosing.

(** One step of a call; [answer] is what the service does when the call is
    inside its method. *)
Definition call_step {R} (answer : option R) (s : FailoverService) (c : call R)
    : FailoverService * call R :=
  match stands c with
  | Choosing =>
      if bool_decide (length (tried c) < size)%nat && bool_decide (0 < turns_left c)%nat then
        let index := current_index s in
        if bool_decide (index ∈ tried c)
        then (s, MkCall (tried c) (turns_left c - 1) (Refused index))
        else (s, MkCall (index :: tried c) (turns_left c - 1) (Asking index))
      else (s, MkCall (tried c) (turns_left c) Dropping)
  | Asking index =>
      match answer with
      | Some r => (s, MkCall (tried c) (turns_left c) (Returned (Some r)))
      | None => (say s, MkCall (tried c) (turns_left c) (Refused index))
      end
  | Refused index =>
      if bool_decide (current_index s = index) then
        let '(moved, s) := switch_to_next s in
        (s, MkCall (tried c) (turns_left c) (if moved then Choosing else Dropping))
      else (s, MkCall (tried c) (turns_left c) Choosing)
  | Dropping => (say (count_dropped s), MkCall (tried c) (turns_left c) (Returned None))
  | Returned _ => (s, c)
  end.

(** A call that nothing interferes with. *)
Fixpoint run_call {R} (fuel : nat) (answers : nat → option R) (s : FailoverService) (c : call R)
    : option (option R) * FailoverService :=
  match fuel with
  | O => (None, s)
  | S fuel =>
      match stands c with
      | Returned r => (Some r, s)
      | Asking index => let '(s, c) := call_step (answers index) s c in run_call fuel answers s c
      | _ => let '(s, c) := call_step None s c in run_call fuel answers s c
      end
  end.

(** Three steps a turn, [2 * size] turns, and the way out. *)
Definition call_fuel : nat := S (3 * (2 * size) + 2).

Definition execute {R} (answers : nat → option R) (s : FailoverService)
    : option (option R) * FailoverService :=
  run_call call_fuel answers s (new_call R).

(** ** Interleavings *)

Record system (R : Type) := MkSystem {
  shared : FailoverService;
  calls : list (call R);
}.
Arguments MkSystem {R} shared calls.
Arguments shared {R} s.
Arguments calls {R} s.

Section steps.
Context {R : Type} (behaves : nat → option R → Prop) (may_report : (nat → option bool) → Prop).

Inductive sys_step : system R → system R → Prop :=
| step_arrival s cs : sys_step (MkSystem s cs) (MkSystem s (cs ++ [new_call R]))
| step_call s cs t c answer s' c' :
    cs !! t = Some c →
    (∀ i, stands c = Asking i → behaves i answer) →
    call_step answer s c = (s', c') →
    sys_step (MkSystem s cs) (MkSystem s' (<[t := c']> cs))
| step_round s cs probe clock :
    may_report probe →
    sys_step (MkSystem s cs) (MkSystem (periodic_check probe clock s) cs).
End steps.
End failover.

Arguments Choosing {R}.
Arguments Asking {R} index.
Arguments Refused {R} index.
Arguments Dropping {R}.
Arguments Returned {R} answer.
Arguments MkCall {R} tried turns_left stands.
Arguments tried {R} c.
Arguments turns_left {R} c.
Arguments stands {R} c.
Arguments MkSystem {R} shared calls.
Arguments shared {R} s.
Arguments calls {R} s.

(** ** What each operation moves *)

Section facts.
Context (cfg : FailoverConfig) (logger_raises : nat → bool).
Implicit Types (s : FailoverService) (probe : nat → option bool).

Abbreviation say := (say logger_raises).
Abbreviation ask := (ask logger_raises).

Lemma ask_in_range probe l s o s' : ask probe l s = (o, s') →
  current_index s' = current_index s ∧ last_upgrade_attempt s' = last_upgrade_attempt s ∧
  match o with Some i => i ∈ l ∧ probe i = Some true | None => ∀ i, i ∈ l → probe i ≠ Some true end.
Proof.
  revert s. induction l as [|a l IH]; intros s; simpl.
  - intros [= <- <-]. split_and!; [done..|]. by intros i ?%elem_of_nil.
  - destruct (probe a) as [[]|] eqn:E; [intros [= <- <-]; set_solver|..].
    all: intros (K1 & K2 & K3)%IH; split_and!; [done..|]; destruct o; [set_solver|].
    all: intros i [->|?]%elem_of_cons; [congruence|auto].
Qed.

(** The first service of a range that answers its probe. *)
Lemma ask_first probe a len k s : probe k = Some true → (a <= k < a + len)%nat →
  ∃ i s', ask probe (seq a len) s = (Some i, s') ∧ (a <= i <= k)%nat ∧ probe i = Some true ∧
    current_index s' = current_index s ∧ last_upgrade_attempt s' = last_upgrade_attempt s.
Proof.
  revert a s. induction len as [|len IH]; intros a s Hk Hr; [lia|]. simpl.
  destruct (probe a) as [[]|] eqn:E.
  - exists a, s. split_and!; try done; lia.
  - assert (k ≠ a) by congruence. destruct (IH (S a) s) as (i & s' & ? & ? & ?); [done|lia|].
    exists i, s'. split; [done|]. split; [lia|done].
  - assert (k ≠ a) by congruence. destruct (IH (S a) (say s)) as (i & s' & ? & ? & ?); [done|lia|].
    exists i, s'. split; [done|]. split; [lia|done].
Qed.

Abbreviation n := (size cfg).
Abbreviation periodic_check := (periodic_check cfg logger_raises).

Lemma demotion_spec probe s demoted s' :
  (current_index s < n)%nat → attempt_demotion cfg logger_raises probe s = (demoted, s') →
  last_upgrade_attempt s' = last_upgrade_attempt s ∧
  if demoted then
    (current_index s < current_index s' < n)%nat ∧ probe (current_index s) = Some false ∧
    ∀ k, (current_index s < k < n)%nat → probe k = Some true → (current_index s' <= k)%nat
  else current_index s' = current_index s.
Proof.
  intros Hr. rewrite /attempt_demotion. destruct (has_checker cfg); [|by intros [= <- <-]].
  simpl. destruct (probe (current_index s)) as [[]|] eqn:E; [by intros [= <- <-]| |by intros [= <- <-]].
  destruct (ask probe (seq (S (current_index s)) (n - S (current_index s))) (with_check UNHEALTHY s))
    as [[i|] s1] eqn:Ha; intros [= <- <-]; pose proof (ask_in_range _ _ _ _ _ Ha) as (K1 & K2 & K3);
    [|done].
  split; [done|]. destruct K3 as [K3%elem_of_seq _]. simpl. split; [lia|]. split; [done|].
  intros k Hk Hp.
  destruct (ask_first probe (S (current_index s)) (n - S (current_index s)) k
    (with_check UNHEALTHY s) Hp) as (i' & s2 & Ha' & ? & _); [lia|]. rewrite Ha in Ha'.
  simplify_eq. lia.
Qed.

Lemma upgrade_spec probe clock s r s' :
  attempt_upgrade cfg logger_raises probe clock s = (r, s') →
  (current_index s' <= current_index s)%nat ∧
  ∀ now, clock = Some now → upgrade_cooldown cfg <= now - last_upgrade_attempt s →
    probe 0%nat = Some true → r = Ok tt ∧ current_index s' = 0%nat.
Proof.
  rewrite /attempt_upgrade. case_bool_decide as E; [intros [= <- <-]; by rewrite E|].
  destruct clock as [now|]; [|intros [= <- <-]; by split].
  destruct (now - last_upgrade_attempt s <? upgrade_cooldown cfg) eqn:Hc.
  { intros [= <- <-]. split; [done|]. intros now' [= <-]. lia. }
  set (p := if has_checker cfg then probe else λ _, Some true).
  destruct (ask p (seq 0 (current_index (with_attempt now s))) (with_attempt now s)) as [[i|] s1] eqn:Ha;
    intros [= <- <-]; pose proof (ask_in_range _ _ _ _ _ Ha) as (K1 & _ & K3).
  - destruct K3 as [K3%elem_of_seq _]. simpl in *. split; [lia|].
    intros now' _ _ H0. split; [done|]. destruct (ask_first p 0 (current_index s) 0 (with_attempt now s))
      as (i' & s2 & Ha' & ? & _); [rewrite /p; by case_match|lia|]. rewrite Ha in Ha'. simplify_eq. lia.
  - simpl in *. split; [lia|]. intros now' _ _ H0. exfalso. apply (K3 0%nat).
    + apply elem_of_seq. lia.
    + rewrite /p. by case_match.
Qed.

(** A round never takes the work past a service that answers. *)
Lemma round_index probe clock s k : (current_index s <= k < n)%nat → probe k = Some true →
  (current_index (periodic_check probe clock s) <= k)%nat.
Proof.
  intros Hk Hp. rewrite /Failover.periodic_check /run_check.
  destruct (attempt_demotion cfg logger_raises probe s) as [[] s1] eqn:Hd;
    apply demotion_spec in Hd as [_ Hd]; try lia.
  - destruct Hd as (Hi & Hf & Hd). simpl. apply Hd; [|done].
    assert (k ≠ current_index s) by congruence. lia.
  - destruct (attempt_upgrade cfg logger_raises probe clock s1) as [[[]|] s2] eqn:Hu;
      apply upgrade_spec in Hu as [Hu _]; simpl; lia.
Qed.

Lemma round_range probe clock s : (current_index s < n)%nat →
  (current_index (periodic_check probe clock s) < n)%nat.
Proof.
  intros Hk. rewrite /Failover.periodic_check /run_check.
  destruct (attempt_demotion cfg logger_raises probe s) as [[] s1] eqn:Hd;
    apply demotion_spec in Hd as [_ Hd]; try lia.
  destruct (attempt_upgrade cfg logger_raises probe clock s1) as [[[]|] s2] eqn:Hu;
    apply upgrade_spec in Hu as [Hu _]; simpl; lia.
Qed.

(** With the best service well and the cooldown over, a round brings the
    work back to it, or hands it down to make room for the next round. *)
Lemma round_recovers probe now s : (current_index s < n)%nat → probe 0%nat = Some true →
  upgrade_cooldown cfg <= now - last_upgrade_attempt s →
  let s' := periodic_check probe (Some now) s in
  current_index s' = 0%nat ∨
  (current_index s < current_index s' < n)%nat ∧ last_upgrade_attempt s' = last_upgrade_attempt s.
Proof.
  intros Hk Hp Hc s'. subst s'. rewrite /Failover.periodic_check /run_check.
  destruct (attempt_demotion cfg logger_raises probe s) as [[] s1] eqn:Hd;
    apply demotion_spec in Hd as [Hl Hd]; try lia.
  destruct (attempt_upgrade cfg logger_raises probe (Some now) s1) as [r s2] eqn:Hu.
  apply upgrade_spec in Hu as [_ Hu]. destruct (Hu now) as [-> Hz]; [done|by rewrite Hl|done|].
  by left.
Qed.

Lemma round_stays probe clock s : current_index s = 0%nat → (0 < n)%nat → probe 0%nat = Some true →
  current_index (periodic_check probe clock s) = 0%nat.
Proof. intros Hz Hn Hp. pose proof (round_index probe clock s 0 ltac:(lia) Hp). lia. Qed.

Definition rounds (rs : list ((nat → option bool) * Z)) (s : FailoverService) : FailoverService :=
  foldl (λ s r, periodic_check r.1 (Some r.2) s) s rs.

Lemma rounds_stay rs s : current_index s = 0%nat → (0 < n)%nat →
  Forall (λ r, r.1 0%nat = Some true) rs → current_index (rounds rs s) = 0%nat.
Proof.
  intros Hz Hn HF. revert s Hz. induction HF as [|r rs Hr _ IH]; intros s Hz; [done|]. simpl.
  by apply IH, round_stays.
Qed.

Lemma rounds_recover rs s : (current_index s < n)%nat → (n <= current_index s + length rs)%nat →
  Forall (λ r, r.1 0%nat = Some true ∧
               upgrade_cooldown cfg <= r.2 - last_upgrade_attempt s) rs →
  current_index (rounds rs s) = 0%nat.
Proof.
  revert s. induction rs as [|[probe now] rs IH]; intros s Hr Hn HF; [simpl in Hn; lia|].
  apply Forall_cons_iff in HF as [[Hp Hc] HF]. simpl in *.
  destruct (round_recovers probe now s Hr Hp Hc) as [Hz|[Hlt Hl]].
  - apply rounds_stay; [done|lia|]. revert HF. apply Forall_impl. by intros ? [].
  - apply IH; [lia|lia|]. by rewrite Hl.
Qed.
End facts.

(** ** A call nothing interferes with *)

(** The first service, from [i] on, that takes the call. *)
Fixpoint first_answer {R} (answers : nat → option R) (len i : nat) : option (nat * R) :=
  match len with
  | O => None
  | S len =>
      match answers i with
      | Some r => Some (i, r)
      | None => first_answer answers len (S i)
      end
  end.

(** What a call leaves alone. *)
Definition same_rounds (s s' : FailoverService) : Prop :=
  last_upgrade_attempt s' = last_upgrade_attempt s ∧ failed_checks s' = failed_checks s ∧
  last_check s' = last_check s.

#[global] Instance same_rounds_preorder : PreOrder same_rounds.
Proof. split; [by intros s|]. intros s1 s2 s3 (?&?&?) (?&?&?). split_and!; congruence. Qed.

Section calls.
Context (cfg : FailoverConfig) (logger_raises : nat → bool) {R : Type} (answers : nat → option R).
Abbreviation n := (size cfg).
Abbreviation run_call := (run_call cfg logger_raises).

Definition call_outcome (i : nat) (s : FailoverService) (o : option (option R) * FailoverService)
    : Prop :=
  same_rounds s o.2 ∧
  match first_answer answers (n - i) i with
  | Some (j, r) =>
      o.1 = Some (Some r) ∧ current_index o.2 = j ∧ dropped_calls o.2 = dropped_calls s
  | None =>
      o.1 = Some None ∧ current_index o.2 = (n - 1)%nat ∧ dropped_calls o.2 = dropped_calls s + 1
  end.

Lemma run_call_walk m fuel tr t s : (m = n - current_index s)%nat → (current_index s < n)%nat →
  (length tr <= current_index s)%nat → (∀ i, i ∈ tr → (i < current_index s)%nat) →
  (m <= t)%nat → (3 * m + 2 <= fuel)%nat →
  call_outcome (current_index s) s (run_call fuel answers s (MkCall tr t Choosing)).
Proof.
  revert fuel tr t s. induction m as [|m IH]; intros fuel tr t s Hm Hi Hlen Htr Ht Hfuel; [lia|].
  destruct fuel as [|[|[|fuel]]]; [lia..|].
  rewrite /call_outcome. rewrite -Hm. cbn [first_answer].
  cbn [Failover.run_call stands]. rewrite /call_step. cbn [stands tried turns_left].
  rewrite (bool_decide_true (length tr < n)%nat); [|lia]. rewrite (bool_decide_true (0 < t)%nat); [|lia]. cbn [andb]. rewrite bool_decide_false; [|intros Hin%Htr; lia].
  cbn [stands tried turns_left].
  destruct (answers (current_index s)) as [r|] eqn:Ha; [done|]. cbn [stands].
  rewrite bool_decide_true //. rewrite /switch_to_next. cbn [current_index say].
  case_bool_decide as Hlast.
  - assert (m = 0%nat) as -> by lia. cbn [stands]. destruct fuel as [|[|fuel]]; [lia..|]. simpl.
    split; [done|]. split_and!; [done|lia|lia].
  - specialize (IH fuel (current_index s :: tr) (t - 1)%nat
      (say logger_raises (with_index (S (current_index s)) (say logger_raises s)))).
    simpl in IH. destruct IH as [H1 H2]; [lia..|by intros i [->|?%Htr]%elem_of_cons; lia|lia|lia|].
    split; [exact H1|]. revert H2. simpl. by replace (n - S (current_index s))%nat with m by lia.
Qed.

Lemma execute_walk s : (current_index s < n)%nat →
  call_outcome (current_index s) s (execute cfg logger_raises answers s).
Proof.
  intros Hi. rewrite /execute /new_call. eapply run_call_walk; [done|done|simpl; lia| |lia|].
  - by intros i ?%elem_of_nil.
  - rewrite /call_fuel. lia.
Qed.
End calls.

(** ** Any interleaving of calls and rounds *)

Section interleavings.
Context (cfg : FailoverConfig) (logger_raises : nat → bool) {R : Type}.
Context (behaves : nat → option R → Prop) (may_report : (nat → option bool) → Prop).
Implicit Types (s : FailoverService) (c : call R) (y : system R).
Abbreviation n := (size cfg).
Abbreviation sys_step := (sys_step cfg logger_raises behaves may_report).
Abbreviation taken_step := (call_step cfg logger_raises (R := R)).

(** Steps a call still has to make, whatever the others do. *)
Definition steps_left c : nat :=
  match stands c with
  | Choosing => 3 * turns_left c + 2
  | Asking _ => 3 * turns_left c + 4
  | Refused _ => 3 * turns_left c + 3
  | Dropping => 1
  | Returned _ => 0
  end.

Lemma call_step_progress answer s c s' c' : taken_step answer s c = (s', c') →
  (∃ r, stands c = Returned r) ∨ (steps_left c' < steps_left c)%nat.
Proof.
  rewrite /call_step /steps_left.
  destruct (stands c); [|destruct answer| | |by eauto]; intros Hc; right.
  - destruct (bool_decide (length (tried c) < n)%nat && bool_decide (0 < turns_left c)%nat) eqn:E.
    + apply andb_true_iff in E as [_ E%bool_decide_eq_true].
      case_match; simplify_eq; simpl; lia.
    + simplify_eq. simpl. lia.
  - simplify_eq. simpl. lia.
  - simplify_eq. simpl. lia.
  - destruct (switch_to_next cfg logger_raises s) as [[] s1]; case_match; simplify_eq; simpl; lia.
  - simplify_eq. simpl. lia.
Qed.

(** ** A service that never refuses *)

Context (k : nat) (Hk : (k < n)%nat) (Hbehaves : ¬ behaves k None).

(** Nobody gets past it: whoever asked it has its answer or is inside it. *)
Definition call_ok c : Prop :=
  NoDup (tried c) ∧ (∀ i, i ∈ tried c → (i < n)%nat) ∧
  match stands c with
  | Asking i => ∀ j, j ∈ tried c → j = k → i = k
  | Returned (Some _) => True
  | Refused i => i ≠ k ∧ k ∉ tried c
  | Choosing | Dropping | Returned None => k ∉ tried c
  end.

Lemma call_step_ok answer s c s' c' : (current_index s <= k)%nat → call_ok c →
  (∀ i, stands c = Asking i → behaves i answer) → taken_step answer s c = (s', c') →
  (current_index s <= current_index s' <= k)%nat ∧ call_ok c'.
Proof.
  intros Hs (Hnd & Hin & Hph) Hb. rewrite /call_step /call_ok.
  destruct (stands c) as [|i|i| |r] eqn:E.
  - destruct (bool_decide (length (tried c) < n)%nat && bool_decide (0 < turns_left c)%nat);
      [|intros [= <- <-]; simpl; naive_solver lia]. simpl.
    case_bool_decide as Ht; intros [= <- <-]; simpl.
    + split; [lia|]. split_and!; [done..|congruence|done].
    + split; [lia|]. split; [by constructor|]. split; [set_solver by lia|]. set_solver.
  - specialize (Hb i eq_refl). destruct answer as [r|]; intros [= <- <-]; simpl.
    + by split; [lia|].
    + assert (i ≠ k) by congruence. split; [lia|]. split_and!; [done..|]. intros Hkt. eauto.
  - destruct Hph as [Hne Hkt]. case_bool_decide as Hi; [|intros [= <- <-]; simpl; naive_solver lia].
    rewrite /switch_to_next. case_bool_decide; intros [= <- <-]; simpl; [naive_solver lia|].
    split; [lia|]. done.
  - intros [= <- <-]. simpl. naive_solver lia.
  - intros [= <- <-]. rewrite E. naive_solver lia.
Qed.

Lemma new_call_ok : call_ok (new_call cfg R).
Proof. split; [constructor|]. split; [set_solver|]. simpl. set_solver. Qed.

Definition sys_ok y : Prop :=
  (current_index (shared y) <= k)%nat ∧ ∀ t c, calls y !! t = Some c → call_ok c.

Lemma sys_step_ok y y' : (∀ probe, may_report probe → probe k = Some true) →
  sys_step y y' → sys_ok y → sys_ok y'.
Proof.
  intros Hrep Hstep [Hi Hc]. destruct Hstep as [s cs|s cs t c a s' c' Ht Hb Hs|s cs probe clock Hp]; simpl in *.
  - split; [done|]. intros t c [Hl|[_ Hl]]%lookup_app_Some; [by eapply Hc|].
    apply list_lookup_singleton_Some in Hl as [_ <-]. apply new_call_ok.
  - destruct (call_step_ok _ _ _ _ _ Hi (Hc _ _ Ht) Hb Hs) as [Hi' Hc']. split; [simpl; lia|].
    intros t' c1. rewrite list_lookup_insert_Some. intros [(_ & <- & _)|[_ ?]]; [done|by eapply Hc].
  - split; [simpl|done]. apply round_index; [lia|by apply Hrep].
Qed.

Lemma reachable_ok y y' : (∀ probe, may_report probe → probe k = Some true) →
  rtc sys_step y y' → sys_ok y → sys_ok y'.
Proof. intros Hrep. induction 1; eauto using sys_step_ok. Qed.

(** ** Without rounds, no call is lost *)

(** The work only goes down, so a call never meets a service twice. *)
Definition in_order s c : Prop :=
  (length (tried c) + turns_left c = 2 * n)%nat ∧
  match stands c with
  | Choosing => ∀ i, i ∈ tried c → (i < current_index s)%nat
  | Asking i | Refused i => (∀ j, j ∈ tried c → (j <= i)%nat) ∧ (i <= current_index s)%nat
  | Returned (Some _) => True
  | Dropping | Returned None => False
  end.

Lemma in_order_mono s s' c : (current_index s <= current_index s')%nat → in_order s c → in_order s' c.
Proof.
  rewrite /in_order. destruct (stands c) as [| | | |[]]; intros Hs [Hl H]; (split; [done|]).
  - intros i Hi%H. lia.
  - destruct H. split; [done|lia].
  - destruct H. split; [done|lia].
  - done.
  - done.
  - done.
Qed.

Lemma below_length (l : list nat) m : NoDup l → (∀ i, i ∈ l → (i < m)%nat) → (length l <= m)%nat.
Proof.
  intros Hnd Hl. replace m with (length (seq 0 m)) by apply length_seq. apply NoDup_incl_length.
  - by apply NoDup_ListNoDup.
  - intros i. rewrite -!list_elem_of_In elem_of_seq. intros Hi%Hl. lia.
Qed.

Lemma call_step_order answer s c s' c' : (current_index s <= k)%nat → call_ok c → in_order s c →
  (∀ i, stands c = Asking i → behaves i answer) → taken_step answer s c = (s', c') →
  in_order s' c' ∧ dropped_calls s' = dropped_calls s.
Proof.
  intros Hs (Hnd & _ & Hph) [Hlen Ho] Hb. rewrite /call_step /in_order.
  destruct (stands c) as [|i|i| |r] eqn:E.
  - pose proof (below_length _ _ Hnd Ho) as Hle.
    rewrite (bool_decide_true (length (tried c) < n)%nat); [|lia].
    rewrite (bool_decide_true (0 < turns_left c)%nat); [|lia]. simpl.
    rewrite bool_decide_false; [|intros Hi%Ho; lia]. intros [= <- <-]. simpl.
    split; [|done]. split; [lia|]. split; [|done]. intros j [->|Hj%Ho]%elem_of_cons; lia.
  - destruct answer as [r|]; intros [= <- <-]; simpl; done.
  - destruct Hph as [Hne _]. case_bool_decide as Hi.
    + rewrite /switch_to_next. rewrite bool_decide_false; [|lia]. intros [= <- <-]. simpl.
      split; [|done]. split; [done|]. intros j Hj%Ho. lia.
    + intros [= <- <-]. simpl. split; [|done]. split; [done|]. intros j Hj%Ho. lia.
  - done.
  - destruct r; intros [= <- <-]; rewrite E; done.
Qed.

Definition sys_in_order (d : Z) y : Prop :=
  sys_ok y ∧ dropped_calls (shared y) = d ∧ ∀ t c, calls y !! t = Some c → in_order (shared y) c.

Lemma sys_step_order d y y' : (∀ probe, ¬ may_report probe) →
  sys_step y y' → sys_in_order d y → sys_in_order d y'.
Proof.
  intros Hno Hstep (Hok & Hd & Ho). split; [by eapply sys_step_ok; [naive_solver|..]|].
  destruct Hok as [Hi Hc].
  destruct Hstep as [s cs|s cs t c a s' c' Ht Hb Hs|s cs probe clock Hp]; simpl in *; [..|naive_solver].
  - split; [done|]. intros t c [Hl|[_ Hl]]%lookup_app_Some; [by eapply Ho|].
    apply list_lookup_singleton_Some in Hl as [_ <-]. split; [simpl; lia|]. simpl. set_solver.
  - destruct (call_step_ok _ _ _ _ _ Hi (Hc _ _ Ht) Hb Hs) as [Hi' _].
    destruct (call_step_order _ _ _ _ _ Hi (Hc _ _ Ht) (Ho _ _ Ht) Hb Hs) as [Ho' Hd'].
    split; [congruence|].
    intros t' c1. rewrite list_lookup_insert_Some. intros [(_ & <- & _)|[_ Hl]]; [done|].
    apply (in_order_mono s); [lia|by eapply Ho].
Qed.

Lemma reachable_order d y y' : (∀ probe, ¬ may_report probe) →
  rtc sys_step y y' → sys_in_order d y → sys_in_order d y'.
Proof. intros Hno. induction 1; eauto using sys_step_order. Qed.
End interleavings.

(** * What is claimed of the failover

    The properties of [FailoverService] the logging and audit chains rely on:
    what a call returns, that it returns, what an interleaving of calls and
    background rounds can and cannot do, and that the work comes back. *)

Section claims.
Context (cfg : FailoverConfig) (logger_raises : nat → bool) {R : Type}.
Abbreviation n := (size cfg).

(** A call that nothing interferes with returns the answer of the first
    service, from the active one down, that takes it, and leaves the work
    there; when none takes it the caller gets [ALL_SERVICES_FAILED], the
    dropped call is counted, and the work is left on the last service.  No
    exception of a service or of the logger escapes. *)
Theorem call_takes_the_first_answer (answers : nat → option R) s :
  (current_index s < n)%nat →
  ∃ r s', execute cfg logger_raises answers s = (Some r, s') ∧ same_rounds s s' ∧
    match first_answer answers (n - current_index s) (current_index s) with
    | Some (i, a) => r = Some a ∧ current_index s' = i ∧ dropped_calls s' = dropped_calls s
    | None => r = None ∧ current_index s' = (n - 1)%nat ∧ dropped_calls s' = dropped_calls s + 1
    end.
Proof.
  intros Hi. destruct (execute_walk cfg logger_raises answers s Hi) as [Hr Ho].
  destruct (execute cfg logger_raises answers s) as [o s'].
  destruct (first_answer answers (n - current_index s) (current_index s)) as [[i a]|];
    destruct Ho as (Ho & ? & ?); simpl in *; subst o; by eexists _, s'.
Qed.

(** What one call goes through when, before each of its own steps, the shared
    state has become whatever [env] says and the service does what [env]
    says. *)
Fixpoint own_steps (env : nat → FailoverService * option R) (m : nat) (c : call R) : call R :=
  match m with
  | O => c
  | S m => own_steps (λ i, env (S i)) m (call_step cfg logger_raises (env 0%nat).2 (env 0%nat).1 c).2
  end.

Lemma own_steps_returned env m (c : call R) r : stands c = Returned r → own_steps env m c = c.
Proof.
  intros Hc. revert env. induction m as [|m IH]; intros env; [done|]. simpl.
  rewrite {1}/call_step Hc /=. apply IH.
Qed.

Lemma own_steps_end env m (c : call R) : (steps_left c <= m)%nat →
  ∃ r, stands (own_steps env m c) = Returned r.
Proof.
  revert env c. induction m as [|m IH]; intros env c Hm.
  - rewrite /steps_left in Hm. simpl. destruct (stands c); try lia. by eexists.
  - simpl. destruct (call_step cfg logger_raises (env 0%nat).2 (env 0%nat).1 c) as [s' c'] eqn:E.
    pose proof (call_step_progress _ _ _ _ _ _ _ E) as [[r Hr]|Hlt]; [|apply IH; simpl; lia].
    exists r. rewrite /call_step Hr in E. simplify_eq. simpl. by rewrite (own_steps_returned _ _ _ r).
Qed.

(** A call returns to its caller within [6 * n + 2] of its own steps,
    whatever other calls and background rounds do to the shared state in
    between and whatever the services answer. *)
Theorem call_returns (env : nat → FailoverService * option R) m :
  (6 * n + 2 <= m)%nat → ∃ r, stands (own_steps env m (new_call cfg R)) = Returned r.
Proof. intros Hm. apply own_steps_end. rewrite /steps_left /=. lia. Qed.

(** C10: Take any number of calls and background rounds in any interleaving,
    over a chain with a service that takes every call and answers every
    probe.  The work never goes below that service, two calls failing on the
    same service included, and no call asks a service twice; without
    background rounds no call is dropped. *)
Theorem work_never_passes_a_service_that_answers
    (behaves : nat → option R → Prop) (may_report : (nat → option bool) → Prop) k s y :
  (k < n)%nat → ¬ behaves k None → (∀ probe, may_report probe → probe k = Some true) →
  (current_index s <= k)%nat →
  rtc (sys_step cfg logger_raises behaves may_report) (MkSystem s []) y →
  (current_index (shared y) <= k)%nat ∧
  (∀ t c, calls y !! t = Some c → NoDup (tried c)) ∧
  ((∀ probe, ¬ may_report probe) →
   dropped_calls (shared y) = dropped_calls s ∧
   ∀ t c, calls y !! t = Some c → stands c ≠ Dropping ∧ stands c ≠ Returned None).
Proof.
  intros Hk Hb Hrep Hi Hr.
  assert (sys_ok cfg k (MkSystem s ([] : list (call R)))) as H0 by (split; [done|]; set_solver).
  destruct (reachable_ok _ _ _ _ k Hk Hb _ _ Hrep Hr H0) as [Hi' Hc]. split; [done|].
  split; [intros t c Ht; by apply Hc in Ht as (? & _)|]. intros Hno.
  destruct (reachable_order cfg logger_raises behaves may_report k Hk Hb (dropped_calls s) _ _ Hno Hr)
    as (_ & Hd & Ho); [split; [done|]; split; [done|]; set_solver|].
  split; [done|]. intros t c [_ Hc']%Ho. by destruct (stands c) as [| | | |[]].
Qed.

(** Once the best service is well again and the cooldown is over, as many
    background rounds as there are services bring the work back to it,
    whatever the other services report in the meantime. *)
Theorem rounds_bring_the_work_back rs s :
  (current_index s < n)%nat → (n <= length rs)%nat →
  Forall (λ r, r.1 0%nat = Some true ∧
               upgrade_cooldown cfg <= r.2 - last_upgrade_attempt s) rs →
  current_index (rounds cfg logger_raises rs s) = 0%nat.
Proof. intros Hi Hn HF. apply rounds_recover; [done|lia|done]. Qed.
End claims.

Module FailoverDemo.
(** A file, a standard stream and a null sink. *)
Definition cfg : FailoverConfig :=
  MkFailoverConfig [lit "file"; lit "stderr"; lit "null"] true 300.
Definition start : FailoverService := MkFailoverService 0 0 0 0 0 NOT_RUN 0.
Definition silent (_ : nat) : bool := false.

Lemma call_takes_the_first_answer_witness :
  let answers := λ i, if decide (i = 0%nat) then None else Some i in
  ∃ r s', execute cfg silent answers start = (Some r, s') ∧ r = Some 1%nat ∧ current_index s' = 1%nat.
Proof.
  intros answers.
  destruct (call_takes_the_first_answer cfg silent answers start ltac:(vm_compute; lia))
    as (r & s' & He & _ & Ho).
  exists r, s'. split; [exact He|]. change (r = Some 1%nat ∧ current_index s' = 1%nat ∧ dropped_calls s' = 0 + 0) in Ho.
  by destruct Ho as (-> & -> & _).
Defined.

Lemma call_returns_witness :
  ∃ r, stands (own_steps cfg silent (λ i, (with_index (i mod 3) start, None : option nat)) 20
                 (new_call cfg nat)) = Returned r.
Proof. apply call_returns. vm_compute. lia. Defined.

Lemma work_never_passes_a_service_that_answers_witness :
  ∃ y, rtc (sys_step cfg silent (λ i (r : option nat), i = 1%nat → r ≠ None) (λ _, False))
         (MkSystem start []) y ∧ length (calls y) = 1%nat ∧ (current_index (shared y) <= 1)%nat.
Proof.
  exists (MkSystem start [new_call cfg nat]).
  assert (rtc (sys_step cfg silent (λ i (r : option nat), i = 1%nat → r ≠ None) (λ _, False))
    (MkSystem start []) (MkSystem start [new_call cfg nat])) as Hr.
  { apply rtc_once. apply (step_arrival cfg silent _ _ start []). }
  split; [exact Hr|]. split; [reflexivity|].
  apply (work_never_passes_a_service_that_answers cfg silent _ _ 1 start _) in Hr as [Hi _]; try done.
  - vm_compute. lia.
  - intros H1. by apply H1.
  - vm_compute. lia.
Defined.

Lemma rounds_bring_the_work_back_witness :
  let probe := λ i, if decide (i = 1%nat) then Some false else Some true in
  current_index (rounds cfg silent [(probe, 1000); (probe, 1030); (probe, 1060)]
                   (with_index 1 start)) = 0%nat.
Proof.
  intros probe. apply rounds_bring_the_work_back; [vm_compute; lia|vm_compute; lia|].
  repeat constructor; vm_compute; congruence.
Defined.
End FailoverDemo.
