(* ===== verification/Auth.v ===== *)
(** * Accounts: registration, confirmation, sign-in and passwords

    The use cases of [application/use_cases/auth/] that change an account,
    with what they call: the password methods of [jwt_auth_service.py],
    [UserManagementService.update_password], the two repositories of mailed
    tokens and the mail half of the task queues.

    bcrypt and [secrets] are parameters ([Bcrypt], [SecretTokens]); the rate
    limiter is the port of [RateLimit.v], whose state is the world's [w_cache].
    A random value is a function of the number of its draw.

    The theorems are in [AuthTheorems.v]. *)

From S2P Require Import Prelude PyStr Exceptions ValueObjects Entities Policies Sha256 Database.
From S2P Require Import LinkRepo UserRepo Sessions RateLimit.

(** ** Libraries *)

(** [bcrypt]: a salt per draw, a hash of bytes under a salt, and the check
    against a stored hash, which is [None] where the library raises
    [ValueError]. *)
Class Bcrypt := MkBcrypt {
  gensalt : nat → pystr;
  hashpw : list Z → pystr → pystr;
  checkpw : list Z → list Z → option bool;
}.

(** [secrets.token_urlsafe(n)] at a draw. *)
Class SecretTokens := token_urlsafe : Z → nat → pystr.

(** ** Mailed tokens: the two tables and their repositories *)

Definition TOKEN_BYTES : Z := 32.
Definition DIGEST_LENGTH : Z := 64.

Definition token_digest (token : pystr) : result exn pystr :=
  match utf8_encode token with
  | None => Err (PyError UnicodeEncodeError)
  | Some bytes => Ok (hexdigest (sha256 bytes))
  end.

(** What the repositories of the two tables have in common: a row has an
    owner, a digest, an expiry and a time it was spent. *)
Class MailedToken (T : Type) := MkMailedToken {
  mt_id : T → pystr;
  mt_user_id : T → pystr;
  mt_token_hash : T → pystr;
  mt_expires_at : T → Z;
  mt_used_at : T → option Z;
  mt_spend : Z → T → T;
}.

Class MailedTokenLaws (T : Type) `{MailedToken T} := {
  spend_id now (v : T) : mt_id (mt_spend now v) = mt_id v;
  spend_user_id now (v : T) : mt_user_id (mt_spend now v) = mt_user_id v;
  spend_token_hash now (v : T) : mt_token_hash (mt_spend now v) = mt_token_hash v;
  spend_used_at now (v : T) : mt_used_at (mt_spend now v) = Some now;
}.

(** [query.update({used_at: now})]. *)
Definition set_ev_used_at (now : Z) (v : EmailVerification) : EmailVerification :=
  {| ev_id := ev_id v; ev_user_id := ev_user_id v; ev_token_hash := ev_token_hash v;
     ev_expires_at := ev_expires_at v; ev_created_at := ev_created_at v;
     ev_used_at := Some now |}.
Definition set_pr_used_at (now : Z) (v : PasswordReset) : PasswordReset :=
  {| pr_id := pr_id v; pr_user_id := pr_user_id v; pr_token_hash := pr_token_hash v;
     pr_expires_at := pr_expires_at v; pr_created_at := pr_created_at v;
     pr_used_at := Some now |}.

#[global] Instance EmailVerification_token : MailedToken EmailVerification :=
  {| mt_id := ev_id; mt_user_id := ev_user_id; mt_token_hash := ev_token_hash;
     mt_expires_at := ev_expires_at; mt_used_at := ev_used_at; mt_spend := set_ev_used_at |}.
#[global] Instance PasswordReset_token : MailedToken PasswordReset :=
  {| mt_id := pr_id; mt_user_id := pr_user_id; mt_token_hash := pr_token_hash;
     mt_expires_at := pr_expires_at; mt_used_at := pr_used_at; mt_spend := set_pr_used_at |}.
#[global] Instance EmailVerification_laws : MailedTokenLaws EmailVerification.
Proof. by split. Qed.
#[global] Instance PasswordReset_laws : MailedTokenLaws PasswordReset.
Proof. by split. Qed.

Section tokens.
Context {T : Type} `{MailedToken T}.
Implicit Types (t : list T) (v : T).

(** [save]: one row per id, a unique digest, and an owner that exists. *)
Definition save_token (owners : list pystr) v t : result exn (list T) :=
  if decide (Exists (λ r, mt_id r ≠ mt_id v ∧ mt_token_hash r = mt_token_hash v) t)
  then Err (PyError IntegrityError)
  else if negb (bool_decide (mt_user_id v ∈ owners)) then Err (PyError IntegrityError)
  else Ok (if decide (mt_id v ∈ (mt_id <$> t))
           then update_where (λ r, mt_id r = mt_id v) (λ _, v) t else t ++ [v]).

Definition claimable (now : Z) (token_hash : pystr) v : Prop :=
  mt_token_hash v = token_hash ∧ mt_used_at v = None ∧ now < mt_expires_at v.
#[global] Instance claimable_dec now h v : Decision (claimable now h v).
Proof. unfold claimable. apply _. Defined.

(** [claim]: the owner is read, then the row is spent if it still can be;
    the number of rows the update touched decides. *)
Definition claim (now : Z) (token_hash : pystr) t : option pystr * list T :=
  match first (filter (λ v, mt_token_hash v = token_hash) t) with
  | None => (None, t)
  | Some row =>
      (if decide (count_where (claimable now token_hash) t = 1%nat)
       then Some (mt_user_id row) else None,
       update_where (claimable now token_hash) (mt_spend now) t)
  end.

Definition outstanding (user_id : pystr) v : Prop :=
  mt_user_id v = user_id ∧ mt_used_at v = None.
#[global] Instance outstanding_dec u v : Decision (outstanding u v).
Proof. unfold outstanding. apply _. Defined.

Definition invalidate (now : Z) (user_id : pystr) t : nat * list T :=
  (count_where (outstanding user_id) t, update_where (outstanding user_id) (mt_spend now) t).

Definition dead (now : Z) v : Prop := mt_expires_at v < now ∨ mt_used_at v ≠ None.
#[global] Instance dead_dec now v : Decision (dead now v).
Proof. unfold dead. apply _. Defined.

Definition delete_dead (now : Z) t : nat * list T :=
  (count_where (dead now) t, delete_where (dead now) t).
End tokens.

(** [SQLAlchemyEmailVerificationRepository]. *)
Definition save_verification (v : EmailVerification) (d : Database) : result exn (unit * Database) :=
  save_token (um_id <$> users d) v (email_verifications d) ≫= λ t,
  Ok (tt, set_email_verifications t d).
Definition claim_verification (now : Z) (token_hash : pystr) (d : Database)
    : result exn (option pystr * Database) :=
  let '(o, t) := claim now token_hash (email_verifications d) in Ok (o, set_email_verifications t d).
Definition find_by_token_hash (token_hash : pystr) (d : Database) : option EmailVerification :=
  first (filter (λ v, ev_token_hash v = token_hash) (email_verifications d)).
Definition invalidate_verifications (now : Z) (user_id : pystr) (d : Database)
    : result exn (nat * Database) :=
  let '(n, t) := invalidate now user_id (email_verifications d) in Ok (n, set_email_verifications t d).
Definition delete_expired_verifications (now : Z) (d : Database) : result exn (nat * Database) :=
  let '(n, t) := delete_dead now (email_verifications d) in Ok (n, set_email_verifications t d).

(** [SQLAlchemyPasswordResetRepository]. *)
Definition save_reset (v : PasswordReset) (d : Database) : result exn (unit * Database) :=
  save_token (um_id <$> users d) v (password_resets d) ≫= λ t, Ok (tt, set_password_resets t d).
Definition claim_reset (now : Z) (token_hash : pystr) (d : Database)
    : result exn (option pystr * Database) :=
  let '(o, t) := claim now token_hash (password_resets d) in Ok (o, set_password_resets t d).
Definition invalidate_resets (now : Z) (user_id : pystr) (d : Database)
    : result exn (nat * Database) :=
  let '(n, t) := invalidate now user_id (password_resets d) in Ok (n, set_password_resets t d).
Definition delete_expired_resets (now : Z) (d : Database) : result exn (nat * Database) :=
  let '(n, t) := delete_dead now (password_resets d) in Ok (n, set_password_resets t d).

(** ** The mail half of the task queue *)

Class MailQueue (C : Type) := MkMailQueue {
  enqueue_verification_email : pystr → pystr → RequestContext → M (World C) exn bool;
  enqueue_password_reset_email : pystr → pystr → RequestContext → M (World C) exn bool;
  enqueue_account_exists_email : pystr → RequestContext → M (World C) exn bool;
}.

(** [CeleryTaskQueue]: the broker takes the task or fails. *)
Definition hand_off {C} (delay : Z → task → bool) (t : task) : M (World C) exn bool :=
  now ← now_utc;
  if delay now t then modify (add_task t);; mret true else mret false.

Definition CeleryMail {C} (delay : Z → task → bool) : MailQueue C :=
  {| enqueue_verification_email email token context :=
       hand_off delay (VerificationEmail email token context);
     enqueue_password_reset_email email token context :=
       hand_off delay (PasswordResetEmail email token context);
     enqueue_account_exists_email email context :=
       hand_off delay (AccountExistsEmail email context) |}.

(** [NullTaskQueue]: the sender runs in the request, if there is one. *)
Definition send_here {C} (send : option (M (World C) exn unit)) : M (World C) exn bool :=
  match send with
  | None => mret false
  | Some f => try_except (f;; mret true) (λ _, mret false)
  end.

Definition NullMail {C}
    (send_verification send_reset : option (pystr → pystr → RequestContext → M (World C) exn unit))
    (send_exists : option (pystr → RequestContext → M (World C) exn unit)) : MailQueue C :=
  {| enqueue_verification_email email token context :=
       send_here ((λ f, f email token context) <$> send_verification);
     enqueue_password_reset_email email token context :=
       send_here ((λ f, f email token context) <$> send_reset);
     enqueue_account_exists_email email context :=
       send_here ((λ f, f email context) <$> send_exists) |}.

(** ** Settings and answers *)

Record AuthSettings := MkAuthSettings {
  default_role_name : pystr;
  verification_ttl_hours : Z;
  reset_ttl_minutes : Z;
  unverified_ttl_hours : Z;
  account_failure_limit : Z;
  account_failure_period : Z;
  decoy_hash : pystr;
}.

Record UserResponse := MkUserResponse {
  ur_id : pystr;
  ur_email : pystr;
  ur_roles : list pystr;
  ur_is_active : bool;
  ur_email_verified : bool;
  ur_created_at : Z;
  ur_last_login : option Z;
}.

Definition from_user (u : User) : UserResponse :=
  {| ur_id := user_id u; ur_email := em_value (user_email u);
     ur_roles := role_name <$> user_roles u; ur_is_active := user_is_active u;
     ur_email_verified := user_email_verified u; ur_created_at := user_created_at u;
     ur_last_login := user_last_login u |}.

Record LoginResponse := MkLoginResponse {
  lr_tokens : RefreshedTokens;
  lr_user : UserResponse;
}.

(** [ResendOutcome] and [PasswordResetOutcome] have the same members. *)
Inductive mail_outcome := SENT | NOTHING_TO_SEND | NOT_HANDED_OFF.

Definition INVALID_CREDENTIALS : exn :=
  DomainError (lit "Invalid email or password") (lit "INVALID_CREDENTIALS").
Definition REGISTRATION_UNAVAILABLE : exn :=
  DomainError (lit "Registration is unavailable") (lit "REGISTRATION_UNAVAILABLE").
Definition BAD_CONFIRMATION : exn := invalid "token" "This confirmation link is not valid".
Definition BAD_RESET : exn := invalid "token" "This reset link is not valid".

Section auth.
Context {C : Type} `{Bcrypt} `{SecretTokens} `{MailQueue C} `{RateLimiter C} `{TokenCodec}
        `{CaseFolding} `{UuidSupply}.
Context (cfg : AuthSettings) (jwt : JwtSettings).
Abbreviation P := (M (World C) exn).

(** A lookup in the open unit of work, whose row may fail to load. *)
Definition load (f : Database → result exn (option User)) : P (option User) :=
  found ← read f; lift found.

(** ** [JwtAuthenticationService]: passwords *)

Definition hash_password (plain : pystr) : P pystr :=
  lift (validate_password plain);;
  n ← draw;
  match utf8_encode plain with
  | None => raise (PyError UnicodeEncodeError)
  | Some bytes => mret (hashpw bytes (gensalt n))
  end.

Definition verify_password (plain hashed : pystr) : bool :=
  match utf8_encode plain, utf8_encode hashed with
  | Some p, Some h => default false (checkpw p h)
  | _, _ => false
  end.

(** An unknown account is checked against the decoy all the same; only the
    time that takes depends on the answer. *)
Definition authenticate (email password : pystr) : P (option User) :=
  with_uow (
    e ← lift (new_Email email);
    user ← load (find_user_by_email e);
    match user with
    | None => let _ := verify_password password (decoy_hash cfg) in mret None
    | Some u =>
        if negb (verify_password password (ph_value (user_password_hash u)))
        then mret None else mret (Some u)
    end).

(** ** [LoginUseCase] *)

Definition failure_key (email : pystr) : result exn pystr :=
  match utf8_encode (normalise email) with
  | None => Err (PyError UnicodeEncodeError)
  | Some bytes => Ok (lit "login-failure:" ++ hexdigest (sha256 bytes))
  end.

Definition budget_spent (email : pystr) : P bool :=
  if account_failure_limit cfg <=? 0 then mret false
  else
    key ← lift (failure_key email);
    now ← now_utc;
    left ← with_cache
      (rl_get_remaining now key (account_failure_limit cfg) (account_failure_period cfg));
    mret (left <=? 0).

Definition spend_budget (email : pystr) : P unit :=
  if account_failure_limit cfg <=? 0 then mret tt
  else
    key ← lift (failure_key email);
    now ← now_utc;
    with_cache
      (rl_is_allowed now key (account_failure_limit cfg) (account_failure_period cfg));;
    mret tt.

Definition login (email password : pystr) (context : RequestContext) : P LoginResponse :=
  spent ← budget_spent email;
  if (spent : bool)
  then audit (LoginFailed email (lit "too_many_failures") None);; raise INVALID_CREDENTIALS
  else
  found ← authenticate email password;
  match found with
  | None =>
      spend_budget email;;
      audit (LoginFailed email (lit "invalid_credentials") None);;
      raise INVALID_CREDENTIALS
  | Some user =>
      if negb (user_is_active user)
      then audit (LoginFailed email (lit "account_deactivated") (Some (user_id user)));;
           raise INVALID_CREDENTIALS
      else if negb (user_email_verified user)
      then audit (LoginFailed email (lit "email_not_verified") (Some (user_id user)));;
           raise INVALID_CREDENTIALS
      else
        now ← now_utc;
        let user := with_last_login (Some now) user in
        with_uow (update (λ d, Ok (record_login (user_id user) now d));; commit);;
        tokens ← create_session_tokens jwt user;
        audit (LoginSucceeded (user_id user) (em_value (user_email user)));;
        mret (MkLoginResponse tokens (from_user user))
  end.

(** ** [RegisterUseCase] *)

Definition issue_token : P pystr := n ← draw; mret (token_urlsafe TOKEN_BYTES n).

(** The new account and its token; nothing if the address has one. *)
Definition register_account (email : Email) (password_hash : PasswordHash)
    : P (option (User * pystr)) :=
  with_uow (
    taken ← load (find_user_by_email email);
    match taken with
    | Some _ => mret None
    | None =>
        role ← read (get_role_by_name (default_role_name cfg));
        match role with
        | None => raise REGISTRATION_UNAVAILABLE
        | Some default_role =>
            try_except (lift (require_roles_are_assignable [default_role]))
              (λ e, match e with
                    | RoleNotAssignableError _ => raise REGISTRATION_UNAVAILABLE
                    | _ => raise e
                    end);;
            now ← now_utc;
            uid ← fresh_uuid;
            user ← lift (create_user_entity now uid email password_hash [default_role] false);
            saved_user ← update (save_user user);
            token ← issue_token;
            digest ← lift (token_digest token);
            vid ← fresh_uuid;
            update (save_verification (issue_verification now vid (user_id saved_user) digest
                                         (verification_ttl_hours cfg)));;
            commit;;
            mret (Some (saved_user, token))
        end
    end).

Definition register (email password : pystr) (context : RequestContext) : P unit :=
  email_vo ← lift (new_Email email);
  hashed ← hash_password password;
  password_hash_vo ← lift (new_PasswordHash hashed);
  registered ← try_except (register_account email_vo password_hash_vo)
    (λ e, if is_validation_error e && bool_decide (exn_field e = Some (lit "email"))
          then mret None else raise e);
  match registered with
  | None => enqueue_account_exists_email (em_value email_vo) context;; mret tt
  | Some (saved_user, token) =>
      audit (Registered (user_id saved_user) (em_value email_vo));;
      enqueue_verification_email (em_value email_vo) token context;;
      mret tt
  end.

(** ** [VerifyEmailUseCase] *)

Definition verify_email (token : pystr) (context : RequestContext) : P unit :=
  now ← now_utc;
  confirmed ← with_uow (
    digest ← lift (token_digest token);
    owner ← update (claim_verification now digest);
    match owner with
    | None => raise BAD_CONFIRMATION
    | Some uid =>
        user ← load (find_user_by_id uid);
        match user with
        | None => raise BAD_CONFIRMATION
        | Some u =>
            update (save_user (confirm_email u));;
            commit;;
            mret uid
        end
    end);
  audit (EmailConfirmed confirmed).

(** ** [ResendVerificationUseCase] *)

Definition resend_verification (email : pystr) (context : RequestContext) : P mail_outcome :=
  email_vo ← lift (new_Email email);
  token ← with_uow (
    user ← load (find_user_by_email email_vo);
    match user with
    | None => mret None
    | Some u =>
        if user_email_verified u then mret None
        else
          now ← now_utc;
          update (invalidate_verifications now (user_id u));;
          token ← issue_token;
          digest ← lift (token_digest token);
          vid ← fresh_uuid;
          update (save_verification (issue_verification now vid (user_id u) digest
                                       (verification_ttl_hours cfg)));;
          commit;;
          mret (Some token)
    end);
  match token with
  | None => mret NOTHING_TO_SEND
  | Some token =>
      sent ← enqueue_verification_email (em_value email_vo) token context;
      mret (if (sent : bool) then SENT else NOT_HANDED_OFF)
  end.

(** ** [RequestPasswordResetUseCase] *)

Definition request_password_reset (email : pystr) (context : RequestContext) : P mail_outcome :=
  email_vo ← lift (new_Email email);
  token ← with_uow (
    user ← load (find_user_by_email email_vo);
    match user with
    | None => mret None
    | Some u =>
        if negb (user_is_active u && user_email_verified u) then mret None
        else
          now ← now_utc;
          update (invalidate_resets now (user_id u));;
          token ← issue_token;
          digest ← lift (token_digest token);
          vid ← fresh_uuid;
          update (save_reset (issue_reset now vid (user_id u) digest (reset_ttl_minutes cfg)));;
          commit;;
          mret (Some token)
    end);
  match token with
  | None => mret NOTHING_TO_SEND
  | Some token =>
      sent ← enqueue_password_reset_email (em_value email_vo) token context;
      mret (if (sent : bool) then SENT else NOT_HANDED_OFF)
  end.

(** ** [UserManagementService.update_password] *)

Definition update_password (user : User) (new_password : pystr) : P nat :=
  if bool_decide (new_password = [])
  then raise (invalid "password" "Password must not be empty")
  else
    hashed ← hash_password new_password;
    h ← lift (new_PasswordHash hashed);
    now ← now_utc;
    update (save_user (with_password_hash h user));;
    update (invalidate_resets now (user_id user));;
    update (on_sessions (revoke_all_for_user now (user_id user))).

(** ** [ResetPasswordUseCase], [ChangePasswordUseCase] *)

Definition reset_password (token new_password : pystr) (context : RequestContext) : P unit :=
  now ← now_utc;
  done ← with_uow (
    digest ← lift (token_digest token);
    owner ← update (claim_reset now digest);
    match owner with
    | None => raise BAD_RESET
    | Some uid =>
        user ← load (find_user_by_id uid);
        match user with
        | None => raise BAD_RESET
        | Some u =>
            if negb (user_is_active u) then raise BAD_RESET
            else
              revoked ← update_password u new_password;
              commit;;
              mret (user_id u, revoked)
        end
    end);
  audit (PasswordWasReset done.1 done.2).

Definition change_password (uid current_password new_password : pystr)
    (context : RequestContext) : P RefreshedTokens :=
  done ← with_uow (
    user ← load (find_user_by_id uid);
    match user with
    | None => raise (DomainError (lit "Authentication required") (lit "UNAUTHENTICATED"))
    | Some u =>
        if negb (verify_password current_password (ph_value (user_password_hash u)))
        then raise (invalid "current_password" "Current password is not correct")
        else if verify_password new_password (ph_value (user_password_hash u))
        then raise (invalid "new_password" "The new password must differ from the current one")
        else
          revoked ← update_password u new_password;
          commit;;
          mret (u, revoked)
    end);
  tokens ← create_session_tokens jwt done.1;
  audit (PasswordChanged (user_id done.1) done.2);;
  mret tokens.

(** ** [CleanUnverifiedAccountsUseCase] *)

Definition clean_unverified_accounts (context : RequestContext) : P (nat * nat) :=
  now ← now_utc;
  let cutoff := now - unverified_ttl_hours cfg * HOUR in
  swept ← with_uow (
    deleted ← update (λ d, Ok (delete_unverified_before cutoff d));
    tokens ← update (delete_expired_verifications now);
    commit;;
    mret (deleted, tokens));
  match swept.1 with
  | O => mret tt
  | _ => audit (UnverifiedAccountsSwept swept.1 swept.2)
  end;;
  mret swept.
End auth.
