(* ===== verification/AuthTheorems.v ===== *)
(** * What the account use cases guarantee

    The specifications of [Auth.v]'s operations: every outcome of each, what
    it changes in the database and what it leaves alone.  A refused request
    changes no row; a mailed token works once; a password change retires what
    the old password held; a sign-in is granted only to a confirmed, active
    account within its budget of failures. *)

From S2P Require Import Prelude PyStr Exceptions ValueObjects Entities Policies Sha256 Database.
From S2P Require Import LinkRepo UserRepo Sessions RateLimit Auth.

(** ** Mailed tokens *)

Section tokens.
Context {T : Type} `{MailedTokenLaws T}.
Implicit Types (t : list T) (v : T).

(** No row of the digest can be claimed any more. *)
Definition all_spent (h : pystr) t : Prop :=
  ∀ v, v ∈ t → mt_token_hash v = h → mt_used_at v ≠ None.

Lemma claim_Some now h t u t' :
  NoDup (mt_token_hash <$> t) → claim now h t = (Some u, t') →
  ∃ v, v ∈ t ∧ claimable now h v ∧ mt_user_id v = u ∧
    t' = update_where (claimable now h) (mt_spend now) t ∧ all_spent h t'.
Proof.
  intros Hnd. rewrite /claim.
  destruct (first (filter (λ v, mt_token_hash v = h) t)) as [row|] eqn:E; [|done].
  apply first_filter_Some in E as [Hrow Hh].
  case_decide as Hone; [|done]. intros [= <- <-].
  assert (∀ x, x ∈ t → mt_token_hash x = h → x = row) as Huniq.
  { intros x Hx Hxh.
    pose proof (first_filter_unique (λ v, mt_token_hash v = h) mt_token_hash t row Hnd Hrow Hh
      (λ y Hy, eq_trans Hy (eq_sym Hh))) as Hf.
    rewrite (first_filter_unique _ mt_token_hash t x) // in Hf; [congruence|].
    intros y Hy. congruence. }
  assert (claimable now h row) as Hc.
  { destruct (filter (claimable now h) t) as [|x l] eqn:Ef;
      [by rewrite /count_where Ef in Hone|].
    assert (x ∈ filter (claimable now h) t) as [Hx Hin]%list_elem_of_filter
      by (rewrite Ef; set_solver).
    rewrite -(Huniq x Hin) //. by destruct Hx. }
  exists row. split_and!; try done.
  intros x (y & Hy & ->)%elem_of_update_where Hxh. case_decide as Hcy.
  - by rewrite spend_used_at.
  - rewrite (Huniq y Hy Hxh) in Hcy. done.
Qed.

Lemma claim_spent now h t : all_spent h t → (claim now h t).1 = None.
Proof.
  intros Hs. rewrite /claim. case_match; [|done]. simpl. rewrite decide_False //.
  rewrite (proj2 (count_where_zero (claimable now h) t)) //.
  intros x Hx (Hh & Hu & _). by apply (Hs x Hx).
Qed.

(** Spent rows stay spent through every statement of the repository. *)
Lemma all_spent_update (Q : T → Prop) `{∀ v, Decision (Q v)} now h t :
  all_spent h t → all_spent h (update_where Q (mt_spend now) t).
Proof.
  intros Hs v (x & Hx & ->)%elem_of_update_where. case_decide; [by rewrite spend_used_at|].
  by apply Hs.
Qed.

Lemma all_spent_delete now h t : all_spent h t → all_spent h (delete_dead now t).2.
Proof. intros Hs v [Hv _]%elem_of_delete_where. by apply Hs. Qed.

(** After [invalidate] the owner has no token left to claim. *)
Lemma invalidate_spends now u t v :
  v ∈ (invalidate now u t).2 → mt_user_id v = u → mt_used_at v ≠ None.
Proof.
  simpl. intros (x & Hx & ->)%elem_of_update_where. case_decide as Ho.
  - by rewrite spend_used_at.
  - intros Hu Hn. by apply Ho.
Qed.

Lemma update_spend_hashes (Q : T → Prop) `{∀ v, Decision (Q v)} now t :
  mt_token_hash <$> update_where Q (mt_spend now) t = mt_token_hash <$> t.
Proof. apply update_where_key. intros v. apply spend_token_hash. Qed.
End tokens.

(** The account tables' constraints speak of users and roles only. *)
Lemma accounts_ok_ext d d' :
  users d' = users d → roles d' = roles d → accounts_ok d → accounts_ok d'.
Proof. intros Hu Hr [H1 H2 H3 H4]. constructor; rewrite ?Hu ?Hr //. Qed.

Lemma set_users_same d : set_users (users d) d = d.
Proof. by destruct d. Qed.

(** ** Confirmation *)

Definition with_verified (m : UserModel) : UserModel :=
  {| um_id := um_id m; um_email := um_email m; um_password_hash := um_password_hash m;
     um_roles := um_roles m; um_is_active := um_is_active m; um_email_verified := true;
     um_created_at := um_created_at m; um_last_login := um_last_login m |}.

Definition with_hash (h : pystr) (m : UserModel) : UserModel :=
  {| um_id := um_id m; um_email := um_email m; um_password_hash := h;
     um_roles := um_roles m; um_is_active := um_is_active m;
     um_email_verified := um_email_verified m;
     um_created_at := um_created_at m; um_last_login := um_last_login m |}.

(** Saving a loaded user back, changed in columns no constraint speaks of,
    is an update of the one row. *)
Lemma save_loaded_user `{CaseFolding} d i u u' f :
  accounts_ok d → find_user_by_id i d = Ok (Some u) →
  user_id u' = user_id u → user_email u' = user_email u → user_roles u' = user_roles u →
  user_row u' = f (user_row u) →
  save_user u' d = Ok (u', set_users (update_where (λ x, um_id x = i) f (users d)) d).
Proof.
  intros Hok Hu Hi He Hr Hrow. destruct (find_user_by_id_row d i u Hok Hu) as (Huid & Hin & Hroles).
  rewrite (save_stored_user d (user_row u) u' Hok Hin) //; [|by rewrite He|].
  - rewrite Hi Huid. do 3 f_equal. rewrite -Huid.
    by apply (update_row_as f (user_row u)); [apply Hok| |].
  - intros r. rewrite Hr Hroles. intros [Hr' _]%elem_of_roles_of. by apply list_elem_of_fmap_2.
Qed.

Section auth.
Context {C : Type} `{Bcrypt} `{SecretTokens} `{MailQueue C} `{RateLimiter C} `{TokenCodec}
        `{CaseFolding} `{UuidSupply}.
Context (cfg : AuthSettings) (jwt : JwtSettings).
Implicit Types (w : World C).

(** What a confirmation that succeeded has done. *)
Definition confirmed (token : pystr) w w' : Prop :=
  ∃ digest v, token_digest token = Ok digest ∧ v ∈ email_verifications (w_db w) ∧
    claimable (w_now w) digest v ∧
    w_db w' = set_users (update_where (λ x, um_id x = ev_user_id v) with_verified (users (w_db w)))
      (set_email_verifications
         (update_where (claimable (w_now w) digest) (set_ev_used_at (w_now w))
            (email_verifications (w_db w))) (w_db w)) ∧
    all_spent digest (email_verifications (w_db w')).

Lemma verify_email_spec token ctx w :
  accounts_ok (w_db w) → NoDup (ev_token_hash <$> email_verifications (w_db w)) →
  wp (verify_email token ctx)
     (λ r w', match r with Ok _ => confirmed token w w' | Err _ => w_db w' = w_db w end) w.
Proof.
  intros Hok Hnd. rewrite /verify_email. wp_steps.
  destruct (token_digest token) as [digest|e] eqn:Hd; [|done]. wp_steps.
  rewrite /claim_verification. cbn [tx_work].
  destruct (claim _ digest _) as [[uid|] t'] eqn:Hc; wp_steps; [|done].
  apply claim_Some in Hc as (v & Hv & Hcl & Hu & -> & Hs); [|done].
  rewrite /load. wp_steps. cbn [tx_work].
  change (find_user_by_id uid (set_email_verifications _ (w_db w)))
    with (find_user_by_id uid (w_db w)).
  destruct (find_user_by_id uid (w_db w)) as [[u|]|e] eqn:Hf; wp_steps; [|done|done].
  cbn [tx_work]. rewrite (save_loaded_user _ uid u (confirm_email u) with_verified);
    [|by apply (accounts_ok_ext (w_db w))|done..].
  wp_steps. exists digest, v. split_and!; try done. by rewrite -Hu.
Qed.
(** ** Passwords *)

Lemma hash_password_spec plain w (Q : result exn pystr → World C → Prop) :
  (∀ e, Q (Err e) w) → (∀ e, Q (Err e) (set_uuids (S (w_uuids w)) w)) →
  (∀ b, validate_password plain = Ok tt → utf8_encode plain = Some b →
        Q (Ok (hashpw b (gensalt (w_uuids w)))) (set_uuids (S (w_uuids w)) w)) →
  wp (hash_password plain) Q w.
Proof.
  intros He He' Hok. rewrite /hash_password. wp_steps.
  destruct (validate_password plain) as [[]|e]; [|done]. wp_steps.
  destruct (utf8_encode plain) as [b|]; wp_steps; auto.
Qed.

(** The whole act of a password change, on the account tables. *)
Definition password_changed (now : Z) (i h : pystr) (d : Database) : Database :=
  set_refresh_sessions (revoke_all_for_user now i (refresh_sessions d)).2
    (set_password_resets (invalidate now i (password_resets d)).2
      (set_users (update_where (λ x, um_id x = i) (with_hash h) (users d)) d)).

(** A hash of the new password, as the policy admits it. *)
Definition hash_of (plain h : pystr) : Prop :=
  validate_password plain = Ok tt ∧
  ∃ b n, utf8_encode plain = Some b ∧ h = hashpw b (gensalt n).

Lemma update_password_spec i u np w d (Q : result exn nat → World C → Prop) :
  w_txn w = Some (MkTxn d false) → accounts_ok d → find_user_by_id i d = Ok (Some u) →
  (∀ e w', w_db w' = w_db w → Q (Err e) w') →
  (∀ h, hash_of np h →
     Q (Ok (revoke_all_for_user (w_now w) i (refresh_sessions d)).1)
       (set_txn (Some (MkTxn (password_changed (w_now w) i h d) false))
          (set_uuids (S (w_uuids w)) w))) →
  wp (update_password u np) Q w.
Proof.
  intros Ht Hok Hf He HQ. rewrite /update_password. case_bool_decide; wp_steps; [by apply He|].
  destruct (find_user_by_id_row d i u Hok Hf) as (Huid & _ & _).
  apply hash_password_spec; [by intros; apply He|by intros; apply He|]. intros b Hv Hb. wp_steps.
  set (h := hashpw b _).
  destruct (new_PasswordHash h) as [ph|e] eqn:Hph; [|by apply He]. wp_steps.
  assert (ph_value ph = h) as Hval.
  { revert Hph. rewrite /new_PasswordHash. by case_match; [|intros [= <-]]. }
  eapply wp_update; [exact Ht|]. cbn [tx_work tx_committed].
  rewrite (save_loaded_user d i u (with_password_hash ph u) (with_hash h)) //; last first.
  { by rewrite /user_row /with_hash /= Hval. }
  wp_steps. cbn [tx_work tx_committed]. rewrite Huid.
  apply (HQ h). split; [done|]. by exists b, (w_uuids w).
Qed.

Definition reset_done (token np : pystr) w w' : Prop :=
  ∃ digest v m h, token_digest token = Ok digest ∧ v ∈ password_resets (w_db w) ∧
    claimable (w_now w) digest v ∧ m ∈ users (w_db w) ∧ um_id m = pr_user_id v ∧
    um_is_active m = true ∧ hash_of np h ∧
    w_db w' = password_changed (w_now w) (pr_user_id v) h
      (set_password_resets (update_where (claimable (w_now w) digest)
         (set_pr_used_at (w_now w)) (password_resets (w_db w))) (w_db w)).

Lemma reset_password_spec token np ctx w :
  accounts_ok (w_db w) → NoDup (pr_token_hash <$> password_resets (w_db w)) →
  wp (reset_password token np ctx)
     (λ r w', match r with Ok _ => reset_done token np w w' | Err _ => w_db w' = w_db w end) w.
Proof.
  intros Hok Hnd. rewrite /reset_password. wp_steps.
  destruct (token_digest token) as [digest|e] eqn:Hd; [|done]. wp_steps.
  rewrite /claim_reset. cbn [tx_work].
  destruct (claim _ digest _) as [[uid|] t'] eqn:Hc; wp_steps; [|done].
  apply claim_Some in Hc as (v & Hv & Hcl & Hu & -> & Hs); [|done].
  rewrite /load. wp_steps. cbn [tx_work].
  set (d1 := set_password_resets _ (w_db w)).
  assert (accounts_ok d1) as Hok1 by (by apply (accounts_ok_ext (w_db w))).
  destruct (find_user_by_id uid d1) as [[u|]|e] eqn:Hf; wp_steps; [|done|done].
  destruct (user_is_active u) eqn:Ha; cbn [negb]; wp_steps; [|done].
  eapply (update_password_spec uid); [done|done|done|done|]. intros h Hh. wp_steps.
  destruct (find_user_by_id_row d1 uid u Hok1 Hf) as (Huid & Hin & _).
  exists digest, v, (user_row u), h. rewrite -Hu in Huid Hin. split_and!; try done.
  by rewrite -Hu.
Qed.
(** ** Opening a session *)

(** No value drawn from the [n]th on names a session. *)
Definition draws_fresh (n : nat) (t : list RefreshSession) : Prop :=
  ∀ k, (n <= k)%nat → uuid4 k ∉ (rs_id <$> t) ∧ uuid4 k ∉ (rs_token_id <$> t).

Definition opened (n : nat) (now : Z) (i : pystr) : RefreshSession :=
  create_refresh_session now (uuid4 (S n)) i (uuid4 n) (now + refresh_expire jwt) None.

Lemma create_session_tokens_spec u w (Q : result exn RefreshedTokens → World C → Prop) :
  sessions_ok (refresh_sessions (w_db w)) →
  draws_fresh (w_uuids w) (refresh_sessions (w_db w)) →
  user_id u ∈ (um_id <$> users (w_db w)) →
  (∀ w', w_db w' = set_refresh_sessions
           (refresh_sessions (w_db w) ++ [opened (w_uuids w) (w_now w) (user_id u)]) (w_db w) →
         Q (Ok (session_tokens jwt (w_now w) u (uuid4 (w_uuids w)) (uuid4 (w_uuids w)))) w') →
  wp (create_session_tokens jwt u) Q w.
Proof.
  intros Hok Hf Hu HQ. rewrite /create_session_tokens. wp_steps. cbn [tx_work w_now set_uuids].
  set (s := create_refresh_session _ _ _ _ _ _). cbn [w_db set_uuids].
  assert (save_session s (w_db w) =
    Ok (s, set_refresh_sessions (refresh_sessions (w_db w) ++ [s]) (w_db w))) as ->.
  { rewrite /save_session decide_False.
    - rewrite bool_decide_eq_true_2 //= decide_False //. apply (Hf (S (w_uuids w))). lia.
    - intros (r & Hr & _ & Heq)%Exists_elem. apply (proj2 (Hf (w_uuids w) (le_n _))).
      change (uuid4 (w_uuids w)) with (rs_token_id s). rewrite -Heq. by apply list_elem_of_fmap_2. }
  wp_steps. by apply HQ.
Qed.

(** ** Sign-in *)

Definition within_budget (email : pystr) w : Prop :=
  account_failure_limit cfg <= 0 ∨
  ∃ key, failure_key email = Ok key ∧
    0 < (rl_get_remaining (w_now w) key (account_failure_limit cfg)
           (account_failure_period cfg) (w_cache w)).1.

(** The account a sign-in is granted to. *)
Definition granted_to (email password : pystr) (d : Database) (u : User) : Prop :=
  ∃ e, new_Email email = Ok e ∧ find_user_by_email e d = Ok (Some u) ∧
    verify_password password (ph_value (user_password_hash u)) = true ∧
    user_is_active u = true ∧ user_email_verified u = true.

(** The ways a sign-in fails before an answer can be given. *)
Definition malformed (email : pystr) (d : Database) (x : exn) : Prop :=
  failure_key email = Err x ∨ new_Email email = Err x ∨
  ∃ e, new_Email email = Ok e ∧ find_user_by_email e d = Err x.

Definition login_outcome (email password : pystr) w (r : result exn LoginResponse) w' : Prop :=
  match r with
  | Ok resp => ∃ u, granted_to email password (w_db w) u ∧ within_budget email w ∧
      lr_user resp = from_user (with_last_login (Some (w_now w)) u) ∧
      (let session := opened (w_uuids w) (w_now w) (user_id u) in
       lr_tokens resp = session_tokens jwt (w_now w) (with_last_login (Some (w_now w)) u)
                          (rs_chain_id session) (rs_token_id session)) ∧
      w_db w' = set_refresh_sessions
        (refresh_sessions (w_db w) ++ [opened (w_uuids w) (w_now w) (user_id u)])
        (set_users (update_where (λ m, um_id m = user_id u) (with_login (w_now w))
                      (users (w_db w))) (w_db w))
  | Err x => w_db w' = w_db w ∧ (x = INVALID_CREDENTIALS ∨ malformed email (w_db w) x)
  end.

Lemma budget_spent_spec email w (Q : result exn bool → World C → Prop) :
  (∀ x, failure_key email = Err x → Q (Err x) w) →
  (∀ c, Q (Ok true) (set_cache c w)) →
  (∀ w', within_budget email w → w_db w' = w_db w → w_now w' = w_now w →
         w_uuids w' = w_uuids w → Q (Ok false) w') →
  wp (budget_spent cfg email) Q w.
Proof.
  intros He Ht Hf. rewrite /budget_spent. destruct (_ <=? 0) eqn:E.
  { wp_steps. apply Hf; try done. left. lia. }
  wp_steps. destruct (failure_key email) as [key|x] eqn:Hk; [|by apply He]. wp_steps.
  apply wp_with_cache. intros a c Hc. wp_steps. destruct (a <=? 0) eqn:Ea; [apply Ht|].
  apply Hf; try done. right. exists key. rewrite Hc. split; [done|simpl; lia].
Qed.

Lemma spend_budget_spec email w (Q : result exn unit → World C → Prop) :
  (∀ x, failure_key email = Err x → Q (Err x) w) → Q (Ok tt) w →
  (∀ c, Q (Ok tt) (set_cache c w)) → wp (spend_budget cfg email) Q w.
Proof.
  intros He Ht Hf. rewrite /spend_budget. destruct (_ <=? 0); wp_steps; [done|].
  destruct (failure_key email) as [key|x]; [|by apply He]. wp_steps.
  apply wp_with_cache. intros a c _. by wp_steps.
Qed.

(** The answer of [authenticate] and nothing else. *)
Definition authenticated (email password : pystr) (d : Database) : result exn (option User) :=
  e ← new_Email email; found ← find_user_by_email e d;
  Ok (found ≫= λ u, if verify_password password (ph_value (user_password_hash u))
                    then Some u else None).

Lemma authenticate_spec email password w (Q : result exn (option User) → World C → Prop) :
  Q (authenticated email password (w_db w)) w → wp (authenticate cfg email password) Q w.
Proof.
  rewrite /authenticate /authenticated. intros HQ. wp_steps.
  assert (∀ r, Q r w → Q r (set_txn (w_txn w) (set_txn (Some (MkTxn (w_db w) false)) w))) as Hw
    by (by destruct w).
  destruct (new_Email email) as [e|x]; [|by apply Hw]. rewrite /load. wp_steps. cbn [tx_work].
  simpl in HQ. destruct (find_user_by_email e (w_db w)) as [[u|]|x]; wp_steps; [|by apply Hw..].
  simpl in HQ. destruct (verify_password _ _); cbn [negb]; wp_steps; by apply Hw.
Qed.

Lemma login_spec email password ctx w :
  accounts_ok (w_db w) → sessions_ok (refresh_sessions (w_db w)) →
  draws_fresh (w_uuids w) (refresh_sessions (w_db w)) →
  wp (login cfg jwt email password ctx) (λ r w', login_outcome email password w r w') w.
Proof.
  intros Hok Hs Hf. rewrite /login. wp_step.
  apply budget_spent_spec; [|by intros c; wp_steps; split; [|left]|].
  { intros x Hx. split; [done|]. right. by left. }
  intros w1 Hb Hdb Hnow Huu. wp_step. apply authenticate_spec. rewrite Hdb.
  destruct (authenticated email password (w_db w)) as [[u|]|x] eqn:Ha.
  - assert (∃ e, new_Email email = Ok e ∧ find_user_by_email e (w_db w) = Ok (Some u) ∧
      verify_password password (ph_value (user_password_hash u)) = true) as (e & He & Hu & Hv).
    { revert Ha. rewrite /authenticated. destruct (new_Email email) as [e|]; [|done]. simpl.
      destruct (find_user_by_email e _) as [[u'|]|] eqn:Hu; [|done..]. simpl.
      destruct (verify_password _ _) eqn:Hv; [|done]. intros [= <-]. eauto. }
    destruct (user_is_active u) eqn:Hact; cbn [negb]; wp_steps; [|by rewrite /= Hdb; split; [|left]].
    destruct (user_email_verified u) eqn:Hver; cbn [negb]; wp_steps;
      [|by rewrite /= Hdb; split; [|left]].
    cbn [tx_work tx_committed record_login]. wp_steps.
    destruct (find_user_by_email_row _ _ _ Hok Hu) as (_ & Hin & _).
    apply create_session_tokens_spec; simpl.
    + by rewrite Hdb.
    + by rewrite Hdb Huu.
    + rewrite Hdb update_where_key; [|done]. by apply (list_elem_of_fmap_2 um_id _ (user_row u)).
    + intros w' Hw'. wp_steps. exists u. rewrite Hw' Hdb Huu Hnow /=. split_and!; try done.
      by exists e.
  - wp_step. apply spend_budget_spec; [intros x Hx|wp_steps|intros c; wp_steps].
    + split; [done|]. right. by left.
    + split; [done|by left].
    + split; [done|by left].
  - split; [done|]. right. right. revert Ha. rewrite /authenticated.
    destruct (new_Email email) as [e|y]; simpl; [|by intros [= <-]; left].
    destruct (find_user_by_email e _) as [o|y] eqn:Hy; simpl; [done|]. intros [= <-].
    right. by exists e.
Qed.
(** ** Registration and the mailed links *)

(** The queue answers whether it took the message, and touches no table. *)
Class MailQueueLaws : Prop := {
  mail_verification e tk ctx w :
    wp (enqueue_verification_email e tk ctx) (λ r w', is_ok r = true ∧ w_db w' = w_db w) w;
  mail_reset e tk ctx w :
    wp (enqueue_password_reset_email e tk ctx) (λ r w', is_ok r = true ∧ w_db w' = w_db w) w;
  mail_exists e ctx w :
    wp (enqueue_account_exists_email e ctx) (λ r w', is_ok r = true ∧ w_db w' = w_db w) w;
}.
Context `{!MailQueueLaws}.

(** No value drawn from the [n]th on names a row of the account tables. *)
Definition rows_fresh (n : nat) (d : Database) : Prop :=
  ∀ k, (n <= k)%nat → uuid4 k ∉ (um_id <$> users d) ∧
    uuid4 k ∉ (ev_id <$> email_verifications d) ∧ uuid4 k ∉ (pr_id <$> password_resets d).

Lemma save_token_new {T} `{MailedToken T} owners (v : T) t t' :
  mt_id v ∉ (mt_id <$> t) → save_token owners v t = Ok t' → t' = t ++ [v].
Proof.
  intros Hn. rewrite /save_token. case_decide; [done|]. case_match; [done|].
  rewrite decide_False //. by intros [= <-].
Qed.

(** What an account created by registration looks like. *)
Definition new_account (now : Z) (e : Email) (password : pystr) (role : Role) (u : User) : Prop :=
  user_email u = e ∧ hash_of password (ph_value (user_password_hash u)) ∧
  user_roles u = [role] ∧ role_name role = default_role_name cfg ∧
  user_is_active u = true ∧ user_email_verified u = false ∧ user_created_at u = now.

Definition registered (email password : pystr) w w' : Prop :=
  ∃ e, new_Email email = Ok e ∧
   (((∃ m, m ∈ users (w_db w) ∧ um_email m = em_value e) ∧ w_db w' = w_db w) ∨
    (∃ role u v token digest,
       (∀ m, m ∈ users (w_db w) → um_email m ≠ em_value e) ∧
       role ∈ roles (w_db w) ∧ new_account (w_now w) e password role u ∧
       token_digest token = Ok digest ∧ ev_user_id v = user_id u ∧ ev_token_hash v = digest ∧
       ev_used_at v = None ∧
       ev_expires_at v = w_now w + verification_ttl_hours cfg * HOUR ∧
       w_db w' = set_email_verifications (email_verifications (w_db w) ++ [v])
                   (set_users (users (w_db w) ++ [user_row u]) (w_db w)))).

Lemma register_account_spec e ph w (Q : result exn (option (User * pystr)) → World C → Prop) :
  rows_fresh (w_uuids w) (w_db w) →
  (∀ x w', w_db w' = w_db w → is_validation_error x = false → Q (Err x) w') →
  (∀ m r w', m ∈ users (w_db w) → um_email m = em_value e → w_db w' = w_db w →
     match r with Ok (Some _) => False | _ => True end → Q r w') →
  (∀ role uid vid token digest w',
     (∀ m, m ∈ users (w_db w) → um_email m ≠ em_value e) →
     get_role_by_name (default_role_name cfg) (w_db w) = Some role →
     token_digest token = Ok digest →
     let u := MkUser uid e ph [role] true false (w_now w) None in
     w_db w' = set_email_verifications (email_verifications (w_db w) ++
                 [issue_verification (w_now w) vid uid digest (verification_ttl_hours cfg)])
                 (set_users (users (w_db w) ++ [user_row u]) (w_db w)) →
     Q (Ok (Some (u, token))) w') →
  wp (register_account cfg e ph) Q w.
Proof.
  intros Hfr Herr Htaken Hnew. rewrite /register_account. wp_steps. rewrite /load. wp_steps.
  cbn [tx_work]. rewrite /find_user_by_email.
  destruct (first (filter (λ m, um_email m = em_value e) (users (w_db w)))) as [m|] eqn:Hfind.
  { apply first_filter_Some in Hfind as [Hm Hme].
    destruct (load_user (w_db w) (Some m)) as [[u|]|x] eqn:Hl; wp_steps.
    - by apply (Htaken m).
    - by apply load_user_None in Hl.
    - by apply (Htaken m). }
  pose proof (proj1 (first_filter_None _ _) Hfind) as Hno. cbn [load_user]. wp_steps.
  cbn [tx_work]. destruct (get_role_by_name _ _) as [role|] eqn:Hrole; wp_steps; [|by apply Herr].
  rewrite /require_roles_are_assignable. case_decide; wp_steps; [by apply Herr|].
  rewrite /create_user_entity /require_roles_are_assignable decide_False //. cbn.
  set (u := MkUser _ e ph _ _ _ _ _).
  apply first_filter_Some in Hrole as Hr. destruct Hr as [Hrin Hrname].
  assert (save_user u (w_db w) = Ok (u, set_users (users (w_db w) ++ [user_row u]) (w_db w))) as Hsave.
  { rewrite /save_user. assert (missing_role (roles (w_db w)) u = None) as ->.
    { apply first_filter_None. intros r Hr1 Hn. apply Hn. simpl in Hr1.
      apply list_elem_of_singleton in Hr1 as ->. by apply list_elem_of_fmap_2. }
    rewrite decide_False; [|by intros (m & Hm & _ & Heq)%Exists_elem; apply (Hno m)].
    rewrite decide_False //. apply (Hfr (w_uuids w)). lia. }
  eapply wp_bind, wp_update; [reflexivity|]. cbn [tx_work]. rewrite Hsave. wp_steps.
  rewrite /issue_token. wp_steps.
  destruct (token_digest _) as [digest|x] eqn:Hd; wp_steps; last first.
  { apply Herr; [done|]. revert Hd. rewrite /token_digest. case_match; by intros [= <-]. }
  rewrite /save_verification. cbn [tx_work].
  destruct (save_token _ _ _) as [t'|x] eqn:Ht; simpl; last first.
  { apply Herr; [done|]. revert Ht. rewrite /save_token. repeat (case_match || case_decide); by intros [= <-]. }
  apply save_token_new in Ht as ->; [|apply (Hfr (S (S (w_uuids w)))); simpl; lia].
  wp_steps. by eapply (Hnew role).
Qed.
Lemma register_spec email password ctx w :
  rows_fresh (w_uuids w) (w_db w) →
  wp (register cfg email password ctx) (λ r w',
    match r with Ok _ => registered email password w w' | Err _ => w_db w' = w_db w end) w.
Proof.
  intros Hfr. rewrite /register. wp_steps. destruct (new_Email email) as [e|] eqn:He; [|done].
  wp_step. apply hash_password_spec; [done|done|]. intros b Hval Hb.
  wp_steps. set (h := hashpw b _).
  destruct (new_PasswordHash h) as [ph|] eqn:Hph; [|done]. wp_steps.
  assert (ph_value ph = h) as Hv.
  { revert Hph. rewrite /new_PasswordHash. by case_match; [|intros [= <-]]. }
  assert (hash_of password (ph_value ph)) as Hh.
  { rewrite Hv. split; [done|]. by exists b, (w_uuids w). }
  apply register_account_spec.
  - intros k Hk. apply Hfr. simpl in Hk. lia.
  - intros x w' Hdb Hx. rewrite Hx. by wp_steps.
  - intros m r w' Hm Hme Hdb Hr.
    assert (∀ w2, w_db w2 = w_db w → wp (enqueue_account_exists_email (em_value e) ctx;; mret tt)
      (λ r0 w', match r0 with Ok _ => registered email password w w' | Err _ => w_db w' = w_db w end) w2)
      as Hmail.
    { intros w2 Hw2. wp_step. eapply wp_mono; [apply mail_exists|]. intros q w3 [Hq Hw3].
      destruct q; [|done]. wp_steps. exists e. split; [done|]. left.
      split; [by exists m|by rewrite Hw3 Hw2]. }
    destruct r as [[p|]|x]; [done|by apply Hmail|].
    case_match; wp_step; [by apply Hmail|done].
  - intros role uid vid token digest w' Hno Hrole Hd u Hdb. wp_steps.
    eapply wp_mono; [apply mail_verification|]. intros q w3 [Hq Hw3].
    destruct q; [|done]. wp_steps. exists e. split; [done|]. right.
    apply first_filter_Some in Hrole as [Hrin Hrname].
    exists role, u, (issue_verification (w_now w) vid uid digest (verification_ttl_hours cfg)),
      token, digest.
    split_and!; try done. by rewrite Hw3 /= Hdb.
Qed.

(** The one token a request for a link leaves working. *)
Definition only_link {T} `{MailedToken T} (v : T) (t : list T) : Prop :=
  v ∈ t ∧ ∀ x, x ∈ t → mt_user_id x = mt_user_id v → mt_used_at x = None → x = v.

Lemma invalidated_then_added {T} `{MailedTokenLaws T} now (v : T) t :
  only_link v ((invalidate now (mt_user_id v) t).2 ++ [v]).
Proof.
  split; [set_solver|]. intros x [Hx|Hx]%elem_of_app Hu Hn.
  - exfalso. by apply (invalidate_spends now (mt_user_id v) t x).
  - by apply list_elem_of_singleton in Hx.
Qed.

Definition reset_link_sent (email : pystr) w w' : Prop :=
  ∃ e u v token, new_Email email = Ok e ∧ find_user_by_email e (w_db w) = Ok (Some u) ∧
    user_is_active u = true ∧ user_email_verified u = true ∧
    token_digest token = Ok (pr_token_hash v) ∧ pr_user_id v = user_id u ∧
    pr_expires_at v = w_now w + reset_ttl_minutes cfg * MINUTE ∧
    only_link v (password_resets (w_db w')) ∧
    w_db w' = set_password_resets
      ((invalidate (w_now w) (user_id u) (password_resets (w_db w))).2 ++ [v]) (w_db w).

Lemma invalidate_ids {T} `{MailedTokenLaws T} now u (t : list T) :
  mt_id <$> (invalidate now u t).2 = mt_id <$> t.
Proof. apply update_where_key. intros v. apply spend_id. Qed.

Lemma request_password_reset_spec email ctx w :
  rows_fresh (w_uuids w) (w_db w) →
  wp (request_password_reset cfg email ctx) (λ r w',
    match r with
    | Ok NOTHING_TO_SEND | Err _ => w_db w' = w_db w
    | Ok _ => reset_link_sent email w w'
    end) w.
Proof.
  intros Hfr. rewrite /request_password_reset. wp_steps.
  destruct (new_Email email) as [e|] eqn:He; [|done]. wp_steps. rewrite /load. wp_steps.
  cbn [tx_work]. destruct (find_user_by_email e (w_db w)) as [[u|]|x] eqn:Hu; wp_steps; [|done|done].
  destruct (user_is_active u && user_email_verified u) eqn:Hav; cbn [negb]; wp_steps; [|done].
  apply andb_true_iff in Hav as [Hact Hver].
  rewrite /invalidate_resets. cbn [tx_work]. rewrite (surjective_pairing (invalidate _ _ _)).
  wp_steps. rewrite /issue_token. wp_steps.
  destruct (token_digest _) as [digest|x] eqn:Hd; [|done]. wp_steps.
  rewrite /save_reset. cbn [tx_work].
  destruct (save_token _ _ _) as [t'|x] eqn:Ht; simpl; [|done].
  apply save_token_new in Ht as ->; last first.
  { rewrite (invalidate_ids (T:=PasswordReset)). apply (Hfr (S (w_uuids w))). simpl. lia. }
  wp_steps. eapply wp_mono; [apply mail_reset|]. intros q w3 [Hq Hw3].
  destruct q as [b|]; [|done]. wp_steps.
  pose (v := issue_reset (w_now w) (uuid4 (S (w_uuids w))) (user_id u) digest
               (reset_ttl_minutes cfg)).
  assert (reset_link_sent email w w3) as Hsent; [|by destruct b].
  exists e, u, v, (token_urlsafe TOKEN_BYTES (w_uuids w)). split_and!; try done.
  rewrite Hw3. exact (invalidated_then_added (w_now w) v (password_resets (w_db w))).
Qed.

Definition verification_link_sent (email : pystr) w w' : Prop :=
  ∃ e u v token, new_Email email = Ok e ∧ find_user_by_email e (w_db w) = Ok (Some u) ∧
    user_email_verified u = false ∧
    token_digest token = Ok (ev_token_hash v) ∧ ev_user_id v = user_id u ∧
    ev_expires_at v = w_now w + verification_ttl_hours cfg * HOUR ∧
    only_link v (email_verifications (w_db w')) ∧
    w_db w' = set_email_verifications
      ((invalidate (w_now w) (user_id u) (email_verifications (w_db w))).2 ++ [v]) (w_db w).

Lemma resend_verification_spec email ctx w :
  rows_fresh (w_uuids w) (w_db w) →
  wp (resend_verification cfg email ctx) (λ r w',
    match r with
    | Ok NOTHING_TO_SEND | Err _ => w_db w' = w_db w
    | Ok _ => verification_link_sent email w w'
    end) w.
Proof.
  intros Hfr. rewrite /resend_verification. wp_steps.
  destruct (new_Email email) as [e|] eqn:He; [|done]. wp_steps. rewrite /load. wp_steps.
  cbn [tx_work]. destruct (find_user_by_email e (w_db w)) as [[u|]|x] eqn:Hu; wp_steps; [|done|done].
  destruct (user_email_verified u) eqn:Hver; wp_steps; [done|].
  rewrite /invalidate_verifications. cbn [tx_work]. rewrite (surjective_pairing (invalidate _ _ _)).
  wp_steps. rewrite /issue_token. wp_steps.
  destruct (token_digest _) as [digest|x] eqn:Hd; [|done]. wp_steps.
  rewrite /save_verification. cbn [tx_work].
  destruct (save_token _ _ _) as [t'|x] eqn:Ht; simpl; [|done].
  apply save_token_new in Ht as ->; last first.
  { rewrite (invalidate_ids (T:=EmailVerification)). apply (Hfr (S (w_uuids w))). simpl. lia. }
  wp_steps. eapply wp_mono; [apply mail_verification|]. intros q w3 [Hq Hw3].
  destruct q as [b|]; [|done]. wp_steps.
  pose (v := issue_verification (w_now w) (uuid4 (S (w_uuids w))) (user_id u) digest
               (verification_ttl_hours cfg)).
  assert (verification_link_sent email w w3) as Hsent; [|by destruct b].
  exists e, u, v, (token_urlsafe TOKEN_BYTES (w_uuids w)). split_and!; try done.
  rewrite Hw3. exact (invalidated_then_added (w_now w) v (email_verifications (w_db w))).
Qed.

(** ** Changing a password *)

Definition password_replaced (i current np : pystr) w w' : Prop :=
  ∃ u h n, find_user_by_id i (w_db w) = Ok (Some u) ∧
    verify_password current (ph_value (user_password_hash u)) = true ∧
    verify_password np (ph_value (user_password_hash u)) = false ∧ hash_of np h ∧
    let d := password_changed (w_now w) i h (w_db w) in
    w_db w' = set_refresh_sessions (refresh_sessions d ++ [opened n (w_now w) i]) d.

Lemma revoke_all_ok now i t : sessions_ok t → sessions_ok (revoke_all_for_user now i t).2.
Proof. intros Ht. by apply update_sessions_ok. Qed.

Lemma change_password_spec i current np ctx w :
  accounts_ok (w_db w) → sessions_ok (refresh_sessions (w_db w)) →
  draws_fresh (w_uuids w) (refresh_sessions (w_db w)) →
  wp (change_password jwt i current np ctx) (λ r w',
    match r with Ok _ => password_replaced i current np w w' | Err _ => w_db w' = w_db w end) w.
Proof.
  intros Hok Hs Hf. rewrite /change_password. wp_steps. rewrite /load. wp_steps. cbn [tx_work].
  destruct (find_user_by_id i (w_db w)) as [[u|]|x] eqn:Hu; wp_steps; [|done|done].
  destruct (verify_password current _) eqn:Hcur; cbn [negb]; wp_steps; [|done].
  destruct (verify_password np _) eqn:Hnp; wp_steps; [done|].
  destruct (find_user_by_id_row _ _ _ Hok Hu) as (Huid & Hin & _).
  eapply (update_password_spec i); [done|done|done|done|]. intros h Hh. wp_steps.
  apply create_session_tokens_spec; simpl.
  - by apply revoke_all_ok.
  - intros k Hk. rewrite !update_where_key //. apply Hf. lia.
  - rewrite update_where_key //. by apply (list_elem_of_fmap_2 um_id _ (user_row u)).
  - intros w' Hw'. wp_steps. exists u, h, (S (w_uuids w)). split_and!; try done.
    simpl. by rewrite Hw' /= Huid.
Qed.
End auth.
