(* ===== verification/AuthClaims.v ===== *)
(** * The guarantees of the account use cases

    The theorems of [AuthTheorems.v] put together, each with a run on a small
    concrete deployment. *)

From S2P Require Import Prelude PyStr Exceptions ValueObjects Entities Policies Sha256 Database.
From S2P Require Import LinkRepo UserRepo Sessions RateLimit Auth AuthTheorems.

(** What the documentation of bcrypt says of a hash it made of at most 72
    bytes: the password checks against it. *)
Class BcryptLaws `{Bcrypt} : Prop :=
  hashpw_checks b salt : len b <= MAX_PASSWORD_BYTES →
    ∃ h, utf8_encode (hashpw b salt) = Some h ∧ checkpw b h = Some true.

(** The life of a table of mailed tokens, seen from one digest: claims and
    invalidations by anyone, sweeps, and tokens issued with other digests. *)
Inductive token_step {T} `{MailedToken T} (h : pystr) : list T → list T → Prop :=
| step_claim now h' t : token_step h t (claim now h' t).2
| step_invalidate now u t : token_step h t (invalidate now u t).2
| step_sweep now t : token_step h t (delete_dead now t).2
| step_issue v t : mt_token_hash v ≠ h → token_step h t (t ++ [v]).

Lemma token_step_spent {T} `{MailedTokenLaws T} h (t t' : list T) :
  token_step h t t' → all_spent h t → all_spent h t'.
Proof.
  intros [now h' t1|now u t1|now t1|v t1 Hv] Hs.
  - rewrite /claim. case_match; [|done]. simpl. by apply all_spent_update.
  - by apply all_spent_update.
  - by apply all_spent_delete.
  - intros x [Hx|Hx]%elem_of_app; [by apply Hs|]. by apply list_elem_of_singleton in Hx as ->.
Qed.

Lemma token_steps_spent {T} `{MailedTokenLaws T} h (t t' : list T) :
  rtc (token_step h) t t' → all_spent h t → all_spent h t'.
Proof. induction 1; eauto using token_step_spent. Qed.

Section claims.
Context {C : Type} `{Bcrypt} `{SecretTokens} `{MailQueue C} `{RateLimiter C} `{TokenCodec}
        `{CaseFolding} `{UuidSupply}.
Context (cfg : AuthSettings) (jwt : JwtSettings).
Implicit Types (w : World C).

Lemma verify_email_spent token digest ctx w :
  token_digest token = Ok digest → all_spent digest (email_verifications (w_db w)) →
  wp (verify_email token ctx) (λ r w', r = Err BAD_CONFIRMATION ∧ w_db w' = w_db w) w.
Proof.
  intros Hd Hs. rewrite /verify_email. wp_steps. rewrite Hd. wp_steps.
  rewrite /claim_verification. cbn [tx_work].
  pose proof (claim_spent (w_now w) digest _ Hs) as Hn.
  destruct (claim _ digest _) as [o t'] eqn:E. simpl in Hn.
  subst o. by wp_steps.
Qed.

(** a confirmation link works once.  A confirmation that succeeds found
    an unspent, unexpired token of an existing account, spent it, marked the
    account's address as confirmed and changed nothing else; one that fails
    changes nothing; and after a success the same token is refused in every
    later state of the table, whatever was claimed, issued or swept since. *)
Theorem confirmation_works_once token ctx w r w' :
  accounts_ok (w_db w) → NoDup (ev_token_hash <$> email_verifications (w_db w)) →
  verify_email token ctx w = (r, w') →
  match r with
  | Err _ => w_db w' = w_db w
  | Ok _ => confirmed token w w' ∧
      ∀ ctx2 w2 digest, token_digest token = Ok digest →
        rtc (token_step digest) (email_verifications (w_db w')) (email_verifications (w_db w2)) →
        (verify_email token ctx2 w2).1 = Err BAD_CONFIRMATION
  end.
Proof.
  intros Hok Hnd Hr. pose proof (verify_email_spec token ctx w Hok Hnd) as Hs.
  apply (wp_elim _ _ _ _ _ Hs) in Hr. destruct r as [[]|x]; [|done].
  split; [done|]. destruct Hr as (d & v & Hd & _ & _ & _ & Hsp).
  intros ctx2 w2 digest Hd' Hsteps. rewrite Hd in Hd'. injection Hd' as <-.
  by apply (verify_email_spent token d ctx2 w2 Hd), (token_steps_spent _ _ _ Hsteps).
Qed.

(** What a user may count on after a password change. *)
Definition old_password_retired (i np : pystr) w w' : Prop :=
  (∀ m, m ∈ users (w_db w') → um_id m = i → verify_password np (um_password_hash m) = true) ∧
  (∀ s, s ∈ refresh_sessions (w_db w) → rs_user_id s = i →
     ∀ now', ∃ s', s' ∈ refresh_sessions (w_db w') ∧ rs_token_id s' = rs_token_id s ∧
                   session_is_usable now' s' = false) ∧
  (∀ v, v ∈ password_resets (w_db w') → pr_user_id v = i → pr_used_at v ≠ None) ∧
  filter (λ m, um_id m ≠ i) (users (w_db w')) = filter (λ m, um_id m ≠ i) (users (w_db w)).

Lemma hash_of_verifies `{!BcryptLaws} plain h : hash_of plain h → verify_password plain h = true.
Proof.
  intros [Hv (b & n & Hb & ->)]. rewrite /verify_password Hb.
  apply validate_password_ok in Hv as (_ & _ & _ & (b' & Hb' & Hlen) & _).
  assert (len b <= MAX_PASSWORD_BYTES) as Hle by (rewrite Hb in Hb'; simplify_eq; lia).
  destruct (hashpw_checks b (gensalt n) Hle) as (h' & -> & Hc).
  by rewrite Hc.
Qed.

Lemma revoke_all_unusable now i t s :
  s ∈ t → rs_user_id s = i → ∀ now', ∃ s',
    s' ∈ (revoke_all_for_user now i t).2 ∧ rs_token_id s' = rs_token_id s ∧
    session_is_usable now' s' = false.
Proof.
  intros Hs Hi now'. exists (if decide (open_of_user i s) then with_revocation now s else s).
  split; [simpl; apply elem_of_update_where; by exists s|]. case_decide as Ho; [done|].
  split; [done|]. rewrite /session_is_usable. destruct (rs_revoked_at s) eqn:E; [done|].
  exfalso. apply Ho. by split.
Qed.

Lemma password_changed_retires `{!BcryptLaws} now i np h d w w' :
  hash_of np h → users d = users (w_db w) → refresh_sessions d = refresh_sessions (w_db w) →
  users (w_db w') = users (password_changed now i h d) →
  (∀ s, s ∈ refresh_sessions (password_changed now i h d) → s ∈ refresh_sessions (w_db w')) →
  password_resets (w_db w') = password_resets (password_changed now i h d) →
  old_password_retired i np w w'.
Proof.
  intros Hh Hu Hs Hu' Hs' Hp'. split_and!.
  - rewrite Hu' /=. intros m (x & Hx & ->)%elem_of_update_where Hi.
    case_decide as Hd; [by apply hash_of_verifies|done].
  - intros s Hin Hi now'. rewrite -Hs in Hin.
    destruct (revoke_all_unusable now i _ s Hin Hi now') as (s' & Hin' & Ht & Hx).
    exists s'. split; [by apply Hs'|done].
  - rewrite Hp'. intros v Hv Hi. exact (invalidate_spends now i (password_resets d) v Hv Hi).
  - rewrite Hu' /= Hu. by apply (filter_update_others (λ m, um_id m = i)).
Qed.

(** C18: a password reset that succeeds was asked with an unspent, unexpired
    token of an active account; afterwards the new password checks against
    that account's stored hash, no session it had is usable, no reset link
    of it works any more, and no other account's row changed.  A reset that
    fails changes nothing at all, the token included. *)
Theorem reset_retires_the_old_password `{!BcryptLaws} token np ctx w r w' :
  accounts_ok (w_db w) → NoDup (pr_token_hash <$> password_resets (w_db w)) →
  reset_password token np ctx w = (r, w') →
  match r with
  | Err _ => w_db w' = w_db w
  | Ok _ => ∃ digest v m, token_digest token = Ok digest ∧ v ∈ password_resets (w_db w) ∧
      claimable (w_now w) digest v ∧ m ∈ users (w_db w) ∧ um_id m = pr_user_id v ∧
      um_is_active m = true ∧ old_password_retired (um_id m) np w w'
  end.
Proof.
  intros Hok Hnd Hr. pose proof (reset_password_spec token np ctx w Hok Hnd) as Hs.
  apply (wp_elim _ _ _ _ _ Hs) in Hr. destruct r as [[]|x]; [|done].
  destruct Hr as (digest & v & m & h & Hd & Hv & Hc & Hm & Hi & Ha & Hh & Hdb).
  exists digest, v, m. split_and!; try done. rewrite Hi.
  eapply password_changed_retires; [done|..|by rewrite Hdb|by rewrite Hdb|by rewrite Hdb];
    reflexivity.
Qed.

(** a password change is granted only to who knows the current password
    and asks for a different one; it retires the old password as a reset does
    and opens exactly one new session, the answer's; a refusal changes
    nothing. *)
Theorem change_retires_the_old_password `{!BcryptLaws} i current np ctx w r w' :
  accounts_ok (w_db w) → sessions_ok (refresh_sessions (w_db w)) →
  draws_fresh (w_uuids w) (refresh_sessions (w_db w)) →
  change_password jwt i current np ctx w = (r, w') →
  match r with
  | Err _ => w_db w' = w_db w
  | Ok _ => ∃ u s, find_user_by_id i (w_db w) = Ok (Some u) ∧
      verify_password current (ph_value (user_password_hash u)) = true ∧
      verify_password np (ph_value (user_password_hash u)) = false ∧
      old_password_retired i np w w' ∧ rs_user_id s = i ∧
      session_is_usable (w_now w) s = (0 <? refresh_expire jwt) ∧
      refresh_sessions (w_db w') =
        (revoke_all_for_user (w_now w) i (refresh_sessions (w_db w))).2 ++ [s]
  end.
Proof.
  intros Hok Hs Hf Hr. pose proof (change_password_spec jwt i current np ctx w Hok Hs Hf) as Hsp.
  apply (wp_elim _ _ _ _ _ Hsp) in Hr. destruct r as [tk|x]; [|done].
  destruct Hr as (u & h & n & Hu & Hcur & Hnp & Hh & Hdb).
  exists u, (opened jwt n (w_now w) i). split_and!; try done.
  - eapply (password_changed_retires (w_now w) i np h (w_db w)); try done; rewrite Hdb //=.
    intros s Hin. apply elem_of_app. by left.
  - rewrite /session_is_usable /=. lia.
  - by rewrite Hdb.
Qed.

(** C16: every outcome of a sign-in.  Tokens are answered only for an active
    account with a confirmed address whose stored hash the password checks
    against, and only within the budget of failures; exactly one session is
    opened and the time of the sign-in recorded.  Every refusal leaves the
    database as it was, and for a well-formed address it is one and the same
    error whichever reason it had. *)
Theorem sign_in_outcomes email password ctx w r w' :
  accounts_ok (w_db w) → sessions_ok (refresh_sessions (w_db w)) →
  draws_fresh (w_uuids w) (refresh_sessions (w_db w)) →
  login cfg jwt email password ctx w = (r, w') → login_outcome cfg jwt email password w r w'.
Proof.
  intros Hok Hs Hf Hr. pose proof (login_spec cfg jwt email password ctx w Hok Hs Hf) as Hsp.
  by apply (wp_elim _ _ _ _ _ Hsp) in Hr.
Qed.

(** registration tells nobody whether an address is taken.  Whenever it
    answers at all it answers the same; with the address taken no row
    changes, and otherwise one unconfirmed account of the default role and
    one confirmation token for it are stored, together or not at all. *)
Theorem registration_outcomes `{!MailQueueLaws} email password ctx w r w' :
  rows_fresh (w_uuids w) (w_db w) → register cfg email password ctx w = (r, w') →
  match r with Ok _ => registered cfg email password w w' | Err _ => w_db w' = w_db w end.
Proof.
  intros Hf Hr. pose proof (register_spec cfg email password ctx w Hf) as Hsp.
  by apply (wp_elim _ _ _ _ _ Hsp) in Hr.
Qed.

(** a request for a reset link, like a request to resend the
    confirmation, either changes nothing or leaves exactly one working token
    of the account, the new one. *)
Theorem only_the_newest_link_works `{!MailQueueLaws} email ctx w :
  rows_fresh (w_uuids w) (w_db w) →
  match request_password_reset cfg email ctx w with
  | (Ok NOTHING_TO_SEND, w') | (Err _, w') => w_db w' = w_db w
  | (Ok _, w') => reset_link_sent cfg email w w'
  end ∧
  match resend_verification cfg email ctx w with
  | (Ok NOTHING_TO_SEND, w') | (Err _, w') => w_db w' = w_db w
  | (Ok _, w') => verification_link_sent cfg email w w'
  end.
Proof.
  intros Hf. split.
  - pose proof (request_password_reset_spec cfg email ctx w Hf) as Hs. rewrite /wp in Hs.
    by destruct (request_password_reset cfg email ctx w) as [[[]|] ?].
  - pose proof (resend_verification_spec cfg email ctx w Hf) as Hs. rewrite /wp in Hs.
    by destruct (resend_verification cfg email ctx w) as [[[]|] ?].
Qed.
End claims.

(** ** The budget of failures, with the in-process limiter *)

Section lockout.
Context `{Bcrypt} `{SecretTokens} `{TokenCodec} `{CaseFolding} `{UuidSupply}.
Context (cfg : AuthSettings) (jwt : JwtSettings).
Implicit Types (w : World Storage).

(** Failures of the address the limiter holds within the period. *)
Definition recent_failures (key : pystr) (now : Z) (s : Storage) : Z :=
  Z.of_nat (length (filter (in_window now (account_failure_period cfg)) (stamps s key))).

(** the failures of an address lock it, and only for the period.  While
    the configured number of failures lies within the period, a sign-in for
    the address is refused with the common error whatever the password, and
    touches no row; while fewer do, a refused password adds exactly one
    failure, recorded at this instant. *)
Theorem failures_lock_the_address email password ctx w key :
  0 < account_failure_limit cfg → failure_key email = Ok key →
  let n := recent_failures key (w_now w) (w_cache w) in
  let '(r, w') := login cfg jwt email password ctx w in
  (account_failure_limit cfg <= n → r = Err INVALID_CREDENTIALS ∧ w_db w' = w_db w) ∧
  (n < account_failure_limit cfg →
   authenticated email password (w_db w) = Ok None →
   r = Err INVALID_CREDENTIALS ∧ w_db w' = w_db w ∧
   stamps (w_cache w') key =
     filter (in_window (w_now w) (account_failure_period cfg)) (stamps (w_cache w) key)
       ++ [w_now w]).
Proof.
  intros Hlim Hkey. cbv zeta. set (n := recent_failures _ _ _).
  cut (wp (login cfg jwt email password ctx) (λ r w',
    (account_failure_limit cfg <= n → r = Err INVALID_CREDENTIALS ∧ w_db w' = w_db w) ∧
    (n < account_failure_limit cfg →
     authenticated email password (w_db w) = Ok None →
     r = Err INVALID_CREDENTIALS ∧ w_db w' = w_db w ∧
     stamps (w_cache w') key =
       filter (in_window (w_now w) (account_failure_period cfg)) (stamps (w_cache w) key)
         ++ [w_now w])) w).
  { rewrite /wp. by destruct (login cfg jwt email password ctx w). }
  rewrite /login /budget_spent. assert ((account_failure_limit cfg <=? 0) = false) as Hl by lia.
  rewrite Hl. wp_steps. rewrite Hkey. wp_steps. apply wp_with_cache.
  intros left c [= <- <-]. wp_steps.
  fold (recent_failures key (w_now w) (w_cache w)). fold n.
  destruct (Z.max 0 (account_failure_limit cfg - n) <=? 0) eqn:Hn.
  { wp_steps. split; [done|lia]. }
  destruct (authenticated email password (w_db w)) as [[u|]|x] eqn:Ha.
  1, 3: rewrite /wp; split; [lia|done].
  wp_step. apply authenticate_spec. cbn [w_db set_cache]. rewrite Ha. wp_step.
  rewrite /spend_budget Hl. wp_steps. rewrite Hkey. wp_steps. apply wp_with_cache.
  intros ok c. rewrite /rl_is_allowed /= /mem_is_allowed stamps_insert.
  assert ((Z.of_nat (length (filter (in_window (w_now w) (account_failure_period cfg))
    (stamps (w_cache w) key))) <? account_failure_limit cfg) = true) as ->.
  { fold (recent_failures key (w_now w) (w_cache w)). fold n. lia. }
  intros [= <- <-]. wp_steps. split; [lia|]. intros _ _. split_and!; [done..|].
  by rewrite /= stamps_insert.
Qed.
End lockout.

(** The Celery queue keeps the promise the use cases rely on. *)
Lemma hand_off_keeps {C} delay t (w : World C) :
  wp (hand_off delay t) (λ r w', is_ok r = true ∧ w_db w' = w_db w) w.
Proof. rewrite /hand_off. wp_steps. destruct (delay _ _); by wp_steps. Qed.

#[global] Instance CeleryMail_laws {C} delay : @MailQueueLaws C (CeleryMail delay).
Proof. split; intros; apply hand_off_keeps. Qed.

(** ** A small deployment *)

Module AuthDemo.
Instance folding : CaseFolding := fmap ascii_lower.
Instance uuids : UuidSupply := λ n, repeat 48 (S n).
Instance secrets : SecretTokens := λ _ n, repeat 65 (S n).

(** A hash that keeps the length of the password, one printable character. *)
Instance bcrypt : Bcrypt := {|
  gensalt _ := [];
  hashpw b _ := [40 + len b];
  checkpw b h := Some (bool_decide (h = [40 + len b]));
|}.

Instance bcrypt_laws : BcryptLaws.
Proof.
  intros b salt Hb. rewrite /MAX_PASSWORD_BYTES in Hb. pose proof (len_nonneg b).
  exists [40 + len b]. split; [|simpl; by rewrite bool_decide_eq_true_2].
  apply utf8_encode_ascii. rewrite /isascii /is_ascii /=. lia.
Qed.

Instance codec : TokenCodec := {|
  jwt_encode c := default [] (cl_jti c);
  jwt_decode _ t := Some (MkClaims (lit "u1") [] 1000 0 REFRESH (Some t) None);
|}.
Instance mail : MailQueue Storage := CeleryMail (λ _ _, true).
Instance mail_laws : @MailQueueLaws Storage mail.
Proof. apply CeleryMail_laws. Qed.

Definition role : Role := MkRole (lit "r1") (lit "user") None true [].
Definition account : UserModel :=
  MkUserModel (lit "u1") (lit "jo@a.org") [61] [lit "r1"] true true 0 None.
Definition unconfirmed : UserModel :=
  MkUserModel (lit "u2") (lit "al@a.org") [61] [lit "r1"] true false 0 None.
Definition digest_of (s : string) : pystr := hexdigest (sha256 (lit s)).
Definition db : Database :=
  MkDatabase [] [account; unconfirmed] [role] [] []
    [MkEmailVerification (lit "v1") (lit "u2") (digest_of "tok") HOUR 0 None]
    [MkPasswordReset (lit "p1") (lit "u1") (digest_of "forgot") HOUR 0 None] [] [].
Definition world : World Storage := MkWorld db None ∅ 1 10 [] [] None.
Definition ctx : RequestContext := MkRequestContext (lit "req") None None None.
Definition settings : AuthSettings := MkAuthSettings (lit "user") 24 30 48 2 60 [40].
Definition jwt : JwtSettings := MkJwtSettings MINUTE DAY.
Definition password : pystr := lit "correct horse battery".

Lemma db_ok : accounts_ok db.
Proof. apply (bool_decide_unpack _). vm_compute. exact I. Qed.

Lemma fresh : rows_fresh 10 db.
Proof.
  intros k _. split_and!; intros Hin;
    repeat (apply elem_of_cons in Hin as [Hin|Hin]; [discriminate Hin|]);
    by apply elem_of_nil in Hin.
Qed.

Lemma no_sessions : sessions_ok [].
Proof. split; apply NoDup_nil_2. Qed.
Lemma draws : draws_fresh 10 [].
Proof. intros k _. split; apply not_elem_of_nil. Qed.
End AuthDemo.

Section witnesses.
Import AuthDemo.
#[local] Existing Instances folding uuids secrets bcrypt bcrypt_laws codec mail mail_laws.

Definition new_password : pystr := lit "a newer password".
Definition confirm_run := verify_email (lit "tok") ctx world.
Definition reset_run := reset_password (lit "forgot") new_password ctx world.
Definition change_run := change_password jwt (lit "u1") password new_password ctx world.
Definition login_run := login settings jwt (lit "Jo@a.org") password ctx world.
Definition register_run := register settings (lit "new@a.org") password ctx world.
Definition request_run := request_password_reset settings (lit "jo@a.org") ctx world.

Lemma confirmation_works_once_witness :
  is_ok confirm_run.1 = true ∧
  confirmed (lit "tok") world confirm_run.2 ∧
  (verify_email (lit "tok") ctx confirm_run.2).1 = Err BAD_CONFIRMATION.
Proof.
  destruct (confirmation_works_once (lit "tok") ctx world (Ok tt)
    confirm_run.2 db_ok) as [Hc Hagain];
    [apply NoDup_singleton|vm_compute; reflexivity|].
  split; [vm_compute; reflexivity|]. split; [exact Hc|].
  apply (Hagain ctx _ (digest_of "tok")); [vm_compute; reflexivity|apply rtc_refl].
Defined.

Lemma reset_retires_the_old_password_witness :
  is_ok reset_run.1 = true ∧
  old_password_retired (lit "u1") new_password world reset_run.2.
Proof.
  destruct (reset_retires_the_old_password (lit "forgot") new_password ctx world (Ok tt)
    reset_run.2 db_ok)
    as (d & v & m & _ & Hv & _ & _ & Hi & _ & Hret);
    [apply NoDup_singleton|vm_compute; reflexivity|].
  split; [vm_compute; reflexivity|]. apply list_elem_of_singleton in Hv. subst v.
  rewrite Hi in Hret. exact Hret.
Defined.

Lemma change_retires_the_old_password_witness :
  is_ok change_run.1 = true ∧
  old_password_retired (lit "u1") new_password world change_run.2 ∧
  length (refresh_sessions (w_db change_run.2)) = 1%nat.
Proof.
  destruct (change_retires_the_old_password jwt (lit "u1") password new_password ctx
    world change_run.1
    change_run.2
    db_ok no_sessions draws (surjective_pairing _))
    as (u & s & _ & _ & _ & Hret & _).
  split; [vm_compute; reflexivity|]. split; [exact Hret|vm_compute; reflexivity].
Defined.

Lemma sign_in_outcomes_witness :
  is_ok login_run.1 = true ∧
  login_outcome settings jwt (lit "Jo@a.org") password world login_run.1 login_run.2.
Proof.
  split; [vm_compute; reflexivity|].
  apply (sign_in_outcomes settings jwt (lit "Jo@a.org") password ctx world);
    [exact db_ok|exact no_sessions|exact draws|apply surjective_pairing].
Defined.

Lemma registration_outcomes_witness :
  is_ok register_run.1 = true ∧
  registered settings (lit "new@a.org") password world register_run.2 ∧
  length (users (w_db register_run.2)) = 3%nat.
Proof.
  pose proof (registration_outcomes settings (lit "new@a.org") password ctx world
    (Ok tt) register_run.2 fresh) as Hr.
  split; [vm_compute; reflexivity|]. split; [|vm_compute; reflexivity].
  apply Hr. vm_compute. reflexivity.
Defined.

Lemma only_the_newest_link_works_witness :
  request_run.1 = Ok SENT ∧
  reset_link_sent settings (lit "jo@a.org") world
    request_run.2.
Proof.
  pose proof (only_the_newest_link_works settings (lit "jo@a.org") ctx world fresh) as [Hr _].
  split; [vm_compute; reflexivity|].
  assert (request_run = (Ok SENT, request_run.2)) as Heq
    by (vm_compute; reflexivity).
  rewrite -/request_run Heq in Hr. exact Hr.
Defined.

Definition failed_twice : World Storage :=
  (login settings jwt (lit "jo@a.org") (lit "wrong") ctx
    (login settings jwt (lit "jo@a.org") (lit "wrong") ctx world).2).2.

Lemma failures_lock_the_address_witness :
  is_ok login_run.1 = true ∧
  (login settings jwt (lit "jo@a.org") password ctx failed_twice).1 = Err INVALID_CREDENTIALS.
Proof.
  split; [vm_compute; reflexivity|].
  pose proof (failures_lock_the_address settings jwt (lit "jo@a.org") password ctx failed_twice
    (lit "login-failure:" ++ digest_of "jo@a.org")) as Hlock.
  specialize (Hlock ltac:(vm_compute; reflexivity) ltac:(vm_compute; reflexivity)).
  destruct (login settings jwt (lit "jo@a.org") password ctx failed_twice) as [r w'].
  destruct Hlock as [Hlock _]. apply Hlock. vm_compute. discriminate.
Defined.
End witnesses.
