(* ===== verification/Admin.v ===== *)
(** * Administration of accounts and roles

    [application/use_cases/admin/users/] and [admin/roles/], the guards they
    share ([privilege_guard.py]) and the two services they call
    ([user_management_service.py], [role_management_service.py]).  A role's
    response carries every field of the role, so a use case answers the role
    itself.

    The theorems are in [AdminTheorems.v]. *)

From S2P Require Import Prelude PyStr Exceptions ValueObjects Entities Policies Cache Database.
From S2P Require Import LinkRepo UserRepo Sessions Auth.

(** ** [SQLAlchemyPermissionRepository] *)

Definition get_by_names (names : list pystr) (d : Database) : list Permission :=
  match names with
  | [] => []
  | _ => filter (λ p, perm_name p ∈ names) (permissions d)
  end.

Section admin.
Context {C Stats : Type} `{ServiceCache C Stats} `{Bcrypt} `{SecretTokens} `{MailQueue C}
        `{CaseFolding} `{UuidSupply}.
Context (cfg : AuthSettings).
Abbreviation P := (M (World C) exn).

(** ** [privilege_guard.py] *)

Definition load_actor (context : RequestContext) : P (option User) :=
  match current_user context with
  | None => mret None
  | Some c => load (find_user_by_id (cu_id c))
  end.

Definition require_may_grant_roles (context : RequestContext) (roles : list Role) : P unit :=
  actor ← load_actor context;
  lift (require_may_confer actor (conferred_by roles)).

Definition require_may_grant_permissions (context : RequestContext) (names : list pystr) : P unit :=
  actor ← load_actor context;
  lift (require_may_confer actor names).

Definition require_may_act_on_user (context : RequestContext) (uid : pystr) : P unit :=
  actor ← load_actor context;
  target ← load (find_user_by_id uid);
  lift (require_may_act_on actor target).

(** The advisory lock of the administrator set orders concurrent requests;
    within one it does nothing. *)
Definition lock_administrator_set : P unit := read (λ _, tt).

Definition require_administrator_remains (uid : pystr) : P unit :=
  lock_administrator_set;;
  remaining ← read (count_active_with_permission ADMIN_ALL (Some uid) None);
  lift (require_not_last_administrator remaining).

Definition require_administrator_survives_without (role : Role) : P unit :=
  if negb (role_has_permission role ADMIN_ALL) then mret tt
  else
    lock_administrator_set;;
    remaining ← read (count_active_with_permission ADMIN_ALL None (Some (role_id role)));
    lift (require_not_last_administrator remaining).

Definition would_keep_admin (roles : list Role) : bool := mem ADMIN_ALL (conferred_by roles).

Definition is_administrator (uid : pystr) : P bool :=
  user ← load (find_user_by_id uid);
  mret (match user with None => false | Some u => user_has_permission u ADMIN_ALL end).

(** ** [RoleManagementService] *)

Definition refuse_unknown_permissions (requested : list pystr) (found : list Permission)
    : result exn unit :=
  match filter (λ n, n ∉ (perm_name <$> found)) requested with
  | [] => Ok tt
  | missing => Err (PermissionsNotFoundError (sorted (remove_dups missing)))
  end.

Definition resolve_permissions (names : list pystr) : P (list Permission) :=
  permissions ← read (get_by_names names);
  lift (refuse_unknown_permissions names permissions);;
  mret permissions.

(** Names in the caller's order, each role once. *)
Fixpoint resolve_roles (names : list pystr) (seen : list pystr) : P (list Role) :=
  match names with
  | [] => mret []
  | name :: names =>
      role ← read (get_role_by_name name);
      match role with
      | None => raise (RoleNotFoundError name)
      | Some r =>
          if decide (role_id r ∈ seen) then resolve_roles names seen
          else rest ← resolve_roles names (role_id r :: seen); mret (r :: rest)
      end
  end.

Definition service_create_role (name : pystr) (description : option pystr)
    (permission_names : list pystr) : P Role :=
  lift (require_valid_role_name (YStr name));;
  lift (require_valid_role_description (YStr <$> description));;
  existing ← read (get_role_by_name name);
  match existing with
  | Some _ => raise (RoleAlreadyExistsError name)
  | None =>
      permissions ← resolve_permissions permission_names;
      rid ← fresh_uuid;
      update (save_role (MkRole rid name description false permissions))
  end.

Definition service_update_role_permissions (name : pystr) (permission_names : list pystr) : P Role :=
  existing ← read (get_role_by_name name);
  match existing with
  | None => raise (RoleNotFoundError name)
  | Some role =>
      lift (ensure_may_be_changed role);;
      permissions ← resolve_permissions permission_names;
      update (save_role (MkRole (role_id role) (role_name role) (role_description role)
                           (role_is_system role) permissions))
  end.

Definition service_delete_role (name : pystr) : P unit :=
  existing ← read (get_role_by_name name);
  match existing with
  | None => raise (RoleNotFoundError name)
  | Some role =>
      lift (ensure_may_be_changed role);;
      write (delete_role_row (role_id role))
  end.

(** ** [UserManagementService] *)

Definition service_create_user (email password : pystr) (roles : option (list Role))
    (is_active : bool) : P User :=
  email_vo ← lift (new_Email email);
  taken ← load (find_user_by_email email_vo);
  match taken with
  | Some _ => raise EmailAlreadyRegisteredError
  | None =>
      hashed ← hash_password password;
      password_hash_vo ← lift (new_PasswordHash hashed);
      assigned ← match default [] roles with
                 | [] =>
                     role ← read (get_role_by_name (default_role_name cfg));
                     match role with
                     | None => raise (DomainError
                         (lit "Default role '" ++ default_role_name cfg ++ lit "' not found")
                         (lit "CONFIGURATION_ERROR"))
                     | Some r => mret [r]
                     end
                 | rs => mret rs
                 end;
      now ← now_utc;
      uid ← fresh_uuid;
      user ← lift (create_user_entity now uid email_vo password_hash_vo assigned true);
      update (save_user (set_active is_active user))
  end.

Definition service_update_roles (uid : pystr) (roles : list Role) : P User :=
  user ← load (find_user_by_id uid);
  match user with
  | None => raise (UserNotFoundError uid)
  | Some u =>
      match roles with
      | [] => raise (invalid "roles" "An account must keep at least one role")
      | _ =>
          lift (require_roles_are_assignable roles);;
          update (save_user (with_roles roles u))
      end
  end.

Definition service_set_active (b : bool) (uid : pystr) : P User :=
  user ← load (find_user_by_id uid);
  match user with
  | None => raise (UserNotFoundError uid)
  | Some u => update (save_user (set_active b u))
  end.
Definition service_activate_user : pystr → P User := service_set_active true.
Definition service_deactivate_user : pystr → P User := service_set_active false.

(** ** The use cases on roles *)

Definition create_role (name : pystr) (description : option pystr)
    (permission_names : list pystr) (context : RequestContext) : P Role :=
  role ← with_uow (
    resolve_permissions permission_names;;
    require_may_grant_permissions context permission_names;;
    role ← service_create_role name description permission_names;
    commit;;
    mret role);
  audit (RoleCreated (role_name role) (perm_name <$> role_permissions role));;
  mret role.

Definition update_role_permissions (name : pystr) (permission_names : list pystr)
    (context : RequestContext) : P Role :=
  done ← with_uow (
    resolve_permissions permission_names;;
    require_may_grant_permissions context permission_names;;
    existing ← read (get_role_by_name name);
    holders ← match existing with
              | None => mret 0%nat
              | Some r => read (count_with_role (role_id r))
              end;
    match existing with
    | Some r =>
        if negb (role_is_system r) && negb (mem ADMIN_ALL permission_names)
        then require_administrator_survives_without r else mret tt
    | None => mret tt
    end;;
    role ← service_update_role_permissions name permission_names;
    commit;;
    mret (match existing with Some r => perm_name <$> role_permissions r | None => [] end,
          role, holders));
  let '(before, role, holders) := done in
  let after := perm_name <$> role_permissions role in
  (if decide (sorted before = sorted after) then mret tt
   else audit (RolePermissionsChanged (role_name role) before after holders));;
  mret role.

(** Accounts the deletion left bare are put back on the default role; one
    that cannot be is passed over. *)
Fixpoint put_back_on (fallback : Role) (wearers : list pystr) : P (list pystr) :=
  match wearers with
  | [] => mret []
  | uid :: wearers =>
      account ← load (find_user_by_id uid);
      match account with
      | None => put_back_on fallback wearers
      | Some a =>
          match user_roles a with
          | _ :: _ => put_back_on fallback wearers
          | [] =>
              ok ← try_except (service_update_roles uid [fallback];; mret true)
                     (λ e, if is_domain_error e then mret false else raise e);
              rest ← put_back_on fallback wearers;
              mret (if (ok : bool) then uid :: rest else rest)
          end
      end
  end.

Definition put_the_bare_ones_back (wearers : list pystr) : P (list pystr) :=
  match wearers with
  | [] => mret []
  | _ =>
      fallback ← read (get_role_by_name (default_role_name cfg));
      match fallback with
      | None => mret []
      | Some r => put_back_on r wearers
      end
  end.

Definition delete_role (name : pystr) (context : RequestContext) : P unit :=
  done ← with_uow (
    doomed ← read (get_role_by_name name);
    match doomed with
    | Some r => if negb (role_is_system r) then require_administrator_survives_without r else mret tt
    | None => mret tt
    end;;
    wearers ← match doomed with
              | Some r => read (wearers_of (role_id r))
              | None => mret []
              end;
    service_delete_role name;;
    put_back ← put_the_bare_ones_back wearers;
    commit;;
    mret (length wearers, put_back));
  let '(holders, put_back) := done in
  audit (RoleDeleted name holders);;
  for_each (λ uid, audit (RolesChanged uid [name] [default_role_name cfg])) put_back.

(** ** The use cases on accounts *)

Definition create_user (email password : pystr) (context : RequestContext)
    (role_names : option (list pystr)) (is_active : bool) : P UserResponse :=
  new_user ← with_uow (
    roles ← match role_names with
            | Some ((_ :: _) as names) =>
                roles ← resolve_roles names [];
                lift (require_roles_are_assignable roles);;
                require_may_grant_roles context roles;;
                mret (Some roles)
            | _ => mret None
            end;
    new_user ← service_create_user email password roles is_active;
    commit;;
    mret new_user);
  audit (UserCreated (user_id new_user) email (role_name <$> user_roles new_user));;
  mret (from_user new_user).

Definition update_user_roles (uid : pystr) (role_names : list pystr) (context : RequestContext)
    : P UserResponse :=
  done ← with_uow (
    roles ← resolve_roles role_names [];
    lift (require_roles_are_assignable roles);;
    require_may_grant_roles context roles;;
    require_may_act_on_user context uid;;
    admin ← is_administrator uid;
    (if admin && negb (would_keep_admin roles) then require_administrator_remains uid else mret tt);;
    existing ← load (find_user_by_id uid);
    updated_user ← service_update_roles uid roles;
    commit;;
    mret (match existing with Some u => role_name <$> user_roles u | None => [] end, updated_user));
  let '(before, updated_user) := done in
  let after := role_name <$> user_roles updated_user in
  (if decide (sorted before = sorted after) then mret tt
   else audit (RolesChanged uid before after));;
  mret (from_user updated_user).

Definition activate_user (uid : pystr) (context : RequestContext) : P UserResponse :=
  updated_user ← with_uow (
    require_may_act_on_user context uid;;
    updated_user ← service_activate_user uid;
    commit;;
    mret updated_user);
  audit (UserActivated uid);;
  mret (from_user updated_user).

Definition deactivate_user (uid : pystr) (context : RequestContext) : P UserResponse :=
  now ← now_utc;
  done ← with_uow (
    require_may_act_on_user context uid;;
    admin ← is_administrator uid;
    (if (admin : bool) then require_administrator_remains uid else mret tt);;
    updated_user ← service_deactivate_user uid;
    revoked ← update (on_sessions (revoke_all_for_user now uid));
    commit;;
    mret (updated_user, revoked));
  audit (UserDeactivated uid done.2);;
  mret (from_user done.1).

(** The same [try] as [Links.drop_cached]'s. *)
Definition drop_cached_links (links : list Link) : P unit :=
  match links with
  | [] => mret tt
  | _ =>
      try_except
        (for_each (λ l, on_cache (cache_delete l);; on_cache (delete_redirect (link_short_code l)))
           links;;
         on_cache delete_stats)
        (λ _, mret tt)
  end.

Definition delete_account (uid : pystr) (context : RequestContext) : P bool :=
  deleted ← with_uow (
    require_may_act_on_user context uid;;
    admin ← is_administrator uid;
    (if (admin : bool) then require_administrator_remains uid else mret tt);;
    deleted_links ← update (λ d, sweep (delete_by_owner uid (urls d)) d);
    deleted ← update (λ d, Ok (delete_user uid d));
    if negb deleted then mret None
    else commit;; mret (Some deleted_links));
  match deleted with
  | None => mret false
  | Some deleted_links =>
      drop_cached_links deleted_links;;
      for_each (λ l, audit (UrlDeleted (sc_value (link_short_code l))
                              (ou_value (link_original_url l)))) deleted_links;;
      audit (UserDeleted uid (length deleted_links));;
      mret true
  end.

Definition confirm_user_email (uid : pystr) (context : RequestContext) : P UserResponse :=
  now ← now_utc;
  done ← with_uow (
    require_may_act_on_user context uid;;
    user ← load (find_user_by_id uid);
    match user with
    | None => raise (UserNotFoundError uid)
    | Some u =>
        let already := user_email_verified u in
        let u' := if already then u else confirm_email u in
        (if already then mret tt else update (save_user u');; mret tt);;
        update (invalidate_verifications now uid);;
        commit;;
        mret (u', already)
    end);
  audit (UserEmailConfirmed uid done.2);;
  mret (from_user done.1).

Definition resend_user_verification (uid : pystr) (context : RequestContext)
    : P (pystr * mail_outcome) :=
  address ← with_uow (
    require_may_act_on_user context uid;;
    user ← load (find_user_by_id uid);
    match user with
    | None => raise (UserNotFoundError uid)
    | Some u => mret (em_value (user_email u))
    end);
  outcome ← resend_verification cfg address context;
  mret (address, outcome).
End admin.
