(* ===== verification/AdminTheorems.v ===== *)
(** * What administration guarantees

    Every administrative use case, whatever it is asked and however it ends,
    keeps the constraints of the account tables and never takes the last
    administrator away; who grants or touches an account does so within the
    privileges they hold.  The histories are sequences of whole requests:
    the source orders concurrent ones by an advisory lock. *)

From S2P Require Import Prelude PyStr Exceptions ValueObjects Entities Policies Cache Database.
From S2P Require Import LinkRepo UserRepo Sessions Auth AuthTheorems Admin.

(** ** Administrators *)

(** An active account with a role that confers [admin:all]. *)
Definition administrator (d : Database) (m : UserModel) : Prop :=
  m ∈ users d ∧ um_is_active m = true ∧
  ∃ r, r ∈ roles d ∧ role_id r ∈ um_roles m ∧ role_has_permission r ADMIN_ALL = true.

Definition has_administrator (d : Database) : Prop := ∃ m, administrator d m.

(** The count the guards ask for. *)
Lemma count_active_pos d (xu xr : option pystr) :
  0 < count_active_with_permission ADMIN_ALL xu xr d ↔
  ∃ m, m ∈ users d ∧ um_is_active m = true ∧ Some (um_id m) ≠ xu ∧
    ∃ r, r ∈ roles d ∧ role_id r ∈ um_roles m ∧ role_has_permission r ADMIN_ALL = true ∧
         Some (role_id r) ≠ xr.
Proof.
  rewrite /count_active_with_permission. set (Q := λ m, _).
  assert (Q_iff : ∀ m, Q m ↔ um_is_active m = true ∧ Some (um_id m) ≠ xu ∧
    ∃ r, r ∈ roles d ∧ role_id r ∈ um_roles m ∧ role_has_permission r ADMIN_ALL = true ∧
         Some (role_id r) ≠ xr).
  { intros m. rewrite /Q /row_has_permission Exists_elem. naive_solver. }
  split.
  - intros Hpos. destruct (filter Q (users d)) as [|m l] eqn:E;
      [by rewrite /count_where E in Hpos|].
    assert (m ∈ filter Q (users d)) as [Hm Hin]%list_elem_of_filter by (rewrite E; set_solver).
    apply Q_iff in Hm. naive_solver.
  - intros (m & Hm & Hrest). assert (m ∈ filter Q (users d)) as Hin
      by (apply list_elem_of_filter; split; [by apply Q_iff|done]).
    rewrite /count_where. destruct (filter Q (users d)); [by apply elem_of_nil in Hin|simpl; lia].
Qed.

Lemma require_not_last_ok n : require_not_last_administrator n = Ok tt ↔ 0 < n.
Proof. rewrite /require_not_last_administrator. destruct (n <=? 0) eqn:E; [split; [done|lia]|split; [lia|done]]. Qed.

(** ** What the statements do to the account tables *)

(** [save] of a user: its row replaced or added. *)
Lemma save_user_inv u d u' d' :
  save_user u d = Ok (u', d') →
  u' = u ∧ (∀ r, r ∈ user_roles u → role_id r ∈ (role_id <$> roles d)) ∧
  (∀ m, m ∈ users d → um_email m = em_value (user_email u) → um_id m = user_id u) ∧
  d' = set_users (if decide (user_id u ∈ (um_id <$> users d))
                  then update_where (λ m, um_id m = user_id u) (λ _, user_row u) (users d)
                  else users d ++ [user_row u]) d.
Proof.
  rewrite /save_user. destruct (missing_role _ _) as [r|] eqn:Hm; [done|].
  case_decide as Hc; [done|]. intros [= <- <-]. split; [done|]. split; [|split; [|done]].
  - intros r Hr. destruct (decide (role_id r ∈ (role_id <$> roles d))) as [|Hn]; [done|].
    by destruct (proj1 (first_filter_None _ _) Hm r Hr).
  - intros m Hin He. destruct (decide (um_id m = user_id u)) as [|Hne]; [done|].
    exfalso. apply Hc, Exists_elem. by exists m.
Qed.

Lemma save_user_ok u d u' d' : accounts_ok d → save_user u d = Ok (u', d') → accounts_ok d'.
Proof.
  intros [[Hi He] Hri Hrn Hw] (-> & Hroles & Hmail & ->)%save_user_inv.
  constructor; [|done|done|]; simpl.
  - case_decide as Hin.
    + split; [by rewrite update_row_ids|].
      apply NoDup_alt. intros i j e. rewrite /update_where !list_lookup_fmap.
      destruct (users d !! i) as [a|] eqn:Ha; [|done].
      destruct (users d !! j) as [b|] eqn:Hb; [|done]. simpl. intros [= <-] [= Heq].
      assert (um_id a = um_id b → i = j) as Hids.
      { intros Hab. eapply (NoDup_lookup (um_id <$> users d)); [done|..];
          rewrite list_lookup_fmap ?Ha ?Hb //=. by rewrite Hab. }
      assert (um_email a = um_email b → i = j) as Hmails.
      { intros Hab. eapply (NoDup_lookup (um_email <$> users d)); [done|..];
          rewrite list_lookup_fmap ?Ha ?Hb //=. by rewrite Hab. }
      apply list_elem_of_lookup_2 in Ha, Hb.
      repeat case_decide; simpl in Heq; [apply Hids; congruence|..|by apply Hmails].
      * apply Hids. rewrite (Hmail a Ha); congruence.
      * apply Hids. rewrite (Hmail b Hb); congruence.
    + split; rewrite fmap_app list.NoDup_app; (split; [done|split; [|apply NoDup_singleton]]).
      * intros i Hx Heq%list_elem_of_singleton. by subst.
      * intros e (m & -> & Hm)%list_elem_of_fmap Heq%list_elem_of_singleton.
        apply Hin. rewrite -(Hmail m Hm Heq). by apply list_elem_of_fmap_2.
  - assert (∀ i, i ∈ um_roles (user_row u) → i ∈ (role_id <$> roles d)) as Hnew.
    { intros i (r & -> & Hr)%list_elem_of_fmap. by apply Hroles. }
    case_decide.
    + intros m i (x & Hx & ->)%elem_of_update_where. case_decide; [apply Hnew|by apply Hw].
    + intros m i [Hm|Hm]%elem_of_app; [by apply Hw|].
      apply list_elem_of_singleton in Hm as ->. apply Hnew.
Qed.

(** Another account stays the administrator it is. *)
Lemma save_user_others u d u' d' m :
  save_user u d = Ok (u', d') → um_id m ≠ user_id u → administrator d m → administrator d' m.
Proof.
  intros (-> & _ & _ & ->)%save_user_inv Hne (Hm & Ha & Hr). split; [|done]. simpl.
  case_decide; [|set_solver]. apply elem_of_update_where. exists m. by rewrite decide_False.
Qed.

(** So does the account itself if it stays active and keeps such a role. *)
Lemma save_user_itself u d u' d' :
  save_user u d = Ok (u', d') → user_is_active u = true →
  (∃ r, r ∈ user_roles u ∧ r ∈ roles d ∧ role_has_permission r ADMIN_ALL = true) →
  administrator d' (user_row u).
Proof.
  intros (-> & _ & _ & ->)%save_user_inv Ha (r & Hr & Hin & Hp). split_and!; [|done|].
  - simpl. case_decide as Hi; [|set_solver]. apply list_elem_of_fmap in Hi as (m & Hm & Hin').
    apply elem_of_update_where. exists m. by rewrite decide_True.
  - exists r. split; [done|]. split; [by apply list_elem_of_fmap_2|done].
Qed.

(** [save] of a role: its row replaced or added. *)
Lemma save_role_inv r d s d' :
  save_role r d = Ok (s, d') →
  s = stored_role r d ∧
  (∀ x, x ∈ roles d → role_name x = role_name r → role_id x = role_id r) ∧
  d' = set_roles (if decide (role_id r ∈ (role_id <$> roles d))
                  then update_where (λ x, role_id x = role_id r) (λ _, stored_role r d) (roles d)
                  else roles d ++ [stored_role r d]) d.
Proof.
  rewrite /save_role. case_decide as Hc; [done|]. intros [= <- <-]. split; [done|]. split; [|done].
  intros x Hx Hn. destruct (decide (role_id x = role_id r)) as [|Hne]; [done|].
  exfalso. apply Hc, Exists_elem. by exists x.
Qed.

Lemma save_role_ok r d s d' : accounts_ok d → save_role r d = Ok (s, d') → accounts_ok d'.
Proof.
  intros [Hu Hi Hn Hw] (-> & Hname & ->)%save_role_inv.
  constructor; simpl; [done|..].
  - case_decide as Hin.
    + assert (role_id <$> update_where (λ x, role_id x = role_id r) (λ _, stored_role r d) (roles d)
        = role_id <$> roles d) as ->; [|done].
      rewrite /update_where -list_fmap_compose. apply list_fmap_ext. intros ? x _. simpl.
      by case_decide.
    + rewrite fmap_app list.NoDup_app. split; [done|]. split; [|apply NoDup_singleton].
      intros i Hx Heq%list_elem_of_singleton. by subst.
  - case_decide as Hin.
    + apply NoDup_alt. intros i j e. rewrite /update_where !list_lookup_fmap.
      destruct (roles d !! i) as [a|] eqn:Ha; [|done].
      destruct (roles d !! j) as [b|] eqn:Hb; [|done]. simpl. intros [= <-] [= Heq].
      assert (role_id a = role_id b → i = j) as Hids.
      { intros Hab. eapply (NoDup_lookup (role_id <$> roles d)); [done|..];
          rewrite list_lookup_fmap ?Ha ?Hb //=. by rewrite Hab. }
      assert (role_name a = role_name b → i = j) as Hnames.
      { intros Hab. eapply (NoDup_lookup (role_name <$> roles d)); [done|..];
          rewrite list_lookup_fmap ?Ha ?Hb //=. by rewrite Hab. }
      apply list_elem_of_lookup_2 in Ha, Hb.
      repeat case_decide; simpl in Heq; [apply Hids; congruence|..|by apply Hnames].
      * apply Hids. rewrite (Hname a Ha); congruence.
      * apply Hids. rewrite (Hname b Hb); congruence.
    + rewrite fmap_app list.NoDup_app. split; [done|]. split; [|apply NoDup_singleton].
      intros e (x & -> & Hx)%list_elem_of_fmap Heq%list_elem_of_singleton.
      apply Hin. rewrite -(Hname x Hx Heq). by apply list_elem_of_fmap_2.
  - intros m i Hm Hmi. specialize (Hw m i Hm Hmi). apply list_elem_of_fmap in Hw as (x & -> & Hx).
    case_decide as Hin; [|rewrite fmap_app elem_of_app; left; by apply list_elem_of_fmap_2].
    apply list_elem_of_fmap. exists (if decide (role_id x = role_id r) then stored_role r d else x).
    split; [by case_decide|]. apply elem_of_update_where. by exists x.
Qed.

(** An administrator through a role that keeps, or never was, the saved one. *)
Lemma save_role_administrator r d s d' m x :
  save_role r d = Ok (s, d') → m ∈ users d → um_is_active m = true →
  x ∈ roles d → role_id x ∈ um_roles m → role_has_permission x ADMIN_ALL = true →
  role_id x ≠ role_id r ∨ role_has_permission (stored_role r d) ADMIN_ALL = true →
  administrator d' m.
Proof.
  intros (-> & _ & ->)%save_role_inv Hm Ha Hx Hworn Hp Hcase. split; [done|]. split; [done|].
  simpl. case_decide as Hin; [|exists x; set_solver].
  exists (if decide (role_id x = role_id r) then stored_role r d else x).
  split; [apply elem_of_update_where; by exists x|]. case_decide as He; [|done].
  destruct Hcase as [?|Hs]; [done|]. simpl. by rewrite -He.
Qed.

(** Deleting a role takes it off its wearers. *)
Lemma delete_role_row_ok i d : accounts_ok d → accounts_ok (delete_role_row i d).
Proof.
  intros [[Hi He] Hri Hrn Hw]. rewrite /delete_role_row. case_decide; [|done].
  constructor; simpl; [|by apply NoDup_delete_where..|].
  - split; rewrite -list_fmap_compose; done.
  - intros m j (x & -> & Hx)%list_elem_of_fmap [Hj Hin]%list_elem_of_filter.
    specialize (Hw x j Hx Hin). apply list_elem_of_fmap in Hw as (r & -> & Hr).
    apply list_elem_of_fmap_2, elem_of_delete_where. by split.
Qed.

Lemma delete_role_row_administrator i d m x :
  m ∈ users d → um_is_active m = true → x ∈ roles d → role_id x ∈ um_roles m →
  role_has_permission x ADMIN_ALL = true → role_id x ≠ i →
  ∃ m', administrator (delete_role_row i d) m' ∧ um_id m' = um_id m.
Proof.
  intros Hm Ha Hx Hworn Hp Hne. rewrite /delete_role_row. case_decide; [|exists m; split; [|done]].
  - exists (without_role i m). split; [|done]. split_and!; [by apply list_elem_of_fmap_2|done|].
    exists x. split_and!; [by apply elem_of_delete_where|by apply list_elem_of_filter|done].
  - split_and!; [done|done|by exists x].
Qed.

(** Deleting an account. *)
Lemma accounts_ok_sublist d d' :
  users d' `sublist_of` users d → roles d' = roles d → accounts_ok d → accounts_ok d'.
Proof.
  intros Hs Hr [[Hi He] Hri Hrn Hw]. constructor; rewrite ?Hr; [|done|done|].
  - split; eapply sublist_NoDup; [exact Hi| |exact He|]; by apply fmap_sublist_of.
  - intros m i Hm. apply Hw. by eapply elem_of_sublist.
Qed.

Lemma delete_user_ok i d : accounts_ok d → accounts_ok (delete_user i d).2.
Proof.
  intros Hok. rewrite /delete_user. case_decide; [|done]. simpl.
  apply (accounts_ok_sublist d); [|done..]. apply delete_where_sublist.
Qed.

Lemma delete_user_others i d m :
  um_id m ≠ i → administrator d m → administrator (delete_user i d).2 m.
Proof.
  intros Hne (Hm & Ha & Hr). rewrite /delete_user. case_decide; [|by split_and!].
  split_and!; [|done|done]. simpl. by apply elem_of_delete_where.
Qed.

(** ** Reading changes nothing *)

Class ReadOnly {S E A} (p : M S E A) : Prop := read_only : ∀ s, (p s).2 = s.

#[global] Instance ReadOnly_ret {S E A} (a : A) : ReadOnly (S:=S) (E:=E) (mret a).
Proof. done. Qed.
#[global] Instance ReadOnly_raise {S E A} (e : E) : ReadOnly (S:=S) (A:=A) (raise e).
Proof. done. Qed.
#[global] Instance ReadOnly_lift {S E A} (r : result E A) : ReadOnly (S:=S) (lift r).
Proof. done. Qed.
#[global] Instance ReadOnly_bind {S E A B} (p : M S E A) (k : A → M S E B) :
  ReadOnly p → (∀ a, ReadOnly (k a)) → ReadOnly (p ≫= k).
Proof.
  intros Hp Hk s. specialize (Hp s). rewrite /mbind /M_bind.
  destruct (p s) as [[a|e] s']; simpl in *; subst; [apply Hk|done].
Qed.
#[global] Instance ReadOnly_read {C A} (f : Database → A) : ReadOnly (read (C:=C) f).
Proof. intros w. rewrite /read. by case_match. Qed.
#[global] Instance ReadOnly_if {S E A} (b : bool) (p q : M S E A) :
  ReadOnly p → ReadOnly q → ReadOnly (if b then p else q).
Proof. by destruct b. Qed.
#[global] Instance ReadOnly_load {C} f : ReadOnly (load (C:=C) f).
Proof. unfold load. apply _. Qed.

Lemma wp_read_only {S E A} (p : M S E A) `{!ReadOnly p} (Q : result E A → S → Prop) s :
  (∀ r, p s = (r, s) → Q r s) → wp p Q s.
Proof.
  intros HQ. rewrite /wp. pose proof (read_only (p:=p) s) as Hs.
  destruct (p s) as [r s'] eqn:Hp. simpl in *. subst. by apply HQ.
Qed.

Section guards.
Context {C : Type} `{CaseFolding}.
Implicit Types (w : World C) (d : Database).

#[global] Instance ReadOnly_load_actor ctx : ReadOnly (load_actor (C:=C) ctx).
Proof. unfold load_actor. case_match; apply _. Qed.
#[global] Instance ReadOnly_act_on ctx i : ReadOnly (require_may_act_on_user (C:=C) ctx i).
Proof. unfold require_may_act_on_user. apply _. Qed.
#[global] Instance ReadOnly_grant_roles ctx rs : ReadOnly (require_may_grant_roles (C:=C) ctx rs).
Proof. unfold require_may_grant_roles. apply _. Qed.
#[global] Instance ReadOnly_grant_permissions ctx ns :
  ReadOnly (require_may_grant_permissions (C:=C) ctx ns).
Proof. unfold require_may_grant_permissions. apply _. Qed.
#[global] Instance ReadOnly_remains i : ReadOnly (require_administrator_remains (C:=C) i).
Proof. unfold require_administrator_remains, lock_administrator_set. apply _. Qed.
#[global] Instance ReadOnly_survives r : ReadOnly (require_administrator_survives_without (C:=C) r).
Proof. unfold require_administrator_survives_without, lock_administrator_set. apply _. Qed.
#[global] Instance ReadOnly_is_admin i : ReadOnly (is_administrator (C:=C) i).
Proof. unfold is_administrator. apply _. Qed.
#[global] Instance ReadOnly_resolve_permissions ns : ReadOnly (resolve_permissions (C:=C) ns).
Proof. unfold resolve_permissions. apply _. Qed.
#[global] Instance ReadOnly_resolve_roles ns seen : ReadOnly (resolve_roles (C:=C) ns seen).
Proof.
  revert seen. induction ns as [|n ns IH]; intros seen; simpl; [apply _|].
  apply ReadOnly_bind; [apply _|]. intros [r|]; [|apply _]. case_decide; apply _.
Qed.

(** The working copy of the open unit of work, nothing committed yet. *)
Definition in_tx d w : Prop := w_txn w = Some (MkTxn d false).

Lemma read_in_tx {A} (f : Database → A) d w : in_tx d w → read f w = (Ok (f d), w).
Proof. rewrite /in_tx /read. by intros ->. Qed.
Lemma load_in_tx f d w : in_tx d w → load f w = (f d, w).
Proof. intros Ht. rewrite /load /mbind /M_bind (read_in_tx f d w Ht). done. Qed.

Lemma wp_load f d w (Q : result exn (option User) → World C → Prop) :
  in_tx d w → Q (f d) w → wp (load f) Q w.
Proof. intros Ht HQ. by rewrite /wp (load_in_tx f d w Ht). Qed.

(** Who asks, as the guards load them. *)
Definition actor_of (ctx : RequestContext) d : result exn (option User) :=
  match current_user ctx with None => Ok None | Some c => find_user_by_id (cu_id c) d end.

Lemma load_actor_in_tx ctx d w : in_tx d w → load_actor ctx w = (actor_of ctx d, w).
Proof. intros Ht. rewrite /load_actor /actor_of. case_match; [by apply load_in_tx|done]. Qed.

(** The gate before a page for those who hold a permission, run on its own
    unit of work: it changes nothing, and says who was let through. *)
Definition gate_answer ctx required (d : Database) : result exn unit :=
  match actor_of ctx d with
  | Err e => Err e
  | Ok None => Err (DomainError (lit "Authentication required") (lit "UNAUTHENTICATED"))
  | Ok (Some u) => if is_allowed d (Some u) required then Ok tt
                   else Err (PermissionDeniedError [required] [])
  end.

Lemma permission_gate ctx required w : required ∉ ANONYMOUS_PERMISSION_CEILING →
  (requester ← with_uow (load_actor ctx);
   d ← gets w_db;
   if is_allowed d requester required then mret tt
   else match requester with
        | None => raise (DomainError (lit "Authentication required") (lit "UNAUTHENTICATED"))
        | Some _ => raise (PermissionDeniedError [required] [])
        end) w = (gate_answer ctx required (w_db w), w).
Proof.
  intros Hc. rewrite /gate_answer /mbind /M_bind /with_uow /gets (load_actor_in_tx ctx (w_db w)) //.
  assert (set_txn (w_txn w) (set_txn (Some (MkTxn (w_db w) false)) w) = w) as -> by (by destruct w).
  destruct (actor_of ctx (w_db w)) as [[u|]|e]; [by case_match| |done].
  rewrite /is_allowed /anonymous_is_allowed. by rewrite /mem bool_decide_eq_false_2.
Qed.

Lemma act_on_ok ctx i d w :
  in_tx d w → require_may_act_on_user ctx i w = (Ok tt, w) →
  ∃ actor target, actor_of ctx d = Ok actor ∧ find_user_by_id i d = Ok target ∧
    require_may_act_on actor target = Ok tt.
Proof.
  intros Ht (a & w1 & Ha & (t & w2 & Hl & Hr)%bind_ok_inv)%bind_ok_inv.
  rewrite (load_actor_in_tx ctx d w Ht) in Ha. injection Ha as Ha <-.
  rewrite (load_in_tx _ d w Ht) in Hl. injection Hl as Hl <-.
  exists a, t. by injection Hr.
Qed.

Lemma grant_permissions_ok ctx ns d w :
  in_tx d w → require_may_grant_permissions ctx ns w = (Ok tt, w) →
  ∃ actor, actor_of ctx d = Ok actor ∧ require_may_confer actor ns = Ok tt.
Proof.
  intros Ht (a & w1 & Ha & Hr)%bind_ok_inv.
  rewrite (load_actor_in_tx ctx d w Ht) in Ha. injection Ha as Ha <-.
  exists a. by injection Hr.
Qed.

Lemma remains_ok i d w :
  in_tx d w → require_administrator_remains i w = (Ok tt, w) →
  ∃ m, administrator d m ∧ um_id m ≠ i.
Proof.
  intros Ht ([] & w1 & Hlk & (n & w2 & Hl & Hr)%bind_ok_inv)%bind_ok_inv.
  rewrite /lock_administrator_set (read_in_tx _ d w Ht) in Hlk. injection Hlk as <-.
  rewrite (read_in_tx _ d w Ht) in Hl. injection Hl as <- <-. injection Hr as Hr.
  apply require_not_last_ok, count_active_pos in Hr as (m & Hm & Ha & Hne & r & Hr & Hw & Hp & _).
  exists m. split; [|congruence]. split_and!; [done|done|by exists r].
Qed.

Lemma survives_ok r d w :
  in_tx d w → require_administrator_survives_without r w = (Ok tt, w) →
  role_has_permission r ADMIN_ALL = false ∨
  ∃ m x, m ∈ users d ∧ um_is_active m = true ∧ x ∈ roles d ∧ role_id x ∈ um_roles m ∧
    role_has_permission x ADMIN_ALL = true ∧ role_id x ≠ role_id r.
Proof.
  intros Ht. rewrite /require_administrator_survives_without.
  destruct (role_has_permission r ADMIN_ALL); [|by left]. cbn [negb].
  intros ([] & w1 & Hlk & (n & w2 & Hl & Hr)%bind_ok_inv)%bind_ok_inv. right.
  rewrite /lock_administrator_set (read_in_tx _ d w Ht) in Hlk. injection Hlk as <-.
  rewrite (read_in_tx _ d w Ht) in Hl. injection Hl as <- <-. injection Hr as Hr.
  apply require_not_last_ok, count_active_pos in Hr as (m & Hm & Ha & _ & x & Hx & Hw & Hp & Hne).
  exists m, x. split_and!; try done. congruence.
Qed.

Lemma is_administrator_ok i d w b :
  in_tx d w → is_administrator i w = (Ok b, w) →
  ∃ o, find_user_by_id i d = Ok o ∧
    b = match o with None => false | Some u => user_has_permission u ADMIN_ALL end.
Proof.
  intros Ht (o & w1 & Hl & Hr)%bind_ok_inv.
  rewrite (load_in_tx _ d w Ht) in Hl. injection Hl as Hl <-. exists o.
  split; [done|]. by injection Hr.
Qed.

(** An account that is no administrator is not the one that remains. *)
Lemma not_administrator_other i d o m :
  accounts_ok d → find_user_by_id i d = Ok o →
  match o with None => false | Some u => user_has_permission u ADMIN_ALL end = false →
  administrator d m → um_id m ≠ i.
Proof.
  intros Hok Hf Hn (Hm & Ha & r & Hr & Hw & Hp) Hi. destruct o as [u|].
  - destruct (find_user_by_id_row d i u Hok Hf) as (Hid & Hin & Hroles).
    assert (m = user_row u) as ->
      by (apply (user_row_unique (users d)); [apply Hok|done|done|by rewrite Hi -Hid]).
    assert (user_has_permission u ADMIN_ALL = true); [|congruence].
    apply user_has_permission_spec. simpl. apply elem_of_conferred_by. exists r.
    split; [|done]. rewrite Hroles. by apply elem_of_roles_of.
  - apply load_user_None in Hf. by apply (proj1 (first_filter_None _ _) Hf m).
Qed.
End guards.

(** ** The invariant *)

Section invariant.
Context `{UuidSupply}.

(** No value drawn from the [n]th on names an account or a role. *)
Definition fresh_from (n : nat) (d : Database) : Prop :=
  ∀ k, (n <= k)%nat → uuid4 k ∉ (um_id <$> users d) ∧ uuid4 k ∉ (role_id <$> roles d).

Record AccountInv (n : nat) (d : Database) : Prop := MkAccountInv {
  ai_ok : accounts_ok d;
  ai_fresh : fresh_from n d;
  ai_admin : has_administrator d;
}.

Lemma AccountInv_later n n' d : (n <= n')%nat → AccountInv n d → AccountInv n' d.
Proof. intros Hle [H1 H2 H3]. constructor; [done| |done]. intros k Hk. apply H2. lia. Qed.

(** The other tables do not matter. *)
Lemma AccountInv_ext n d d' :
  users d' = users d → roles d' = roles d → AccountInv n d → AccountInv n d'.
Proof.
  intros Hu Hr [H1 H2 (m & H3)]. constructor.
  - by apply (accounts_ok_ext d).
  - intros k. rewrite Hu Hr. apply H2.
  - exists m. by rewrite /administrator Hu Hr.
Qed.

Lemma AccountInv_save_user n n' u d u' d' :
  AccountInv n d → save_user u d = Ok (u', d') → (n <= n')%nat →
  (∀ k, (n' <= k)%nat → uuid4 k ≠ user_id u) → has_administrator d' → AccountInv n' d'.
Proof.
  intros [Hok Hf _] Hs Hle Hid Ha. constructor; [by eapply save_user_ok| |done].
  apply save_user_inv in Hs as (-> & _ & _ & ->). intros k Hk. destruct (Hf k) as [Hu Hr]; [lia|].
  split; [|done]. simpl. case_decide.
  - by rewrite update_row_ids.
  - rewrite fmap_app elem_of_app list_elem_of_singleton. intros [?|Heq]; [done|]. by apply (Hid k).
Qed.

(** A stored account's id is none of the values still to be drawn. *)
Lemma stored_id_drawn `{CaseFolding} n d i u k :
  AccountInv n d → find_user_by_id i d = Ok (Some u) → (n <= k)%nat → uuid4 k ≠ user_id u.
Proof.
  intros [Hok Hf _] Hu Hk Heq. destruct (find_user_by_id_row d i u Hok Hu) as (_ & Hin & _).
  apply (proj1 (Hf k Hk)). rewrite Heq. by apply (list_elem_of_fmap_2 um_id _ (user_row u)).
Qed.

(** Saving a stored account that is not the administrator who remains. *)
Lemma AccountInv_save_other `{CaseFolding} n d i u v v' d' m :
  AccountInv n d → find_user_by_id i d = Ok (Some u) → user_id v = user_id u →
  administrator d m → um_id m ≠ i → save_user v d = Ok (v', d') → AccountInv n d'.
Proof.
  intros Hinv Hu Hv Hm Hne Hs.
  destruct (find_user_by_id_row d i u (ai_ok _ _ Hinv) Hu) as (Hid & _ & _).
  eapply AccountInv_save_user; [done|done|lia|rewrite Hv; intros; by eapply stored_id_drawn|].
  exists m. eapply save_user_others; [done|congruence|done].
Qed.

(** Saving a stored account that keeps its activity and its roles. *)
Lemma AccountInv_save_same `{CaseFolding} n d i u v v' d' :
  AccountInv n d → find_user_by_id i d = Ok (Some u) → user_id v = user_id u →
  (user_is_active u = true → user_is_active v = true) → user_roles v = user_roles u →
  save_user v d = Ok (v', d') → AccountInv n d'.
Proof.
  intros Hinv Hu Hv Hact Hroles Hs. pose proof (ai_ok _ _ Hinv) as Hok.
  destruct (ai_admin _ _ Hinv) as [m Hm].
  destruct (find_user_by_id_row d i u Hok Hu) as (Hid & Hin & Hr).
  destruct (decide (um_id m = i)) as [He|Hne]; [|by eapply AccountInv_save_other].
  eapply AccountInv_save_user; [done|done|lia|rewrite Hv; intros; by eapply stored_id_drawn|].
  destruct Hm as (Hmin & Ha & r & Hrin & Hw & Hp).
  assert (m = user_row u) as -> by (apply (user_row_unique (users d)); [apply Hok|done|done|by rewrite He -Hid]).
  exists (user_row v). eapply save_user_itself; [done|by apply Hact|].
  exists r. split_and!; [|done|done]. rewrite Hroles Hr. by apply elem_of_roles_of.
Qed.

Lemma AccountInv_save_role n n' r d s d' :
  AccountInv n d → save_role r d = Ok (s, d') → (n <= n')%nat →
  (∀ k, (n' <= k)%nat → uuid4 k ≠ role_id r) → has_administrator d' → AccountInv n' d'.
Proof.
  intros [Hok Hf _] Hs Hle Hid Ha. constructor; [by eapply save_role_ok| |done].
  apply save_role_inv in Hs as (-> & _ & ->). intros k Hk. destruct (Hf k) as [Hu Hr]; [lia|].
  split; [done|]. simpl. case_decide.
  - intros (x & Heq & Hx)%list_elem_of_fmap. apply elem_of_update_where in Hx as (y & Hy & ->).
    case_decide; [by apply (Hid k)|]. apply Hr. rewrite Heq. by apply list_elem_of_fmap_2.
  - rewrite fmap_app elem_of_app list_elem_of_singleton. intros [?|Heq]; [done|]. by apply (Hid k).
Qed.
End invariant.

(** ** Programs that leave the database alone *)

Class Quiet {C A} (p : M (World C) exn A) : Prop :=
  quiet : ∀ w, w_db (p w).2 = w_db w ∧ w_uuids (p w).2 = w_uuids w.

#[global] Instance Quiet_ret {C A} (a : A) : Quiet (C:=C) (mret a).
Proof. done. Qed.
#[global] Instance Quiet_audit {C} e : Quiet (C:=C) (audit e).
Proof. done. Qed.
#[global] Instance Quiet_on_cache {C} (f : C → C) : Quiet (on_cache f).
Proof. done. Qed.
#[global] Instance Quiet_bind {C A B} (p : M (World C) exn A) (k : A → M (World C) exn B) :
  Quiet p → (∀ a, Quiet (k a)) → Quiet (p ≫= k).
Proof.
  intros Hp Hk w. destruct (Hp w) as [Hd Hu]. rewrite /mbind /M_bind.
  destruct (p w) as [[a|e] w']; simpl in *; [|done]. by destruct (Hk a w') as [-> ->].
Qed.
#[global] Instance Quiet_if {C A} (b : bool) (p q : M (World C) exn A) :
  Quiet p → Quiet q → Quiet (if b then p else q).
Proof. by destruct b. Qed.
#[global] Instance Quiet_decide {C A} (Q : Prop) `{Decision Q} (p q : M (World C) exn A) :
  Quiet p → Quiet q → Quiet (if decide Q then p else q).
Proof. by case_decide. Qed.
#[global] Instance Quiet_for_each {C A} (body : A → M (World C) exn unit) xs :
  (∀ x, Quiet (body x)) → Quiet (for_each body xs).
Proof. intros Hb. induction xs; simpl; apply _. Qed.

(** ** The use cases keep it *)

Section use_cases.
Context {C Stats : Type} `{ServiceCache C Stats} `{Bcrypt} `{SecretTokens} `{MailQueue C}
        `{CaseFolding} `{UuidSupply} `{!Inj (=) (=) uuid4}.
Context (cfg : AuthSettings).
Implicit Types (w : World C).

Definition AdminInv w : Prop := AccountInv (w_uuids w) (w_db w).
Abbreviation keeps op := (∀ w, AdminInv w → wp op (λ _ w', AdminInv w') w).

(** A guard at the head of a transaction: it reads, or it refuses. *)
Ltac passing x Hr :=
  apply wp_bind; apply wp_read_only; [apply _|]; intros [x|?] Hr;
  [try (is_var x; match type of x with unit => destruct x end)|assumption].

Lemma other_administrator i w d b :
  in_tx d w → accounts_ok d → has_administrator d → is_administrator i w = (Ok b, w) →
  (if (b : bool) then require_administrator_remains i else mret tt) w = (Ok tt, w) →
  ∃ m, administrator d m ∧ um_id m ≠ i.
Proof.
  intros Ht Hok [m Hm] Hb Hg. destruct b; [by eapply remains_ok|].
  destruct (is_administrator_ok i d w _ Ht Hb) as (o & Ho & Hn).
  exists m. split; [done|]. by eapply not_administrator_other.
Qed.

Lemma service_set_active_keeps b i w d m (Q : result exn User → World C → Prop) :
  in_tx d w → AccountInv (w_uuids w) d → administrator d m → (b = true ∨ um_id m ≠ i) →
  (∀ e, Q (Err e) w) →
  (∀ u d', AccountInv (w_uuids w) d' → Q (Ok u) (set_txn (Some (MkTxn d' false)) w)) →
  wp (service_set_active b i) Q w.
Proof.
  intros Ht Hinv Hm Hcase He HQ. rewrite /service_set_active. apply wp_bind.
  apply (wp_load _ d); [done|].
  destruct (find_user_by_id i d) as [[u|]|e] eqn:Hu; [|apply He|apply He].
  eapply wp_update; [exact Ht|]. cbn [tx_work].
  destruct (save_user (set_active b u) d) as [[v d']|e] eqn:Hs; [|apply He].
  apply HQ. destruct Hcase as [->|Hne].
  - by apply (AccountInv_save_same _ d i u (set_active true u) v).
  - by apply (AccountInv_save_other _ d i u (set_active b u) v d' m).
Qed.

Lemma deactivate_user_keeps i ctx : keeps (deactivate_user i ctx).
Proof.
  intros w Hinv. rewrite /deactivate_user. wp_step. wp_step. wp_step. wp_step.
  set (w1 := set_txn _ w). assert (in_tx (w_db w) w1) as Ht by done.
  passing u1 Hact. passing b Hadm. passing u2 Hrem.
  destruct (other_administrator i w1 _ b Ht) as (m & Hm & Hne); try done;
    [apply (ai_ok _ _ Hinv)|apply (ai_admin _ _ Hinv)|].
  apply wp_bind. eapply (service_set_active_keeps false i _ (w_db w) m); try done; [by right|].
  intros u d' Hd'. wp_steps. by eapply AccountInv_ext; [| |exact Hd'].
Qed.

Lemma activate_user_keeps i ctx : keeps (activate_user i ctx).
Proof.
  intros w Hinv. rewrite /activate_user. wp_step. wp_step.
  passing u1 Hact. destruct (ai_admin _ _ Hinv) as [m Hm]. apply wp_bind.
  eapply (service_set_active_keeps true i _ (w_db w) m); [done|done|done|by left|done|].
  intros u d' Hd'. by wp_steps.
Qed.
Lemma quiet_keeps {A} (p : M (World C) exn A) `{!Quiet p} w :
  AdminInv w → wp p (λ _ w', AdminInv w') w.
Proof. intros Hinv. rewrite /wp /AdminInv. by destruct (quiet (p:=p) w) as [-> ->]. Qed.

Lemma sweep_accounts r d ls d' :
  sweep r d = Ok (ls, d') → users d' = users d ∧ roles d' = roles d.
Proof. rewrite /sweep. destruct r as [[del t]|]; [|done]. by intros [= <- <-]. Qed.

#[global] Instance Quiet_try {A} (p : M (World C) exn A) h :
  Quiet p → (∀ e, Quiet (h e)) → Quiet (try_except p h).
Proof.
  intros Hp Hh w. destruct (Hp w) as [Hd Hu]. rewrite /try_except.
  destruct (p w) as [[a|e] w']; simpl in *; [done|]. by destruct (Hh e w') as [-> ->].
Qed.
#[global] Instance Quiet_drop_cached_links ls : Quiet (drop_cached_links ls).
Proof. unfold drop_cached_links. case_match; apply _. Qed.

Lemma delete_account_keeps i ctx : keeps (delete_account i ctx).
Proof.
  intros w Hinv. rewrite /delete_account. wp_step. wp_step.
  set (w1 := set_txn _ w). assert (in_tx (w_db w) w1) as Ht by done.
  passing u1 Hact. passing b Hadm. passing u2 Hrem.
  destruct (other_administrator i w1 _ b Ht) as (m & Hm & Hne); try done;
    [apply (ai_ok _ _ Hinv)|apply (ai_admin _ _ Hinv)|].
  wp_step. wp_step. cbn [tx_work].
  destruct (sweep _ (w_db w)) as [[ls d1]|e] eqn:Hsw; [|done].
  apply sweep_accounts in Hsw as [Hu Hr]. wp_step. wp_step. cbn [tx_work].
  assert (AccountInv (w_uuids w) d1) as Hinv1 by (by apply (AccountInv_ext _ (w_db w))).
  destruct (delete_user i d1) as [del d2] eqn:Hdel.
  assert (AccountInv (w_uuids w) d2) as Hinv2.
  { replace d2 with (delete_user i d1).2 by (by rewrite Hdel). constructor.
    - apply delete_user_ok, (ai_ok _ _ Hinv1).
    - intros k Hk. destruct (ai_fresh _ _ Hinv1 k Hk) as [Hf1 Hf2].
      rewrite /delete_user. case_decide; [|done]. simpl. split; [|done].
      intros Hin. apply Hf1. eapply elem_of_sublist; [exact Hin|].
      apply fmap_sublist_of, delete_where_sublist.
    - exists m. apply delete_user_others; [done|]. by rewrite /administrator Hu Hr. }
  destruct del; cbn [negb]; wp_step; [|by wp_steps].
  wp_step. wp_step. by apply quiet_keeps; [apply _|].
Qed.

Lemma confirm_user_email_keeps i ctx : keeps (confirm_user_email i ctx).
Proof.
  intros w Hinv. rewrite /confirm_user_email. wp_step. wp_step. wp_step. wp_step.
  passing u1 Hact. apply wp_bind. apply (wp_load _ (w_db w)); [done|].
  destruct (find_user_by_id i (w_db w)) as [[u|]|e] eqn:Hu; [|exact Hinv|exact Hinv].
  destruct (user_email_verified u).
  { wp_steps. cbn [tx_work invalidate_verifications]. wp_steps.
    by apply (AccountInv_ext _ (w_db w)). }
  wp_steps. cbn [tx_work].
  destruct (save_user (confirm_email u) (w_db w)) as [[v d1]|e] eqn:Hs; [|exact Hinv]. wp_steps.
  cbn [tx_work invalidate_verifications]. wp_steps. apply (AccountInv_ext _ d1); [done|done|].
  by apply (AccountInv_save_same _ (w_db w) i u (confirm_email u) v).
Qed.
(** ** Roles of an account *)

Lemma resolve_roles_stored ns : ∀ seen d w rs, in_tx d w →
  resolve_roles ns seen w = (Ok rs, w) → ∀ r, r ∈ rs → r ∈ roles d.
Proof.
  induction ns as [|n ns IH]; intros seen d w rs Ht; simpl.
  { intros [= <-] r Hr. by apply elem_of_nil in Hr. }
  intros (o & w1 & Ho & Hrest)%bind_ok_inv. rewrite (read_in_tx _ d w Ht) in Ho.
  injection Ho as Ho <-. destruct o as [x|]; [|done]. case_decide; [by eapply IH|].
  apply bind_ok_inv in Hrest as (rest & w2 & Hrec & [= <- <-]).
  apply first_filter_Some in Ho as [Hx _].
  intros r [->|Hr]%elem_of_cons; [done|]. by eapply IH.
Qed.

Lemma update_user_roles_keeps i names ctx : keeps (update_user_roles i names ctx).
Proof.
  intros w Hinv. rewrite /update_user_roles. wp_step. wp_step.
  set (w1 := set_txn _ w). assert (in_tx (w_db w) w1) as Ht by done.
  passing rs Hrs. passing u0 Has. passing u1 Hgr. passing u2 Hact. passing b Hadm. passing u3 Hrem.
  pose proof (ai_ok _ _ Hinv) as Hok.
  apply wp_bind. apply (wp_load _ (w_db w)); [done|].
  destruct (find_user_by_id i (w_db w)) as [o|e] eqn:Hu; [|exact Hinv].
  apply wp_bind. rewrite /service_update_roles. apply wp_bind. apply (wp_load _ (w_db w)); [done|].
  rewrite Hu. destruct o as [u|]; [|exact Hinv].
  destruct rs as [|r0 rs0] eqn:Ers; [exact Hinv|]. rewrite -Ers in Hrs Hrem Has |- *.
  wp_step. apply wp_lift. injection Has as ->. apply wp_update with (t := MkTxn (w_db w) false); [done|].
  cbn [tx_work tx_committed].
  destruct (save_user (with_roles rs u) (w_db w)) as [[v d1]|e] eqn:Hs; [|exact Hinv].
  wp_step. wp_step. wp_step. apply quiet_keeps; [apply _|]. rewrite /AdminInv. cbn.
  destruct (find_user_by_id_row _ i u Hok Hu) as (Hid & Hin & Hroles).
  destruct (is_administrator_ok i _ w1 _ Ht Hadm) as (o & Ho & ->).
  rewrite Hu in Ho. injection Ho as <-.
  destruct (ai_admin _ _ Hinv) as [m Hm].
  destruct (decide (um_id m = i)) as [He|Hne];
    [|by apply (AccountInv_save_other _ (w_db w) i u (with_roles rs u) v d1 m)].
  destruct (user_has_permission u ADMIN_ALL) eqn:Hp; last first.
  { exfalso. by apply (not_administrator_other i (w_db w) (Some u) m). }
  destruct (would_keep_admin rs) eqn:Hk; cbn in Hrem; last first.
  { destruct (remains_ok i _ w1 Ht Hrem) as (m' & Hm' & Hne).
    by apply (AccountInv_save_other _ (w_db w) i u (with_roles rs u) v d1 m'). }
  apply bool_decide_eq_true, elem_of_conferred_by in Hk as (r & Hr & Hrp).
  eapply AccountInv_save_user; [exact Hinv|done|lia|
    intros k Hk; exact (stored_id_drawn _ _ _ _ k Hinv Hu Hk)|].
  destruct Hm as (Hmin & Ha & _).
  assert (m = user_row u) as -> by (apply (user_row_unique (users (w_db w))); [apply Hok|done|done|by rewrite He -Hid]).
  exists (user_row (with_roles rs u)). eapply save_user_itself; [done|done|].
  exists r. split_and!; [done| |done]. by apply (resolve_roles_stored _ _ _ _ _ Ht Hrs).
Qed.
(** ** New accounts and new roles *)

Lemma drawn_later n k : (n < k)%nat → uuid4 k ≠ uuid4 n.
Proof. intros Hlt Heq%(inj uuid4). lia. Qed.

Lemma AccountInv_new_user n d v v' d' :
  AccountInv n d → user_id v = uuid4 n → save_user v d = Ok (v', d') → AccountInv (S n) d'.
Proof.
  intros Hinv Hid Hs. eapply AccountInv_save_user; [done|done|lia| |].
  - intros k Hk. rewrite Hid. apply drawn_later. lia.
  - destruct (ai_admin _ _ Hinv) as [m Hm]. exists m. eapply save_user_others; [done| |done].
    rewrite Hid. intros Heq. apply (proj1 (ai_fresh _ _ Hinv n (le_n n))).
    rewrite -Heq. apply list_elem_of_fmap_2, Hm.
Qed.

Lemma service_create_user_keeps email password rs act w d
    (Q : result exn User → World C → Prop) :
  in_tx d w → AccountInv (w_uuids w) d → w_db w = d →
  (∀ e w', AdminInv w' → Q (Err e) w') →
  (∀ u d' w', in_tx d' w' → AccountInv (w_uuids w') d' → Q (Ok u) w') →
  wp (service_create_user cfg email password rs act) Q w.
Proof.
  intros Ht Hinv Hdb He HQ.
  assert (∀ n, (w_uuids w <= n)%nat → AdminInv (set_uuids n w)) as Hlater.
  { intros n Hn. rewrite /AdminInv /= Hdb. by eapply AccountInv_later. }
  assert (AdminInv w) as Hw by (by rewrite /AdminInv Hdb).
  rewrite /service_create_user. wp_step. wp_step.
  destruct (new_Email email) as [e|x]; [|by apply He].
  apply wp_bind. apply (wp_load _ d); [done|].
  destruct (find_user_by_email e d) as [[u|]|x]; [by apply He| |by apply He].
  apply wp_bind. apply hash_password_spec; [by intros; apply He|intros; apply He, Hlater; lia|].
  intros b _ _. wp_step. wp_step.
  destruct (new_PasswordHash _) as [ph|x]; [|apply He, Hlater; lia].
  set (w1 := set_uuids _ w). assert (in_tx d w1) as Ht1 by done.
  assert (AdminInv w1) as Hw1 by (apply Hlater; lia).
  apply wp_bind. apply wp_read_only.
  { case_match; [|apply _]. apply ReadOnly_bind; [apply _|]. intros [?|]; apply _. }
  intros [assigned|x] _; [|by apply He]. wp_step. wp_step. wp_step. wp_step. wp_step. wp_step.
  destruct (create_user_entity _ _ _ _ _ _) as [u|x] eqn:Hnew;
    [|apply He, (Hlater (S (S (w_uuids w)))); lia].
  eapply wp_update; [exact Ht|]. cbn [tx_work tx_committed].
  destruct (save_user (set_active act u) d) as [[v d']|x] eqn:Hs;
    [|apply He, (Hlater (S (S (w_uuids w)))); lia].
  apply (HQ v d'); [done|]. cbn.
  apply (AccountInv_new_user _ d (set_active act u) v); [by eapply AccountInv_later; [|exact Hinv]; lia| |done].
  revert Hnew. rewrite /create_user_entity. by destruct (require_roles_are_assignable _); [intros [= <-]|].
Qed.

Lemma create_user_keeps email password ctx names act : keeps (create_user cfg email password ctx names act).
Proof.
  intros w Hinv. rewrite /create_user. wp_step. wp_step.
  apply wp_bind. apply wp_read_only.
  { case_match; [|apply _]. case_match; apply _. }
  intros [rs|e] _; [|exact Hinv]. apply wp_bind.
  apply (service_create_user_keeps _ _ _ _ _ (w_db w)); [done|exact Hinv|done|done|].
  intros u d' w' Ht' Hinv'. wp_step. eapply wp_commit; [exact Ht'|]. wp_step.
  apply quiet_keeps; [apply _|exact Hinv'].
Qed.

Lemma create_role_keeps name descr names ctx : keeps (create_role name descr names ctx).
Proof.
  intros w Hinv. rewrite /create_role. wp_step. wp_step.
  set (w1 := set_txn _ w). assert (in_tx (w_db w) w1) as Ht by done.
  passing ps Hps. passing u1 Hgr. rewrite /service_create_role. wp_step. wp_step. wp_step.
  destruct (require_valid_role_name _) as [[]|e]; [|exact Hinv]. wp_step. wp_step.
  destruct (require_valid_role_description _) as [[]|e]; [|exact Hinv]. wp_step. wp_step.
  cbn [tx_work]. destruct (get_role_by_name name (w_db w)) as [r|]; [exact Hinv|].
  passing ps' Hps'. wp_step. wp_step. wp_step. cbn [tx_work tx_committed].
  set (r := MkRole _ _ _ _ _).
  destruct (save_role r _) as [[s d']|e] eqn:Hs;
    [|by apply (AccountInv_later (w_uuids w)); [simpl; lia|]].
  wp_step. wp_step. wp_step. apply quiet_keeps; [apply _|]. rewrite /AdminInv. cbn in Hs |- *.
  apply (AccountInv_save_role (w_uuids w) (S (w_uuids w)) r (w_db w) s); [exact Hinv|done|lia| |].
  - intros k Hk. apply (drawn_later (w_uuids w)). lia.
  - destruct (ai_admin _ _ Hinv) as (m & Hm & Ha & x & Hx & Hw & Hp). exists m.
    eapply (save_role_administrator r); try done. left. simpl. intros Heq.
    apply (proj2 (ai_fresh _ _ Hinv (w_uuids w) (le_n _))). rewrite -Heq.
    by apply list_elem_of_fmap_2.
Qed.
(** ** Changing and deleting a role *)

Lemma resolve_permissions_ok ns d w ps :
  in_tx d w → resolve_permissions ns w = (Ok ps, w) →
  ps = get_by_names ns d ∧ ∀ n, n ∈ ns → n ∈ (perm_name <$> ps).
Proof.
  intros Ht (ps' & w1 & Hr & ([] & w2 & Hl & Hret)%bind_ok_inv)%bind_ok_inv.
  rewrite (read_in_tx _ d w Ht) in Hr. injection Hr as <- _. injection Hret as <- _.
  split; [done|].
  injection Hl as Hl _. revert Hl. rewrite /refuse_unknown_permissions.
  destruct (filter _ ns) as [|x l] eqn:E; [|done]. intros _ n Hn.
  destruct (decide (n ∈ (perm_name <$> get_by_names ns d))) as [|Hno]; [done|].
  assert (n ∈ filter (λ n, n ∉ (perm_name <$> get_by_names ns d)) ns) as Hin
    by (by apply list_elem_of_filter).
  rewrite E in Hin. by apply elem_of_nil in Hin.
Qed.

Lemma stored_role_grants ns d w ps (r : Role) n :
  in_tx d w → resolve_permissions ns w = (Ok ps, w) → role_permissions r = ps → n ∈ ns →
  role_has_permission (stored_role r d) n = true.
Proof.
  intros Ht Hps Hr Hn. destruct (resolve_permissions_ok ns d w ps Ht Hps) as [Heq Hall].
  specialize (Hall n Hn). apply list_elem_of_fmap in Hall as (p & -> & Hp).
  rewrite /role_has_permission existsb_exists. exists p. rewrite -list_elem_of_In.
  split; [|by apply bool_decide_eq_true_2]. apply list_elem_of_filter. rewrite Hr.
  split; [by apply list_elem_of_fmap_2|]. rewrite Heq /get_by_names in Hp.
  destruct ns; [by apply elem_of_nil in Hp|]. by apply list_elem_of_filter in Hp as [_ ?].
Qed.

Lemma role_unique d a b :
  accounts_ok d → a ∈ roles d → b ∈ roles d → role_id a = role_id b → a = b.
Proof.
  intros Hok Ha Hb Heq. pose proof (ao_role_ids _ Hok) as Hnd.
  pose proof (first_filter_unique (λ r, role_id r = role_id a) role_id (roles d) a Hnd Ha eq_refl
    (λ _ H, H)) as Hf.
  rewrite (first_filter_unique (λ r, role_id r = role_id a) role_id (roles d) b) // in Hf;
    congruence.
Qed.

(** An administrator other than through a role the guard let go. *)
Lemma administrator_besides d r w m :
  in_tx d w → accounts_ok d → r ∈ roles d → administrator d m →
  require_administrator_survives_without r w = (Ok tt, w) →
  ∃ m' x, m' ∈ users d ∧ um_is_active m' = true ∧ x ∈ roles d ∧ role_id x ∈ um_roles m' ∧
    role_has_permission x ADMIN_ALL = true ∧ role_id x ≠ role_id r.
Proof.
  intros Ht Hok Hr (Hm & Ha & x & Hx & Hw & Hp) Hs.
  destruct (survives_ok r d w Ht Hs) as [Hno|Hother]; [|done].
  exists m, x. split_and!; try done. intros Heq.
  rewrite (role_unique d x r Hok Hx Hr Heq) in Hp. congruence.
Qed.

Lemma update_role_permissions_keeps name names ctx : keeps (update_role_permissions name names ctx).
Proof.
  intros w Hinv. rewrite /update_role_permissions. wp_step. wp_step.
  set (w1 := set_txn _ w). assert (in_tx (w_db w) w1) as Ht by done.
  pose proof (ai_ok _ _ Hinv) as Hok.
  passing ps Hps. passing u1 Hgr. wp_step. wp_step. cbn [tx_work].
  destruct (get_role_by_name name (w_db w)) as [r|] eqn:Hr; last first.
  { wp_steps. rewrite /service_update_role_permissions. wp_steps. cbn [tx_work].
    rewrite Hr. wp_steps. exact Hinv. }
  apply first_filter_Some in Hr as Hr'. destruct Hr' as [Hrin _].
  wp_step. wp_step. cbn [tx_work]. passing u2 Hsurv.
  rewrite /service_update_role_permissions. wp_step. wp_step. wp_step. cbn [tx_work]. rewrite Hr.
  wp_step. wp_step. rewrite {1}/ensure_may_be_changed.
  destruct (role_is_system r) eqn:Hsys; [exact Hinv|]. passing ps' Hps'.
  wp_step. cbn [tx_work tx_committed]. set (r1 := MkRole _ _ _ _ _).
  destruct (save_role r1 (w_db w)) as [[s d']|e] eqn:Hs; [|exact Hinv].
  wp_step. wp_step. wp_step. apply quiet_keeps; [apply _|]. rewrite /AdminInv. cbn.
  apply (AccountInv_save_role (w_uuids w) (w_uuids w) r1 (w_db w) s); [exact Hinv|done|lia| |].
  { intros k Hk Heq. apply (proj2 (ai_fresh _ _ Hinv k Hk)). rewrite Heq.
    change (role_id r1) with (role_id r). by apply list_elem_of_fmap_2. }
  destruct (ai_admin _ _ Hinv) as [m Hm].
  destruct (mem ADMIN_ALL names) eqn:Hmem; cbn in Hsurv.
  - apply bool_decide_eq_true in Hmem. destruct Hm as (Hmin & Ha & x & Hx & Hw & Hp). exists m.
    eapply (save_role_administrator r1 _ s _ m x); try done. right.
    by apply (stored_role_grants names _ w1 ps').
  - destruct (administrator_besides _ r w1 m Ht Hok Hrin Hm Hsurv)
      as (m' & x & Hm' & Ha' & Hx & Hw & Hp & Hne).
    exists m'. eapply (save_role_administrator r1 _ s _ m' x); try done. by left.
Qed.

(** Putting the bare accounts back touches none that has a role. *)
Definition tx_keeps {A} (n : nat) (d0 : Database) (r : result exn A) w : Prop :=
  w_db w = d0 ∧ w_uuids w = n ∧
  match r with Ok _ => ∃ d, in_tx d w ∧ AccountInv n d | Err _ => True end.

Lemma service_update_roles_bare i r u w d :
  in_tx d w → AccountInv (w_uuids w) d → find_user_by_id i d = Ok (Some u) → user_roles u = [] →
  wp (service_update_roles i [r]) (λ o w', w_db w' = w_db w ∧ w_uuids w' = w_uuids w ∧
    ∃ d', in_tx d' w' ∧ AccountInv (w_uuids w) d') w.
Proof.
  intros Ht Hinv Hu Hbare. rewrite /service_update_roles. apply wp_bind. apply (wp_load _ d); [done|].
  rewrite Hu. wp_step. wp_step. destruct (require_roles_are_assignable [r]); [|by eauto].
  eapply wp_update; [exact Ht|]. cbn [tx_work tx_committed].
  destruct (save_user (with_roles [r] u) d) as [[v d']|e] eqn:Hs; [|by eauto].
  split; [done|]. split; [done|]. exists d'. split; [done|].
  destruct (ai_admin _ _ Hinv) as [m Hm].
  apply (AccountInv_save_other _ d i u (with_roles [r] u) v d' m); try done.
  apply (not_administrator_other i d (Some u)); [apply Hinv|done| |done].
  by rewrite /user_has_permission Hbare.
Qed.

Lemma put_back_on_keeps r ws : ∀ w d, in_tx d w → AccountInv (w_uuids w) d →
  wp (put_back_on r ws) (tx_keeps (w_uuids w) (w_db w)) w.
Proof.
  induction ws as [|i ws IH]; intros w d Ht Hinv; simpl.
  { wp_steps. split; [done|]. split; [done|]. by exists d. }
  apply wp_bind. apply (wp_load _ d); [done|].
  destruct (find_user_by_id i d) as [[u|]|e] eqn:Hu; [|by apply (IH w d)|done].
  destruct (user_roles u) as [|r0 rs] eqn:Hr; [|by apply (IH w d)].
  apply wp_bind, wp_try, wp_bind.
  eapply wp_mono; [by apply (service_update_roles_bare i r u w d)|].
  intros o w' (Hdb & Hn & d' & Ht' & Hinv').
  assert (∀ ok : bool, wp (rest ← put_back_on r ws; mret (if ok then i :: rest else rest))
    (tx_keeps (w_uuids w) (w_db w)) w') as Hrest.
  { intros ok. apply wp_bind. eapply wp_mono; [apply (IH w' d' Ht'); by rewrite Hn|].
    intros q w2 (Hdb2 & Hn2 & Hq). destruct q as [l|e]; wp_steps.
    - split; [congruence|]. split; [congruence|]. by rewrite -Hn.
    - split; [congruence|]. split; [congruence|done]. }
  destruct o as [v|e]; [apply wp_ret; exact (Hrest true)|].
  destruct (is_domain_error e); [apply wp_ret; exact (Hrest false)|apply wp_raise].
  split; [congruence|]. split; [congruence|done].
Qed.

Lemma delete_role_keeps name ctx : keeps (delete_role cfg name ctx).
Proof.
  intros w Hinv. rewrite /delete_role. wp_step. wp_step. wp_step. wp_step. cbn [tx_work].
  set (w1 := set_txn _ w). assert (in_tx (w_db w) w1) as Ht by done.
  pose proof (ai_ok _ _ Hinv) as Hok.
  destruct (get_role_by_name name (w_db w)) as [r|] eqn:Hr; last first.
  { wp_steps. rewrite /service_delete_role. wp_steps. cbn [tx_work]. rewrite Hr. wp_steps.
    exact Hinv. }
  apply first_filter_Some in Hr as Hr'. destruct Hr' as [Hrin _].
  passing u2 Hsurv. wp_step. wp_step. cbn [tx_work]. wp_step.
  rewrite /service_delete_role. wp_step. wp_step. cbn [tx_work]. rewrite Hr. wp_step. wp_step.
  rewrite /ensure_may_be_changed. destruct (role_is_system r) eqn:Hsys; [exact Hinv|]. wp_step.
  cbn [tx_work tx_committed].
  set (d1 := delete_role_row (role_id r) (w_db w)).
  destruct (ai_admin _ _ Hinv) as [m Hm]. cbn in Hsurv.
  destruct (administrator_besides _ r w1 m Ht Hok Hrin Hm Hsurv)
    as (m' & x & Hm' & Ha' & Hx & Hw & Hp & Hne).
  assert (AccountInv (w_uuids w) d1) as Hinv1.
  { constructor; [by apply delete_role_row_ok| |].
    - intros k Hk. destruct (ai_fresh _ _ Hinv k Hk) as [Hf1 Hf2]. rewrite /d1 /delete_role_row.
      case_decide; [|done]. simpl. split; [by rewrite -list_fmap_compose|].
      intros Hin. apply Hf2. eapply elem_of_sublist; [exact Hin|].
      apply fmap_sublist_of, delete_where_sublist.
    - destruct (delete_role_row_administrator (role_id r) (w_db w) m' x) as (m2 & Hm2 & _);
        try done. by exists m2. }
  wp_step. set (w2 := set_txn (Some (MkTxn d1 _)) _).
  assert (wp (put_the_bare_ones_back cfg (wearers_of (role_id r) (w_db w)))
    (tx_keeps (w_uuids w) (w_db w)) w2) as Hput.
  { rewrite /put_the_bare_ones_back. case_match; wp_steps.
    - split; [done|]. split; [done|]. by exists d1.
    - case_match; [by apply (put_back_on_keeps _ _ w2 d1)|]. wp_steps.
      split; [done|]. split; [done|]. by exists d1. }
  eapply wp_mono; [exact Hput|]. intros o w3 (Hdb & Hn & Ho).
  destruct o as [l|e]; [|by rewrite /AdminInv /= Hdb Hn].
  destruct Ho as (d3 & Ht3 & Hinv3). wp_step. eapply wp_commit; [exact Ht3|]. wp_step.
  apply quiet_keeps; [apply _|]. by rewrite /AdminInv /= Hn.
Qed.
End use_cases.
