(* ===== verification/AdminClaims.v ===== *)
(** * The guarantees of administration

    The specifications of [AdminTheorems.v] put together: histories of
    administrative requests, what a request that succeeded was entitled to,
    and what closing an account does; with a small concrete deployment on
    which each is run. *)

From S2P Require Import Prelude PyStr Exceptions ValueObjects Entities Policies Cache MemoryCache.
From S2P Require Import Database LinkRepo UserRepo Sessions RateLimit Auth AuthTheorems Admin.
From S2P Require Import Visitor Links Demo LinkTheorems AdminTheorems.

Section claims.
Context {C Stats : Type} `{ServiceCache C Stats} `{Bcrypt} `{SecretTokens} `{MailQueue C}
        `{CaseFolding} `{UuidSupply}.
Context (cfg : AuthSettings).
Implicit Types (w : World C).

(** ** Histories *)

(** One administrative request by anyone, however it ends; or time passes. *)
Inductive admin_step : World C → World C → Prop :=
| step_create_role name descr names ctx w :
    admin_step w (create_role name descr names ctx w).2
| step_update_role name names ctx w :
    admin_step w (update_role_permissions name names ctx w).2
| step_delete_role name ctx w :
    admin_step w (delete_role cfg name ctx w).2
| step_create_user email password ctx names act w :
    admin_step w (create_user cfg email password ctx names act w).2
| step_update_user_roles i names ctx w :
    admin_step w (update_user_roles i names ctx w).2
| step_activate i ctx w : admin_step w (activate_user i ctx w).2
| step_deactivate i ctx w : admin_step w (deactivate_user i ctx w).2
| step_delete_user i ctx w : admin_step w (delete_account i ctx w).2
| step_confirm i ctx w : admin_step w (confirm_user_email i ctx w).2
| step_sweep_accounts ctx w : admin_step w (clean_unverified_accounts cfg ctx w).2
| step_time t w : admin_step w (set_now t w).

(** Nobody administers the service from an address nobody has confirmed.
    [unconfirmed_administrator_is_swept] below is what happens otherwise. *)
Definition administrators_confirmed (d : Database) : Prop :=
  ∀ m, administrator d m → um_email_verified m = true.

(** A step of a service that is so administered, before and after. *)
Definition supervised w w' : Prop := admin_step w w' ∧ administrators_confirmed (w_db w').

Lemma swept_administrator cutoff d m : administrator d m → um_email_verified m = true →
  administrator (delete_unverified_before cutoff d).2 m.
Proof.
  intros (Hm & Ha & Hr) Hv. split_and!; [|done|done]. simpl. apply elem_of_delete_where.
  split; [done|]. rewrite /unverified_before Hv. by intros [? _].
Qed.

Lemma clean_unverified_keeps ctx w : AdminInv w → administrators_confirmed (w_db w) →
  wp (clean_unverified_accounts cfg ctx) (λ _ w', AdminInv w') w.
Proof.
  intros Hinv Hconf.
  set (d := (delete_unverified_before (w_now w - unverified_ttl_hours cfg * HOUR) (w_db w)).2).
  assert (AccountInv (w_uuids w) d) as Hd.
  { destruct Hinv as [Hok Hf (m & Hm)]. constructor.
    - apply (accounts_ok_sublist (w_db w)); [|done..]. apply delete_where_sublist.
    - intros k Hk. destruct (Hf k Hk) as [Hu Hr]. split; [|done]. intros Hin. apply Hu.
      eapply elem_of_sublist; [exact Hin|]. apply fmap_sublist_of, delete_where_sublist.
    - exists m. apply swept_administrator; [done|by apply Hconf]. }
  rewrite /clean_unverified_accounts. wp_step. wp_step. wp_step. wp_step. wp_step. wp_step.
  rewrite (surjective_pairing (delete_unverified_before _ _)). cbn [tx_work tx_committed]. wp_steps.
  rewrite /delete_expired_verifications. cbn [tx_work tx_committed].
  destruct (delete_dead _ _) as [n t]. wp_steps. cbn [fst snd].
  match goal with |- context [match ?k with O => _ | S _ => _ end] => destruct k end;
    wp_steps; by apply (AccountInv_ext _ d).
Qed.

Lemma admin_step_keeps `{!Inj (=) (=) uuid4} w w' : administrators_confirmed (w_db w) →
  admin_step w w' → AdminInv w → AdminInv w'.
Proof.
  intros Hconf Hs Hinv. destruct Hs; try exact Hinv.
  - by apply (create_role_keeps name descr names ctx).
  - by apply (update_role_permissions_keeps name names ctx).
  - by apply (delete_role_keeps cfg name ctx).
  - by apply (create_user_keeps cfg email password ctx names act).
  - by apply (update_user_roles_keeps i names ctx).
  - by apply (activate_user_keeps i ctx).
  - by apply (deactivate_user_keeps i ctx).
  - by apply (delete_account_keeps i ctx).
  - by apply (confirm_user_email_keeps i ctx).
  - by apply clean_unverified_keeps.
Qed.

(** C3: whatever administrative requests are made, in whatever order and by
    whomever, and whether they succeed or fail, the sweep of unconfirmed
    accounts among them: as long as the tables were sound, someone
    administered the service, and at no point does an account with an
    unconfirmed address hold [admin:all], the tables stay sound (unique ids,
    addresses and role names, and no account wears a role that does not
    exist) and an account remains whose roles confer [admin:all] and which
    can sign in: active, its address confirmed. *)
Theorem an_administrator_remains `{!Inj (=) (=) uuid4} w w' :
  AdminInv w → administrators_confirmed (w_db w) → rtc supervised w w' →
  accounts_ok (w_db w') ∧
  ∃ m, administrator (w_db w') m ∧ um_is_active m = true ∧ um_email_verified m = true.
Proof.
  intros Hinv Hconf Hs.
  assert (AdminInv w' ∧ administrators_confirmed (w_db w')) as [[Hok _ (m & Hm)] Hc].
  { induction Hs as [|w1 w2 w3 [Hstep Hc] _ IH]; [done|]. by apply IH; [apply (admin_step_keeps w1)|]. }
  split; [done|]. exists m. split; [done|]. split; [apply Hm|by apply Hc].
Qed.

(** ** Entitlement *)

(** The requester, as stored, holds [admin:all] or every one of [ps]. *)
Definition may_confer (ctx : RequestContext) (d : Database) (ps : list pystr) : Prop :=
  ∃ actor, actor_of ctx d = Ok actor ∧
    (is_superuser actor = true ∨ ∀ p, p ∈ ps → p ∈ permissions_held_by actor).

(** The requester may act on the account: it has no privilege they lack. *)
Definition may_act (ctx : RequestContext) (d : Database) (i : pystr) : Prop :=
  ∃ actor target, actor_of ctx d = Ok actor ∧ find_user_by_id i d = Ok target ∧
    (is_superuser actor = true ∨
     ∀ p, p ∈ permissions_held_by target → is_privileged p = true →
          p ∈ permissions_held_by actor).

Lemma grant_permissions_may ctx ns d w :
  in_tx d w → require_may_grant_permissions ctx ns w = (Ok tt, w) → may_confer ctx d ns.
Proof.
  intros Ht (a & Ha & Hc)%(grant_permissions_ok ctx ns d w); [|done].
  exists a. split; [done|]. by apply require_may_confer_spec.
Qed.

Lemma act_on_may ctx i d w :
  in_tx d w → require_may_act_on_user ctx i w = (Ok tt, w) → may_act ctx d i.
Proof.
  intros Ht (a & t & Ha & Htg & Hc)%(act_on_ok ctx i d w); [|done].
  exists a, t. split_and!; [done|done|]. by apply require_may_act_on_spec.
Qed.

(** A first guard that succeeded, in a unit of work that succeeded. *)
Lemma with_uow_ok {A} (body : M (World C) exn A) w a w' :
  with_uow body w = (Ok a, w') →
  ∃ w2, body (set_txn (Some (MkTxn (w_db w) false)) w) = (Ok a, w2) ∧ w_db w' = w_db w2.
Proof.
  rewrite /with_uow. destruct (body _) as [r w2]. intros [= -> <-]. by exists w2.
Qed.

Lemma read_only_ok {A} (p : M (World C) exn A) `{!ReadOnly p} w a w' :
  p w = (Ok a, w') → p w = (Ok a, w) ∧ w' = w.
Proof. intros Hp. pose proof (read_only (p:=p) w) as Hr. rewrite Hp /= in Hr. by subst. Qed.

Lemma service_update_roles_answer i rs w v w' :
  service_update_roles i rs w = (Ok v, w') → user_roles v = rs.
Proof.
  intros (o & w1 & _ & Hs)%bind_ok_inv. destruct o as [u|]; [|done].
  destruct rs as [|r rs]; [done|].
  apply bind_ok_inv in Hs as ([] & w2 & _ & Hs). revert Hs. rewrite /update.
  destruct (w_txn w2) as [t|]; [|done].
  destruct (save_user _ _) as [[u1 d1]|] eqn:Hs; [|done]. intros [= <- _].
  by apply save_user_inv in Hs as (-> & _).
Qed.

(** A unit of work that starts by asking whether the requester may act. *)
Lemma acted_may {A} ctx i (k : M (World C) exn A) w a w' :
  with_uow (require_may_act_on_user ctx i;; k) w = (Ok a, w') → may_act ctx (w_db w) i.
Proof.
  intros (w2 & Hb & _)%with_uow_ok.
  apply bind_ok_inv in Hb as ([] & w3 & [Hact _]%read_only_ok & _); [|apply _].
  eapply act_on_may; [|exact Hact]. done.
Qed.

Lemma grant_roles_may ctx rs d w :
  in_tx d w → require_may_grant_roles ctx rs w = (Ok tt, w) → may_confer ctx d (conferred_by rs).
Proof.
  intros Ht (a & w8 & Ha & Hc)%bind_ok_inv.
  rewrite (load_actor_in_tx ctx _ w Ht) in Ha. injection Ha as Ha <-. injection Hc as Hc.
  exists a. split; [done|]. by apply require_may_confer_spec.
Qed.

Lemma resolve_roles_some n ns w rs w' : resolve_roles (n :: ns) [] w = (Ok rs, w') → rs ≠ [].
Proof.
  simpl. intros (o & w1 & _ & Hr)%bind_ok_inv. destruct o as [r|]; [|done].
  by apply bind_ok_inv in Hr as (rest & w2 & _ & [= <- _]).
Qed.

Lemma service_create_user_answer email password rs act w u w' :
  rs ≠ [] → service_create_user cfg email password (Some rs) act w = (Ok u, w') → user_roles u = rs.
Proof.
  intros Hne (e & w1 & _ & Hs)%bind_ok_inv. apply bind_ok_inv in Hs as (o & w2 & _ & Hs).
  destruct o; [done|]. apply bind_ok_inv in Hs as (h & w3 & _ & Hs).
  apply bind_ok_inv in Hs as (ph & w4 & _ & Hs). apply bind_ok_inv in Hs as (assigned & w5 & Has & Hs).
  assert (assigned = rs) as -> by (destruct rs; [done|by injection Has]).
  apply bind_ok_inv in Hs as (now & w6 & _ & Hs). apply bind_ok_inv in Hs as (uid & w7 & _ & Hs).
  apply bind_ok_inv in Hs as (v & w8 & Hv & Hs). injection Hv as Hv _.
  revert Hs. rewrite /update. destruct (w_txn w8) as [t|]; [|done].
  destruct (save_user _ _) as [[u1 d1]|] eqn:Hsv; [|done]. intros [= <- _].
  apply save_user_inv in Hsv as (-> & _). simpl.
  by apply result_bind_ok in Hv as ([] & _ & [= <-]).
Qed.

Definition in_uow w : World C := set_txn (Some (MkTxn (w_db w) false)) w.
Lemma in_uow_tx w : in_tx (w_db w) (in_uow w).
Proof. done. Qed.

(** The requester may confer what the roles an account got confer. *)
Definition roles_conferred ctx w (u : UserResponse) : Prop :=
  ∃ rs, (∀ r, r ∈ rs → r ∈ roles (w_db w)) ∧ ur_roles u = role_name <$> rs ∧
        may_confer ctx (w_db w) (conferred_by rs).

Lemma create_role_may name descr names ctx w role w' :
  create_role name descr names ctx w = (Ok role, w') → may_confer ctx (w_db w) names.
Proof.
  intros (r & w2 & Hb & _)%bind_ok_inv. apply with_uow_ok in Hb as (w3 & Hb & _).
  apply bind_ok_inv in Hb as (ps & w4 & [Hps ->]%read_only_ok & Hb); [|apply _].
  apply bind_ok_inv in Hb as ([] & w5 & [Hg _]%read_only_ok & _); [|apply _].
  by eapply (grant_permissions_may _ _ _ (in_uow w)).
Qed.

Lemma update_role_may name names ctx w role w' :
  update_role_permissions name names ctx w = (Ok role, w') → may_confer ctx (w_db w) names.
Proof.
  intros (r & w2 & Hb & _)%bind_ok_inv. apply with_uow_ok in Hb as (w3 & Hb & _).
  apply bind_ok_inv in Hb as (ps & w4 & [Hps ->]%read_only_ok & Hb); [|apply _].
  apply bind_ok_inv in Hb as ([] & w5 & [Hg _]%read_only_ok & _); [|apply _].
  by eapply (grant_permissions_may _ _ _ (in_uow w)).
Qed.

Lemma create_user_may email password n names act ctx w u w' :
  create_user cfg email password ctx (Some (n :: names)) act w = (Ok u, w') → roles_conferred ctx w u.
Proof.
  intros (v & w2 & Hb & Hret)%bind_ok_inv. apply with_uow_ok in Hb as (w3 & Hb & _).
  apply bind_ok_inv in Hb as (o & w4 & Ho & Hb).
  apply bind_ok_inv in Ho as (rs & w5 & Hrs & Ho). apply resolve_roles_some in Hrs as Hne.
  apply read_only_ok in Hrs as [Hrs ->]; [|apply _].
  apply bind_ok_inv in Ho as ([] & w6 & [_ ->]%read_only_ok & Ho); [|apply _].
  apply bind_ok_inv in Ho as ([] & w7 & [Hg ->]%read_only_ok & Ho); [|apply _].
  injection Ho as <- <-. exists rs.
  split; [by apply (resolve_roles_stored _ _ _ _ _ (in_uow_tx w) Hrs)|].
  split; [|by apply (grant_roles_may ctx rs _ _ (in_uow_tx w))].
  apply bind_ok_inv in Hb as (x & w8 & Hsvc & Hb). apply bind_ok_inv in Hb as ([] & w9 & _ & Hb).
  injection Hb as <- _. apply bind_ok_inv in Hret as ([] & w10 & _ & Hret). injection Hret as <- _.
  simpl. by rewrite (service_create_user_answer _ _ _ _ _ _ _ Hne Hsvc).
Qed.

Lemma update_user_roles_may i names ctx w u w' :
  update_user_roles i names ctx w = (Ok u, w') → may_act ctx (w_db w) i ∧ roles_conferred ctx w u.
Proof.
  intros (r & w2 & Hb & Hret)%bind_ok_inv. apply with_uow_ok in Hb as (w3 & Hb & _).
  apply bind_ok_inv in Hb as (rs & w4 & [Hrs ->]%read_only_ok & Hb); [|apply _].
  apply bind_ok_inv in Hb as ([] & w5 & [Has ->]%read_only_ok & Hb); [|apply _].
  apply bind_ok_inv in Hb as ([] & w6 & [Hg ->]%read_only_ok & Hb); [|apply _].
  apply bind_ok_inv in Hb as ([] & w7 & [Hact ->]%read_only_ok & Hb); [|apply _].
  split; [by eapply (act_on_may _ _ _ (in_uow w))|]. exists rs.
  split; [by apply (resolve_roles_stored _ _ _ _ _ (in_uow_tx w) Hrs)|].
  split; [|by apply (grant_roles_may ctx rs _ _ (in_uow_tx w))].
  apply bind_ok_inv in Hb as (b & w9 & [_ ->]%read_only_ok & Hb); [|apply _].
  apply bind_ok_inv in Hb as ([] & w10 & [_ ->]%read_only_ok & Hb); [|apply _].
  apply bind_ok_inv in Hb as (ex & w11 & [_ ->]%read_only_ok & Hb); [|apply _].
  apply bind_ok_inv in Hb as (v & w12 & Hsvc & Hb).
  apply bind_ok_inv in Hb as ([] & w13 & _ & Hb). injection Hb as <- _.
  apply bind_ok_inv in Hret as ([] & w14 & _ & Hret). injection Hret as <- _. simpl.
  by rewrite (service_update_roles_answer _ _ _ _ _ Hsvc).
Qed.

(** C22: nobody hands out more than they hold, and nobody touches an account
    whose privileges go beyond their own.  A role is created or changed only
    by a requester who holds [admin:all] or every permission the role will
    confer; an account is given roles, at its creation or later, only by one
    who holds everything those roles confer (created without roles named, it
    gets the default one); and an account is given other roles, activated,
    deactivated, deleted, confirmed or sent a confirmation only by a
    requester whose privileges cover that account's. *)
Theorem grants_stay_within_privileges ctx w :
  (∀ name descr names role w', create_role name descr names ctx w = (Ok role, w') →
     may_confer ctx (w_db w) names) ∧
  (∀ name names role w', update_role_permissions name names ctx w = (Ok role, w') →
     may_confer ctx (w_db w) names) ∧
  (∀ email password n names act u w',
     create_user cfg email password ctx (Some (n :: names)) act w = (Ok u, w') →
     roles_conferred ctx w u) ∧
  (∀ i names u w', update_user_roles i names ctx w = (Ok u, w') →
     may_act ctx (w_db w) i ∧ roles_conferred ctx w u) ∧
  (∀ i u w', activate_user i ctx w = (Ok u, w') → may_act ctx (w_db w) i) ∧
  (∀ i u w', deactivate_user i ctx w = (Ok u, w') → may_act ctx (w_db w) i) ∧
  (∀ i b w', delete_account i ctx w = (Ok b, w') → may_act ctx (w_db w) i) ∧
  (∀ i u w', confirm_user_email i ctx w = (Ok u, w') → may_act ctx (w_db w) i) ∧
  (∀ i o w', resend_user_verification cfg i ctx w = (Ok o, w') → may_act ctx (w_db w) i).
Proof.
  split_and!.
  - intros name descr names role w'. apply create_role_may.
  - intros name names role w'. apply update_role_may.
  - intros email password n names act u w'. apply create_user_may.
  - intros i names u w'. apply update_user_roles_may.
  - intros i u w' (v & w2 & Hb & _)%bind_ok_inv. by eapply acted_may.
  - intros i u w' (now & w2 & Hnow & Hd)%bind_ok_inv. injection Hnow as <- <-.
    apply bind_ok_inv in Hd as (v & w3 & Hb & _). by eapply acted_may.
  - intros i b w' (v & w2 & Hb & _)%bind_ok_inv. by eapply acted_may.
  - intros i u w' (now & w2 & Hnow & Hd)%bind_ok_inv. injection Hnow as <- <-.
    apply bind_ok_inv in Hd as (v & w3 & Hb & _). by eapply acted_may.
  - intros i o w' (v & w2 & Hb & _)%bind_ok_inv. by eapply acted_may.
Qed.

(** ** Closing an account *)

Definition with_active (b : bool) (m : UserModel) : UserModel :=
  {| um_id := um_id m; um_email := um_email m; um_password_hash := um_password_hash m;
     um_roles := um_roles m; um_is_active := b; um_email_verified := um_email_verified m;
     um_created_at := um_created_at m; um_last_login := um_last_login m |}.

Lemma service_set_active_ok b i w d v w' :
  in_tx d w → accounts_ok d → service_set_active b i w = (Ok v, w') →
  user_is_active v = b ∧
  w' = set_txn (Some (MkTxn (set_users
         (update_where (λ m, um_id m = i) (with_active b) (users d)) d) false)) w.
Proof.
  intros Ht Hok (o & w1 & Hl & Hs)%bind_ok_inv.
  rewrite (load_in_tx _ d w Ht) in Hl. injection Hl as Hl <-. destruct o as [u|]; [|done].
  revert Hs. rewrite /update Ht. cbn [tx_work tx_committed].
  rewrite (save_loaded_user d i u (set_active b u) (with_active b)) //.
  intros [= <- <-]. done.
Qed.

(** deactivating an account, by a requester whose privileges cover it,
    marks exactly that account inactive and ends every session it has; no
    other account's row changes. *)
Theorem deactivation_closes_the_account i ctx w u w' :
  accounts_ok (w_db w) → deactivate_user i ctx w = (Ok u, w') →
  may_act ctx (w_db w) i ∧ ur_is_active u = false ∧
  users (w_db w') = update_where (λ m, um_id m = i) (with_active false) (users (w_db w)) ∧
  refresh_sessions (w_db w') =
    (revoke_all_for_user (w_now w) i (refresh_sessions (w_db w))).2 ∧
  ∀ now' s, s ∈ refresh_sessions (w_db w') → rs_user_id s = i → session_is_usable now' s = false.
Proof.
  intros Hok (now & w1 & Hnow & Hd)%bind_ok_inv. injection Hnow as <- <-.
  apply bind_ok_inv in Hd as (p & w2 & Hb & Hret).
  apply with_uow_ok in Hb as (w3 & Hb & Hdb).
  set (w0 := set_txn (Some (MkTxn (w_db w) false)) w) in Hb.
  assert (in_tx (w_db w) w0) as Ht by done.
  apply bind_ok_inv in Hb as ([] & w4 & [Hact ->]%read_only_ok & Hb); [|apply _].
  apply bind_ok_inv in Hb as (b & w5 & [_ ->]%read_only_ok & Hb); [|apply _].
  apply bind_ok_inv in Hb as ([] & w6 & [_ ->]%read_only_ok & Hb); [|apply _].
  apply bind_ok_inv in Hb as (v & w7 & Hsvc & Hb).
  apply (service_set_active_ok false i w0 _ v w7 Ht Hok) in Hsvc as [Hv ->].
  injection Hb as <- <-. injection Hret as <- <-. rewrite /= in Hdb |- *. rewrite Hdb.
  split; [by eapply act_on_may|]. split_and!; [done..|].
  intros now' s (x & Hx & ->)%elem_of_update_where Hi. case_decide as Ho; [done|].
  rewrite /session_is_usable. destruct (rs_revoked_at x) eqn:E; [done|].
  exfalso. apply Ho. by split.
Qed.
End claims.

Section deletion.
Context {C Stats : Type} `{CacheLaws C Stats} `{CaseFolding}.
Implicit Types (w : World C).

Lemma drop_cached_links_spec ls w :
  wp (drop_cached_links ls) (λ r w', r = Ok tt ∧ w_db w' = w_db w ∧
    shrinks (w_cache w) (w_cache w') ∧
    ∀ l, l ∈ ls → forgotten (w_cache w') (link_short_code l)) w.
Proof.
  rewrite /drop_cached_links. destruct ls as [|l0 ls0] eqn:E.
  { wp_steps. split_and!; [done|done|apply shrinks_refl|]. intros l Hl. by apply elem_of_nil in Hl. }
  rewrite -E. clear E. apply wp_try. wp_step.
  apply (wp_for_each (λ done w', w_db w' = w_db w ∧ shrinks (w_cache w) (w_cache w') ∧
    ∀ l, l ∈ done → forgotten (w_cache w') (link_short_code l))).
  - intros ls1 l w1 (Hdb & Hs & Hf). wp_steps. split; [done|]. cbn.
    set (c1 := cache_delete l (w_cache w1)). set (c2 := delete_redirect (link_short_code l) c1).
    assert (shrinks (w_cache w1) c1 ∧ forgotten c1 (link_short_code l)) as [Hs1 Hf1]
      by apply delete_forgets.
    assert (shrinks c1 c2) as Hs2 by apply delete_redirect_shrinks.
    split; [done|]. split; [by do 2 (eapply shrinks_trans; [done|])|].
    intros x [Hx|Hx]%elem_of_app.
    + eapply forgotten_shrinks; [|by apply Hf]. by eapply shrinks_trans.
    + apply list_elem_of_singleton in Hx as ->. by eapply forgotten_shrinks.
  - split; [done|]. split; [apply shrinks_refl|]. intros l Hl. by apply elem_of_nil in Hl.
  - intros w1 (Hdb & Hs & Hf). wp_steps. cbn.
    assert (shrinks (w_cache w1) (delete_stats (w_cache w1))) as Hs'
      by apply delete_stats_shrinks.
    split_and!; [done|done|by eapply shrinks_trans|]. intros l Hl.
    eapply forgotten_shrinks; [done|by apply Hf].
Qed.
(** No row of any table names the account. *)
Definition no_trace_of (i : pystr) (d : Database) : Prop :=
  i ∉ (um_id <$> users d) ∧ (∀ l, l ∈ urls d → ¬ owned_by i l) ∧
  (∀ s, s ∈ refresh_sessions d → rs_user_id s ≠ i) ∧
  (∀ v, v ∈ email_verifications d → ev_user_id v ≠ i) ∧
  (∀ v, v ∈ password_resets d → pr_user_id v ≠ i).

Lemma delete_user_no_trace i d :
  i ∈ (um_id <$> users d) → no_trace_of i (delete_user i d).2.
Proof.
  intros Hin. rewrite /delete_user decide_True //=. set (us := delete_where _ (users d)).
  assert (i ∉ (um_id <$> us)) as Hout.
  { by intros (m & -> & [_ []]%elem_of_delete_where)%list_elem_of_fmap. }
  split_and!; simpl; [done|..].
  - intros l [Hl _]%list_elem_of_filter Ho. revert Hl Ho. rewrite /owner_exists /owned_by.
    destruct (link_owner l) as [o|]; [|done]. simpl. intros Hl%bool_decide_eq_true [= Heq].
    by rewrite Heq in Hl.
  - intros s [Hs _]%list_elem_of_filter Heq. by rewrite Heq in Hs.
  - intros s [Hs _]%list_elem_of_filter Heq. by rewrite Heq in Hs.
  - intros s [Hs _]%list_elem_of_filter Heq. by rewrite Heq in Hs.
Qed.

(** an account is deleted only by a requester whose privileges cover it;
    afterwards no row of any table names it (account, links, sessions,
    confirmation and reset tokens), every other account's row is as it was,
    and neither cache level answers for any of its links. *)
Theorem deletion_leaves_no_trace i ctx w w' :
  NoDup (link_id <$> urls (w_db w)) → delete_account i ctx w = (Ok true, w') →
  may_act ctx (w_db w) i ∧ no_trace_of i (w_db w') ∧
  users (w_db w') = delete_where (λ m, um_id m = i) (users (w_db w)) ∧
  ∀ l, l ∈ urls (w_db w) → owned_by i l → forgotten (w_cache w') (link_short_code l).
Proof.
  intros Hnd (o & w1 & Hb & Hd)%bind_ok_inv.
  apply with_uow_ok in Hb as (w3 & Hb & Hdb).
  set (w0 := set_txn (Some (MkTxn (w_db w) false)) w) in Hb.
  assert (in_tx (w_db w) w0) as Ht by done.
  apply bind_ok_inv in Hb as ([] & w4 & [Hact ->]%read_only_ok & Hb); [|apply _].
  apply bind_ok_inv in Hb as (b & w5 & [_ ->]%read_only_ok & Hb); [|apply _].
  apply bind_ok_inv in Hb as ([] & w6 & [_ ->]%read_only_ok & Hb); [|apply _].
  split; [by eapply act_on_may|].
  apply bind_ok_inv in Hb as (ls & w7 & Hsw & Hb). revert Hsw.
  rewrite /update Ht. cbn [tx_work tx_committed]. rewrite /delete_by_owner sweep_spec //.
  set (d1 := cascade_visits _). intros [= <- <-].
  apply bind_ok_inv in Hb as (del & w8 & Hdel & Hb). cbn in Hdel.
  destruct (delete_user i d1) as [del' d2] eqn:E. injection Hdel as -> <-.
  destruct del; cbn in Hb; [|by injection Hb as <- _; injection Hd].
  injection Hb as <- <-. cbn in Hdb.
  assert (i ∈ (um_id <$> users d1)) as Hin.
  { revert E. rewrite /delete_user. by case_decide. }
  apply bind_ok_inv in Hd as ([] & w9 & Hdrop & Hd).
  pose proof (drop_cached_links_spec (filter (owned_by i) (urls (w_db w))) w1) as Hspec.
  apply (wp_elim _ _ _ _ _ Hspec) in Hdrop as (_ & Hdb9 & _ & Hforg).
  apply bind_ok_inv in Hd as ([] & w10 & Haud & Hd). injection Hd as <-.
  assert (w_db w10 = w_db w9 ∧ w_cache w10 = w_cache w9) as [Hdb10 Hc10].
  { pose proof (for_each_inv (λ w2, w_db w2 = w_db w9 ∧ w_cache w2 = w_cache w9)
      (λ l, audit (UrlDeleted (sc_value (link_short_code l)) (ou_value (link_original_url l))))
      (filter (owned_by i) (urls (w_db w))) w9) as Hinv.
    rewrite Haud in Hinv. apply Hinv; [|done]. intros x w2 _ [? ?]. done. }
  cbn. rewrite Hdb10 Hdb9 Hdb Hc10. replace d2 with (delete_user i d1).2 by (by rewrite E).
  split; [by apply delete_user_no_trace|]. split; [|intros l Hl Ho; apply Hforg].
  - rewrite /delete_user decide_True //.
  - by apply list_elem_of_filter.
Qed.
End deletion.

(** ** A small deployment *)

Lemma has_administrator_count d :
  has_administrator d ↔ 0 < count_active_with_permission ADMIN_ALL None None d.
Proof.
  rewrite count_active_pos. split.
  - intros (m & Hm & Ha & r & Hr & Hw & Hp). exists m. split_and!; [done..|by exists r].
  - intros (m & Hm & Ha & _ & r & Hr & Hw & Hp & _). exists m. split_and!; [done..|by exists r].
Qed.

Module AdminDemo.
Import Demo.
Instance secrets : SecretTokens := λ _ n, repeat 65 (S n).
Instance bcrypt : Bcrypt := {|
  gensalt _ := [];
  hashpw b _ := [40 + len b];
  checkpw b h := Some (bool_decide (h = [40 + len b]));
|}.
Instance mail : MailQueue Cache := CeleryMail (λ _ _, true).

Definition all_permission : Permission := MkPermission (lit "p0") ADMIN_ALL (lit "admin") (lit "all") None.
Definition admin_role : Role := MkRole (lit "r0") (lit "admin") None true [all_permission].
Definition user_role : Role := MkRole (lit "r1") (lit "user") None true [].
Definition boss_row : UserModel :=
  MkUserModel (lit "u0") (lit "boss@a.org") [61] [lit "r0"] true true 0 None.
Definition newcomer : UserModel :=
  MkUserModel (lit "u1") (lit "new@a.org") [61] [lit "r1"] true false 0 None.
Definition newcomers_link : Link :=
  MkLink (lit "l1") (MkUrlHash (lit "h")) (MkShortCode (lit "abcdef")) (MkOriginalUrl url)
    0 0 None (Some (MkOwnerID (lit "u1"))) None None.
Definition db : Database :=
  MkDatabase [newcomers_link] [boss_row; newcomer] [admin_role; user_role] [all_permission]
    [create_refresh_session 0 (lit "s1") (lit "u1") (lit "t1") DAY None] [] [] [] [].
Definition world : World Cache := MkWorld db None empty_cache 1 10 [] [] None.
Definition boss : RequestContext :=
  MkRequestContext (lit "req") None None
    (Some (MkCurrentUserInfo (lit "u0") (lit "boss@a.org") [lit "admin"] true)).
Definition settings : AuthSettings := MkAuthSettings (lit "user") 24 30 48 2 60 [40].

Lemma world_inv : AdminInv world.
Proof.
  constructor; [apply (bool_decide_unpack _); vm_compute; exact I| |].
  - intros k _. split; intros Hin;
      repeat (apply elem_of_cons in Hin as [Hin|Hin]; [discriminate Hin|]);
      by apply elem_of_nil in Hin.
  - apply has_administrator_count. vm_compute. reflexivity.
Qed.

(** The newcomer is made an administrator before confirming the address. *)
Definition promoted : World Cache := (update_user_roles (lit "u1") [lit "admin"] boss world).2.
Definition demoted : World Cache := (deactivate_user (lit "u0") boss promoted).2.
Definition swept : World Cache :=
  (clean_unverified_accounts settings boss (set_now (3 * DAY) demoted)).2.
End AdminDemo.

Section witnesses.
Import Demo AdminDemo.
#[local] Existing Instances folding uuids words url_rules generator calculator cache cache_laws.
#[local] Existing Instances secrets bcrypt mail.

Lemma confirmed_by_rows d :
  forallb (λ m, um_email_verified m || negb (bool_decide (row_has_permission (roles d) ADMIN_ALL None m)))
    (users d) = true → administrators_confirmed d.
Proof.
  intros Hall m (Hm & _ & r & Hr & Hw & Hp). rewrite forallb_forall in Hall.
  specialize (Hall m (proj1 (list_elem_of_In _ _) Hm)). apply orb_true_iff in Hall as [Hv|Hn]; [done|].
  apply negb_true_iff, bool_decide_eq_false in Hn. destruct Hn. rewrite /row_has_permission.
  apply Exists_exists. exists r. split; [by apply list_elem_of_In|done].
Qed.

(** The boss confirms the newcomer's address and makes them administrator;
    the newcomer then retires the boss, and the sweep runs. *)
Definition confirmed : World Cache := (confirm_user_email (lit "u1") boss world).2.
Definition succeeded : World Cache := (update_user_roles (lit "u1") [lit "admin"] boss confirmed).2.
Definition retired : World Cache := (deactivate_user (lit "u0") boss succeeded).2.
Definition tidied : World Cache := (clean_unverified_accounts settings boss (set_now (3 * DAY) retired)).2.

Lemma an_administrator_remains_witness :
  um_is_active <$> users (w_db tidied) = [false; true] ∧
  ∃ m, administrator (w_db tidied) m ∧ um_is_active m = true ∧ um_email_verified m = true.
Proof.
  split; [vm_compute; reflexivity|]. pose proof uuids_inj as Hinj.
  apply (an_administrator_remains settings world tidied world_inv).
  - apply confirmed_by_rows. vm_compute. reflexivity.
  - apply (rtc_l _ _ confirmed); [split; [apply step_confirm|apply confirmed_by_rows; vm_compute; reflexivity]|].
    apply (rtc_l _ _ succeeded); [split; [apply step_update_user_roles|apply confirmed_by_rows; vm_compute; reflexivity]|].
    apply (rtc_l _ _ retired); [split; [apply step_deactivate|apply confirmed_by_rows; vm_compute; reflexivity]|].
    apply (rtc_l _ _ (set_now (3 * DAY) retired)); [split; [apply step_time|apply confirmed_by_rows; vm_compute; reflexivity]|].
    apply rtc_once. split; [apply step_sweep_accounts|apply confirmed_by_rows; vm_compute; reflexivity].
Defined.

Lemma grants_stay_within_privileges_witness :
  is_ok (deactivate_user (lit "u1") boss world).1 = true ∧ may_act boss db (lit "u1").
Proof.
  split; [vm_compute; reflexivity|].
  destruct (grants_stay_within_privileges (C:=Cache) settings boss world)
    as (_ & _ & _ & _ & _ & Hdeactivate & _).
  destruct (deactivate_user (lit "u1") boss world) as [[u|e] w'] eqn:E.
  - exact (Hdeactivate _ _ _ E).
  - apply (f_equal (λ p, is_ok p.1)) in E. vm_compute in E. discriminate E.
Defined.

Definition deactivated := deactivate_user (lit "u1") boss world.

Lemma deactivation_closes_the_account_witness :
  match deactivated.1 with Ok u => ur_is_active u = false | Err _ => False end.
Proof.
  destruct deactivated as [[u|e] w'] eqn:E.
  - exact (proj1 (proj2 (deactivation_closes_the_account (lit "u1") boss world u w'
      (ai_ok _ _ world_inv) E))).
  - apply (f_equal (λ p, is_ok p.1)) in E. vm_compute in E. discriminate E.
Defined.

Lemma deletion_leaves_no_trace_witness :
  (delete_account (lit "u1") boss world).1 = Ok true ∧
  no_trace_of (lit "u1") (w_db (delete_account (lit "u1") boss world).2).
Proof.
  split; [vm_compute; reflexivity|].
  destruct (deletion_leaves_no_trace (lit "u1") boss world
    (delete_account (lit "u1") boss world).2) as (_ & Hno & _);
    [apply NoDup_singleton|vm_compute; reflexivity|exact Hno].
Defined.

(** The guard counts an account whose address was never confirmed: it cannot
    sign in, and the sweep of unconfirmed accounts deletes it.  From a sound
    service with one administrator, three requests that all succeed leave
    none. *)
Theorem unconfirmed_administrator_is_swept :
  AdminInv world ∧
  is_ok (update_user_roles (lit "u1") [lit "admin"] boss world).1 = true ∧
  is_ok (deactivate_user (lit "u0") boss promoted).1 = true ∧
  is_ok (clean_unverified_accounts settings boss (set_now (3 * DAY) demoted)).1 = true ∧
  ¬ has_administrator (w_db swept).
Proof.
  split; [exact world_inv|]. split_and!; try (vm_compute; reflexivity).
  rewrite has_administrator_count. vm_compute. discriminate.
Qed.
End witnesses.
