(* ===== verification/LinkHistories.v ===== *)
(** * Histories of the links

    One process with its caches, and everything that happens to the links
    while it runs: its own requests and tasks (creations, batches, redirects,
    click counts, deletions of links and of accounts, the sweep of expired
    links), the clock, a cache losing entries, and whatever the other
    processes that share the tables do ([step_elsewhere]).

    An invalidation reaches the cache of the process that performs it and no
    other ([docs/architecture.md], "That table describes one process").  So
    the guarantees are about the codes of [mine], those whose rows no other
    process deletes: for them a redirect answers the table.  For any other
    code [histories_keep_the_invariant] shows the remedy the documentation
    describes: the click of a redirect out of a stale entry finds no row and
    drops the entry.  [reused_code_is_answered_stale] shows where the remedy
    ends. *)

From S2P Require Import Prelude PyStr Exceptions ValueObjects Entities Policies CodeGen Cache.
From S2P Require Import MemoryCache Database LinkRepo UserRepo Visitor Links Demo LinkTheorems.
From S2P Require Import Batch BatchTheorems Sessions RateLimit Auth AuthTheorems Admin AdminTheorems.
From S2P Require Import AdminClaims.

(** ** Deleting an account *)

(** Nobody else's link names the account, so the cascade of the account's row
    finds nothing left to take. *)
Lemma owners_remain i l us : owner_exists l us = true → ¬ owned_by i l →
  owner_exists l (delete_where (λ m, um_id m = i) us) = true.
Proof.
  rewrite /owner_exists /owned_by. destruct (link_owner l) as [o|]; [|done]. simpl.
  intros Ho%bool_decide_eq_true Hn. apply bool_decide_eq_true.
  apply list_elem_of_fmap in Ho as (m & Hm & Hin). apply list_elem_of_fmap. exists m.
  split; [done|]. apply elem_of_delete_where. split; [done|]. intros Heq. apply Hn. by rewrite Hm Heq.
Qed.

Lemma delete_user_links i d : links_ok d → (∀ l, l ∈ urls d → ¬ owned_by i l) →
  urls (delete_user i d).2 = urls d ∧ links_ok (delete_user i d).2.
Proof.
  intros Hok Hn. pose proof Hok as (Ht & Ho & Hv). rewrite /delete_user. case_decide; [|done].
  set (d' := (_, _).2). assert (urls d' = urls d) as Hu.
  { apply filter_all. intros l Hl. apply owners_remain; [by apply Ho|by apply Hn]. }
  split; [done|]. rewrite /links_ok Hu. split; [done|]. split.
  - intros l Hl. split; [apply owners_remain; [by apply Ho|by apply Hn]|by apply Ho].
  - intros v [Hin Hv']%list_elem_of_filter. by apply Hv.
Qed.

Section deletion.
Context {C Stats : Type} `{CacheLaws C Stats} `{CaseFolding} `{UuidSupply}.
Implicit Types (w : World C).

(** The tables after the account and its links are gone. *)
Definition without_account (i : pystr) (d : Database) : Database :=
  (delete_user i (cascade_visits (set_urls (delete_where (owned_by i) (urls d)) d))).2.

Lemma without_account_links i d : links_ok d →
  urls (without_account i d) = delete_where (owned_by i) (urls d) ∧ links_ok (without_account i d).
Proof.
  intros Hok. rewrite /without_account.
  destruct (delete_user_links i (cascade_visits (set_urls (delete_where (owned_by i) (urls d)) d)))
    as [Hu Hl]; [by apply cascade_ok| |by rewrite Hu].
  intros l [_ Hl]%elem_of_delete_where. done.
Qed.

Lemma wp_url_audits (ls : list Link) (Q : result exn unit → World C → Prop) w :
  (∀ w', w_db w' = w_db w → w_txn w' = w_txn w → w_cache w' = w_cache w → w_uuids w' = w_uuids w →
         w_now w' = w_now w → Q (Ok tt) w') →
  wp (for_each (λ l, audit (UrlDeleted (sc_value (link_short_code l))
                              (ou_value (link_original_url l)))) ls) Q w.
Proof.
  revert w. induction ls as [|l ls IH]; intros w HQ; simpl; [by apply HQ|].
  wp_step. wp_step. apply IH. intros w' ? ? ? ? ?. by apply HQ.
Qed.

(** Whatever comes of it, only the account's own links go, and the cache
    forgets them. *)
Definition account_gone (i : pystr) w w' : Prop :=
  w_txn w' = w_txn w ∧ w_now w' = w_now w ∧ w_uuids w' = w_uuids w ∧
  (w_db w' = w_db w ∧ w_cache w' = w_cache w ∨
   w_db w' = without_account i (w_db w) ∧ shrinks (w_cache w) (w_cache w') ∧
   ∀ l, l ∈ urls (w_db w) → owned_by i l → forgotten (w_cache w') (link_short_code l)).

Lemma account_gone_refused i w w' : w_txn w' = w_txn w → w_now w' = w_now w →
  w_uuids w' = w_uuids w → w_db w' = w_db w → w_cache w' = w_cache w → account_gone i w w'.
Proof. intros. split_and!; [done..|]. by left. Qed.

Lemma drop_cached_links_frame ls w :
  wp (drop_cached_links ls) (λ _ w', w_txn w' = w_txn w ∧ w_now w' = w_now w ∧
    w_uuids w' = w_uuids w) w.
Proof.
  rewrite /drop_cached_links. destruct ls as [|l0 ls0] eqn:E; [by wp_step|]. rewrite -E. clear E.
  apply wp_try. wp_step.
  apply (wp_for_each (λ _ w', w_txn w' = w_txn w ∧ w_now w' = w_now w ∧ w_uuids w' = w_uuids w));
    [intros ds l w1 Hw1; by wp_steps|done|intros w1 Hw1; by wp_steps].
Qed.

Lemma wp_and {A} (p : M (World C) exn A) (Q R : result exn A → World C → Prop) w :
  wp p Q w → wp p R w → wp p (λ r w', Q r w' ∧ R r w') w.
Proof. rewrite /wp. by destruct (p w). Qed.

Lemma delete_account_spec i ctx w : NoDup (link_id <$> urls (w_db w)) → w_txn w = None →
  wp (delete_account i ctx) (λ _ w', account_gone i w w') w.
Proof.
  intros Hnd Htx. rewrite /delete_account. wp_step. wp_step. set (w1 := set_txn _ w).
  assert (account_gone i w (set_txn (w_txn w) w1)) as Hno by by apply account_gone_refused.
  apply wp_bind; apply wp_read_only; [apply _|]; intros [[]|?] _; [|assumption].
  apply wp_bind; apply wp_read_only; [apply _|]; intros [admin|?] _; [|assumption].
  apply wp_bind; apply wp_read_only; [destruct admin; apply _|]; intros [[]|?] _; [|assumption].
  wp_step. wp_step. cbn [tx_work tx_committed]. rewrite /delete_by_owner sweep_spec //.
  wp_step. wp_step. cbn [tx_work tx_committed].
  rewrite (surjective_pairing (delete_user i _)). destruct (delete_user i _).1; cbn [negb];
    [|wp_steps; by apply account_gone_refused].
  wp_steps. eapply wp_mono; [apply wp_and; [apply drop_cached_links_spec|apply drop_cached_links_frame]|].
  intros r w2 ((-> & Hd & Hs & Hf) & Ht & Hn & Hu). wp_step. apply wp_url_audits.
  intros w3 Hd3 Ht3 Hc3 Hu3 Hn3. wp_steps. simpl in *. split_and!; simpl; [congruence..|]. right.
  rewrite Hd3 Hd Hc3. split_and!; [done..|]. intros l Hl Ho. apply Hf. by apply list_elem_of_filter.
Qed.

Lemma delete_account_inv mine i ctx w : InvFor mine w → InvFor mine (delete_account i ctx w).2.
Proof.
  intros Hw. destruct (delete_account_spec i ctx w) as (Ht & _ & Hu & Hg);
    [apply (inv_links _ _ Hw)|apply (inv_txn _ _ Hw)|].
  destruct (delete_account i ctx w) as [r w']. simpl in *.
  destruct Hg as [[Hd Hc]|(Hd & Hs & Hf)]; [by apply (Inv_frame w)|].
  destruct Hw as [Hi Hok Hc Hfr].
  destruct (without_account_links i (w_db w) Hok) as [Hurls Hok'].
  constructor; [congruence|by rewrite Hd|rewrite Hd Hurls|rewrite Hd Hu].
  - eapply coherent_forget; [|by eapply coherent_shrinks]. intros l Hl.
    destruct (decide (owned_by i l)); [right; by apply Hf|left; by apply elem_of_delete_where].
  - eapply uuids_fresh_ids; [|done]. rewrite Hurls. intros l [Hl _]%elem_of_delete_where. by exists l.
Qed.
End deletion.

(** ** Steps *)

Section histories.
Context {C Stats : Type} `{CacheLaws C Stats} `{UrlRules} `{CodeGenerator} `{!GeneratorLaws}
        `{HashCalculator} `{CaseFolding} `{WordChars} `{UuidSupply} `{!Inj (=) (=) uuid4}
        `{!TaskQueue C} `{!QueueLaws}.
Context (cfg : LinkSettings) (bcfg : BatchSettings).
Implicit Types (w : World C).

(** One request or task of this process run to its end, the clock moving on,
    or a cache losing entries (a restart, an eviction, a lapse). *)
Inductive own_step : World C → World C → Prop :=
| step_create url ctx ttl custom w :
    own_step w (create_short_link cfg url ctx ttl custom w).2
| step_batch urls ctx w : own_step w (batch_create_links cfg bcfg urls ctx w).2
| step_redirect s ctx w : own_step w (redirect_link s ctx w).2
| step_delete s ctx enforce authorized w :
    own_step w (delete_link s ctx enforce authorized w).2
| step_delete_account i ctx w : own_step w (delete_account i ctx w).2
| step_stats s ctx w : own_step w (update_link_stats cfg s ctx w).2
| step_sweep w : own_step w (clean_expired_links w).2
| step_tick t w : w_now w <= t → own_step w (set_now t w)
| step_forget c w : shrinks (w_cache w) c → own_step w (set_cache c w).

Context (mine : ShortCode → Prop).

(** A step of this process, or the tables changing under it.  The latter
    stands for everything that other processes do, and for this one's
    requests that leave the links alone: the tables keep their constraints,
    the codes of [mine] keep their rows and destinations, and ids drawn
    elsewhere are not drawn again here. *)
Inductive step : World C → World C → Prop :=
| step_own w w' : own_step w w' → step w w'
| step_elsewhere d n w : links_ok d → (w_uuids w <= n)%nat → uuids_fresh d n →
    keeps_rows mine (urls (w_db w)) (urls d) → step w (set_uuids n (set_db d w)).

Lemma own_step_inv w w' : base_url cfg ≠ [] → InvFor mine w → own_step w w' → InvFor mine w'.
Proof.
  intros Hb Hw Hs. destruct Hs as [url ctx ttl custom w|urls ctx w|s ctx w|s ctx enf au w|i ctx w
    |s ctx w|w|t w|c w Hc].
  - by apply (create_short_link_spec cfg url ctx ttl custom w Hw Hb).
  - by apply batch_inv.
  - by apply (redirect_link_spec s ctx w Hw).
  - by apply (delete_link_spec s ctx enf au w Hw).
  - by apply delete_account_inv.
  - by apply (update_link_stats_spec cfg s ctx w Hw).
  - by apply (clean_expired_links_spec w Hw).
  - by apply (Inv_frame w).
  - by apply Inv_shrinks.
Qed.

Lemma step_inv w w' : base_url cfg ≠ [] → InvFor mine w → step w w' → InvFor mine w'.
Proof.
  intros Hb Hw Hs. destruct Hs as [w w' Hs|d n w Hd Hn Hf Hk]; [by eapply own_step_inv|].
  destruct Hw as [Hi _ Hc _]. constructor; [done..| |done]. by eapply coherent_keeps.
Qed.

Lemma history_inv w w' : base_url cfg ≠ [] → rtc step w w' → InvFor mine w → InvFor mine w'.
Proof. intros Hb. induction 1; eauto using step_inv. Qed.
End histories.

(** ** A stale entry *)

Section stale.
Context {C Stats : Type} `{CacheLaws C Stats} `{UrlRules} `{CodeGenerator} `{!GeneratorLaws}
        `{HashCalculator} `{CaseFolding} `{WordChars} `{UuidSupply} `{!TaskQueue C} `{!QueueLaws}.
Context (cfg : LinkSettings).
Implicit Types (w : World C).


(** Counting a click on a code without a row drops what is cached for it. *)
(** Nothing at all is asked of the cache. *)
Abbreviation Tables := (InvFor (λ _, False)).






End stale.

(** ** The guarantees *)

Section claims.
Context {C Stats : Type} `{CacheLaws C Stats} `{UrlRules} `{CodeGenerator} `{!GeneratorLaws}
        `{HashCalculator} `{CaseFolding} `{WordChars} `{UuidSupply} `{!Inj (=) (=) uuid4}
        `{!TaskQueue C} `{!QueueLaws}.
Context (cfg : LinkSettings) (bcfg : BatchSettings) (mine : ShortCode → Prop).
Implicit Types (w : World C).

(** C1: in a process whose cache keeps [CacheLaws] (the in-memory cache and
    none; Redis is not among them), after any history of its creations,
    batches, redirects, deletions of links and accounts, click counts, sweeps,
    waiting and cache losses, with whatever other processes do to the shared
    tables in between: a redirect of a code whose row no other process has
    deleted (any code, when this process alone deletes) answers, through the
    two cache levels, exactly what one query of the table answers at that
    moment: the destination of the live link with that code,
    [LinkNotFoundError] or [LinkExpiredError]. *)
Theorem redirect_answers_the_table w0 w s ctx :
  base_url cfg ≠ [] → InvFor mine w0 → rtc (step cfg bcfg mine) w0 w →
  (∀ k, code_to_look_up s = Ok k → mine k) →
  (redirect_link s ctx w).1 = resolve (w_now w) s (w_db w).
Proof.
  intros Hb Hw Hs Hm. apply (history_inv cfg bcfg mine w0 w Hb Hs) in Hw.
  by apply (redirect_link_spec s ctx w Hw).
Qed.

End claims.

(** ** Two processes on one database *)

Module TwoProcesses.
Import Demo BatchDemo.
#[local] Existing Instances Demo.folding Demo.words Demo.uuids Demo.uuids_inj Demo.url_rules
  Demo.generator Demo.calculator Demo.cache Demo.cache_laws.
#[local] Instance queue : TaskQueue Cache := null_enqueue link_settings.
#[local] Instance queue_laws : QueueLaws := null_queue_laws link_settings.

Definition promo : pystr := lit "promo1".
Definition promo_code : ShortCode := MkShortCode promo.
Definition other_url : pystr := lit "https://example.org/elsewhere".
Definition everything (k : ShortCode) : Prop := True.

(** The serving process makes a link under a chosen code and follows it. *)
Definition made : World Cache :=
  (create_short_link link_settings Demo.url Demo.guest 0 (Some promo) (Demo.world empty_db)).2.
Definition followed : World Cache := (redirect_link promo Demo.guest made).2.
(** Another process, with a cache of its own, deletes it. *)
Definition elsewhere : World Cache :=
  (delete_link promo Demo.guest false None (set_cache empty_cache followed)).2.

Lemma empty_for mine : InvFor mine (Demo.world empty_db).
Proof.
  constructor; [done| |intros k e _ [He|(l & Hl & _)]; by vm_compute in *|by intros m l _ Hl%elem_of_nil].
  split; [apply table_ok_nil|]. split; intros x Hx%elem_of_nil; done.
Qed.

Lemma made_and_followed mine : rtc (step link_settings batch_settings mine) (Demo.world empty_db) followed.
Proof.
  eapply rtc_l; [apply step_own, (step_create _ _ Demo.url Demo.guest 0 (Some promo))|].
  apply rtc_once. apply step_own, (step_redirect _ _ promo Demo.guest).
Qed.

Lemma redirect_answers_the_table_witness :
  (redirect_link promo Demo.guest followed).1 = Ok Demo.url.
Proof.
  rewrite (redirect_answers_the_table link_settings batch_settings everything (Demo.world empty_db) followed);
    [vm_compute; reflexivity|discriminate|apply empty_for|apply made_and_followed|done].
Defined.



(** Another process deletes the code and gives it to another destination.
    The row is there to count the clicks on, so the serving process never
    learns of it: it goes on answering the old destination, and counts the
    visits on the new link. *)
Definition reused : World Cache :=
  (create_short_link link_settings other_url Demo.guest 0 (Some promo) elsewhere).2.
Definition serving : World Cache := set_uuids (w_uuids reused) (set_db (w_db reused) followed).
Theorem reused_code_is_answered_stale :
  let again := (redirect_link promo Demo.guest serving).2 in
  let once_more := (redirect_link promo Demo.guest again).2 in
  resolve start promo (w_db serving) = Ok other_url ∧
  (redirect_link promo Demo.guest serving).1 = Ok Demo.url ∧
  (redirect_link promo Demo.guest again).1 = Ok Demo.url ∧
  (redirect_link promo Demo.guest once_more).1 = Ok Demo.url ∧
  (link_clicks <$> find_by_code promo_code (urls (w_db once_more))) = Some 2.
Proof. vm_compute. done. Qed.
End TwoProcesses.
