(* ===== verification/VisitHistory.v ===== *)
(** * The history of visits

    Every step of [LinkHistories.own_step] (creations, batches, redirects,
    click counts, deletions of links and of accounts, sweeps) and the nightly
    task, in any order: the tables keep standing for the log of visits to the
    links that still exist.  [log_after] says what the log is; it appends the
    visits a request stores and drops those of links that are gone. *)

From S2P Require Import Prelude PyStr Exceptions ValueObjects Entities Policies CodeGen Cache.
From S2P Require Import MemoryCache Database LinkRepo UserRepo Visitor RollUp Visits VisitTheorems.
From S2P Require Import Links Demo LinkTheorems Batch BatchTheorems Sessions RateLimit Auth AuthTheorems Admin AdminTheorems AdminClaims LinkHistories.

(** ** What an operation does to the visits *)

Abbreviation ids d := (link_id <$> urls d).

(** It stores visits of this instant and removes no link, or it removes links
    and the rows that name them. *)
Inductive visit_change (now : Z) (d d' : Database) : Prop :=
| visits_grow new :
    link_visits d' = link_visits d ++ new → link_visit_days d' = link_visit_days d →
    (∀ i, i ∈ ids d → i ∈ ids d') →
    Forall (λ v, lv_occurred_at v = now ∧ lv_link_id v ∈ ids d') new → visit_change now d d'
| visits_cascade :
    link_visits d' = filter (λ v, lv_link_id v ∈ ids d') (link_visits d) →
    link_visit_days d' = filter (λ r, vd_link_id r ∈ ids d') (link_visit_days d) →
    visit_change now d d'.

Lemma visits_same now d : visit_change now d d.
Proof. apply (visits_grow _ _ _ []); [by rewrite app_nil_r|done..|constructor]. Qed.

Lemma visits_cascaded now t d : visit_change now d (cascade_visits (set_urls t d)).
Proof. by apply visits_cascade. Qed.

Lemma cascade_users_visits d :
  link_visits (cascade_users d) = filter (λ v, lv_link_id v ∈ ids (cascade_users d)) (link_visits d) ∧
  link_visit_days (cascade_users d) =
    filter (λ r, vd_link_id r ∈ ids (cascade_users d)) (link_visit_days d) ∧
  ∀ i, i ∈ ids (cascade_users d) → i ∈ ids d.
Proof.
  split; [done|]. split; [done|]. intros i (l & -> & [_ Hl]%list_elem_of_filter)%list_elem_of_fmap.
  apply list_elem_of_fmap. by exists l.
Qed.

Lemma without_account_visits now i d : visit_change now d (without_account i d).
Proof.
  rewrite /without_account /delete_user. case_decide; [|apply visits_cascaded].
  set (d1 := set_users _ _). cbn [snd]. destruct (cascade_users_visits d1) as (Hv & Hd & Hsub).
  assert (link_visits d1 = filter (λ v, lv_link_id v ∈ ids d1) (link_visits d)) as Hv1 by done.
  assert (link_visit_days d1 = filter (λ v, vd_link_id v ∈ ids d1) (link_visit_days d)) as Hd1 by done.
  clearbody d1. apply visits_cascade.
  - rewrite Hv Hv1. apply list_filter_filter_l. intros v. apply Hsub.
  - rewrite Hd Hd1. apply list_filter_filter_l. intros v. apply Hsub.
Qed.

(** The log after an operation. *)
Definition log_after (d d' : Database) (log : list LinkVisit) : list LinkVisit :=
  filter (λ v, lv_link_id v ∈ ids d') (log ++ drop (length (link_visits d)) (link_visits d')).

Lemma folded_records log raw days S F now new :
  Folded lv_link_id lv_occurred_at tally log raw days S F → F <= now → 0 <= now →
  Forall (λ v, lv_occurred_at v = now) new →
  Folded lv_link_id lv_occurred_at tally (log ++ new) (raw ++ new) days S F.
Proof.
  intros Hf HF H0. revert log raw Hf. induction new as [|v new IH]; intros log raw Hf Hn.
  { by rewrite !app_nil_r. }
  apply Forall_cons_iff in Hn as [Hv Hn].
  rewrite (_ : log ++ v :: new = (log ++ [v]) ++ new); [|by rewrite -(assoc_L app)].
  rewrite (_ : raw ++ v :: new = (raw ++ [v]) ++ new); [|by rewrite -(assoc_L app)].
  apply IH; [|done]. apply folded_record; [done|rewrite Hv; lia..].
Qed.

Lemma visit_change_inv now log d d' :
  VisitInv log now d → visit_change now d d' → VisitInv (log_after d d' log) now d'.
Proof.
  intros [H0 Hl (S & F & Hf & HF)] Hc. pose proof (midnight_bounds now).
  destruct Hc as [new Hv Hd Hids Hnew|Hv Hd].
  - assert (log_after d d' log = log ++ new) as ->.
    { rewrite /log_after Hv drop_app_length. apply filter_all.
      intros v [Hin|Hin]%elem_of_app; [by apply Hids, Hl|].
      rewrite Forall_elem in Hnew. by apply Hnew. }
    split; [done| |].
    + intros v [Hin|Hin]%elem_of_app; [by apply Hids, Hl|].
      rewrite Forall_elem in Hnew. by apply Hnew.
    + exists S, F. split; [|done]. rewrite Hv Hd. apply (folded_records _ _ _ _ _ now); [done|lia|done|].
      eapply List.Forall_impl; [|exact Hnew]. by intros v [? _].
  - assert (log_after d d' log = filter (λ v, lv_link_id v ∈ ids d') log) as ->.
    { rewrite /log_after drop_ge ?app_nil_r //. rewrite Hv. apply length_filter. }
    split; [done|by intros v [? _]%list_elem_of_filter|].
    exists S, F. split; [|done]. rewrite Hv Hd.
    apply (folded_keep _ _ _ (λ i, i ∈ ids d')) in Hf. by rewrite filter_of_fmap in Hf.
Qed.

(** ** The requests *)

Section requests.
Context {C Stats : Type} `{CacheLaws C Stats} `{UrlRules} `{CodeGenerator} `{!GeneratorLaws}
        `{HashCalculator} `{CaseFolding} `{WordChars} `{UuidSupply} `{!Inj (=) (=) uuid4}.
Context (cfg : LinkSettings) (bcfg : BatchSettings).
Implicit Types (w : World C).

(** The instant and the tables an operation leaves. *)
Definition changed w w' : Prop :=
  w_now w' = w_now w ∧ visit_change (w_now w) (w_db w) (w_db w').

Lemma update_link_stats_visits s ctx w : wp (update_link_stats cfg s ctx) (λ _ w', changed w w') w.
Proof.
  rewrite /update_link_stats /changed.
  destruct (new_ShortCode s) as [k|e]; wp_steps; [|by split; [|apply visits_same]].
  rewrite /count_click /increment_clicks /=. case_decide as Hz.
  - wp_steps. split; [done|apply visits_same].
  - set (t := update_where _ _ _).
    assert (ids (set_urls t (w_db w)) = ids (w_db w)) as Hids.
    { simpl. by rewrite update_where_key. }
    wp_step. destruct (record_visits cfg); wp_steps.
    + rewrite /record_visit. wp_steps. cbn [tx_work urls set_urls].
      destruct (find_by_code k t) as [l|] eqn:Hl; wp_steps; (split; [done|]).
      * simpl. apply (visits_grow _ _ _ [record (w_now w) (uuid4 (w_uuids w)) (link_id l)
          (remote_addr ctx) (user_agent ctx)]); [done|done|by rewrite /= -Hids|].
        constructor; [|constructor]. rewrite /record. destruct (classify_client _) as [[dv br] bot].
        split; [done|]. simpl. apply find_by_code_Some in Hl as [Hl _]. apply list_elem_of_fmap. by exists l.
      * simpl. apply (visits_grow _ _ _ []); [by rewrite app_nil_r|done|by rewrite Hids|constructor].
    + split; [done|]. apply (visits_grow _ _ _ []); [by rewrite app_nil_r|done|by rewrite Hids|constructor].
Qed.

(** Handing a visit over stores it now or leaves it for later. *)
Class QueueVisits `{TaskQueue C} : Prop :=
  enqueue_visits code ctx w : wp (enqueue_link_accessed code ctx) (λ _ w', changed w w') w.


Lemma null_queue_visits : @QueueVisits (null_enqueue cfg).
Proof.
  intros code ctx w. rewrite /enqueue_link_accessed /null_enqueue. wp_step.
  eapply wp_mono; [apply update_link_stats_visits|]. by intros [[]|e] w' Hw'; wp_steps.
Qed.

Lemma changed_same w w' : w_now w' = w_now w → w_db w' = w_db w → changed w w'.
Proof. intros Hn Hd. split; [done|]. rewrite Hd. apply visits_same. Qed.

Lemma celery_queue_visits delay ri : @QueueVisits (celery_enqueue delay ri).
Proof.
  intros code ctx w. rewrite /enqueue_link_accessed /celery_enqueue. wp_step.
  eapply wp_mono; [apply claim_attempt_spec|]. intros r w' (b & -> & Hw').
  assert (w_now w' = w_now w ∧ w_db w' = w_db w) as [Hn Hd] by (by destruct Hw' as [->| ->]).
  destruct b; cbn [negb]; wp_steps; [case_match; wp_steps|]; by apply changed_same.
Qed.

Section queue.
Context `{!TaskQueue C} `{!QueueVisits}.

Lemma answer_visits code url ctx w : wp (answer code url ctx) (λ _ w', changed w w') w.
Proof.
  rewrite /answer. wp_step. eapply wp_mono; [apply enqueue_visits|].
  intros [[]|e] w' Hw'; [|done]. by wp_steps.
Qed.

Lemma redirect_link_visits s ctx w : wp (redirect_link s ctx) (λ _ w', changed w w') w.
Proof.
  assert (∀ w1 code url, w_now w1 = w_now w → w_db w1 = w_db w →
    wp (answer code url ctx) (λ _ w', changed w w') w1) as Hans.
  { intros w1 code url Hn Hd. eapply wp_mono; [apply answer_visits|].
    intros r w' [Hn' Hc]. rewrite Hn Hd in Hn', Hc. by split. }
  rewrite /redirect_link. wp_steps.
  destruct (code_to_look_up s) as [k|e]; [|by apply changed_same].
  wp_steps. apply wp_with_cache. intros r c _. destruct r as [e|].
  { destruct (cr_is_expired _ _); [wp_steps; by apply changed_same|by apply Hans]. }
  wp_step. apply wp_with_cache. simpl. intros r c' _. destruct r as [l|].
  - destruct (is_expired _ _); wp_steps; [by apply changed_same|by apply Hans].
  - wp_step. rewrite /redirect_from_db. wp_steps. simpl.
    destruct (find_by_code k (urls (w_db w))) as [l|]; [|wp_steps; by apply changed_same].
    destruct (is_expired _ _); wp_steps; [by apply changed_same|by apply Hans].
Qed.

Lemma clean_expired_links_visits w : Inv w → wp clean_expired_links (λ _ w', changed w w') w.
Proof.
  intros [Hi Hok Hc Hu]. rewrite /clean_expired_links. wp_steps.
  cbn [tx_work]. rewrite /delete_expired sweep_spec; [|apply Hok]. wp_steps.
  eapply wp_mono; [apply forget_all|]. intros r w' (-> & c & -> & _ & _).
  assert (visit_change (w_now w) (w_db w)
    (cascade_visits (set_urls (delete_where (expired_at (w_now w)) (urls (w_db w))) (w_db w)))) as Hch
    by apply visits_cascaded.
  destruct (filter _ _); wp_steps; by split.
Qed.

Lemma batch_visits urls ctx w r w' : batch_outcome cfg urls ctx w r w' →
  visit_change (w_now w) (w_db w) (w_db w').
Proof.
  destruct r as [resp|e]; [|intros ->; apply visits_same].
  intros (owner & groups & saved & [-> _ _ _ _] & _).
  apply (visits_grow _ _ _ []); [by rewrite app_nil_r|done| |constructor].
  intros i Hi. simpl. rewrite fmap_app. apply elem_of_app. by left.
Qed.

Lemma step_visits `{!QueueLaws} w w' log : base_url cfg ≠ [] → Inv w → own_step cfg bcfg w w' →
  VisitInv log (w_now w) (w_db w) → VisitInv (log_after (w_db w) (w_db w') log) (w_now w') (w_db w').
Proof.
  intros Hb Hw Hs Hv.
  assert (∀ w', changed w w' → VisitInv (log_after (w_db w) (w_db w') log) (w_now w') (w_db w')) as Hch.
  { intros w1 [-> Hc]. by apply visit_change_inv. }
  destruct Hs as [url ctx ttl custom w|us ctx w|s ctx w|s ctx enf au w|i ctx w|s ctx w|w|t w Ht|c w Hc].
  - destruct (create_short_link_spec cfg url ctx ttl custom w Hw Hb) as (Ho & _ & Hn & _).
    apply Hch. split; [done|]. rewrite /create_outcome in Ho.
    destruct (create_short_link _ _ _ _ _ w) as [[resp|e] w1]; simpl in *; [|rewrite Ho; apply visits_same].
    destruct Ho as (u & h & o & ch & _ & l & _ & Hd). destruct (slr_is_new resp); [|destruct Hd as [-> _]; apply visits_same].
    destruct Hd as [-> _]. apply (visits_grow _ _ _ []); [by rewrite app_nil_r|done| |constructor].
    intros i Hi. simpl. rewrite fmap_app. apply elem_of_app. by left.
  - destruct (batch_stores cfg bcfg us ctx w Hb (proj1 (inv_links _ _ Hw))) as (Ho & _ & Hn & _).
    apply Hch. split; [done|]. by apply batch_visits in Ho.
  - apply Hch, (redirect_link_visits s ctx w).
  - destruct (delete_link_spec s ctx enf au w Hw) as (_ & Hn & Hd). apply Hch. split; [done|].
    destruct (code_to_look_up s) as [k|e]; [|destruct Hd as [_ ->]; apply visits_same].
    rewrite /deletion in Hd. destruct (delete_link _ _ _ _ w) as [[[]|e] w1]; simpl in *.
    + destruct Hd as (l & _ & -> & _). rewrite /delete_link_row /repo_delete /=. apply visits_cascaded.
    + destruct Hd as [-> _]. apply visits_same.
    + rewrite Hd. apply visits_same.
  - destruct (delete_account_spec i ctx w) as (_ & Hn & _ & Hd);
      [apply (inv_links _ _ Hw)|apply (inv_txn _ _ Hw)|].
    apply Hch. split; [done|]. destruct Hd as [[-> _]|[-> _]]; [apply visits_same|].
    apply without_account_visits.
  - apply Hch, (update_link_stats_visits s ctx w).
  - by apply Hch, (clean_expired_links_visits w).
  - specialize (Hch w (changed_same _ _ eq_refl eq_refl)) as [Hnow Hl (S & F & Hf & HF)].
    split; [simpl; lia|done|]. exists S, F. split; [done|]. simpl. etrans; [done|by apply midnight_mono].
  - by apply Hch, changed_same.
Qed.

(** ** Histories *)

(** One request, or the nightly task. *)
Inductive visit_step : World C → World C → Prop :=
| visit_request w w' : own_step cfg bcfg w w' → visit_step w w'
| visit_roll_up retention_days w : visit_step w (roll_up_visits retention_days w).2.

Inductive history (w0 : World C) : list LinkVisit → World C → Prop :=
| history_start : history w0 [] w0
| history_step log w w' : history w0 log w → visit_step w w' →
    history w0 (log_after (w_db w) (w_db w') log) w'.

(** A service that has not been visited. *)
Record Unvisited w : Prop := MkUnvisited {
  uv_inv : Inv w;
  uv_now : 0 <= w_now w;
  uv_visits : link_visits (w_db w) = [];
  uv_days : link_visit_days (w_db w) = [];
}.

Lemma unvisited_inv w : Unvisited w → VisitInv [] (w_now w) (w_db w).
Proof.
  intros [_ Hnow Hv Hd]. split; [done|set_solver|]. exists 0, 0. rewrite Hv Hd. split; [apply folded_init|].
  rewrite (_ : 0 = midnight 0); [by apply midnight_mono|done].
Qed.

Lemma roll_up_inv w raw days : Inv w → (∀ v, v ∈ raw → v ∈ link_visits (w_db w)) →
  Inv (set_db (set_link_visits raw (set_link_visit_days days (w_db w))) w).
Proof.
  intros [Hi (Ht & Ho & Hv) Hc Hu] Hsub. constructor; [done| |done|done].
  split; [done|]. split; [done|]. simpl. intros v Hin. by apply Hv, Hsub.
Qed.

Lemma history_keeps `{!QueueLaws} w0 log w : base_url cfg ≠ [] → Unvisited w0 → history w0 log w →
  Inv w ∧ VisitInv log (w_now w) (w_db w).
Proof.
  intros Hb Hw0. induction 1 as [|log w w' _ [IHi IHv] Hs].
  { split; [apply Hw0|by apply unvisited_inv]. }
  destruct Hs as [w w' Hs|n w].
  - split; [by eapply own_step_inv|by apply step_visits].
  - pose proof (roll_up_visits_spec log w n IHv) as (f & sw & raw & days & _ & Hw' & _ & _ & Hsub & Hv & _).
    rewrite Hw' in Hv |- *. split.
    + apply roll_up_inv; [done|]. intros v Hin. by eapply elem_of_sublist.
    + rewrite /log_after /= drop_ge ?app_nil_r; [|by apply sublist_length].
      rewrite filter_all; [|intros v Hin; by apply IHv]. destruct Hv as [S Hf].
      split; [apply IHv|apply IHv|]. by exists S, (midnight (w_now w)).
Qed.
End queue.
End requests.

(** ** The guarantees *)

Section claims.
Context {C Stats : Type} `{CacheLaws C Stats} `{UrlRules} `{CodeGenerator} `{!GeneratorLaws}
        `{HashCalculator} `{CaseFolding} `{WordChars} `{UuidSupply} `{!Inj (=) (=) uuid4}
        `{!TaskQueue C} `{!QueueLaws} `{!QueueVisits}.
Context (cfg : LinkSettings) (bcfg : BatchSettings).
Implicit Types (w : World C).

Lemma read_only_world {A} (f : Database → A) w :
  with_uow (C:=C) (read f) w = (Ok (f (w_db w)), w).
Proof. by destruct w. Qed.

(** C38: After any history of requests and nightly tasks, with any retention,
    the daily series of one link, one owner or the whole service has one
    point per day, and the point of a day counts exactly the visits of that
    day to the links that still exist, robots apart, whether the day is still
    raw, folded, or long swept. *)
Theorem daily_series_reads_the_log w0 log w days link_id_ owner_id :
  base_url cfg ≠ [] → Unvisited w0 → history cfg bcfg w0 log w → 1 <= days <= 730 →
  ∃ points, daily days link_id_ owner_id w = (Ok points, w) ∧ len points = days ∧
    ∀ i, (i < Z.to_nat days)%nat →
      let day := midnight (w_now w) - (days - 1 - Z.of_nat i) * DAY in
      let here := on_the_day (w_db w) link_id_ owner_id day log in
      points !! i = Some (MkVisitBucket day (len here) (bots_of here)).
Proof.
  intros Hb Hw0 Hh Hdays. destruct (history_keeps cfg bcfg w0 log w Hb Hw0 Hh) as [Hw [_ _ (S & F & Hf & _)]].
  rewrite /daily (_ : (1 <=? days) && (days <=? 730) = true); [|lia].
  set (start := midnight (w_now w) + DAY - days * DAY).
  assert (DAY | start) as Hs.
  { rewrite /start. apply Z.divide_sub_r; [|by eexists].
    apply Z.divide_add_r; [apply midnight_divide|by exists 1]. }
  assert (midnight (w_now w) + DAY = start + days * DAY) as Hu by (rewrite /start; lia).
  exists (daily_totals (w_db w) start (start + days * DAY) link_id_ owner_id). split_and!.
  - rewrite /mbind /M_bind /= -Hu. apply read_only_world.
  - rewrite /daily_totals (_ : midnight start = start); last first.
    { apply midnight_unique; [done|]. rewrite /DAY /HOUR /MINUTE /SECOND. lia. }
    rewrite (_ : start + days * DAY - start = days * DAY); [|lia].
    rewrite ceil_days_whole /len /series length_fmap length_seq. lia.
  - intros i Hi. pose proof (proj1 (proj1 (inv_links _ _ Hw))) as Hids.
    rewrite (daily_reads_the_log _ Hids link_id_ owner_id log S F Hf start days i Hs Hi).
    assert (start + Z.of_nat i * DAY = midnight (w_now w) - (days - 1 - Z.of_nat i) * DAY) as ->
      by (rewrite /start; lia). done.
Qed.

(** The nightly task ends without an error after any history; it leaves no
    raw visit older than the retention and takes none younger, changes
    nothing but the two visit tables, and a second run at the same instant
    finds nothing to fold and nothing to sweep. *)
Theorem nightly_task_sweeps_and_folds w0 log w retention_days :
  base_url cfg ≠ [] → Unvisited w0 → history cfg bcfg w0 log w →
  ∃ folded swept raw days,
    let w' := set_db (set_link_visits raw (set_link_visit_days days (w_db w))) w in
    roll_up_visits retention_days w = (Ok (folded, swept), w') ∧
    (0 < retention_days → ∀ v, v ∈ raw ↔
       v ∈ link_visits (w_db w) ∧ midnight (w_now w) - retention_days * DAY <= lv_occurred_at v) ∧
    (retention_days <= 0 → raw = link_visits (w_db w)) ∧
    roll_up_visits retention_days w' = (Ok (0, 0), w').
Proof.
  intros Hb Hw0 Hh. destruct (history_keeps cfg bcfg w0 log w Hb Hw0 Hh) as [Hw Hv].
  pose proof (roll_up_visits_spec log w retention_days Hv)
    as (folded & swept & raw & days & Hr & Hw' & _ & _ & Hsub & Hset & Hlo & Hhi).
  destruct (roll_up_visits retention_days w) as [r w1] eqn:E. simpl in Hr, Hw', Hset. subst r.
  set (all_days := link_visit_days (w_db w) ++ days) in *.
  exists folded, swept, raw, all_days. cbv zeta. rewrite -Hw'. split_and!; [done| | |].
  - intros Hpos v. split; [|by intros [? ?]; apply Hhi].
    intros Hin. split; [by eapply elem_of_sublist|by apply Hlo].
  - intros Hz. destruct (roll_up_days_spec _ _ _ Hv) as (n & rows & S & Hroll & _ & _).
    revert E. rewrite /roll_up_visits (_ : 0 <? retention_days = false); [|lia].
    rewrite /mbind /M_bind /mret /M_ret /with_uow /update /commit /= Hroll /=. intros [= _ _ <-].
    apply (f_equal (λ x, link_visits (w_db x))) in Hw'. simpl in Hw'. by rewrite -Hw'.
  - assert (w_now w1 = w_now w) as Hn by (by rewrite Hw').
    rewrite -Hn in Hset. apply roll_up_days_again in Hset as Hagain.
    rewrite /roll_up_visits /mbind /M_bind /mret /M_ret /with_uow /update /commit /= Hagain /=.
    destruct (Z.ltb_spec 0 retention_days) as [Hpos|Hz]; [|by destruct w1].
    assert (∀ v, v ∈ link_visits (w_db w1) → ¬ lv_occurred_at v < midnight (w_now w1) - retention_days * DAY)
      as Hcut. { rewrite Hw' /=. intros v Hin. specialize (Hlo Hpos v Hin). lia. }
    rewrite /delete_raw_before /= /count_where filter_none // /delete_where filter_all //=.
    by destruct w1 as [[]].
Qed.

(** The chart of a period counts every visit of its window once: its
    total and its robots are those of the window and the scope asked for, the
    points and both breakdowns add up to the total, and in a chart drawn in
    days each point is one calendar day of UTC, the last one today. *)
Theorem chart_counts_every_visit_once w0 log w period span buckets link_id_ owner_id :
  base_url cfg ≠ [] → Unvisited w0 → history cfg bcfg w0 log w → period_of period = Some (span, buckets) →
  ∃ s, get_visit_stats period link_id_ owner_id w = (Ok s, w) ∧
    (vs_since s, vs_until s) = span_of (w_now w) span buckets ∧
    let rows := asked_for (w_db w) (vs_since s) (vs_until s) link_id_ owner_id (link_visits (w_db w)) in
    vs_total s = len rows ∧ vs_bots s = bots_of rows ∧
    sum_of vb_total (vs_buckets s) = len rows ∧ len (vs_buckets s) = buckets ∧
    sum_of br_total (vs_devices s) = len rows ∧ sum_of br_total (vs_browsers s) = len rows ∧
    (span = buckets * DAY → ∀ i, (i < Z.to_nat buckets)%nat →
       let day := midnight (w_now w) - (buckets - 1 - Z.of_nat i) * DAY in
       let here := on_the_day (w_db w) link_id_ owner_id day (link_visits (w_db w)) in
       vs_buckets s !! i = Some (MkVisitBucket day (len here) (bots_of here))).
Proof.
  intros Hb Hw0 Hh Hp. destruct (history_keeps cfg bcfg w0 log w Hb Hw0 Hh) as [Hw _].
  pose proof (proj1 (proj1 (inv_links _ _ Hw))) as Hids.
  destruct (span_of (w_now w) span buckets) as [since until] eqn:Hspan.
  exists (summary (w_db w) since until buckets link_id_ owner_id).
  destruct (summary_rows _ Hids since until buckets link_id_ owner_id) as (Ht & Hbo & Hde & Hbr & Hn & Hi).
  pose proof (period_buckets _ _ _ Hp) as Hpos. rewrite Z.max_r in Hn, Hi; [|lia..].
  cbv zeta. split_and!; try done.
  - rewrite /get_visit_stats Hp /mbind /M_bind /= Hspan. apply read_only_world.
  - intros -> i Hlt. rewrite Hi //. rewrite whole_days_span // in Hspan. injection Hspan as <- <-.
    set (start := midnight (w_now w) + DAY - buckets * DAY).
    assert (midnight (w_now w) + DAY = start + buckets * DAY) as -> by (rewrite /start; lia).
    assert (DAY | start) as Hs.
    { rewrite /start. apply Z.divide_sub_r; [|by eexists].
      apply Z.divide_add_r; [apply midnight_divide|by exists 1]. }
    rewrite whole_days_width // asked_on_day //; [|lia].
    by rewrite -Z.mul_assoc -day_seconds (_ : start + Z.of_nat i * DAY =
      midnight (w_now w) - (buckets - 1 - Z.of_nat i) * DAY); [|rewrite /start; lia].
Qed.

(** The list of busiest links holds at most ten, the busiest first, each
    with the number of its visits in the window and scope asked for; a link
    of the table that is left out of it has no more visits than any link in
    it, and is left out only when the list is full. *)
Theorem busiest_links_are_listed w0 log w since until link_id_ owner_id :
  base_url cfg ≠ [] → Unvisited w0 → history cfg bcfg w0 log w →
  let top := top_links (w_db w) since until link_id_ owner_id in
  let visits := visits_of (w_db w) since until link_id_ owner_id in
  StronglySorted more_visited top ∧ len top <= 10 ∧
  (∀ e, e ∈ top → ∃ l, l ∈ urls (w_db w) ∧ br_label e = sc_value (link_short_code l) ∧
     br_total e = len (visits l) ∧ visits l ≠ []) ∧
  ∀ l, l ∈ urls (w_db w) → visits l ≠ [] →
    MkVisitBreakdown (sc_value (link_short_code l)) (len (visits l)) ∈ top ∨
    len top = 10 ∧ ∀ e, e ∈ top → len (visits l) <= br_total e.
Proof.
  intros Hb Hw0 Hh. destruct (history_keeps cfg bcfg w0 log w Hb Hw0 Hh) as [Hw _].
  apply top_links_spec, Hw.
Qed.
End claims.

(** ** A link is created, followed, and a day goes by *)

Module VisitDemo.
Import Demo.
#[local] Existing Instances Demo.folding Demo.words Demo.uuids Demo.uuids_inj Demo.url_rules
  Demo.generator Demo.calculator Demo.cache Demo.cache_laws.
#[local] Instance queue : TaskQueue Cache := null_enqueue link_settings.
#[local] Instance queue_laws : QueueLaws := null_queue_laws link_settings.
#[local] Instance queue_visits : QueueVisits := null_queue_visits link_settings.

Definition w0 : World Cache := world empty_db.
Definition w1 := (create_short_link link_settings Demo.url guest 0 None w0).2.
Definition w2 := (redirect_link (lit "JoSz74") guest w1).2.
Definition w3 := set_now (start + DAY) w2.
Definition w4 := (roll_up_visits 90 w3).2.

Lemma unvisited : Unvisited w0.
Proof. split; [exact empty_inv|vm_compute; discriminate|reflexivity|reflexivity]. Qed.

Lemma demo_history : ∃ log, history link_settings BatchDemo.batch_settings w0 log w4.
Proof.
  eexists. eapply history_step; [|apply visit_roll_up].
  eapply history_step; [|apply visit_request, step_tick; vm_compute; discriminate].
  eapply history_step; [|apply visit_request, step_redirect].
  eapply history_step; [apply history_start|apply visit_request, step_create].
Qed.

Lemma daily_series_reads_the_log_witness : ∃ points,
  daily 2 None None w4 = (Ok points, w4) ∧ len points = 2 ∧ vb_total <$> points = [1; 0].
Proof.
  destruct demo_history as [log Hh].
  destruct (daily_series_reads_the_log link_settings BatchDemo.batch_settings w0 log w4 2 None None ltac:(discriminate) unvisited Hh
    ltac:(lia)) as (points & Hd & Hl & _).
  exists points. split; [exact Hd|]. split; [exact Hl|].
  apply (f_equal fst) in Hd. vm_compute in Hd. injection Hd as <-. reflexivity.
Defined.

Lemma nightly_task_sweeps_and_folds_witness :
  ∃ folded swept w', roll_up_visits 90 w3 = (Ok (folded, swept), w') ∧
    roll_up_visits 90 w' = (Ok (0, 0), w') ∧ folded = 1.
Proof.
  assert (∃ log, history link_settings BatchDemo.batch_settings w0 log w3) as [log Hh].
  { eexists. eapply history_step; [|apply visit_request, step_tick; vm_compute; discriminate].
    eapply history_step; [|apply visit_request, step_redirect].
    eapply history_step; [apply history_start|apply visit_request, step_create]. }
  destruct (nightly_task_sweeps_and_folds link_settings BatchDemo.batch_settings w0 log w3 90 ltac:(discriminate) unvisited Hh)
    as (folded & swept & raw & days & Hr & _ & _ & Hagain).
  exists folded, swept, (set_db (set_link_visits raw (set_link_visit_days days (w_db w3))) w3).
  split; [exact Hr|]. split; [exact Hagain|].
  apply (f_equal fst) in Hr. vm_compute in Hr. by injection Hr as <- _.
Defined.

Lemma chart_counts_every_visit_once_witness : ∃ s,
  get_visit_stats (lit "30d") None None w4 = (Ok s, w4) ∧ len (vs_buckets s) = 30 ∧ vs_total s = 1.
Proof.
  destruct demo_history as [log Hh].
  destruct (chart_counts_every_visit_once link_settings BatchDemo.batch_settings w0 log w4 (lit "30d") (30 * DAY) 30 None None
    ltac:(discriminate) unvisited Hh eq_refl) as (s & Hs & _ & _ & _ & _ & Hn & _).
  exists s. split; [exact Hs|]. split; [exact Hn|].
  apply (f_equal fst) in Hs. vm_compute in Hs. by injection Hs as <-.
Defined.

Lemma busiest_links_are_listed_witness :
  let top := top_links (w_db w4) start (start + DAY) None None in
  len top <= 10 ∧ top = [MkVisitBreakdown (lit "JoSz74") 1].
Proof.
  destruct demo_history as [log Hh]. split; [|vm_compute; reflexivity].
  apply (busiest_links_are_listed link_settings BatchDemo.batch_settings w0 log w4 start (start + DAY) None None
    ltac:(discriminate) unvisited Hh).
Defined.
End VisitDemo.
