(* ===== verification/RoleLoader.v ===== *)
(** * Loading roles and permissions

    [infrastructure/database/role_loader.py], [seed.py], the roles the service
    ships with ([infrastructure/configs/rbac/roles.yaml]) and the commands that
    load them ([infrastructure/cli/commands/database.py]).

    A file is what [yaml.safe_load] makes of it, restricted to the documented
    fields.  The loader writes to two tables; [Pass] holds them, the supply of identifiers
    and the report.  Names of one file are distinct when it gets to them, so a
    row it has added is never looked up again in the same pass. *)

From S2P Require Import Prelude PyStr Exceptions Entities Policies Database UserRepo Admin.

(** ** The file *)

Record PermDef := MkPermDef {
  pd_name : pystr;
  pd_resource : pystr;
  pd_action : pystr;
  pd_description : option (option pystr);
}.

(** [None] where the key is absent; a description may also be null. *)
Record RoleDef := MkRoleDef {
  rd_name : pystr;
  rd_description : option (option yaml_value);
  rd_is_system : option bool;
  rd_permissions : list pystr;
}.

Record RbacFile := MkRbacFile { rf_permissions : list PermDef; rf_roles : list RoleDef }.

(** ** The report *)

Record RegrantedRole := MkRegrantedRole {
  rg_name : pystr;
  rg_permissions_before : list pystr;
  rg_permissions_after : list pystr;
  rg_is_system : bool;
}.

Record LoadSummary := MkLoadSummary {
  permissions_created : list pystr;
  roles_created : list pystr;
  roles_left_alone : list pystr;
  roles_reprotected : list pystr;
  roles_regranted : list RegrantedRole;
}.

Definition empty_summary : LoadSummary := MkLoadSummary [] [] [] [] [].
Definition note_permission (n : pystr) (s : LoadSummary) : LoadSummary :=
  MkLoadSummary (permissions_created s ++ [n]) (roles_created s) (roles_left_alone s)
    (roles_reprotected s) (roles_regranted s).
Definition note_created (n : pystr) (s : LoadSummary) : LoadSummary :=
  MkLoadSummary (permissions_created s) (roles_created s ++ [n]) (roles_left_alone s)
    (roles_reprotected s) (roles_regranted s).
Definition note_left_alone (n : pystr) (s : LoadSummary) : LoadSummary :=
  MkLoadSummary (permissions_created s) (roles_created s) (roles_left_alone s ++ [n])
    (roles_reprotected s) (roles_regranted s).
Definition note_reprotected (n : pystr) (s : LoadSummary) : LoadSummary :=
  MkLoadSummary (permissions_created s) (roles_created s) (roles_left_alone s)
    (roles_reprotected s ++ [n]) (roles_regranted s).
Definition note_regranted (r : RegrantedRole) (s : LoadSummary) : LoadSummary :=
  MkLoadSummary (permissions_created s) (roles_created s) (roles_left_alone s)
    (roles_reprotected s) (roles_regranted s ++ [r]).

(** ** The pass *)

Record Pass := MkPass {
  ps_permissions : list Permission;
  ps_roles : list Role;
  ps_uuids : nat;
  ps_summary : LoadSummary;
}.

Section loader.
Context `{UuidSupply}.
Abbreviation L := (M Pass exn).

Definition set_ps_permissions (t : list Permission) (s : Pass) : Pass :=
  MkPass t (ps_roles s) (ps_uuids s) (ps_summary s).
Definition set_ps_roles (t : list Role) (s : Pass) : Pass :=
  MkPass (ps_permissions s) t (ps_uuids s) (ps_summary s).
Definition report (f : LoadSummary → LoadSummary) : L unit :=
  modify (λ s, MkPass (ps_permissions s) (ps_roles s) (ps_uuids s) (f (ps_summary s))).
Definition new_id : L pystr := λ s,
  (Ok (uuid4 (ps_uuids s)), MkPass (ps_permissions s) (ps_roles s) (S (ps_uuids s)) (ps_summary s)).

Definition named_twice (section : string) : exn :=
  invalid section "%(file)s names the %(section)s %(name)s more than once".

Definition refuse_duplicate_names (f : RbacFile) : result exn unit :=
  if negb (bool_decide (NoDup (pd_name <$> rf_permissions f))) then Err (named_twice "permissions")
  else if negb (bool_decide (NoDup (rd_name <$> rf_roles f))) then Err (named_twice "roles")
  else Ok tt.

(** The roles hold their permissions by reference: a changed row changes in
    every role that grants it. *)
Definition set_permission (p' p : Permission) : Permission :=
  if decide (perm_id p = perm_id p') then p' else p.
Definition with_permission_row (p' : Permission) (s : Pass) : Pass :=
  MkPass (set_permission p' <$> ps_permissions s)
    ((λ r, MkRole (role_id r) (role_name r) (role_description r) (role_is_system r)
             (set_permission p' <$> role_permissions r)) <$> ps_roles s)
    (ps_uuids s) (ps_summary s).

Definition new_permission (i : pystr) (def : PermDef) : Permission :=
  MkPermission i (pd_name def) (pd_resource def) (pd_action def) (mjoin (pd_description def)).

Definition upsert_permission (update_existing : bool) (def : PermDef) : L unit :=
  found ← gets (λ s, first (filter (λ p, perm_name p = pd_name def) (ps_permissions s)));
  match (found : option Permission) with
  | Some p =>
      if update_existing then
        modify (with_permission_row (MkPermission (perm_id p) (pd_name def) (pd_resource def) (pd_action def)
                  (default (perm_description p) (pd_description def))))
      else mret tt
  | None =>
      i ← new_id;
      modify (λ s, set_ps_permissions
        (ps_permissions s ++ [new_permission i def]) s);;
      report (note_permission (pd_name def))
  end.

(** Text of a description that was found valid. *)
Definition description_text (v : option yaml_value) : option pystr :=
  match v with Some (YStr s) => Some s | _ => None end.

(** [setattr] for every key of the definition. *)
Definition with_fields (def : RoleDef) (r : Role) : Role :=
  MkRole (role_id r) (rd_name def)
    (match rd_description def with None => role_description r | Some v => description_text v end)
    (default (role_is_system r) (rd_is_system def)) (role_permissions r).
Definition reprotected (r : Role) : Role :=
  MkRole (role_id r) (role_name r) (role_description r) true (role_permissions r).
Definition granting (perms : list Permission) (r : Role) : Role :=
  MkRole (role_id r) (role_name r) (role_description r) (role_is_system r) perms.

(** The row with this identifier becomes another. *)
Definition put_role (r' : Role) : L unit :=
  modify (λ s, set_ps_roles (update_where (λ r, role_id r = role_id r') (λ _, r') (ps_roles s)) s).

Definition upsert_role (update_existing : bool) (def : RoleDef) : L unit :=
  lift (require_valid_role_name (YStr (rd_name def)));;
  lift (require_valid_role_description (mjoin (rd_description def)));;
  found ← gets (λ s, first (filter (λ r, role_name r = rd_name def) (ps_roles s)));
  role ← match (found : option Role) with
         | Some r =>
             if update_existing then
               put_role (with_fields def r);; mret (with_fields def r)
             else if default false (rd_is_system def) && negb (role_is_system r) then
               put_role (reprotected r);; report (note_reprotected (rd_name def));; mret (reprotected r)
             else report (note_left_alone (rd_name def));; mret r
         | None =>
             i ← new_id;
             let r := MkRole i (rd_name def) (description_text (mjoin (rd_description def)))
                        (default false (rd_is_system def)) [] in
             modify (λ s, set_ps_roles (ps_roles s ++ [r]) s);;
             report (note_created (rd_name def));; mret r
         end;
  if bool_decide (found = None) || update_existing then
    perms ← gets (λ s, filter (λ p, perm_name p ∈ rd_permissions def) (ps_permissions s));
    lift (refuse_unknown_permissions (rd_permissions def) perms);;
    put_role (granting perms role);;
    let before := sorted (perm_name <$> role_permissions (role : Role)) in
    let after := sorted (perm_name <$> perms) in
    if bool_decide (found ≠ None) && bool_decide (before ≠ after)
    then report (note_regranted (MkRegrantedRole (rd_name def) before after (role_is_system role)))
    else mret tt
  else mret tt.

Definition load_pass (update_existing : bool) (f : RbacFile) : L LoadSummary :=
  lift (refuse_duplicate_names f);;
  for_each (upsert_permission update_existing) (rf_permissions f);;
  for_each (upsert_role update_existing) (rf_roles f);;
  gets ps_summary.
End loader.

(** ** The commands *)

Section commands.
Context {C : Type} `{UuidSupply}.
Abbreviation P := (M (World C) exn).

Definition set_rbac (s : Pass) (d : Database) : Database :=
  MkDatabase (urls d) (users d) (ps_roles s) (ps_permissions s) (refresh_sessions d)
    (email_verifications d) (password_resets d) (link_visits d) (link_visit_days d).

(** [with db_manager.session() as session: load_from_yaml(...)]: committed on
    the way out, rolled back by an exception. *)
Definition load_from_yaml (update_existing : bool) (f : RbacFile) : P (LoadSummary * Database) := λ w,
  match load_pass update_existing f (MkPass (permissions (w_db w)) (roles (w_db w)) (w_uuids w) empty_summary) with
  | (Ok summary, s) =>
      (Ok (summary, set_rbac s (w_db w)), set_uuids (ps_uuids s) (set_db (set_rbac s (w_db w)) w))
  | (Err e, s) => (Err e, set_uuids (ps_uuids s) w)
  end.

Definition load_base_roles_from_cfg (base : RbacFile) : P LoadSummary :=
  done ← load_from_yaml false base; mret done.1.

Definition granted_names (name : pystr) (d : Database) : list pystr :=
  match get_role_by_name name d with Some r => perm_name <$> role_permissions r | None => [] end.
Definition holders_of (name : pystr) (d : Database) : nat :=
  match get_role_by_name name d with
  | Some r => length (filter (λ u, role_id r ∈ um_roles u) (users d))
  | None => 0
  end.

Definition load_custom_roles_from_cfg (f : RbacFile) (update_existing : bool) : P LoadSummary :=
  done ← load_from_yaml update_existing f;
  let '(summary, d) := done in
  for_each (λ n, audit (RoleCreated n (granted_names n d))) (roles_created summary);;
  for_each (λ r, audit (RolePermissionsChanged (rg_name r) (rg_permissions_before r)
                          (rg_permissions_after r) (holders_of (rg_name r) d))) (roles_regranted summary);;
  mret summary.
End commands.

(** ** [configs/rbac/roles.yaml] *)

Definition base_permission (resource action : string) (description : pystr) : PermDef :=
  MkPermDef (lit resource ++ lit ":" ++ lit action) (lit resource) (lit action) (Some (Some description)).
Definition base_role (name description : string) (granted : list pystr) : RoleDef :=
  MkRoleDef (lit name) (Some (Some (YStr (lit description)))) (Some true) granted.

Definition base_roles : RbacFile := {|
  rf_permissions :=
    [base_permission "link" "create" (lit "Create a new short link");
     base_permission "link" "view_own" (lit "View details of links owned by the user");
     base_permission "link" "delete_own" (lit "Delete links owned by the user");
     base_permission "link" "delete_any" (lit "Delete any link in the system (administrative privilege)");
     base_permission "stats" "view_basic" (lit "View basic service statistics (total URLs, total clicks)");
     base_permission "stats" "view_full" (lit "View extended statistics including list of popular links");
     base_permission "stats" "view_any" (lit "View detailed statistics of any link, not only one's own");
     base_permission "audit" "view" (lit "Read the audit journal, which records what was done to links and accounts");
     base_permission "logs" "view" (lit "Read the application and error journals");
     base_permission "admin" "view_users" (lit "View list of registered users");
     base_permission "admin" "manage_users" (lit "Create, update, activate/deactivate, or delete users");
     base_permission "admin" "view_roles" (lit "View existing roles and their assigned permissions");
     base_permission "admin" "manage_roles" (lit "Create, update, or delete roles (system roles are protected)");
     base_permission "admin" "view_system_health" (lit "Access system health metrics");
     base_permission "admin" "all" (lit "Full administrative access " ++ 8211 :: lit " bypasses every permission check except audit:view")];
  rf_roles :=
    [base_role "guest" "Unauthenticated visitor with minimal access" [STATS_VIEW_BASIC; LINK_CREATE];
     base_role "user" "Regular registered user"
       [LINK_CREATE; LINK_VIEW_OWN; LINK_DELETE_OWN; STATS_VIEW_BASIC];
     base_role "analyst" "Analyst with advanced statistics access"
       [LINK_VIEW_OWN; STATS_VIEW_BASIC; STATS_VIEW_FULL; STATS_VIEW_ANY];
     base_role "auditor" "Reads the journals, the health report and the figures; changes nothing"
       [AUDIT_VIEW; LOGS_VIEW; ADMIN_VIEW_SYSTEM_HEALTH; STATS_VIEW_BASIC; STATS_VIEW_FULL];
     base_role "admin" "System administrator; unrestricted except for reading the audit journal" [ADMIN_ALL]];
|}.
