(* ===== verification/RoleTheorems.v ===== *)
(** * Theorems on the loading of roles *)

From S2P Require Import Prelude PyStr Exceptions Entities Policies Database UserRepo Admin RoleLoader.

Section loading.
Context `{UuidSupply} `{!Inj (=) (=) uuid4}.
Implicit Types (s : Pass) (f : RbacFile) (r : Role).

(** ** Permissions *)

(** What the file says of a permission, and what the row says. *)
Definition stored_def (d : PermDef) : pystr * pystr * pystr * option pystr :=
  (pd_name d, pd_resource d, pd_action d, mjoin (pd_description d)).
Definition stored_permission (p : Permission) : pystr * pystr * pystr * option pystr :=
  (perm_name p, perm_resource p, perm_action p, perm_description p).

(** Definitions of the file the table has no row for. *)
Definition missing_permissions (t : list Permission) (defs : list PermDef) : list PermDef :=
  filter (λ d, pd_name d ∉ (perm_name <$> t)) defs.

Lemma missing_permissions_snoc t p defs : perm_name p ∉ (pd_name <$> defs) →
  missing_permissions (t ++ [p]) defs = missing_permissions t defs.
Proof.
  intros Hp. rewrite /missing_permissions. apply filter_ext_elem. intros d Hd.
  rewrite fmap_app elem_of_app list_elem_of_singleton.
  assert (pd_name d ≠ perm_name p) by (intros Heq; apply Hp; rewrite -Heq; by apply list_elem_of_fmap_2). tauto.
Qed.

Lemma run_upsert_permission d s : upsert_permission false d s =
  (Ok tt, match first (filter (λ p, perm_name p = pd_name d) (ps_permissions s)) with
          | Some _ => s
          | None => MkPass (ps_permissions s ++ [new_permission (uuid4 (ps_uuids s)) d])
                      (ps_roles s) (S (ps_uuids s)) (note_permission (pd_name d) (ps_summary s))
          end).
Proof. rewrite /upsert_permission /mbind /M_bind /gets. by destruct (first _). Qed.

Lemma run_upsert_permissions defs s : NoDup (pd_name <$> defs) →
  ∃ new n, for_each (upsert_permission false) defs s =
      (Ok tt, MkPass (ps_permissions s ++ new) (ps_roles s) n
         (MkLoadSummary (permissions_created (ps_summary s) ++ (perm_name <$> new))
            (roles_created (ps_summary s)) (roles_left_alone (ps_summary s))
            (roles_reprotected (ps_summary s)) (roles_regranted (ps_summary s)))) ∧
    stored_permission <$> new = stored_def <$> missing_permissions (ps_permissions s) defs ∧ n = (ps_uuids s + length new)%nat.
Proof.
  revert s. induction defs as [|d defs IH]; intros s Hnd.
  { exists [], (ps_uuids s). split; [|split; [done|simpl; lia]]. destruct s as [? ? ? []]. by rewrite /= !app_nil_r. }
  rewrite fmap_cons in Hnd. apply list.NoDup_cons in Hnd as [Hd Hnd].
  cbn [for_each]. rewrite (bind_ok _ _ _ _ _ (run_upsert_permission d s)). destruct (first _) as [p|] eqn:Hp.
  - apply first_filter_Some in Hp as [Hp Hname]. destruct (IH s Hnd) as (new & n & Hrun & Hnew & Hn). rewrite Hrun.
    exists new, n. split; [done|]. split; [|done]. rewrite Hnew /missing_permissions filter_cons_False //.
    intros Hx. apply Hx. rewrite -Hname. by apply list_elem_of_fmap_2.
  - pose proof (proj1 (first_filter_None _ _) Hp) as Hnone.
    set (p := new_permission (uuid4 (ps_uuids s)) d).
    destruct (IH (MkPass (ps_permissions s ++ [p]) (ps_roles s) (S (ps_uuids s))
      (note_permission (pd_name d) (ps_summary s))) Hnd) as (new & n & Hrun & Hnew & Hn).
    rewrite Hrun. simpl in Hnew, Hn. exists (p :: new), n. split_and!.
    + simpl. by rewrite -!app_assoc.
    + rewrite fmap_cons Hnew missing_permissions_snoc; [|done]. rewrite {2}/missing_permissions filter_cons_True.
      * by destruct d.
      * intros (q & Hq & Hin)%list_elem_of_fmap. by apply (Hnone q).
    + simpl. lia.
Qed.

(** ** Roles *)

Record roles_ok (t : list Role) (n : nat) : Prop := MkRolesOk {
  ro_ids : NoDup (role_id <$> t);
  ro_names : NoDup (role_name <$> t);
  ro_fresh : ∀ m, (n <= m)%nat → uuid4 m ∉ (role_id <$> t);
}.

(** A role of the file's own has its flag back. *)
Definition system_names (defs : list RoleDef) : list pystr :=
  rd_name <$> filter (λ d, rd_is_system d = Some true) defs.
Definition restored (defs : list RoleDef) (r : Role) : Role :=
  if decide (role_name r ∈ system_names defs) then reprotected r else r.

Definition missing_roles (t : list Role) (defs : list RoleDef) : list RoleDef :=
  filter (λ d, rd_name d ∉ (role_name <$> t)) defs.

(** What the file says of a role that was not there. *)
Definition made_for (ps : list Permission) (d : RoleDef) (r : Role) : Prop :=
  role_name r = rd_name d ∧ role_description r = description_text (mjoin (rd_description d)) ∧
  role_is_system r = default false (rd_is_system d) ∧
  role_permissions r = filter (λ p, perm_name p ∈ rd_permissions d) ps ∧
  ∀ n, n ∈ rd_permissions d → n ∈ (perm_name <$> role_permissions r).

Lemma restored_name defs r : role_name (restored defs r) = role_name r ∧ role_id (restored defs r) = role_id r.
Proof. rewrite /restored. by case_decide. Qed.

Lemma reprotected_system r : role_is_system r = true → reprotected r = r.
Proof. destruct r. simpl. by intros ->. Qed.

Lemma restored_in defs r : role_name r ∈ system_names defs → restored defs r = reprotected r.
Proof. intros Hr. by rewrite /restored decide_True. Qed.
Lemma restored_out defs r : role_name r ∉ system_names defs → restored defs r = r.
Proof. intros Hr. by rewrite /restored decide_False. Qed.

Lemma system_names_cons d defs n : n ∈ system_names (d :: defs) ↔ n ∈ system_names [d] ∨ n ∈ system_names defs.
Proof. rewrite /system_names !filter_cons filter_nil. case_decide; set_solver. Qed.

Lemma restored_cons d defs r : restored (d :: defs) r = restored defs (restored [d] r).
Proof.
  destruct (decide (role_name r ∈ system_names [d])) as [H1|H1].
  - rewrite (restored_in [d]) // (restored_in (d :: defs)); [|apply system_names_cons; by left].
    rewrite /restored. by case_decide.
  - rewrite (restored_out [d]) //. rewrite /restored.
    destruct (decide (role_name r ∈ system_names defs)) as [H2|H2].
    + rewrite decide_True //. apply system_names_cons. by right.
    + rewrite decide_False //. rewrite system_names_cons. tauto.
Qed.

Lemma put_restored t d r : NoDup (role_id <$> t) → NoDup (role_name <$> t) → r ∈ t → role_name r = rd_name d →
  rd_is_system d = Some true →
  update_where (λ x, role_id x = role_id r) (λ _, reprotected r) t = restored [d] <$> t.
Proof.
  intros Hids Hnames Hr Hn Hs. apply list_fmap_ext. intros i x Hx%list_elem_of_lookup_2.
  case_decide as Hid.
  - rewrite (key_eq role_id t x r) // restored_in // /system_names filter_cons_True //=.
    by apply list_elem_of_singleton.
  - rewrite restored_out // /system_names filter_cons_True //= list_elem_of_singleton. intros Hx'.
    apply Hid. f_equal. apply (key_eq role_name t); [done..|]. by rewrite Hx'.
Qed.

Lemma restored_same t d r : NoDup (role_name <$> t) → r ∈ t → role_name r = rd_name d →
  (rd_is_system d = Some true → role_is_system r = true) → restored [d] <$> t = t.
Proof.
  intros Hnames Hr Hn Hs. rewrite -{2}(list_fmap_id t). apply list_fmap_ext. intros i x Hx%list_elem_of_lookup_2.
  destruct (decide (role_name x ∈ system_names [d])) as [Hin|]; [|by apply restored_out].
  rewrite restored_in //. apply reprotected_system. revert Hin. rewrite /system_names filter_cons filter_nil.
  case_decide as Hsys; [|set_solver]. intros Hin%list_elem_of_singleton.
  rewrite (key_eq role_name t x r) //; [by apply Hs|congruence].
Qed.

Lemma restored_absent (t : list Role) d : rd_name d ∉ (role_name <$> t) → restored [d] <$> t = t.
Proof.
  intros Hd. rewrite -{2}(list_fmap_id t). apply list_fmap_ext. intros i x Hx%list_elem_of_lookup_2.
  apply restored_out. rewrite /system_names filter_cons filter_nil. case_decide; [|set_solver].
  intros Hin%list_elem_of_singleton. apply Hd. rewrite -Hin. by apply list_elem_of_fmap_2.
Qed.


Lemma refuse_unknown_ok names ps : refuse_unknown_permissions names ps = Ok tt →
  ∀ n, n ∈ names → n ∈ (perm_name <$> ps).
Proof.
  rewrite /refuse_unknown_permissions. destruct (filter _ names) eqn:Hf; [|done]. intros _ n Hn.
  destruct (decide (n ∈ (perm_name <$> ps))) as [|Hx]; [done|].
  assert (n ∈ filter (λ n, n ∉ (perm_name <$> ps)) names) as Hin by (by apply list_elem_of_filter).
  rewrite Hf in Hin. by apply elem_of_nil in Hin.
Qed.

Lemma put_new (t : list Role) r r' i : i ∉ (role_id <$> t) → role_id r = i →
  update_where (λ x, role_id x = i) (λ _, r') (t ++ [r]) = t ++ [r'].
Proof.
  intros Hr Hid. rewrite /update_where fmap_app /= Hid decide_True //. f_equal.
  rewrite -{2}(list_fmap_id t). apply list_fmap_ext. intros k x Hx%list_elem_of_lookup_2.
  rewrite decide_False //. intros Heq. apply Hr. rewrite -Heq. by apply list_elem_of_fmap_2.
Qed.

(** One role of the file, existing rows being left alone. *)
Lemma upsert_role_ok d s s' : roles_ok (ps_roles s) (ps_uuids s) → upsert_role false d s = (Ok tt, s') →
  ps_permissions s' = ps_permissions s ∧ (ps_uuids s <= ps_uuids s')%nat ∧
  ∃ new, ps_roles s' = (restored [d] <$> ps_roles s) ++ new ∧
    if decide (rd_name d ∈ (role_name <$> ps_roles s)) then new = []
    else ∃ r, new = [r] ∧ made_for (ps_permissions s) d r ∧ role_id r = uuid4 (ps_uuids s) ∧
              ps_uuids s' = S (ps_uuids s).
Proof.
  intros [Hids Hnames Hfresh] Hrun. rewrite /upsert_role in Hrun. run_inv Hrun.
  injection Hrun0 as _ <-. injection Hrun1 as _ <-. injection Hrun2 as <- <-.
  destruct (first _) as [r|] eqn:Hf.
  - apply first_filter_Some in Hf as [Hr Hn]. destruct (decide _) as [_|Hno];
      [|destruct Hno; rewrite -Hn; by apply list_elem_of_fmap_2].
    rewrite bool_decide_eq_false_2 //= in Hrun. injection Hrun as <-.
    destruct (default false (rd_is_system d) && negb (role_is_system r)) eqn:Hp; injection Hrun3 as <- <-; simpl.
    + split_and!; [done..|]. exists []. rewrite app_nil_r. split; [|done]. reflect_bools.
      apply put_restored; [done..|]. by destruct (rd_is_system d) as [[]|].
    + split_and!; [done..|]. exists []. rewrite app_nil_r. split; [|done]. symmetry. eapply restored_same; [done..|].
      intros Hs. rewrite Hs /= in Hp. by destruct (role_is_system r).
  - pose proof (proj1 (first_filter_None _ _) Hf) as Hnone.
    assert (rd_name d ∉ (role_name <$> ps_roles s)) as Habs
      by (intros (q & Hq & Hin)%list_elem_of_fmap; by apply (Hnone q)).
    destruct (decide _) as [|_]; [done|]. injection Hrun3 as <- <-. simpl in Hrun.
    run_inv Hrun. injection Hrun0 as <- <-. injection Hrun1 as Href <-. injection Hrun2 as _ <-.
    injection Hrun as <-. simpl.
    split_and!; [done|lia|]. rewrite restored_absent //. eexists. split.
    + apply put_new; [by apply Hfresh|done].
    + eexists. split; [reflexivity|]. split; [|done]. destruct a2.
      split_and!; [done..|]. by apply refuse_unknown_ok.
Qed.

Lemma roles_ok_restored defs t n : roles_ok t n → roles_ok (restored defs <$> t) n.
Proof.
  intros [Hi Hn Hf].
  assert (role_id <$> (restored defs <$> t) = role_id <$> t) as Eid.
  { rewrite -list_fmap_compose. apply list_fmap_ext. intros i x _. apply restored_name. }
  assert (role_name <$> (restored defs <$> t) = role_name <$> t) as En.
  { rewrite -list_fmap_compose. apply list_fmap_ext. intros i x _. apply restored_name. }
  constructor; by rewrite ?Eid ?En.
Qed.

Lemma roles_ok_snoc t r n : roles_ok t n → role_id r = uuid4 n → role_name r ∉ (role_name <$> t) →
  roles_ok (t ++ [r]) (S n).
Proof.
  intros [Hi Hn Hf] Hid Hname. constructor; rewrite fmap_app /=.
  - apply list.NoDup_app. split_and!; [done| |apply NoDup_singleton].
    intros x Hx Hin%list_elem_of_singleton. apply (Hf n); [done|]. by rewrite -Hid -Hin.
  - apply list.NoDup_app. split_and!; [done| |apply NoDup_singleton].
    intros x Hx Hin%list_elem_of_singleton. by subst.
  - intros m Hm [Hin|Hin]%elem_of_app; [apply (Hf m); [lia|done]|].
    apply list_elem_of_singleton in Hin. rewrite Hid in Hin. apply (inj uuid4) in Hin. lia.
Qed.

Lemma restored_names defs (t : list Role) : role_name <$> (restored defs <$> t) = role_name <$> t.
Proof. rewrite -list_fmap_compose. apply list_fmap_ext. intros i x _. apply restored_name. Qed.

Lemma missing_roles_names t t' defs : role_name <$> t = role_name <$> t' → missing_roles t defs = missing_roles t' defs.
Proof. by rewrite /missing_roles => ->. Qed.

Lemma missing_roles_snoc t r defs : role_name r ∉ (rd_name <$> defs) →
  missing_roles (t ++ [r]) defs = missing_roles t defs.
Proof.
  intros Hr. apply filter_ext_elem. intros d Hd. rewrite fmap_app elem_of_app list_elem_of_singleton.
  assert (rd_name d ≠ role_name r) by (intros Heq; apply Hr; rewrite -Heq; by apply list_elem_of_fmap_2). tauto.
Qed.

Lemma restored_stranger defs r : role_name r ∉ (rd_name <$> defs) → restored defs r = r.
Proof.
  intros Hr. apply restored_out. intros (d & Hd & [_ Hin]%list_elem_of_filter)%list_elem_of_fmap.
  apply Hr. rewrite Hd. by apply list_elem_of_fmap_2.
Qed.

Lemma upsert_roles_ok defs s s' : NoDup (rd_name <$> defs) → roles_ok (ps_roles s) (ps_uuids s) →
  for_each (upsert_role false) defs s = (Ok tt, s') →
  ps_permissions s' = ps_permissions s ∧ roles_ok (ps_roles s') (ps_uuids s') ∧
  ∃ new, ps_roles s' = (restored defs <$> ps_roles s) ++ new ∧
    Forall2 (made_for (ps_permissions s)) (missing_roles (ps_roles s) defs) new.
Proof.
  revert s. induction defs as [|d defs IH]; intros s Hnd Hok Hrun.
  { injection Hrun as <-. split_and!; [done..|]. exists []. split; [|constructor].
    rewrite app_nil_r -{1}(list_fmap_id (ps_roles s)). apply list_fmap_ext. by intros. }
  rewrite fmap_cons in Hnd. apply list.NoDup_cons in Hnd as [Hd Hnd].
  cbn [for_each] in Hrun. apply bind_ok_inv in Hrun as ([] & s1 & H1 & H2).
  destruct (upsert_role_ok d s s1 Hok H1) as (Hp & Hu & new1 & Hr1 & Hcase).
  assert (roles_ok (ps_roles s1) (ps_uuids s1)) as Hok1.
  { rewrite Hr1. destruct (decide _) as [Hin|Hno].
    - subst new1. rewrite app_nil_r. destruct Hok as [? ? Hf].
      apply roles_ok_restored. constructor; [done..|]. intros m Hm. apply Hf. lia.
    - destruct Hcase as (r & -> & Hm & Hid & ->). apply roles_ok_snoc; [by apply roles_ok_restored|done|].
      rewrite restored_names. destruct Hm as [-> _]. done. }
  destruct (IH s1 Hnd Hok1 H2) as (Hp' & Hok' & new & Hr' & Hnew).
  split_and!; [congruence|done|]. rewrite Hr' Hr1 fmap_app -list_fmap_compose -app_assoc.
  exists ((restored defs <$> new1) ++ new). split.
  { f_equal. apply list_fmap_ext. intros i x _. symmetry. apply restored_cons. }
  rewrite Hp in Hnew. destruct (decide _) as [Hin|Hno].
  - subst new1. rewrite {1}/missing_roles filter_cons_False; [|tauto].
    rewrite (missing_roles_names _ (ps_roles s)) // in Hnew. by rewrite Hr1 app_nil_r restored_names.
  - destruct Hcase as (r & -> & Hm & Hid & _). rewrite {1}/missing_roles filter_cons_True //.
    destruct Hm as [Hname Hrest]. rewrite fmap_cons /= restored_stranger; [|by rewrite Hname].
    constructor; [by split|]. rewrite Hr1 missing_roles_snoc in Hnew; [|by rewrite Hname].
    by rewrite (missing_roles_names _ (ps_roles s)) ?restored_names in Hnew.
Qed.

(** *** The same file again *)

(** What the file says already holds. *)
Definition in_place (t : list Role) (d : RoleDef) : Prop :=
  require_valid_role_name (YStr (rd_name d)) = Ok tt ∧
  require_valid_role_description (mjoin (rd_description d)) = Ok tt ∧
  (∃ r, r ∈ t ∧ role_name r = rd_name d) ∧
  ∀ r, r ∈ t → role_name r = rd_name d → rd_is_system d = Some true → role_is_system r = true.

Lemma upsert_role_in_place d s : in_place (ps_roles s) d →
  upsert_role false d s = report (note_left_alone (rd_name d)) s.
Proof.
  intros (Hn & Hd & (r0 & Hr0 & Hname0) & Hs). rewrite /upsert_role.
  rewrite (bind_ok _ _ s tt s); [|by rewrite /lift Hn]. rewrite (bind_ok _ _ s tt s); [|by rewrite /lift Hd].
  rewrite {1}/mbind {1}/M_bind /gets. destruct (first _) as [r|] eqn:Hf; last first.
  { by destruct (proj1 (first_filter_None _ _) Hf r0 Hr0). }
  apply first_filter_Some in Hf as [Hr Hname].
  destruct (default false (rd_is_system d) && negb (role_is_system r)) eqn:Hp; [|by rewrite bool_decide_eq_false_2].
  exfalso. reflect_bools. rewrite (Hs r Hr Hname) in H1; [done|]. by destruct (rd_is_system d) as [[]|].
Qed.

Lemma upsert_roles_in_place defs s : Forall (in_place (ps_roles s)) defs →
  for_each (upsert_role false) defs s =
    (Ok tt, MkPass (ps_permissions s) (ps_roles s) (ps_uuids s)
       (MkLoadSummary (permissions_created (ps_summary s)) (roles_created (ps_summary s))
          (roles_left_alone (ps_summary s) ++ (rd_name <$> defs)) (roles_reprotected (ps_summary s))
          (roles_regranted (ps_summary s)))).
Proof.
  revert s. induction defs as [|d defs IH]; intros s Hall.
  { rewrite app_nil_r. by destruct s as [? ? ? []]. }
  apply Forall_cons_iff in Hall as [Hd Hall]. cbn [for_each].
  rewrite (bind_ok _ _ _ _ _ (upsert_role_in_place d s Hd)) IH //=. by rewrite -app_assoc.
Qed.

Lemma upsert_roles_valid b defs s s' : for_each (upsert_role b) defs s = (Ok tt, s') →
  Forall (λ d, require_valid_role_name (YStr (rd_name d)) = Ok tt ∧
               require_valid_role_description (mjoin (rd_description d)) = Ok tt) defs.
Proof.
  revert s. induction defs as [|d defs IH]; intros s Hrun; [constructor|]. cbn [for_each] in Hrun.
  apply bind_ok_inv in Hrun as ([] & s1 & H1 & H2). constructor; [|by eapply IH].
  rewrite /upsert_role in H1. run_inv H1. destruct a, a0. rewrite /lift in Hrun, Hrun0. split; congruence.
Qed.
End loading.

(** ** A file that updates *)

Section updating.
Context `{UuidSupply} `{!Inj (=) (=) uuid4}.
Implicit Types (s : Pass) (f : RbacFile) (r : Role).

(** The role grants what the file lists, neither more nor less. *)
Definition grants_listed (d : RoleDef) r : Prop :=
  role_name r = rd_name d ∧ ∀ n, n ∈ (perm_name <$> role_permissions r) ↔ n ∈ rd_permissions d.

Lemma filter_grants ns ps : refuse_unknown_permissions ns (filter (λ p, perm_name p ∈ ns) ps) = Ok tt →
  ∀ n, n ∈ (perm_name <$> filter (λ p, perm_name p ∈ ns) ps) ↔ n ∈ ns.
Proof.
  intros Href n. split; [|by apply refuse_unknown_ok].
  by intros (p & -> & [Hp _]%list_elem_of_filter)%list_elem_of_fmap.
Qed.

Lemma update_where_same_key {K} (key : Role → K) (Q : Role → Prop) `{∀ x, Decision (Q x)} r' t :
  (∀ x, x ∈ t → Q x → key x = key r') → key <$> update_where Q (λ _, r') t = key <$> t.
Proof.
  intros HQ. rewrite /update_where -list_fmap_compose. apply list_fmap_ext.
  intros i x Hx%list_elem_of_lookup_2. simpl. case_decide; [|done]. symmetry. by apply HQ.
Qed.

(** One row replaced by one of the same identifier and name. *)
Lemma put_role_ok t n r r' : roles_ok t n → r ∈ t → role_id r' = role_id r → role_name r' = role_name r →
  let t' := update_where (λ x, role_id x = role_id r') (λ _, r') t in
  roles_ok t' n ∧ r' ∈ t' ∧ ∀ x, role_name x ≠ role_name r → (x ∈ t' ↔ x ∈ t).
Proof.
  intros [Hids Hnames Hf] Hr Hid Hn t'.
  assert (role_id <$> t' = role_id <$> t) as Ei by (by apply update_where_same_key).
  assert (role_name <$> t' = role_name <$> t) as En.
  { apply update_where_same_key. intros x Hx Hxid. rewrite Hn. f_equal. apply (key_eq role_id t); congruence. }
  split_and!; [by constructor; rewrite ?Ei ?En|..].
  - apply elem_of_update_where. exists r. split; [done|]. by rewrite decide_True.
  - intros x Hx. rewrite /t' elem_of_update_where. split.
    + intros (y & Hy & ->). case_decide; [by rewrite Hn in Hx|done].
    + intros Hin. exists x. split; [done|]. rewrite decide_False //. intros Hxid. apply Hx. f_equal.
      apply (key_eq role_id t); congruence.
Qed.

Lemma upsert_role_updates d s s' : roles_ok (ps_roles s) (ps_uuids s) → upsert_role true d s = (Ok tt, s') →
  ps_permissions s' = ps_permissions s ∧ roles_ok (ps_roles s') (ps_uuids s') ∧
  (∃ r, r ∈ ps_roles s' ∧ grants_listed d r) ∧
  ∀ x, role_name x ≠ rd_name d → (x ∈ ps_roles s' ↔ x ∈ ps_roles s).
Proof.
  intros Hok Hrun. rewrite /upsert_role in Hrun. run_inv Hrun.
  injection Hrun0 as _ <-. injection Hrun1 as _ <-. injection Hrun2 as <- <-.
  rewrite orb_true_r in Hrun. run_inv Hrun. injection Hrun0 as <- <-. injection Hrun1 as Href <-.
  injection Hrun2 as _ <-. destruct a3.
  assert (∃ r0 t0 n0, roles_ok t0 n0 ∧ r0 ∈ t0 ∧ role_name r0 = rd_name d ∧ a2 = r0 ∧
    s3 = MkPass (ps_permissions s) t0 n0 (ps_summary s3) ∧
    ∀ x, role_name x ≠ rd_name d → (x ∈ t0 ↔ x ∈ ps_roles s)) as (r0 & t0 & n0 & Hok0 & Hr0 & Hn0 & -> & Hs0 & Hx0).
  { destruct (first _) as [r|] eqn:Hf.
    - apply first_filter_Some in Hf as [Hr Hn]. injection Hrun3 as <- <-.
      destruct (put_role_ok (ps_roles s) (ps_uuids s) r (with_fields d r) Hok Hr eq_refl) as (Hok1 & Hin1 & Hx1); [done|].
      do 3 eexists. split; [exact Hok1|]. split; [exact Hin1|]. split_and!; [done..|]. intros x Hx. apply Hx1. congruence.
    - injection Hrun3 as <- <-. set (r := MkRole _ _ _ _ []).
      exists r, (ps_roles s ++ [r]), (S (ps_uuids s)). split_and!; try done.
      + apply roles_ok_snoc; [done..|]. simpl. intros (q & Hq & Hin)%list_elem_of_fmap.
        by apply (proj1 (first_filter_None _ _) Hf q).
      + apply elem_of_app. right. by apply list_elem_of_singleton.
      + intros x Hx. rewrite elem_of_app list_elem_of_singleton. split; [|by left]. intros [?| ->]; done. }
  rewrite Hs0 /= in Href. clear Hrun3.
  set (ps := filter (λ p, perm_name p ∈ rd_permissions d) (ps_permissions s)) in *.
  destruct (put_role_ok t0 n0 r0 (granting ps r0) Hok0 Hr0 eq_refl eq_refl) as (Hok2 & Hin2 & Hx2).
  assert (ps_permissions s' = ps_permissions s ∧ ps_uuids s' = n0 ∧
    ps_roles s' = update_where (λ x, role_id x = role_id (granting ps r0)) (λ _, granting ps r0) t0) as (-> & -> & ->).
  { rewrite Hs0 /= in Hrun. by destruct (bool_decide _ && bool_decide _) in Hrun; injection Hrun as <-. }
  split_and!; [done|done| |].
  - exists (granting ps r0). split; [done|]. split; [done|]. by apply filter_grants.
  - intros x Hx. rewrite Hx2; [by apply Hx0|congruence].
Qed.

Lemma upsert_roles_update defs s s' : NoDup (rd_name <$> defs) → roles_ok (ps_roles s) (ps_uuids s) →
  for_each (upsert_role true) defs s = (Ok tt, s') →
  Forall (λ d, ∃ r, r ∈ ps_roles s' ∧ grants_listed d r) defs ∧
  ∀ x, role_name x ∉ (rd_name <$> defs) → (x ∈ ps_roles s' ↔ x ∈ ps_roles s).
Proof.
  revert s. induction defs as [|d defs IH]; intros s Hnd Hok Hrun.
  { injection Hrun as <-. split; [constructor|done]. }
  rewrite fmap_cons in Hnd. apply list.NoDup_cons in Hnd as [Hd Hnd].
  cbn [for_each] in Hrun. apply bind_ok_inv in Hrun as ([] & s1 & H1 & H2).
  destruct (upsert_role_updates d s s1 Hok H1) as (_ & Hok1 & (r & Hr & Hg) & Hx1).
  destruct (IH s1 Hnd Hok1 H2) as [Hall Hx]. split.
  - constructor; [|done]. exists r. split; [|done]. apply Hx; [|done]. destruct Hg as [-> _]. done.
  - intros x. rewrite fmap_cons not_elem_of_cons. intros [Hn Hno]. rewrite Hx //. by apply Hx1.
Qed.

(** Permissions keep the identifiers and names of the roles. *)
Lemma upsert_permissions_roles b defs s : ∃ s', for_each (upsert_permission b) defs s = (Ok tt, s') ∧
  role_id <$> ps_roles s' = role_id <$> ps_roles s ∧ role_name <$> ps_roles s' = role_name <$> ps_roles s ∧
  (ps_uuids s <= ps_uuids s')%nat.
Proof.
  revert s. induction defs as [|d defs IH]; intros s; [by exists s|]. cbn [for_each].
  assert (∃ s1, upsert_permission b d s = (Ok tt, s1) ∧ role_id <$> ps_roles s1 = role_id <$> ps_roles s ∧
    role_name <$> ps_roles s1 = role_name <$> ps_roles s ∧ (ps_uuids s <= ps_uuids s1)%nat) as (s1 & H1 & Ei & En & Hu).
  { rewrite /upsert_permission /mbind /M_bind /gets. destruct (first _); [destruct b|]; eexists; (split; [reflexivity|]).
    - rewrite /= -!list_fmap_compose. done.
    - done.
    - simpl. split_and!; [done..|lia]. }
  rewrite (bind_ok _ _ _ _ _ H1). destruct (IH s1) as (s' & Hs' & Ei' & En' & Hu'). exists s'.
  split_and!; [done|congruence..|lia].
Qed.
End updating.

Section claims.
Context {C : Type} `{UuidSupply} `{!Inj (=) (=) uuid4}.
Implicit Types (w : World C) (f : RbacFile) (d : Database).

(** What a pass that updates nothing leaves. *)
Definition seeded f d d' : Prop :=
  ∃ ps rs, d' = set_rbac (MkPass (permissions d ++ ps) ((restored (rf_roles f) <$> roles d) ++ rs) 0 empty_summary) d ∧
    stored_permission <$> ps = stored_def <$> missing_permissions (permissions d) (rf_permissions f) ∧
    Forall2 (made_for (permissions d')) (missing_roles (roles d) (rf_roles f)) rs.

Lemma load_inv f w summary d' w' : roles_ok (roles (w_db w)) (w_uuids w) →
  load_from_yaml false f w = (Ok (summary, d'), w') →
  refuse_duplicate_names f = Ok tt ∧ w_db w' = d' ∧ seeded f (w_db w) d' ∧ roles_ok (roles d') (w_uuids w') ∧
  Forall (λ x, require_valid_role_name (YStr (rd_name x)) = Ok tt ∧
               require_valid_role_description (mjoin (rd_description x)) = Ok tt) (rf_roles f).
Proof.
  intros Hok. rewrite /load_from_yaml. destruct (load_pass _ _ _) as [[sm|e] s] eqn:Hrun; [|done].
  intros [= -> <- <-]. rewrite /load_pass in Hrun. apply bind_ok_inv in Hrun as ([] & s0 & Hdup & Hrun).
  injection Hdup as Hdup <-. split; [done|]. split; [done|].
  revert Hdup. rewrite /refuse_duplicate_names. case_bool_decide as Hp; [|done]. case_bool_decide as Hr; [|done]. intros _.
  set (s0 := MkPass _ _ _ _) in Hrun. destruct (run_upsert_permissions (rf_permissions f) s0 Hp) as (ps & n & Hps & Hnew & ->).
  rewrite (bind_ok _ _ _ _ _ Hps) in Hrun. set (s1 := MkPass _ _ _ _) in Hrun.
  apply bind_ok_inv in Hrun as ([] & s2 & Hroles & Hrun). injection Hrun as _ <-.
  destruct (upsert_roles_ok (rf_roles f) s1 s2 Hr) as (Hp2 & Hok2 & rs & Hr2 & Hmade).
  { destruct Hok as [? ? Hf]. constructor; [done..|]. intros m Hm. apply Hf. simpl in Hm. lia. }
  { done. }
  split; [|split; [done|by eapply upsert_roles_valid]].
  exists ps, rs. rewrite /set_rbac /= Hr2 Hp2. split; [done|]. split; [done|]. exact Hmade.
Qed.

(** A file loaded with the order to update decides what its roles grant:
    afterwards every role it names exists and grants exactly the permissions
    the file lists for it, whatever it granted before; with an unknown
    permission in the file the whole pass is refused and changes nothing. *)
Theorem the_file_decides_what_roles_grant f w x w' : roles_ok (roles (w_db w)) (w_uuids w) →
  load_from_yaml true f w = (x, w') →
  match x with
  | Ok (summary, d') => w_db w' = d' ∧ Forall (λ y, ∃ r, r ∈ roles d' ∧ grants_listed y r) (rf_roles f)
  | Err _ => w_db w' = w_db w
  end.
Proof.
  intros Hok. rewrite /load_from_yaml. destruct (load_pass _ _ _) as [[sm|e] s] eqn:Hrun; [|by intros [= <- <-]].
  intros [= <- <-]. split; [done|]. rewrite /load_pass in Hrun. apply bind_ok_inv in Hrun as ([] & s0 & Hdup & Hrun).
  injection Hdup as Hdup <-. revert Hdup. rewrite /refuse_duplicate_names.
  case_bool_decide as Hp; [|done]. case_bool_decide as Hr; [|done]. intros _.
  set (s0 := MkPass _ _ _ _) in Hrun.
  destruct (upsert_permissions_roles true (rf_permissions f) s0) as (s1 & H1 & Ei & En & Hu).
  rewrite (bind_ok _ _ _ _ _ H1) in Hrun. apply bind_ok_inv in Hrun as ([] & s2 & H2 & Hrun). injection Hrun as _ <-.
  eapply (upsert_roles_update (rf_roles f) s1 s2 Hr); [|done]. destruct Hok as [Hi Hn Hf].
  constructor; rewrite ?Ei ?En; [done..|]. intros m Hm. apply Hf. simpl in Hu. lia.
Qed.

(** Seeding only adds: what a file is loaded with changes no account, link
    or existing permission, and of an existing role nothing but the mark of a
    system role, which a role the file marks gets back; every permission and
    role of the file that was missing is added, a role with the file's
    description and exactly the permissions the file lists.  A pass that fails
    changes nothing. *)
Theorem seeding_only_adds f w x w' : roles_ok (roles (w_db w)) (w_uuids w) →
  load_from_yaml false f w = (x, w') →
  match x with
  | Ok (summary, d') => w_db w' = d' ∧ seeded f (w_db w) d' ∧ roles_ok (roles d') (w_uuids w')
  | Err _ => w_db w' = w_db w
  end.
Proof.
  intros Hok Hrun. destruct x as [[summary d']|e].
  - by destruct (load_inv f w summary d' w' Hok Hrun) as (_ & ? & ? & ? & _).
  - revert Hrun. rewrite /load_from_yaml. destruct (load_pass _ _ _) as [[]]; [done|]. by intros [= _ <-].
Qed.

Lemma missing_permissions_nil t defs : Forall (λ x, pd_name x ∈ (perm_name <$> t)) defs →
  missing_permissions t defs = [].
Proof. intros Hall. apply filter_none. intros d Hd Hx. rewrite Forall_elem in Hall. by apply Hx, Hall. Qed.

(** A file is in place once it has been loaded. *)
Lemma seeded_permissions f d d' : seeded f d d' → missing_permissions (permissions d') (rf_permissions f) = [].
Proof.
  intros (ps & rs & -> & Hps & _). apply missing_permissions_nil, Forall_elem. intros p Hp. simpl.
  rewrite fmap_app elem_of_app. destruct (decide (pd_name p ∈ (perm_name <$> permissions d))) as [|Hno]; [by left|right].
  assert (stored_def p ∈ (stored_permission <$> ps)) as (q & [= -> _ _ _] & Hq)%list_elem_of_fmap
    by (rewrite Hps; by apply list_elem_of_fmap_2, list_elem_of_filter).
  by apply list_elem_of_fmap_2.
Qed.

Lemma seeded_roles f d d' : NoDup (rd_name <$> rf_roles f) → NoDup (role_name <$> roles d') → seeded f d d' →
  Forall (λ x, (∃ r, r ∈ roles d' ∧ role_name r = rd_name x) ∧
    ∀ r, r ∈ roles d' → role_name r = rd_name x → rd_is_system x = Some true → role_is_system r = true) (rf_roles f).
Proof.
  intros Hnd Hnames (ps & rs & -> & _ & Hrs). simpl in Hnames |- *. apply Forall_elem. intros x Hx.
  destruct (decide (rd_name x ∈ (role_name <$> roles d))) as [(r & Hn & Hr)%list_elem_of_fmap|Hno].
  - assert (restored (rf_roles f) r ∈ (restored (rf_roles f) <$> roles d) ++ rs) as Hin
      by (apply elem_of_app; left; by apply list_elem_of_fmap_2).
    split; [exists (restored (rf_roles f) r); split; [done|by rewrite (proj1 (restored_name _ _))]|].
    intros r' Hr' Hn' Hs. rewrite (key_eq role_name _ r' (restored (rf_roles f) r) Hnames Hr' Hin).
    + rewrite restored_in //. rewrite -Hn. apply list_elem_of_fmap_2, list_elem_of_filter. done.
    + by rewrite (proj1 (restored_name _ _)) Hn'.
  - assert (x ∈ missing_roles (roles d) (rf_roles f)) as Hm by (by apply list_elem_of_filter).
    apply list_elem_of_lookup in Hm as (i & Hi). destruct (Forall2_lookup_l _ _ _ _ _ Hrs Hi) as (r & Hri & Hmade).
    assert (r ∈ (restored (rf_roles f) <$> roles d) ++ rs) as Hin
      by (apply elem_of_app; right; by eapply list_elem_of_lookup_2).
    destruct Hmade as (Hn & _ & Hsys & _). split; [by exists r|].
    intros r' Hr' Hn' Hs. rewrite (key_eq role_name _ r' r Hnames Hr' Hin); [|congruence]. by rewrite Hsys Hs.
Qed.

(** Loading the same file again changes nothing, and says so: no permission
    and no role is reported as created or changed, every role of the file as
    left as it is. *)
Theorem seeding_twice_changes_nothing f w summary d' w' : roles_ok (roles (w_db w)) (w_uuids w) →
  load_from_yaml false f w = (Ok (summary, d'), w') →
  load_from_yaml false f w' = (Ok (MkLoadSummary [] [] (rd_name <$> rf_roles f) [] [], d'), w').
Proof.
  intros Hok Hrun. destruct (load_inv f w summary d' w' Hok Hrun) as (Hdup & Hd & Hs & Hok' & Hvalid).
  pose proof (seeded_permissions f _ _ Hs) as Hnone. rewrite /load_from_yaml Hd /load_pass.
  set (s0 := MkPass _ _ _ _). rewrite (bind_ok _ _ s0 tt s0); [|by rewrite /lift Hdup].
  revert Hdup. rewrite /refuse_duplicate_names. case_bool_decide as Hp; [|done]. case_bool_decide as Hr; [|done]. intros _.
  destruct (run_upsert_permissions (rf_permissions f) s0 Hp) as (ps & n & Hps & Hnew & ->).
  rewrite Hnone in Hnew. apply fmap_nil_inv in Hnew as ->. rewrite (bind_ok _ _ _ _ _ Hps).
  pose proof (seeded_roles f _ _ Hr (ro_names _ _ Hok') Hs) as Hroles.
  rewrite (bind_ok _ _ _ _ _ (upsert_roles_in_place (rf_roles f) _ _)).
  - simpl. rewrite Nat.add_0_r app_nil_r. destruct w', d'; simpl in Hd; by subst.
  - simpl. apply Forall_elem. intros x Hx. rewrite Forall_elem in Hroles. rewrite Forall_elem in Hvalid.
    destruct (Hroles x Hx) as [??], (Hvalid x Hx) as [??]. done.
Qed.
End claims.

Module RolesDemo.
#[local] Instance ids : UuidSupply := λ n, repeat 48 (S n).
#[local] Instance ids_inj : Inj (=) (=) uuid4.
Proof. intros m n Heq. apply (f_equal length) in Heq. rewrite !repeat_length in Heq. lia. Qed.

Definition fresh : World unit := MkWorld empty_db None tt 0 0 [] [] None.
Lemma fresh_ok : roles_ok (roles (w_db fresh)) (w_uuids fresh).
Proof. constructor; [constructor..|]. intros m _ Hx%elem_of_nil. done. Qed.

(** The roles the service ships with, on an empty database. *)
Definition shipped : result exn (LoadSummary * Database) * World unit := load_from_yaml false base_roles fresh.

Lemma shipped_run : load_from_yaml false base_roles fresh = shipped.
Proof. exact eq_refl. Qed.

Lemma shipped_ok : ∃ summary d', shipped = (Ok (summary, d'), shipped.2) ∧
  (∀ p, p ∈ SystemPermissions → is_allowed d' None p = mem p [LINK_CREATE; STATS_VIEW_BASIC]) ∧
  role_name <$> filter (λ r, ADMIN_ALL ∈ (perm_name <$> role_permissions r)) (roles d') = [lit "admin"].
Proof.
  destruct shipped as [x w] eqn:Hs. apply (f_equal fst) in Hs. vm_compute in Hs. subst x.
  eexists _, _. split; [reflexivity|]. split; [|vm_compute; reflexivity].
  apply Forall_elem. repeat constructor; vm_compute; reflexivity.
Qed.

Lemma seeding_only_adds_witness : ∃ d', w_db shipped.2 = d' ∧ seeded base_roles empty_db d' ∧
  (∀ p, p ∈ SystemPermissions → is_allowed d' None p = mem p [LINK_CREATE; STATS_VIEW_BASIC]).
Proof.
  destruct shipped_ok as (summary & d' & Hs & Hg & _).
  destruct (seeding_only_adds base_roles fresh (Ok (summary, d')) shipped.2 fresh_ok (eq_trans shipped_run Hs)) as (Hd & Hseeded & _).
  exists d'. split; [exact Hd|]. split; [exact Hseeded|exact Hg].
Defined.

Lemma seeding_twice_changes_nothing_witness : ∃ d',
  load_from_yaml false base_roles shipped.2 =
    (Ok (MkLoadSummary [] [] (lit <$> ["guest"; "user"; "analyst"; "auditor"; "admin"]%string) [] [], d'), shipped.2).
Proof.
  destruct shipped_ok as (summary & d' & Hs & _).
  exists d'. exact (seeding_twice_changes_nothing base_roles fresh summary d' shipped.2 fresh_ok (eq_trans shipped_run Hs)).
Defined.

(** A file that takes permissions from a role of the service. *)
Definition stricter : RbacFile := MkRbacFile [] [base_role "guest" "Nobody" [STATS_VIEW_BASIC]].
Lemma shipped_roles_ok : roles_ok (roles (w_db shipped.2)) (w_uuids shipped.2).
Proof.
  destruct shipped_ok as (summary & d' & Hs & _).
  destruct (load_inv base_roles fresh summary d' shipped.2 fresh_ok (eq_trans shipped_run Hs)) as (_ & -> & _ & Hok & _). exact Hok.
Qed.

Lemma the_file_decides_what_roles_grant_witness : ∃ summary d' w',
  load_from_yaml true stricter shipped.2 = (Ok (summary, d'), w') ∧
  Forall (λ y, ∃ r, r ∈ roles d' ∧ grants_listed y r) (rf_roles stricter).
Proof.
  destruct (load_from_yaml true stricter shipped.2) as [x w'] eqn:Hl.
  assert (∃ y, x = Ok y) as [[summary d'] ->].
  { apply (f_equal fst) in Hl. vm_compute in Hl. subst x. by eexists. }
  exists summary, d', w'. split; [reflexivity|].
  exact (proj2 (the_file_decides_what_roles_grant stricter shipped.2 (Ok (summary, d')) w' shipped_roles_ok Hl)).
Defined.
End RolesDemo.
