(* ===== verification/Journal.v ===== *)
(** * Reading the journals back

    [application/ports/journal_reader.py], [infrastructure/logging/
    journal_reader.py] and [application/use_cases/journals/read_journal.py]:
    the last lines of a log file and of its archives, found by reading the
    files backwards a block at a time, filtered, and handed to those who may
    read them.  A file is its name and its bytes; an archive [gzip] has packed
    is the bytes [gzip.open] reads from it. *)

From S2P Require Import Prelude PyStr Utf8 Json Exceptions ValueObjects Entities Policies Cache Database.
From S2P Require Import LinkRepo UserRepo Sessions Auth Admin.

(** ** The port *)

Inductive Journal := APPLICATION | ERROR | AUDIT.

Definition journal_value (j : Journal) : pystr :=
  lit match j with APPLICATION => "application" | ERROR => "error" | AUDIT => "audit" end%string.

Definition HEALTH_PROBE_EVENT_TYPE : pystr := lit "LOGGING_CHAIN_PROBE".
Definition HARD_LIMIT : Z := 2000.

(** [fields.get(k) == s], which no value but that string is. *)
Definition field_is (k : pystr) (fields : fields_t) (s : pystr) : bool :=
  match json_get k fields with Some (JString t) => bool_decide (t = s) | _ => false end.

Record JournalFilter := MkJournalFilter {
  jf_event_type : option pystr;
  jf_account : option pystr;
  jf_remote_addr : option pystr;
  jf_short_code : option pystr;
  jf_since : option pystr;
  jf_until : option pystr;
}.
Definition no_filter : JournalFilter := MkJournalFilter None None None None None None.

(** [if value]: [None] and the empty string ask for nothing. *)
Definition given (o : option pystr) : bool :=
  match o with None | Some [] => false | _ => true end.
Definition asks (o : option pystr) (holds : pystr → bool) : bool :=
  match o with None | Some [] => true | Some s => holds s end.

Definition is_empty (q : JournalFilter) : bool :=
  negb (given (jf_event_type q) || given (jf_account q) || given (jf_remote_addr q) ||
        given (jf_short_code q) || given (jf_since q) || given (jf_until q)).

Definition str_lt (a b : pystr) : bool := negb (str_le b a).

Definition within_the_range (q : JournalFilter) (stamp : option json) : bool :=
  if negb (given (jf_since q) || given (jf_until q)) then true
  else match stamp with
       | Some (JString s) =>
           asks (jf_since q) (λ since, negb (str_lt (take (length since) s) since)) &&
           asks (jf_until q) (λ until, negb (str_lt until (take (length until) s)))
       | _ => false
       end.

Definition matches (q : JournalFilter) (fields : fields_t) : bool :=
  if field_is (lit "event_type") fields HEALTH_PROBE_EVENT_TYPE &&
     negb (bool_decide (jf_event_type q = Some HEALTH_PROBE_EVENT_TYPE)) then false
  else if is_empty q then true
  else match fields with
       | [] => false
       | _ =>
           asks (jf_event_type q) (field_is (lit "event_type") fields) &&
           asks (jf_account q) (λ a, field_is (lit "user_id") fields a ||
                                     field_is (lit "target_user_id") fields a) &&
           asks (jf_remote_addr q) (field_is (lit "remote_addr") fields) &&
           asks (jf_short_code q) (field_is (lit "short_code") fields) &&
           within_the_range q (json_get (lit "timestamp") fields)
       end.

Record JournalLine := MkJournalLine {
  jl_raw : pystr;
  jl_fields : fields_t;
  jl_parsed : bool;
  jl_source : pystr;
}.

Record JournalPage := MkJournalPage {
  jp_lines : list JournalLine;
  jp_total_scanned : Z;
  jp_reached_start : bool;
  jp_files_read : list pystr;
  jp_oldest_available : option pystr;
}.

(** ** Files *)

Record file := MkFile { f_name : pystr; f_bytes : list Z }.
Definition is_packed (name : pystr) : bool := endswith (lit ".gz") name.

(** The last [n] of a list; [lines[-n:]] with [n] positive. *)
Definition last_n {A} (n : Z) (l : list A) : list A := drop (length l - Z.to_nat n) l.

(** Cutting into lines: nothing follows the last newline. *)
Definition without_last_empty (ls : list pystr) : list pystr :=
  match list.last ls with Some [] => removelast ls | _ => ls end.

Definition BLOCK : Z := 64 * 1024.
Definition SCAN_LIMIT : Z := 50000.

Definition count_newlines (bs : list Z) : Z := Z.of_nat (count_where (λ b, b = NEWLINE) bs).

(** The loop of [_lines_backwards]: [position] bytes are still to be read,
    [buffer] are the blocks read so far, put together.  Each turn moves
    [position] down, so as much fuel as bytes is enough. *)
Fixpoint read_back (block : Z) (fuel : nat) (bytes : list Z) (wanted position newlines : Z)
    (buffer : list Z) : list Z * Z :=
  match fuel with
  | O => (buffer, position)
  | S fuel =>
      if (0 <? position) && (newlines <=? wanted) then
        let step := Z.min block position in
        let position := position - step in
        let chunk := take (Z.to_nat step) (drop (Z.to_nat position) bytes) in
        read_back block fuel bytes wanted position (newlines + count_newlines chunk) (chunk ++ buffer)
      else (buffer, position)
  end.

(** Reading forwards through a packed file: the lines a handle yields, the
    last [wanted] of them kept. *)
Definition lines_forwards (bytes : list Z) (wanted : Z) : list pystr :=
  last_n wanted (decode <$> without_last_empty (split_on NEWLINE bytes)).

Definition lines_backwards (block : Z) (f : file) (wanted : Z) : list pystr * bool :=
  if is_packed (f_name f) then (lines_forwards (f_bytes f) wanted, true)
  else
    let '(buffer, position) :=
      read_back block (length (f_bytes f)) (f_bytes f) wanted (len (f_bytes f)) 0 [] in
    let lines := without_last_empty (split_on NEWLINE (decode buffer)) in
    (last_n wanted lines, position =? 0).

(** ** Archives *)

Section reader.
(** The decimal digits of Unicode and their values. *)
Context (decimal : Z → option Z).

Definition parse_generation (s : pystr) : option Z :=
  match s with
  | [] => None
  | _ => foldl (λ acc c, a ← acc; d ← decimal c; Some (a * 10 + d)) (Some 0) s
  end.

(** What [(?P<base>.+\.log)] matches. *)
Definition is_log_name (base : pystr) : bool :=
  (4 <? len base) && endswith (lit ".log") base && negb (bool_decide (NEWLINE ∈ base)).

(** [ARCHIVE], for names whose base is [base]: a dot, digits, perhaps [.gz];
    [$] also matches before a newline that ends the name. *)
Definition generation_of (base name : pystr) : option Z :=
  if is_log_name base && startswith (base ++ [DOT]) name then
    let rest := drop (length base + 1) name in
    let rest := if endswith [NEWLINE] rest then removelast rest else rest in
    let rest := if is_packed rest then take (length rest - 3) rest else rest in
    parse_generation rest
  else None.

Definition older (a b : Z * file) : Prop :=
  a.1 < b.1 ∨ (a.1 = b.1 ∧ str_le (f_name a.2) (f_name b.2) = true).
#[global] Instance older_dec a b : Decision (older a b).
Proof. unfold older. apply _. Defined.

(** Newest generation first. *)
Definition archives_of (base : pystr) (dir : list file) : list file :=
  snd <$> merge_sort older
    (omap (λ f, (λ g, (g, f)) <$> generation_of base (f_name f)) dir).

(** ** [FileJournalReader] *)

Definition parse (raw source : pystr) : JournalLine :=
  match loads raw with
  | Some (JObject fields) => MkJournalLine raw fields true source
  | _ => MkJournalLine raw [] false source
  end.

Definition is_plain (where_ : option JournalFilter) : bool :=
  match where_ with None => true | Some q => is_empty q end.

(** The state of the loop over the files, newest first. *)
Record Scan := MkScan {
  sc_collected : list JournalLine;
  sc_files : list pystr;
  sc_reached : bool;
  sc_scanned : Z;
}.

(** [None]: the loop ran to its end; [Some]: it broke off. *)
Fixpoint scan_files (q : JournalFilter) (wanted budget : Z) (files : list file) (s : Scan)
    : Scan * bool :=
  match files with
  | [] => (s, false)
  | f :: files =>
      let room := budget - sc_scanned s in
      if room <=? 0 then (s, true)
      else
        let '(lines, hit_start) := lines_backwards BLOCK f room in
        let scanned := sc_scanned s + len lines in
        let found := filter (λ l, matches q (jl_fields l) = true)
                       ((λ raw, parse raw (f_name f)) <$> lines) in
        let collected := found ++ sc_collected s in
        let names := sc_files s ++ [f_name f] in
        if (wanted <=? len collected) || (budget <=? scanned)
        then (MkScan collected names false scanned, true)
        else scan_files q wanted budget files (MkScan collected names hit_start scanned)
  end.

(** [dir] is [None] where the log directory does not exist. *)
Definition archives_in (dir : option (list file)) (base : pystr) : list file :=
  match dir with None => [] | Some d => archives_of base d end.
Definition live_in (dir : option (list file)) (base : pystr) : list file :=
  filter (λ f, f_name f = base) (default [] dir).
Definition line_limit (limit : Z) : Z := Z.max 0 (Z.min limit HARD_LIMIT).

Definition tail_ (dir : option (list file)) (base : pystr) (limit : Z) (include_archives : bool)
    (where_ : option JournalFilter) (deep : bool) : JournalPage :=
  let wanted := line_limit limit in
  let looking_for := default no_filter where_ in
  let archives := archives_in dir base in
  let live := live_in dir base in
  let oldest := f_name <$> list.last archives in
  if wanted =? 0 then MkJournalPage [] 0 false [] oldest
  else
    let budget := if deep || negb (is_plain where_) then SCAN_LIMIT else wanted in
    let '(s, broke) := scan_files looking_for wanted budget
                         (live ++ (if include_archives then archives else []))
                         (MkScan [] [] false 0) in
    let reached_start :=
      if broke then sc_reached s
      else match sc_files s, archives with
           | [], [] => true
           | _, _ => sc_reached s &&
                     (include_archives || match archives with [] => true | _ => false end)
           end in
    MkJournalPage (last_n wanted (sc_collected s)) (sc_scanned s) reached_start (sc_files s) oldest.

Definition tail (dir : option (list file)) (base : pystr) (limit : Z) (include_archives : bool)
    (where_ : option JournalFilter) : JournalPage :=
  let page := tail_ dir base limit include_archives where_ false in
  let short := len (jp_lines page) <? line_limit limit in
  if short && negb (jp_reached_start page) && is_plain where_
  then tail_ dir base limit include_archives where_ true
  else page.
End reader.

(** ** [ReadJournalUseCase] *)

Definition PERMISSION_FOR (j : Journal) : pystr :=
  match j with AUDIT => AUDIT_VIEW | APPLICATION | ERROR => LOGS_VIEW end.

Section use_case.
Context {C : Type} `{CaseFolding}.
Context (decimal : Z → option Z).
(** The log directory, and the names of the files in it. *)
Context (dir : option (list file)) (file_names : Journal → pystr).
Abbreviation P := (M (World C) exn).

Definition path_of (journal : Journal) : pystr := file_names journal ++ lit ".log".

Definition require_may_read_journal (journal : Journal) (context : RequestContext) : P unit :=
  requester ← with_uow (load_actor context);
  d ← gets w_db;
  if is_allowed d requester (PERMISSION_FOR journal) then mret tt
  else match requester with
       | None => raise (DomainError (lit "Authentication required") (lit "UNAUTHENTICATED"))
       | Some _ => raise (PermissionDeniedError [PERMISSION_FOR journal] [])
       end.

Definition why_this_read_is_recorded (searching archives : bool) : pystr :=
  lit (if searching then "searched" else if archives then "archives" else "opened")%string.

Definition terms_of (where_ : option JournalFilter) : list (pystr * pystr) :=
  match where_ with
  | None => []
  | Some q =>
      omap (λ '(name, value), if given value then (λ v, (lit name, v)) <$> value else None)
        [("event_type"%string, jf_event_type q); ("account"%string, jf_account q);
         ("remote_addr"%string, jf_remote_addr q); ("short_code"%string, jf_short_code q);
         ("since"%string, jf_since q); ("until"%string, jf_until q)]
  end.

Definition record_the_read (journal : Journal) (include_archives following : bool)
    (where_ : option JournalFilter) : P unit :=
  let searching := match where_ with None => false | Some q => negb (is_empty q) end in
  if following then mret tt
  else audit (AuditViewed (journal_value journal)
                (why_this_read_is_recorded searching include_archives) (terms_of where_)).

Definition read_journal (journal : Journal) (context : RequestContext) (limit : Z)
    (include_archives following : bool) (where_ : option JournalFilter) : P JournalPage :=
  require_may_read_journal journal context;;
  let page := tail decimal dir (path_of journal) limit include_archives where_ in
  record_the_read journal include_archives following where_;;
  mret page.
End use_case.
