(* ===== verification/JournalTheorems.v ===== *)
(** * What reading a journal returns

    Reading a file backwards in blocks gives its last lines, whatever the
    block size, the length of the lines and the bytes in them; a page holds
    the last matching lines of what was looked at; a page that says it
    reached the start left nothing out; and who may read is answered and
    recorded. *)

From S2P Require Import Prelude PyStr Utf8 Json Exceptions ValueObjects Entities Policies Cache Database.
From S2P Require Import LinkRepo UserRepo Sessions Auth Admin AdminTheorems Demo AdminClaims Journal.

(** ** The end of a list *)

Section last_n.
Context {A : Type}.
Implicit Types (l : list A) (n : Z).

Lemma last_n_app n l1 l2 : n <= len l2 → last_n n (l1 ++ l2) = last_n n l2.
Proof.
  rewrite /len /last_n length_app. intros Hn. rewrite drop_app_ge; [|lia]. f_equal. lia.
Qed.

Lemma last_n_all n l : len l <= n → last_n n l = l.
Proof. rewrite /len /last_n. intros Hn. rewrite (_ : (_ - _ = 0)%nat); [done|lia]. Qed.

(** The last [n] of a list whose last part is no longer than [n] end in it. *)
Lemma last_n_app_short n l1 l2 : len l2 <= n → ∃ l, last_n n (l1 ++ l2) = l ++ l2.
Proof.
  rewrite /len /last_n length_app. intros Hn. eexists. rewrite drop_app_le; [done|lia].
Qed.

Lemma last_n_length n l : 0 <= n → len (last_n n l) = Z.min n (len l).
Proof. rewrite /len /last_n length_drop. lia. Qed.

Lemma last_n_split n l : ∃ l', l = l' ++ last_n n l.
Proof. eexists. symmetry. apply take_drop. Qed.

Lemma last_n_last_n n m l : n <= m → last_n n (last_n m l) = last_n n l.
Proof. intros Hnm. rewrite /last_n length_drop drop_drop. f_equal. lia. Qed.
End last_n.

Lemma last_n_fmap {A B} (f : A → B) n l : last_n n (f <$> l) = f <$> last_n n l.
Proof. by rewrite /last_n length_fmap fmap_drop. Qed.

(** ** Reading backwards in blocks *)

Lemma count_newlines_app a b : count_newlines (a ++ b) = count_newlines a + count_newlines b.
Proof. rewrite /count_newlines count_where_app. lia. Qed.

(** The loop reads a tail of the file, and stops at the start of it or with
    more newlines than lines are wanted. *)
Lemma read_back_spec block bytes wanted fuel position :
  0 < block → 0 <= position <= len bytes → position <= Z.of_nat fuel →
  let buffer := drop (Z.to_nat position) bytes in
  let '(b, p) := read_back block fuel bytes wanted position (count_newlines buffer) buffer in
  b = drop (Z.to_nat p) bytes ∧ 0 <= p ∧ (p = 0 ∨ wanted < count_newlines b).
Proof.
  intros Hb. revert position. induction fuel as [|fuel IH]; intros position Hp Hf buffer; simpl.
  { split_and!; [done|lia|left; lia]. }
  destruct (0 <? position) eqn:E1; simpl; [|split_and!; [done|lia|left; lia]].
  destruct (count_newlines buffer <=? wanted) eqn:E2; [|split_and!; [done|lia|right; lia]].
  set (step := Z.min block position). set (chunk := take _ _).
  assert (chunk ++ buffer = drop (Z.to_nat (position - step)) bytes) as Hc.
  { rewrite /chunk /buffer -{2}(take_drop (Z.to_nat step) (drop (Z.to_nat (position - step)) bytes)).
    rewrite drop_drop. do 2 f_equal. lia. }
  rewrite Z.add_comm -count_newlines_app Hc. apply IH; lia.
Qed.

(** ** Lines *)

Lemma split_on_length c s : length (split_on c s) = S (count_where (λ b, b = c) s).
Proof.
  induction s as [|d s IH]; [done|]. rewrite /count_where in IH |- *. cbn [split_on].
  destruct (Z.eqb_spec d c) as [->|Hd].
  - rewrite filter_cons_True //=. by rewrite IH.
  - rewrite filter_cons_False //. by destruct (split_on c s).
Qed.

(** What precedes a piece of text only changes its first line. *)
Lemma split_on_behind c pre s : ∃ w ws, split_on c (pre ++ s) = w :: ws ++ list.tail (split_on c s).
Proof.
  induction pre as [|d pre (w & ws & IH)]; simpl.
  - destruct (split_on c s) as [|w ws] eqn:E; [by apply split_on_nonempty in E|]. by exists w, [].
  - rewrite IH. destruct (d =? c); [by exists [], (w :: ws)|by eexists _, ws].
Qed.

Lemma without_last_empty_app l t : t ≠ [] →
  without_last_empty (l ++ t) = l ++ without_last_empty t.
Proof.
  intros Ht. destruct t as [|x t _] using rev_ind; [done|].
  rewrite /without_last_empty app_assoc !last_snoc. destruct x; [|by rewrite -app_assoc].
  by rewrite -app_assoc removelast_app // removelast_last.
Qed.

Lemma without_last_empty_length l : len l - 1 <= len (without_last_empty l).
Proof.
  destruct l as [|x l _] using rev_ind; [done|]. rewrite /without_last_empty last_snoc /len.
  destruct x; [rewrite removelast_last|]; rewrite length_app /=; lia.
Qed.

Lemma decode_empty bs : decode bs = [] → bs = [].
Proof. destruct bs as [|b bs]; [done|]. rewrite decode_cons. by destruct (decode_one b bs). Qed.

Lemma without_last_empty_decode ls :
  without_last_empty (decode <$> ls) = decode <$> without_last_empty ls.
Proof.
  destruct ls as [|x l _] using rev_ind; [done|].
  rewrite /without_last_empty fmap_app /= !last_snoc. destruct x as [|b x].
  - by rewrite !removelast_last.
  - destruct (decode (b :: x)) as [|c y] eqn:E; [by apply decode_empty in E|].
    by rewrite fmap_app /= E.
Qed.

(** The lines of a file: cut at the newlines, each decoded on its own. *)
Definition lines_of (f : file) : list pystr :=
  decode <$> without_last_empty (split_on NEWLINE (f_bytes f)).

(** The lines of a tail of the file with more newlines than lines wanted. *)
Lemma lines_of_the_tail pre s wanted : 0 <= wanted < count_newlines s →
  last_n wanted (without_last_empty (split_on NEWLINE (pre ++ s))) =
  last_n wanted (without_last_empty (split_on NEWLINE s)).
Proof.
  intros Hw. pose proof (split_on_length NEWLINE s) as Hl.
  destruct (split_on_behind NEWLINE pre s) as (w & ws & ->).
  destruct (split_on NEWLINE s) as [|x t] eqn:E; [by apply split_on_nonempty in E|].
  rewrite /count_newlines in Hw. simpl in *.
  assert (t ≠ []) as Ht by (intros ->; simpl in *; lia).
  pose proof (without_last_empty_length t) as Hwl. rewrite /len in Hwl.
  change (x :: t) with ([x] ++ t). change (w :: ws ++ t) with ((w :: ws) ++ t).
  rewrite !without_last_empty_app // !last_n_app //; rewrite /len; lia.
Qed.

Lemma lines_backwards_spec block f wanted : 0 < block → 0 < wanted →
  ∃ hit, lines_backwards block f wanted = (last_n wanted (lines_of f), hit) ∧
         (hit = false → wanted <= len (lines_of f)).
Proof.
  intros Hb Hw. rewrite /lines_backwards.
  destruct (is_packed (f_name f)); [by exists true|].
  pose proof (read_back_spec block (f_bytes f) wanted (length (f_bytes f)) (len (f_bytes f)) Hb
    ltac:(rewrite /len; lia) ltac:(rewrite /len; lia)) as Hr.
  rewrite (_ : drop (Z.to_nat (len (f_bytes f))) (f_bytes f) = []) in Hr; [|by rewrite /len Nat2Z.id drop_all].
  cbn zeta in Hr. change (count_newlines []) with 0 in Hr.
  destruct (read_back _ _ _ _ _ _ _) as [b p]. destruct Hr as (-> & Hp & Hend).
  exists (p =? 0). rewrite split_decode without_last_empty_decode last_n_fmap.
  destruct Hend as [->|Hn].
  { by rewrite /lines_of last_n_fmap. }
  split.
  - f_equal. rewrite /lines_of last_n_fmap. f_equal.
    rewrite -{2}(take_drop (Z.to_nat p) (f_bytes f)). symmetry. apply lines_of_the_tail. lia.
  - intros _. rewrite /lines_of /len length_fmap.
    pose proof (without_last_empty_length (split_on NEWLINE (f_bytes f))) as Hl.
    rewrite /len split_on_length in Hl.
    pose proof (count_newlines_app (take (Z.to_nat p) (f_bytes f)) (drop (Z.to_nat p) (f_bytes f))) as Hc.
    rewrite take_drop in Hc. rewrite /count_newlines in Hc, Hn. lia.
Qed.

(** Reading a journal file backwards, a block at a time, gives the last
    [wanted] lines of the file as cutting the whole of it into lines would,
    whatever the size of the blocks: a block boundary inside a line or inside
    a character changes nothing.  The flag that says the start was not reached
    is only given where there are at least as many lines as were wanted. *)
Theorem backwards_is_the_tail block f wanted : 0 < block → 0 < wanted →
  ∃ hit, lines_backwards block f wanted = (last_n wanted (lines_of f), hit) ∧
         (hit = false → wanted <= len (lines_of f)).
Proof. apply lines_backwards_spec. Qed.

(** ** A page *)

Section pages.
Context (decimal : Z → option Z).

(** The parsed lines of a file, and of several, oldest first; the files come
    newest first. *)
Definition document (f : file) : list JournalLine :=
  (λ raw, parse raw (f_name f)) <$> lines_of f.
Fixpoint chronicle (files : list file) : list JournalLine :=
  match files with [] => [] | f :: files => chronicle files ++ document f end.

Definition matching (q : JournalFilter) (l : list JournalLine) : list JournalLine :=
  filter (λ x, matches q (jl_fields x) = true) l.

Lemma matching_app q l1 l2 : matching q (l1 ++ l2) = matching q l1 ++ matching q l2.
Proof. apply list.filter_app. Qed.
Lemma matching_len q l : len (matching q l) <= len l.
Proof. rewrite /len. pose proof (length_filter (λ x, matches q (jl_fields x) = true) l). rewrite /matching. lia. Qed.

Lemma len_app {A} (l1 l2 : list A) : len (l1 ++ l2) = len l1 + len l2.
Proof. rewrite /len length_app. lia. Qed.
Lemma len_zero {A} (l : list A) : len l <= 0 → l = [].
Proof. destruct l; [done|rewrite /len /=; lia]. Qed.

(** One file: its last lines, and all of them where there was room for more. *)
Lemma one_file f room : 0 < room →
  ∃ lines hit rest,
    lines_backwards BLOCK f room = (lines, hit) ∧
    let found := (λ raw, parse raw (f_name f)) <$> lines in
    document f = rest ++ found ∧ len lines = len found ∧ len lines <= room ∧
    (len lines < room → rest = [] ∧ hit = true).
Proof.
  intros Hr. destruct (lines_backwards_spec BLOCK f room) as (hit & -> & Hhit); [done|lia|].
  destruct (last_n_split room (lines_of f)) as [r Hsp].
  pose proof (last_n_length room (lines_of f) ltac:(lia)) as Hl.
  assert (len (lines_of f) = len r + len (last_n room (lines_of f))) as Hlen by (by rewrite -len_app -Hsp).
  eexists _, hit, ((λ raw, parse raw (f_name f)) <$> r). split; [done|]. split_and!.
  - by rewrite /document {1}Hsp fmap_app.
  - by rewrite /len length_fmap.
  - lia.
  - intros Hlt. split; [|destruct hit; [done|]; lia].
    rewrite (len_zero r); [done|]. lia.
Qed.

(** What the loop has read, [seen], is a tail of the chronicle; it breaks off
    with enough lines or with its budget spent, and otherwise has read all. *)
Lemma scan_files_spec q wanted budget files seen s :
  sc_collected s = matching q seen → sc_scanned s = len seen →
  len seen < budget → len (matching q seen) < wanted →
  let '(s', broke) := scan_files q wanted budget files s in
  ∃ rest more, chronicle files = rest ++ more ∧
    sc_collected s' = matching q (more ++ seen) ∧ sc_scanned s' = len (more ++ seen) ∧
    len (more ++ seen) <= budget ∧
    (if broke then sc_reached s' = false ∧
                   (wanted <= len (sc_collected s') ∨ len (more ++ seen) = budget)
     else rest = [] ∧ len (sc_collected s') < wanted ∧ len (more ++ seen) < budget ∧
          sc_files s' = sc_files s ++ (f_name <$> files) ∧
          sc_reached s' = match files with [] => sc_reached s | _ => true end).
Proof.
  revert seen s. induction files as [|f files IH]; intros seen s Hc Hs Hb Hw; simpl.
  { exists [], []. simpl. rewrite Hc app_nil_r. split_and!; auto; lia. }
  rewrite (_ : budget - sc_scanned s <=? 0 = false); [|lia].
  destruct (one_file f (budget - sc_scanned s)) as (lines & hit & rest & -> & Hd & Hl & Hle & Hall); [lia|].
  set (found := (λ raw, parse raw (f_name f)) <$> lines) in *.
  change (filter _ found) with (matching q found).
  pose proof (len_app found seen) as Hfs.
  rewrite Hc -matching_app Hl Hs -(_ : len (found ++ seen) = len seen + len found); [|lia].
  destruct (wanted <=? _) eqn:E1; simpl; [|destruct (budget <=? _) eqn:E2].
  - exists (chronicle files ++ rest), found. rewrite Hd -app_assoc. simpl. split_and!; auto; lia.
  - exists (chronicle files ++ rest), found. rewrite Hd -app_assoc. simpl. split_and!; auto; lia.
  - destruct Hall as [-> ->]; [lia|].
    specialize (IH (found ++ seen) (MkScan (matching q (found ++ seen)) (sc_files s ++ [f_name f]) true
                   (len (found ++ seen))) eq_refl eq_refl ltac:(lia) ltac:(lia)).
    destruct (scan_files _ _ _ _ _) as [s' broke]. destruct IH as (rest & more & Hch & H1 & H2 & H3 & H4).
    exists rest, (more ++ found). rewrite Hd /= Hch -!app_assoc. split_and!; auto.
    destruct broke; [done|]. destruct H4 as (-> & ? & ? & Hf & Hr). split_and!; auto.
    + by rewrite Hf /= -app_assoc.
    + rewrite Hr. by destruct files.
Qed.

(** The lines a page shows, of a tail of the chronicle that holds all that
    was read. *)
Lemma enough_was_read q wanted budget rest more : len more <= budget →
  wanted <= len (matching q more) ∨ len more = budget ∨ rest = [] →
  last_n wanted (matching q (last_n budget (rest ++ more))) = last_n wanted (matching q more).
Proof.
  intros Hle [Hw|[Hb| ->]].
  - destruct (last_n_app_short budget rest more Hle) as [l ->]. by rewrite matching_app last_n_app.
  - by rewrite last_n_app; [|lia]; rewrite (last_n_all budget more).
  - by rewrite (last_n_all budget).
Qed.

Section one_page.
Context (dir : option (list file)) (base : pystr).
Context (limit : Z) (include_archives : bool) (where_ : option JournalFilter).
Let archives := archives_in decimal dir base.
Let files := live_in dir base ++ (if include_archives then archives else []).
Let wanted := line_limit limit.
Let q := default no_filter where_.

Lemma tail_spec_deep deep :
  let budget := if deep || negb (is_plain where_) then SCAN_LIMIT else wanted in
  let page := tail_ decimal dir base limit include_archives where_ deep in
  jp_lines page = last_n wanted (matching q (last_n budget (chronicle files))) ∧
  0 <= jp_total_scanned page <= budget ∧
  (jp_reached_start page = true →
     jp_lines page = matching q (chronicle (live_in dir base ++ archives)) ∧
     jp_lines page = matching q (chronicle files) ∧ len (chronicle files) < budget).
Proof.
  intros budget. rewrite /tail_ -/archives -/files -/wanted -/q.
  assert (0 <= wanted <= budget) as Hwb.
  { rewrite /budget /wanted /line_limit. change SCAN_LIMIT with 50000. change HARD_LIMIT with 2000.
    case_match; lia. }
  destruct (Z.eqb_spec wanted 0) as [Hz|Hz]; simpl.
  { split_and!; [|lia..|done]. rewrite Hz /last_n Nat.sub_0_r. by rewrite drop_all. }
  pose proof (scan_files_spec q wanted budget files [] (MkScan [] [] false 0) eq_refl eq_refl
    ltac:(rewrite /len /=; lia) ltac:(rewrite /len /=; lia)) as Hs.
  fold budget. destruct (scan_files _ _ _ _ _) as [s broke].
  destruct Hs as (rest & more & Hch & Hc & Hn & Hle & Hend). rewrite app_nil_r in Hc, Hn, Hle, Hend.
  rewrite Hch Hc. simpl. split_and!; [|pose proof (len_nonneg more); lia..|].
  { symmetry. apply enough_was_read; [done|]. rewrite Hc in Hend. destruct broke; naive_solver. }
  destruct broke; [destruct Hend as [-> _]; done|].
  destruct Hend as (-> & Hw & Hb & Hf & Hr). simpl in *. rewrite last_n_all; [|rewrite -Hc; lia].
  intros Hreach. split_and!; [|done|done]. f_equal. rewrite -Hch /files.
  destruct include_archives; [done|]. destruct archives as [|a l]; [done|].
  exfalso. revert Hreach. rewrite /= andb_false_r. by destruct (sc_files s).
Qed.

(** C39: A page of a journal holds the last matching lines, oldest first, of the
    last [SCAN_LIMIT] lines of the live file and, where asked for, of its
    archives: at most as many as were asked for and never more than
    [HARD_LIMIT].  So reading only as many lines as are wanted first, and more
    only where some of them were probes, shows what reading everything would. *)
Theorem page_is_the_last_matching_lines :
  let page := tail decimal dir base limit include_archives where_ in
  jp_lines page = last_n wanted (matching q (last_n SCAN_LIMIT (chronicle files))) ∧
  len (jp_lines page) <= HARD_LIMIT ∧ 0 <= jp_total_scanned page <= SCAN_LIMIT.
Proof.
  assert (0 <= wanted <= HARD_LIMIT) as Hw.
  { rewrite /wanted /line_limit. change HARD_LIMIT with 2000. lia. }
  pose proof (tail_spec_deep false) as (Hl & Hn & Hr). pose proof (tail_spec_deep true) as (Hdl & Hdn & _).
  cut (jp_lines (tail decimal dir base limit include_archives where_) =
       last_n wanted (matching q (last_n SCAN_LIMIT (chronicle files))) ∧
       0 <= jp_total_scanned (tail decimal dir base limit include_archives where_) <= SCAN_LIMIT).
  { cbn zeta. intros [-> Hs]. split_and!; [done| |lia..]. rewrite last_n_length; lia. }
  rewrite /tail -/wanted. set (page := tail_ _ _ _ _ _ _ _) in *.
  destruct (is_plain where_) eqn:Ep; simpl in *; [|by rewrite andb_false_r].
  rewrite andb_true_r. change SCAN_LIMIT with 50000 in *. change HARD_LIMIT with 2000 in *.
  destruct (jp_reached_start page) eqn:Er; [rewrite andb_false_r|].
  - destruct (Hr eq_refl) as (_ & Hall & Hlt). split; [|lia].
    rewrite Hl (last_n_all wanted (chronicle files)); [|lia]. by rewrite (last_n_all 50000); [|lia].
  - destruct (Z.ltb_spec (len (jp_lines page)) wanted) as [Hs|Hs]; simpl; [done|]. split; [|lia].
    rewrite Hl last_n_length in Hs; [|lia]. rewrite Hl.
    rewrite -(last_n_last_n wanted 50000 (chronicle files)) in Hs |- *; [|lia].
    destruct (last_n_split wanted (last_n 50000 (chronicle files))) as [l Hsp].
    rewrite {2}Hsp matching_app last_n_app //. lia.
Qed.

(** A page that says it reached the start shows every matching line there
    is: those of the live file and of all its archives, whether or not the
    archives were asked for. *)
Theorem nothing_before_the_start :
  let page := tail decimal dir base limit include_archives where_ in
  jp_reached_start page = true →
  jp_lines page = matching q (chronicle (live_in dir base ++ archives)).
Proof.
  intros page Hr. revert Hr. rewrite /page /tail. case_match; intros Hr.
  - by destruct (tail_spec_deep true) as (_ & _ & [Hall _]).
  - by destruct (tail_spec_deep false) as (_ & _ & [Hall _]).
Qed.
End one_page.
End pages.

(** ** Who may read *)

Section reading.
Context {C : Type} `{CaseFolding}.
Context (decimal : Z → option Z).
Context (dir : option (list file)) (file_names : Journal → pystr).

(** Whether an account may read a journal: the audit journal is not part of
    what [admin:all] gives. *)
Definition may_read (j : Journal) (u : User) : Prop :=
  PERMISSION_FOR j ∈ permissions_held_by (Some u) ∨
  (j ≠ AUDIT ∧ ADMIN_ALL ∈ permissions_held_by (Some u)).
#[global] Instance journal_eq_dec : EqDecision Journal.
Proof. solve_decision. Defined.
#[global] Instance may_read_dec j u : Decision (may_read j u).
Proof. unfold may_read. apply _. Defined.

Lemma may_read_allowed d j u : is_allowed d (Some u) (PERMISSION_FOR j) = true ↔ may_read j u.
Proof.
  rewrite is_allowed_user /may_read.
  assert (PERMISSION_FOR j ≠ AUDIT_VIEW ↔ j ≠ AUDIT) as -> by (by destruct j). done.
Qed.

Lemma journal_gate j context (w : World C) :
  require_may_read_journal j context w = (gate_answer context (PERMISSION_FOR j) (w_db w), w).
Proof. apply (permission_gate context (PERMISSION_FOR j) w). by destruct j; apply (bool_decide_unpack _). Qed.

(** A journal is shown only to an account that may read it: the audit
    journal to holders of [audit:view], which [admin:all] does not imply, the
    others to holders of [logs:view] or [admin:all].  A refused read changes
    nothing; a read that is shown is recorded, with its reason and the terms
    searched for, unless it only follows a page that is already open. *)
Theorem reading_is_authorised_and_recorded j context limit archives following q
    (w : World C) r w' :
  read_journal decimal dir file_names j context limit archives following q w = (r, w') →
  match actor_of context (w_db w) with
  | Err e => r = Err e ∧ w' = w
  | Ok None => r = Err (DomainError (lit "Authentication required") (lit "UNAUTHENTICATED")) ∧ w' = w
  | Ok (Some u) =>
      if decide (may_read j u) then
        r = Ok (tail decimal dir (path_of file_names j) limit archives q) ∧
        w' = (if following then w
              else add_audit (AuditViewed (journal_value j)
                     (why_this_read_is_recorded (negb (is_plain q)) archives) (terms_of q)) w)
      else r = Err (PermissionDeniedError [PERMISSION_FOR j] []) ∧ w' = w
  end.
Proof.
  rewrite /read_journal {1}/mbind {1}/M_bind journal_gate /gate_answer.
  destruct (actor_of context (w_db w)) as [[u|]|e]; [|intros [= <- <-]; done..].
  destruct (is_allowed (w_db w) (Some u) (PERMISSION_FOR j)) eqn:Ha.
  - apply may_read_allowed in Ha. rewrite decide_True //. rewrite /record_the_read.
    by destruct following; [|destruct q]; intros [= <- <-].
  - rewrite decide_False; [by intros [= <- <-]|]. intros Hm.
    apply (may_read_allowed (w_db w)) in Hm. by rewrite Hm in Ha.
Qed.
End reading.

(** ** A directory of journals *)

Module JournalDemo.
Import Demo AdminDemo.

(** ASCII digits. *)
Definition ascii_digit (c : Z) : option Z := if (48 <=? c) && (c <=? 57) then Some (c - 48) else None.

(** Two letters of two bytes each, which blocks of three bytes cut. *)
Definition live : file := MkFile (lit "error.log") ([195; 169; 195; 168; NEWLINE] ++ lit "third" ++ [NEWLINE]).
Definition archive n text : file := MkFile (lit "error.log." ++ lit n) (lit text ++ [NEWLINE]).
(** A line the health check left. *)
Definition probe : pystr := dumps (JObject [(lit "event_type", JString HEALTH_PROBE_EVENT_TYPE)]).
Definition logs : option (list file) :=
  Some [archive "2.gz" "first"; live; MkFile (lit "error.log.1") (lit "second" ++ NEWLINE :: probe ++ [NEWLINE]);
        MkFile (lit "error.log.old") []].

Lemma backwards_is_the_tail_witness :
  ∃ hit, lines_backwards 3 live 2 = ([[233; 232]; lit "third"], hit).
Proof.
  destruct (backwards_is_the_tail 3 live 2 ltac:(lia) ltac:(lia)) as (hit & Hl & _).
  exists hit. exact Hl.
Defined.

Lemma nothing_before_the_start_witness :
  jl_raw <$> jp_lines (tail ascii_digit logs (lit "error.log") 10 true None) =
  [lit "first"; lit "second"; [233; 232]; lit "third"].
Proof.
  rewrite (nothing_before_the_start ascii_digit logs (lit "error.log") 10 true None);
    vm_compute; reflexivity.
Defined.

(** An administrator reads the error journal, and not the audit journal. *)
Lemma reading_is_authorised_and_recorded_witness :
  let read := read_journal ascii_digit logs (λ j, journal_value j) in
  (let '(r, w) := read ERROR boss 10 true false None world in
   is_ok r = true ∧ w = add_audit (AuditViewed (lit "error") (lit "archives") []) world) ∧
  read AUDIT boss 10 true false None world = (Err (PermissionDeniedError [AUDIT_VIEW] []), world).
Proof.
  intros read. split.
  - destruct (read ERROR boss 10 true false None world) as [r w] eqn:E.
    pose proof (reading_is_authorised_and_recorded ascii_digit logs (λ j, journal_value j)
      ERROR boss 10 true false None world r w E) as Hr.
    revert Hr. vm_compute. intros [-> ->]. split; reflexivity.
  - destruct (read AUDIT boss 10 true false None world) as [r w] eqn:E.
    pose proof (reading_is_authorised_and_recorded ascii_digit logs (λ j, journal_value j)
      AUDIT boss 10 true false None world r w E) as Hr.
    revert Hr. vm_compute. intros [-> ->]. reflexivity.
Defined.
End JournalDemo.
