(* ===== verification/SecurityEvents.v ===== *)
(** * The counts of security events

    [infrastructure/logging/handlers/audit/counting.py] counts what the audit
    log records; [infrastructure/database/repositories/
    sqlalchemy_security_event_repository.py] keeps the counts, raw for a year
    and per day and kind after that; [application/use_cases/admin/security/
    roll_up_security_events.py] folds and sweeps them, and
    [application/use_cases/security/get_security_counts.py] answers charts to
    those who may read the audit log.  The two tables are a record of their
    own: no other table refers to them. *)

From S2P Require Import Prelude PyStr Exceptions ValueObjects Entities Policies Cache Database.
From S2P Require Import LinkRepo UserRepo Sessions Auth Admin RollUp.

(** ** [AuditEvent] and [CountingAuditLogger] *)

Inductive AuditEvent :=
| URL_CREATED | URL_ACCESSED | URL_DELETED | LOGIN_SUCCEEDED | LOGIN_FAILED | SESSION_ENDED
| REFRESH_TOKEN_REPLAYED | REGISTERED | USER_CREATED | USER_DELETED | USER_ACTIVATED
| USER_EMAIL_CONFIRMED | USER_DEACTIVATED | UNVERIFIED_ACCOUNTS_SWEPT | EXPIRED_LINKS_SWEPT
| SECURITY_HISTORY_SWEPT | ADDRESSES_NORMALISED | ROLES_CHANGED | EMAIL_CONFIRMED
| PASSWORD_CHANGED | PASSWORD_RESET | USER_PASSWORD_RESET | ROLE_CREATED | ROLE_DELETED
| ROLE_PERMISSIONS_CHANGED | AUDIT_VIEWED | PERMISSION_DENIED.

#[global] Instance AuditEvent_eq_dec : EqDecision AuditEvent.
Proof. solve_decision. Defined.

Definition event_value (e : AuditEvent) : pystr :=
  lit match e with
      | URL_CREATED => "URL_CREATED" | URL_ACCESSED => "URL_ACCESSED"
      | URL_DELETED => "URL_DELETED" | LOGIN_SUCCEEDED => "LOGIN_SUCCEEDED"
      | LOGIN_FAILED => "LOGIN_FAILED" | SESSION_ENDED => "SESSION_ENDED"
      | REFRESH_TOKEN_REPLAYED => "REFRESH_TOKEN_REPLAYED" | REGISTERED => "REGISTERED"
      | USER_CREATED => "USER_CREATED" | USER_DELETED => "USER_DELETED"
      | USER_ACTIVATED => "USER_ACTIVATED" | USER_EMAIL_CONFIRMED => "USER_EMAIL_CONFIRMED"
      | USER_DEACTIVATED => "USER_DEACTIVATED"
      | UNVERIFIED_ACCOUNTS_SWEPT => "UNVERIFIED_ACCOUNTS_SWEPT"
      | EXPIRED_LINKS_SWEPT => "EXPIRED_LINKS_SWEPT"
      | SECURITY_HISTORY_SWEPT => "SECURITY_HISTORY_SWEPT"
      | ADDRESSES_NORMALISED => "ADDRESSES_NORMALISED" | ROLES_CHANGED => "ROLES_CHANGED"
      | EMAIL_CONFIRMED => "EMAIL_CONFIRMED" | PASSWORD_CHANGED => "PASSWORD_CHANGED"
      | PASSWORD_RESET => "PASSWORD_RESET" | USER_PASSWORD_RESET => "USER_PASSWORD_RESET"
      | ROLE_CREATED => "ROLE_CREATED" | ROLE_DELETED => "ROLE_DELETED"
      | ROLE_PERMISSIONS_CHANGED => "ROLE_PERMISSIONS_CHANGED" | AUDIT_VIEWED => "AUDIT_VIEWED"
      | PERMISSION_DENIED => "PERMISSION_DENIED"
      end%string.

Definition COUNTED_ELSEWHERE : list AuditEvent := [URL_CREATED; URL_ACCESSED; URL_DELETED].

Record SecurityEvent := MkSecurityEvent { se_id : pystr; se_type : pystr; se_at : Z }.
Record SecurityEventDay := MkSecurityEventDay { sd_day : Z; sd_type : pystr; sd_total : Z }.
Record EventTables := MkEventTables {
  security_events : list SecurityEvent;
  security_event_days : list SecurityEventDay;
}.

(** [_count]; [stored] is whether the database took the row: a failure is
    logged and the event goes on to the audit log uncounted. *)
Definition count_event (stored : bool) (now : Z) (uuid : pystr) (e : AuditEvent) (t : EventTables)
    : EventTables :=
  if decide (e ∈ COUNTED_ELSEWHERE) then t
  else if stored
  then MkEventTables (security_events t ++ [MkSecurityEvent uuid (event_value e) now])
         (security_event_days t)
  else t.

(** ** Folding and sweeping *)

Definition event_row (r : SecurityEventDay) : pystr * Z * Z := ((sd_type r, sd_day r), sd_total r).
Definition of_event_row (r : pystr * Z * Z) : SecurityEventDay :=
  MkSecurityEventDay r.1.2 r.1.1 r.2.

Definition event_count (rows : list SecurityEvent) : Z := len rows.

(** [add_all] under the primary key [(day, event_type)]. *)
Fixpoint add_event_days (rows days : list SecurityEventDay) : result exn (list SecurityEventDay) :=
  match rows with
  | [] => Ok days
  | r :: rows =>
      if decide (Exists (λ r', (event_row r').1 = (event_row r).1) days)
      then Err (PyError IntegrityError)
      else add_event_days rows (days ++ [r])
  end.

Definition fold_days_before (day : Z) (t : EventTables) : result exn (Z * EventTables) :=
  let since := first_unfolded_day (sd_day <$> security_event_days t) in
  let totals := of_event_row <$>
    fold_rows se_type se_at event_count (to_fold se_at since day (security_events t)) in
  add_event_days totals (security_event_days t) ≫= λ days,
  Ok (len totals, MkEventTables (security_events t) days).

Definition delete_before (moment : Z) (t : EventTables) : Z * EventTables :=
  (Z.of_nat (count_where (λ e, se_at e < moment) (security_events t)),
   MkEventTables (delete_where (λ e, se_at e < moment) (security_events t))
     (security_event_days t)).

(** [RollUpSecurityEventsUseCase.execute]: two units of work, and the sweep
    itself counted when it did something. *)
Definition roll_up_security_events (stored : bool) (uuid : pystr) (now retention_days : Z)
    : M EventTables exn (Z * Z) := λ t,
  let today := midnight now in
  match fold_days_before today t with
  | Err e => (Err e, t)
  | Ok (folded, t) =>
      let '(swept, t) := if 0 <? retention_days
                         then delete_before (today - retention_days * DAY) t else (0, t) in
      (Ok (folded, swept),
       if (folded =? 0) && (swept =? 0) then t
       else count_event stored now uuid SECURITY_HISTORY_SWEPT t)
  end.

(** ** Charts *)

(** [row[position] += total] and [row[position] = total]. *)
Definition add_at (position total : Z) (row : list Z) : list Z :=
  alter (λ n, n + total) (Z.to_nat position) row.
Definition set_at (position total : Z) (row : list Z) : list Z :=
  <[Z.to_nat position := total]> row.

(** [counted.setdefault(kind, [0] * buckets)], then a change of the row. *)
Definition with_row (buckets : Z) (kind : pystr) (f : list Z → list Z)
    (counted : gmap pystr (list Z)) : gmap pystr (list Z) :=
  <[kind := f (default (replicate (Z.to_nat buckets) 0) (counted !! kind))]> counted.

Definition count_row (buckets : Z) (counted : gmap pystr (list Z)) (r : pystr * Z * Z)
    : gmap pystr (list Z) :=
  let '(kind, position, total) := r in
  with_row buckets kind
    (λ row, if (0 <=? position) && (position <? buckets) then add_at position total row
            else if position =? buckets then add_at (buckets - 1) total row
            else row) counted.

Definition earlier (a b : SecurityEventDay) : Prop := sd_day a <= sd_day b.
#[global] Instance earlier_dec a b : Decision (earlier a b).
Proof. unfold earlier. apply _. Defined.

Definition day_totals_between (t : EventTables) (since until : Z) : list SecurityEventDay :=
  merge_sort earlier
    (filter (λ r, since <= sd_day r ∧ sd_day r < until) (security_event_days t)).

Definition lay_day (since width buckets : Z) (counted : gmap pystr (list Z)) (r : SecurityEventDay)
    : gmap pystr (list Z) :=
  let position := whole_seconds (sd_day r - since) / width in
  if (0 <=? position) && (position <? buckets)
  then with_row buckets (sd_type r) (set_at position (sd_total r)) counted
  else counted.

Definition lay_the_folded_days_over (t : EventTables) (counted : gmap pystr (list Z))
    (since width buckets : Z) : gmap pystr (list Z) :=
  if negb (width =? DAY_SECONDS) || negb (since =? midnight since) then counted
  else foldl (lay_day since width buckets) counted
         (day_totals_between t since (since + width * buckets * SECOND)).

Definition total_of (row : list Z) : Z := sum_of (λ n, n) row.
Definition busier (a b : pystr * list Z) : Prop := total_of b.2 <= total_of a.2.
#[global] Instance busier_dec a b : Decision (busier a b).
Proof. unfold busier. apply _. Defined.

Definition grouped_events (t : EventTables) (since until width : Z) : list (pystr * Z * Z) :=
  (λ '((kind, position), rows), ((kind, position), event_count rows)) <$>
    group_by (λ e, (se_type e, bucket_index since width (se_at e)))
      (filter (λ e, since <= se_at e ∧ se_at e < until) (security_events t)).

Definition chart_table (t : EventTables) (since until buckets : Z) : gmap pystr (list Z) :=
  let width := Z.max 1 (whole_seconds (until - since) / buckets) in
  let counted := foldl (count_row buckets) ∅ (grouped_events t since until width) in
  lay_the_folded_days_over t counted since width buckets.

Definition buckets_between (t : EventTables) (since until buckets : Z) : list (pystr * list Z) :=
  if buckets <? 1 then []
  else merge_sort busier (map_to_list (chart_table t since until buckets)).

(** ** [GetSecurityCountsUseCase] *)

Record SecurityCounts := MkSecurityCounts {
  sn_period : pystr;
  sn_since : Z;
  sn_until : Z;
  sn_totals : list (pystr * Z);
  sn_series : list (pystr * list Z);
  sn_buckets : Z;
}.

Definition more_often (a b : pystr * Z) : Prop := b.2 <= a.2.
#[global] Instance more_often_dec a b : Decision (more_often a b).
Proof. unfold more_often. apply _. Defined.

Section use_case.
Context {C : Type} `{CaseFolding}.
Abbreviation P := (M (World C) exn).

Definition require_may_read (context : RequestContext) : P unit :=
  requester ← with_uow (load_actor context);
  d ← gets w_db;
  if is_allowed d requester AUDIT_VIEW then mret tt
  else match requester with
       | None => raise (DomainError (lit "Authentication required") (lit "UNAUTHENTICATED"))
       | Some _ => raise (PermissionDeniedError [AUDIT_VIEW] [])
       end.

Definition get_security_counts (t : EventTables) (context : RequestContext) (period : pystr)
    : P SecurityCounts :=
  match period_of period with
  | None => raise (DomainError (lit "Unknown period '%(period)s'. Choose one of: %(choices)s")
                     (lit "VALIDATION_ERROR"))
  | Some (span, buckets) =>
      require_may_read context;;
      now ← now_utc;
      let '(since, until) := span_of now span buckets in
      let series := buckets_between t since until buckets in
      let totals := merge_sort more_often ((λ '(kind, counts), (kind, total_of counts)) <$> series) in
      mret (MkSecurityCounts period since until totals series buckets)
  end.
End use_case.
