(* ===== verification/SecurityTheorems.v ===== *)
(** * What the security counts show

    The chart of a period in days counts, for every kind of event and every
    day, the events that were ever counted, whether their rows are still raw,
    folded or swept; a finer chart loses no
    event of its window; only those allowed to read the audit log are
    answered. *)

From S2P Require Import Prelude PyStr Exceptions ValueObjects Entities Policies Cache Database.
From S2P Require Import LinkRepo UserRepo Sessions Auth Admin AdminTheorems RollUp SecurityEvents.

(** ** Cells of a chart *)

Definition cell (m : gmap pystr (list Z)) (k : pystr) (i : nat) : Z :=
  default 0 (m !! k ≫= λ row, row !! i).
Definition rows_of (n : nat) (m : gmap pystr (list Z)) : Prop :=
  ∀ k row, m !! k = Some row → length row = n.

Lemma cell_lookup n m k row i : rows_of n m → m !! k = Some row → (i < n)%nat →
  row !! i = Some (cell m k i).
Proof.
  intros Hm Hk Hi. rewrite /cell Hk /=. rewrite -(Hm k row Hk) in Hi.
  by apply lookup_lt_is_Some in Hi as [x ->].
Qed.

Section rows.
Context (n : Z) (Hn : 0 < n).
Abbreviation size := (Z.to_nat n).

Lemma with_row_rows k f m : (∀ row, length (f row) = length row) →
  rows_of size m → rows_of size (with_row n k f m).
Proof.
  intros Hf Hm k' row. rewrite /with_row. destruct (decide (k = k')) as [<-|Hne].
  - rewrite lookup_insert_eq. intros [= <-]. rewrite Hf. destruct (m !! k) as [r|] eqn:E; simpl.
    + by eapply Hm.
    + by rewrite length_replicate.
  - rewrite lookup_insert_ne //. apply Hm.
Qed.

Lemma with_row_cell k f m k' i : (i < size)%nat →
  cell (with_row n k f m) k' i =
  if decide (k = k') then default 0 (f (default (replicate size 0) (m !! k)) !! i) else cell m k' i.
Proof.
  intros Hi. rewrite /cell /with_row. case_decide as Hk.
  - subst k'. by rewrite lookup_insert_eq.
  - by rewrite lookup_insert_ne.
Qed.

(** A row that is not there yet reads as zeros. *)
Lemma row_cell m k i : (i < size)%nat →
  default 0 (default (replicate size 0) (m !! k) !! i) = cell m k i.
Proof.
  intros Hi. rewrite /cell. destruct (m !! k) as [row|]; simpl; [done|].
  by rewrite lookup_replicate_2.
Qed.

(** The interval a count goes to, if any. *)
Definition slot (position : Z) : option Z :=
  if (0 <=? position) && (position <? n) then Some position
  else if position =? n then Some (n - 1) else None.

Lemma add_at_lookup p t (row : list Z) i : (i < length row)%nat →
  default 0 (add_at p t row !! i) = default 0 (row !! i) + if decide (Z.to_nat p = i) then t else 0.
Proof.
  intros Hi. rewrite /add_at. case_decide as Hp.
  - subst i. rewrite list_lookup_alter_eq. apply lookup_lt_is_Some in Hi as [x ->]. done.
  - rewrite list_lookup_alter_ne //. lia.
Qed.

Lemma count_row_cell m r k i : rows_of size m → (i < size)%nat →
  cell (count_row n m r) k i =
  cell m k i + if decide (r.1.1 = k ∧ slot r.1.2 = Some (Z.of_nat i)) then r.2 else 0.
Proof.
  intros Hm Hi. destruct r as [[k' p] t]. rewrite /count_row with_row_cell //=.
  assert (length (default (replicate size 0) (m !! k')) = size) as Hlen.
  { destruct (m !! k') as [row|] eqn:E; simpl; [by eapply Hm|by rewrite length_replicate]. }
  destruct (decide (k' = k)) as [->|Hne]; last first.
  { rewrite decide_False; [|by intros [? _]]. lia. }
  rewrite /slot. destruct ((0 <=? p) && (p <? n)) eqn:Hin.
  - rewrite add_at_lookup ?Hlen // row_cell //.
    assert (Z.to_nat p = i ↔ Some p = Some (Z.of_nat i)) as Hiff by (split; [intros <-; f_equal; lia|intros [= ->]; lia]).
    repeat case_decide; tauto.
  - destruct (p =? n) eqn:Hp.
    + rewrite add_at_lookup ?Hlen // row_cell //.
      assert (Z.to_nat (n - 1) = i ↔ Some (n - 1) = Some (Z.of_nat i)) as Hiff by (split; [intros <-; f_equal; lia|intros [= ?]; lia]).
      repeat case_decide; tauto.
    + rewrite row_cell // decide_False; [lia|]. by intros [_ ?].
Qed.

Lemma count_row_rows m r : rows_of size m → rows_of size (count_row n m r).
Proof.
  destruct r as [[k p] t]. apply with_row_rows. intros row.
  repeat case_match; rewrite /add_at ?length_alter //.
Qed.

Lemma count_rows_cell rs m : rows_of size m →
  rows_of size (foldl (count_row n) m rs) ∧
  ∀ k i, (i < size)%nat → cell (foldl (count_row n) m rs) k i =
    cell m k i + sum_of snd (filter (λ r, r.1.1 = k ∧ slot r.1.2 = Some (Z.of_nat i)) rs).
Proof.
  revert m. induction rs as [|r rs IH]; intros m Hm; simpl.
  { split; [done|]. intros. lia. }
  destruct (IH (count_row n m r) (count_row_rows m r Hm)) as [Hr Hc]. split; [done|].
  intros k i Hi. rewrite Hc // count_row_cell // filter_cons. repeat case_decide; simpl; lia.
Qed.
End rows.

(** ** The raw events of a chart *)

Definition in_window (since until : Z) (es : list SecurityEvent) : list SecurityEvent :=
  filter (λ e, since <= se_at e ∧ se_at e < until) es.

Section chart.
Context (t : EventTables) (since until width n : Z) (Hn : 0 < n).
Abbreviation size := (Z.to_nat n).
Abbreviation counted := (foldl (count_row n) ∅ (grouped_events t since until width)).

Lemma empty_rows : rows_of size ∅.
Proof. intros k row. by rewrite lookup_empty. Qed.

Lemma counted_rows : rows_of size counted.
Proof. apply (count_rows_cell n Hn _ ∅), empty_rows. Qed.

Lemma counted_cell k i : (i < size)%nat →
  cell counted k i =
  len (filter (λ e, se_type e = k ∧ slot n (bucket_index since width (se_at e)) = Some (Z.of_nat i))
         (in_window since until (security_events t))).
Proof.
  intros Hi. destruct (count_rows_cell n Hn (grouped_events t since until width) ∅ empty_rows) as [_ ->]; [|done].
  rewrite {1}/cell lookup_empty /= /grouped_events. fold (in_window since until (security_events t)).
  set (rows := in_window _ _ _). set (key := λ e, (se_type e, bucket_index since width (se_at e))).
  rewrite filter_of_fmap sum_of_fmap -sum_of_len.
  etrans; [|exact (group_by_sum_where key (λ g, g.1 = k ∧ slot n g.2 = Some (Z.of_nat i)) (λ _, 1) rows)].
  rewrite (filter_ext_elem _ (λ g : (pystr * Z) * list SecurityEvent, g.1.1 = k ∧ slot n g.1.2 = Some (Z.of_nat i))).
  - apply sum_of_ext. intros [[k' p] g] _. simpl. by rewrite sum_of_len.
  - by intros [[k' p] g] _.
Qed.
End chart.

(** ** Folded days over a chart *)

Section laid.
Context (since n : Z) (Hn : 0 < n) (Hs : (DAY | since)).
Abbreviation size := (Z.to_nat n).

Lemma day_position day : (DAY | day) → since <= day → day < since + n * DAY →
  ∃ i, (i < size)%nat ∧ day = since + Z.of_nat i * DAY ∧
       whole_seconds (day - since) / DAY_SECONDS = Z.of_nat i.
Proof.
  intros Hd Hge Hlt. destruct (Z.divide_sub_r _ _ _ Hd Hs) as [q Hq].
  assert (0 <= q < n) as Hb.
  { split; [apply (Z.mul_le_mono_pos_r _ _ DAY); [done|lia]|].
    apply (Z.mul_lt_mono_pos_r DAY); [done|lia]. }
  exists (Z.to_nat q). rewrite Z2Nat.id; [|lia]. split; [lia|]. split; [lia|].
  rewrite Hq day_seconds /whole_seconds Z.mul_assoc Z.quot_mul // Z.div_mul //.
Qed.

Lemma lay_day_rows m r : rows_of size m → rows_of size (lay_day since DAY_SECONDS n m r).
Proof.
  intros Hm. rewrite /lay_day. case_match; [|done]. apply with_row_rows; [|done].
  intros row. apply length_insert.
Qed.

Lemma lay_day_cell m r k i : rows_of size m → (i < size)%nat →
  (DAY | sd_day r) → since <= sd_day r → sd_day r < since + n * DAY →
  cell (lay_day since DAY_SECONDS n m r) k i =
  if decide (sd_type r = k ∧ sd_day r = since + Z.of_nat i * DAY) then sd_total r else cell m k i.
Proof.
  intros Hm Hi Hd Hge Hlt. destruct (day_position _ Hd Hge Hlt) as (j & Hj & Hday & Hpos).
  rewrite /lay_day Hpos (_ : (0 <=? Z.of_nat j) && (Z.of_nat j <? n) = true); [|lia].
  rewrite with_row_cell //. rewrite Hday. destruct (decide (sd_type r = k)) as [Hk|Hk].
  - rewrite /set_at Nat2Z.id. destruct (decide (j = i)) as [->|Hne].
    + rewrite list_lookup_insert_eq; [|destruct (m !! sd_type r) as [row|] eqn:E; simpl;
        [by rewrite (Hm _ _ E)|by rewrite length_replicate]].
      by rewrite decide_True.
    + rewrite list_lookup_insert_ne // row_cell // Hk decide_False //.
      intros [_ Heq]. apply Hne. rewrite /DAY /HOUR /MINUTE /SECOND in Heq. lia.
  - rewrite decide_False //. tauto.
Qed.

Lemma laid_cell rs m k i : rows_of size m → (i < size)%nat →
  NoDup (fst <$> (event_row <$> rs)) →
  Forall (λ r, (DAY | sd_day r) ∧ since <= sd_day r ∧ sd_day r < since + n * DAY) rs →
  let here := filter (λ r, sd_type r = k ∧ sd_day r = since + Z.of_nat i * DAY) rs in
  rows_of size (foldl (lay_day since DAY_SECONDS n) m rs) ∧
  cell (foldl (lay_day since DAY_SECONDS n) m rs) k i =
    match here with [] => cell m k i | _ => sum_of sd_total here end.
Proof.
  intros Hm Hi. induction rs as [|r rs IH] using rev_ind; intros Hnd HF; [done|]. cbv zeta.
  rewrite !fmap_app in Hnd. apply list.NoDup_app in Hnd as (Hnd & Hdis & _).
  apply Forall_app in HF as [HF Hr]. apply Forall_cons_iff in Hr as [(Hd & Hge & Hlt) _].
  destruct (IH Hnd HF) as [Hrows Hcell]. rewrite foldl_app /=. split; [by apply lay_day_rows|].
  rewrite lay_day_cell // list.filter_app filter_cons filter_nil.
  destruct (decide (sd_type r = k ∧ sd_day r = since + Z.of_nat i * DAY)) as [Hr|Hr]; last first.
  { by rewrite app_nil_r. }
  rewrite filter_none /=; [lia|]. intros r' Hr' Heq. apply (Hdis (event_row r').1).
  - by do 2 apply list_elem_of_fmap_2.
  - rewrite /event_row /= (proj1 Heq) (proj2 Heq) (proj1 Hr) (proj2 Hr). left.
Qed.
End laid.

(** ** The log *)

Record EventInv (log : list SecurityEvent) (now : Z) (t : EventTables) : Prop := MkEventInv {
  ei_now : 0 <= now;
  ei_folded : ∃ S F, Folded se_type se_at event_count log (security_events t)
                       (event_row <$> security_event_days t) S F ∧ F <= midnight now;
}.

(** The events of one kind on one day. *)
Definition of_kind_on (k : pystr) (day : Z) (es : list SecurityEvent) : list SecurityEvent :=
  filter (λ e, se_type e = k ∧ midnight (se_at e) = day) es.

Lemma raw_of_kind since n k i es : 0 < n → (DAY | since) → (i < Z.to_nat n)%nat →
  filter (λ e, se_type e = k ∧ slot n (bucket_index since DAY_SECONDS (se_at e)) = Some (Z.of_nat i))
    (in_window since (since + n * DAY) es) = of_kind_on k (since + Z.of_nat i * DAY) es.
Proof.
  intros Hn Hs Hi. rewrite /in_window /of_kind_on list_filter_filter. apply filter_ext_elem. intros e _. split.
  - intros ([Hk Hsl] & Hge & Hlt). split; [done|]. apply day_bucket_iff; [done..|].
    assert (0 <= bucket_index since DAY_SECONDS (se_at e) < n) as Hb.
    { rewrite day_bucket //. split; [apply Z.div_pos; [lia|done]|].
      apply Z.div_lt_upper_bound; [done|]. lia. }
    rewrite /slot (_ : (0 <=? _) && (_ <? n) = true) in Hsl; [by injection Hsl|lia].
  - intros [Hk Hm]. apply midnight_unique in Hm as Hb; last first.
    { apply Z.divide_add_r; [done|by eexists]. }
    assert (since <= se_at e ∧ se_at e < since + n * DAY) as [Hge Hlt].
    { rewrite /DAY /HOUR /MINUTE /SECOND in Hb |- *. lia. }
    split; [|done]. split; [done|]. apply day_bucket_iff in Hm; [|done..].
    by rewrite Hm /slot (_ : (0 <=? Z.of_nat i) && (Z.of_nat i <? n) = true); [|lia].
Qed.

Section days.
Context (t : EventTables) (log : list SecurityEvent) (S F : Z).
Context (Hf : Folded se_type se_at event_count log (security_events t)
                (event_row <$> security_event_days t) S F).
Context (since n : Z) (Hn : 0 < n) (Hs : (DAY | since)).

Lemma folded_days_aligned r : r ∈ security_event_days t → (DAY | sd_day r).
Proof.
  intros Hr. assert (event_row r ∈ event_row <$> security_event_days t) as Hin by (by apply list_elem_of_fmap_2).
  apply (fd_days _ _ _ _ _ _ _ _ Hf) in Hin as (_ & (a & _ & _ & <-) & _). apply midnight_divide.
Qed.

(** A cell of a chart in days: the events of that kind and day in the log. *)
Lemma day_chart_cell k i : (i < Z.to_nat n)%nat →
  let m := chart_table t since (since + n * DAY) n in
  rows_of (Z.to_nat n) m ∧
  cell m k i = len (of_kind_on k (since + Z.of_nat i * DAY) log).
Proof.
  intros Hi. rewrite /chart_table.
  rewrite (_ : since + n * DAY - since = n * DAY_SECONDS * SECOND); [|rewrite day_seconds; lia].
  rewrite /whole_seconds Z.quot_mul // (Z.mul_comm n DAY_SECONDS) Z.div_mul; [|lia].
  rewrite (Z.max_r 1 DAY_SECONDS) //. set (counted := foldl _ _ _).
  rewrite /lay_the_folded_days_over Z.eqb_refl (_ : since =? midnight since = true); last first.
  { apply Z.eqb_eq. symmetry. apply midnight_unique; [done|]. rewrite /DAY /HOUR /MINUTE /SECOND. lia. }
  cbn [negb orb]. rewrite (_ : since + DAY_SECONDS * n * SECOND = since + n * DAY); [|rewrite day_seconds; lia].
  set (days := day_totals_between t since (since + n * DAY)).
  assert (days ≡ₚ filter (λ r, since <= sd_day r ∧ sd_day r < since + n * DAY) (security_event_days t)) as Hp
    by apply merge_sort_Permutation.
  destruct (laid_cell since n Hn Hs days counted k i) as [Hrows Hcell]; [by apply counted_rows|done| | |].
  - rewrite -list_fmap_compose Hp list_fmap_compose. eapply sublist_NoDup; [apply (fd_unique _ _ _ _ _ _ _ _ Hf)|].
    do 2 apply fmap_sublist_of. apply sublist_filter.
  - rewrite Hp. apply Forall_elem. intros r [[? ?] Hr]%list_elem_of_filter.
    split; [by apply folded_days_aligned|done].
  - split; [exact Hrows|]. rewrite Hcell.
    set (day := since + Z.of_nat i * DAY).
    pose proof (folded_read _ _ _ (λ k', k' = k) (λ _, 1) id _ _ _ _ _ day Hf
      (λ l, eq_sym (sum_of_len l)) ltac:(apply Z.divide_add_r; [done|by eexists])) as [Hin Hout].
    rewrite filter_of_fmap /= in Hin, Hout. rewrite !sum_of_len in Hin, Hout. rewrite sum_of_fmap in Hin.
    assert (filter (λ r, sd_type r = k ∧ sd_day r = day) days ≡ₚ
            filter (λ r, sd_type r = k ∧ sd_day r = day) (security_event_days t)) as Hhere.
    { rewrite Hp list_filter_filter. apply reflexive_eq. apply filter_ext_elem. intros r _. split; [tauto|].
      intros [Hk Hd]. split; [done|]. rewrite Hd /day /DAY /HOUR /MINUTE /SECOND. lia. }
    destruct (filter (λ r, sd_type r = k ∧ sd_day r = day) days) as [|r rs] eqn:E.
    + rewrite counted_cell // raw_of_kind //. apply Hout. symmetry in Hhere.
      apply Permutation_nil_r in Hhere. by rewrite Hhere.
    + rewrite (sum_of_perm _ _ _ Hhere). apply Hin. intros Hnil%fmap_nil_inv. rewrite Hnil in Hhere.
      by apply Permutation_nil_r in Hhere.
Qed.
End days.

(** ** Histories *)

(** What counting an event, and the sweep, add to the log. *)
Definition events_counted (stored : bool) (now : Z) (uuid : pystr) (e : AuditEvent)
    : list SecurityEvent :=
  if decide (e ∈ COUNTED_ELSEWHERE) then []
  else if stored then [MkSecurityEvent uuid (event_value e) now] else [].

Definition events_swept (stored : bool) (now : Z) (uuid : pystr) (r : result exn (Z * Z))
    : list SecurityEvent :=
  match r with
  | Ok (folded, swept) =>
      if (folded =? 0) && (swept =? 0) then []
      else events_counted stored now uuid SECURITY_HISTORY_SWEPT
  | Err _ => []
  end.

Inductive event_history : list SecurityEvent → Z → EventTables → Prop :=
| events_start now : 0 <= now → event_history [] now (MkEventTables [] [])
| events_count log now t stored uuid e : event_history log now t →
    event_history (log ++ events_counted stored now uuid e) now (count_event stored now uuid e t)
| events_tick log now now' t : event_history log now t → now <= now' → event_history log now' t
| events_roll_up log now t stored uuid retention_days : event_history log now t →
    event_history
      (log ++ events_swept stored now uuid (roll_up_security_events stored uuid now retention_days t).1)
      now (roll_up_security_events stored uuid now retention_days t).2.

Lemma count_event_inv log now t stored uuid e : EventInv log now t →
  EventInv (log ++ events_counted stored now uuid e) now (count_event stored now uuid e t).
Proof.
  intros [H0 (S & F & Hf & HF)]. split; [done|]. exists S, F. split; [|done].
  rewrite /events_counted /count_event. case_decide; [by rewrite app_nil_r|].
  destruct stored; [|by rewrite app_nil_r]. pose proof (midnight_bounds now).
  apply folded_record; [done|simpl; lia|done].
Qed.

Lemma event_row_of r : event_row (of_event_row r) = r.
Proof. by destruct r as [[k m] n]. Qed.

Lemma add_event_days_ok rows days : NoDup (fst <$> (event_row <$> (days ++ rows))) →
  add_event_days rows days = Ok (days ++ rows).
Proof.
  revert days. induction rows as [|r rows IH]; intros days Hnd; simpl; [by rewrite app_nil_r|].
  rewrite decide_False; last first.
  { intros (r' & Hr' & Heq)%Exists_elem. rewrite !fmap_app !fmap_cons in Hnd.
    apply list.NoDup_app in Hnd as (_ & Hnd & _). apply (Hnd (event_row r').1).
    - by do 2 apply list_elem_of_fmap_2.
    - apply elem_of_cons. by left. }
  by rewrite IH -(assoc_L app).
Qed.

(** Every finished day has been folded. *)
Definition events_settled (log : list SecurityEvent) (now : Z) (t : EventTables) : Prop :=
  ∃ S, Folded se_type se_at event_count log (security_events t)
         (event_row <$> security_event_days t) S (midnight now).

Lemma fold_days_before_spec log now t : EventInv log now t →
  ∃ rows, fold_days_before (midnight now) t =
    Ok (len rows, MkEventTables (security_events t) (security_event_days t ++ rows)) ∧
    events_settled log now (MkEventTables (security_events t) (security_event_days t ++ rows)).
Proof.
  intros [H0 (S & F & Hf & HF)].
  pose proof (folded_fold _ _ _ _ _ _ _ _ _ Hf HF (midnight_divide now)) as Hf'.
  assert (snd <$> (event_row <$> security_event_days t).*1 = sd_day <$> security_event_days t) as Hdays.
  { by rewrite -!list_fmap_compose. }
  rewrite Hdays in Hf'. rewrite /fold_days_before. set (new := fold_rows _ _ _ _) in *.
  assert (event_row <$> (of_event_row <$> new) = new) as Hnew.
  { rewrite -list_fmap_compose -{2}(list_fmap_id new). apply list_fmap_ext. intros i r _. apply event_row_of. }
  exists (of_event_row <$> new). rewrite add_event_days_ok; [|rewrite fmap_app Hnew; apply Hf'].
  split; [done|]. exists S. simpl. by rewrite fmap_app Hnew.
Qed.

(** The task up to the record of itself. *)
Lemma roll_up_spec log now t stored uuid retention_days : EventInv log now t →
  ∃ folded swept t', events_settled log now t' ∧
    roll_up_security_events stored uuid now retention_days t =
      (Ok (folded, swept), if (folded =? 0) && (swept =? 0) then t'
                           else count_event stored now uuid SECURITY_HISTORY_SWEPT t') ∧
    security_events t' = (if 0 <? retention_days
      then delete_where (λ e, se_at e < midnight now - retention_days * DAY) (security_events t)
      else security_events t).
Proof.
  intros Hi. destruct (fold_days_before_spec _ _ _ Hi) as (rows & Hfold & S & Hf).
  rewrite /roll_up_security_events Hfold. destruct (Z.ltb_spec 0 retention_days) as [Hpos|Hz].
  - eexists _, _, _. split; [|split; [reflexivity|done]].
    exists (Z.max S (midnight now - retention_days * DAY)). simpl. apply folded_sweep; [done|].
    assert (0 <= retention_days * DAY) by (apply Z.mul_nonneg_nonneg; [lia|done]). lia.
  - eexists _, _, _. split; [|split; [reflexivity|done]]. by exists S.
Qed.

Lemma event_history_inv log now t : event_history log now t → EventInv log now t.
Proof.
  induction 1 as [now H0|log now t stored uuid e _ IH|log now now' t _ IH Hle|log now t stored uuid n _ IH].
  - split; [done|]. exists 0, 0. split; [apply folded_init|].
    rewrite (_ : 0 = midnight 0); [by apply midnight_mono|done].
  - by apply count_event_inv.
  - destruct IH as [H0 (S & F & Hf & HF)]. split; [lia|]. exists S, F. split; [done|].
    etrans; [done|by apply midnight_mono].
  - destruct (roll_up_spec _ _ _ stored uuid n IH) as (f & sw & t' & [S Hset] & -> & _). simpl.
    assert (EventInv log now t') as Hi by (split; [apply IH|]; by exists S, (midnight now)).
    case_match; [by rewrite app_nil_r|by apply count_event_inv].
Qed.

(** ** The guarantees *)

Lemma busier_sorted (l : list (pystr * list Z)) :
  StronglySorted busier (merge_sort busier l).
Proof.
  apply StronglySorted_merge_sort.
  - intros a b c. rewrite /busier. lia.
  - intros a b. rewrite /busier. lia.
Qed.

Lemma buckets_between_rows t since until n : 0 < n →
  let series := buckets_between t since until n in
  (∀ k row, (k, row) ∈ series ↔ chart_table t since until n !! k = Some row) ∧
  NoDup series.*1 ∧ StronglySorted busier series.
Proof.
  intros Hn. rewrite /buckets_between (_ : n <? 1 = false); [|lia].
  split_and!; [|rewrite merge_sort_Permutation; apply NoDup_fst_map_to_list|apply busier_sorted].
  intros k row. rewrite merge_sort_Permutation. apply elem_of_map_to_list.
Qed.

(** Nothing in a window cut into whole seconds falls outside its chart. *)
Lemma fine_slot since n width e : 0 < n → 0 < width → 0 <= since → since <= se_at e →
  se_at e < since + n * width * SECOND →
  ∃ i, slot n (bucket_index since width (se_at e)) = Some (Z.of_nat i) ∧ (i < Z.to_nat n)%nat.
Proof.
  intros Hn Hw H0 Hge Hlt.
  assert (0 <= bucket_index since width (se_at e) <= n) as Hb.
  { rewrite /bucket_index /epoch_seconds /whole_seconds (Z.quot_div_nonneg since) //.
    assert (since / SECOND <= se_at e / SECOND) by (by apply Z.div_le_mono).
    assert (se_at e / SECOND <= (since + n * width * SECOND) / SECOND) as Hup by (apply Z.div_le_mono; [done|lia]).
    rewrite Z.div_add // in Hup. rewrite Z.quot_div_nonneg; [|lia..]. split; [apply Z.div_pos; lia|].
    apply Z.div_le_upper_bound; [done|lia]. }
  rewrite /slot. destruct ((0 <=? _) && (_ <? n)) eqn:E.
  - exists (Z.to_nat (bucket_index since width (se_at e))). split; [f_equal; lia|lia].
  - exists (Z.to_nat (n - 1)). rewrite (_ : bucket_index since width (se_at e) =? n = true); [|lia].
    split; [f_equal; lia|lia].
Qed.

Lemma row_total n (row : list Z) f : length row = n → (∀ i, (i < n)%nat → row !! i = Some (f i)) →
  total_of row = sum_of f (seq 0 n).
Proof.
  intros Hlen Hrow. assert (row = f <$> seq 0 n) as ->.
  { apply list_eq. intros i. rewrite list_lookup_fmap. destruct (decide (i < n)%nat) as [Hi|Hi].
    - by rewrite Hrow // lookup_seq_lt.
    - rewrite lookup_ge_None_2; [|lia]. rewrite lookup_seq_ge //. lia. }
  by rewrite /total_of sum_of_fmap.
Qed.

Section claims.
Context {C : Type} `{CaseFolding}.
Implicit Types (w : World C).

(** After any history of counted events and nightly tasks, the chart of a
    period drawn in days shows, for every kind of event and every day, exactly
    how many events of that kind were counted that day, whether their rows
    are raw, folded or swept; a kind that is missing had none.  Kinds are
    listed once, the most frequent first. *)
Theorem security_counts_read_the_log log now t n : event_history log now t → 0 < n →
  let day i := midnight now - (n - 1 - Z.of_nat i) * DAY in
  let '(since, until) := span_of now (n * DAY) n in
  let series := buckets_between t since until n in
  NoDup series.*1 ∧ StronglySorted busier series ∧
  (∀ k row, (k, row) ∈ series → length row = Z.to_nat n ∧
     ∀ i, (i < Z.to_nat n)%nat → row !! i = Some (len (of_kind_on k (day i) log))) ∧
  (∀ k, k ∉ series.*1 → ∀ i, (i < Z.to_nat n)%nat → of_kind_on k (day i) log = []).
Proof.
  intros Hh Hn. rewrite whole_days_span //.
  apply event_history_inv in Hh as [_ (S & F & Hf & _)].
  set (since := midnight now + DAY - n * DAY).
  assert (midnight now + DAY = since + n * DAY) as -> by (rewrite /since; lia).
  assert (DAY | since) as Hs.
  { rewrite /since. apply Z.divide_sub_r; [|by eexists].
    apply Z.divide_add_r; [apply midnight_divide|by exists 1]. }
  assert (∀ i, since + Z.of_nat i * DAY = midnight now - (n - 1 - Z.of_nat i) * DAY) as Hday
    by (intros i; rewrite /since; lia).
  destruct (buckets_between_rows t since (since + n * DAY) n Hn) as (Hin & Hnd & Hsort).
  split; [done|]. split; [done|]. split.
  - intros k row Hk%Hin. destruct (day_chart_cell _ _ _ _ Hf since n Hn Hs k 0%nat ltac:(lia)) as [Hrows _].
    split; [by eapply Hrows|]. intros i Hi.
    rewrite (cell_lookup _ _ _ _ _ Hrows Hk Hi). f_equal.
    destruct (day_chart_cell _ _ _ _ Hf since n Hn Hs k i Hi) as [_ ->]. by rewrite Hday.
  - intros k Hk i Hi. destruct (day_chart_cell _ _ _ _ Hf since n Hn Hs k i Hi) as [_ Hc].
    rewrite Hday /cell in Hc. destruct (chart_table _ _ _ _ !! k) as [row|] eqn:E.
    + destruct Hk. apply list_elem_of_fmap. exists (k, row). split; [done|]. by apply Hin.
    + simpl in Hc. apply nil_length_inv. rewrite /len in Hc. lia.
Qed.

(** The chart of a finer period loses no event of its window: the points
    of a kind add up to the stored events of that kind in it. *)
Theorem fine_chart_loses_no_event t since n width k row :
  0 < n → 0 < width → width ≠ DAY_SECONDS → 0 <= since →
  let until := since + n * width * SECOND in
  (k, row) ∈ buckets_between t since until n →
  total_of row = len (filter (λ e, se_type e = k) (in_window since until (security_events t))).
Proof.
  intros Hn Hw Hne H0 until Hk.
  destruct (buckets_between_rows t since until n Hn) as (Hin & _ & _). apply Hin in Hk.
  rewrite /chart_table /until (_ : since + n * width * SECOND - since = n * width * SECOND) in Hk; [|lia].
  rewrite /whole_seconds Z.quot_mul // (Z.mul_comm n width) Z.div_mul in Hk; [|lia].
  rewrite (Z.max_r 1 width) /lay_the_folded_days_over in Hk; [|lia].
  rewrite (_ : width =? DAY_SECONDS = false) in Hk; [|lia]. cbn [negb orb] in Hk.
  rewrite (Z.mul_comm width n) in Hk. fold until in Hk.
  pose proof (counted_rows t since until width n Hn) as Hrows.
  rewrite (row_total (Z.to_nat n) row (λ i, len (filter
      (λ e, se_type e = k ∧ slot n (bucket_index since width (se_at e)) = Some (Z.of_nat i))
      (in_window since until (security_events t))))).
  - rewrite -sum_of_len -(sum_by_row (λ e, slot n (bucket_index since width (se_at e)))
      (λ i, Some (Z.of_nat i)) (λ _, 1) (seq 0 (Z.to_nat n))).
    + apply sum_of_ext. intros i _. rewrite sum_of_len list_filter_filter. f_equal.
      apply filter_ext_elem. tauto.
    + apply (NoDup_fmap_2 (λ i, Some (Z.of_nat i))), NoDup_seq.
    + intros e [_ [[Hge Hup] _]%list_elem_of_filter]%list_elem_of_filter.
      destruct (fine_slot since n width e Hn Hw H0 Hge Hup) as (i & Hi & Hlt).
      rewrite Hi. apply list_elem_of_fmap. exists i. split; [done|]. apply elem_of_seq. lia.
  - by eapply Hrows.
  - intros i Hi. rewrite (cell_lookup _ _ _ _ _ Hrows Hk Hi). f_equal. by apply counted_cell.
Qed.

(** The counts are read by nobody but an account that holds the audit
    permission itself, an administrator of everything included; a refusal
    says whether it was the period, the sign-in or the permission, and no
    request changes anything. *)
Theorem counts_are_for_auditors t context period w r w' :
  get_security_counts t context period w = (r, w') →
  w' = w ∧
  match period_of period, actor_of context (w_db w) with
  | None, _ => ∃ text, r = Err (DomainError text (lit "VALIDATION_ERROR"))
  | _, Err e => r = Err e
  | _, Ok None => r = Err (DomainError (lit "Authentication required") (lit "UNAUTHENTICATED"))
  | Some _, Ok (Some u) =>
      if decide (AUDIT_VIEW ∈ permissions_held_by (Some u)) then is_ok r = true
      else r = Err (PermissionDeniedError [AUDIT_VIEW] [])
  end.
Proof.
  rewrite /get_security_counts. destruct (period_of period) as [[span n]|]; last first.
  { intros [= <- <-]. eauto. }
  pose proof (permission_gate context AUDIT_VIEW w ltac:(by apply (bool_decide_unpack _))) as Hg.
  change (require_may_read context w = (gate_answer context AUDIT_VIEW (w_db w), w)) in Hg.
  rewrite /mbind /M_bind Hg /gate_answer.
  destruct (actor_of context (w_db w)) as [[u|]|e]; [|by intros [= <- <-]..].
  destruct (is_allowed (w_db w) (Some u) AUDIT_VIEW) eqn:Ha.
  - apply is_allowed_user in Ha as [Ha|[? _]]; [|done]. rewrite decide_True //.
    rewrite /now_utc /gets /mret /M_ret. destruct (span_of _ _ _). by intros [= <- <-].
  - rewrite decide_False; [by intros [= <- <-]|]. intros Hin. apply not_true_iff_false in Ha.
    apply Ha, is_allowed_user. by left.
Qed.
End claims.

(** ** Two failed sign-ins, a day, and the task *)

Module SecurityDemo.
Definition now : Z := 1700000000 * SECOND.
Definition t1 := count_event true now (lit "e1") LOGIN_FAILED (MkEventTables [] []).
Definition t2 := count_event true now (lit "e2") LOGIN_FAILED t1.
Definition t3 := (roll_up_security_events true (lit "e3") (now + DAY) 1 t2).2.
Definition t4 := (roll_up_security_events true (lit "e4") (now + 3 * DAY) 1 t3).2.

Lemma demo_events : ∃ log, event_history log (now + 3 * DAY) t4.
Proof.
  eexists. eapply (events_roll_up _ (now + 3 * DAY) t3 true (lit "e4") 1).
  eapply (events_tick _ (now + DAY)); [|vm_compute; discriminate].
  eapply (events_roll_up _ (now + DAY) t2 true (lit "e3") 1).
  eapply (events_tick _ now); [|vm_compute; discriminate].
  eapply (events_count _ now t1 true (lit "e2") LOGIN_FAILED).
  eapply (events_count _ now _ true (lit "e1") LOGIN_FAILED).
  apply events_start. vm_compute. discriminate.
Qed.

(** The raw rows are gone; the chart still has them. *)
Lemma security_counts_read_the_log_witness :
  let series := buckets_between t4 (midnight now) (midnight now + 4 * DAY) 4 in
  NoDup series.*1 ∧
  (lit "LOGIN_FAILED", [2; 0; 0; 0]) ∈ series ∧ len (security_events t4) = 1.
Proof.
  destruct demo_events as [log Hh].
  pose proof (security_counts_read_the_log log (now + 3 * DAY) t4 4 Hh ltac:(lia)) as Hc.
  cbv zeta in Hc |- *. rewrite whole_days_span // in Hc.
  replace (midnight (now + 3 * DAY) + DAY - 4 * DAY) with (midnight now) in Hc by reflexivity.
  replace (midnight (now + 3 * DAY) + DAY) with (midnight now + 4 * DAY) in Hc by reflexivity.
  destruct Hc as [Hn _]. split; [exact Hn|]. split; [|reflexivity].
  apply (bool_decide_unpack _). vm_compute. exact I.
Defined.

Lemma fine_chart_loses_no_event_witness :
  total_of [0; 2] = len (filter (λ e, se_type e = lit "LOGIN_FAILED")
    (in_window (now - 3600 * SECOND) (now - 3600 * SECOND + 2 * 3600 * SECOND) (security_events t2))).
Proof.
  apply (fine_chart_loses_no_event t2 (now - 3600 * SECOND) 2 3600 (lit "LOGIN_FAILED") [0; 2]);
    [lia|lia|discriminate|vm_compute; discriminate|].
  apply (bool_decide_unpack _). vm_compute. exact I.
Defined.

#[local] Instance folding : CaseFolding := λ s, ascii_lower <$> s.

Lemma counts_are_for_auditors_witness :
  let w := MkWorld (C:=unit) empty_db None tt now 0 [] [] None in
  let ctx := MkRequestContext (lit "r") None None None in
  (get_security_counts t2 ctx (lit "24h") w).2 = w ∧
  (get_security_counts t2 ctx (lit "24h") w).1 =
    Err (DomainError (lit "Authentication required") (lit "UNAUTHENTICATED")).
Proof.
  intros w ctx. destruct (get_security_counts t2 ctx (lit "24h") w) as [r w'] eqn:E.
  destruct (counts_are_for_auditors t2 ctx (lit "24h") w r w' E) as [Hw Hr]. split; [exact Hw|exact Hr].
Defined.
End SecurityDemo.
