(* ===== verification/WebRequest.v ===== *)
(** * Requests as the web layer reads them

    [web/security/context.py], [web/middleware/host_check.py],
    [web/middleware/query_strictness.py], [web/paging.py], [web/responses.py]:
    who is calling, which host was asked for, which parameters came with the
    request, and what an answer is.

    A request is what Flask and Werkzeug hand to the program: the method, the
    path, the host, the rule and the endpoint that match it, the header fields
    by name, the cookies and the query.  [flask.g] is a record, a hook or a
    view is a program over [g] and the world that may raise.  A sentence for
    the reader is kept as what is to be translated.  The decimal digits of
    Unicode and the documented paths are parameters. *)

From S2P Require Import Prelude PyStr Json Exceptions ValueObjects Entities IpAddress UrlParse Database.

(** ** [int()] of a text *)

(** The value of a Unicode decimal digit outside ASCII. *)
Class DecimalDigits := decimal : Z → option Z.

Section numbers.
Context `{DecimalDigits}.

(** Other spaces and digits become those of ASCII; what is neither ends the
    number badly. *)
Definition to_ascii (c : Z) : Z :=
  if c <? 127 then c
  else if is_space c then 32
  else match decimal c with Some d => 48 + d | None => 63 end.

Definition is_c_space (c : Z) : bool := ((9 <=? c) && (c <=? 13)) || (c =? 32).

(** Digits, single underscores between them. *)
Fixpoint digit_groups (after_digit : bool) (s : pystr) : option pystr :=
  match s with
  | [] => if after_digit then Some [] else None
  | c :: s =>
      if is_digit c then cons c <$> digit_groups true s
      else if (c =? UNDERSCORE) && after_digit then digit_groups false s
      else None
  end.

Definition PLUS : Z := 43.

Definition py_int (s : pystr) : option Z :=
  let s := rstrip_by is_c_space (lstrip_by is_c_space (to_ascii <$> s)) in
  let '(negative, s) :=
    match s with
    | c :: s' => if c =? HYPHEN then (true, s') else if c =? PLUS then (false, s') else (false, s)
    | [] => (false, [])
    end in
  ds ← digit_groups false s;
  if UrlParse.MAX_STR_DIGITS <? len ds then None
  else Some (if (negative : bool) then - int_of 10 ds else int_of 10 ds).
End numbers.

(** ** Requests, [flask.g], answers *)

(** The body as [request.get_json] finds it: not said to be JSON, empty, not
    JSON, nested deeper than the interpreter goes, or a value. *)
Inductive request_body := NotJson | NoData | Malformed | TooDeep | Decoded (j : json).

Record Request := MkRequest {
  rq_method : pystr;
  rq_path : pystr;
  rq_host : pystr;
  rq_endpoint : option pystr;
  rq_rule : option pystr;
  rq_remote_addr : option pystr;
  rq_headers : list (pystr * pystr);
  rq_cookies : list (pystr * pystr);
  rq_args : list (pystr * pystr);
  rq_body : request_body;
}.

(** The first value under a name. *)
Definition lookup_field (name : pystr) (l : list (pystr * pystr)) : option pystr :=
  snd <$> first (filter (λ f, f.1 = name) l).
Definition header (name : string) (r : Request) : option pystr := lookup_field (lit name) (rq_headers r).
Definition cookie (name : string) (r : Request) : option pystr := lookup_field (lit name) (rq_cookies r).

(** The truth of an optional text: [if value:]. *)
Definition truthy (o : option pystr) : option pystr :=
  match o with Some [] => None | o => o end.

Inductive token_source := AUTH_SOURCE_HEADER | AUTH_SOURCE_COOKIE.
#[global] Instance token_source_eq_dec : EqDecision token_source.
Proof. solve_decision. Defined.

(** [flask.g]: an attribute that was not set reads as absent, and the code
    never tells that from [None]. *)
Record G := MkG {
  g_request_id : pystr;
  g_current_user : option CurrentUserInfo;
  g_domain_user : option User;
  g_auth_session_id : option pystr;
  g_auth_token_source : option token_source;
  g_authorization_service : bool;
  g_rate_limit : option (Z * Z);
  g_deletion_token_was_read : bool;
  g_deletion_token_matched : bool;
  g_csp_nonce : option pystr;
}.
Definition empty_g : G := MkG [] None None None None false None false false None.

Definition set_request_id (i : pystr) (g : G) : G :=
  MkG i (g_current_user g) (g_domain_user g) (g_auth_session_id g) (g_auth_token_source g)
    (g_authorization_service g) (g_rate_limit g) (g_deletion_token_was_read g)
    (g_deletion_token_matched g) (g_csp_nonce g).
Definition set_identity (u : option CurrentUserInfo) (d : option User) (sid : option pystr)
    (src : option token_source) (service : bool) (g : G) : G :=
  MkG (g_request_id g) u d sid src service (g_rate_limit g) (g_deletion_token_was_read g)
    (g_deletion_token_matched g) (g_csp_nonce g).
Definition set_rate_limit (l : Z * Z) (g : G) : G :=
  MkG (g_request_id g) (g_current_user g) (g_domain_user g) (g_auth_session_id g)
    (g_auth_token_source g) (g_authorization_service g) (Some l) (g_deletion_token_was_read g)
    (g_deletion_token_matched g) (g_csp_nonce g).
Definition set_token_read (g : G) : G :=
  MkG (g_request_id g) (g_current_user g) (g_domain_user g) (g_auth_session_id g)
    (g_auth_token_source g) (g_authorization_service g) (g_rate_limit g) true
    (g_deletion_token_matched g) (g_csp_nonce g).
Definition set_token_matched (g : G) : G :=
  MkG (g_request_id g) (g_current_user g) (g_domain_user g) (g_auth_session_id g)
    (g_auth_token_source g) (g_authorization_service g) (g_rate_limit g)
    (g_deletion_token_was_read g) true (g_csp_nonce g).
Definition set_csp_nonce (n : pystr) (g : G) : G :=
  MkG (g_request_id g) (g_current_user g) (g_domain_user g) (g_auth_session_id g)
    (g_auth_token_source g) (g_authorization_service g) (g_rate_limit g)
    (g_deletion_token_was_read g) (g_deletion_token_matched g) (Some n).

(** What the reader is told: a sentence of the catalogue with what fills it,
    the sentence of a domain error in the reader's language, or a text as it
    is. *)
Inductive sentence :=
| Gettext (text : pystr) (params : list (pystr * pystr))
| Ngettext (singular plural : pystr) (n : Z) (params : list (pystr * pystr))
| TranslateError (e : exn)
| Plain (text : pystr).

(** [schemas/error.py]. *)
Record ErrorDetail := MkErrorDetail {
  ed_field : option pystr;
  ed_message : sentence;
  ed_code : option pystr;
}.
Record ErrorResponse := MkErrorResponse {
  er_error : pystr;
  er_message : sentence;
  er_details : option (list ErrorDetail);
  er_timestamp : Z;
}.

(** The body of an answer: the error envelope (with [retry_after] for the
    throttle), the error page, a JSON value, a page of the service, a text. *)
Inductive body :=
| ErrorBody (e : ErrorResponse) (retry_after : option Z)
| ErrorPage (error : sentence) (offers_lookup : bool)
| JsonBody (j : json)
| TextBody (content_type text : pystr).

(** [response.set_cookie]; [delete_cookie] sets an empty value and the age 0. *)
Record SetCookie := MkSetCookie {
  ck_name : pystr;
  ck_value : pystr;
  ck_httponly : bool;
  ck_secure : bool;
  ck_samesite : pystr;
  ck_max_age : Z;
  ck_path : pystr;
}.

Record Response := MkResponse {
  status_code : Z;
  rs_headers : list (pystr * pystr);
  rs_vary : list pystr;
  rs_cookies : list SetCookie;
  rs_body : body;
}.

Definition get_header (name : string) (r : Response) : option pystr :=
  lookup_field (lit name) (rs_headers r).
(** [response.headers[name] = value]: in place of what stood under the name. *)
Definition set_header (name : string) (value : pystr) (r : Response) : Response :=
  MkResponse (status_code r)
    (filter (λ f, f.1 ≠ lit name) (rs_headers r) ++ [(lit name, value)]) (rs_vary r)
    (rs_cookies r) (rs_body r).
(** [setdefault]. *)
Definition setdefault_header (name : string) (value : pystr) (r : Response) : Response :=
  match get_header name r with Some _ => r | None => set_header name value r end.
Definition set_cookie (k : SetCookie) (r : Response) : Response :=
  MkResponse (status_code r) (rs_headers r) (rs_vary r) (rs_cookies r ++ [k]) (rs_body r).
(** [response.vary.add]. *)
Definition vary_add (name : string) (r : Response) : Response :=
  MkResponse (status_code r) (rs_headers r)
    (if bool_decide (lit name ∈ rs_vary r) then rs_vary r else rs_vary r ++ [lit name])
    (rs_cookies r) (rs_body r).

(** [jsonify], [render_template]: the type of the content. *)
Definition content_type (r : Response) : pystr :=
  match rs_body r with
  | ErrorBody _ _ | JsonBody _ => lit "application/json"
  | ErrorPage _ _ => lit "text/html; charset=utf-8"
  | TextBody t _ => t
  end.

(** ** Programs of the web layer *)

(** What a hook or a view may raise: an exception of the program or of the
    interpreter; an [HTTPException] with its code, name and description, the
    one for a method the rule does not take with those it takes; a body the
    schema turned down, each fault with its place, message and type. *)
Inductive failure :=
| Raised (e : exn)
| HTTPException (code : Z) (name description : pystr)
| MethodNotAllowed (valid_methods : list pystr)
| PydanticValidationError (errors : list (pystr * pystr * pystr)).

Record Web (C : Type) := MkWeb { wb_g : G; wb_world : World C }.
Arguments MkWeb {C}.
Arguments wb_g {C}.
Arguments wb_world {C}.

Section web.
Context {C : Type}.
Abbreviation W := (M (Web C) failure).

Definition in_world {A} (m : M (World C) exn A) : W A := λ s,
  let '(r, w) := m (wb_world s) in
  (match r with Ok a => Ok a | Err e => Err (Raised e) end, MkWeb (wb_g s) w).
Definition get_g : W G := gets wb_g.
Definition modify_g (f : G → G) : W unit := modify (λ s, MkWeb (f (wb_g s)) (wb_world s)).

Lemma wp_in_world {A} (m : M (World C) exn A) (Q : result failure A → Web C → Prop) s :
  wp m (λ r w, Q (match r with Ok a => Ok a | Err e => Err (Raised e) end) (MkWeb (wb_g s) w))
    (wb_world s) →
  wp (in_world m) Q s.
Proof. rewrite /wp /in_world. by destruct (m (wb_world s)) as [r w]. Qed.

(** [error_response], [error_page].  The page is what [error.html] is handed;
    that the shipped template draws is taken for granted here (the one place
    where the code itself provides for a page that cannot be drawn is the
    throttle, and there it is a parameter, [page_renders]). *)
Definition error_response (code : pystr) (message : sentence) (status : Z) : W Response :=
  now ← in_world now_utc;
  mret (MkResponse status [] [] [] (ErrorBody (MkErrorResponse code message None now) None)).

Definition CODES_OFFERING_LOOKUP : list pystr := lit <$> ["LINK_NOT_FOUND"; "LINK_EXPIRED"]%string.
Definition error_page (code : pystr) (message : sentence) (status : Z) : Response :=
  MkResponse status [] [] [] (ErrorPage message (bool_decide (code ∈ CODES_OFFERING_LOOKUP))).

Definition wants_html (r : Request) : bool := negb (startswith (lit "/api/") (rq_path r)).

(** ** [context.py] *)

Definition as_ip_address (value : pystr) : option pystr :=
  let candidate := strip value in
  let candidate := if startswith [OPEN_BRACKET] candidate && endswith [CLOSE_BRACKET] candidate
                   then removelast (drop 1 candidate) else candidate in
  if has_char PERCENT candidate then None else str_ip <$> parse_ip candidate.

Definition get_client_ip (trusted_proxies : list pystr) (r : Request) : pystr :=
  let remote_addr := default [] (rq_remote_addr r) in
  let nearest :=
    if bool_decide (remote_addr ∈ trusted_proxies) then
      forwarded_for ← truthy (header "X-Forwarded-For" r);
      as_ip_address (rpartition_at COMMA forwarded_for).2
    else None in
  default remote_addr nearest.

Definition create_request_context (trusted_proxies : list pystr) (r : Request) (g : G)
    : RequestContext :=
  {| request_id := g_request_id g;
     remote_addr := Some (get_client_ip trusted_proxies r);
     user_agent := header "User-Agent" r;
     current_user := g_current_user g |}.

(** ** [paging.py] *)

Definition MAX_PAGE_SIZE : Z := 200.
Definition MAX_OFFSET : Z := 2 ^ 31 - 1.

(** [request.args.get(name, default, type=int)]. *)
Definition int_argument `{DecimalDigits} (name : string) (dflt : Z) (r : Request) : Z :=
  default dflt (lookup_field (lit name) (rq_args r) ≫= py_int).

Definition window_from_query `{DecimalDigits} (default_limit : Z) (r : Request) : Z * Z :=
  let limit := int_argument "limit" default_limit r in
  let offset := int_argument "offset" 0 r in
  (Z.max 1 (Z.min limit MAX_PAGE_SIZE), Z.min (Z.max 0 offset) MAX_OFFSET).

(** ** [host_check.py] *)

Fixpoint contains (sub s : pystr) : bool :=
  startswith sub s || match s with [] => false | _ :: s' => contains sub s' end.

Section hosts.
Context `{CaseFolding} `{Nfkc}.

Definition normalise_host (value : pystr) : pystr :=
  let candidate := strip value in
  match candidate with
  | [] => []
  | _ =>
      let candidate := if contains (lit "//") candidate then candidate else lit "//" ++ candidate in
      match urlparse candidate with
      | None => []
      | Some p => lower (rstrip_by (Z.eqb DOT) (default [] (hostname p)))
      end
  end.

Definition normalise_all (values : list pystr) : list pystr :=
  foldl (λ seen value,
           let host := normalise_host value in
           match host with
           | [] => seen
           | _ => if bool_decide (host ∈ seen) then seen else seen ++ [host]
           end) [] values.

(** [abort(400)]. *)
Definition BAD_REQUEST : failure :=
  HTTPException 400 (lit "Bad Request")
    (lit "The browser (or proxy) sent a request that this server could not understand.").

(** The hook is only installed when a host is claimed. *)
Definition check_host (allowed_hosts : list pystr) (r : Request) : W (option Response) :=
  let allowed := normalise_all allowed_hosts in
  match allowed with
  | [] => mret None
  | _ => if bool_decide (normalise_host (rq_host r) ∈ allowed) then mret None
         else raise BAD_REQUEST
  end.
End hosts.

(** ** [query_strictness.py] *)

Definition LESS : Z := 60.
Definition GREATER : Z := 62.
Definition OPEN_BRACE : Z := 123.
Definition CLOSE_BRACE : Z := 125.
Definition is_angle (c : Z) : bool := (c =? LESS) || (c =? GREATER).

(** The name in [<converter:name>]. *)
Definition parameter_name (inner : pystr) : pystr :=
  let '(a, found, b) := partition_at COLON inner in
  match a, b with
  | _ :: _, _ :: _ => if found then b else inner
  | _, _ => inner
  end.

Fixpoint documented_path (fuel : nat) (rule : pystr) : pystr :=
  match fuel, rule with
  | O, _ | _, [] => rule
  | S fuel, c :: rule' =>
      if c =? LESS then
        match cut_at is_angle rule' with
        | ((_ :: _) as inner, 62 :: rest) =>
            OPEN_BRACE :: parameter_name inner ++ CLOSE_BRACE :: documented_path fuel rest
        | _ => c :: documented_path fuel rule'
        end
      else c :: documented_path fuel rule'
  end.
Definition as_documented_path (rule : pystr) : pystr := documented_path (length rule) rule.

Definition API_PREFIX : pystr := lit "/api/v1".

Record Rule := MkRule { ru_rule : pystr; ru_endpoint : pystr; ru_methods : list pystr }.
(** An operation: its parameters, each with where it stands and its name. *)
Record OperationParameter := MkOperationParameter { pm_in : pystr; pm_name : pystr }.

Section strictness.
Context `{CaseFolding}.
(** [documented_paths()]: path, then method in lower case. *)
Context (documented : gmap pystr (gmap pystr (list OperationParameter))).

Definition query_names (operation : list OperationParameter) : list pystr :=
  pm_name <$> filter (λ p, pm_in p = lit "query") operation.

Definition declared_of (ru : Rule) : list ((pystr * pystr) * list pystr) :=
  if startswith API_PREFIX (ru_rule ru) then
    match documented !! as_documented_path (ru_rule ru) with
    | None => []
    | Some operations =>
        omap (λ method, (λ o, ((ru_rule ru, method), query_names o)) <$> operations !! lower method)
          (ru_methods ru)
    end
  else [].

(** The dictionary the rules fill, the last rule of a key counting. *)
Definition declared_query_parameters (rules : list Rule) : gmap (pystr * pystr) (list pystr) :=
  foldl (λ d kv, <[kv.1 := kv.2]> d) ∅ (concat (declared_of <$> rules)).

Definition allowed_parameters (rules : list Rule) (r : Request) : option (list pystr) :=
  rule ← rq_rule r;
  if startswith API_PREFIX rule then declared_query_parameters rules !! (rule, rq_method r)
  else None.

Definition UNDECLARED : pystr := lit "'%(name)s' is not a parameter of this endpoint".

Definition refuse_undeclared_query_parameters (rules : list Rule) (r : Request)
    : W (option Response) :=
  match allowed_parameters rules r with
  | None => mret None
  | Some names =>
      match sorted (remove_dups (filter (λ n, n ∉ names) (fst <$> rq_args r))) with
      | [] => mret None
      | n :: _ => raise (Raised (ValidationError UNDECLARED (Some n)))
      end
  end.
End strictness.
End web.
