(* ===== verification/WebAuth.v ===== *)
(** * Who the request acts as, and what it may do

    [web/middleware/authentication.py] ([AuthenticationMiddleware]),
    [web/security/decorators.py], [web/security/authorization.py],
    [web/security/deletion_token.py]: the credential a request presents, the
    account [g] is filled with, and the guards that stand before a view.

    The serializer of [itsdangerous] is a parameter, class [Serializer]. *)

From S2P Require Import Prelude PyStr Json Exceptions ValueObjects Entities Policies Database UserRepo Sessions Auth WebRequest.

(** ** [AuthenticationMiddleware] *)

Definition AUTHENTICATION_BLUEPRINT : pystr := lit "auth".
Definition A_FAILED_HEADER_IS_IGNORED_ON : list pystr := [lit "health"].
Definition STATIC_PREFIX : pystr := lit "/static/".
Definition BEARER : pystr := lit "Bearer ".

(** The token of the header when there is one, the cookie's otherwise. *)
Definition credential (r : Request) : option (pystr * token_source) :=
  let in_header :=
    auth_header ← truthy (header "Authorization" r);
    if startswith BEARER auth_header then truthy (Some (drop 7 auth_header)) else None in
  match in_header with
  | Some token => Some (token, AUTH_SOURCE_HEADER)
  | None => token ← truthy (cookie "access_token" r); Some (token, AUTH_SOURCE_COOKIE)
  end.

(** Whether a bad credential is an error rather than an anonymous caller. *)
Definition is_presented (source : token_source) (r : Request) : bool :=
  let endpoint := default [] (rq_endpoint r) in
  bool_decide (source = AUTH_SOURCE_HEADER) &&
  bool_decide (endpoint ∉ A_FAILED_HEADER_IS_IGNORED_ON) &&
  bool_decide (default [] (head (split_on DOT endpoint)) ≠ AUTHENTICATION_BLUEPRINT) &&
  match rq_rule r with Some _ => true | None => false end.

Definition UNAUTHENTICATED : exn :=
  DomainError (lit "Authentication required") (lit "UNAUTHENTICATED").

Definition current_user_info (u : User) : CurrentUserInfo :=
  {| cu_id := user_id u; cu_email := em_value (user_email u);
     cu_roles := role_name <$> user_roles u; cu_is_active := user_is_active u |}.

Section authentication.
Context {C : Type} `{TokenCodec} `{CaseFolding}.
Abbreviation W := (M (Web C) failure).

Definition reject (presented : bool) : W (option Response) :=
  if presented then raise (Raised UNAUTHENTICATED) else mret None.

Definition anonymous : W unit := modify_g (set_identity None None None None true).

(** The login the token came from is live, and the account it names. *)
Definition live_account (now : Z) (session_id uid : pystr) : M (World C) exn (option User) :=
  with_uow (
    live ← read (λ d, chain_is_live now session_id (refresh_sessions d));
    if (live : bool) then load (find_user_by_id uid) else mret None).

Definition load_account (presented : bool) (source : token_source) (session_id uid : pystr)
    : W (option Response) :=
  try_except
    (now ← in_world now_utc;
     user ← in_world (live_account now session_id uid);
     match user with
     | Some user =>
         if user_is_active user then
           modify_g (set_identity (Some (current_user_info user)) (Some user) (Some session_id)
                       (Some source) true);;
           mret None
         else reject presented
     | None => reject presented
     end)
    (λ e, match e with
          | Raised (PyError _) => anonymous;; mret None
          | e => raise e
          end).

Definition load_current_user (r : Request) : W (option Response) :=
  if startswith STATIC_PREFIX (rq_path r) then mret None
  else
    anonymous;;
    match credential r with
    | None => mret None
    | Some (token, source) =>
        let presented := is_presented source r in
        now ← in_world now_utc;
        match validate_token now token (Some ACCESS) with
        | None => reject presented
        | Some payload =>
            match truthy (cl_sid payload) with
            | None => reject presented
            | Some session_id =>
                match cl_sub payload with
                | [] => reject presented
                | uid => load_account presented source session_id uid
                end
            end
        end
    end.

(** ** [decorators.py] *)

Definition NO_SERVICE : failure := Raised (PyError RuntimeError).

(** [authorization_service.is_allowed]. *)
Definition g_is_allowed (user : option User) (permission : pystr) : W bool :=
  d ← in_world (gets w_db); mret (is_allowed d user permission).

Definition require_permission {A} (permission : pystr) (view : W A) : W A :=
  g ← get_g;
  if negb (g_authorization_service g) then raise NO_SERVICE
  else
    allowed ← g_is_allowed (g_domain_user g) permission;
    if (allowed : bool) then view
    else match g_domain_user g with
         | None => raise (Raised UNAUTHENTICATED)
         | Some _ => raise (Raised (PermissionDeniedError [permission] []))
         end.

Definition require_any_permission {A} (permissions : list pystr) (view : W A) : W A :=
  g ← get_g;
  if negb (g_authorization_service g) then raise NO_SERVICE
  else
    d ← in_world (gets w_db);
    if existsb (is_allowed d (g_domain_user g)) permissions then view
    else match g_domain_user g with
         | None => raise (Raised UNAUTHENTICATED)
         | Some _ => raise (Raised (PermissionDeniedError permissions []))
         end.

Definition LOGIN_PAGE : pystr := lit "/login".
Definition redirect_to (location : pystr) : Response :=
  MkResponse 302 [(lit "Location", location)] [] [] (TextBody (lit "text/html; charset=utf-8") []).

Definition login_required (r : Request) (view : W Response) : W Response :=
  g ← get_g;
  match g_current_user g with
  | None => if startswith (lit "/api/") (rq_path r) then raise (Raised UNAUTHENTICATED)
            else mret (redirect_to LOGIN_PAGE)
  | Some _ => view
  end.

(** ** [authorization.py] *)

Definition can_view_link_details (owner_id : option pystr) : W bool :=
  g ← get_g;
  match g_domain_user g with
  | None => mret false
  | Some user =>
      d ← in_world (gets w_db);
      if is_allowed d (Some user) ADMIN_ALL || is_allowed d (Some user) STATS_VIEW_ANY
      then mret true
      else mret (bool_decide (owner_id = Some (user_id user)))
  end.

Definition require_can_view_link_details (owner_id : option pystr) : W unit :=
  g ← get_g;
  match g_domain_user g with
  | None => raise (Raised UNAUTHENTICATED)
  | Some _ =>
      may ← can_view_link_details owner_id;
      if (may : bool) then mret tt else raise (Raised (PermissionDeniedError [] []))
  end.
End authentication.

(** ** [deletion_token.py] *)

(** [URLSafeSerializer(secret_key, salt)]: [loads] answers [None] for every
    [BadSignature]. *)
Class Serializer := MkSerializer {
  sr_dumps : pystr → pystr → json → pystr;
  sr_loads : pystr → pystr → pystr → option json;
}.

Definition SALT : pystr := lit "link-deletion-token".

Section deletion_tokens.
Context {C : Type} `{Serializer}.
Context (secret_key : pystr).
Abbreviation W := (M (Web C) failure).

Definition issue (link_id : pystr) : pystr := sr_dumps secret_key SALT (JString link_id).

Definition link_id_from (token : option pystr) : option json :=
  token ← truthy token; sr_loads secret_key SALT token.

Definition presented_link_id (r : Request) : W (option json) :=
  modify_g set_token_read;;
  mret (link_id_from (header "X-Deletion-Token" r)).

Definition is_link_id (link_id : pystr) (j : option json) : bool :=
  match j with Some (JString s) => bool_decide (s = link_id) | _ => false end.

Definition made_this_link (link_id : option pystr) (r : Request) : W bool :=
  match link_id with
  | None => mret false
  | Some i =>
      presented ← presented_link_id r;
      if is_link_id i presented then modify_g set_token_matched;; mret true else mret false
  end.
End deletion_tokens.
