(* ===== verification/Csrf.v ===== *)
(** * CSRF protection of cookie-authenticated requests

    [web/middleware/csrf.py]: the signed token, the origins a browser may post
    from, the check before a write and the cookie handed out after a request;
    [web/middleware/hooks.py]: a response hook that fails leaves the response
    alone.

    HMAC-SHA256 is computed, on the SHA-256 of [Sha256]. *)

From S2P Require Import Prelude PyStr Exceptions ValueObjects Entities Sha256 UrlParse Database Sessions Auth WebRequest WebAuth.

(** ** HMAC *)

Definition BLOCK_SIZE : nat := 64.
Definition hmac_key (key : list Z) : list Z :=
  let key := if Z.of_nat BLOCK_SIZE <? len key then sha256 key else key in
  key ++ replicate (BLOCK_SIZE - length key) 0.
Definition xor_all (mask : Z) (bs : list Z) : list Z := Z.lxor mask <$> bs.
Definition hmac_sha256 (key message : list Z) : list Z :=
  let key := hmac_key key in
  sha256 (xor_all 92 key ++ sha256 (xor_all 54 key ++ message)).

(** [text.encode("utf-8")]. *)
Definition encode (s : pystr) : result exn (list Z) :=
  match utf8_encode s with Some b => Ok b | None => Err (PyError UnicodeEncodeError) end.

(** ** The token *)

Definition CSRF_TOKEN_TTL_SECONDS : Z := 12 * 3600.
Definition CSRF_COOKIE_MAX_AGE : Z := 7 * 24 * 3600.

Definition signed_text (uid nonce : pystr) (issued_at : Z) : pystr :=
  uid ++ COLON :: nonce ++ COLON :: str_of_Z issued_at.

Definition signature (secret_key uid nonce : pystr) (issued_at : Z) : result exn pystr :=
  message ← encode (signed_text uid nonce issued_at);
  key ← encode secret_key;
  mret (hexdigest (hmac_sha256 key message)).

(** [int(time.time())]. *)
Definition unix_time (now : Z) : Z := now / SECOND.

Section tokens.
Context `{DecimalDigits}.
Context (secret_key : pystr).

Definition csrf_token (uid nonce : pystr) (issued_at : Z) : result exn pystr :=
  sig ← signature secret_key uid nonce issued_at;
  mret (nonce ++ DOT :: str_of_Z issued_at ++ DOT :: sig).

Definition verify_csrf_token (now : Z) (uid token : pystr) : result exn bool :=
  match split_on DOT token with
  | [nonce; raw_issued_at; sig] =>
      match nonce, sig with
      | _ :: _, _ :: _ =>
          match py_int raw_issued_at with
          | None => mret false
          | Some issued_at =>
              if CSRF_TOKEN_TTL_SECONDS <? unix_time now - issued_at then mret false
              else
                expected ← signature secret_key uid nonce issued_at;
                presented ← encode sig;
                known ← encode expected;
                mret (bool_decide (presented = known))
          end
      | _, _ => mret false
      end
  | _ => mret false
  end.
End tokens.

(** ** The origins *)

Section origins.
Context `{CaseFolding} `{Nfkc}.

Definition parse_url (url : pystr) : result exn ParseResult :=
  match urlparse url with Some p => Ok p | None => Err (PyError ValueError) end.

Definition LOCALHOST : pystr := lit "localhost".
Definition LOOPBACK : pystr := lit "127.0.0.1".
Definition loopback_name (host : pystr) : option pystr :=
  if bool_decide (host = LOCALHOST) then Some LOOPBACK
  else if bool_decide (host = LOOPBACK) then Some LOCALHOST else None.

Definition origin_text (scheme netloc : pystr) : pystr := scheme ++ lit "://" ++ netloc.

(** [if parsed.port]: the port 0 is none. *)
Definition loopback_twin (p : ParseResult) : result exn (list pystr) :=
  match loopback_name (default [] (hostname p)) with
  | None => Ok []
  | Some twin =>
      match port p with
      | None => Err (PyError ValueError)
      | Some n =>
          let port_text := match n with
                           | Some n => if n =? 0 then [] else COLON :: str_of_Z n
                           | None => []
                           end in
          Ok [origin_text (scheme p) (twin ++ port_text)]
      end
  end.

Definition without_slashes (s : pystr) : pystr := rstrip_by (Z.eqb SLASH) s.

Definition build_allowed_origins (cors_origins : list pystr) (base_url : option pystr)
    : result exn (list pystr) :=
  let origins := without_slashes <$> cors_origins in
  match truthy base_url with
  | None => Ok origins
  | Some base_url =>
      p ← parse_url base_url;
      match scheme p, netloc p with
      | _ :: _, _ :: _ =>
          twin ← loopback_twin p;
          mret (origins ++ [origin_text (scheme p) (netloc p)] ++ twin)
      | _, _ => mret origins
      end
  end.

Definition origin_is_allowed (allowed_origins : list pystr) (r : Request) : result exn bool :=
  let stated (origin : pystr) := bool_decide (without_slashes origin ∈ allowed_origins) in
  match truthy (header "Origin" r) with
  | Some origin => Ok (stated origin)
  | None =>
      match truthy (header "Referer" r) with
      | None => Ok true
      | Some referer =>
          p ← parse_url referer;
          match scheme p, netloc p with
          | _ :: _, _ :: _ => mret (stated (origin_text (scheme p) (netloc p)))
          | _, _ => mret false
          end
      end
  end.
End origins.

(** ** The middleware *)

Definition SAFE_METHODS : list pystr := lit <$> ["GET"; "HEAD"; "OPTIONS"; "TRACE"]%string.
Definition COOKIE_AUTHORITY_ENDPOINTS : list pystr := lit <$> ["auth.refresh_token"; "auth.logout"]%string.

Definition has_auth_cookie (r : Request) : bool :=
  match truthy (cookie "access_token" r), truthy (cookie "refresh_token" r) with
  | None, None => false
  | _, _ => true
  end.

Definition is_cookie_authenticated (r : Request) (g : G) : bool :=
  match rq_endpoint r with
  | Some e =>
      if bool_decide (e ∈ COOKIE_AUTHORITY_ENDPOINTS) then has_auth_cookie r
      else if bool_decide (g_auth_token_source g = Some AUTH_SOURCE_HEADER) then false
      else has_auth_cookie r
  | None => if bool_decide (g_auth_token_source g = Some AUTH_SOURCE_HEADER) then false
            else has_auth_cookie r
  end.

Definition NOT_VERIFIED : sentence :=
  Gettext (lit "This request could not be verified. Reload the page and try again.") [].

(** [response_hook]: the response stands when the hook raises. *)
Definition response_hook {C} (hook : Response → M (Web C) failure Response) (response : Response)
    : M (Web C) failure Response :=
  try_except (hook response) (λ _, mret response).

Record CsrfSettings := MkCsrfSettings {
  secret_key : pystr;
  cookie_secure : bool;
  allowed_origins : list pystr;
}.

Section middleware.
Context {C : Type} `{TokenCodec} `{CaseFolding} `{Nfkc} `{DecimalDigits} `{SecretTokens}.
Context (cfg : CsrfSettings).
Abbreviation W := (M (Web C) failure).

(** A pure step that may raise. *)
Definition attempt {A} (r : result exn A) : W A := in_world (lift r).

Definition build_csrf_token (uid : pystr) : M (World C) exn pystr :=
  n ← draw;
  now ← now_utc;
  lift (csrf_token (secret_key cfg) uid (token_urlsafe 16 n) (unix_time now)).

(** The account of one cookie, when it holds a live token of the type. *)
Definition cookie_owner (now : Z) (token : option pystr) (token_type : pystr) : option pystr :=
  token ← truthy token;
  payload ← validate_token now token (Some token_type);
  Some (cl_sub payload).

Definition resolve_user_id (now : Z) (r : Request) : option pystr :=
  match cookie_owner now (cookie "access_token" r) ACCESS with
  | Some uid => Some uid
  | None => cookie_owner now (cookie "refresh_token" r) REFRESH
  end.

Definition refuse : W (option Response) :=
  answer ← error_response (lit "CSRF_TOKEN_INVALID") NOT_VERIFIED 403; mret (Some answer).

Definition enforce_csrf (r : Request) : W (option Response) :=
  if bool_decide (rq_method r ∈ SAFE_METHODS) then mret None
  else
    g ← get_g;
    if negb (is_cookie_authenticated r g) then mret None
    else
      origin_ok ← attempt (origin_is_allowed (allowed_origins cfg) r);
      if negb origin_ok then refuse
      else
        match truthy (cookie "csrf_token" r), truthy (header "X-CSRF-Token" r) with
        | Some cookie_token, Some header_token =>
            a ← attempt (encode cookie_token);
            b ← attempt (encode header_token);
            if negb (bool_decide (a = b)) then refuse
            else
              now ← in_world now_utc;
              match truthy (resolve_user_id now r) with
              | None => refuse
              | Some uid =>
                  verified ← attempt (verify_csrf_token (secret_key cfg) now uid cookie_token);
                  if (verified : bool) then mret None else refuse
              end
        | _, _ => refuse
        end.

Definition csrf_cookie (token : pystr) : SetCookie :=
  {| ck_name := lit "csrf_token"; ck_value := token; ck_httponly := false;
     ck_secure := cookie_secure cfg; ck_samesite := lit "Strict";
     ck_max_age := CSRF_COOKIE_MAX_AGE; ck_path := lit "/" |}.
Definition set_csrf_cookie (token : pystr) (response : Response) : Response :=
  set_cookie (csrf_cookie token) response.

Definition sets_csrf (response : Response) : bool :=
  existsb (λ k, bool_decide (ck_name k = lit "csrf_token")) (rs_cookies response).

Definition hand_out_csrf_cookie (r : Request) (response : Response) : W Response :=
  if startswith STATIC_PREFIX (rq_path r) then mret response
  else if sets_csrf response then mret response
  else if negb (has_auth_cookie r) then mret response
  else
    now ← in_world now_utc;
    match truthy (resolve_user_id now r) with
    | None => mret response
    | Some uid =>
        current ← match truthy (cookie "csrf_token" r) with
                  | None => mret false
                  | Some existing => attempt (verify_csrf_token (secret_key cfg) now uid existing)
                  end;
        if (current : bool) then mret response
        else
          token ← in_world (build_csrf_token uid);
          mret (set_csrf_cookie token response)
    end.

Definition issue_csrf_cookie (r : Request) : Response → W Response :=
  response_hook (hand_out_csrf_cookie r).
End middleware.
