(* ===== verification/WebThrottle.v ===== *)
(** * Throttling of requests

    [web/middleware/rate_limit.py]: who is counted, the limit of an endpoint,
    the refusal and the headers of [RateLimitMiddleware], and the check of the
    configured limits at start-up. *)

From S2P Require Import Prelude PyStr Exceptions Entities Database RateLimit WebRequest WebAuth Csrf.

Definition EXEMPT_ENDPOINTS : list pystr := [lit "health"].
Definition FALLBACK_LIMIT : Z := 100.
Definition FALLBACK_PERIOD : Z := 60.

(** A configured limit is whatever the settings hold under the endpoint. *)
Inductive part_value := PartInt (n : Z) | PartBool (b : bool) | PartOther.
Inductive limit_value := LimitSequence (parts : list part_value) | LimitOther.

Definition is_positive_int (p : part_value) : bool :=
  match p with PartInt n => 0 <? n | _ => false end.
Definition is_limit_pair (limit : limit_value) : bool :=
  match limit with
  | LimitSequence parts => (len parts =? 2) && forallb is_positive_int parts
  | LimitOther => false
  end.

(** ** The check at start-up *)

Inductive fault := NO_ROUTE | LISTED_EXEMPT | SERVED_STATIC | NOT_A_PAIR.

Definition paths_of (rules : list Rule) (endpoint : pystr) : list pystr :=
  ru_rule <$> filter (λ ru, ru_endpoint ru = endpoint) rules.

Definition fault_of (rules : list Rule) (endpoint : pystr) (limit : limit_value) : option fault :=
  match paths_of rules endpoint with
  | [] => Some NO_ROUTE
  | paths =>
      if bool_decide (endpoint ∈ EXEMPT_ENDPOINTS) then Some LISTED_EXEMPT
      else if forallb (startswith STATIC_PREFIX) paths then Some SERVED_STATIC
      else if negb (is_limit_pair limit) then Some NOT_A_PAIR
      else None
  end.

(** The setting is a dictionary, or something else. *)
Definition check_rate_limit_targets (rules : list Rule)
    (rate_limits : option (list (pystr * limit_value))) : result exn unit :=
  match rate_limits with
  | None => Err (PyError ValueError)
  | Some entries =>
      match omap (λ '(endpoint, limit), fault_of rules endpoint limit) entries with
      | [] => Ok tt
      | _ => Err (PyError ValueError)
      end
  end.

(** ** The middleware *)

Record ThrottleSettings := MkThrottleSettings {
  default_limit : Z;
  default_period : Z;
  rate_limits : gmap pystr limit_value;
  rate_limit_auth_disabled : bool;
}.

(** [RateLimiter.check], which the Redis limiter answers in one exchange. *)
Class LimiterCheck (C : Type) := limiter_check : Z → pystr → Z → Z → C → RateLimitDecision * C.

(** [limit, period = ...]: a truth value counts as a number. *)
Definition part_number (p : part_value) : option Z :=
  match p with PartInt n => Some n | PartBool b => Some (if b then 1 else 0) | PartOther => None end.
Definition limit_pair (v : limit_value) : result exn (Z * Z) :=
  match v with
  | LimitSequence [a; b] =>
      match part_number a, part_number b with
      | Some l, Some p => Ok (l, p)
      | _, _ => Err (PyError TypeError)
      end
  | LimitSequence _ => Err (PyError ValueError)
  | LimitOther => Err (PyError TypeError)
  end.

Definition TOO_MANY (limit period : Z) : sentence :=
  Ngettext (lit "Too many requests. Limit %(limit)s per %(period)s second.")
    (lit "Too many requests. Limit %(limit)s per %(period)s seconds.") period
    [(lit "limit", str_of_Z limit); (lit "period", str_of_Z period)].

Section throttle.
Context {C : Type} `{LimiterCheck C}.
Context (cfg : ThrottleSettings) (trusted_proxies : list pystr).
(** Whether the error page can be drawn. *)
Context (page_renders : Request → bool).
Abbreviation W := (M (Web C) failure).

Definition client_id (r : Request) (g : G) : pystr :=
  match g_current_user g with
  | Some u => lit "user:" ++ cu_id u
  | None => get_client_ip trusted_proxies r
  end.

Definition throttle_key (r : Request) (g : G) : pystr :=
  client_id r g ++ COLON :: default (lit "None") (rq_endpoint r).

Definition is_exempt (r : Request) : bool :=
  startswith STATIC_PREFIX (rq_path r) ||
  match rq_endpoint r with Some e => bool_decide (e ∈ EXEMPT_ENDPOINTS) | None => false end.

Definition auth_is_waved_through (r : Request) : bool :=
  rate_limit_auth_disabled cfg &&
  match rq_endpoint r with Some e => startswith (lit "auth.") e | None => false end.

Definition limit_for (r : Request) : result exn (Z * Z) :=
  match rq_endpoint r ≫= λ e, rate_limits cfg !! e with
  | Some v => limit_pair v
  | None => Ok (default_limit cfg, default_period cfg)
  end.

Definition too_many (r : Request) (limit period remaining : Z) : W Response :=
  now ← in_world now_utc;
  let envelope := ErrorBody (MkErrorResponse (lit "RATE_LIMIT_EXCEEDED") (TOO_MANY limit period) None now)
                    (Some period) in
  let answer := if wants_html r && page_renders r
                then error_page (lit "RATE_LIMIT_EXCEEDED") (TOO_MANY limit period) 429
                else MkResponse 429 [] [] [] envelope in
  mret (set_header "Retry-After" (str_of_Z period)
         (set_header "X-RateLimit-Remaining" (str_of_Z remaining)
           (set_header "X-RateLimit-Limit" (str_of_Z limit) answer))).

Definition check_rate_limit (r : Request) : W (option Response) :=
  if is_exempt r then mret None
  else
    g ← get_g;
    if auth_is_waved_through r then mret None
    else
      l ← attempt (limit_for r);
      let '(limit, period) := (l : Z * Z) in
      now ← in_world now_utc;
      decision ← in_world (with_cache (limiter_check now (throttle_key r g) limit period));
      if allowed decision then modify_g (set_rate_limit (limit, remaining decision));; mret None
      else answer ← too_many r limit period (remaining decision); mret (Some answer).

Definition add_rate_limit_headers (response : Response) : W Response :=
  if status_code response =? 429 then mret response
  else
    g ← get_g;
    match g_rate_limit g with
    | None => mret response
    | Some (limit, remains) =>
        mret (set_header "X-RateLimit-Remaining" (str_of_Z remains)
                (set_header "X-RateLimit-Limit" (str_of_Z limit) response))
    end.
End throttle.
