(* ===== verification/WebErrors.v ===== *)
(** * Errors as the client sees them

    [web/middleware/error_handler.py]: the status of a code, the sentence that
    may be shown, and the handler an exception reaches;
    [web/middleware/cache_control.py] and
    [web/middleware/security_headers.py]: what is added to every answer. *)

From S2P Require Import Prelude PyStr Exceptions Entities Database Auth WebRequest WebAuth Csrf.

(** ** Statuses *)

Definition STATUS_BY_CODE : list (pystr * Z) :=
  prod_map lit id <$>
  [("UNAUTHENTICATED", 401); ("FORBIDDEN", 403); ("USER_NOT_FOUND", 404); ("ROLE_NOT_FOUND", 404);
   ("JOURNAL_NOT_FOUND", 404); ("INVALID_CREDENTIALS", 401); ("REFRESH_TOKEN_REPLAYED", 401);
   ("ACCOUNT_INACTIVE", 403); ("VALIDATION_ERROR", 400); ("ROLE_NOT_ASSIGNABLE", 400);
   ("LINK_NOT_FOUND", 404); ("LINK_EXPIRED", 410); ("GUEST_LINK_LIMIT", 429);
   ("CODE_GENERATION_FAILED", 500); ("LINK_CONFLICT", 500); ("LINK_CODE_TAKEN", 409);
   ("CONFIGURATION_ERROR", 500); ("REGISTRATION_UNAVAILABLE", 503); ("MAIL_NOT_HANDED_OFF", 503);
   ("ROLE_ALREADY_EXISTS", 409); ("EMAIL_ALREADY_REGISTERED", 409); ("ROLE_IS_SYSTEM", 400);
   ("PERMISSIONS_NOT_FOUND", 400)]%string.

Definition status_of (code : pystr) : option Z :=
  snd <$> first (filter (λ e, e.1 = code) STATUS_BY_CODE).
Definition status_for (code : pystr) : Z := default 500 (status_of code).

Definition CODES_WORDED_FOR_THE_CLIENT : list pystr :=
  lit <$> ["REGISTRATION_UNAVAILABLE"; "MAIL_NOT_HANDED_OFF"]%string.

Definition gettext (text : string) : sentence := Gettext (lit text) [].

(** [error.code] of a domain error; the interpreter's own never get here. *)
Definition code_of (e : exn) : pystr := default [] (exn_code e).

Definition client_message (e : exn) : sentence :=
  if (500 <=? status_for (code_of e)) && bool_decide (code_of e ∉ CODES_WORDED_FOR_THE_CLIENT)
  then gettext "An internal error occurred"
  else TranslateError e.

(** ** Names of HTTP errors *)

Definition ascii_upper (c : Z) : Z := if is_lower c then c - 32 else c.

(** [text.split()]. *)
Fixpoint split_words (word : pystr) (s : pystr) : list pystr :=
  match s with
  | [] => match word with [] => [] | _ => [word] end
  | c :: s => if is_space c then match word with [] => split_words [] s | _ => word :: split_words [] s end
              else split_words (word ++ [c]) s
  end.
Definition http_error_code (name : pystr) : pystr :=
  join [UNDERSCORE] (split_words [] (ascii_upper <$> name)).

Definition HTTP_SENTENCES : list (Z * string) :=
  [(400, "The request could not be understood"); (403, "You do not have access to this");
   (409, "That conflicts with something already stored"); (413, "What was sent is too large");
   (415, "The service expects a JSON body"); (503, "The service is unavailable right now")]%string.

Definition sentence_for (code : Z) (description : pystr) : sentence :=
  match first (filter (λ e, e.1 = code) HTTP_SENTENCES) with
  | Some (_, text) => gettext text
  | None => Plain description
  end.

(** ** The handlers *)

Section handlers.
Context {C : Type}.
Context (trusted_proxies : list pystr).
Abbreviation W := (M (Web C) failure).

(** The page, or the envelope. *)
Definition page_or_envelope (r : Request) (code : pystr) (on_page in_envelope : sentence) (status : Z)
    : W Response :=
  if wants_html r then mret (error_page code on_page status)
  else error_response code in_envelope status.

Definition handle_not_found (r : Request) : W Response :=
  page_or_envelope r (lit "NOT_FOUND") (gettext "Page not found") (gettext "Resource not found") 404.

Definition handle_method_not_allowed (r : Request) (valid_methods : list pystr) : W Response :=
  answer ← page_or_envelope r (lit "METHOD_NOT_ALLOWED") (gettext "Method not allowed")
             (Gettext (lit "Method %(method)s not allowed") [(lit "method", rq_method r)]) 405;
  mret (match sorted valid_methods with
        | [] => answer
        | methods => set_header "Allow" (join (lit ", ") methods) answer
        end).

Definition handle_bad_request (r : Request) : W Response :=
  page_or_envelope r (lit "BAD_REQUEST") (gettext "Bad request") (gettext "Malformed request body") 400.

Definition respond_http_exception (r : Request) (code : Z) (name description : pystr) : W Response :=
  let message := sentence_for code description in
  page_or_envelope r (http_error_code name) message message code.

Definition envelope_with (code : pystr) (message : sentence) (details : option (list ErrorDetail))
    (status : Z) : W Response :=
  now ← in_world now_utc;
  mret (MkResponse status [] [] [] (ErrorBody (MkErrorResponse code message details now) None)).

Definition handle_pydantic_validation (errors : list (pystr * pystr * pystr)) : W Response :=
  envelope_with (lit "VALIDATION_ERROR") (gettext "Request validation failed")
    (Some ((λ '(place, message, type), MkErrorDetail (Some place) (Plain message) (Some type))
             <$> errors)) 400.

Definition handle_domain_validation (e : exn) : W Response :=
  let message := TranslateError e in
  envelope_with (code_of e) message
    ((λ f, [MkErrorDetail (Some f) message None]) <$> truthy (exn_field e))
    (default 400 (status_of (code_of e))).

Definition handle_link_not_found (r : Request) (e : exn) : W Response :=
  page_or_envelope r (code_of e) (gettext "Link not found") (TranslateError e) 404.

Definition retry_after_seconds (e : exn) : option Z :=
  match e with
  | GuestLinkLimitExceededError _ retry => match retry with Some 0 => None | o => o end
  | _ => None
  end.

(** The refusal of a permission is recorded, in the caller's context. *)
Definition record_refusal (e : exn) : W unit :=
  match e with
  | PermissionDeniedError required exceeded => in_world (audit (PermissionDenied required exceeded))
  | _ => mret tt
  end.

Definition handle_domain_error (r : Request) (e : exn) : W Response :=
  let status := status_for (code_of e) in
  record_refusal e;;
  let message := client_message e in
  if wants_html r then mret (error_page (code_of e) message status)
  else
    answer ← error_response (code_of e) message status;
    mret (match retry_after_seconds e with
          | Some s => set_header "Retry-After" (str_of_Z s) answer
          | None => answer
          end).

Definition handle_generic_error (r : Request) : W Response :=
  page_or_envelope r (lit "INTERNAL_SERVER_ERROR") (gettext "Internal server error")
    (gettext "An internal error occurred") 500.

(** Which handler an exception reaches: by the status of an HTTP error, then
    by the nearest class a handler is registered for. *)
Definition handle_error (r : Request) (f : failure) : W Response :=
  match f with
  | HTTPException code name description =>
      if code =? 404 then handle_not_found r
      else if code =? 400 then handle_bad_request r
      else respond_http_exception r code name description
  | MethodNotAllowed methods => handle_method_not_allowed r methods
  | PydanticValidationError errors => handle_pydantic_validation errors
  | Raised e =>
      if negb (is_domain_error e) then handle_generic_error r
      else if is_validation_error e then handle_domain_validation e
      else match e with
           | LinkNotFoundError _ => handle_link_not_found r e
           | e => handle_domain_error r e
           end
  end.
End handlers.

(** ** [PrivateCacheMiddleware] *)

Section answers.
Context `{CaseFolding}.

Definition speaks (kind : string) (r : Response) : bool :=
  startswith (lit kind) (lower (content_type r)).

Definition mark_private (r : Request) (g : G) (response : Response) : Response :=
  let drawn_a_page := (200 <=? status_code response) && (status_code response <? 300) &&
                      speaks "text/html" response in
  let response := if drawn_a_page || speaks "application/json" response
                  then vary_add "Accept-Language" (vary_add "Cookie" response) else response in
  let response :=
    if g_deletion_token_was_read g then
      let response := vary_add "X-Deletion-Token" response in
      if g_deletion_token_matched g then set_header "Cache-Control" (lit "no-store") response
      else response
    else response in
  match g_current_user g with
  | None => response
  | Some _ => if bool_decide (rq_endpoint r = Some (lit "static")) then response
              else set_header "Cache-Control" (lit "no-store") response
  end.

(** ** [SecurityHeadersMiddleware] *)

Definition HEADERS : list (string * string) :=
  [("X-Content-Type-Options", "nosniff"); ("X-Frame-Options", "DENY");
   ("Referrer-Policy", "same-origin");
   ("Permissions-Policy", "camera=(), microphone=(), geolocation=()")]%string.

Definition POLICY (nonce : option pystr) : pystr :=
  lit "default-src 'self'; script-src 'self'" ++
  match nonce with Some n => lit " 'nonce-" ++ n ++ lit "'" | None => [] end ++
  lit "; style-src 'self' 'unsafe-inline'; img-src 'self' data:; font-src 'self'; connect-src 'self'; form-action 'self'; frame-ancestors 'none'; base-uri 'none'; object-src 'none'".

Definition add_headers (use_https : bool) (hsts_max_age : Z) (g : G) (response : Response) : Response :=
  let response := foldl (λ a h, setdefault_header h.1 (lit h.2) a) response HEADERS in
  let response := if use_https && negb (hsts_max_age =? 0)
                  then setdefault_header "Strict-Transport-Security"
                         (lit "max-age=" ++ str_of_Z hsts_max_age) response
                  else response in
  setdefault_header "Content-Security-Policy" (POLICY (truthy (g_csp_nonce g))) response.
End answers.

(** [offer_nonce]: one nonce per request, drawn when the first template asks. *)
Definition offer_nonce {C} `{SecretTokens} : M (Web C) failure pystr :=
  g ← get_g;
  match g_csp_nonce g with
  | Some n => mret n
  | None =>
      k ← in_world draw;
      let n := token_urlsafe 16 k in
      modify_g (set_csp_nonce n);; mret n
  end.
