(* ===== verification/WebApp.v ===== *)
(** * A request from the first hook to the last

    [web/app_factory.py] ([create_app]): the hooks before a request in the
    order they are registered, the view, the error handler, and the hooks
    after it in the reverse order; [web/middleware/request_logging.py] as far
    as it names the request.

    [full_dispatch_request] of Flask is the documented protocol: the first
    hook that answers ends the matter, an exception of a hook or of the view
    goes to the handler of its class, and every answer passes the hooks after
    the request. *)

From S2P Require Import Prelude PyStr Exceptions ValueObjects Entities UrlParse Database UserRepo Sessions Auth RateLimit WebRequest WebAuth Csrf WebThrottle WebErrors.

Record WebSettings := MkWebSettings {
  ws_trusted_proxies : list pystr;
  ws_allowed_hosts : list pystr;
  ws_csrf : CsrfSettings;
  ws_throttle : ThrottleSettings;
  ws_use_https : bool;
  ws_hsts_max_age : Z;
  ws_documented : gmap pystr (gmap pystr (list OperationParameter));
  ws_rules : list Rule;
}.

Section app.
Context {C : Type} `{TokenCodec} `{CaseFolding} `{Nfkc} `{DecimalDigits} `{SecretTokens}.
Context `{UuidSupply} `{LimiterCheck C}.
Context (cfg : WebSettings) (page_renders : Request → bool).
Abbreviation W := (M (Web C) failure).

(** [RequestLoggingMiddleware.before_request]: the request gets a name. *)
Definition name_request (r : Request) : W (option Response) :=
  if startswith STATIC_PREFIX (rq_path r) then mret None
  else
    i ← in_world fresh_uuid;
    modify_g (set_request_id (take 10 i));;
    mret None.

Definition before_request (r : Request) : list (W (option Response)) :=
  [name_request r;
   check_host (ws_allowed_hosts cfg) r;
   load_current_user r;
   check_rate_limit (ws_throttle cfg) (ws_trusted_proxies cfg) page_renders r;
   enforce_csrf (ws_csrf cfg) r;
   refuse_undeclared_query_parameters (ws_documented cfg) (ws_rules cfg) r].

(** [preprocess_request]. *)
Fixpoint preprocess (hooks : list (W (option Response))) : W (option Response) :=
  match hooks with
  | [] => mret None
  | hook :: hooks =>
      answer ← hook;
      match answer with Some _ => mret answer | None => preprocess hooks end
  end.

Definition dispatch (r : Request) (view : W Response) : W Response :=
  try_except
    (answer ← preprocess (before_request r);
     match answer with Some response => mret response | None => view end)
    (handle_error r).

(** [process_response]: the hooks after the request, the last one first. *)
Definition process_response (r : Request) (response : Response) : W Response :=
  g ← get_g;
  response ← issue_csrf_cookie (ws_csrf cfg) r (mark_private r g response);
  response ← response_hook add_rate_limit_headers response;
  mret (add_headers (ws_use_https cfg) (ws_hsts_max_age cfg) g response).

Definition handle_request (r : Request) (view : W Response) : W Response :=
  response ← dispatch r view;
  process_response r response.

(** Every request starts with a [g] of its own. *)
Definition serve (r : Request) (view : W Response) : World C → result failure Response * Web C :=
  λ w, handle_request r view (MkWeb empty_g w).
End app.
