(* ===== verification/AuthViews.v ===== *)
(** * The views of [/api/v1/auth]

    [web/controllers/auth_controller.py] with [web/request_body.py] and the
    request schemas of [web/schemas/auth_requests.py]: what a body must hold,
    which use case a view calls, and the cookies it sets.

    The words pydantic has for a text it does not take are a parameter, class
    [PydanticText]. *)

From S2P Require Import Prelude PyStr Json Exceptions ValueObjects Entities Policies Database UserRepo Sessions Auth RateLimit UrlParse WebRequest WebAuth Csrf WebErrors.

(** ** [request_body.py] *)

Section bodies.
Context {C : Type}.
Abbreviation W := (M (Web C) failure).

Definition UNSUPPORTED_MEDIA_TYPE : failure :=
  HTTPException 415 (lit "Unsupported Media Type")
    (lit "Did not attempt to load JSON data because the request Content-Type was not 'application/json'.").

Definition decoded_body (r : Request) : W json :=
  match rq_body r with
  | NotJson => raise UNSUPPORTED_MEDIA_TYPE
  | NoData | Malformed => raise BAD_REQUEST
  | TooDeep => raise (Raised (invalid "body" "Request body is nested too deeply"))
  | Decoded j => mret j
  end.

Definition json_object (r : Request) : W fields_t :=
  data ← decoded_body r;
  match data with
  | JNull => mret []
  | JObject fields => mret fields
  | _ => raise (Raised (invalid "body" "Request body must be a JSON object"))
  end.

Definition optional_json_object (r : Request) : W fields_t :=
  match rq_body r with NotJson | NoData => mret [] | _ => json_object r end.
End bodies.

(** ** Schemas of optional texts *)

(** What pydantic says of a text it does not take: message and type. *)
Class PydanticText := text_fault : pystr → option (pystr * pystr).

Section schemas.
Context `{PydanticText}.

Definition NOT_A_STRING : pystr * pystr := (lit "Input should be a valid string", lit "string_type").
Definition EXTRA : pystr * pystr := (lit "Extra inputs are not permitted", lit "extra_forbidden").

(** A field [Optional[str] = None]: its value, or what is wrong with it. *)
Definition optional_text (name : pystr) (data : fields_t) : option pystr + (pystr * pystr * pystr) :=
  match json_get name data with
  | None | Some JNull => inl None
  | Some (JString s) => match text_fault s with None => inl (Some s) | Some f => inr (name, f.1, f.2) end
  | Some _ => inr (name, NOT_A_STRING.1, NOT_A_STRING.2)
  end.

Definition faults_of (values : list (option pystr + (pystr * pystr * pystr))) : list (pystr * pystr * pystr) :=
  omap (λ v, match v with inr f => Some f | inl _ => None end) values.

(** Keys of the dictionary the schema has no field for, in their order. *)
Definition extra_keys (names : list pystr) (data : fields_t) : list pystr :=
  filter (λ k, k ∉ names) (reverse (remove_dups (reverse data.*1))).

(** A model with these fields; [strict] models forbid others. *)
Definition model (strict : bool) (names : list string) (data : fields_t)
    : result failure (list (option pystr)) :=
  let names := lit <$> names in
  let values := (λ n, optional_text n data) <$> names in
  let extras := if strict then (λ k, (k, EXTRA.1, EXTRA.2)) <$> extra_keys names data else [] in
  match faults_of values ++ extras with
  | [] => Ok (omap (λ v, match v with inl x => Some x | inr _ => None end) values)
  | faults => Err (PydanticValidationError faults)
  end.

Definition CredentialsRequest := model true ["email"; "password"].
Definition EmailRequest := model true ["email"].
Definition VerifyEmailRequest := model true ["token"].
Definition ResetPasswordRequest := model true ["token"; "new_password"].
Definition ChangePasswordRequest := model true ["current_password"; "new_password"].
(** The one body that may hold more than its schema has. *)
Definition RefreshTokenRequest := model false ["refresh_token"].

(** The value of a field, empty counting as none. *)
Definition field_at (n : nat) (values : list (option pystr)) : option pystr := truthy (mjoin (values !! n)).
End schemas.

Section views.
Context {C : Type} `{PydanticText} `{Bcrypt} `{SecretTokens} `{MailQueue C} `{RateLimiter C} `{TokenCodec}.
Context `{CaseFolding} `{UuidSupply} `{Nfkc} `{DecimalDigits}.
Context (cfg : AuthSettings) (jwt : JwtSettings) (csrf : CsrfSettings) (trusted_proxies : list pystr).
(** [JWT_ACCESS_TOKEN_EXPIRE_MINUTES] and [JWT_REFRESH_TOKEN_EXPIRE_DAYS]. *)
Context (access_minutes refresh_days : Z).
Abbreviation W := (M (Web C) failure).

(** A body checked against a schema. *)
Definition validated (schema : fields_t → result failure (list (option pystr))) (data : fields_t)
    : W (list (option pystr)) := lift (schema data).

Definition context_of (r : Request) : W RequestContext :=
  g ← get_g; mret (create_request_context trusted_proxies r g).

Definition required (o : option pystr) (e : exn) : W pystr :=
  match o with Some v => mret v | None => raise (Raised e) end.

(** ** Answers *)

Definition message_body (text : string) : body := JsonBody (JObject [(lit "message", JString (lit text))]).
Definition token_fields (t : RefreshedTokens) : fields_t :=
  [(lit "access_token", JString (access_token t)); (lit "refresh_token", JString (refresh_token t))].
(** [UserResponse.from_dto]: four of the seven fields. *)
Definition user_json (u : UserResponse) : json :=
  JObject [(lit "id", JString (ur_id u)); (lit "email", JString (ur_email u));
           (lit "roles", JArray (JString <$> ur_roles u)); (lit "is_active", JBool (ur_is_active u))].
Definition plain (status : Z) (b : body) : Response := MkResponse status [] [] [] b.

Definition token_cookie (name : string) (value : pystr) (max_age : Z) : SetCookie :=
  {| ck_name := lit name; ck_value := value; ck_httponly := true; ck_secure := cookie_secure csrf;
     ck_samesite := lit "Strict"; ck_max_age := max_age; ck_path := lit "/" |}.

Definition set_token_cookies (t : RefreshedTokens) (a : Response) : Response :=
  set_cookie (token_cookie "refresh_token" (refresh_token t) (refresh_days * 24 * 3600))
    (set_cookie (token_cookie "access_token" (access_token t) (access_minutes * 60)) a).

Definition delete_cookie (name : string) (a : Response) : Response :=
  set_cookie {| ck_name := lit name; ck_value := []; ck_httponly := false; ck_secure := false;
                ck_samesite := []; ck_max_age := 0; ck_path := lit "/" |} a.
Definition clear_session (a : Response) : Response :=
  delete_cookie "csrf_token" (delete_cookie "access_token" (delete_cookie "refresh_token" a)).

(** ** Reading the request *)

Definition read_credentials (r : Request) : W (option pystr * option pystr) :=
  data ← json_object r;
  values ← validated CredentialsRequest data;
  mret (field_at 0 values, field_at 1 values).

Definition read_refresh_token (r : Request) : W (option pystr) :=
  match truthy (cookie "refresh_token" r) with
  | Some t => mret (Some t)
  | None =>
      data ← optional_json_object r;
      values ← validated RefreshTokenRequest data;
      mret (field_at 0 values)
  end.

Definition CREDENTIALS_REQUIRED : exn := ValidationError (lit "Email and password are required") None.

(** ** The views *)

(** A refusal of the use case is answered here with a status of its own, a
    validation error is left to the handler. *)
Definition answering {A} (status : Z) (m : W A) (k : A → W Response) : W Response :=
  done ← try_except (a ← m; mret (inl a))
           (λ f, match f with
                 | Raised e => if negb (is_domain_error e) || is_validation_error e then raise f
                               else mret (inr e)
                 | f => raise f
                 end);
  match done with
  | inl a => k a
  | inr e => error_response (code_of e) (client_message e) status
  end.

Definition login_view (r : Request) : W Response :=
  credentials ← read_credentials r;
  match (credentials : option pystr * option pystr) with
  | (Some email, Some password) =>
      context ← context_of r;
      answering 401 (in_world (login cfg jwt email password context)) (λ result,
        let a := set_token_cookies (lr_tokens result)
                   (plain 200 (JsonBody (JObject (token_fields (lr_tokens result) ++
                                                  [(lit "user", user_json (lr_user result))])))) in
        token ← in_world (build_csrf_token csrf (ur_id (lr_user result)));
        mret (set_csrf_cookie csrf token a))
  | _ => raise (Raised CREDENTIALS_REQUIRED)
  end.

Definition register_view (r : Request) : W Response :=
  credentials ← read_credentials r;
  match (credentials : option pystr * option pystr) with
  | (Some email, Some password) =>
      context ← context_of r;
      answering 400 (in_world (register cfg email password context)) (λ _,
        mret (plain 202 (message_body "If that address can be registered, a link has been sent to it.")))
  | _ => raise (Raised CREDENTIALS_REQUIRED)
  end.

Definition verify_email_view (r : Request) : W Response :=
  token ← match truthy (lookup_field (lit "token") (rq_args r)) with
          | Some t => mret (Some t)
          | None =>
              if bool_decide (rq_method r = lit "POST") then
                data ← json_object r; values ← validated VerifyEmailRequest data;
                mret (field_at 0 values)
              else mret None
          end;
  token ← required token BAD_CONFIRMATION;
  context ← context_of r;
  in_world (verify_email token context);;
  mret (plain 200 (message_body "Email confirmed. You can sign in now.")).

Definition EMAIL_REQUIRED : exn := invalid "email" "Email is required".
Definition read_email (r : Request) : W pystr :=
  data ← json_object r; values ← validated EmailRequest data;
  required (field_at 0 values) EMAIL_REQUIRED.

Definition resend_verification_view (r : Request) : W Response :=
  email ← read_email r;
  context ← context_of r;
  in_world (resend_verification cfg email context);;
  mret (plain 202 (message_body "If that address needs confirming, a link has been sent to it.")).

Definition forgot_password_view (r : Request) : W Response :=
  email ← read_email r;
  context ← context_of r;
  in_world (request_password_reset cfg email context);;
  mret (plain 202 (message_body
    "If that address has an account, a link to reset its password has been sent to it.")).

Definition NEW_PASSWORD_REQUIRED : exn := invalid "new_password" "New password is required".

Definition reset_password_view (r : Request) : W Response :=
  data ← json_object r; values ← validated ResetPasswordRequest data;
  token ← required (field_at 0 values) BAD_RESET;
  new_password ← required (field_at 1 values) NEW_PASSWORD_REQUIRED;
  context ← context_of r;
  in_world (reset_password token new_password context);;
  mret (plain 200 (message_body "Password changed. You can sign in now.")).

Definition change_password_view (r : Request) : W Response :=
  login_required r (
    data ← json_object r; values ← validated ChangePasswordRequest data;
    current_password ← required (field_at 0 values)
                         (invalid "current_password" "Current password is required");
    new_password ← required (field_at 1 values) NEW_PASSWORD_REQUIRED;
    context ← context_of r;
    g ← get_g;
    tokens ← in_world (change_password jwt (default [] (cu_id <$> g_current_user g))
                         current_password new_password context);
    mret (set_token_cookies tokens (plain 200 (JsonBody (JObject (token_fields tokens)))))).

Definition logout_view (r : Request) : W Response :=
  token ← read_refresh_token r;
  context ← context_of r;
  g ← get_g;
  in_world (sign_out context token (g_auth_session_id g));;
  mret (clear_session (plain 200 (message_body "Logged out"))).

Definition refresh_token_view (r : Request) : W Response :=
  token ← read_refresh_token r;
  match token with
  | None => error_response (lit "UNAUTHENTICATED") (gettext "No refresh token") 401
  | Some t =>
      context ← context_of r;
      tokens ← in_world (refresh_session jwt t (Some context));
      match tokens with
      | None =>
          a ← error_response (lit "UNAUTHENTICATED") (gettext "Invalid or expired refresh token") 401;
          mret (clear_session a)
      | Some tokens =>
          mret (set_token_cookies tokens (plain 200 (JsonBody (JObject (token_fields tokens)))))
      end
  end.
End views.
