(* ===== verification/LinkViews.v ===== *)
(** * The views of links

    [web/controllers/api_controller.py]: making a short link or a batch of
    them, looking one up, listing one's own, deleting; the redirect of
    [web/app_factory.py]; with the schemas of [web/schemas/requests.py],
    [web/schemas/link.py] and [web/schemas/batch.py].

    What pydantic makes of a JSON value for an integer, and the sentence of a
    refused item in the reader's language, are parameters.

    Then the part of the same controller that reads statistics: a link in
    detail, the service, the caller's own links, and the charts of visits,
    with the schemas of [web/schemas/link.py], [stats.py] and
    [visit_stats.py].  [PydanticTime] is the text pydantic has for a time in
    its JSON mode, which is not [isoformat]. *)

From S2P Require Import Prelude PyStr Json Exceptions ValueObjects Entities Policies CodeGen Cache Database LinkRepo RedisCache UserRepo Visitor Links Stats Visits RateLimit UrlParse Batch Auth WebRequest WebAuth Csrf WebErrors AuthViews.

(** ** Request schemas *)

(** [Optional[int]] of a JSON value: the integer, or message and type. *)
Class PydanticInt := int_of_json : json → Z + (pystr * pystr).

Definition MISSING : pystr * pystr := (lit "Field required", lit "missing").
Definition NOT_NEGATIVE : pystr * pystr :=
  (lit "Input should be greater than or equal to 0", lit "greater_than_equal").
Definition NOT_A_LIST : pystr * pystr := (lit "Input should be a valid list", lit "list_type").

Section schemas.
Context `{PydanticText} `{PydanticInt}.
Abbreviation fault := (pystr * pystr * pystr)%type.

(** A text, or what is wrong with it at that place. *)
Definition text_at (place : pystr) (j : json) : pystr + fault :=
  match j with
  | JString s => match text_fault s with None => inl s | Some f => inr (place, f.1, f.2) end
  | _ => inr (place, NOT_A_STRING.1, NOT_A_STRING.2)
  end.

Definition required_text (name : pystr) (data : fields_t) : pystr + fault :=
  match json_get name data with
  | None => inr (name, MISSING.1, MISSING.2)
  | Some j => text_at name j
  end.

(** [ttl_seconds: Optional[int] = Field(None, ge=0)]. *)
Definition optional_count (name : pystr) (data : fields_t) : option Z + fault :=
  match json_get name data with
  | None | Some JNull => inl None
  | Some j =>
      match int_of_json j with
      | inl n => if n <? 0 then inr (name, NOT_NEGATIVE.1, NOT_NEGATIVE.2) else inl (Some n)
      | inr f => inr (name, f.1, f.2)
      end
  end.

Definition fault_list {A} (x : A + fault) : list fault := match x with inr f => [f] | inl _ => [] end.
Definition extras (names : list pystr) (data : fields_t) : list fault :=
  (λ k, (k, EXTRA.1, EXTRA.2)) <$> extra_keys names data.

Definition CreateShortLinkRequest (data : fields_t) : result failure (pystr * option Z) :=
  let url := required_text (lit "url") data in
  let ttl := optional_count (lit "ttl_seconds") data in
  match url, ttl, extras [lit "url"; lit "ttl_seconds"] data with
  | inl u, inl t, [] => Ok (u, t)
  | _, _, more => Err (PydanticValidationError (fault_list url ++ fault_list ttl ++ more))
  end.

Definition MAX_BATCH_ITEMS : Z := 100.
Definition url_items (items : list json) : list (pystr + fault) :=
  imap (λ i, text_at (lit "urls." ++ str_of_Z (Z.of_nat i))) items.

(** [urls: List[str] = Field(..., min_length=1, max_length=MAX_BATCH_ITEMS)]. *)
Definition urls_field (data : fields_t) : list pystr + list fault :=
  match json_get (lit "urls") data with
  | None => inr [(lit "urls", MISSING.1, MISSING.2)]
  | Some (JArray items) =>
      if len items <? 1 then
        inr [(lit "urls", lit "List should have at least 1 item after validation, not 0", lit "too_short")]
      else if MAX_BATCH_ITEMS <? len items then
        inr [(lit "urls", lit "List should have at most 100 items after validation, not " ++ str_of_Z (len items),
              lit "too_long")]
      else
        match concat (fault_list <$> url_items items) with
        | [] => inl (omap (λ x, match x with inl s => Some s | inr _ => None end) (url_items items))
        | faults => inr faults
        end
  | Some _ => inr [(lit "urls", NOT_A_LIST.1, NOT_A_LIST.2)]
  end.

Definition BatchCreateLinkRequest (data : fields_t) : result failure (list pystr) :=
  match urls_field data, extras [lit "urls"] data with
  | inl urls, [] => Ok urls
  | inl _, more => Err (PydanticValidationError more)
  | inr faults, more => Err (PydanticValidationError (faults ++ more))
  end.
End schemas.

(** ** Answers *)

(** [schemas/link.py]: what the API shows of a link. *)
Record LinkBody := MkLinkBody {
  lb_short_code : pystr;
  lb_short_url : pystr;
  lb_original_url : pystr;
  lb_clicks : option Z;
  lb_created_at : Z;
  lb_last_accessed : option Z;
  lb_expires_at : option Z;
  lb_is_new : bool;
  lb_from_cache : bool;
  lb_owner_id : option pystr;
  lb_deletion_token : option pystr;
}.

Definition from_dto (d : ShortLinkResponse) : LinkBody :=
  {| lb_short_code := slr_short_code d; lb_short_url := slr_short_url d;
     lb_original_url := slr_original_url d; lb_clicks := Some (slr_clicks d);
     lb_created_at := slr_created_at d; lb_last_accessed := slr_last_accessed d;
     lb_expires_at := slr_expires_at d; lb_is_new := slr_is_new d;
     lb_from_cache := slr_from_cache d; lb_owner_id := slr_owner_id d; lb_deletion_token := None |}.

Definition with_token (t : option pystr) (b : LinkBody) : LinkBody :=
  MkLinkBody (lb_short_code b) (lb_short_url b) (lb_original_url b) (lb_clicks b) (lb_created_at b)
    (lb_last_accessed b) (lb_expires_at b) (lb_is_new b) (lb_from_cache b) (lb_owner_id b) t.

(** Without its owner and its traffic. *)
Definition withheld (b : LinkBody) : LinkBody :=
  MkLinkBody (lb_short_code b) (lb_short_url b) (lb_original_url b) None (lb_created_at b)
    None (lb_expires_at b) (lb_is_new b) (lb_from_cache b) None (lb_deletion_token b).

Definition json_option {A} (f : A → json) (o : option A) : json :=
  match o with Some a => f a | None => JNull end.
Definition json_number (n : Z) : json := JNumber (str_of_Z n).

Section answers.
Context `{IsoFormat}.

Definition json_time (t : Z) : json := JString (isoformat t).

Definition link_json (b : LinkBody) : json :=
  JObject [(lit "short_code", JString (lb_short_code b)); (lit "short_url", JString (lb_short_url b));
           (lit "original_url", JString (lb_original_url b));
           (lit "clicks", json_option json_number (lb_clicks b));
           (lit "created_at", json_time (lb_created_at b));
           (lit "last_accessed", json_option json_time (lb_last_accessed b));
           (lit "expires_at", json_option json_time (lb_expires_at b));
           (lit "is_new", JBool (lb_is_new b)); (lit "from_cache", JBool (lb_from_cache b));
           (lit "owner_id", json_option JString (lb_owner_id b));
           (lit "deletion_token", json_option JString (lb_deletion_token b))].

(** An item of a batch, with its deletion token. *)
Definition item_json (refusal_text : Refusal → pystr) (i : BatchItemResponse) (token : option pystr) : json :=
  JObject [(lit "success", JBool (bi_success i)); (lit "url", JString (bi_url i));
           (lit "short_code", json_option JString (bi_short_code i));
           (lit "short_url", json_option JString (bi_short_url i));
           (lit "error", json_option JString (rf_code <$> bi_error i));
           (lit "message", json_option JString (refusal_text <$> bi_error i));
           (lit "retry_after_seconds", json_option json_number (bi_error i ≫= rf_retry_after_seconds));
           (lit "is_new", JBool (bi_is_new i)); (lit "from_cache", JBool (bi_from_cache i));
           (lit "duplicate_of", json_option JString (bi_duplicate_of i));
           (lit "expires_at", json_option json_time (bi_expires_at i));
           (lit "deletion_token", json_option JString token)].
End answers.

(** ** The views *)

Section views.
Context {C Stats : Type} `{ServiceCache C Stats} `{UrlRules} `{CodeGenerator} `{HashCalculator}.
Context `{CaseFolding} `{WordChars} `{UuidSupply} `{TaskQueue C}.
Context `{PydanticText} `{PydanticInt} `{Serializer} `{IsoFormat} `{DecimalDigits}.
Context (cfg : LinkSettings) (bcfg : BatchSettings) (secret_key : pystr) (trusted_proxies : list pystr).
Context (refusal_text : Refusal → pystr).
Abbreviation W := (M (Web C) failure).

Abbreviation context r := (context_of (C := C) trusted_proxies r).

(** A new link without an owner goes to its maker with a token. *)
Definition token_for (d : ShortLinkResponse) : option pystr :=
  match slr_link_id d with
  | [] => None
  | i => if slr_is_new d && bool_decide (slr_owner_id d = None) then Some (issue secret_key i) else None
  end.

Definition create_short_link_view (r : Request) : W Response :=
  require_permission LINK_CREATE (
    data ← json_object r;
    validated ← lift (CreateShortLinkRequest data);
    ctx ← context r;
    result ← in_world (create_short_link cfg validated.1 ctx (default 0 validated.2) None);
    mret (plain (if slr_is_new result then 201 else 200)
            (JsonBody (link_json (with_token (token_for result) (from_dto result)))))).

Definition link_body (d : ShortLinkResponse) (made_it may_view : bool) : LinkBody :=
  if made_it || may_view then from_dto d else withheld (from_dto d).

(** The caller, asked only when the token did not answer. *)
Definition shown_link (d : ShortLinkResponse) (r : Request) : W LinkBody :=
  made_it ← made_this_link secret_key (Some (slr_link_id d)) r;
  may_view ← if (made_it : bool) then mret false else can_view_link_details (slr_owner_id d);
  mret (link_body d made_it may_view).

Definition get_link_info_view (short_code : pystr) (r : Request) : W Response :=
  result ← in_world (get_link_info cfg short_code);
  b ← shown_link result r;
  mret (plain 200 (JsonBody (link_json b))).

Definition json_text (j : option json) : option pystr :=
  match j with Some (JString s) => Some s | _ => None end.

Definition delete_link_view (short_code : pystr) (r : Request) : W Response :=
  ctx ← context r;
  authorized ← presented_link_id secret_key r;
  deleted ← in_world (delete_link short_code ctx true (json_text authorized));
  if (deleted : bool) then mret (plain 200 (message_body "Link deleted"))
  else raise (Raised (LinkNotFoundError (Some short_code))).

Definition get_my_links_view (r : Request) : W Response :=
  login_required r (require_permission LINK_VIEW_OWN (
    g ← get_g;
    let '(limit, offset) := window_from_query 50 r in
    found ← in_world (get_user_links cfg (default [] (cu_id <$> g_current_user g))
                        (Z.to_nat offset) (Z.to_nat limit));
    mret (plain 200 (JsonBody (JArray ((λ d, link_json (from_dto d)) <$> found)))))).

(** Tokens for the links an anonymous caller just made. *)
Definition item_token (g : G) (i : BatchItemResponse) : option pystr :=
  match g_current_user g, truthy (bi_link_id i) with
  | None, Some link_id => if bi_is_new i then Some (issue secret_key link_id) else None
  | _, _ => None
  end.

Definition batch_create_view (r : Request) : W Response :=
  require_permission LINK_CREATE (
    data ← json_object r;
    urls ← lift (BatchCreateLinkRequest data);
    ctx ← context r;
    result ← in_world (batch_create_links cfg bcfg urls ctx);
    g ← get_g;
    mret (plain 200 (JsonBody (JObject
      [(lit "results", JArray ((λ i, item_json refusal_text i (item_token g i)) <$> bc_items result));
       (lit "total", json_number (bc_total result));
       (lit "successful", json_number (bc_successful result));
       (lit "failed", json_number (bc_failed result))])))).

(** [redirect_to_original]. *)
Definition redirect_view (short_code : pystr) (r : Request) : W Response :=
  ctx ← context r;
  original_url ← in_world (redirect_link short_code ctx);
  mret (redirect_to original_url).
End views.

(** * The views that show figures *)

Class PydanticTime := json_datetime : Z → pystr.

(** ** Answers *)

(** [repr] of a double of so many hundredths, shorter than 16 digits. *)
Definition two_places (n : Z) : pystr :=
  let q := n / 100 in
  let r := n mod 100 in
  str_of_Z q ++ lit "." ++
  (if r mod 10 =? 0 then str_of_Z (r / 10) else if r <? 10 then lit "0" ++ str_of_Z r else str_of_Z r).
Definition json_average (n : Z) : json := JNumber (two_places n).

Section answers.
Context `{IsoFormat} `{PydanticTime}.

Definition extended_json (e : ExtendedLinkInfoResponse) : json :=
  JObject [(lit "short_code", JString (el_short_code e)); (lit "short_url", JString (el_short_url e));
           (lit "original_url", JString (el_original_url e)); (lit "clicks", json_number (el_clicks e));
           (lit "created_at", json_time (el_created_at e));
           (lit "last_accessed", json_option json_time (el_last_accessed e));
           (lit "is_popular", JBool (el_is_popular e)); (lit "is_recent", JBool (el_is_recent e));
           (lit "age_days", json_number (el_age_days e));
           (lit "clicks_per_day", json_average (el_clicks_per_day e));
           (lit "last_access_days_ago", json_option json_number (el_last_access_days_ago e));
           (lit "owner_id", json_option JString (el_owner_id e))].

Definition stats_item_json (i : StatsItemResponse) : json :=
  JObject [(lit "short_code", JString (si_short_code i)); (lit "short_url", JString (si_short_url i));
           (lit "original_url", JString (si_original_url i)); (lit "clicks", json_number (si_clicks i));
           (lit "created_at", json_time (si_created_at i))].

Definition service_stats_json (s : ServiceStatsResponse) (popular : list StatsItemResponse) : json :=
  JObject [(lit "total_urls", json_number (ss_total_urls s)); (lit "total_clicks", json_number (ss_total_clicks s));
           (lit "avg_clicks_per_url", json_average (ss_avg_clicks_per_url s));
           (lit "popular_links", JArray (stats_item_json <$> popular))].

Definition my_stats_json (u : UserActivityResponse) : json :=
  JObject [(lit "total_links", json_number (ua_total_links u)); (lit "total_clicks", json_number (ua_total_clicks u));
           (lit "avg_clicks_per_link", json_average (ua_avg_clicks_per_link u));
           (lit "recent_links", JArray ((λ d, link_json (from_dto d)) <$> ua_recent_links u))].

Definition bucket_json (b : VisitBucket) : json :=
  JObject [(lit "at", JString (json_datetime (vb_at b))); (lit "total", json_number (vb_total b));
           (lit "bots", json_number (vb_bots b))].
Definition breakdown_json (b : VisitBreakdown) : json :=
  JObject [(lit "label", JString (br_label b)); (lit "total", json_number (br_total b))].

Definition visit_stats_json (s : VisitSummary) (top_links : list VisitBreakdown) : json :=
  JObject [(lit "since", JString (json_datetime (vs_since s))); (lit "until", JString (json_datetime (vs_until s)));
           (lit "total", json_number (vs_total s)); (lit "bots", json_number (vs_bots s));
           (lit "buckets", JArray (bucket_json <$> vs_buckets s));
           (lit "devices", JArray (breakdown_json <$> vs_devices s));
           (lit "browsers", JArray (breakdown_json <$> vs_browsers s));
           (lit "top_links", JArray (breakdown_json <$> top_links))].

Definition daily_json (days : list VisitBucket) : json :=
  JObject [(lit "days", JArray (bucket_json <$> days))].
End answers.

(** ** The views *)

Section views.
Context {C : Type} `{ServiceCache C StatsDict} `{IsoFormat} `{PydanticTime} `{Serializer} `{DecimalDigits}.
Context (cfg : LinkSettings) (popular_threshold recent_days : Z) (secret_key : pystr).
Abbreviation W := (M (Web C) failure).

Definition get_extended_link_info_view (short_code : pystr) (r : Request) : W Response :=
  result ← in_world (get_extended_link_info cfg popular_threshold recent_days short_code);
  made_it ← made_this_link secret_key (Some (el_link_id result)) r;
  (if (made_it : bool) then mret tt else require_can_view_link_details (el_owner_id result));;
  mret (plain 200 (JsonBody (extended_json result))).

Definition may_see_links : W bool :=
  g ← get_g; g_is_allowed (g_domain_user g) STATS_VIEW_FULL.

Definition get_stats_view (r : Request) : W Response :=
  require_permission STATS_VIEW_BASIC (
    result ← in_world (get_service_stats cfg);
    full ← may_see_links;
    mret (plain 200 (JsonBody (service_stats_json result
                                 (if (full : bool) then ss_popular_links result else []))))).

Definition require_one (permission : pystr) : W unit :=
  g ← get_g;
  allowed ← g_is_allowed (g_domain_user g) permission;
  if (allowed : bool) then mret tt else raise (Raised (PermissionDeniedError [permission] [])).

Definition require_may_read_one_links_traffic (short_code : option pystr) : W (option ShortLinkResponse) :=
  match truthy short_code with
  | None => mret None
  | Some code =>
      link ← in_world (get_link_info cfg code);
      require_can_view_link_details (slr_owner_id link);;
      mret (Some link)
  end.

Definition SIGN_IN_FOR_YOURS : exn :=
  DomainError (lit "Sign in to see your own statistics") (lit "UNAUTHENTICATED").

(** Whose visits are asked for: of the caller, of one link, of the service. *)
Definition visits_owner (r : Request) (named : option ShortLinkResponse) : W (option pystr) :=
  if bool_decide (default (lit "service") (lookup_field (lit "scope") (rq_args r)) = lit "mine") then
    g ← get_g;
    match g_current_user g with
    | None => raise (Raised SIGN_IN_FOR_YOURS)
    | Some u => require_one LINK_VIEW_OWN;; mret (Some (cu_id u))
    end
  else
    match named with
    | None => require_one STATS_VIEW_BASIC;; mret None
    | Some _ => mret None
    end.

Definition get_visit_stats_view (r : Request) : W Response :=
  require_any_permission [LINK_VIEW_OWN; STATS_VIEW_BASIC] (
    let period := default (lit "7d") (lookup_field (lit "period") (rq_args r)) in
    named ← require_may_read_one_links_traffic (lookup_field (lit "code") (rq_args r));
    owner_id ← visits_owner r named;
    summary ← in_world (get_visit_stats period (slr_link_id <$> (named : option ShortLinkResponse)) owner_id);
    full ← (if bool_decide (owner_id = None) then may_see_links else mret true);
    mret (plain 200 (JsonBody (visit_stats_json summary
                                 (if (full : bool) then vs_top_links summary else []))))).

Definition get_daily_visits_view (r : Request) : W Response :=
  require_any_permission [LINK_VIEW_OWN; STATS_VIEW_BASIC] (
    days ← match lookup_field (lit "days") (rq_args r) with
           | None => mret 90
           | Some s => match py_int s with
                       | Some n => mret n
                       | None => raise (Raised (DomainError (lit "days must be a whole number")
                                                  (lit "VALIDATION_ERROR")))
                       end
           end;
    named ← require_may_read_one_links_traffic (lookup_field (lit "code") (rq_args r));
    owner_id ← visits_owner r named;
    buckets ← in_world (daily days (slr_link_id <$> (named : option ShortLinkResponse)) owner_id);
    mret (plain 200 (JsonBody (daily_json buckets)))).

Definition get_my_stats_view (r : Request) : W Response :=
  login_required r (require_permission LINK_VIEW_OWN (
    g ← get_g;
    stats ← in_world (get_user_activity_stats cfg (default [] (cu_id <$> g_current_user g)));
    mret (plain 200 (JsonBody (my_stats_json stats))))).
End views.
