(* ===== verification/AdminViews.v ===== *)
(** * The views of [/api/v1/admin]

    [web/controllers/admin_api_controller.py] with the schemas of
    [web/schemas/admin/], and the listings behind it
    ([application/use_cases/admin/users/list_user.py], [get_user.py],
    [admin/roles/list_roles.py], [get_role.py]).  The health report is in
    [Health].

    [PydanticBool] is what pydantic takes for a truth value. *)

From S2P Require Import Prelude PyStr Json Exceptions ValueObjects Entities Policies Cache Database LinkRepo UserRepo Sessions Auth Admin Links Stats RedisCache RateLimit UrlParse WebRequest WebAuth Csrf WebErrors AuthViews LinkViews.

(** ** Listings *)

(** Address order, code point by code point. *)
Definition by_email (a b : UserModel) : Prop := str_leP (um_email a) (um_email b).
#[global] Instance by_email_dec a b : Decision (by_email a b).
Proof. unfold by_email. apply _. Defined.

Section listings.
Context {C : Type} `{CaseFolding}.
Abbreviation P := (M (World C) exn).

(** [SQLAlchemyUserRepository.list_all]. *)
Definition list_all_users (limit offset : nat) (d : Database) : result exn (list User) :=
  mapM (orm_to_domain (roles d)) (take limit (drop offset (merge_sort by_email (users d)))).

Definition list_users (limit offset : nat) : P (list UserResponse) :=
  found ← with_uow (read (list_all_users limit offset));
  found ← lift found;
  mret (from_user <$> (found : list User)).

Definition get_user (uid : pystr) : P (option UserResponse) :=
  user ← with_uow (load (find_user_by_id uid)); mret (from_user <$> (user : option User)).

Definition list_roles : P (list Role) := with_uow (read roles).
Definition get_role (name : pystr) : P (option Role) := with_uow (read (get_role_by_name name)).
End listings.

(** ** Schemas *)

Class PydanticBool := bool_of_json : json → bool + (pystr * pystr).

Section schemas.
Context `{PydanticText} `{PydanticBool}.
Abbreviation fault := (pystr * pystr * pystr)%type.

Definition too_short (n : Z) : pystr * pystr :=
  (lit "String should have at least " ++ str_of_Z n ++ lit " characters", lit "string_too_short").
Definition too_long (n : Z) : pystr * pystr :=
  (lit "String should have at most " ++ str_of_Z n ++ lit " characters", lit "string_too_long").
Definition no_match (pattern : string) : pystr * pystr :=
  (lit "String should match pattern '" ++ lit pattern ++ lit "'", lit "string_pattern_mismatch").

(** A text that passes one more check. *)
Definition and_check (name : pystr) (bad : pystr → bool) (f : pystr * pystr) (x : pystr + fault) : pystr + fault :=
  match x with
  | inl s => if bad s then inr (name, f.1, f.2) else inl s
  | inr e => inr e
  end.

Definition text_items (name : pystr) (items : list json) : list (pystr + fault) :=
  imap (λ i, text_at (name ++ lit "." ++ str_of_Z (Z.of_nat i))) items.
Definition texts (name : pystr) (items : list json) : list pystr + list fault :=
  match concat (fault_list <$> text_items name items) with
  | [] => inl (omap (λ x, match x with inl s => Some s | inr _ => None end) (text_items name items))
  | faults => inr faults
  end.

(** [List[str] = Field(..., min_length=1)]. *)
Definition required_texts (name : pystr) (data : fields_t) : list pystr + list fault :=
  match json_get name data with
  | None => inr [(name, MISSING.1, MISSING.2)]
  | Some (JArray []) =>
      inr [(name, lit "List should have at least 1 item after validation, not 0", lit "too_short")]
  | Some (JArray items) => texts name items
  | Some _ => inr [(name, NOT_A_LIST.1, NOT_A_LIST.2)]
  end.

(** [Optional[List[str]] = None]. *)
Definition optional_texts (name : pystr) (data : fields_t) : option (list pystr) + list fault :=
  match json_get name data with
  | None | Some JNull => inl None
  | Some (JArray items) => match texts name items with inl l => inl (Some l) | inr f => inr f end
  | Some _ => inr [(name, NOT_A_LIST.1, NOT_A_LIST.2)]
  end.

Definition faults_in {A} (x : A + list fault) : list fault := match x with inr f => f | inl _ => [] end.

Definition create_email (data : fields_t) : pystr + fault :=
  and_check (lit "email") (λ s, negb (email_matches s))
    (no_match "^[^@\s\x1c-\x1f]+@[^@\s\x1c-\x1f]+\.[^@\s\x1c-\x1f]+$") (required_text (lit "email") data).
Definition create_password (data : fields_t) : pystr + fault :=
  and_check (lit "password") (λ s, len s <? MIN_PASSWORD_LENGTH) (too_short MIN_PASSWORD_LENGTH)
    (required_text (lit "password") data).
Definition create_is_active (data : fields_t) : bool + fault :=
  match json_get (lit "is_active") data with
  | None => inl true
  | Some j => match bool_of_json j with inl b => inl b | inr f => inr (lit "is_active", f.1, f.2) end
  end.

Definition CreateUserRequest (data : fields_t) : result failure (pystr * pystr * bool * option (list pystr)) :=
  let email := create_email data in
  let password := create_password data in
  let is_active := create_is_active data in
  let roles := optional_texts (lit "roles") data in
  match email, password, is_active, roles, extras (lit <$> ["email"; "password"; "is_active"; "roles"]%string) data with
  | inl e, inl p, inl a, inl r, [] => Ok (e, p, a, r)
  | _, _, _, _, more =>
      Err (PydanticValidationError
             (fault_list email ++ fault_list password ++ fault_list is_active ++ faults_in roles ++ more))
  end.

(** A body of one list. *)
Definition one_list (name : pystr) (data : fields_t) : result failure (list pystr) :=
  match required_texts name data, extras [name] data with
  | inl l, [] => Ok l
  | x, more => Err (PydanticValidationError (faults_in x ++ more))
  end.
Definition UpdateUserRolesRequest := one_list (lit "roles").
Definition UpdateRolePermissionsRequest := one_list (lit "permissions").

Definition role_name_field (data : fields_t) : pystr + fault :=
  and_check (lit "name") (λ s, negb (role_name_matches s)) (no_match "^[A-Za-z0-9_\-]+$")
    (and_check (lit "name") (λ s, ROLE_NAME_MAX_LENGTH <? len s) (too_long ROLE_NAME_MAX_LENGTH)
       (and_check (lit "name") (λ s, len s <? ROLE_NAME_MIN_LENGTH) (too_short ROLE_NAME_MIN_LENGTH)
          (required_text (lit "name") data))).
Definition role_description_field (data : fields_t) : option pystr + fault :=
  match json_get (lit "description") data with
  | None => inl (Some [])
  | Some JNull => inl None
  | Some j =>
      match and_check (lit "description") (λ s, ROLE_DESCRIPTION_MAX_LENGTH <? len s)
              (too_long ROLE_DESCRIPTION_MAX_LENGTH) (text_at (lit "description") j) with
      | inl s => inl (Some s)
      | inr f => inr f
      end
  end.

Definition CreateRoleRequest (data : fields_t) : result failure (pystr * option pystr * list pystr) :=
  let name := role_name_field data in
  let description := role_description_field data in
  let permissions := required_texts (lit "permissions") data in
  match name, description, permissions, extras (lit <$> ["name"; "description"; "permissions"]%string) data with
  | inl n, inl d, inl p, [] => Ok (n, d, p)
  | _, _, _, more =>
      Err (PydanticValidationError (fault_list name ++ fault_list description ++ faults_in permissions ++ more))
  end.
End schemas.

(** ** Answers *)

Section answers.
Context `{IsoFormat}.

Definition permission_json (p : Permission) : json :=
  JObject [(lit "id", JString (perm_id p)); (lit "name", JString (perm_name p));
           (lit "resource", JString (perm_resource p)); (lit "action", JString (perm_action p));
           (lit "description", json_option JString (perm_description p))].
Definition role_json (r : Role) : json :=
  JObject [(lit "id", JString (role_id r)); (lit "name", JString (role_name r));
           (lit "description", json_option JString (role_description r));
           (lit "is_system", JBool (role_is_system r));
           (lit "permissions", JArray (permission_json <$> role_permissions r))].
Definition account_json (u : UserResponse) : json :=
  JObject [(lit "id", JString (ur_id u)); (lit "email", JString (ur_email u));
           (lit "roles", JArray (JString <$> ur_roles u)); (lit "is_active", JBool (ur_is_active u));
           (lit "email_verified", JBool (ur_email_verified u));
           (lit "created_at", json_time (ur_created_at u));
           (lit "last_login", json_option json_time (ur_last_login u))].
End answers.

(** ** The views *)

Section views.
Context {C Stats : Type} `{ServiceCache C Stats} `{PydanticText} `{PydanticBool} `{Bcrypt} `{SecretTokens}.
Context `{MailQueue C} `{CaseFolding} `{UuidSupply} `{IsoFormat} `{DecimalDigits}.
Context (cfg : AuthSettings) (links : LinkSettings) (trusted_proxies : list pystr).
Abbreviation W := (M (Web C) failure).
Abbreviation context r := (context_of (C := C) trusted_proxies r).

Definition account_answer (status : Z) (u : UserResponse) : Response := plain status (JsonBody (account_json u)).
Definition role_answer (status : Z) (x : Role) : Response := plain status (JsonBody (role_json x)).

Definition create_user_view (r : Request) : W Response :=
  require_permission ADMIN_MANAGE_USERS (
    data ← json_object r;
    validated ← lift (CreateUserRequest data);
    let '(email, password, is_active, roles) := validated in
    ctx ← context r;
    result ← in_world (create_user cfg email password ctx roles is_active);
    mret (account_answer 201 result)).

Definition list_users_view (r : Request) : W Response :=
  require_permission ADMIN_VIEW_USERS (
    let '(limit, offset) := window_from_query 100 r in
    found ← in_world (list_users (Z.to_nat limit) (Z.to_nat offset));
    mret (plain 200 (JsonBody (JArray (account_json <$> found))))).

Definition get_user_view (user_id : pystr) (r : Request) : W Response :=
  require_permission ADMIN_VIEW_USERS (
    user ← in_world (get_user user_id);
    match user with
    | None => raise (Raised (UserNotFoundError user_id))
    | Some u => mret (account_answer 200 u)
    end).

Definition update_user_roles_view (user_id : pystr) (r : Request) : W Response :=
  require_permission ADMIN_MANAGE_USERS (
    data ← json_object r;
    roles ← lift (UpdateUserRolesRequest data);
    ctx ← context r;
    result ← in_world (update_user_roles user_id roles ctx);
    mret (account_answer 200 result)).

Definition confirm_user_email_view (user_id : pystr) (r : Request) : W Response :=
  require_permission ADMIN_MANAGE_USERS (
    ctx ← context r;
    result ← in_world (confirm_user_email user_id ctx);
    mret (account_answer 200 result)).

Definition message_answer (status : Z) (text : pystr) : Response :=
  plain status (JsonBody (JObject [(lit "message", JString text)])).

Definition resend_verification_view_admin (user_id : pystr) (r : Request) : W Response :=
  require_permission ADMIN_MANAGE_USERS (
    ctx ← context r;
    sent ← in_world (resend_user_verification cfg user_id ctx);
    let '(address, outcome) := sent in
    match outcome with
    | NOT_HANDED_OFF =>
        raise (Raised (DomainError (lit "Confirmation for %(email)s could not be queued")
                         (lit "MAIL_NOT_HANDED_OFF")))
    | NOTHING_TO_SEND =>
        mret (message_answer 200 (address ++ lit " is already confirmed; nothing to send"))
    | SENT => mret (message_answer 202 (lit "Confirmation message sent to " ++ address))
    end).

Definition deactivate_user_view (user_id : pystr) (r : Request) : W Response :=
  require_permission ADMIN_MANAGE_USERS (
    ctx ← context r;
    result ← in_world (deactivate_user user_id ctx);
    mret (account_answer 200 result)).

Definition activate_user_view (user_id : pystr) (r : Request) : W Response :=
  require_permission ADMIN_MANAGE_USERS (
    ctx ← context r;
    result ← in_world (activate_user user_id ctx);
    mret (account_answer 200 result)).

Definition delete_user_view (user_id : pystr) (r : Request) : W Response :=
  require_permission ADMIN_MANAGE_USERS (
    ctx ← context r;
    deleted ← in_world (delete_account user_id ctx);
    if (deleted : bool) then mret (plain 200 (message_body "User deleted"))
    else raise (Raised (UserNotFoundError user_id))).

Definition get_user_stats_view (user_id : pystr) (r : Request) : W Response :=
  require_permission ADMIN_VIEW_USERS (
    user ← in_world (get_user user_id);
    match user with
    | None => raise (Raised (UserNotFoundError user_id))
    | Some _ =>
        stats ← in_world (get_user_activity_stats links user_id);
        mret (plain 200 (JsonBody (my_stats_json stats)))
    end).

Definition create_role_view (r : Request) : W Response :=
  require_permission ADMIN_MANAGE_ROLES (
    data ← json_object r;
    validated ← lift (CreateRoleRequest data);
    let '(name, description, permissions) := validated in
    ctx ← context r;
    result ← in_world (create_role name description permissions ctx);
    mret (role_answer 201 result)).

Definition list_roles_view (r : Request) : W Response :=
  require_permission ADMIN_VIEW_ROLES (
    found ← in_world list_roles;
    mret (plain 200 (JsonBody (JArray (role_json <$> found))))).

Definition get_role_view (name : pystr) (r : Request) : W Response :=
  require_permission ADMIN_VIEW_ROLES (
    role ← in_world (get_role name);
    match role with
    | None => raise (Raised (RoleNotFoundError name))
    | Some x => mret (role_answer 200 x)
    end).

Definition update_role_permissions_view (name : pystr) (r : Request) : W Response :=
  require_permission ADMIN_MANAGE_ROLES (
    data ← json_object r;
    permissions ← lift (UpdateRolePermissionsRequest data);
    ctx ← context r;
    result ← in_world (update_role_permissions name permissions ctx);
    mret (role_answer 200 result)).

Definition delete_role_view (name : pystr) (r : Request) : W Response :=
  require_permission ADMIN_MANAGE_ROLES (
    ctx ← context r;
    in_world (delete_role cfg name ctx);;
    mret (plain 200 (message_body "Role deleted"))).
End views.
