(* ===== verification/WebTheorems.v ===== *)
(** * What the hooks before a view establish

    Lemmas on authentication, the throttle, the CSRF check and the rest of the
    hooks, each as a rule about its run; the tokens of [Csrf]. *)

From S2P Require Import Prelude PyStr Utf8 Json Exceptions ValueObjects Entities Policies IpAddress Sha256 UrlParse Database UserRepo Sessions Auth RateLimit WebRequest WebAuth Csrf WebThrottle WebErrors WebApp.

(** ** Authentication as a function *)

(** What the credential of a request amounts to. *)
Inductive standing :=
| Nobody
| Account (user : User) (session_id : pystr) (source : token_source)
| Refused (source : token_source)
| Unreadable (e : exn).

Section authentication.
Context {C : Type} `{TokenCodec} `{CaseFolding}.
Implicit Types (s : Web C) (r : Request).

Definition standing_of (now : Z) (d : Database) (r : Request) : standing :=
  match credential r with
  | None => Nobody
  | Some (token, source) =>
      match validate_token now token (Some ACCESS) with
      | None => Refused source
      | Some payload =>
          match truthy (cl_sid payload), cl_sub payload with
          | None, _ | _, [] => Refused source
          | Some sid, uid =>
              if chain_is_live now sid (refresh_sessions d) then
                match find_user_by_id uid d with
                | Ok (Some u) => if user_is_active u then Account u sid source else Refused source
                | Ok None => Refused source
                | Err e => Unreadable e
                end
              else Refused source
          end
      end
  end.

(** The [g] and the outcome that go with a standing. *)
Definition identified (st : standing) (g : G) : G :=
  match st with
  | Account u sid source =>
      set_identity (Some (current_user_info u)) (Some u) (Some sid) (Some source) true g
  | _ => set_identity None None None None true g
  end.

Definition authentication_answer (r : Request) (st : standing) : result failure (option Response) :=
  match st with
  | Nobody | Account _ _ _ => Ok None
  | Refused source => if is_presented source r then Err (Raised UNAUTHENTICATED) else Ok None
  | Unreadable e => if is_domain_error e then Err (Raised e) else Ok None
  end.

Lemma run_live_account now sid uid (w : World C) :
  live_account now sid uid w =
    ((if chain_is_live now sid (refresh_sessions (w_db w))
      then find_user_by_id uid (w_db w) else Ok None), w).
Proof.
  rewrite /live_account /with_uow /mbind /M_bind /read /load /=.
  destruct (chain_is_live _ _ _); [|by destruct w].
  rewrite /mbind /M_bind /read /lift /=. by destruct w.
Qed.

Lemma run_load_current_user r s :
  startswith STATIC_PREFIX (rq_path r) = false →
  let st := standing_of (w_now (wb_world s)) (w_db (wb_world s)) r in
  load_current_user r s = (authentication_answer r st, MkWeb (identified st (wb_g s)) (wb_world s)).
Proof.
  intros Hp. rewrite /load_current_user Hp /standing_of /authentication_answer /=.
  rewrite /mbind /M_bind /anonymous /modify_g /modify /=.
  destruct (credential r) as [[token source]|]; [|done].
  rewrite /in_world /now_utc /gets /=.
  destruct (validate_token _ _ _) as [payload|]; [|by rewrite /reject /=; destruct (is_presented _ _)].
  destruct (truthy (cl_sid payload)) as [sid|]; [|by rewrite /reject /=; destruct (is_presented _ _)].
  destruct (cl_sub payload) as [|c uid]; [by rewrite /reject /=; destruct (is_presented _ _)|].
  rewrite /load_account /try_except /mbind /M_bind /in_world /now_utc /gets run_live_account /=.
  destruct (chain_is_live _ _ _); [|by rewrite /reject /=; destruct (is_presented _ _)].
  destruct (find_user_by_id _ _) as [[u|]|e]; [|by rewrite /reject /=; destruct (is_presented _ _)|].
  - destruct (user_is_active u); [done|]. by rewrite /reject /=; destruct (is_presented _ _).
  - by destruct e.
Qed.

(** A standing as an account, opened up. *)
Lemma standing_account now d r u sid source :
  standing_of now d r = Account u sid source →
  ∃ token payload, credential r = Some (token, source) ∧
    validate_token now token (Some ACCESS) = Some payload ∧ cl_sid payload = Some sid ∧
    cl_sub payload ≠ [] ∧ chain_is_live now sid (refresh_sessions d) = true ∧
    find_user_by_id (cl_sub payload) d = Ok (Some u) ∧ user_is_active u = true.
Proof.
  rewrite /standing_of. destruct (credential r) as [[token src]|]; [|done].
  destruct (validate_token _ _ _) as [p|] eqn:Hv; [|done].
  destruct (truthy (cl_sid p)) as [sid'|] eqn:Hsid; [|done].
  destruct (cl_sub p) as [|c uid] eqn:Hsub; [done|].
  destruct (chain_is_live now sid' _) eqn:Hl; [|done].
  destruct (find_user_by_id _ d) as [[u'|]|] eqn:Hf; [|done|done].
  destruct (user_is_active u') eqn:Ha; [|done]. intros [= -> -> ->].
  exists token, p. rewrite Hsub. split_and!; try done.
  destruct (cl_sid p) as [[|??]|]; naive_solver.
Qed.

Lemma find_user_by_id_id i d u : find_user_by_id i d = Ok (Some u) → user_id u = i.
Proof.
  intros (m & [Hm <-]%first_filter_Some & Hu)%load_user_Some. revert Hu. rewrite /orm_to_domain.
  intros Hu. apply result_bind_ok in Hu as (e & _ & Hu). apply result_bind_ok in Hu as (p & _ & Hu).
  by simplify_eq/=.
Qed.
End authentication.

(** ** Encodings *)

Lemma utf8_encode_ascii_inv s b : utf8_encode s = Some b → isascii b = true → s = b.
Proof.
  revert b. induction s as [|c s IH]; intros b; simpl; [by intros [= <-]|].
  destruct (utf8_char c) as [w|] eqn:Hw; [|done]. destruct (utf8_encode s) as [m|]; [|done].
  simpl. intros [= <-]. rewrite isascii_app. intros [Ha Hm]%andb_true_iff.
  rewrite -(IH m eq_refl Hm). revert Hw Ha. rewrite /utf8_char.
  repeat case_match; intros [= <-]; try done; reflect_bools;
    cbn [isascii forallb]; intros Ha; exfalso; apply andb_true_iff in Ha as [Ha _];
    rewrite /is_ascii in Ha;
    match type of Ha with context [Z.shiftr c ?k] => pose proof (proj2 (Z.shiftr_nonneg c k)) end; lia.
Qed.

Lemma utf8_encode_app s t : utf8_encode (s ++ t) =
  a ← utf8_encode s; b ← utf8_encode t; Some (a ++ b).
Proof.
  induction s as [|c s IH]; simpl; [by destruct (utf8_encode t)|].
  rewrite IH. destruct (utf8_char c); [|done]. destruct (utf8_encode s); [|done].
  simpl. destruct (utf8_encode t); [|done]. simpl. by rewrite app_assoc.
Qed.

Lemma is_hex_ascii c : is_hex_digit c = true → is_ascii c = true.
Proof. rewrite /is_hex_digit /is_ascii /is_digit. lia. Qed.

Lemma encode_ok s b : encode s = Ok b ↔ utf8_encode s = Some b.
Proof. rewrite /encode. destruct (utf8_encode s); naive_solver. Qed.

Lemma hex_pair_inj b b' : is_byte b → is_byte b' →
  Sha256.hex_char (Z.shiftr b 4) = Sha256.hex_char (Z.shiftr b' 4) →
  Sha256.hex_char (Z.land b 15) = Sha256.hex_char (Z.land b' 15) → b = b'.
Proof.
  rewrite /is_byte !(Z.land_ones _ 4) // !Z.shiftr_div_pow2 //. change (2 ^ 4) with 16.
  intros Hb Hb' Hhi Hlo. pose proof (Z.div_mod b 16 ltac:(done)). pose proof (Z.div_mod b' 16 ltac:(done)).
  pose proof (Z.mod_pos_bound b 16 ltac:(done)). pose proof (Z.mod_pos_bound b' 16 ltac:(done)).
  rewrite /Sha256.hex_char in Hhi Hlo. repeat case_match; reflect_bools; lia.
Qed.

Lemma hexdigest_inj d d' : Forall is_byte d → Forall is_byte d' → hexdigest d = hexdigest d' → d = d'.
Proof.
  intros Hd. revert d'. induction Hd as [|b d Hb Hd IH]; intros d' Hd'; destruct Hd' as [|b' d' Hb' Hd'];
    try done. rewrite /hexdigest /=. intros [= Hhi Hlo Heq]. f_equal; [by apply hex_pair_inj|].
  by apply IH.
Qed.

Lemma hexdigest_ascii m : isascii (hexdigest (sha256 m)) = true.
Proof.
  destruct (hexdigest_ok (sha256 m) (sha256_bytes m)) as [Hx _].
  rewrite /isascii. apply forallb_forall. intros c Hc. apply is_hex_ascii.
  by eapply forallb_forall in Hx.
Qed.

(** ** Numbers written and read *)

Section numbers.
Context `{DecimalDigits}.

Lemma digit_groups_digits b s : forallb is_digit s = true → (b = false → s ≠ []) →
  digit_groups b s = Some s.
Proof.
  revert b. induction s as [|c s IH]; intros b; simpl.
  - intros _ Hb. destruct b; [done|]. by destruct (Hb eq_refl).
  - intros [Hc Hs]%andb_true_iff _. by rewrite Hc IH.
Qed.

Lemma lstrip_by_none (p : Z → bool) s : forallb (λ c, negb (p c)) s = true → lstrip_by p s = s.
Proof. destruct s as [|c s]; simpl; [done|]. intros [Hc _]%andb_true_iff. by destruct (p c). Qed.
Lemma rstrip_by_none (p : Z → bool) s : forallb (λ c, negb (p c)) s = true → rstrip_by p s = s.
Proof.
  intros Hs. rewrite /rstrip_by lstrip_by_none ?reverse_involutive //.
  apply forallb_forall. intros c Hc. eapply forallb_forall in Hs; [done|].
  by apply list_elem_of_In, elem_of_reverse, list_elem_of_In.
Qed.

Lemma int_of_digits s acc : forallb is_digit s = true →
  foldl (λ acc c, acc * 10 + digit_value c) acc s = foldl (λ n c, n * 10 + (c - 48)) acc s.
Proof.
  revert acc. induction s as [|c s IH]; intros acc; simpl; [done|].
  intros [Hc Hs]%andb_true_iff. rewrite IH // /digit_value Hc //.
Qed.

Lemma decimal_text n : 0 <= n < 2 ^ 64 →
  ∃ c s, str_of_Z n = c :: s ∧ forallb is_digit (c :: s) = true ∧ digits_value (c :: s) = n ∧
         (length (c :: s) <= 65)%nat.
Proof.
  intros Hn. rewrite /str_of_Z (_ : n <? 0 = false); [|lia].
  assert (0 <= Z.log2 n < 64) as Hlog.
  { split; [apply Z.log2_nonneg|]. destruct (decide (n = 0)) as [->|]; [done|]. apply Z.log2_lt_pow2; lia. }
  assert (0 <= n < 2 ^ Z.of_nat (S (Z.to_nat (Z.log2 n)))) as Hb.
  { split; [lia|]. rewrite Nat2Z.inj_succ Z2Nat.id; [|lia].
    destruct (decide (n = 0)) as [->|]; [done|]. apply Z.log2_spec. lia. }
  destruct (decimal_digits_spec _ n Hb ltac:(lia)) as (Hv & Hd & Hl & _). cbv zeta in *.
  destruct (decimal_digits _ n) as [|c s] eqn:E; [simpl in Hl; lia|].
  exists c, s. split_and!; try done. lia.
Qed.

Lemma digit_plain c : is_digit c = true →
  to_ascii c = c ∧ is_c_space c = false ∧ c ≠ HYPHEN ∧ c ≠ PLUS ∧ c ≠ DOT ∧ is_ascii c = true.
Proof.
  rewrite /is_digit /to_ascii /is_c_space /HYPHEN /PLUS /DOT /is_ascii. intros Hc.
  rewrite (_ : c <? 127 = true); lia.
Qed.

Lemma py_int_str n : 0 <= n < 2 ^ 64 → py_int (str_of_Z n) = Some n.
Proof.
  intros (c & s & -> & Hd & Hv & Hl)%decimal_text.
  assert (∀ x, x ∈ c :: s → is_digit x = true) as Hall.
  { intros x Hx%list_elem_of_In. by eapply forallb_forall in Hd. }
  rewrite /py_int.
  assert (to_ascii <$> c :: s = c :: s) as ->.
  { rewrite -{2}(list_fmap_id (c :: s)). apply list_fmap_ext. intros i x Hx%list_elem_of_lookup_2.
    by apply digit_plain, Hall. }
  assert (forallb (λ x, negb (is_c_space x)) (c :: s) = true) as Hsp.
  { apply forallb_forall. intros x Hx%list_elem_of_In. by rewrite (proj1 (proj2 (digit_plain x (Hall x Hx)))). }
  rewrite lstrip_by_none // rstrip_by_none //.
  destruct (digit_plain c (Hall c ltac:(by left))) as (_ & _ & Hh & Hp & _ & _).
  rewrite (proj2 (Z.eqb_neq _ _) Hh) (proj2 (Z.eqb_neq _ _) Hp).
  rewrite digit_groups_digits // /= -/(len (c :: s)).
  rewrite (_ : UrlParse.MAX_STR_DIGITS <? len (c :: s) = false); [|rewrite /len /UrlParse.MAX_STR_DIGITS; lia].
  f_equal. rewrite -Hv. exact (int_of_digits (c :: s) 0 Hd).
Qed.
End numbers.

(** ** Tokens *)

(** A text Python can hold. *)
Definition is_text (s : pystr) : Prop := Forall (λ c, 0 <= c <= 1114111) s.

Section tokens.
Context `{DecimalDigits}.

Lemma signature_ok key uid nonce t sig : signature key uid nonce t = Ok sig ↔
  ∃ k m, utf8_encode key = Some k ∧ utf8_encode (signed_text uid nonce t) = Some m ∧
         sig = hexdigest (hmac_sha256 k m).
Proof.
  rewrite /signature /encode.
  destruct (utf8_encode (signed_text _ _ _)) as [m|]; [|split; [done|by intros (? & ? & ? & ? & ?)]].
  destruct (utf8_encode key) as [k|]; [|split; [done|by intros (? & ? & ? & ? & ?)]].
  split; [intros [= <-]; by exists k, m|]. by intros (? & ? & [= <-] & [= <-] & ->).
Qed.

Lemma verify_token_inv key now uid token : verify_csrf_token key now uid token = Ok true →
  ∃ nonce raw issued sig, split_on DOT token = [nonce; raw; sig] ∧ py_int raw = Some issued ∧
    unix_time now - issued <= CSRF_TOKEN_TTL_SECONDS ∧ signature key uid nonce issued = Ok sig.
Proof.
  rewrite /verify_csrf_token.
  destruct (split_on DOT token) as [|nonce [|raw [|sig [|??]]]]; try done.
  destruct nonce as [|n0 nonce]; [done|]. destruct sig as [|s0 sig]; [done|].
  destruct (py_int raw) as [issued|] eqn:Hi; [|done].
  destruct (Z.ltb_spec CSRF_TOKEN_TTL_SECONDS (unix_time now - issued)) as [|Hage]; [done|].
  intros Hv. apply result_bind_ok in Hv as (expected & Hsig & Hv).
  apply result_bind_ok in Hv as (a & Ha & Hv). apply result_bind_ok in Hv as (b & Hb & Hv).
  injection Hv as ->%bool_decide_eq_true. apply encode_ok in Ha, Hb.
  assert (isascii expected = true) as Hasc.
  { apply signature_ok in Hsig as (k & m & _ & _ & ->). apply hexdigest_ascii. }
  rewrite (utf8_encode_ascii _ Hasc) in Hb. injection Hb as <-.
  apply utf8_encode_ascii_inv in Ha; [|done].
  exists (n0 :: nonce), raw, issued, (s0 :: sig). by rewrite Ha.
Qed.

Lemma verify_three key now uid nonce raw issued sig :
  DOT ∉ nonce → DOT ∉ raw → DOT ∉ sig → nonce ≠ [] → py_int raw = Some issued →
  unix_time now - issued <= CSRF_TOKEN_TTL_SECONDS → signature key uid nonce issued = Ok sig →
  verify_csrf_token key now uid (nonce ++ DOT :: raw ++ DOT :: sig) = Ok true.
Proof.
  intros Hn Hr Hs Hne Hi Hage Hsig. rewrite /verify_csrf_token.
  rewrite split_on_app // split_on_app // split_on_no //.
  pose proof (proj1 (signature_ok _ _ _ _ _) Hsig) as (k & m & _ & _ & Hd).
  assert (isascii sig = true) as Hasc by (by rewrite Hd; apply hexdigest_ascii).
  assert (sig ≠ []) as Hsne.
  { rewrite Hd. intros E. pose proof (hexdigest_ok _ (sha256_bytes (xor_all 92 (hmac_key k) ++
      sha256 (xor_all 54 (hmac_key k) ++ m)))) as [_ Hl].
    rewrite length_sha256 /hmac_sha256 in Hl. rewrite /hmac_sha256 in E. by rewrite E in Hl. }
  destruct nonce as [|n0 nonce]; [done|]. destruct sig as [|s0 sig]; [done|]. rewrite Hi.
  rewrite (proj2 (Z.ltb_ge _ _)); [|lia]. rewrite Hsig /=.
  by rewrite /encode (utf8_encode_ascii _ Hasc) /= bool_decide_eq_true_2.
Qed.

Lemma hex_no_dot m : DOT ∉ hexdigest (sha256 m).
Proof.
  destruct (hexdigest_ok (sha256 m) (sha256_bytes m)) as [Hx _].
  intros Hc%list_elem_of_In. eapply (proj1 (forallb_forall _ _)) in Hx; [|exact Hc]. done.
Qed.

(** A number is written in ASCII digits. *)
Lemma str_of_Z_plain n : 0 <= n < 2 ^ 64 → DOT ∉ str_of_Z n ∧ isascii (str_of_Z n) = true.
Proof.
  intros (c & s & -> & Hd & _)%decimal_text.
  assert (∀ x, x ∈ c :: s → x ≠ DOT ∧ is_ascii x = true) as Hall.
  { intros x Hx%list_elem_of_In. eapply forallb_forall in Hd; [|done].
    destruct (digit_plain x Hd) as (_ & _ & _ & _ & Hx1 & Hx2). done. }
  split; [by intros [? _]%Hall|]. apply forallb_forall. by intros x [_ ?]%list_elem_of_In%Hall.
Qed.

(** What the key minted is accepted until it ages out. *)
Lemma minted_verifies key uid nonce issued now token :
  csrf_token key uid nonce issued = Ok token → nonce ≠ [] → DOT ∉ nonce →
  0 <= issued < 2 ^ 64 → unix_time now <= issued + CSRF_TOKEN_TTL_SECONDS →
  verify_csrf_token key now uid token = Ok true.
Proof.
  intros Ht Hne Hn Hi Hage. apply result_bind_ok in Ht as (sig & Hsig & Ht). injection Ht as <-.
  destruct (str_of_Z_plain issued Hi) as [Hd _].
  apply (verify_three _ _ _ _ _ issued); try done; [|by apply py_int_str|lia].
  apply signature_ok in Hsig as (k & m & _ & _ & ->). apply hex_no_dot.
Qed.

Lemma minted_expires key uid nonce issued now token :
  csrf_token key uid nonce issued = Ok token → nonce ≠ [] → DOT ∉ nonce →
  0 <= issued < 2 ^ 64 → issued + CSRF_TOKEN_TTL_SECONDS < unix_time now →
  verify_csrf_token key now uid token = Ok false.
Proof.
  intros Ht Hne Hn Hi Hage. apply result_bind_ok in Ht as (sig & Hsig & Ht). injection Ht as <-.
  destruct (str_of_Z_plain issued Hi) as [Hd _].
  apply signature_ok in Hsig as (k & m & _ & _ & ->).
  rewrite /verify_csrf_token split_on_app // split_on_app // split_on_no; [|apply hex_no_dot].
  rewrite py_int_str //. destruct nonce as [|n0 nonce]; [done|].
  destruct (hexdigest _); [done|]. by rewrite (proj2 (Z.ltb_lt _ _)); [|lia].
Qed.

Lemma csrf_token_ok key uid nonce issued :
  is_Some (utf8_encode key) → is_Some (utf8_encode uid) → isascii nonce = true → 0 <= issued < 2 ^ 64 →
  ∃ token, csrf_token key uid nonce issued = Ok token.
Proof.
  intros [k Hk] [u Hu] Hn Hi. rewrite /csrf_token /signature /encode /signed_text.
  rewrite utf8_encode_app Hu. destruct (str_of_Z_plain issued Hi) as [_ Ha].
  assert (isascii (COLON :: nonce ++ COLON :: str_of_Z issued) = true) as Hasc.
  { change (isascii (nonce ++ COLON :: str_of_Z issued) = true). rewrite isascii_app Hn. exact Ha. }
  rewrite (utf8_encode_ascii _ Hasc) /= Hk /=. eauto.
Qed.

(** Two accounts one token is good for are one account, or the MAC of two
    different messages is the same. *)
Lemma token_of_two key now now' u u' token :
  is_text u → is_text u' →
  verify_csrf_token key now u token = Ok true → verify_csrf_token key now' u' token = Ok true →
  u = u' ∨ ∃ k m m', utf8_encode key = Some k ∧ m ≠ m' ∧ hmac_sha256 k m = hmac_sha256 k m'.
Proof.
  intros Hu Hu' (nonce & raw & t & sig & Hs & Hi & _ & Hsig)%verify_token_inv
    (nonce' & raw' & t' & sig' & Hs' & Hi' & _ & Hsig')%verify_token_inv.
  rewrite Hs in Hs'. injection Hs' as <- <- <-. rewrite Hi in Hi'. injection Hi' as <-.
  apply signature_ok in Hsig as (k & m & Hk & Hm & ->).
  apply signature_ok in Hsig' as (k' & m' & Hk' & Hm' & Heq). rewrite Hk in Hk'. injection Hk' as <-.
  apply hexdigest_inj in Heq; [|apply sha256_bytes..].
  destruct (decide (m = m')) as [<-|Hne]; [left|by right; eauto 10].
  rewrite /signed_text !utf8_encode_app in Hm, Hm'.
  destruct (utf8_encode u) as [a|] eqn:Ea; [|done]. destruct (utf8_encode u') as [a'|] eqn:Ea'; [|done].
  destruct (utf8_encode (COLON :: _)) as [b|]; [|done]. simpl in *. simplify_eq.
  match goal with Hx : _ ++ b = _ ++ b |- _ => apply app_inv_tail in Hx; subst end.
  by rewrite -(decode_encode u _ Hu Ea) -(decode_encode u' _ Hu' Ea').
Qed.
End tokens.

(** ** Runs of the hooks *)

(** The caller, the database and the clock are left as they were. *)
Record same_caller {C} (s s' : Web C) : Prop := MkSameCaller {
  sc_user : g_current_user (wb_g s') = g_current_user (wb_g s);
  sc_domain_user : g_domain_user (wb_g s') = g_domain_user (wb_g s);
  sc_session : g_auth_session_id (wb_g s') = g_auth_session_id (wb_g s);
  sc_source : g_auth_token_source (wb_g s') = g_auth_token_source (wb_g s);
  sc_db : w_db (wb_world s') = w_db (wb_world s);
  sc_now : w_now (wb_world s') = w_now (wb_world s);
}.
#[global] Instance same_caller_refl {C} : Reflexive (@same_caller C).
Proof. by constructor. Qed.
#[global] Instance same_caller_trans {C} : Transitive (@same_caller C).
Proof. intros s s' s'' [] []. constructor; congruence. Qed.

Section hooks.
Context {C : Type} `{TokenCodec} `{CaseFolding} `{Nfkc} `{DecimalDigits} `{SecretTokens}.
Context `{UuidSupply} `{LimiterCheck C}.
Implicit Types (s : Web C) (r : Request).

Lemma run_attempt {A} (x : result exn A) s :
  attempt x s = (match x with Ok a => Ok a | Err e => Err (Raised e) end, s).
Proof. rewrite /attempt /in_world /lift. by destruct s. Qed.

Lemma run_now s : in_world now_utc s = (Ok (w_now (wb_world s)), s).
Proof. by destruct s. Qed.

Lemma run_refuse s : ∃ response, refuse s = (Ok (Some response), s) ∧ status_code response = 403.
Proof. rewrite /refuse /error_response /mbind /M_bind run_now /=. eauto. Qed.

Lemma bind_attempt {A B} (x : result exn A) (k : A → M (Web C) failure B) s :
  (attempt x ≫= k) s = match x with Ok a => k a s | Err e => (Err (Raised e), s) end.
Proof. rewrite /mbind /M_bind run_attempt. by destruct x. Qed.
Lemma bind_now {B} (k : Z → M (Web C) failure B) s :
  (in_world now_utc ≫= k) s = k (w_now (wb_world s)) s.
Proof. by rewrite /mbind /M_bind run_now. Qed.
Lemma bind_g {B} (k : G → M (Web C) failure B) s : (get_g ≫= k) s = k (wb_g s) s.
Proof. done. Qed.

(** The origin a request states, if it states one, is one of the allowed: its
    [Origin], or else the origin of its [Referer].  A request that states
    neither is not asked (docs/architecture.md), and the token alone speaks
    for it. *)
Definition stated_origin_is_ours (allowed_origins : list pystr) (r : Request) : Prop :=
  (∀ origin, header "Origin" r = Some origin → origin ≠ [] →
     without_slashes origin ∈ allowed_origins) ∧
  (∀ referer, truthy (header "Origin" r) = None → header "Referer" r = Some referer → referer ≠ [] →
     ∃ p, parse_url referer = Ok p ∧ scheme p ≠ [] ∧ netloc p ≠ [] ∧
          without_slashes (origin_text (scheme p) (netloc p)) ∈ allowed_origins).

Lemma origin_is_allowed_spec allowed r :
  origin_is_allowed allowed r = Ok true → stated_origin_is_ours allowed r.
Proof.
  rewrite /origin_is_allowed. intros Hall. split.
  - intros [|c o] Ho Hne; [done|]. rewrite Ho /= in Hall. injection Hall as Hall.
    by apply bool_decide_eq_true in Hall.
  - intros [|c f] Ho Hf Hne; [done|]. rewrite Ho Hf /= in Hall.
    apply result_bind_ok in Hall as (p & Hp & Hall). exists p. split; [done|].
    destruct (scheme p) as [|a b]; [done|]. destruct (netloc p) as [|x y]; [done|].
    injection Hall as Hall. by apply bool_decide_eq_true in Hall.
Qed.

(** What a write that the CSRF check lets through has shown. *)
Definition csrf_shown (cfg : CsrfSettings) (now : Z) (r : Request) (uid : pystr) : Prop :=
  stated_origin_is_ours (allowed_origins cfg) r ∧
  ∃ token echoed bytes, cookie "csrf_token" r = Some token ∧ header "X-CSRF-Token" r = Some echoed ∧
    utf8_encode token = Some bytes ∧ utf8_encode echoed = Some bytes ∧
    verify_csrf_token (secret_key cfg) now uid token = Ok true.

Lemma truthy_Some o x : truthy o = Some x → o = Some x ∧ x ≠ [].
Proof. destruct o as [[|c t]|]; simpl; naive_solver. Qed.

Lemma enforce_csrf_passes cfg r s s' : enforce_csrf cfg r s = (Ok None, s') →
  s' = s ∧ (rq_method r ∉ SAFE_METHODS → is_cookie_authenticated r (wb_g s) = true →
            ∃ uid, resolve_user_id (w_now (wb_world s)) r = Some uid ∧ uid ≠ [] ∧
                   csrf_shown cfg (w_now (wb_world s)) r uid).
Proof.
  destruct (run_refuse s) as (refusal & Hr & _). rewrite /enforce_csrf.
  case_bool_decide as Hm; [by intros [= <-]|]. rewrite bind_g.
  destruct (is_cookie_authenticated r (wb_g s)) eqn:Hc; [|by intros [= <-]]. simpl.
  rewrite bind_attempt. destruct (origin_is_allowed _ r) as [[|]|e] eqn:Ho; [|by rewrite /= Hr|done].
  simpl. destruct (truthy (cookie "csrf_token" r)) as [token|] eqn:Ht; [|by rewrite Hr].
  destruct (truthy (header "X-CSRF-Token" r)) as [echoed|] eqn:He; [|by rewrite Hr].
  rewrite bind_attempt. destruct (encode token) as [a|] eqn:Ea; [|done].
  rewrite bind_attempt. destruct (encode echoed) as [b|] eqn:Eb; [|done].
  case_bool_decide as Hab; simpl; [|by rewrite Hr]. subst b. rewrite bind_now.
  destruct (truthy (resolve_user_id _ r)) as [uid|] eqn:Hu; [|by rewrite Hr].
  rewrite bind_attempt. destruct (verify_csrf_token _ _ uid token) as [[|]|] eqn:Hv; [|by rewrite Hr|done].
  intros [= <-]. split; [done|]. intros _ _. exists uid.
  apply truthy_Some in Hu as [Hu Hne]. apply truthy_Some in Ht as [Ht _]. apply truthy_Some in He as [He _].
  apply encode_ok in Ea, Eb. split_and!; try done. split; [by apply origin_is_allowed_spec|]. by exists token, echoed, a.
Qed.

Lemma check_host_passes hosts r s s' : check_host hosts r s = (Ok None, s') →
  s' = s ∧ (normalise_all hosts ≠ [] → normalise_host (rq_host r) ∈ normalise_all hosts).
Proof.
  rewrite /check_host. destruct (normalise_all hosts) as [|h hs]; [by intros [= <-]|].
  case_bool_decide; [|done]. by intros [= <-].
Qed.

Lemma name_request_passes r s s' : name_request r s = (Ok None, s') → same_caller s s'.
Proof. rewrite /name_request. destruct (startswith _ _); by intros [= <-]. Qed.

Lemma check_rate_limit_passes cfg proxies pr r s s' :
  check_rate_limit cfg proxies pr r s = (Ok None, s') → same_caller s s'.
Proof.
  rewrite /check_rate_limit. destruct (is_exempt r); [by intros [= <-]|]. rewrite bind_g.
  destruct (auth_is_waved_through cfg r); [by intros [= <-]|]. rewrite bind_attempt.
  destruct (limit_for cfg r) as [[limit period]|]; [|done]. rewrite bind_now.
  rewrite /mbind /M_bind {1}/in_world /with_cache.
  destruct (limiter_check _ _ _ _ _) as [d c]. simpl. destruct (allowed d); [by intros [= <-]|].
  by rewrite /too_many /mbind /M_bind /in_world /now_utc /gets /=.
Qed.

(** Every parameter of the query is one the operation declares. *)
Definition declared_query (documented : gmap pystr (gmap pystr (list OperationParameter)))
    (rules : list Rule) (r : Request) : Prop :=
  ∀ names, allowed_parameters documented rules r = Some names → ∀ n, n ∈ (rq_args r).*1 → n ∈ names.

Lemma refuse_undeclared_passes documented rules r s s' :
  refuse_undeclared_query_parameters documented rules r s = (Ok None, s') →
  s' = s ∧ declared_query documented rules r.
Proof.
  rewrite /refuse_undeclared_query_parameters /declared_query.
  destruct (allowed_parameters documented rules r) as [names|]; [|by intros [= <-]].
  destruct (sorted _) as [|n ns] eqn:Hs; [|done]. intros [= <-]. split; [done|].
  intros ? [= <-] n Hn. apply dec_stable. intros Hnot.
  assert (n ∈ sorted (remove_dups (filter (λ n, n ∉ names) (rq_args r).*1))) as Hin.
  { rewrite elem_of_sorted elem_of_remove_dups list_elem_of_filter. done. }
  rewrite Hs in Hin. by inversion Hin.
Qed.

Lemma preprocess_cons (hook : M (Web C) failure (option Response)) hooks s s' :
  preprocess (hook :: hooks) s = (Ok None, s') →
  ∃ s1, hook s = (Ok None, s1) ∧ preprocess hooks s1 = (Ok None, s').
Proof.
  simpl. rewrite {1}/mbind /M_bind. destruct (hook s) as [[[a|]|e] s1]; [done| |done]. eauto.
Qed.
End hooks.

(** ** Cookies as credentials *)

Section cookies.
Context `{TokenCodec} `{CaseFolding}.

Lemma cookie_credential r token : credential r = Some (token, AUTH_SOURCE_COOKIE) →
  truthy (cookie "access_token" r) = Some token.
Proof.
  rewrite /credential. destruct (_ ≫= _) as [t|]; [done|].
  destruct (truthy (cookie "access_token" r)); simpl; naive_solver.
Qed.

(** The account of a request that acts with the authority of a cookie. *)
Lemma cookie_account now d r u sid : standing_of now d r = Account u sid AUTH_SOURCE_COOKIE →
  has_auth_cookie r = true ∧ resolve_user_id now r = Some (user_id u).
Proof.
  intros (token & payload & Hc%cookie_credential & Hv & _ & _ & _ & Hf%find_user_by_id_id & _)%standing_account.
  rewrite /has_auth_cookie /resolve_user_id /cookie_owner Hc /= Hv /= Hf. done.
Qed.
End cookies.

(** ** Headers *)

Lemma get_set_header name value a : get_header name (set_header name value a) = Some value.
Proof.
  rewrite /get_header /lookup_field /set_header /= list.filter_app.
  rewrite (filter_none _ (filter _ _)); [|intros f [Hf _]%list_elem_of_filter; done].
  by rewrite /= filter_cons_True.
Qed.
Lemma get_set_header_ne name name' value a : lit name ≠ lit name' →
  get_header name (set_header name' value a) = get_header name a.
Proof.
  intros Hne. rewrite /get_header /lookup_field /set_header /= list.filter_app.
  rewrite (filter_none _ [_]); [|intros f ->%list_elem_of_singleton; by intros ?%eq_sym].
  rewrite app_nil_r list_filter_filter. do 2 f_equal. apply list_filter_iff.
  intros f. simpl. split; [by intros [??]|]. intros Hf. split; congruence.
Qed.
Lemma get_setdefault_header name value a : is_Some (get_header name (setdefault_header name value a)).
Proof. rewrite /setdefault_header. destruct (get_header name a) eqn:E; [by rewrite E|]. by rewrite get_set_header. Qed.
Lemma get_setdefault_header_ne name name' value a : lit name ≠ lit name' →
  get_header name (setdefault_header name' value a) = get_header name a.
Proof. intros Hne. rewrite /setdefault_header. destruct (get_header name' a); [done|]. by apply get_set_header_ne. Qed.
(** A default never takes a header away, nor changes one that is there. *)
Lemma setdefault_keeps name name' value a v : get_header name a = Some v →
  get_header name (setdefault_header name' value a) = Some v.
Proof.
  intros Hv. destruct (decide (lit name = lit name')) as [He|Hne]; [|by rewrite get_setdefault_header_ne].
  rewrite /setdefault_header /get_header -He -/(get_header name a) Hv. exact Hv.
Qed.

Section answers.
Context `{CaseFolding}.

(** What [add_headers] leaves on every answer. *)
Definition PROTECTIVE : list string :=
  ["X-Content-Type-Options"; "X-Frame-Options"; "Referrer-Policy"; "Permissions-Policy";
   "Content-Security-Policy"]%string.

Lemma add_headers_keeps https age g a name v : get_header name a = Some v →
  get_header name (add_headers https age g a) = Some v.
Proof.
  intros Hv. rewrite /add_headers /HEADERS. cbn [foldl fst snd]. cbv zeta.
  apply setdefault_keeps. case_match; repeat apply setdefault_keeps; done.
Qed.

Lemma add_headers_protects https age g a name : name ∈ PROTECTIVE →
  is_Some (get_header name (add_headers https age g a)).
Proof.
  rewrite /PROTECTIVE !elem_of_cons elem_of_nil. intros Hn. rewrite /add_headers /HEADERS.
  cbn [foldl fst snd]. cbv zeta.
  assert (∀ b v, is_Some (get_header name b) →
    is_Some (get_header name (setdefault_header "Content-Security-Policy" v b))) as Hk
    by (intros b v [x Hx]; by rewrite (setdefault_keeps _ _ _ _ _ Hx)).
  assert (∀ b n v, is_Some (get_header name b) → is_Some (get_header name (setdefault_header n v b))) as Hk'
    by (intros b n v [x Hx]; by rewrite (setdefault_keeps _ _ _ _ _ Hx)).
  destruct Hn as [->|[->|[->|[->|[->|[]]]]]]; [..|apply get_setdefault_header];
    apply Hk; case_match; [apply Hk'| |apply Hk'| |apply Hk'| |apply Hk'|];
    repeat first [apply get_setdefault_header | apply Hk'].
Qed.

Lemma mark_private_no_store r g a : g_current_user g ≠ None → rq_endpoint r ≠ Some (lit "static") →
  get_header "Cache-Control" (mark_private r g a) = Some (lit "no-store").
Proof.
  intros Hu He. rewrite /mark_private. destruct (g_current_user g); [|done].
  rewrite bool_decide_eq_false_2 //. by rewrite get_set_header.
Qed.
End answers.

Section after.
Context {C : Type} `{TokenCodec} `{CaseFolding} `{Nfkc} `{DecimalDigits} `{SecretTokens}.
Implicit Types (s : Web C) (r : Request).

(** The hook of the CSRF cookie: always an answer, with the same headers. *)
Lemma run_issue_csrf_cookie csrf r a s :
  ∃ a' s', issue_csrf_cookie csrf r a s = (Ok a', s') ∧ rs_headers a' = rs_headers a ∧
           status_code a' = status_code a ∧ wb_g s' = wb_g s ∧ w_db (wb_world s') = w_db (wb_world s) ∧
           w_audit (wb_world s') = w_audit (wb_world s).
Proof.
  rewrite /issue_csrf_cookie /response_hook /hand_out_csrf_cookie /try_except.
  destruct (startswith _ _); [by eauto 10|]. destruct (sets_csrf a); [by eauto 10|].
  destruct (negb _); [by eauto 10|]. rewrite bind_now.
  destruct (truthy (resolve_user_id _ _)) as [uid|]; [|by eauto 10].
  assert (∃ x s', in_world (build_csrf_token csrf uid) s = (x, s') ∧ wb_g s' = wb_g s ∧
    w_db (wb_world s') = w_db (wb_world s) ∧ w_audit (wb_world s') = w_audit (wb_world s))
    as (x & s' & Hb & Hg & Hd & Ha).
  { rewrite /in_world /build_csrf_token /mbind /M_bind /draw /now_utc /gets /lift /=. eauto 10. }
  assert (∃ y, (in_world (build_csrf_token csrf uid) ≫= λ token, mret (set_csrf_cookie csrf token a)) s =
    (y, s') ∧ (∀ a', y = Ok a' → rs_headers a' = rs_headers a ∧ status_code a' = status_code a)) as (y & Hy & Hya).
  { rewrite /mbind /M_bind Hb. destruct x; eexists; split; try done. by intros a' [= <-]. }
  destruct (truthy (cookie "csrf_token" r)) as [old|].
  - rewrite bind_attempt. destruct (verify_csrf_token _ _ _ _) as [[|]|]; [by eauto 10| |by eauto 10].
    rewrite Hy. destruct y as [a'|e]; [destruct (Hya a' eq_refl)|]; eauto 10.
  - rewrite bind_ret_l Hy. destruct y as [a'|e]; [destruct (Hya a' eq_refl)|]; eauto 10.
Qed.

Lemma run_rate_limit_headers a s :
  ∃ a', response_hook add_rate_limit_headers a s = (Ok a', s) ∧ status_code a' = status_code a ∧
        get_header "Cache-Control" a' = get_header "Cache-Control" a.
Proof.
  rewrite /response_hook /add_rate_limit_headers /try_except.
  destruct (status_code a =? 429); [by eauto|]. rewrite bind_g.
  destruct (g_rate_limit (wb_g s)) as [[limit remains]|]; [|by eauto].
  eexists. split; [done|]. split; [done|]. by rewrite !get_set_header_ne.
Qed.
End after.
