(* ===== verification/WebClaims.v ===== *)
(** * The web layer: what a request can and cannot do

    The claims on authentication, CSRF protection, throttling, errors and the
    answer as a whole, each for every request, every view and every state of
    the service; a small service to run them on. *)

From S2P Require Import Prelude PyStr Utf8 Json Exceptions ValueObjects Entities Policies IpAddress Sha256 UrlParse Database UserRepo Sessions Auth RateLimit WebRequest WebAuth Csrf WebThrottle WebErrors WebApp WebTheorems.

Section claims.
Context {C : Type} `{TokenCodec} `{CaseFolding} `{Nfkc} `{DecimalDigits} `{SecretTokens}.
Context `{UuidSupply} `{LimiterCheck C}.
Context (cfg : WebSettings) (page_renders : Request → bool).
Implicit Types (r : Request) (w : World C) (s : Web C).

(** The hooks let the request through to the view, in the state [s]. *)
Definition reaches_view r w s : Prop :=
  preprocess (before_request cfg page_renders r) (MkWeb empty_g w) = (Ok None, s).

Lemma reaches_view_steps r w s : reaches_view r w s →
  ∃ s1 s2, same_caller (MkWeb empty_g w) s1 ∧
    (normalise_all (ws_allowed_hosts cfg) ≠ [] →
     normalise_host (rq_host r) ∈ normalise_all (ws_allowed_hosts cfg)) ∧
    load_current_user r s1 = (Ok None, s2) ∧ same_caller s2 s ∧
    (rq_method r ∉ SAFE_METHODS → is_cookie_authenticated r (wb_g s) = true →
     ∃ uid, resolve_user_id (w_now (wb_world s)) r = Some uid ∧ uid ≠ [] ∧
            csrf_shown (ws_csrf cfg) (w_now (wb_world s)) r uid) ∧
    declared_query (ws_documented cfg) (ws_rules cfg) r.
Proof.
  rewrite /reaches_view /before_request.
  intros (s1 & Hn%name_request_passes & Hr)%preprocess_cons.
  apply preprocess_cons in Hr as (? & [-> Hh]%check_host_passes & Hr).
  apply preprocess_cons in Hr as (s2 & Hl & Hr).
  apply preprocess_cons in Hr as (s3 & Hc%check_rate_limit_passes & Hr).
  apply preprocess_cons in Hr as (? & [-> He]%enforce_csrf_passes & Hr).
  apply preprocess_cons in Hr as (? & [-> Hq]%refuse_undeclared_passes & Hr).
  injection Hr as ->. exists s1, s2. done.
Qed.

(** The caller the view sees is the one the credential stands for. *)
Lemma reaches_view_standing r w s : reaches_view r w s →
  startswith STATIC_PREFIX (rq_path r) = true ∧ g_current_user (wb_g s) = None ∧
    g_auth_token_source (wb_g s) = None ∨
  ∃ g0, same_caller (MkWeb (identified (standing_of (w_now w) (w_db w) r) g0) w) s ∧
        authentication_answer r (standing_of (w_now w) (w_db w) r) = Ok None.
Proof.
  intros (s1 & s2 & Hs1 & _ & Hl & Hs2 & _)%reaches_view_steps.
  destruct Hs1 as [Hu _ _ Hsrc Hdb Hnow]. simpl in *.
  destruct (startswith STATIC_PREFIX (rq_path r)) eqn:Hp.
  - left. rewrite /load_current_user Hp in Hl. injection Hl as <-.
    rewrite (sc_user _ _ Hs2) (sc_source _ _ Hs2). by rewrite Hu Hsrc.
  - right. rewrite run_load_current_user // Hdb Hnow in Hl. injection Hl as Ha <-.
    exists (wb_g s1). split; [|done]. etrans; [|exact Hs2]. by constructor.
Qed.

(** C7: Whoever a view acts for presented a token this service signed for
    them: an access token, not expired, whose login still has a live session
    and whose account exists and is active; nothing else fills
    [g.current_user]. *)
Theorem acting_account_is_live r w s info :
  reaches_view r w s → g_current_user (wb_g s) = Some info →
  ∃ token source payload sid u row,
    credential r = Some (token, source) ∧ g_auth_token_source (wb_g s) = Some source ∧
    jwt_decode (w_now w) token = Some payload ∧ cl_type payload = ACCESS ∧
    cl_sid payload = Some sid ∧ row ∈ refresh_sessions (w_db w) ∧ rs_chain_id row = sid ∧
    rs_revoked_at row = None ∧ w_now w < rs_expires_at row ∧
    find_user_by_id (cl_sub payload) (w_db w) = Ok (Some u) ∧ user_is_active u = true ∧
    g_domain_user (wb_g s) = Some u ∧ info = current_user_info u ∧ cu_id info = cl_sub payload ∧
    (JwtLaws → w_now w < cl_exp payload).
Proof.
  intros [(_ & Hu & _)|(g0 & Hs & _)]%reaches_view_standing Hinfo; [by rewrite Hu in Hinfo|].
  destruct Hs as [Hu Hd _ Hsrc _ _]. simpl in *. rewrite Hinfo in Hu.
  destruct (standing_of _ _ r) as [|u sid source|source|e] eqn:Hst; try done.
  simpl in *. injection Hu as ->.
  apply standing_account in Hst as (token & payload & Hc & Hv & Hsid & _ & Hl & Hf & Ha).
  rewrite /validate_token in Hv. destruct (jwt_decode _ token) as [p|] eqn:Hj; [|done].
  case_decide as Ht; [|done]. injection Hv as ->.
  apply bool_decide_eq_true in Hl as [row Hrow]. apply first_filter_Some in Hrow as [Hrow (Hr1 & Hr2 & Hr3)].
  exists token, source, payload, sid, u, row. split_and!; try done; [by apply find_user_by_id_id in Hf|].
  intros Hlaws. by eapply jwt_expires.
Qed.

Lemma by_cookie_authenticated r g : has_auth_cookie r = true →
  (∃ e, rq_endpoint r = Some e ∧ e ∈ COOKIE_AUTHORITY_ENDPOINTS) ∨
  g_auth_token_source g ≠ Some AUTH_SOURCE_HEADER → is_cookie_authenticated r g = true.
Proof.
  intros Hc. rewrite /is_cookie_authenticated Hc. intros [(e & -> & He)|Hs].
  - by rewrite bool_decide_eq_true_2.
  - destruct (rq_endpoint r); [case_bool_decide; [done|]|]; by rewrite bool_decide_eq_false_2.
Qed.

(** C6: A write that reaches a view with the authority of a cookie stated an
    allowed origin ([Origin], or else [Referer]), if it stated one at all, and
    in either case echoed in a header the CSRF cookie, whose value the service signed for
    the very account the view acts as.  On the endpoints that read a cookie
    themselves the token is for the owner of the cookies, whoever a header
    says the caller is. *)
Theorem cookie_writes_carry_their_own_token r w s :
  reaches_view r w s → rq_method r ∉ SAFE_METHODS →
  (g_auth_token_source (wb_g s) = Some AUTH_SOURCE_COOKIE →
   ∃ u, g_current_user (wb_g s) = Some u ∧ csrf_shown (ws_csrf cfg) (w_now w) r (cu_id u)) ∧
  (∀ e, rq_endpoint r = Some e → e ∈ COOKIE_AUTHORITY_ENDPOINTS → has_auth_cookie r = true →
   ∃ uid, resolve_user_id (w_now w) r = Some uid ∧ csrf_shown (ws_csrf cfg) (w_now w) r uid).
Proof.
  intros Hreach Hm. pose proof Hreach as (s1 & s2 & Hs1 & _ & Hl & Hs2 & Hcsrf & _)%reaches_view_steps.
  specialize (Hcsrf Hm). apply reaches_view_standing in Hreach as [(Hp & _ & Hnone)|(g0 & Hs & _)].
  { rewrite Hnone. split; [done|]. intros e He Hin Hcook.
    destruct Hcsrf as (uid & Hr & _ & Hshown); [apply by_cookie_authenticated; eauto|].
    rewrite /load_current_user Hp in Hl. injection Hl as <-.
    rewrite (sc_now _ _ Hs2) (sc_now _ _ Hs1) in Hr, Hshown. eauto. }
  rewrite (sc_now _ _ Hs) in Hcsrf. simpl in Hcsrf. split.
  - rewrite (sc_source _ _ Hs) (sc_user _ _ Hs). intros Hsrc.
    destruct (standing_of _ _ r) as [|u sid source|source|e] eqn:Hst; try done.
    injection Hsrc as ->. apply cookie_account in Hst as [Hcook Hres].
    destruct Hcsrf as (uid & Hr & _ & Hshown).
    { apply by_cookie_authenticated; [done|]. right. rewrite (sc_source _ _ Hs) /=. done. }
    rewrite Hres in Hr. injection Hr as <-. eexists. split; [done|]. exact Hshown.
  - intros e He Hin Hcook.
    destruct Hcsrf as (uid & Hr & _ & Hshown); [apply by_cookie_authenticated; eauto|]. eauto.
Qed.

(** ** Tokens *)

(** [secrets.token_urlsafe]: a text of the URL-safe alphabet, not empty. *)
Definition urlsafe_nonces : Prop := ∀ n,
  token_urlsafe 16 n ≠ [] ∧ DOT ∉ token_urlsafe 16 n ∧ isascii (token_urlsafe 16 n) = true.

Lemma run_build_csrf_token csrf uid w :
  urlsafe_nonces → is_Some (utf8_encode (secret_key csrf)) → is_Some (utf8_encode uid) →
  0 <= unix_time (w_now w) < 2 ^ 64 →
  ∃ token, build_csrf_token csrf uid w = (Ok token, set_uuids (S (w_uuids w)) w) ∧
    csrf_token (secret_key csrf) uid (token_urlsafe 16 (w_uuids w)) (unix_time (w_now w)) = Ok token.
Proof.
  intros Hn Hk Hu Ht. destruct (Hn (w_uuids w)) as (_ & _ & Ha).
  destruct (csrf_token_ok _ _ _ _ Hk Hu Ha Ht) as [token Htok]. exists token. split; [|done].
  rewrite /build_csrf_token /mbind /M_bind /draw /now_utc /gets /lift /=. by rewrite Htok.
Qed.

(** A token handed to an account is accepted for that account for twelve
    hours, and refused from then on. *)
Theorem csrf_token_round_trip csrf uid w :
  urlsafe_nonces → is_Some (utf8_encode (secret_key csrf)) → is_Some (utf8_encode uid) →
  0 <= unix_time (w_now w) < 2 ^ 64 →
  ∃ token, (build_csrf_token csrf uid w).1 = Ok token ∧
    ∀ later, verify_csrf_token (secret_key csrf) later uid token =
      Ok (bool_decide (unix_time later - unix_time (w_now w) <= CSRF_TOKEN_TTL_SECONDS)).
Proof.
  intros Hn Hk Hu Ht. destruct (run_build_csrf_token csrf uid w) as (token & -> & Htok); [done..|].
  exists token. split; [done|]. intros later. destruct (Hn (w_uuids w)) as (Hne & Hd & _).
  case_bool_decide as Hage; [apply (minted_verifies _ _ _ _ _ _ Htok)|apply (minted_expires _ _ _ _ _ _ Htok)];
    try done; lia.
Qed.

(** One token is good for one account: two accounts a token verifies for
    are the same, or HMAC-SHA256 under the service's key maps two different
    messages to one value. *)
Theorem a_token_is_for_one_account key now now' u u' token :
  is_text u → is_text u' →
  verify_csrf_token key now u token = Ok true → verify_csrf_token key now' u' token = Ok true →
  u = u' ∨ ∃ k m m', utf8_encode key = Some k ∧ m ≠ m' ∧ hmac_sha256 k m = hmac_sha256 k m'.
Proof. apply token_of_two. Qed.

(** A cookie session is never stranded without a token: after an answer
    that does not itself decide the cookie's fate, either the CSRF cookie the
    request came with is good for its account, or the answer sets one that
    is, for the next twelve hours. *)
Theorem cookie_sessions_recover csrf r response s uid :
  urlsafe_nonces → is_Some (utf8_encode (secret_key csrf)) → is_Some (utf8_encode uid) →
  0 <= unix_time (w_now (wb_world s)) < 2 ^ 64 →
  startswith STATIC_PREFIX (rq_path r) = false → sets_csrf response = false →
  has_auth_cookie r = true → uid ≠ [] → resolve_user_id (w_now (wb_world s)) r = Some uid →
  (∀ old, cookie "csrf_token" r = Some old →
     is_ok (verify_csrf_token (secret_key csrf) (w_now (wb_world s)) uid old)) →
  ∃ response' s', issue_csrf_cookie csrf r response s = (Ok response', s') ∧
    ((response' = response ∧ ∃ old, cookie "csrf_token" r = Some old ∧
        verify_csrf_token (secret_key csrf) (w_now (wb_world s)) uid old = Ok true) ∨
     ∃ token, response' = set_csrf_cookie csrf token response ∧
        ∀ later, unix_time later - unix_time (w_now (wb_world s)) <= CSRF_TOKEN_TTL_SECONDS →
          verify_csrf_token (secret_key csrf) later uid token = Ok true).
Proof.
  intros Hn Hk Hu Ht Hp Hset Hcook Hne Hres Hold.
  rewrite /issue_csrf_cookie /response_hook /hand_out_csrf_cookie Hp Hset Hcook /try_except /=.
  rewrite bind_now Hres. assert (truthy (Some uid) = Some uid) as -> by (by destruct uid).
  destruct (run_build_csrf_token csrf uid (wb_world s)) as (token & Hrun & Htok); [done..|].
  assert (in_world (build_csrf_token csrf uid) s =
          (Ok token, MkWeb (wb_g s) (set_uuids (S (w_uuids (wb_world s))) (wb_world s)))) as Hbuild
    by (by rewrite /in_world Hrun).
  assert (∀ later, unix_time later - unix_time (w_now (wb_world s)) <= CSRF_TOKEN_TTL_SECONDS →
    verify_csrf_token (secret_key csrf) later uid token = Ok true) as Hgood.
  { intros later Hlater. destruct (Hn (w_uuids (wb_world s))) as (Hx & Hd & _).
    apply (minted_verifies _ _ _ _ _ _ Htok); try done; lia. }
  destruct (truthy (cookie "csrf_token" r)) as [old|] eqn:Hck.
  - apply truthy_Some in Hck as [Hck _]. specialize (Hold old Hck). rewrite bind_attempt.
    destruct (verify_csrf_token _ _ uid old) as [[|]|] eqn:Hv; [by eauto 10| |done].
    rewrite (bind_ok _ _ _ _ _ Hbuild) /=. eauto 10.
  - rewrite bind_ret_l (bind_ok _ _ _ _ _ Hbuild) /=. eauto 10.
Qed.

(** ** Who is counted *)



(** ** Limits *)

Lemma limit_pair_ok v : is_limit_pair v = true → ∃ l p, limit_pair v = Ok (l, p) ∧ 0 < l ∧ 0 < p.
Proof.
  destruct v as [parts|]; [|done]. rewrite /is_limit_pair /len. intros [Hl%Z.eqb_eq Hp]%andb_true_iff.
  destruct parts as [|a [|b [|??]]]; cbn [length] in Hl; try lia.
  simpl in Hp. apply andb_true_iff in Hp as [Ha Hb]. destruct a as [l| |]; try done.
  destruct b as [p| |]; try done. exists l, p. split; [done|]. simpl in Ha, Hb. lia.
Qed.

Lemma forallb_false {A} (p : A → bool) l : forallb p l = false → ∃ x, x ∈ l ∧ p x = false.
Proof.
  induction l as [|a l IH]; simpl; [done|]. destruct (p a) eqn:Ha.
  - intros (x & Hx & Hpx)%IH. exists x. split; [by right|done].
  - intros _. exists a. split; [by left|done].
Qed.

Lemma fault_of_none rules endpoint v : fault_of rules endpoint v = None →
  is_limit_pair v = true ∧ endpoint ∉ EXEMPT_ENDPOINTS ∧
  ∃ ru, ru ∈ rules ∧ ru_endpoint ru = endpoint ∧ startswith STATIC_PREFIX (ru_rule ru) = false.
Proof.
  rewrite /fault_of. destruct (paths_of rules endpoint) as [|p ps] eqn:Hp; [done|].
  case_bool_decide as Hx; [done|]. destruct (forallb _ _) eqn:Hs; [done|].
  destruct (is_limit_pair v); [|done]. intros _. split; [done|]. split; [done|].
  apply forallb_false in Hs as (path & Hin & Hpath). rewrite -Hp in Hin.
  apply list_elem_of_fmap in Hin as (ru & -> & [Hru Hin]%list_elem_of_filter). eauto.
Qed.

(** C37: Limits that pass the check at start-up are limits: whatever endpoint
    a request is for, the middleware reads a pair of positive integers, and
    each configured entry names a route that is really throttled. *)
Theorem checked_limits_are_pairs (throttle : ThrottleSettings) rules entries r :
  check_rate_limit_targets rules (Some entries) = Ok tt →
  rate_limits throttle = list_to_map entries →
  0 < default_limit throttle → 0 < default_period throttle →
  (∃ limit period, limit_for throttle r = Ok (limit, period) ∧ 0 < limit ∧ 0 < period) ∧
  (∀ endpoint v, (endpoint, v) ∈ entries → endpoint ∉ EXEMPT_ENDPOINTS ∧
     ∃ ru, ru ∈ rules ∧ ru_endpoint ru = endpoint ∧ startswith STATIC_PREFIX (ru_rule ru) = false).
Proof.
  intros Hchk Hmap Hl Hp.
  assert (∀ endpoint v, (endpoint, v) ∈ entries → fault_of rules endpoint v = None) as Hall.
  { intros endpoint v Hin. simpl in Hchk.
    destruct (omap _ entries) as [|f fs] eqn:Ho; [|done].
    destruct (fault_of rules endpoint v) as [f|] eqn:Hf; [|done].
    assert (f ∈ omap (λ '(endpoint, limit), fault_of rules endpoint limit) entries) as Hbad
      by (apply list_elem_of_omap; eauto).
    rewrite Ho in Hbad. by inversion Hbad. }
  split; [|intros endpoint v Hin; by apply (fault_of_none _ _ v), Hall].
  rewrite /limit_for Hmap. destruct (rq_endpoint r ≫= _) as [v|] eqn:Hv; [|by eauto].
  apply bind_Some in Hv as (e & _ & Hv%elem_of_list_to_map_2). by apply limit_pair_ok, (fault_of_none rules e), Hall.
Qed.

(** Two callers never draw on one budget: requests counted under one key
    are for the same endpoint and from the same caller, and two accounts are
    two callers. *)
Theorem callers_are_counted_apart proxies r g r' g' e e' :
  rq_endpoint r = Some e → rq_endpoint r' = Some e' → COLON ∉ e → COLON ∉ e' →
  throttle_key proxies r g = throttle_key proxies r' g' →
  e = e' ∧ client_id proxies r g = client_id proxies r' g' ∧
  ∀ u u', g_current_user g = Some u → g_current_user g' = Some u' → cu_id u = cu_id u'.
Proof.
  intros He He' Hc Hc'. rewrite /throttle_key He He' /=. intros Hkey.
  pose proof (rpartition_at_app COLON (client_id proxies r g) e Hc) as Hs.
  rewrite Hkey rpartition_at_app // in Hs. injection Hs as Hid ->.
  split_and!; [done|done|]. intros u u' Hu Hu'. rewrite /client_id Hu Hu' in Hid.
  by apply app_inv_head in Hid.
Qed.

(** ** Errors *)

(** The status a failure is answered with. *)
Definition failure_status (f : failure) : Z :=
  match f with
  | HTTPException code _ _ => code
  | MethodNotAllowed _ => 405
  | PydanticValidationError _ => 400
  | Raised e =>
      match exn_code e with
      | None => 500
      | Some code => if is_validation_error e then default 400 (status_of code) else status_for code
      end
  end.

(** What the reader is told. *)
Definition message_of (a : Response) : option sentence :=
  match rs_body a with
  | ErrorBody e _ => Some (er_message e)
  | ErrorPage m _ => Some m
  | _ => None
  end.

(** What a failure leaves in the audit log. *)
Definition refusal_record (f : failure) : list audit_event :=
  match f with
  | Raised (PermissionDeniedError required exceeded) => [PermissionDenied required exceeded]
  | _ => []
  end.

(** The sentences of the error handlers: constants, into which nothing of an
    error goes. *)
Definition FIXED_SENTENCES : list pystr :=
  (lit <$> ["Page not found"; "Resource not found"; "Method not allowed";
            "Method %(method)s not allowed"; "Bad request"; "Malformed request body";
            "Request validation failed"; "Link not found"; "Internal server error";
            "An internal error occurred"]%string) ++ (lit ∘ snd <$> HTTP_SENTENCES).

(** What the answer to a failure may say: one of the fixed sentences, with at
    most the request's own method in it; the words of a domain error, if its
    status is below 500 or its code is one worded for the client; or the
    description of an HTTP error of the framework for which there is no
    sentence.  An exception of any other kind is never put into words. *)
Definition may_be_told (r : Request) (f : failure) (m : sentence) : Prop :=
  match m with
  | Gettext text params =>
      text ∈ FIXED_SENTENCES ∧ (params = [] ∨ params = [(lit "method", rq_method r)])
  | TranslateError e =>
      f = Raised e ∧ is_domain_error e = true ∧
      (failure_status f < 500 ∨ code_of e ∈ CODES_WORDED_FOR_THE_CLIENT)
  | Plain text => ∃ code name, f = HTTPException code name text ∧
      code ∉ 404 :: 400 :: HTTP_SENTENCES.*1
  | Ngettext _ _ _ _ => False
  end.

(** The particulars of an answer, field by field. *)
Definition details_of (a : Response) : option (list ErrorDetail) :=
  match rs_body a with ErrorBody e _ => er_details e | _ => None end.

Definition answered r (f : failure) s (a : Response) s' : Prop :=
  status_code a = failure_status f ∧ (∃ m, message_of a = Some m ∧ may_be_told r f m) ∧
  (500 <= failure_status f → details_of a = None) ∧
  w_db (wb_world s') = w_db (wb_world s) ∧ wb_g s' = wb_g s ∧
  w_audit (wb_world s') = w_audit (wb_world s) ++ refusal_record f.

Lemma run_page_or_envelope r code m m' status s :
  ∃ a, page_or_envelope r code m m' status s = (Ok a, s) ∧ status_code a = status ∧
       details_of a = None ∧ (message_of a = Some m ∨ message_of a = Some m').
Proof.
  rewrite /page_or_envelope /error_response. destruct (wants_html r); [eexists; split; [done|]; by eauto|].
  rewrite bind_now. eexists. split; [done|]. by eauto.
Qed.

Lemma answered_plainly r code m m' status f s :
  failure_status f = status → refusal_record f = [] → may_be_told r f m → may_be_told r f m' →
  ∃ a s', page_or_envelope r code m m' status s = (Ok a, s') ∧ answered r f s a s'.
Proof.
  intros Hst Hr Hm Hm'. destruct (run_page_or_envelope r code m m' status s) as (a & -> & Ha & Hd & Hma).
  exists a, s. split; [done|]. rewrite /answered Hr app_nil_r Ha Hst. split_and!; try done.
  destruct Hma; eauto.
Qed.

(** A fixed sentence: found in the list by evaluation. *)
Lemma told_fixed r f (text : string) : bool_decide (lit text ∈ FIXED_SENTENCES) = true →
  may_be_told r f (gettext text).
Proof. intros Hin%bool_decide_eq_true. split; [done|by left]. Qed.
Ltac fixed := apply told_fixed; vm_compute; reflexivity.

Lemma told_by_client_message r e : is_domain_error e = true → is_validation_error e = false →
  may_be_told r (Raised e) (client_message e).
Proof.
  intros Hd Hv. rewrite /client_message. destruct (_ && _) eqn:Hc; [fixed|].
  split; [done|]. split; [done|]. simpl. rewrite Hv. apply andb_false_iff in Hc as [Hc|Hc].
  - left. apply Z.leb_gt in Hc. rewrite /code_of in Hc. destruct (exn_code e) eqn:He; [done|]. by destruct e.
  - right. apply bool_decide_eq_false in Hc. by apply dec_stable.
Qed.

Lemma run_domain_error r e s : is_domain_error e = true → is_validation_error e = false →
  ∃ a s', handle_domain_error r e s = (Ok a, s') ∧ answered r (Raised e) s a s'.
Proof.
  intros Hd Hv. rewrite /handle_domain_error.
  assert (record_refusal e s = (Ok tt, MkWeb (wb_g s)
    (match refusal_record (Raised e) with [x] => add_audit x (wb_world s) | _ => wb_world s end))) as Hrec
    by (destruct s, e; done).
  rewrite (bind_ok _ _ _ _ _ Hrec). set (s1 := MkWeb _ _).
  assert (∀ a, status_code a = status_for (code_of e) → message_of a = Some (client_message e) →
          details_of a = None → answered r (Raised e) s a s1) as Hans.
  { intros a Hst Hm Hdt. rewrite /answered Hst. split_and!; try done.
    - rewrite /= Hv /code_of. destruct (exn_code e) eqn:He; [done|]. by destruct e.
    - exists (client_message e). split; [done|]. by apply told_by_client_message.
    - by destruct e.
    - destruct e; rewrite /s1 /= ?app_nil_r; done. }
  destruct (wants_html r); [by eexists _, _; split; [done|]; apply Hans|].
  rewrite /error_response. rewrite /mbind /M_bind run_now.
  eexists _, _. split; [done|]. apply Hans; by destruct (retry_after_seconds e).
Qed.

Lemma told_if_client_error r e : is_domain_error e = true → failure_status (Raised e) < 500 →
  may_be_told r (Raised e) (TranslateError e).
Proof. intros Hd Hs. split; [done|]. split; [done|]. by left. Qed.

Lemma run_validation_error r e s : is_validation_error e = true →
  ∃ a s', handle_domain_validation e s = (Ok a, s') ∧ answered r (Raised e) s a s'.
Proof.
  intros Hv. rewrite /handle_domain_validation /envelope_with bind_now. eexists _, _. split; [done|].
  rewrite /answered. destruct e; try done; (split_and!; try done; [|by rewrite /= app_nil_r]);
    eexists; (split; [done|]); by apply told_if_client_error.
Qed.

Lemma run_method_not_allowed r methods s :
  ∃ a s', handle_method_not_allowed r methods s = (Ok a, s') ∧ answered r (MethodNotAllowed methods) s a s'.
Proof.
  rewrite /handle_method_not_allowed.
  destruct (answered_plainly r (lit "METHOD_NOT_ALLOWED") (gettext "Method not allowed")
    (Gettext (lit "Method %(method)s not allowed") [(lit "method", rq_method r)]) 405
    (MethodNotAllowed methods) s) as (a & s' & Hrun & Hans); [done|done|fixed| |].
  { split; [apply (bool_decide_unpack _); vm_compute; exact I|by right]. }
  rewrite (bind_ok _ _ _ _ _ Hrun). eexists _, _. split; [done|]. by destruct (sorted methods).
Qed.

Lemma told_sentence r code name descr : code ≠ 404 → code ≠ 400 →
  may_be_told r (HTTPException code name descr) (sentence_for code descr).
Proof.
  intros H404 H400. rewrite /sentence_for.
  destruct (first (filter (λ e, e.1 = code) HTTP_SENTENCES)) as [[c text]|] eqn:Hf.
  - apply first_filter_Some in Hf as [Hin _]. split; [|by left]. apply elem_of_app. right.
    apply list_elem_of_fmap. by exists (c, text).
  - exists code, name. split; [done|].
    intros [?|[?|([c text] & -> & Hin)%list_elem_of_fmap]%elem_of_cons]%elem_of_cons; [done|done|].
    by apply (proj1 (first_filter_None (λ e, e.1 = c) HTTP_SENTENCES) Hf (c, text)).
Qed.

Lemma run_handle_error r f s :
  ∃ a s', handle_error r f s = (Ok a, s') ∧ answered r f s a s'.
Proof.
  destruct f as [e|code name descr|methods|errors]; [|simpl..].
  - rewrite /handle_error. destruct (is_domain_error e) eqn:Hd; simpl.
    + destruct (is_validation_error e) eqn:Hv; [by apply run_validation_error|].
      destruct e; try (by apply run_domain_error).
      apply answered_plainly; [done|done|fixed|by apply told_if_client_error].
    + destruct e; try done. apply answered_plainly; [done|done|fixed|fixed].
  - destruct (Z.eqb_spec code 404) as [->|]; [apply answered_plainly; [done|done|fixed|fixed]|].
    destruct (Z.eqb_spec code 400) as [->|]; [apply answered_plainly; [done|done|fixed|fixed]|].
    by apply answered_plainly; try apply told_sentence.
  - apply run_method_not_allowed.
  - rewrite /handle_pydantic_validation /envelope_with bind_now. eexists _, _. split; [done|].
    rewrite /answered /= app_nil_r. split_and!; try done. eexists. split; [done|]. fixed.
Qed.

(** C25: Every failure of a hook or of a view is answered, with the status its
    code is given, and says nothing it should not.  The message is one of the
    handlers' fixed sentences; or the words of a domain error whose status is
    below 500 or whose code is one worded for the client; or, for an HTTP
    error the framework raised and the handlers have no sentence for, the
    framework's description of it.  So an unexpected exception, and an error
    of the service itself, is answered by a fixed sentence only, and an
    answer of 500 and above carries no particulars.  A refused permission is
    recorded once, with what was required, and nothing else is recorded or
    written. *)
Theorem failures_are_answered_discreetly r f s :
  ∃ a s', handle_error r f s = (Ok a, s') ∧ answered r f s a s'.
Proof. apply run_handle_error. Qed.

(** ** The whole answer *)

Lemma run_dispatch r view w : ∃ a s, dispatch cfg page_renders r view (MkWeb empty_g w) = (Ok a, s).
Proof.
  rewrite /dispatch /try_except.
  destruct ((preprocess _ ≫= _) (MkWeb empty_g w)) as [[a|f] s]; [by eauto|].
  destruct (run_handle_error r f s) as (a & s' & -> & _). eauto.
Qed.

Lemma run_process_response r a s :
  ∃ a' s', process_response cfg r a s = (Ok a', s') ∧ wb_g s' = wb_g s ∧
    w_db (wb_world s') = w_db (wb_world s) ∧ (∀ name, name ∈ PROTECTIVE → is_Some (get_header name a')) ∧
    (g_current_user (wb_g s) ≠ None → rq_endpoint r ≠ Some (lit "static") →
     get_header "Cache-Control" a' = Some (lit "no-store")).
Proof.
  rewrite /process_response bind_g.
  destruct (run_issue_csrf_cookie (ws_csrf cfg) r (mark_private r (wb_g s) a) s)
    as (a1 & s1 & Hrun1 & Hh1 & _ & Hg1 & Hd1 & _).
  rewrite (bind_ok _ _ _ _ _ Hrun1).
  destruct (run_rate_limit_headers a1 s1) as (a2 & Hrun2 & _ & Hc2).
  rewrite (bind_ok _ _ _ _ _ Hrun2). eexists _, _. split; [done|]. split_and!; [done|done| |].
  - intros name Hn. by apply add_headers_protects.
  - intros Hu He. apply add_headers_keeps. rewrite Hc2 /get_header Hh1.
    by apply (mark_private_no_store r (wb_g s) a).
Qed.

(** C24: Every request is answered, whatever the hooks and the view do; the
    answer carries the protective headers, and one drawn for a signed-in
    caller tells every cache not to store it. *)
Theorem every_request_is_answered r view w :
  ∃ a s, serve cfg page_renders r view w = (Ok a, s) ∧
    (∀ name, name ∈ PROTECTIVE → is_Some (get_header name a)) ∧
    (g_current_user (wb_g s) ≠ None → rq_endpoint r ≠ Some (lit "static") →
     get_header "Cache-Control" a = Some (lit "no-store")).
Proof.
  rewrite /serve /handle_request. destruct (run_dispatch r view w) as (a & s & Hrun).
  rewrite (bind_ok _ _ _ _ _ Hrun).
  destruct (run_process_response r a s) as (a' & s' & -> & Hg & _ & Hp & Hc).
  exists a', s'. rewrite Hg. done.
Qed.

(** ** What the hooks leave alone *)

Definition keeps_db {A} (m : M (Web C) failure A) : Prop := ∀ s,
  w_db (wb_world (m s).2) = w_db (wb_world s).

Lemma keeps_ret {A} (a : A) : keeps_db (mret a).
Proof. done. Qed.
Lemma keeps_raise {A} (f : failure) : keeps_db (A := A) (raise f).
Proof. done. Qed.
Lemma keeps_g f : keeps_db (modify_g f).
Proof. done. Qed.
Lemma keeps_get_g : keeps_db get_g.
Proof. done. Qed.
Lemma keeps_bind {A B} (m : M (Web C) failure A) (k : A → M (Web C) failure B) :
  keeps_db m → (∀ a, keeps_db (k a)) → keeps_db (m ≫= k).
Proof.
  intros Hm Hk s. rewrite /mbind /M_bind. specialize (Hm s). destruct (m s) as [[a|f] s']; [|done].
  simpl in *. by rewrite Hk.
Qed.
Lemma keeps_try {A} (m : M (Web C) failure A) h : keeps_db m → (∀ f, keeps_db (h f)) → keeps_db (try_except m h).
Proof.
  intros Hm Hh s. rewrite /try_except. specialize (Hm s). destruct (m s) as [[a|f] s']; [done|].
  simpl in *. by rewrite Hh.
Qed.
Lemma keeps_in_world {A} (m : M (World C) exn A) : (∀ w, w_db (m w).2 = w_db w) → keeps_db (in_world m).
Proof. intros Hm s. rewrite /in_world. specialize (Hm (wb_world s)). by destruct (m (wb_world s)) as [[a|e] w]. Qed.
Lemma keeps_attempt {A} (x : result exn A) : keeps_db (attempt x).
Proof. by apply keeps_in_world. Qed.
Lemma keeps_now : keeps_db (in_world now_utc).
Proof. by apply keeps_in_world. Qed.

Ltac keeps := repeat first
  [ apply keeps_ret | apply keeps_raise | apply keeps_g | apply keeps_get_g | apply keeps_attempt
  | apply keeps_now | apply keeps_bind; [|intros ?] | apply keeps_try; [|intros ?] | case_match
  | progress cbv zeta ].

Lemma hooks_keep_db r : Forall keeps_db (before_request cfg page_renders r).
Proof.
  rewrite /before_request. repeat constructor.
  - rewrite /name_request. keeps.
  - rewrite /check_host. keeps.
  - rewrite /load_current_user /load_account /anonymous /reject. keeps.
    apply keeps_in_world. intros w. by rewrite run_live_account.
  - rewrite /check_rate_limit /too_many. keeps. apply keeps_in_world. intros w. rewrite /with_cache.
    by destruct (limiter_check _ _ _ _ _).
  - rewrite /enforce_csrf /refuse /error_response. keeps.
  - rewrite /refuse_undeclared_query_parameters. keeps.
Qed.

Lemma preprocess_keeps_db hooks : Forall keeps_db hooks → keeps_db (preprocess hooks).
Proof. induction 1 as [|hook hooks Hh _ IH]; simpl; keeps; done. Qed.

(** How the dispatch ends when a hook has answered or raised. *)
Lemma dispatch_turned_away r w x s : (∀ y, x ≠ Ok y ∨ is_Some y) →
  preprocess (before_request cfg page_renders r) (MkWeb empty_g w) = (x, s) →
  ∃ a s', (∀ view, dispatch cfg page_renders r view (MkWeb empty_g w) = (Ok a, s')) ∧
          w_db (wb_world s') = w_db (wb_world s).
Proof.
  intros Hx Hpre. destruct x as [[a|]|f]; [| |].
  - exists a, s. split; [|done]. intros view. by rewrite /dispatch /try_except (bind_ok _ _ _ _ _ Hpre).
  - destruct (Hx None) as [[]|[]]; done.
  - destruct (run_handle_error r f s) as (a & s' & Hrun & _ & _ & _ & Hd & _). exists a, s'. split; [|done].
    intros view. by rewrite /dispatch /try_except (bind_err _ _ _ _ _ Hpre).
Qed.

(** A request the hooks turn away never reaches its view: the answer and
    the state after it do not depend on the view, and nothing stored in the
    database has changed. *)
Theorem turned_away_requests_do_nothing r w view view' :
  (∀ s, ¬ reaches_view r w s) →
  serve cfg page_renders r view w = serve cfg page_renders r view' w ∧
  w_db (wb_world (serve cfg page_renders r view w).2) = w_db w.
Proof.
  intros Hno. pose proof (preprocess_keeps_db _ (hooks_keep_db r) (MkWeb empty_g w)) as Hdb.
  destruct (preprocess (before_request cfg page_renders r) (MkWeb empty_g w)) as [x s] eqn:Hpre.
  destruct (dispatch_turned_away r w x s) as (a & s' & Hrun & Hd).
  { intros [y|]; [by right|]. left. intros ->. by destruct (Hno s). }
  { done. }
  rewrite /serve /handle_request !(bind_ok _ _ _ _ _ (Hrun _)). split; [done|].
  destruct (run_process_response r a s') as (a' & s'' & -> & _ & Hd' & _). simpl in *. congruence.
Qed.

(** A request that reaches a view was sent for a host this deployment
    claims, and asks with declared parameters only. *)
Theorem views_see_vetted_requests r w s :
  reaches_view r w s →
  (normalise_all (ws_allowed_hosts cfg) ≠ [] →
   normalise_host (rq_host r) ∈ normalise_all (ws_allowed_hosts cfg)) ∧
  declared_query (ws_documented cfg) (ws_rules cfg) r.
Proof. by intros (s1 & s2 & _ & Hh & _ & _ & _ & Hq)%reaches_view_steps. Qed.
End claims.

(** ** A small service *)

Module WebDemo.
Instance folding : CaseFolding := fmap ascii_lower.
Instance compatibility : Nfkc := λ s, s.
Instance uuids : UuidSupply := λ n, repeat 48 (S n).
Instance secrets : SecretTokens := λ _ n, repeat 65 (S n).
Instance digits : DecimalDigits := λ _, None.
Instance limiter : LimiterCheck Storage := λ now key limit period c, rl_check now key limit period c.
(** The tokens [a] and [r] are those of the account [u1]. *)
Instance codec : TokenCodec := {|
  jwt_encode _ := [];
  jwt_decode _ t :=
    if decide (t = lit "a") then Some (MkClaims (lit "u1") [] 0 0 ACCESS None (Some (lit "chain")))
    else if decide (t = lit "r") then Some (MkClaims (lit "u1") [] 0 0 REFRESH (Some (lit "jti")) None)
    else None;
|}.

Definition start : Z := 1700000000 * SECOND.
Definition account : UserModel :=
  MkUserModel (lit "u1") (lit "jo@a.org") (lit "hash") [] true true 0 None.
Definition login : RefreshSession :=
  MkRefreshSession (lit "s1") (lit "u1") (lit "jti") (lit "chain") (start + HOUR) start None None.
Definition db : Database := MkDatabase [] [account] [] [] [login] [] [] [] [].
Definition world : World Storage := MkWorld db None ∅ start 3 [] [] None.

Definition csrf : CsrfSettings := MkCsrfSettings (lit "key") true [lit "https://maiz.link"].
Definition rule : Rule := MkRule (lit "/api/v1/links") (lit "api.create_link") [lit "POST"].
Definition entries : list (pystr * limit_value) :=
  [(lit "api.create_link", LimitSequence [PartInt 5; PartInt 60])].
Definition throttle : ThrottleSettings :=
  MkThrottleSettings FALLBACK_LIMIT FALLBACK_PERIOD (list_to_map entries) false.
Definition settings : WebSettings :=
  MkWebSettings [lit "10.0.0.1"] [lit "maiz.link"] csrf throttle true 3600 ∅ [rule].
Definition renders (_ : Request) : bool := true.

Definition token : pystr := match csrf_token (lit "key") (lit "u1") (lit "n") 1700000000 with Ok t => t | Err _ => [] end.

(** A form of the dashboard posts with the two cookies. *)
Definition write : Request :=
  MkRequest (lit "POST") (lit "/api/v1/links") (lit "maiz.link") (Some (lit "api.create_link"))
    (Some (lit "/api/v1/links")) (Some (lit "203.0.113.5"))
    [(lit "Origin", lit "https://maiz.link"); (lit "X-CSRF-Token", token)]
    [(lit "access_token", lit "a"); (lit "csrf_token", token)] [] NotJson.
Definition after : Web Storage :=
  (preprocess (before_request settings renders write) (MkWeb empty_g world)).2.

Lemma write_reaches : reaches_view settings renders write world after.
Proof. rewrite /reaches_view /after. apply injective_projections; [vm_compute; reflexivity|reflexivity]. Qed.

Lemma signed_in : is_Some (g_current_user (wb_g after)).
Proof. vm_compute. eauto. Qed.

Lemma acting_account_is_live_witness : ∃ info row, g_current_user (wb_g after) = Some info ∧
  row ∈ refresh_sessions db ∧ start < rs_expires_at row.
Proof.
  destruct signed_in as [info Hinfo].
  destruct (acting_account_is_live settings renders write world after info write_reaches Hinfo)
    as (t & src & p & sid & u & row & _ & _ & _ & _ & _ & Hrow & _ & _ & Hlive & _).
  exists info, row. split; [exact Hinfo|]. split; [exact Hrow|exact Hlive].
Defined.

Lemma by_cookie : g_auth_token_source (wb_g after) = Some AUTH_SOURCE_COOKIE.
Proof. vm_compute. reflexivity. Qed.
Lemma post_is_unsafe : rq_method write ∉ SAFE_METHODS.
Proof. vm_compute. intros Hin. repeat (apply elem_of_cons in Hin as [Hin|Hin]; [discriminate|]). by inversion Hin. Qed.

Lemma cookie_writes_carry_their_own_token_witness :
  ∃ u, g_current_user (wb_g after) = Some u ∧ csrf_shown csrf start write (cu_id u).
Proof.
  apply (cookie_writes_carry_their_own_token settings renders write world after
           write_reaches post_is_unsafe). exact by_cookie.
Defined.

Lemma nonces : urlsafe_nonces.
Proof.
  intros n. rewrite /token_urlsafe /secrets. split_and!; [done| |].
  - intros Hin%list_elem_of_In%repeat_spec. discriminate Hin.
  - apply forallb_forall. by intros c ->%repeat_spec.
Qed.

Lemma csrf_token_round_trip_witness : ∃ t, (build_csrf_token csrf (lit "u1") world).1 = Ok t ∧
  verify_csrf_token (lit "key") (start + 12 * HOUR) (lit "u1") t = Ok true ∧
  verify_csrf_token (lit "key") (start + 13 * HOUR) (lit "u1") t = Ok false.
Proof.
  destruct (csrf_token_round_trip csrf (lit "u1") world nonces) as (t & Ht & Hv);
    [eexists; reflexivity|eexists; reflexivity|vm_compute; split; congruence|].
  exists t. split; [exact Ht|]. split; [exact (Hv _)|exact (Hv _)].
Defined.

Lemma token_good : verify_csrf_token (lit "key") start (lit "u1") token = Ok true.
Proof. vm_compute. reflexivity. Qed.

Lemma a_token_is_for_one_account_witness : lit "u1" = lit "u1" ∨
  ∃ k m m', utf8_encode (lit "key") = Some k ∧ m ≠ m' ∧ hmac_sha256 k m = hmac_sha256 k m'.
Proof.
  apply (a_token_is_for_one_account (lit "key") start start (lit "u1") (lit "u1") token);
    [repeat constructor; discriminate|repeat constructor; discriminate|exact token_good|exact token_good].
Defined.

(** The same session before it has a CSRF cookie. *)
Definition page : Request :=
  MkRequest (lit "GET") (lit "/dashboard") (lit "maiz.link") (Some (lit "dashboard.index"))
    (Some (lit "/dashboard")) (Some (lit "203.0.113.5")) [] [(lit "access_token", lit "a")] [] NotJson.
Definition html : Response := MkResponse 200 [] [] [] (TextBody (lit "text/html") []).

Lemma cookie_sessions_recover_witness : ∃ t a s,
  issue_csrf_cookie csrf page html (MkWeb empty_g world) = (Ok a, s) ∧ a = set_csrf_cookie csrf t html.
Proof.
  destruct (cookie_sessions_recover csrf page html (MkWeb empty_g world) (lit "u1") nonces)
    as (a & s & Hrun & [(_ & old & Hold & _)|(t & Ha & _)]);
    [eexists; reflexivity|eexists; reflexivity|vm_compute; split; congruence|reflexivity|reflexivity
    |reflexivity|discriminate|reflexivity|discriminate|discriminate|].
  exists t, a, s. split; [exact Hrun|exact Ha].
Defined.

Lemma checked_limits_are_pairs_witness :
  ∃ limit period, limit_for throttle write = Ok (limit, period) ∧ 0 < limit ∧ 0 < period.
Proof.
  apply (checked_limits_are_pairs throttle [rule] entries write); reflexivity.
Defined.

Lemma callers_are_counted_apart_witness :
  client_id [lit "10.0.0.1"] write empty_g = client_id [lit "10.0.0.1"] write empty_g.
Proof.
  apply (callers_are_counted_apart [lit "10.0.0.1"] write empty_g write empty_g
           (lit "api.create_link") (lit "api.create_link")); try reflexivity;
    intros Hin%has_char_spec; discriminate Hin.
Defined.

(** A form another site made the browser post. *)
Definition forged : Request :=
  MkRequest (lit "POST") (lit "/api/v1/links") (lit "maiz.link") (Some (lit "api.create_link"))
    (Some (lit "/api/v1/links")) (Some (lit "203.0.113.5")) [(lit "Origin", lit "https://evil.example")]
    [(lit "access_token", lit "a")] [] NotJson.

Lemma forged_stops s : ¬ reaches_view settings renders forged world s.
Proof.
  intros Hs. apply (f_equal fst) in Hs. cbn [fst] in Hs.
  assert (∃ a, (preprocess (before_request settings renders forged) (MkWeb empty_g world)).1 = Ok (Some a))
    as [a Ha] by (vm_compute; eauto).
  rewrite Ha in Hs. discriminate Hs.
Qed.

Lemma turned_away_requests_do_nothing_witness :
  w_db (wb_world (serve settings renders forged (mret html) world).2) = db.
Proof.
  apply (turned_away_requests_do_nothing settings renders forged world (mret html) (mret html)).
  exact forged_stops.
Defined.

Lemma views_see_vetted_requests_witness : declared_query ∅ [rule] write.
Proof. apply (views_see_vetted_requests settings renders write world after write_reaches). Defined.


(** The same write with a [Referer] no URL has: the check does not refuse it,
    [urlparse] raises, and the answer is that of an internal error. *)
Definition broken_referer : Request :=
  MkRequest (lit "POST") (lit "/api/v1/links") (lit "maiz.link") (Some (lit "api.create_link"))
    (Some (lit "/api/v1/links")) (Some (lit "203.0.113.5")) [(lit "Referer", lit "http://[")]
    [(lit "access_token", lit "a")] [] NotJson.

Theorem malformed_referer_answers_500 :
  enforce_csrf csrf broken_referer (MkWeb empty_g world) =
    (Err (Raised (PyError ValueError)), MkWeb empty_g world) ∧
  (∃ a, (serve settings renders broken_referer (mret html) world).1 = Ok a ∧ status_code a = 500) ∧
  (∃ a, (serve settings renders forged (mret html) world).1 = Ok a ∧ status_code a = 403).
Proof. split; [vm_compute; reflexivity|]. split; vm_compute; eauto. Qed.
End WebDemo.
