(* ===== verification/AuthViewClaims.v ===== *)
(** * Signing in and out over HTTP

    The views of [AuthViews] with the hooks of [WebApp]: the cookies of a
    sign-in carry the browser's next write past authentication and the CSRF
    check, and a sign-out ends what they were good for. *)

From S2P Require Import Prelude PyStr Utf8 Json Exceptions ValueObjects Entities Policies IpAddress Sha256 UrlParse Database UserRepo Sessions Auth AuthTheorems AuthClaims RateLimit WebRequest WebAuth Csrf WebThrottle WebErrors WebApp AuthViews WebTheorems WebClaims.

(** The value a browser keeps under a name after an answer. *)
Definition jar (name : string) (a : Response) : option pystr :=
  ck_value <$> list.last (filter (λ k, ck_name k = lit name) (rs_cookies a)).

(** ** A login recorded *)

Section recorded.
Context `{CaseFolding}.

Lemma orm_with_login rs now m :
  orm_to_domain rs (with_login now m) = (u ← orm_to_domain rs m; Ok (with_last_login (Some now) u)).
Proof.
  rewrite /orm_to_domain /=. destruct (email_from_storage _) as [e|]; [|done]. simpl.
  by destruct (new_PasswordHash _).
Qed.

Lemma find_after_login d uid now u :
  find_user_by_id uid d = Ok (Some u) →
  find_user_by_id uid (set_users (update_where (λ m, um_id m = uid) (with_login now) (users d)) d) =
    Ok (Some (with_last_login (Some now) u)).
Proof.
  rewrite /find_user_by_id /=.
  assert (first (filter (λ m, um_id m = uid) (update_where (λ m, um_id m = uid) (with_login now) (users d))) =
          with_login now <$> first (filter (λ m, um_id m = uid) (users d))) as ->.
  { induction (users d) as [|m l IH]; [done|]. rewrite /update_where !fmap_cons. case_decide as Hm.
    - rewrite !filter_cons_True //.
    - rewrite !filter_cons_False //. }
  destruct (first _) as [m|]; [|done]. simpl. rewrite orm_with_login.
  destruct (orm_to_domain _ m); [|done]. simpl. by intros [= ->].
Qed.
End recorded.

Section lookup.
Context `{CaseFolding}.

Lemma found_by_email_by_id d e u : accounts_ok d → find_user_by_email e d = Ok (Some u) →
  find_user_by_id (user_id u) d = Ok (Some u).
Proof.
  intros [[Hids _] _ _ _] (m & Hm & Hu)%load_user_Some.
  assert (user_id u = um_id m) as ->.
  { revert Hu. rewrite /orm_to_domain. intros Hu. apply result_bind_ok in Hu as (? & _ & Hu).
    apply result_bind_ok in Hu as (? & _ & Hu). by simplify_eq/=. }
  apply first_filter_Some in Hm as [Hm _]. rewrite /find_user_by_id.
  rewrite (first_filter_unique (λ x, um_id x = um_id m) um_id (users d) m Hids Hm eq_refl); [|done].
  simpl. by rewrite Hu.
Qed.
End lookup.

Section views.
Context {C : Type} `{PydanticText} `{Bcrypt} `{SecretTokens} `{MailQueue C} `{RateLimiter C} `{TokenCodec}.
Context `{CaseFolding} `{UuidSupply} `{Nfkc} `{DecimalDigits}.
Context (cfg : AuthSettings) (jwt : JwtSettings) (csrf : CsrfSettings) (trusted_proxies : list pystr).
Context (access_minutes refresh_days : Z).
Implicit Types (r : Request) (s : Web C).

Abbreviation login_view' := (login_view cfg jwt csrf trusted_proxies access_minutes refresh_days).

Lemma run_json_object r s : ∃ x, json_object r s = (x, s).
Proof.
  rewrite /json_object /decoded_body /mbind /M_bind.
  destruct (rq_body r) as [| | | |j]; simpl; eauto. destruct j; simpl; eauto.
Qed.

Lemma run_read_credentials r s : ∃ x, read_credentials r s = (x, s).
Proof.
  rewrite /read_credentials. destruct (run_json_object r s) as [[data|f] Hx].
  - rewrite (bind_ok _ _ _ _ _ Hx) /validated /mbind /M_bind /lift. destruct (CredentialsRequest data); simpl; eauto.
  - rewrite (bind_err _ _ _ _ _ Hx). eauto.
Qed.

(** A sign-in that was granted, opened up. *)
Lemma login_view_granted r s a s' :
  login_view' r s = (Ok a, s') → status_code a = 200 →
  ∃ email password result w1 token, 
    login cfg jwt email password (create_request_context trusted_proxies r (wb_g s)) (wb_world s) = (Ok result, w1) ∧
    build_csrf_token csrf (ur_id (lr_user result)) w1 = (Ok token, wb_world s') ∧
    a = set_csrf_cookie csrf token (set_token_cookies csrf access_minutes refresh_days (lr_tokens result)
          (plain 200 (JsonBody (JObject (token_fields (lr_tokens result) ++ [(lit "user", user_json (lr_user result))]))))).
Proof.
  rewrite /login_view. destruct (run_read_credentials r s) as [[[email password]|f] Hx];
    [rewrite (bind_ok _ _ _ _ _ Hx)|by rewrite (bind_err _ _ _ _ _ Hx)].
  destruct email as [email|]; [|done]. destruct password as [password|]; [|done].
  rewrite /context_of bind_assoc bind_g bind_ret_l /answering.
  rewrite /mbind /M_bind /try_except /in_world.
  destruct (login cfg jwt email password _ (wb_world s)) as [[result|e] w1] eqn:Hl;
    cbn -[build_csrf_token].
  - destruct (build_csrf_token csrf _ w1) as [[token|e] w2] eqn:Hb; [|done]. cbn -[build_csrf_token].
    intros [= <- <-] _. by exists email, password, result, w1, token.
  - destruct (negb _ || _); [done|]. rewrite /error_response /mbind /M_bind /=. intros [= <- <-]. done.
Qed.

(** A write with a good token passes the check. *)
Lemma enforce_csrf_lets_pass r s token bytes uid :
  origin_is_allowed (allowed_origins csrf) r = Ok true →
  truthy (cookie "csrf_token" r) = Some token → header "X-CSRF-Token" r = Some token →
  utf8_encode token = Some bytes → truthy (resolve_user_id (w_now (wb_world s)) r) = Some uid →
  verify_csrf_token (secret_key csrf) (w_now (wb_world s)) uid token = Ok true →
  enforce_csrf csrf r s = (Ok None, s).
Proof.
  intros Ho Hc Hh Hb Hu Hv. rewrite /enforce_csrf. case_bool_decide; [done|]. rewrite bind_g.
  destruct (negb _); [done|]. rewrite bind_attempt Ho /= Hc Hh.
  assert (truthy (Some token) = Some token) as -> by (apply truthy_Some in Hc as [_ ?]; by destruct token).
  rewrite !bind_attempt /encode Hb bind_attempt bool_decide_eq_true_2 // /= bind_now Hu bind_attempt Hv. done.
Qed.

Lemma csrf_token_ascii key uid nonce issued token :
  csrf_token key uid nonce issued = Ok token → isascii nonce = true → 0 <= issued < 2 ^ 64 →
  isascii token = true ∧ token ≠ [].
Proof.
  intros Ht Hn Hi. apply result_bind_ok in Ht as (sig & Hsig & Ht). injection Ht as <-.
  apply signature_ok in Hsig as (k & m & _ & _ & ->). destruct (str_of_Z_plain issued Hi) as [_ Ha].
  split; [|by destruct nonce].
  rewrite isascii_app Hn. change (isascii (str_of_Z issued ++ DOT :: hexdigest (hmac_sha256 k m)) = true).
  rewrite isascii_app Ha. apply hexdigest_ascii.
Qed.

Lemma build_inv uid (w : World C) token w' : build_csrf_token csrf uid w = (Ok token, w') →
  csrf_token (secret_key csrf) uid (token_urlsafe 16 (w_uuids w)) (unix_time (w_now w)) = Ok token ∧
  w_db w' = w_db w.
Proof. rewrite /build_csrf_token /mbind /M_bind /draw /now_utc /gets /lift /=. by intros [= -> <-]. Qed.

(** The answer of a granted sign-in leaves the browser three cookies. *)
Lemma jar_of_login token t b :
  let a := set_csrf_cookie csrf token (set_token_cookies csrf access_minutes refresh_days t (plain 200 b)) in
  jar "access_token" a = Some (access_token t) ∧ jar "refresh_token" a = Some (refresh_token t) ∧
  jar "csrf_token" a = Some token.
Proof. done. Qed.

(** A sign-in happens at one instant. *)
Lemma login_keeps_now email password ctx (w : World C) :
  wp (login cfg jwt email password ctx) (λ _ w', w_now w' = w_now w) w.
Proof.
  rewrite /login /budget_spent /authenticate /spend_budget /create_session_tokens /load.
  repeat (wp_step || (apply wp_with_cache; intros ? ? ?) || case_match || done).
Qed.

Lemma whole_second_le t : whole_second t <= t.
Proof. rewrite /whole_second /SECOND. pose proof (Z.mul_div_le t 1000000). lia. Qed.

(** The cookie of an access token, presented alone. *)
Lemma standing_by_cookie now d r token payload sid u :
  header "Authorization" r = None → cookie "access_token" r = Some token → token ≠ [] →
  jwt_decode now token = Some payload → cl_type payload = ACCESS → cl_sid payload = Some sid → sid ≠ [] →
  cl_sub payload ≠ [] → chain_is_live now sid (refresh_sessions d) = true →
  find_user_by_id (cl_sub payload) d = Ok (Some u) → user_is_active u = true →
  standing_of now d r = Account u sid AUTH_SOURCE_COOKIE.
Proof.
  intros Ha Hc Ht Hj Hty Hs Hne Hsub Hl Hf Hact. rewrite /standing_of /credential Ha /= Hc.
  assert (truthy (Some token) = Some token) as -> by (by destruct token). simpl.
  rewrite /validate_token Hj decide_True // Hs.
  assert (truthy (Some sid) = Some sid) as -> by (by destruct sid).
  destruct (cl_sub payload) as [|c uid]; [done|]. by rewrite Hl Hf Hact.
Qed.

(** The session a sign-in opened is live until it lapses. *)
Lemma opened_is_live n now later uid t : later < now + refresh_expire jwt →
  chain_is_live later (uuid4 n) (t ++ [opened jwt n now uid]) = true.
Proof.
  intros Hl. apply bool_decide_eq_true_2. destruct (first _) as [x|] eqn:E; [done|].
  apply first_filter_None with (x := opened jwt n now uid) in E; [|apply elem_of_app; right; by left].
  destruct E. rewrite /chain_live /opened /=. done.
Qed.

(** The account after the sign-in, and the token that stands for it. *)
Lemma granted_standing email password d u n now later r t :
  JwtLaws → uuid4 n ≠ [] → accounts_ok d → (∀ m, m ∈ users d → um_id m ≠ []) →
  granted_to email password d u → now <= later < whole_second (now + access_expire jwt) →
  later < now + refresh_expire jwt →
  t = session_tokens jwt now (with_last_login (Some now) u) (uuid4 n) (uuid4 n) →
  header "Authorization" r = None → cookie "access_token" r = Some (access_token t) →
  let d' := set_refresh_sessions (refresh_sessions d ++ [opened jwt n now (user_id u)])
              (set_users (update_where (λ m, um_id m = user_id u) (with_login now) (users d)) d) in
  standing_of later d' r = Account (with_last_login (Some now) u) (uuid4 n) AUTH_SOURCE_COOKIE ∧
  user_id u ≠ [].
Proof.
  intros Hcodec Hn Hok Hids (e & _ & Hu & _ & Hact & _) Ha Hr -> Hauth Hcook d'.
  assert (user_id u ≠ []) as Hne.
  { destruct (find_user_by_email_row _ _ _ Hok Hu) as (_ & Hin & _). by apply (Hids _ Hin). }
  split; [|done]. set (c := MkClaims (user_id u) (em_value (user_email u)) (now + access_expire jwt) now
    ACCESS None (Some (uuid4 n))).
  assert (access_token (session_tokens jwt now (with_last_login (Some now) u) (uuid4 n) (uuid4 n)) = jwt_encode c)
    as Htok.
  { rewrite /= /create_access_token /create_token. f_equal. rewrite /c /=. by destruct (uuid4 n). }
  rewrite Htok in Hcook. assert (jwt_decode later (jwt_encode c) = Some (whole_seconds c)) as Hdec.
  { apply jwt_reads_back. simpl. pose proof (whole_second_le now). lia. }
  apply (standing_by_cookie _ _ _ (jwt_encode c) (whole_seconds c)); try done.
  - apply jwt_text.
  - by apply opened_is_live.
  - apply (find_after_login d (user_id u) now u). by apply (found_by_email_by_id d e).
Qed.

(** C12: Signing in works for what comes next: with the cookies of a granted
    sign-in, a write of the same browser at any later time before the second
    in which the access token expires, from an allowed origin or stating none,
    is authenticated as the account that signed in, and its CSRF token, the
    one set with them, is accepted.  Of the token library only what PyJWT
    documents is relied on ([JwtLaws]: whole seconds, and a token reads from
    the second of its issue until the second of its expiry). *)
Theorem a_signed_in_browser_can_write r s a s' r' s2 :
  let now := w_now (wb_world s) in let later := w_now (wb_world s2) in let d := w_db (wb_world s) in
  JwtLaws → urlsafe_nonces → (∀ n, uuid4 n ≠ []) →
  accounts_ok d → (∀ m, m ∈ users d → um_id m ≠ []) → sessions_ok (refresh_sessions d) →
  draws_fresh (w_uuids (wb_world s)) (refresh_sessions d) → 0 <= unix_time now < 2 ^ 64 →
  login_view' r s = (Ok a, s') → status_code a = 200 →
  now <= later < whole_second (now + access_expire jwt) → later < now + refresh_expire jwt →
  unix_time later - unix_time now <= CSRF_TOKEN_TTL_SECONDS →
  w_db (wb_world s2) = w_db (wb_world s') →
  startswith STATIC_PREFIX (rq_path r') = false → header "Authorization" r' = None →
  cookie "access_token" r' = jar "access_token" a → cookie "csrf_token" r' = jar "csrf_token" a →
  header "X-CSRF-Token" r' = jar "csrf_token" a →
  origin_is_allowed (allowed_origins csrf) r' = Ok true →
  ∃ email password u s3, granted_to email password d u ∧
    load_current_user r' s2 = (Ok None, s3) ∧
    g_auth_token_source (wb_g s3) = Some AUTH_SOURCE_COOKIE ∧
    (cu_id <$> g_current_user (wb_g s3)) = Some (user_id u) ∧
    enforce_csrf csrf r' s3 = (Ok None, s3).
Proof.
  intros now later d Hcodec Hnonce Huuid Hok Hids Hsess Hfresh Ht Hview Hst Hacc Href Httl Hdb Hpath Hauth
    Hck Hcsrf Hecho Horigin.
  apply login_view_granted in Hview as (email & password & result & w1 & token & Hlogin & Hbuild & ->); [|done].
  pose proof (wp_elim _ _ _ _ _ (login_spec cfg jwt email password _ _ Hok Hsess Hfresh) Hlogin) as Hout.
  pose proof (wp_elim _ _ _ _ _ (login_keeps_now email password _ _) Hlogin) as Hnow. simpl in Hnow.
  destruct Hout as (u & Hgrant & _ & Huser & Htok & Hd1). simpl in Htok.
  destruct (build_inv _ _ _ _ Hbuild) as (Htoken & Hw2). rewrite Hnow in Htoken.
  assert (ur_id (lr_user result) = user_id u) as Huid by (by rewrite Huser).
  rewrite Huid in Htoken. fold now in Htoken, Htok, Hd1.
  assert (w_db (wb_world s2) = w_db w1) as Hd2 by (by rewrite Hdb Hw2).
  destruct (jar_of_login token (lr_tokens result)
    (JsonBody (JObject (token_fields (lr_tokens result) ++ [(lit "user", user_json (lr_user result))]))))
    as (Hj1 & _ & Hj3). cbv zeta in Hj1, Hj3. rewrite Hj1 in Hck. rewrite Hj3 in Hcsrf, Hecho.
  destruct (granted_standing email password d u (w_uuids (wb_world s)) now later r' (lr_tokens result))
    as [Hstand Hne]; try done. rewrite -Hd1 -Hd2 in Hstand.
  exists email, password, u. eexists. split; [done|]. rewrite run_load_current_user // Hstand /=.
  split; [done|]. split; [done|]. split; [done|].
  destruct (Hnonce (w_uuids w1)) as (Hn1 & Hn2 & Hn3).
  destruct (csrf_token_ascii _ _ _ _ _ Htoken Hn3 Ht) as [Hasc Htne].
  apply (enforce_csrf_lets_pass _ _ token token (user_id u)); try done.
  - rewrite Hcsrf. by destruct token.
  - by apply utf8_encode_ascii.
  - apply cookie_account in Hstand as [_ Hres]. cbn [wb_world]. fold later. rewrite Hres /=.
    by destruct (user_id u).
  - apply (minted_verifies _ _ _ _ _ _ Htoken); try done. cbn [wb_world]. fold later. lia.
Qed.

Lemma run_chain_of token_id (w : World C) : ∃ x, chain_of token_id w = (Ok x, w).
Proof.
  rewrite /chain_of. destruct (unless_empty token_id); [|by eauto].
  rewrite /with_uow /mbind /M_bind /read /=. eexists. by destruct w.
Qed.

(** A sign-out with the refresh token of an open session. *)
Lemma sign_out_run ctx token sid (w : World C) row :
  token ≠ [] → presented (w_now w) token (w_db w) row → rs_revoked_at row = None →
  row ∈ refresh_sessions (w_db w) →
  ∃ w', sign_out ctx (Some token) sid w = (Ok true, w') ∧
    ∀ now', chain_is_live now' (rs_chain_id row) (refresh_sessions (w_db w')) = false.
Proof.
  intros Hne Hp Hopen Hin. destruct (sign_out_ends_the_chain token w row Hp Hopen Hin) as (w' & Hrev & Hdead).
  rewrite /sign_out. rewrite (bind_ok now_utc _ w (w_now w) w) //.
  assert (unless_empty (Some token) = Some token) as -> by (by destruct token).
  assert (∃ x, (match sid with Some c => mret (Some c) | None =>
    chain_of (validate_token (w_now w) token (Some REFRESH) ≫= cl_jti) end) w = (Ok x, w)) as [x Hx].
  { destruct sid; [by eexists|]. apply run_chain_of. }
  rewrite (bind_ok _ _ _ _ _ Hx) (bind_ok _ _ _ _ _ Hrev). eexists. split; [done|]. exact Hdead.
Qed.

(** A sign-out ends the login: the answer takes the three cookies away,
    and from then on no request is authenticated by a token of that login,
    however long the token itself would have lasted. *)
Theorem a_signed_out_login_is_dead r s token row :
  token ≠ [] → cookie "refresh_token" r = Some token →
  presented (w_now (wb_world s)) token (w_db (wb_world s)) row → rs_revoked_at row = None →
  row ∈ refresh_sessions (w_db (wb_world s)) →
  ∃ a s', logout_view trusted_proxies r s = (Ok a, s') ∧ status_code a = 200 ∧
    (∀ name, name ∈ ["access_token"; "refresh_token"; "csrf_token"]%string → jar name a = Some []) ∧
    (∀ later r' u src, standing_of later (w_db (wb_world s')) r' ≠ Account u (rs_chain_id row) src).
Proof.
  intros Hne Hc Hp Hopen Hin.
  destruct (sign_out_run (create_request_context trusted_proxies r (wb_g s)) token
    (g_auth_session_id (wb_g s)) (wb_world s) row) as (w' & Hrun & Hdead); [done..|].
  rewrite /logout_view /read_refresh_token Hc.
  assert (truthy (Some token) = Some token) as -> by (by destruct token).
  rewrite bind_ret_l /context_of bind_assoc bind_g bind_ret_l bind_g.
  rewrite (bind_ok _ _ _ true (MkWeb (wb_g s) w')); [|by rewrite /in_world Hrun].
  eexists _, _. split; [done|]. split_and!; [done| |].
  - intros name Hn. rewrite !elem_of_cons elem_of_nil in Hn. by destruct Hn as [->|[->|[->|[]]]].
  - intros later r' u src (? & ? & _ & _ & _ & _ & Hl & _)%standing_account. simpl in Hl. by rewrite Hdead in Hl.
Qed.

(** What keeps a sign-in from being answered by the view. *)
Lemma new_Email_errors v x : new_Email v = Err x → is_validation_error x = true.
Proof. rewrite /new_Email. repeat case_match; by intros [= <-]. Qed.

Lemma malformed_is_raised email d x : malformed email d x →
  negb (is_domain_error x) || is_validation_error x = true.
Proof.
  intros [Hx|[Hx|(e & _ & Hx)]].
  - revert Hx. rewrite /failure_key. case_match; by intros [= <-].
  - by rewrite (new_Email_errors _ _ Hx) orb_true_r.
  - revert Hx. rewrite /find_user_by_email /load_user. destruct (first _) as [m|]; [|done].
    rewrite /orm_to_domain /email_from_storage.
    destruct (new_Email (um_email m)) as [?|y] eqn:Hy; simpl.
    + rewrite /new_PasswordHash. case_match; simpl; by intros [= <-].
    + intros [= <-]. by rewrite (new_Email_errors _ _ Hy) orb_true_r.
Qed.

(** C23: Refused sign-ins look alike: an unknown address, a wrong password, a
    deactivated or unconfirmed account and a spent budget all get the same
    401 with the same words and no cookie, and change no table. *)
Theorem refused_sign_ins_look_alike r s a s' :
  accounts_ok (w_db (wb_world s)) → sessions_ok (refresh_sessions (w_db (wb_world s))) →
  draws_fresh (w_uuids (wb_world s)) (refresh_sessions (w_db (wb_world s))) →
  login_view' r s = (Ok a, s') → status_code a ≠ 200 →
  ∃ at_, a = MkResponse 401 [] [] [] (ErrorBody (MkErrorResponse (lit "INVALID_CREDENTIALS")
             (TranslateError INVALID_CREDENTIALS) None at_) None) ∧
    w_db (wb_world s') = w_db (wb_world s).
Proof.
  intros Hok Hs Hf. rewrite /login_view. destruct (run_read_credentials r s) as [[[email password]|f] Hx];
    [rewrite (bind_ok _ _ _ _ _ Hx)|by rewrite (bind_err _ _ _ _ _ Hx)].
  destruct email as [email|]; [|done]. destruct password as [password|]; [|done].
  rewrite /context_of bind_assoc bind_g bind_ret_l /answering.
  pose proof (login_spec cfg jwt email password (create_request_context trusted_proxies r (wb_g s))
    (wb_world s) Hok Hs Hf) as Hout. rewrite /wp in Hout.
  rewrite /mbind /M_bind /try_except /in_world.
  destruct (login cfg jwt email password _ (wb_world s)) as [[result|e] w1]; cbn -[build_csrf_token] in *.
  - destruct (build_csrf_token csrf _ w1) as [[token|e] w2]; [|done]. cbn -[build_csrf_token]. by intros [= <- <-].
  - destruct Hout as [Hd [->|Hm%malformed_is_raised]]; [|by rewrite Hm]. cbn. intros [= <- <-] _. by eexists.
Qed.
End views.

(** ** A small service *)

(** Claims as a text: each part behind its length. *)
Definition put_text (s : pystr) : pystr := len s :: s.
Definition put_option (o : option pystr) : pystr := match o with None => [-1] | Some s => put_text s end.
Definition get_text (t : pystr) : option (option pystr * pystr) :=
  match t with
  | [] => None
  | n :: t => if n <? 0 then Some (None, t)
              else Some (Some (take (Z.to_nat n) t), drop (Z.to_nat n) t)
  end.

Lemma get_put_option o t : get_text (put_option o ++ t) = Some (o, t).
Proof.
  destruct o as [s|]; [|done]. rewrite /put_option /put_text /=.
  rewrite (proj2 (Z.ltb_ge (len s) 0) (len_nonneg s)).
  by rewrite /len Nat2Z.id take_app_length drop_app_length.
Qed.

Definition put_claims (c : claims) : pystr :=
  cl_exp c :: cl_iat c :: put_option (Some (cl_sub c)) ++ put_option (Some (cl_email c)) ++
  put_option (Some (cl_type c)) ++ put_option (cl_jti c) ++ put_option (cl_sid c) ++ [].
Definition get_claims (t : pystr) : option claims :=
  match t with
  | e :: i :: t =>
      '(sub, t) ← get_text t; '(email, t) ← get_text t; '(type, t) ← get_text t;
      '(jti, t) ← get_text t; '(sid, t) ← get_text t;
      Some (MkClaims (default [] sub) (default [] email) e i (default [] type) jti sid)
  | _ => None
  end.

Lemma get_put_claims c : get_claims (put_claims c) = Some c.
Proof.
  rewrite /get_claims /put_claims. do 5 (rewrite get_put_option; cbn [mbind option_bind]). by destruct c.
Qed.

Module SignInDemo.
Export AuthClaims.AuthDemo.
(** Tokens that are read back until they expire. *)
Instance token_codec : TokenCodec := {|
  jwt_encode c := put_claims (whole_seconds c);
  jwt_decode now t := c ← get_claims t; if (cl_iat c <=? now) && ((now : Z) <? cl_exp c) then Some c else None;
|}.
Instance compatibility : Nfkc := λ s, s.
Instance digits : DecimalDigits := λ _, None.
Instance texts : PydanticText := λ _, None.

Definition csrf : CsrfSettings := MkCsrfSettings (lit "key") true [lit "https://maiz.link"].
Definition signing : JwtSettings := MkJwtSettings (15 * MINUTE) (7 * DAY).
Definition form (email password : pystr) : Request :=
  MkRequest (lit "POST") (lit "/api/v1/auth/login") (lit "maiz.link") (Some (lit "auth.login"))
    (Some (lit "/api/v1/auth/login")) (Some (lit "203.0.113.5")) [] [] []
    (Decoded (JObject [(lit "email", JString email); (lit "password", JString password)])).
Definition at_login : Web Storage := MkWeb empty_g world.
Definition run (email pw : pystr) := login_view settings signing csrf [] 15 7 (form email pw) at_login.
Definition granted := run (lit "jo@a.org") password.
Definition answer : Response := match granted.1 with Ok a => a | Err _ => plain 500 (message_body "") end.

Definition next_write : Request :=
  MkRequest (lit "POST") (lit "/api/v1/shorten") (lit "maiz.link") (Some (lit "api.create_short_link"))
    (Some (lit "/api/v1/shorten")) (Some (lit "203.0.113.5"))
    [(lit "Origin", lit "https://maiz.link"); (lit "X-CSRF-Token", default [] (jar "csrf_token" answer))]
    [(lit "access_token", default [] (jar "access_token" answer));
     (lit "csrf_token", default [] (jar "csrf_token" answer))] [] NotJson.

Lemma codec_reads_back : JwtLaws.
Proof.
  split.
  - done.
  - intros now c Hc. rewrite /jwt_decode /jwt_encode /token_codec get_put_claims /=.
    by rewrite (proj2 (Z.leb_le _ _) (proj1 Hc)) (proj2 (Z.ltb_lt _ _) (proj2 Hc)).
  - intros now t c. rewrite /jwt_decode /token_codec. destruct (get_claims t) as [x|]; [|done]. simpl.
    destruct (_ <=? _); [|done]. simpl. destruct (now <? cl_exp x) eqn:Hx; [|done].
    intros [= ->]. by apply Z.ltb_lt.
Qed.

Lemma sign_in_nonces : urlsafe_nonces.
Proof.
  intros n. rewrite /token_urlsafe /secrets. split_and!; [done| |].
  - intros Hin%list_elem_of_In%repeat_spec. discriminate Hin.
  - apply forallb_forall. by intros c ->%repeat_spec.
Qed.

Lemma ids_are_named m : m ∈ users db → um_id m ≠ [].
Proof. intros [->|[->|Hm]%elem_of_cons]%elem_of_cons; [done..|]. by inversion Hm. Qed.

Lemma granted_is : granted = (Ok answer, granted.2).
Proof. assert (granted.1 = Ok answer) as <- by (vm_compute; reflexivity). apply surjective_pairing. Qed.
Lemma granted_status : status_code answer = 200.
Proof. vm_compute. reflexivity. Qed.

Lemma a_signed_in_browser_can_write_witness : ∃ s3,
  load_current_user next_write granted.2 = (Ok None, s3) ∧ enforce_csrf csrf next_write s3 = (Ok None, s3).
Proof.
  destruct (a_signed_in_browser_can_write settings signing csrf [] 15 7
    (form (lit "jo@a.org") password) at_login answer granted.2 next_write granted.2
    codec_reads_back sign_in_nonces) as (email & pw & u & s3 & _ & Hload & _ & _ & Hcsrf);
    [intros n; discriminate|exact db_ok|exact ids_are_named|exact no_sessions|exact draws
    |vm_compute; split; congruence|exact granted_is|exact granted_status
    |vm_compute; split; congruence|vm_compute; reflexivity|vm_compute; congruence|reflexivity|reflexivity
    |reflexivity|vm_compute; reflexivity|vm_compute; reflexivity|vm_compute; reflexivity
    |vm_compute; reflexivity|].
  exists s3. split; [exact Hload|exact Hcsrf].
Defined.

(** A wrong password. *)
Definition refused := run (lit "jo@a.org") (lit "guess").
Definition refusal : Response := match refused.1 with Ok a => a | Err _ => plain 500 (message_body "") end.
Lemma refused_is : refused = (Ok refusal, refused.2).
Proof. assert (refused.1 = Ok refusal) as <- by (vm_compute; reflexivity). apply surjective_pairing. Qed.

Lemma refused_sign_ins_look_alike_witness : status_code refusal = 401 ∧ w_db (wb_world refused.2) = db.
Proof.
  destruct (refused_sign_ins_look_alike settings signing csrf [] 15 7 (form (lit "jo@a.org") (lit "guess"))
    at_login refusal refused.2 db_ok no_sessions draws refused_is) as (at_ & Ha & Hd);
    [vm_compute; congruence|].
  split; [rewrite Ha; reflexivity|exact Hd].
Defined.

(** The browser signs out again. *)
Definition session : RefreshSession := opened signing 10 1 (lit "u1").
Definition leave : Request :=
  MkRequest (lit "POST") (lit "/api/v1/auth/logout") (lit "maiz.link") (Some (lit "auth.logout"))
    (Some (lit "/api/v1/auth/logout")) (Some (lit "203.0.113.5")) []
    [(lit "refresh_token", default [] (jar "refresh_token" answer))] [] NotJson.
Definition held : pystr := default [] (jar "refresh_token" answer).

Lemma session_stored : refresh_sessions (w_db (wb_world granted.2)) = [session].
Proof. vm_compute. reflexivity. Qed.
Lemma held_presented : presented (w_now (wb_world granted.2)) held (w_db (wb_world granted.2)) session.
Proof.
  exists (MkClaims (lit "u1") (lit "jo@a.org") (7 * DAY) 0 REFRESH (Some (uuid4 10)) None), (uuid4 10).
  split_and!; try discriminate; vm_compute; reflexivity.
Qed.

Lemma a_signed_out_login_is_dead_witness : ∃ a s',
  logout_view [] leave granted.2 = (Ok a, s') ∧ jar "access_token" a = Some [].
Proof.
  destruct (a_signed_out_login_is_dead [] leave granted.2 held session) as (a & s' & Hrun & _ & Hjar & _);
    [vm_compute; congruence|vm_compute; reflexivity|exact held_presented|reflexivity
    |rewrite session_stored; apply list_elem_of_singleton; reflexivity|].
  exists a, s'. split; [exact Hrun|]. apply Hjar. left.
Defined.
End SignInDemo.
