(* ===== verification/LinkViewClaims.v ===== *)
(** * What the link views show and allow

    Deletion tokens from the answer that hands one out to the request that
    uses it, and what somebody without one can learn of a link. *)

From S2P Require Import Prelude PyStr Utf8 Json Exceptions ValueObjects Entities Policies CodeGen Cache MemoryCache Database LinkRepo UserRepo Visitor Links Stats RedisCache Demo LinkTheorems Batch RateLimit UrlParse Visits WebRequest WebAuth Csrf WebErrors AuthViews LinkViews WebTheorems AuthViewClaims.

(** What the serializer promises: the token of a text reads back, and is not
    empty. *)
Class SerializerLaws `{Serializer} := MkSerializerLaws {
  sr_reads_back key salt s : forallb is_scalar s = true →
    sr_loads key salt (sr_dumps key salt (JString s)) = Some (JString s);
  sr_text key salt j : sr_dumps key salt j ≠ [];
}.

(** A field of a JSON answer. *)
Definition answer_field (name : string) (a : Response) : option json :=
  match rs_body a with JsonBody (JObject fields) => json_get (lit name) fields | _ => None end.

(** ** Deleting with a token *)

Section deleting.
Context {C Stats : Type} `{CacheLaws C Stats} `{CaseFolding} `{UuidSupply} `{!Inj (=) (=) uuid4}.
Implicit Types (w : World C).

Definition AUTHENTICATION_REQUIRED : exn := DomainError (lit "Authentication required") (lit "UNAUTHENTICATED").

(** Without an account, the identifier decides. *)
Lemma delete_link_by_id s k l ctx auth w :
  code_to_look_up s = Ok k → find_by_code k (urls (w_db w)) = Some l → current_user ctx = None →
  wp (delete_link s ctx true auth)
    (λ r _, r = if bool_decide (auth = Some (link_id l)) then Ok true else Err AUTHENTICATION_REQUIRED) w.
Proof.
  intros Hk Hl Hnobody. rewrite /delete_link. wp_steps. rewrite Hk /delete_link_body. wp_steps.
  cbn [tx_work]. rewrite Hl. apply find_by_code_Some in Hl as [Hin Hcode].
  destruct (decide (auth = Some (link_id l))) as [->|Hne].
  - rewrite !bool_decide_eq_true_2 //. cbn [negb andb]. wp_steps. rewrite /= bool_decide_eq_false_2.
    + cbn [negb]. wp_steps. eapply wp_mono; [apply drop_cached_spec; by intros x [= <-]|].
      intros r w' (-> & c & -> & _). by wp_steps.
    + intros Hz. by apply (proj1 (count_where_zero _ (urls (w_db w))) Hz l).
  - rewrite !bool_decide_eq_false_2; [|congruence..]. cbn [negb andb].
    rewrite /require_may_delete /load_requester Hnobody. by wp_steps.
Qed.
End deleting.

Section tokens.
Context {C Stats : Type} `{CacheLaws C Stats} `{CaseFolding} `{UuidSupply} `{!Inj (=) (=) uuid4}.
Context `{UrlRules} `{CodeGenerator} `{!GeneratorLaws} `{HashCalculator} `{WordChars} `{TaskQueue C}.
Context `{PydanticText} `{PydanticInt} `{SerializerLaws} `{IsoFormat} `{DecimalDigits}.
Context (cfg : LinkSettings) (secret_key : pystr) (trusted_proxies : list pystr).
Implicit Types (s : Web C) (r : Request).

Lemma json_text_is i j : bool_decide (json_text j = Some i) = is_link_id i j.
Proof.
  destruct j as [[]|]; try done. simpl. apply bool_decide_ext. split; [by intros [= ->]|by intros ->].
Qed.

Definition LINK_DELETED : Response := plain 200 (message_body "Link deleted").

Lemma delete_by_token_view code k l r s :
  Inv (wb_world s) → g_current_user (wb_g s) = None →
  code_to_look_up code = Ok k → find_by_code k (urls (w_db (wb_world s))) = Some l →
  let named := is_link_id (link_id l) (link_id_from secret_key (header "X-Deletion-Token" r)) in
  ∃ s', delete_link_view secret_key trusted_proxies code r s =
          (if named then Ok LINK_DELETED else Err (Raised AUTHENTICATION_REQUIRED), s') ∧
    Inv (wb_world s') ∧
    (if named then w_db (wb_world s') = (delete_link_row (link_id l) (w_db (wb_world s))).2 ∧
                   forgotten (w_cache (wb_world s')) k
     else w_db (wb_world s') = w_db (wb_world s)).
Proof.
  intros Hw Hg Hk Hl named. rewrite /delete_link_view /context_of bind_assoc bind_g bind_ret_l.
  rewrite /presented_link_id bind_assoc /= {1}/mbind /M_bind /modify_g /modify /=.
  rewrite bind_ret_l.
  set (ctx := create_request_context _ _ _).
  set (auth := json_text _).
  pose proof (delete_link_spec code ctx true auth (wb_world s) Hw) as Hs.
  pose proof (delete_link_by_id code k l ctx auth (wb_world s) Hk Hl Hg) as Hr.
  rewrite Hk in Hs. rewrite /auth json_text_is -/named in Hr.
  rewrite {1}/mbind /M_bind /in_world /=. destruct (delete_link _ _ _ _ (wb_world s)) as [x w'] eqn:Hd.
  apply (wp_elim _ _ _ _ _ Hs) in Hd as Hx. apply (wp_elim _ _ _ _ _ Hr) in Hd as ->.
  destruct Hx as (Hi & _ & Hdel). destruct named; simpl; eexists; (split; [reflexivity|]); (split; [done|]); simpl.
  - destruct Hdel as (l' & Hl' & -> & Hf & _). by simplify_eq.
  - done.
Qed.

(** Somebody who is not signed in deletes a link exactly when the token of
    the request names that link: then the row goes, with its visits and its
    cached copies, and the answer is 200; with no token, a forged one or the
    token of another link nothing changes and the request is refused as
    unauthenticated. *)
Theorem a_deletion_token_is_for_one_link code k l r s :
  Inv (wb_world s) → g_current_user (wb_g s) = None →
  code_to_look_up code = Ok k → find_by_code k (urls (w_db (wb_world s))) = Some l →
  let named := is_link_id (link_id l) (link_id_from secret_key (header "X-Deletion-Token" r)) in
  ∃ s', delete_link_view secret_key trusted_proxies code r s =
          (if named then Ok LINK_DELETED else Err (Raised AUTHENTICATION_REQUIRED), s') ∧
    Inv (wb_world s') ∧
    (if named then w_db (wb_world s') = (delete_link_row (link_id l) (w_db (wb_world s))).2 ∧
                   forgotten (w_cache (wb_world s')) k
     else w_db (wb_world s') = w_db (wb_world s)).
Proof. apply delete_by_token_view. Qed.

Lemma token_names_its_link i : forallb is_scalar i = true →
  is_link_id i (link_id_from secret_key (Some (issue secret_key i))) = true.
Proof.
  intros Hi. rewrite /link_id_from /issue /truthy. destruct (sr_dumps _ _ _) eqn:Ht; [by apply sr_text in Ht|].
  rewrite /= -Ht sr_reads_back //=. by apply bool_decide_eq_true.
Qed.

Lemma looked_up_code l d : links_ok d → l ∈ urls d →
  code_to_look_up (sc_value (link_short_code l)) = Ok (link_short_code l).
Proof.
  intros (_ & Ho & _) Hl. destruct (Ho l Hl) as [_ Hm].
  rewrite /code_to_look_up /new_ShortCode Hm. by destruct (link_short_code l).
Qed.

Lemma new_row_is_found l t : find_by_code (link_short_code l) t = None →
  find_by_code (link_short_code l) (t ++ [l]) = Some l.
Proof.
  rewrite /find_by_code list.filter_app. intros Hnone. rewrite (filter_none _ t); [|by apply (first_filter_None (same_code (link_short_code l)))].
  rewrite filter_cons_True //.
Qed.

Lemma new_row_goes l t : NoDup (link_id <$> (t ++ [l])) → delete_where (same_id (link_id l)) (t ++ [l]) = t.
Proof.
  rewrite fmap_app /delete_where list.filter_app. intros (_ & Hd & _)%list.NoDup_app.
  rewrite (filter_cons_False _ l) /=; [|by intros Hn; apply Hn]. rewrite app_nil_r.
  apply filter_all. intros x Hx Heq. apply (Hd (link_id x)).
  - apply list_elem_of_fmap. eauto.
  - rewrite Heq. apply list_elem_of_singleton. done.
Qed.

Lemma create_view_inv r s a s1 :
  create_short_link_view cfg secret_key trusted_proxies r s = (Ok a, s1) →
  ∃ url ctx ttl result, create_short_link cfg url ctx ttl None (wb_world s) = (Ok result, wb_world s1) ∧
    a = plain (if slr_is_new result then 201 else 200)
          (JsonBody (link_json (with_token (token_for secret_key result) (from_dto result)))).
Proof.
  rewrite /create_short_link_view /require_permission bind_g. destruct (negb _); [done|].
  intros Hrun. run_inv Hrun.
  assert (s0 = s) as -> by (destruct s; by injection Hrun0 as _ <-).
  destruct a0; [|by destruct (g_domain_user _)].
  run_inv Hrun. destruct (run_json_object r s) as [x Hx]. rewrite Hx in Hrun1. simplify_eq.
  rewrite /lift in Hrun2. destruct (CreateShortLinkRequest a0) as [v|]; [|done]. simplify_eq.
  rewrite /context_of bind_g in Hrun3. injection Hrun3 as <- <-.
  rewrite /in_world in Hrun4. destruct (create_short_link _ _ _ _ _ _) as [[result|] w'] eqn:Hc; [|done].
  simplify_eq/=. injection Hrun as <- <-. eauto 10.
Qed.

(** A creation that answered with a token made that link. *)
Lemma created_with_token r s a s1 code t : base_url cfg ≠ [] → Inv (wb_world s) →
  create_short_link_view cfg secret_key trusted_proxies r s = (Ok a, s1) →
  answer_field "deletion_token" a = Some (JString t) → answer_field "short_code" a = Some (JString code) →
  Inv (wb_world s1) ∧ ∃ l, code = sc_value (link_short_code l) ∧ t = issue secret_key (link_id l) ∧
    urls (w_db (wb_world s1)) = urls (w_db (wb_world s)) ++ [l] ∧
    find_by_code (link_short_code l) (urls (w_db (wb_world s))) = None ∧ ∃ n, link_id l = uuid4 n.
Proof.
  intros Hb Hw (url & ctx & ttl & result & Hc & ->)%create_view_inv Ht Hcode.
  pose proof (create_short_link_spec cfg url ctx ttl None _ Hw Hb) as Hs.
  apply (wp_elim _ _ _ _ _ Hs) in Hc as ((u & h & owner & chosen & _ & l & Hl & Hout) & Hi & _).
  split; [done|]. exists l.
  apply result_bind_ok in Hl as (short_url & _ & Hl).
  assert (json_option JString (token_for secret_key result) = JString t) as Ht' by (by injection Ht).
  assert (slr_short_code result = code) as <- by (by injection Hcode).
  destruct (slr_is_new result) eqn:Hnew; last first.
  { rewrite /token_for Hnew in Ht'. by destruct (slr_link_id result). }
  destruct Hout as (-> & (n & Hn & _) & Hcr). injection Hl as Hl.
  rewrite /token_for Hnew -Hl /= in Ht'.
  split_and!; [by rewrite -Hl| |done|by apply Hcr|by exists n].
  destruct (link_id l); [done|]. case_bool_decide; [|done]. by injection Ht' as <-.
Qed.

(** The deletion token an anonymous creation answers with opens that link:
    presented with the code of the same answer by anybody, it deletes the
    link, and the table of links is again what it was before. *)
Theorem the_maker_holds_the_key r r' s a s1 code t g :
  base_url cfg ≠ [] → (∀ n, forallb is_scalar (uuid4 n) = true) → Inv (wb_world s) →
  create_short_link_view cfg secret_key trusted_proxies r s = (Ok a, s1) →
  answer_field "deletion_token" a = Some (JString t) → answer_field "short_code" a = Some (JString code) →
  header "X-Deletion-Token" r' = Some t → g_current_user g = None →
  ∃ s2, delete_link_view secret_key trusted_proxies code r' (MkWeb g (wb_world s1)) = (Ok LINK_DELETED, s2) ∧
    urls (w_db (wb_world s2)) = urls (w_db (wb_world s)) ∧ Inv (wb_world s2).
Proof.
  intros Hb Hids Hw Hc Ht Hcode Hr' Hg.
  destruct (created_with_token _ _ _ _ _ _ Hb Hw Hc Ht Hcode) as (Hi & l & -> & -> & Hu & Hnone & n & Hn).
  assert (links_ok (w_db (wb_world s1))) as Hok by apply Hi.
  destruct (delete_by_token_view (sc_value (link_short_code l)) (link_short_code l) l r' (MkWeb g (wb_world s1)))
    as (s2 & Hd & Hi2 & Hdb); [done..| | |].
  - eapply looked_up_code; [done|]. rewrite Hu. set_solver.
  - simpl. rewrite Hu. by apply new_row_is_found.
  - exists s2. revert Hd Hdb. rewrite Hr' token_names_its_link; [|by rewrite Hn]. intros Hd [Hdb _].
    split_and!; [done| |done]. rewrite Hdb /delete_link_row /repo_delete /= Hu.
    apply new_row_goes. rewrite -Hu. apply Hok.
Qed.
End tokens.

(** ** What a stranger is shown *)

Section strangers.
Context {C : Type} `{Serializer} `{IsoFormat} `{PydanticTime} `{DecimalDigits}.
Context (cfg : LinkSettings) (popular_threshold recent_days : Z) (secret_key : pystr).
Implicit Types (s : Web C) (r : Request).

(** The link a code answers with, unless it is missing or over. *)
Definition live_link (code : pystr) (now : Z) (t : list Link) : result exn Link :=
  k ← code_to_look_up code;
  match find_by_code k t with
  | None => Err (LinkNotFoundError (Some code))
  | Some l => if is_expired now l then Err (LinkExpiredError (sc_value k)) else Ok l
  end.

Lemma run_get_link_info code (w : World C) : get_link_info cfg code w =
  (live_link code (w_now w) (urls (w_db w)) ≫= λ l, from_link l (base_url cfg) false false, w).
Proof.
  rewrite /get_link_info /live_link /mbind /M_bind /lift. destruct (code_to_look_up code) as [k|]; [|done].
  simpl. rewrite /with_uow /=. destruct (find_by_code k _) as [l|]; simpl; [|by destruct w].
  destruct (is_expired _ l); simpl; by destruct w.
Qed.

Lemma run_get_extended code (w : World C) : get_extended_link_info cfg popular_threshold recent_days code w =
  (live_link code (w_now w) (urls (w_db w)) ≫= λ l,
     extended_from_link (w_now w) l (base_url cfg) popular_threshold recent_days, w).
Proof.
  rewrite /get_extended_link_info /live_link /mbind /M_bind /lift. destruct (code_to_look_up code) as [k|]; [|done].
  simpl. rewrite /with_uow /=. destruct (find_by_code k _) as [l|]; simpl; [|by destruct w].
  destruct (is_expired _ l); simpl; by destruct w.
Qed.

(** What everybody may know of a link. *)
Definition public_part (l : Link) : ShortCode * OriginalUrl * Z * option Z :=
  (link_short_code l, link_original_url l, link_created_at l, link_expires_at l).

Lemma bind_made_this_link {B} i r (k : bool → M (Web C) failure B) s :
  is_link_id i (link_id_from secret_key (header "X-Deletion-Token" r)) = false →
  (made_this_link secret_key (Some i) r ≫= k) s = k false (MkWeb (set_token_read (wb_g s)) (wb_world s)).
Proof.
  intros Hn. rewrite /made_this_link /presented_link_id /mbind /M_bind /modify_g /modify /=. by rewrite Hn.
Qed.

(** To a stranger the two views answer this. *)
Definition stranger_info (code : pystr) (now : Z) (t : list Link) : result failure Response :=
  match live_link code now t ≫= λ l, from_link l (base_url cfg) false false with
  | Ok d => Ok (plain 200 (JsonBody (link_json (withheld (from_dto d)))))
  | Err e => Err (Raised e)
  end.
Definition stranger_extended (code : pystr) (now : Z) (t : list Link) : result failure Response :=
  match live_link code now t ≫= λ l, from_link l (base_url cfg) false false with
  | Ok _ => Err (Raised UNAUTHENTICATED)
  | Err e => Err (Raised e)
  end.

Lemma stranger_views code k l r s :
  g_domain_user (wb_g s) = None → code_to_look_up code = Ok k → find_by_code k (urls (w_db (wb_world s))) = Some l →
  is_link_id (link_id l) (link_id_from secret_key (header "X-Deletion-Token" r)) = false →
  (get_link_info_view cfg secret_key code r s).1 =
    stranger_info code (w_now (wb_world s)) (urls (w_db (wb_world s))) ∧
  (get_extended_link_info_view cfg popular_threshold recent_days secret_key code r s).1 =
    stranger_extended code (w_now (wb_world s)) (urls (w_db (wb_world s))).
Proof.
  intros Hg Hk Hl Hn. split.
  - rewrite /get_link_info_view /stranger_info {1}/mbind /M_bind /in_world run_get_link_info.
    rewrite /live_link Hk /= Hl. destruct (is_expired _ l); [done|]. rewrite /from_link /=.
    destruct (build_short_url _ _) as [u|]; [|done]. simpl.
    rewrite /shown_link bind_assoc bind_made_this_link //. cbv iota.
    by rewrite bind_assoc /can_view_link_details bind_assoc bind_g /= Hg.
  - rewrite /get_extended_link_info_view /stranger_extended {1}/mbind /M_bind /in_world run_get_extended.
    rewrite /live_link Hk /= Hl. destruct (is_expired _ l); [done|]. rewrite /from_link /extended_from_link /=.
    destruct (build_short_url _ _) as [u|]; [|done]. simpl.
    rewrite bind_made_this_link //. by rewrite /require_can_view_link_details /= bind_assoc bind_g /= Hg.
Qed.

Lemma live_link_public code k l1 l2 now t1 t2 :
  code_to_look_up code = Ok k → find_by_code k t1 = Some l1 → find_by_code k t2 = Some l2 →
  public_part l1 = public_part l2 →
  stranger_info code now t1 = stranger_info code now t2 ∧
  stranger_extended code now t1 = stranger_extended code now t2.
Proof.
  intros Hk Hl1 Hl2 [= Hc Hu Ht He]. rewrite /stranger_info /stranger_extended /live_link Hk /= Hl1 Hl2.
  assert (is_expired now l1 = is_expired now l2) as -> by rewrite /is_expired He //.
  destruct (is_expired now l2); [done|].
  rewrite /= /from_link Hc. destruct (build_short_url _ _) as [u|]; [|done].
  by rewrite /withheld /from_dto /= Hu Ht He.
Qed.

(** C11: The two views that answer a question about one link by its code, its
    details and its extended details, tell somebody who is neither signed in
    nor holds the link's token nothing of its owner and its traffic: in two
    services in which the link differs in its owner, its clicks and its last
    visit only, both views answer the same, and the second refuses whenever
    the link can be followed.  This is about these two views: the statistics
    of the service show its totals to whoever holds [stats:view_basic], and
    shortening an address that has a link answers with that link's clicks. *)
Theorem strangers_learn_no_traffic code k l1 l2 r s1 s2 :
  wb_g s1 = wb_g s2 → g_domain_user (wb_g s1) = None → w_now (wb_world s1) = w_now (wb_world s2) →
  code_to_look_up code = Ok k → public_part l1 = public_part l2 →
  find_by_code k (urls (w_db (wb_world s1))) = Some l1 →
  find_by_code k (urls (w_db (wb_world s2))) = Some l2 →
  (∀ l, l = l1 ∨ l = l2 →
    is_link_id (link_id l) (link_id_from secret_key (header "X-Deletion-Token" r)) = false) →
  (get_link_info_view cfg secret_key code r s1).1 = (get_link_info_view cfg secret_key code r s2).1 ∧
  (get_extended_link_info_view cfg popular_threshold recent_days secret_key code r s1).1 =
    (get_extended_link_info_view cfg popular_threshold recent_days secret_key code r s2).1 ∧
  ∀ a, (get_extended_link_info_view cfg popular_threshold recent_days secret_key code r s1).1 ≠ Ok a.
Proof.
  intros Hg Hnobody Hnow Hk Hp Hl1 Hl2 Hn.
  destruct (stranger_views code k l1 r s1 Hnobody Hk Hl1) as [-> ->]; [auto|].
  destruct (stranger_views code k l2 r s2) as [-> ->]; [congruence|done..|auto|].
  rewrite Hnow. destruct (live_link_public code k l1 l2 (w_now (wb_world s2)) _ _ Hk Hl1 Hl2 Hp) as [-> ->].
  split_and!; [done..|]. intros a. rewrite /stranger_extended. by case_match.
Qed.
End strangers.

Module TokenDemo.
Import Demo.
#[local] Existing Instances Demo.folding Demo.words Demo.uuids Demo.uuids_inj Demo.url_rules
  Demo.generator Demo.calculator Demo.cache Demo.cache_laws.
#[local] Instance queue : TaskQueue Cache := null_enqueue link_settings.
#[local] Instance any_text : PydanticText := λ _, None.
#[local] Instance small_ints : PydanticInt := λ _, inl 60.
#[local] Instance no_digits : DecimalDigits := λ _, None.
#[local] Instance iso : IsoFormat := MkIsoFormat (λ t, lit "t" ++ str_of_Z t) (λ _, None).

(** A serializer without a signature: the payload behind a mark. *)
#[local] Instance plain_tokens : Serializer :=
  MkSerializer (λ _ _ j, 120 :: dumps j) (λ _ _ t, match t with 120 :: rest => loads rest | _ => None end).
#[local] Instance plain_tokens_laws : SerializerLaws.
Proof. constructor; [|done]. intros key salt s Hs. by apply (loads_dumps (JString s)). Qed.
Lemma scalar_ids n : forallb is_scalar (uuid4 n) = true.
Proof. induction n as [|n IH]; [done|exact IH]. Qed.

(** Guests may create links here. *)
Definition guests_create : Database :=
  set_roles [MkRole (lit "r1") GUEST_ROLE_NAME None true [MkPermission (lit "p1") LINK_CREATE (lit "link") (lit "create") None]] empty_db.
Lemma guests_inv : Inv (Demo.world guests_create).
Proof.
  constructor; [done| |intros k e _ [He|(l & Hl & _)]; by vm_compute in *|by intros m l _ Hl%elem_of_nil].
  split; [apply table_ok_nil|]. split; intros x Hx%elem_of_nil; done.
Qed.

Definition visitor : G := set_identity None None None None true empty_g.
Definition creation : Request :=
  MkRequest (lit "POST") (lit "/api/v1/shorten") (lit "maiz.link") (Some (lit "api.create_short_link"))
    (Some (lit "/api/v1/shorten")) (Some (lit "203.0.113.5")) [] [] []
    (Decoded (JObject [(lit "url", JString Demo.url)])).
Definition asking (method : string) (token : list (pystr * pystr)) : Request :=
  MkRequest (lit method) (lit "/api/v1/links/JoSz74") (lit "maiz.link") (Some (lit "api.delete_link"))
    (Some (lit "/api/v1/links/<short_code>")) (Some (lit "203.0.113.5")) token [] [] NotJson.
Definition made : result failure Response * Web Cache :=
  create_short_link_view link_settings (lit "key") [] creation (MkWeb visitor (Demo.world guests_create)).
Definition link_token : pystr := issue (lit "key") (uuid4 10).

Lemma made_answers : ∃ a, made = (Ok a, made.2) ∧
  answer_field "deletion_token" a = Some (JString link_token) ∧
  answer_field "short_code" a = Some (JString (lit "JoSz74")).
Proof.
  destruct made as [x s] eqn:Hm. simpl. apply (f_equal fst) in Hm. vm_compute in Hm. subst x.
  eexists. split; [reflexivity|]. split; vm_compute; reflexivity.
Qed.

Lemma the_maker_holds_the_key_witness : ∃ s2,
  delete_link_view (lit "key") [] (lit "JoSz74") (asking "DELETE" [(lit "X-Deletion-Token", link_token)])
    (MkWeb visitor (wb_world made.2)) = (Ok LINK_DELETED, s2) ∧ urls (w_db (wb_world s2)) = [].
Proof.
  destruct made_answers as (a & Hm & Ht & Hc).
  destruct (the_maker_holds_the_key link_settings (lit "key") [] creation
    (asking "DELETE" [(lit "X-Deletion-Token", link_token)]) (MkWeb visitor (Demo.world guests_create)) a made.2
    (lit "JoSz74") link_token visitor ltac:(discriminate) scalar_ids guests_inv Hm Ht Hc eq_refl eq_refl)
    as (s2 & Hd & Hu & _).
  exists s2. split; [exact Hd|exact Hu].
Defined.

(** The same link followed once. *)
Definition followed : World Cache := (update_link_stats link_settings (lit "JoSz74") Demo.guest created).2.
Lemma links_of_two : ∃ l1 l2, find_by_code demo_code (urls (w_db created)) = Some l1 ∧
  find_by_code demo_code (urls (w_db followed)) = Some l2 ∧ public_part l1 = public_part l2 ∧
  link_clicks l1 = 0 ∧ link_clicks l2 = 1 ∧ link_id l1 = uuid4 10 ∧ link_id l2 = uuid4 10.
Proof.
  destruct (find_by_code demo_code (urls (w_db created))) as [l1|] eqn:H1; vm_compute in H1; [|discriminate].
  destruct (find_by_code demo_code (urls (w_db followed))) as [l2|] eqn:H2; vm_compute in H2; [|discriminate].
  injection H1 as <-. injection H2 as <-. do 2 eexists. split_and!; reflexivity.
Qed.

Lemma a_deletion_token_is_for_one_link_witness : ∃ s',
  delete_link_view (lit "key") [] (lit "JoSz74")
    (asking "DELETE" [(lit "X-Deletion-Token", issue (lit "key") (lit "another"))]) (MkWeb visitor created) =
  (Err (Raised AUTHENTICATION_REQUIRED), s') ∧ w_db (wb_world s') = w_db created.
Proof.
  destruct links_of_two as (l1 & l2 & H1 & _ & _ & _ & _ & Hid & _).
  destruct (a_deletion_token_is_for_one_link (lit "key") [] (lit "JoSz74") demo_code l1
    (asking "DELETE" [(lit "X-Deletion-Token", issue (lit "key") (lit "another"))]) (MkWeb visitor created)
    created_inv eq_refl demo_code_found H1) as (s' & Hd & _ & Hdb).
  rewrite Hid in Hd, Hdb. exists s'. split; [exact Hd|exact Hdb].
Defined.

Lemma same_instant : w_now created = w_now followed.
Proof. vm_compute. reflexivity. Qed.

#[local] Instance utc_time : PydanticTime := isoformat.
Lemma strangers_learn_no_traffic_witness :
  (get_link_info_view link_settings (lit "key") (lit "JoSz74") (asking "GET" []) (MkWeb visitor created)).1 =
  (get_link_info_view link_settings (lit "key") (lit "JoSz74") (asking "GET" []) (MkWeb visitor followed)).1.
Proof.
  destruct links_of_two as (l1 & l2 & H1 & H2 & Hp & _).
  assert (∀ l, l = l1 ∨ l = l2 →
    is_link_id (link_id l) (link_id_from (lit "key") (header "X-Deletion-Token" (asking "GET" []))) = false) as Hn
    by (intros l _; reflexivity).
  destruct (strangers_learn_no_traffic link_settings 100 7 (lit "key") (lit "JoSz74") demo_code l1 l2
    (asking "GET" []) (MkWeb visitor created) (MkWeb visitor followed) eq_refl eq_refl same_instant
    demo_code_found Hp H1 H2 Hn) as [Heq _].
  exact Heq.
Defined.
End TokenDemo.
