(* ===== verification/LoggingChain.v ===== *)
(** * The chains that carry log lines and audit records

    [infrastructure/logging/managers/logger_manager.py] and
    [audit_manager.py], the components of [infrastructure/di/components]
    that hold them, and the report of [logging_status.py] and
    [status_reader.py].  A manager puts its implementations in an order and
    hands them to the failover service of [Failover]; which of them can be
    built is outside the model, and so are the process and the files it
    opened. *)

From S2P Require Import Prelude PyStr Json Exceptions Failover.

Inductive Chain := LOGGER | AUDIT.
Inductive Implementation := STRUCTLOG | STANDARD | NULL.

#[global] Instance Implementation_eq_dec : EqDecision Implementation.
Proof. solve_decision. Defined.

(** The name an implementation goes by in a chain. *)
Definition implementation_name (chain : Chain) (i : Implementation) : pystr :=
  match chain, i with
  | LOGGER, STRUCTLOG => lit "structlog" | LOGGER, STANDARD => lit "standard" | LOGGER, NULL => lit "null"
  | AUDIT, STRUCTLOG => lit "structlog_audit" | AUDIT, STANDARD => lit "standard_audit" | AUDIT, NULL => lit "null_audit"
  end.

Section managers.
Context `{CaseFolding} (chain : Chain) (can_build : Implementation → bool).

Definition preferred (type_ : option pystr) : list Implementation :=
  let type_ := lower (strip (default [] type_)) in
  if bool_decide (type_ = lit "auto") then [STRUCTLOG; STANDARD]
  else if bool_decide (type_ = lit "structlog") then [STRUCTLOG; STANDARD]
  else if bool_decide (type_ = lit "standard") then [STANDARD; STRUCTLOG]
  else if bool_decide (type_ = lit "null") then [NULL]
  else [STRUCTLOG; STANDARD].

(** A null logger is always to be had; when nothing else is, it is the
    chain. *)
Definition built (type_ : option pystr) : list Implementation :=
  match filter (λ i, i = NULL ∨ can_build i = true) (preferred type_) with [] => [NULL] | l => l end.

Definition UPGRADE_COOLDOWN : Z := 300.
Definition chain_config (l : list Implementation) : FailoverConfig :=
  MkFailoverConfig (implementation_name chain <$> l) true UPGRADE_COOLDOWN.

Inductive Manager :=
| Single (i : Implementation)
| Chained (cfg : FailoverConfig) (service : FailoverService).

Definition new_Manager (type_ : option pystr) : result exn Manager :=
  match built type_ with
  | [i] => Ok (Single i)
  | l => s ← new_FailoverService (chain_config l); mret (Chained (chain_config l) s)
  end.

(** [get_current_service_name]; nothing when the index is past the end. *)
Definition active_name (m : Manager) : option pystr :=
  match m with
  | Single i => Some (implementation_name chain i)
  | Chained cfg s => services cfg !! current_index s
  end.
Definition counters (m : Manager) : Z * Z * Z :=
  match m with
  | Single _ => (0, 0, 0)
  | Chained _ s => (dropped_calls s, failed_checks s, lost_log_lines s)
  end.
Definition check_value (o : CheckOutcome) : pystr :=
  lit match o with
  | NOT_RUN => "not run" | HEALTHY => "healthy" | UNHEALTHY => "unhealthy" | PROBE_FAILED => "probe failed"
  end.
Definition manager_last_check (m : Manager) : pystr :=
  check_value match m with Single _ => NOT_RUN | Chained _ s => last_check s end.

(** ** The component *)

(** [enabled], the type that was configured, and the manager once built. *)
Record LoggingComponent := MkLoggingComponent {
  lc_enabled : bool; lc_type : option pystr; lc_manager : option Manager;
}.
(** The first logger somebody asks for builds the manager. *)
Definition ensure_manager (c : LoggingComponent) : result exn LoggingComponent :=
  match lc_manager c with
  | Some _ => Ok c
  | None =>
      m ← new_Manager (if lc_enabled c then lc_type c else Some (lit "null"));
      mret (MkLoggingComponent (lc_enabled c) (lc_type c) (Some m))
  end.

Record ChainStatus := MkChainStatus {
  cs_active : pystr; cs_dropped_calls : Z; cs_failed_checks : Z; cs_lost_log_lines : Z; cs_last_check : pystr;
}.
Definition NOT_STARTED : pystr := lit "not started".
Definition chain_status (c : LoggingComponent) : option ChainStatus :=
  match lc_manager c with
  | None => Some (MkChainStatus NOT_STARTED 0 0 0 (check_value NOT_RUN))
  | Some m =>
      let '(dropped, failed, lost) := counters m in
      active ← active_name m;
      Some (MkChainStatus active dropped failed lost (manager_last_check m))
  end.
End managers.

(** The two chains of the service. *)
Section two_chains.
Context `{CaseFolding} (can_build : Implementation → bool).
Definition LoggerManager (logger_type : option pystr) : result exn Manager := new_Manager LOGGER can_build logger_type.
Definition AuditManager (audit_type : option pystr) : result exn Manager := new_Manager AUDIT can_build audit_type.
End two_chains.
Definition logger_chain_status : LoggingComponent → option ChainStatus := chain_status LOGGER.
Definition audit_chain_status : LoggingComponent → option ChainStatus := chain_status AUDIT.

Record JournalUnavailable := MkJournalUnavailable { ju_journal : pystr; ju_reason : pystr }.
Record LoggingStatus := MkLoggingStatus {
  ls_worker : Z; ls_logger : ChainStatus; ls_audit : ChainStatus;
  ls_written : list pystr; ls_unavailable : list JournalUnavailable;
}.
(** [ComponentLoggingStatus.read], with the process and its journals. *)
Definition read_status (pid : Z) (written : list pystr) (unavailable : list JournalUnavailable)
    (logger audit : LoggingComponent) : option LoggingStatus :=
  l ← logger_chain_status logger; a ← audit_chain_status audit;
  Some (MkLoggingStatus pid l a written unavailable).

(** ** What the proxies pass on *)

(** [_call] of the failover proxy and [_log] of a single logger: the bound
    fields, then those of the call, and the module, which is the bound one or
    the logger's own. *)
Definition line_fields (module_name : pystr) (bound kwargs : fields_t) : fields_t :=
  bound ++ kwargs ++ [(lit "module", default (JString module_name) (json_get (lit "module") bound))].

(** A bound field that a method of the audit trail takes by position is left
    out, so that the call does not receive it twice. *)
Definition POSITIONAL_FIELDS : list pystr := lit <$> ["short_code"; "original_url"; "event"]%string.
Definition audit_context (bound kwargs : fields_t) : fields_t :=
  filter (λ f, f.1 ∈ kwargs.*1 ∨ f.1 ∉ POSITIONAL_FIELDS) (bound ++ kwargs).

(** ** Facts *)

Section facts.
Context `{CaseFolding} (chain : Chain) (can_build : Implementation → bool).

Lemma built_nonempty type_ : built can_build type_ ≠ [].
Proof. rewrite /built. by case_match. Qed.

Lemma built_possible type_ i : i ∈ built can_build type_ → i = NULL ∨ can_build i = true.
Proof.
  rewrite /built. destruct (filter _ _) as [|x l] eqn:E; [set_solver|].
  intros Hi. rewrite -E in Hi. by apply list_elem_of_filter in Hi as [? _].
Qed.

Lemma built_disabled : built can_build (Some (lit "null")) = [NULL].
Proof. done. Qed.

(** A manager is always built, and holds what could be built in order. *)
Lemma new_Manager_ok type_ : ∃ m, new_Manager chain can_build type_ = Ok m ∧
  match m with
  | Single i => built can_build type_ = [i]
  | Chained cfg s => cfg = chain_config chain (built can_build type_) ∧ new_FailoverService cfg = Ok s ∧
      (1 < size cfg)%nat
  end.
Proof.
  rewrite /new_Manager. pose proof (built_nonempty type_) as Hne.
  destruct (built can_build type_) as [|i [|j l]]; [done|by eexists|].
  eexists. split; [done|]. split_and!; [done..|]. rewrite /size /=. lia.
Qed.

Lemma active_name_known cfg s : (current_index s < size cfg)%nat →
  ∃ name, active_name chain (Chained cfg s) = Some name ∧ name ∈ services cfg.
Proof.
  intros [name Hn]%lookup_lt_is_Some_2. exists name. split; [done|]. by eapply list_elem_of_lookup_2.
Qed.
End facts.
