(* ===== verification/Health.v ===== *)
(** * The health of the service

    [infrastructure/health/infrastructure_health_check.py] with
    [application/ports/health_check.py], the use case of
    [get_service_health.py], the [/health] route of [web/app_factory.py], the
    health report of the administration API and [flask maintenance health].

    The services that are asked are outside the model: a call to one takes
    some time, or never ends, and answers or raises ([Probe]).  The checks of
    the pool all start when the pool is filled and run beside each other; the
    code that waits for them asks for the result of one after the other.
    Times are readings of the monotonic clock in microseconds. *)

From S2P Require Import Prelude PyStr Json Exceptions ValueObjects Entities Policies Cache Database Links Failover WebRequest WebAuth WebErrors AuthViews LinkViews AdminViews LoggingChain.

(** ** Calls that take time *)

Record Probe (A : Type) := MkProbe { takes : option Z; comes_to : option A }.
Arguments MkProbe {A} takes comes_to.
Arguments takes {A} p.
Arguments comes_to {A} p.

Definition at_once {A} (a : A) : Probe A := MkProbe (Some 0) (Some a).

(** [try: return f(call) except Exception: return False]. *)
Definition asked {A} (f : A → bool) (c : Probe A) : Probe bool :=
  MkProbe (takes c) (Some (match comes_to c with Some a => f a | None => false end)).

(** ** What is asked *)

Record CacheHealth := MkCacheHealth { ch_configured : bool; ch_stores : bool; ch_ping : Probe bool }.
Definition redis_cache_health (ping : Probe bool) : CacheHealth := MkCacheHealth true true ping.
Definition memory_cache_health : CacheHealth := MkCacheHealth false true (at_once true).
Definition null_cache_health : CacheHealth := MkCacheHealth false false (at_once true).

(** What the service stands on at one moment: the database and which of the
    declared tables it lacks, the cache, the queue (with the replies of the
    workers when there is a broker) and the limiter. *)
Record Dependencies := MkDependencies {
  db_probe : Probe unit;
  db_missing_tables : Probe (list pystr);
  dep_cache : option CacheHealth;
  dep_queue : option (option (Probe nat));
  dep_limiter : option (Probe bool);
}.

Definition check_rate_limiter (d : Dependencies) : Probe bool :=
  match dep_limiter d with None => at_once true | Some c => asked id c end.
Definition check_database (d : Dependencies) : Probe bool := asked (λ _, true) (db_probe d).
Definition is_cache_configured (d : Dependencies) : bool := from_option ch_configured false (dep_cache d).
Definition does_cache_store (d : Dependencies) : bool := from_option ch_stores false (dep_cache d).
Definition check_cache (d : Dependencies) : Probe bool :=
  match dep_cache d with
  | None => at_once true
  | Some c => if negb (is_cache_configured d) then at_once true else asked id (ch_ping c)
  end.
Definition is_task_queue_configured (d : Dependencies) : bool :=
  match dep_queue d with Some (Some _) => true | _ => false end.
Definition check_task_queue (d : Dependencies) : Probe bool :=
  match dep_queue d with
  | None | Some None => at_once true
  | Some (Some replies) => asked (λ n, negb (Nat.eqb n 0)) replies
  end.

(** ** A snapshot *)

Record HealthSnapshot := MkHealthSnapshot {
  hs_database : bool; hs_cache : bool; hs_cache_configured : bool; hs_task_queue : bool; hs_rate_limiter : bool;
  hs_database_schema : bool; hs_task_queue_configured : bool; hs_cache_stores : bool; hs_timed_out : list pystr;
}.

Definition healthy (s : HealthSnapshot) : bool :=
  hs_database s && hs_database_schema s && (hs_cache s || negb (hs_cache_configured s)) &&
  hs_task_queue s && hs_rate_limiter s.

Definition answered (s : HealthSnapshot) (name : pystr) (ok : bool) : pystr :=
  if decide (name ∈ hs_timed_out s) then lit "timeout" else if ok then lit "ok" else lit "unavailable".

Definition DATABASE : pystr := lit "database".
Definition CACHE : pystr := lit "cache".
Definition TASK_QUEUE : pystr := lit "task_queue".
Definition RATE_LIMITER : pystr := lit "rate_limiter".

Definition component_states (s : HealthSnapshot) : list (pystr * pystr) :=
  let database := answered s DATABASE (hs_database s) in
  let database := if bool_decide (database = lit "ok") && negb (hs_database_schema s) then lit "no_schema" else database in
  let cache := if hs_cache_configured s then answered s CACHE (hs_cache s)
               else if hs_cache_stores s then lit "in_process" else lit "disabled" in
  [(DATABASE, database); (CACHE, cache);
   (TASK_QUEUE, if hs_task_queue_configured s then answered s TASK_QUEUE (hs_task_queue s) else lit "inline");
   (RATE_LIMITER, if hs_rate_limiter s then lit "enforcing" else lit "not_enforcing")].

(** ** An observation *)

(** When a check that was started at [started] is done. *)
Definition done_at {A} (started : Z) (c : Probe A) : option Z := (λ t, started + t) <$> takes c.

(** [_Deadline.remaining]. *)
Definition remaining (expires_at now : Z) : Z := Z.max 0 (expires_at - now).

(** [future.result(timeout=...)] at [now]: what it comes to and when.  A
    result that is there when the wait ends is returned. *)
Inductive Waited := Result (ok : bool) | FutureTimeout.
Definition future_result (started now timeout : Z) (c : Probe bool) : Waited * Z :=
  match done_at started c with
  | Some t => if t <=? now + timeout then (Result (default false (comes_to c)), Z.max now t) else (FutureTimeout, now + timeout)
  | None => (FutureTimeout, now + timeout)
  end.

(** One result after the other, each within what is left of the budget: the
    results, the names that ran out of it, and the time at the end. *)
Fixpoint wait_all (started expires_at now : Z) (checks : list (pystr * Probe bool))
    : list (pystr * bool) * list pystr * Z :=
  match checks with
  | [] => ([], [], now)
  | (name, c) :: checks =>
      let '(w, now) := future_result started now (remaining expires_at now) c in
      let '(results, timed_out, finished) := wait_all started expires_at now checks in
      match w with
      | Result ok => ((name, ok) :: results, timed_out, finished)
      | FutureTimeout => ((name, false) :: results, name :: timed_out, finished)
      end
  end.

Definition result_of (name : pystr) (results : list (pystr * bool)) : bool :=
  default false (snd <$> first (filter (λ r, r.1 = name) results)).

Record HealthCheck := MkHealthCheck { hc_cached : option HealthSnapshot; hc_cached_at : Z; hc_schema_seen : bool }.
Definition new_HealthCheck : HealthCheck := MkHealthCheck None 0 false.
Definition CACHE_TTL : Z := 2 * 1000000.

(** The answer of the schema, remembered once it is whole; [None] when the
    database never answers. *)
Definition check_schema (now : Z) (d : Dependencies) (seen : bool) : option (bool * bool * Z) :=
  if seen then Some (true, true, now)
  else
    t ← takes (db_missing_tables d);
    match comes_to (db_missing_tables d) with
    | Some missing => let whole := bool_decide (missing = []) in Some (whole, whole, now + t)
    | None => Some (false, seen, now + t)
    end.

Section observing.
Context (timeout : Z).

Definition checks (d : Dependencies) : list (pystr * Probe bool) :=
  [(DATABASE, check_database d); (CACHE, check_cache d); (TASK_QUEUE, check_task_queue d);
   (RATE_LIMITER, check_rate_limiter d)].

(** [_observe]: the schema first, on the caller's thread and outside the
    budget, then the pool. *)
Definition observe (now : Z) (d : Dependencies) (seen : bool) : option (HealthSnapshot * bool * Z) :=
  '(whole, seen, now) ← check_schema now d seen;
  let '(results, timed_out, finished) := wait_all now (now + timeout) now (checks d) in
  Some (MkHealthSnapshot (result_of DATABASE results) (result_of CACHE results) (is_cache_configured d)
          (result_of TASK_QUEUE results) (result_of RATE_LIMITER results) whole (is_task_queue_configured d)
          (does_cache_store d) timed_out, seen, finished).

(** [snapshot] by the caller that holds the lock: the answer, whether it was
    observed, and when the lock is free again. *)
Definition snapshot (now : Z) (d : Dependencies) (h : HealthCheck) : option (HealthSnapshot * HealthCheck * Z) :=
  match hc_cached h with
  | Some s => if now - hc_cached_at h <? CACHE_TTL then Some (s, h, now)
              else '(s, seen, finished) ← observe now d (hc_schema_seen h);
                   Some (s, MkHealthCheck (Some s) finished seen, finished)
  | None => '(s, seen, finished) ← observe now d (hc_schema_seen h);
            Some (s, MkHealthCheck (Some s) finished seen, finished)
  end.

(** Callers in the order in which they get the lock, each no sooner than it
    came and than the one before it left; [world t] is what the service
    stands on when it is asked at [t].  The answer of each and when it had
    it; [None] when one waits forever. *)
Fixpoint callers (world : Z → Dependencies) (free_at : Z) (arrivals : list Z) (h : HealthCheck)
    : option (list (HealthSnapshot * Z) * HealthCheck) :=
  match arrivals with
  | [] => Some ([], h)
  | a :: arrivals =>
      let now := Z.max a free_at in
      '(s, h, finished) ← snapshot now (world now) h;
      '(answers, h) ← callers world finished arrivals h;
      Some ((s, finished) :: answers, h)
  end.
End observing.

(** ** Who reports it *)

(** [/health]. *)
Definition health_route (s : HealthSnapshot) : Response :=
  let serves_requests := hs_database s && hs_database_schema s in
  let status := if negb serves_requests then lit "unhealthy" else if healthy s then lit "healthy" else lit "degraded" in
  plain (if serves_requests then 200 else 503)
    (JsonBody (JObject [(lit "status", JString status);
       (lit "components", JObject (prod_map id JString <$> component_states s))])).

Record ServiceHealthStatus := MkServiceHealthStatus {
  sh_database : bool; sh_database_schema : bool; sh_redis : bool; sh_cache_configured : bool; sh_task_queue : bool;
  sh_task_queue_configured : bool; sh_rate_limiter : bool; sh_components : list (pystr * pystr);
  sh_timed_out : list pystr; sh_logging : option LoggingStatus;
}.
Definition get_service_health (s : HealthSnapshot) (logging : option LoggingStatus) : ServiceHealthStatus :=
  MkServiceHealthStatus (hs_database s) (hs_database_schema s) (hs_cache s) (hs_cache_configured s) (hs_task_queue s)
    (hs_task_queue_configured s) (hs_rate_limiter s) (component_states s) (hs_timed_out s) logging.

Definition json_count (n : Z) : json := JNumber (str_of_Z n).
Definition chain_body (c : ChainStatus) : json :=
  JObject [(lit "active", JString (cs_active c)); (lit "dropped_calls", json_count (cs_dropped_calls c));
           (lit "failed_checks", json_count (cs_failed_checks c));
           (lit "lost_log_lines", json_count (cs_lost_log_lines c)); (lit "last_check", JString (cs_last_check c))].
Definition logging_body (l : LoggingStatus) : json :=
  JObject [(lit "worker", json_count (ls_worker l)); (lit "logger", chain_body (ls_logger l));
           (lit "audit", chain_body (ls_audit l)); (lit "journals_written", JArray (JString <$> ls_written l));
           (lit "journals_unavailable",
            JArray ((λ j, JObject [(lit "journal", JString (ju_journal j)); (lit "reason", JString (ju_reason j))])
                    <$> ls_unavailable l))].
Definition health_body (h : ServiceHealthStatus) : json :=
  JObject ([(lit "database", JBool (sh_database h)); (lit "database_schema", JBool (sh_database_schema h));
            (lit "cache", JBool (sh_redis h)); (lit "cache_configured", JBool (sh_cache_configured h));
            (lit "task_queue_configured", JBool (sh_task_queue_configured h));
            (lit "task_queue", JBool (sh_task_queue h)); (lit "rate_limiter", JBool (sh_rate_limiter h));
            (lit "components", JObject (prod_map id JString <$> sh_components h));
            (lit "timed_out", JArray (JString <$> sh_timed_out h))] ++
           from_option (λ l, [(lit "logging", logging_body l)]) [] (sh_logging h)).

(** [GET /api/v1/admin/health]. *)
Definition get_health_view {C} (s : HealthSnapshot) (logging : option LoggingStatus) : M (Web C) failure Response :=
  require_permission ADMIN_VIEW_SYSTEM_HEALTH (mret (plain 200 (JsonBody (health_body (get_service_health s logging))))).

(** [flask maintenance health]. *)
Definition ELLIPSIS : Z := 8230.
Definition within (text : pystr) (width : nat) : pystr :=
  if decide (length text <= width)%nat then text ++ replicate (width - length text) 32
  else take (width - 1) text ++ [ELLIPSIS].

Definition SAID : list (pystr * pystr) :=
  prod_map lit lit <$>
  [("ok", "OK"); ("unavailable", "FAILED"); ("timeout", "no answer within the budget");
   ("no_schema", "no schema -- run `flask alembic upgrade head`"); ("in_process", "in this process only, not shared");
   ("disabled", "not configured"); ("inline", "not configured"); ("enforcing", "OK"); ("not_enforcing", "FAILED")]%string.
Definition PASSING : list pystr := lit <$> ["ok"; "disabled"; "inline"; "enforcing"; "in_process"]%string.
Definition assoc {A} (k : pystr) (l : list (pystr * A)) : option A := snd <$> first (filter (λ f, f.1 = k) l).

(** What is printed, what is said on the error stream and the exit code;
    [None] when a state has no word. *)
Definition maintenance_health (s : HealthSnapshot) (written : list pystr) (unavailable : list JournalUnavailable)
    : option (list pystr * list pystr * Z) :=
  let verdicts := component_states s in
  lines ← mapM (λ part, v ← assoc part.2 verdicts; Some (part.1, v))
    [(lit "Database", DATABASE); (lit "Cache", CACHE); (lit "Task queue", TASK_QUEUE); (lit "Rate limiter", RATE_LIMITER)];
  let width := S (max_list (length <$> lines.*1)) in
  table ← mapM (λ line, word ← assoc line.2 SAID; Some (within (line.1 ++ lit ":") width ++ [32] ++ word)) lines;
  let opened := within (lit "Opened:") width ++ [32] ++
    (if decide (written = []) then lit "not configured" else join (lit ", ") written) in
  let missing := imap (λ number entry, within (if Nat.eqb number 0 then lit "Unavailable:" else []) width ++ [32] ++
    ju_journal entry ++ lit " (" ++ ju_reason entry ++ lit ")") unavailable in
  let slow := if decide (hs_timed_out s = []) then [] else [lit "Timed out: " ++ join (lit ", ") (hs_timed_out s)] in
  let failed := (filter (λ line, line.2 ∉ PASSING) lines).*1 in
  Some (table ++ [opened] ++ missing ++ slow,
        if healthy s then [] else [lit "Unhealthy: " ++ join (lit ", ") failed],
        if healthy s then 0 else 1).

(** [flask maintenance check-redis]: what is said, on which stream, and the
    exit code. *)
Definition check_redis (configured alive : bool) : pystr * bool * Z :=
  if negb configured then (lit "No cache backend is configured.", false, 0)
  else if alive then (lit "Cache backend is healthy.", false, 0)
  else (lit "Cache backend did not answer.", true, 1).

(** * What is claimed of the health report and the logging chains *)

(** ** Waiting *)

(** Whether a check that was started at [started] is done by [expires_at]. *)
Definition in_time (started expires_at : Z) {A} (c : Probe A) : bool :=
  match done_at started c with Some t => t <=? expires_at | None => false end.

Section waiting.
Context (started expires_at : Z).

(** What the loop comes to, with every check judged by itself. *)
Definition verdict (c : Probe bool) : bool := in_time started expires_at c && default false (comes_to c).
Definition late (checks : list (pystr * Probe bool)) : list pystr :=
  (filter (λ c, in_time started expires_at c.2 = false) checks).*1.

Lemma future_result_spec now c : now <= expires_at →
  ∃ t, future_result started now (remaining expires_at now) c =
    ((if in_time started expires_at c then Result (default false (comes_to c)) else FutureTimeout), t) ∧
    now <= t <= expires_at.
Proof.
  intros Hn. rewrite /future_result /remaining /in_time.
  replace (now + Z.max 0 (expires_at - now)) with expires_at by lia.
  destruct (done_at started c) as [t|]; [|eexists; split; [done|]; lia].
  destruct (t <=? expires_at) eqn:E; eexists; (split; [done|]); lia.
Qed.

Lemma wait_all_spec now checks : now <= expires_at →
  ∃ finished, wait_all started expires_at now checks =
    ((λ c, (c.1, verdict c.2)) <$> checks, late checks, finished) ∧ now <= finished <= expires_at.
Proof.
  revert now. induction checks as [|[name c] checks IH]; intros now Hn; [by exists now|].
  simpl. destruct (future_result_spec now c Hn) as (t & -> & Ht).
  destruct (IH t) as (finished & -> & Hf); [lia|]. exists finished. split; [|lia].
  rewrite /late /verdict filter_cons /=. by destruct (in_time started expires_at c).
Qed.
End waiting.

Lemma in_time_at_once t timeout {A} (a : A) : 0 <= timeout → in_time t (t + timeout) (at_once a) = true.
Proof. intros. rewrite /in_time /=. lia. Qed.

(** ** An observation *)

Section observation.
Context (timeout : Z) (Htimeout : 0 <= timeout).
Implicit Types (d : Dependencies) (s : HealthSnapshot).

(** When the schema answers, and what. *)
Definition schema_answer d (seen : bool) : bool :=
  seen || match comes_to (db_missing_tables d) with Some missing => bool_decide (missing = []) | None => false end.
Definition schema_time d (seen : bool) : option Z := if seen then Some 0 else takes (db_missing_tables d).

Lemma check_schema_spec now d seen :
  check_schema now d seen = (λ t, (schema_answer d seen, schema_answer d seen, now + t)) <$> schema_time d seen.
Proof.
  rewrite /check_schema /schema_answer /schema_time. destruct seen; simpl; [by rewrite Z.add_0_r|].
  destruct (takes _); [|done]. simpl. by destruct (comes_to _).
Qed.

(** The snapshot an observation comes to, whatever the order in which the
    results are asked for: a check counts when it is done within the budget. *)
Definition reported (started : Z) d (whole : bool) : HealthSnapshot :=
  let ok := verdict started (started + timeout) in
  MkHealthSnapshot (ok (check_database d)) (ok (check_cache d)) (is_cache_configured d) (ok (check_task_queue d))
    (ok (check_rate_limiter d)) whole (is_task_queue_configured d) (does_cache_store d)
    (late started (started + timeout) (checks d)).

Lemma observe_spec now d seen :
  match schema_time d seen with
  | None => observe timeout now d seen = None
  | Some t => ∃ finished,
      observe timeout now d seen =
        Some (reported (now + t) d (schema_answer d seen), schema_answer d seen, finished) ∧
      now + t <= finished <= now + t + timeout
  end.
Proof.
  rewrite /observe check_schema_spec. destruct (schema_time d seen) as [t|]; [|done].
  cbn [fmap option_fmap option_map mbind option_bind].
  destruct (wait_all_spec (now + t) (now + t + timeout) (now + t) (checks d)) as (finished & -> & Hf); [lia|].
  by exists finished.
Qed.

Lemma reported_timed_out t d whole name :
  name ∈ hs_timed_out (reported t d whole) →
  ∃ c, (name, c) ∈ checks d ∧ in_time t (t + timeout) c = false.
Proof.
  simpl. rewrite /late list_elem_of_fmap. intros ([n c] & -> & [Hc Hin]%list_elem_of_filter). by exists c.
Qed.

Lemma late_check t d name c : (name, c) ∈ checks d →
  name ∈ late t (t + timeout) (checks d) ↔ in_time t (t + timeout) c = false.
Proof.
  intros Hin. rewrite /late list_elem_of_fmap. split.
  - intros ([n c'] & Hn & [Hc' Hin']%list_elem_of_filter). simpl in Hn. subst n.
    assert (c' = c) as ->; [|done].
    apply list_elem_of_lookup in Hin as [i Hi]. apply list_elem_of_lookup in Hin' as [j Hj].
    assert (i = j) as ->; [|congruence].
    apply (NoDup_lookup (checks d).*1 i j name); [by apply (bool_decide_unpack _); vm_compute|..];
      rewrite list_lookup_fmap; [by rewrite Hi|by rewrite Hj].
  - intros Hc. exists (name, c). split; [done|]. by apply list_elem_of_filter.
Qed.

Lemma reported_late t d whole name c : (name, c) ∈ checks d →
  name ∈ hs_timed_out (reported t d whole) → verdict t (t + timeout) c = false.
Proof. intros Hin Hl. apply (late_check t d name c Hin) in Hl. by rewrite /verdict Hl. Qed.

Lemma reported_inline t d whole :
  hs_task_queue_configured (reported t d whole) = false → hs_task_queue (reported t d whole) = true.
Proof.
  rewrite /= /is_task_queue_configured /check_task_queue.
  destruct (dep_queue d) as [[]|]; [done|intros _..]; by rewrite /verdict in_time_at_once.
Qed.
End observation.

(** ** What the reports make of a snapshot *)

(** What holds of a snapshot that was observed. *)
Record consistent (s : HealthSnapshot) : Prop := {
  late_database : DATABASE ∈ hs_timed_out s → hs_database s = false;
  late_cache : CACHE ∈ hs_timed_out s → hs_cache s = false;
  late_queue : TASK_QUEUE ∈ hs_timed_out s → hs_task_queue s = false;
  inline_queue : hs_task_queue_configured s = false → hs_task_queue s = true;
}.

Lemma reported_consistent timeout t d whole : 0 <= timeout → consistent (reported timeout t d whole).
Proof.
  intros Ht. split; [intros Hl..|by apply reported_inline].
  - apply (reported_late timeout t d whole DATABASE (check_database d)); [rewrite /checks; set_solver|done].
  - apply (reported_late timeout t d whole CACHE (check_cache d)); [rewrite /checks; set_solver|done].
  - apply (reported_late timeout t d whole TASK_QUEUE (check_task_queue d)); [rewrite /checks; set_solver|done].
Qed.

Definition passes (v : pystr) : bool := bool_decide (v ∈ PASSING).

Lemma answered_passes s name ok : (name ∈ hs_timed_out s → ok = false) → passes (answered s name ok) = ok.
Proof. rewrite /answered. case_decide; [by intros ->|]. by destruct ok. Qed.

(** The verdict is that every component passes. *)
Lemma healthy_passes s : consistent s → healthy s = forallb (passes ∘ snd) (component_states s).
Proof.
  intros [Hd Hc Hq Hi]. rewrite /healthy /component_states /=.
  pose proof (answered_passes s CACHE _ Hc) as Pc. pose proof (answered_passes s TASK_QUEUE _ Hq) as Pq.
  assert (∀ b : bool, passes (if bool_decide (answered s DATABASE (hs_database s) = lit "ok") && negb b
    then lit "no_schema" else answered s DATABASE (hs_database s)) = hs_database s && b) as ->.
  { intros b. rewrite /answered. case_decide as E; [by rewrite (Hd E)|]. by destruct (hs_database s), b. }
  destruct (hs_cache_configured s), (hs_task_queue_configured s); rewrite ?Pc ?Pq ?(Hi eq_refl) /=;
    destruct (hs_database s), (hs_database_schema s), (hs_cache s), (hs_task_queue s), (hs_rate_limiter s),
      (hs_cache_stores s); done.
Qed.

(** The components by the titles the command prints, with their states. *)
Definition titled (s : HealthSnapshot) : list (pystr * pystr) :=
  zip (lit <$> ["Database"; "Cache"; "Task queue"; "Rate limiter"]%string) (component_states s).*2.
(** The titles of those that do not pass. *)
Definition failing (s : HealthSnapshot) : list pystr := (filter (λ line, line.2 ∉ PASSING) (titled s)).*1.

Lemma answered_said s name ok : is_Some (assoc (answered s name ok) SAID).
Proof. rewrite /answered. case_decide; [|destruct ok]; vm_compute; by eexists. Qed.

Lemma states_shape s : ∃ a b c e,
  component_states s = [(DATABASE, a); (CACHE, b); (TASK_QUEUE, c); (RATE_LIMITER, e)] ∧
  is_Some (assoc a SAID) ∧ is_Some (assoc b SAID) ∧ is_Some (assoc c SAID) ∧ is_Some (assoc e SAID).
Proof.
  pose proof (answered_said s) as Ha. rewrite /component_states. eexists _, _, _, _. split; [done|].
  split_and!; repeat case_match; try apply Ha; vm_compute; by eexists.
Qed.

Lemma failing_none s : failing s = [] ↔ forallb (passes ∘ snd) (component_states s) = true.
Proof.
  rewrite /failing /titled. destruct (states_shape s) as (a & b & c & e & -> & _).
  rewrite /= !filter_cons filter_nil /passes /=. repeat case_decide; simpl;
    rewrite ?bool_decide_eq_true_2 ?bool_decide_eq_false_2 //; try by split.
  all: by repeat match goal with H : ¬ ¬ (?v ∈ PASSING) |- _ => apply dec_stable in H; rewrite (bool_decide_eq_true_2 _ H) end.
Qed.

Lemma maintenance_health_spec s written unavailable : ∃ out,
  maintenance_health s written unavailable =
    Some (out, if healthy s then [] else [lit "Unhealthy: " ++ join (lit ", ") (failing s)], if healthy s then 0 else 1).
Proof.
  rewrite /maintenance_health /failing /titled.
  destruct (states_shape s) as (a & b & c & e & -> & [wa Ha] & [wb Hb] & [wc Hc] & [we He]).
  eexists. cbn [mapM]. simpl. rewrite Ha Hb Hc He /=. done.
Qed.

Section claims.
Context (timeout : Z) (Htimeout : 0 <= timeout).

(** C31: An observation ends as soon as the database has said which tables it
    lacks and at most the configured budget after that, however many
    dependencies hang; a dependency is named as timed out exactly when it
    needs longer than the budget, whatever the order in which the results are
    collected, and one that is not is reported by its own answer.  Once the
    schema was seen whole it is not asked about again, and the budget bounds
    the whole observation. *)
Theorem an_observation_keeps_its_budget now d seen :
  (∀ t, schema_time d seen = Some t → ∃ s finished,
     observe timeout now d seen = Some (s, schema_answer d seen, finished) ∧ finished <= now + t + timeout ∧
     (∀ name c, (name, c) ∈ checks d → name ∈ hs_timed_out s ↔ ∀ n, takes c = Some n → timeout < n) ∧
     hs_database s = verdict (now + t) (now + t + timeout) (check_database d) ∧
     hs_cache s = verdict (now + t) (now + t + timeout) (check_cache d) ∧
     hs_task_queue s = verdict (now + t) (now + t + timeout) (check_task_queue d) ∧
     hs_rate_limiter s = verdict (now + t) (now + t + timeout) (check_rate_limiter d)) ∧
  (schema_answer d seen = true → schema_time d (schema_answer d seen) = Some 0).
Proof.
  split; [|by intros ->]. intros t Ht. pose proof (observe_spec timeout Htimeout now d seen) as Ho. rewrite Ht in Ho.
  destruct Ho as (finished & -> & Hf). eexists _, finished. split; [done|]. split; [lia|]. split; [|done].
  intros name c Hin. cbn [reported hs_timed_out]. rewrite (late_check timeout _ _ _ _ Hin) /in_time /done_at.
  destruct (takes c) as [n|]; simpl; [|by split].
  split; [intros Hn m [= <-]; lia|]. intros Hall. specialize (Hall n eq_refl). lia.
Qed.

(** The liveness route, [flask maintenance health] and the snapshot agree
    about what was observed: the command exits with 0 exactly when the route
    says [healthy], exactly when no component is in a state that fails; when
    the command fails it names the components in such a state, of which there
    is at least one; and the route answers 503 exactly when the database does
    not answer within the budget or lacks a table. *)
Theorem the_reports_agree now d seen s seen' finished written unavailable :
  observe timeout now d seen = Some (s, seen', finished) →
  (∃ out err code, maintenance_health s written unavailable = Some (out, err, code) ∧
     (code = 0 ↔ failing s = []) ∧
     err = (if decide (failing s = []) then [] else [lit "Unhealthy: " ++ join (lit ", ") (failing s)])) ∧
  ∃ status, health_route s =
    plain (if decide (status = lit "unhealthy") then 503 else 200)
      (JsonBody (JObject [(lit "status", JString status);
         (lit "components", JObject (prod_map id JString <$> component_states s))])) ∧
    (status = lit "healthy" ↔ failing s = []) ∧
    (status = lit "unhealthy" ↔ assoc DATABASE (component_states s) ≠ Some (lit "ok")).
Proof.
  intros Hobs. pose proof (observe_spec timeout Htimeout now d seen) as Ho.
  destruct (schema_time d seen) as [t|]; [|congruence]. destruct Ho as (f & Ho & _).
  rewrite Ho in Hobs. injection Hobs as <- _ _.
  pose proof (reported_consistent timeout (now + t) d (schema_answer d seen) Htimeout) as Hs.
  remember (reported timeout (now + t) d (schema_answer d seen)) as s eqn:E. clear E Ho.
  pose proof (healthy_passes s Hs) as Hh. pose proof (failing_none s) as Hf. rewrite -Hh in Hf. split.
  - destruct (maintenance_health_spec s written unavailable) as [out Hm]. rewrite Hm. eexists _, _, _. split; [done|].
    destruct (healthy s); [split; [by rewrite Hf|]; by rewrite decide_True; [|apply Hf]|].
    split; [split; [done|by intros ?%Hf]|]. by rewrite decide_False; [|by intros ?%Hf].
  - exists (if negb (hs_database s && hs_database_schema s) then lit "unhealthy"
            else if healthy s then lit "healthy" else lit "degraded"). rewrite Hf.
    assert (assoc DATABASE (component_states s) = Some (lit "ok") ↔ hs_database s && hs_database_schema s = true) as ->.
    { rewrite /component_states /assoc filter_cons /=. rewrite /answered. destruct Hs as [Hd _ _ _].
      case_decide as Hl; [rewrite (Hd Hl); by vm_compute|]. by destruct (hs_database s), (hs_database_schema s); vm_compute. }
    rewrite /health_route. destruct (hs_database s && hs_database_schema s) eqn:E.
    + destruct (healthy s); (split; [done|]); split; by vm_compute.
    + assert (healthy s = false) as -> by (rewrite /healthy E; done). split; [done|]. split; by vm_compute.
Qed.
End claims.

(** ** Callers that come together *)

Section bursts.
Context (timeout : Z) (world : Z → Dependencies).

(** With a fresh snapshot at hand nobody observes. *)
Lemma fresh_callers s stamp seen arrivals free_at :
  free_at < stamp + CACHE_TTL → Forall (λ b, b < stamp + CACHE_TTL) arrivals →
  ∃ answers, callers timeout world free_at arrivals (MkHealthCheck (Some s) stamp seen) =
    Some (answers, MkHealthCheck (Some s) stamp seen) ∧
    Forall2 (λ b x, x.1 = s ∧ b <= x.2 < stamp + CACHE_TTL ∧
      (Forall (λ b, b <= free_at) arrivals → x.2 = free_at)) arrivals answers.
Proof.
  intros Hfree Hall. revert free_at Hfree. induction Hall as [|b arrivals Hb _ IH]; intros free_at Hfree; [by exists []|].
  destruct (IH (Z.max b free_at)) as (answers & Ha & HF); [lia|].
  exists ((s, Z.max b free_at) :: answers). simpl. rewrite /snapshot /=.
  rewrite (_ : Z.max b free_at - stamp <? CACHE_TTL = true); [|lia]. simpl. rewrite Ha /=. split; [done|].
  constructor; [split; [done|]; split; [simpl; lia|]; simpl; intros HF'%Forall_inv; simpl in HF'; lia|].
  apply (list.Forall2_impl _ _ _ _ HF). intros b' x (Hx & Ht & He). split; [done|]. split; [done|].
  intros [Hbf Hle]%list.Forall_cons. rewrite He; [lia|]. apply (list.Forall_impl _ _ _ Hle). intros c Hc. lia.
Qed.

(** However many callers ask for the health of the service at once, one
    observation is taken: everybody who comes before it is two seconds old
    gets its answer, and those who came while it was being taken have it the
    moment it is done, so that a slow dependency does not make them queue. *)
Theorem a_burst_costs_one_observation free_at first_ others h s h' finished :
  snapshot timeout (Z.max first_ free_at) (world (Z.max first_ free_at)) h = Some (s, h', finished) →
  (Z.max first_ free_at < finished ∨ hc_cached h = None) →
  Forall (λ b, b < finished + CACHE_TTL) others →
  ∃ answers, callers timeout world free_at (first_ :: others) h = Some ((s, finished) :: answers, h') ∧
    Forall2 (λ b x, x.1 = s ∧ b <= x.2 ∧ (Forall (λ b, b <= finished) others → x.2 = finished)) others answers.
Proof.
  intros Hs Hobs Hothers.
  assert (∃ seen, h' = MkHealthCheck (Some s) finished seen) as [seen ->].
  { revert Hs. rewrite /snapshot. destruct (hc_cached h) as [s0|] eqn:Hc.
    - destruct (_ <? CACHE_TTL) eqn:El; [intros Hx; injection Hx as <- <- Hx; destruct Hobs; [lia|done]|].
      destruct (observe _ _ _ _) as [[[s1 seen] f]|]; [|done]. intros Hx. simplify_eq/=. by eexists.
    - destruct (observe _ _ _ _) as [[[s1 seen] f]|]; [|done]. intros Hx. simplify_eq/=. by eexists. }
  cbn [callers]. rewrite Hs. cbn [mbind option_bind].
  destruct (fresh_callers s finished seen others finished) as (answers & -> & HF); [rewrite /CACHE_TTL; lia|done|].
  exists answers. split; [done|]. apply (list.Forall2_impl _ _ _ _ HF). intros b x (? & ? & ?). split; [done|]. split; [lia|done].
Qed.
End bursts.

(** ** The chains *)

Section chains.
Context `{CaseFolding} (chain : Chain) (can_build : Implementation → bool) (logger_raises : nat → bool) {R : Type}.

Lemma call_step_range cfg answer s (c : call R) : (current_index s < size cfg)%nat →
  (current_index (call_step cfg logger_raises answer s c).1 < size cfg)%nat.
Proof.
  intros Hs. rewrite /call_step /switch_to_next. repeat case_match; simplify_eq; simpl in *; try done;
    repeat case_bool_decide; simplify_eq; simpl; lia.
Qed.

Lemma chain_range cfg behaves may_report (y y' : system R) :
  rtc (sys_step cfg logger_raises behaves may_report) y y' →
  (current_index (shared y) < size cfg)%nat → (current_index (shared y') < size cfg)%nat.
Proof.
  induction 1 as [|y1 y2 y3 Hst _ IH]; [done|]. intros Hr. apply IH. destruct Hst; simpl in *; [done|..].
  - pose proof (call_step_range cfg answer s c Hr) as Hk. match goal with E : call_step _ _ _ _ _ = _ |- _ => by rewrite E in Hk end.
  - by apply round_range.
Qed.

(** Whatever type of logging is configured and whichever implementations
    cannot be built, the first logger somebody asks for builds a chain, a null
    one when logging is switched off; and however calls and background rounds
    interleave from then on, the report of the chain can be read and names an
    implementation that was built. *)
Theorem a_chain_always_has_a_logger c : lc_manager c = None →
  ∃ m, ensure_manager chain can_build c = Ok (MkLoggingComponent (lc_enabled c) (lc_type c) (Some m)) ∧
    (lc_enabled c = false → m = Single NULL) ∧
    match m with
    | Single i => i = NULL ∨ can_build i = true
    | Chained cfg s => ∀ behaves may_report (y : system R),
        rtc (sys_step cfg logger_raises behaves may_report) (MkSystem s []) y →
        ∃ st i, chain_status chain (MkLoggingComponent (lc_enabled c) (lc_type c) (Some (Chained cfg (shared y)))) = Some st ∧
          cs_active st = implementation_name chain i ∧ (i = NULL ∨ can_build i = true)
    end.
Proof.
  intros Hc. rewrite /ensure_manager Hc.
  destruct (new_Manager_ok chain can_build (if lc_enabled c then lc_type c else Some (lit "null"))) as (m & -> & Hm).
  exists m. split; [done|]. split.
  { intros Hoff. rewrite Hoff in Hm. destruct m as [i|cfg s]; [rewrite built_disabled in Hm; by simplify_eq|].
    destruct Hm as (-> & _ & Hn). rewrite built_disabled /size /= in Hn. lia. }
  destruct m as [i|cfg s]; [apply (built_possible can_build (if lc_enabled c then lc_type c else Some (lit "null"))); rewrite Hm; by apply list_elem_of_singleton|].
  destruct Hm as (-> & Hs & Hn). intros behaves may_report y Hy.
  rewrite /new_FailoverService in Hs. case_bool_decide; [done|]. injection Hs as <-.
  apply chain_range in Hy; [|eapply Nat.lt_trans; [|exact Hn]; cbn; lia].
  destruct (active_name_known chain _ _ Hy) as (name & Ha & Hin). rewrite /chain_status. cbn [lc_manager counters].
  rewrite Ha. apply list_elem_of_fmap in Hin as (i & -> & Hi). eexists _, i. split; [done|]. split; [done|].
  by eapply built_possible.
Qed.
End chains.

Module HealthDemo.
(** Redis hangs, the workers answer after a second. *)
Definition second : Z := 1000000.
Definition standing : Dependencies :=
  MkDependencies (MkProbe (Some 2000) (Some tt)) (MkProbe (Some 5000) (Some []))
    (Some (redis_cache_health (MkProbe None None))) (Some (Some (MkProbe (Some second) (Some 1%nat)))) None.
Definition seen_at_noon := observe (5 * second) 0 standing false.

Example only_the_hanging_cache_is_named :
  (λ x, (component_states x.1.1, x.2)) <$> seen_at_noon =
  Some ([(DATABASE, lit "ok"); (CACHE, lit "timeout"); (TASK_QUEUE, lit "ok"); (RATE_LIMITER, lit "enforcing")],
        5 * second + 5000).
Proof. by vm_compute. Qed.

Lemma an_observation_keeps_its_budget_witness : ∃ s finished,
  observe (5 * second) 0 standing false = Some (s, true, finished) ∧ finished <= 0 + 5000 + 5 * second.
Proof.
  destruct (an_observation_keeps_its_budget (5 * second) ltac:(vm_compute; discriminate) 0 standing false) as [H _].
  destruct (H 5000 eq_refl) as (s & f & Hs & Hf & _). exists s, f. split; [exact Hs|exact Hf].
Defined.

Definition at_noon : HealthSnapshot := reported (5 * second) 5000 standing true.

Lemma the_reports_agree_witness : failing at_noon = [lit "Cache"] ∧
  ∃ out err code, maintenance_health at_noon [] [] = Some (out, err, code) ∧ (code = 0 ↔ failing at_noon = []).
Proof.
  split; [vm_compute; reflexivity|].
  destruct (the_reports_agree (5 * second) ltac:(vm_compute; discriminate) 0 standing false at_noon true (5 * second + 5000)
    [] [] ltac:(vm_compute; reflexivity)) as [(out & err & code & Hm & Hc & _) _].
  exists out, err, code. split; [exact Hm|exact Hc].
Defined.

(** Four more callers while the first one waits for Redis. *)
Lemma a_burst_costs_one_observation_witness : ∃ answers h',
  callers (5 * second) (λ _, standing) 0 [0; 10; 20; 30; 40] new_HealthCheck = Some ((at_noon, 5 * second + 5000) :: answers, h') ∧
  length answers = 4%nat.
Proof.
  destruct (a_burst_costs_one_observation (5 * second) (λ _, standing) 0 0 [10; 20; 30; 40] new_HealthCheck at_noon
    (MkHealthCheck (Some at_noon) (5 * second + 5000) true) (5 * second + 5000)) as (answers & Ha & HF).
  - vm_compute. reflexivity.
  - left. vm_compute. reflexivity.
  - repeat constructor.
  - exists answers, (MkHealthCheck (Some at_noon) (5 * second + 5000) true). split; [exact Ha|].
    symmetry. exact (Forall2_length HF).
Defined.

(** The question about the tables is outside the budget: a database that
    needs a minute to refuse it holds the liveness route for a minute, and
    again at every observation until the schema is there. *)
Definition slow_schema : Dependencies :=
  MkDependencies (MkProbe (Some 2000) (Some tt)) (MkProbe (Some (60 * second)) None) None None None.
Example the_schema_question_is_outside_the_budget :
  (λ x, x.2) <$> observe (5 * second) 0 slow_schema false = Some (60 * second + 2000) ∧
  (λ x, x.1.*2) <$> callers (5 * second) (λ _, slow_schema) 0 [0; 90 * second] new_HealthCheck =
    Some [60 * second + 2000; 150 * second + 2000].
Proof. by vm_compute. Qed.

(** A limiter that hangs is not told from one that refuses to enforce. *)
Definition slow_limiter : Dependencies :=
  MkDependencies (at_once tt) (at_once []) None None (Some (MkProbe None None)).
Example a_hanging_limiter_is_reported_as_not_enforcing :
  (λ x, (hs_timed_out x.1.1, assoc RATE_LIMITER (component_states x.1.1))) <$> observe second 0 slow_limiter false =
  Some ([RATE_LIMITER], Some (lit "not_enforcing")).
Proof. by vm_compute. Qed.

#[local] Instance folding : CaseFolding := id.
Definition component : LoggingComponent := MkLoggingComponent true (Some (lit " Standard ")) None.
Lemma a_chain_always_has_a_logger_witness : ∃ m,
  ensure_manager AUDIT (λ _, true) component = Ok (MkLoggingComponent true (Some (lit " Standard ")) (Some m)).
Proof.
  destruct (a_chain_always_has_a_logger AUDIT (λ _, true) (λ _, false) (R := nat) component eq_refl) as (m & Hm & _).
  exists m. exact Hm.
Defined.
End HealthDemo.
