(* ===== verification/AdminViewClaims.v ===== *)
(** * What the administration views allow *)

From S2P Require Import LoggingChain Health Prelude PyStr Json Exceptions ValueObjects Entities Policies Cache MemoryCache Database LinkRepo UserRepo Sessions Auth AuthTheorems Admin AdminTheorems AdminClaims Links Stats RedisCache RateLimit UrlParse WebRequest WebAuth Csrf WebErrors AuthViews LinkViews AdminViews WebTheorems AuthViewClaims Demo.

Section claims.
Context {C Stats : Type} `{ServiceCache C Stats} `{PydanticText} `{PydanticBool} `{Bcrypt} `{SecretTokens}.
Context `{MailQueue C} `{CaseFolding} `{UuidSupply} `{IsoFormat} `{DecimalDigits} `{TokenCodec}.
Context (cfg : AuthSettings) (links : LinkSettings) (trusted_proxies : list pystr).
Implicit Types (s : Web C) (r : Request).

(** The routes of the blueprint with the permission each asks for. *)
Definition admin_views (uid name : pystr) (health : HealthSnapshot * option LoggingStatus) (r : Request) : list (pystr * M (Web C) failure Response) :=
  [(ADMIN_MANAGE_USERS, create_user_view cfg trusted_proxies r);
   (ADMIN_VIEW_USERS, list_users_view r);
   (ADMIN_VIEW_USERS, get_user_view uid r);
   (ADMIN_MANAGE_USERS, update_user_roles_view trusted_proxies uid r);
   (ADMIN_MANAGE_USERS, confirm_user_email_view trusted_proxies uid r);
   (ADMIN_MANAGE_USERS, resend_verification_view_admin cfg trusted_proxies uid r);
   (ADMIN_MANAGE_USERS, deactivate_user_view trusted_proxies uid r);
   (ADMIN_MANAGE_USERS, activate_user_view trusted_proxies uid r);
   (ADMIN_MANAGE_USERS, delete_user_view trusted_proxies uid r);
   (ADMIN_VIEW_USERS, get_user_stats_view links uid r);
   (ADMIN_MANAGE_ROLES, create_role_view trusted_proxies r);
   (ADMIN_VIEW_ROLES, list_roles_view r);
   (ADMIN_VIEW_ROLES, get_role_view name r);
   (ADMIN_MANAGE_ROLES, update_role_permissions_view trusted_proxies name r);
   (ADMIN_MANAGE_ROLES, delete_role_view cfg trusted_proxies name r);
   (ADMIN_VIEW_SYSTEM_HEALTH, get_health_view health.1 health.2)].

Lemma require_permission_refuses {A} p (view : M (Web C) failure A) s :
  g_authorization_service (wb_g s) = true → is_allowed (w_db (wb_world s)) (g_domain_user (wb_g s)) p = false →
  require_permission p view s =
    (Err (Raised (match g_domain_user (wb_g s) with
                  | None => UNAUTHENTICATED
                  | Some _ => PermissionDeniedError [p] []
                  end)), s).
Proof.
  intros Hg Hp. rewrite /require_permission bind_g Hg /=.
  rewrite /mbind /M_bind /g_is_allowed /in_world /=. rewrite Hp.
  destruct s as [g w]. simpl. by destruct (g_domain_user g).
Qed.

Lemma require_permission_ok {A} p (view : M (Web C) failure A) s a s' :
  require_permission p view s = (Ok a, s') → view s = (Ok a, s').
Proof.
  rewrite /require_permission bind_g. destruct (negb _); [done|].
  rewrite {1}/mbind {1}/M_bind /g_is_allowed /in_world /=. destruct s as [g w].
  destruct (is_allowed _ _ _); [done|]. by destruct (g_domain_user _).
Qed.

(** C13: an administration request of a caller without the permission its route
    asks for is refused, as unauthenticated for somebody who is not signed in
    and as forbidden for an account, and nothing at all changes. *)
Theorem administration_needs_its_permission uid name health r s p view :
  (p, view) ∈ admin_views uid name health r →
  g_authorization_service (wb_g s) = true → is_allowed (w_db (wb_world s)) (g_domain_user (wb_g s)) p = false →
  view s = (Err (Raised (match g_domain_user (wb_g s) with
                         | None => UNAUTHENTICATED
                         | Some _ => PermissionDeniedError [p] []
                         end)), s).
Proof.
  intros Hin Hg Hp. rewrite /admin_views in Hin.
  repeat (apply list.elem_of_cons in Hin as [[= -> ->]|Hin]; [by apply require_permission_refuses|]).
  by apply elem_of_nil in Hin.
Qed.

(** A deactivated account acts no more: once the view has answered, no
    request, with whatever credential, is attributed to the account. *)
Theorem a_deactivated_account_acts_no_more uid r s a s1 now r' u sid source :
  accounts_ok (w_db (wb_world s)) → deactivate_user_view trusted_proxies uid r s = (Ok a, s1) →
  standing_of now (w_db (wb_world s1)) r' = Account u sid source → user_id u ≠ uid.
Proof.
  intros Hok Hrun Hst Hu. apply require_permission_ok in Hrun. rewrite /context_of bind_assoc bind_g bind_ret_l in Hrun.
  apply bind_ok_inv in Hrun as (resp & s2 & Hd & Hret). injection Hret as _ <-.
  rewrite /in_world in Hd. destruct (deactivate_user _ _ _) as [[v|e] w'] eqn:Hrun; [|done]. injection Hd as <- <-.
  apply deactivation_closes_the_account in Hrun as (_ & _ & Husers & _); [|done].
  apply standing_account in Hst as (token & payload & _ & _ & _ & _ & _ & Hf & Hactive).
  apply find_user_by_id_id in Hf as Hid. simpl in Hf.
  apply load_user_Some in Hf as (m & [Hm Hmid]%first_filter_Some & Hdom). rewrite Husers in Hm.
  apply elem_of_update_where in Hm as (m0 & _ & ->). rewrite -Hid Hu in Hmid.
  revert Hdom. rewrite /orm_to_domain. intros Hdom.
  apply result_bind_ok in Hdom as (e & _ & Hdom). apply result_bind_ok in Hdom as (ph & _ & Hdom). injection Hdom as <-.
  simpl in Hactive. case_decide; done.
Qed.
End claims.

Module AdminViewDemo.
Import Demo AdminDemo.
#[local] Existing Instances Demo.folding Demo.uuids Demo.cache AdminDemo.secrets AdminDemo.bcrypt AdminDemo.mail.
#[local] Instance any_text : PydanticText := λ _, None.
#[local] Instance true_only : PydanticBool := λ _, inl true.
#[local] Instance no_digits : DecimalDigits := λ _, None.
#[local] Instance iso : IsoFormat := MkIsoFormat (λ t, str_of_Z t) (λ _, None).
(** A token names the account and is its login. *)
#[local] Instance codec : TokenCodec := {|
  jwt_encode c := cl_sub c;
  jwt_decode _ t := Some (MkClaims t [] 0 0 ACCESS None (Some (lit "of " ++ t)));
|}.

Definition sessions : list RefreshSession :=
  [create_refresh_session 0 (lit "s0") (lit "u0") (lit "of u0") DAY None;
   create_refresh_session 0 (lit "s1") (lit "u1") (lit "of u1") DAY None].
Definition two_logins : World Cache := MkWorld (set_refresh_sessions sessions db) None empty_cache 1 10 [] [] None.
Lemma two_logins_ok : accounts_ok (w_db two_logins).
Proof. apply (bool_decide_unpack _). vm_compute. exact I. Qed.

Definition sent_by (uid : string) : Request :=
  MkRequest (lit "POST") (lit "/api/v1/admin/users/u1/deactivate") (lit "maiz.link")
    (Some (lit "admin_api.deactivate_user")) None None [(lit "Authorization", lit "Bearer " ++ lit uid)] [] [] NotJson.
Definition standing (uid : string) (w : World Cache) := standing_of 1 (w_db w) (sent_by uid).
Definition caller (uid : string) : G := identified (standing uid two_logins) empty_g.

Definition quiet : HealthSnapshot := MkHealthSnapshot true true true true true true true true [].
Lemma administration_needs_its_permission_witness :
  delete_user_view [] (lit "u0") (sent_by "u1") (MkWeb (caller "u1") two_logins) =
    (Err (Raised (PermissionDeniedError [ADMIN_MANAGE_USERS] [])), MkWeb (caller "u1") two_logins).
Proof.
  apply (administration_needs_its_permission settings link_settings [] (lit "u0") [] (quiet, None) (sent_by "u1")
    (MkWeb (caller "u1") two_logins) ADMIN_MANAGE_USERS).
  - do 8 right. left.
  - vm_compute. reflexivity.
  - vm_compute. reflexivity.
Defined.

Definition dismissed : result failure Response * Web Cache :=
  deactivate_user_view [] (lit "u1") (sent_by "u0") (MkWeb (caller "u0") two_logins).

(** The administrator goes on, the account does not. *)
Lemma a_deactivated_account_acts_no_more_witness : ∃ a u,
  dismissed = (Ok a, dismissed.2) ∧ standing "u0" (wb_world dismissed.2) = Account u (lit "of u0") AUTH_SOURCE_HEADER ∧
  user_id u ≠ lit "u1".
Proof.
  assert (∃ a, dismissed.1 = Ok a) as [a Ha] by (vm_compute; eauto).
  assert (∃ u, standing "u0" (wb_world dismissed.2) = Account u (lit "of u0") AUTH_SOURCE_HEADER) as [u Hu]
    by (vm_compute; eauto).
  assert (dismissed = (Ok a, dismissed.2)) as Hd by (rewrite -Ha; apply surjective_pairing).
  exists a, u. split; [exact Hd|]. split; [exact Hu|].
  exact (a_deactivated_account_acts_no_more [] (lit "u1") (sent_by "u0") (MkWeb (caller "u0") two_logins) a
    dismissed.2 1 (sent_by "u0") u (lit "of u0") AUTH_SOURCE_HEADER two_logins_ok Hd Hu).
Defined.
End AdminViewDemo.
