(* ===== verification/Config.v ===== *)
(** * Reading settings from the environment

    [infrastructure/configs/app/env.py], with what Python's [float()] makes
    of a text.  [os.environ] is a finite map; a field is read afresh on every
    access, so a setting is a function of the map. *)

From S2P Require Import Prelude PyStr ValueObjects IpAddress Stats WebRequest LinkViews.

Abbreviation Environ := (gmap pystr pystr).

(** ** [float()] of a text *)

(** A double: not a number, an infinity, or [m * 2 ^ e]. *)
Inductive pyfloat := NaN | Infinity (negative : bool) | Double (m e : Z).

#[global] Instance pyfloat_eq_dec : EqDecision pyfloat.
Proof. solve_decision. Defined.

Definition isfinite (x : pyfloat) : bool := match x with Double _ _ => true | _ => false end.
(** [x > 0]. *)
Definition positive (x : pyfloat) : bool :=
  match x with NaN => false | Infinity negative => negb negative | Double m _ => 0 <? m end.

(** The double nearest to [a / b], for [0 <= a] and [0 < b]: below the normal
    range the exponent stays at its least value, above it there is infinity. *)
Definition nearest_double (a b : Z) : pyfloat :=
  if a =? 0 then Double 0 0 else
  let e := Z.max (exponent a b) (-1074) in
  let '(n, d) := scaled a b e in
  let m := nearest n d in
  if (0 <=? e) && (2 ^ 1024 <=? m * 2 ^ e) then Infinity false else Double m e.

Definition opposite (x : pyfloat) : pyfloat :=
  match x with NaN => NaN | Infinity b => Infinity (negb b) | Double m e => Double (- m) e end.

Section casters.
Context `{DecimalDigits} `{CaseFolding}.

(** An underscore stands between two digits and is left out. *)
Fixpoint without_underscores (after_digit : bool) (s : pystr) : option pystr :=
  match s with
  | [] => Some []
  | c :: s' =>
      if c =? UNDERSCORE
      then if after_digit && match s' with d :: _ => is_digit d | [] => false end
           then without_underscores false s' else None
      else cons c <$> without_underscores (is_digit c) s'
  end.

Fixpoint span_digits (s : pystr) : pystr * pystr :=
  match s with
  | c :: s' => if is_digit c then let '(ds, rest) := span_digits s' in (c :: ds, rest) else ([], s)
  | [] => ([], [])
  end.

Definition signed (s : pystr) : bool * pystr :=
  match s with
  | c :: s' => if c =? HYPHEN then (true, s') else if c =? PLUS then (false, s') else (false, s)
  | [] => (false, [])
  end.

(** The power of ten after the digits, the whole rest of the text. *)
Definition exponent_part (s : pystr) : option Z :=
  match s with
  | [] => Some 0
  | c :: s' =>
      if (c =? 101) || (c =? 69) then
        let '(negative, ds) := signed s' in
        if bool_decide (ds ≠ []) && forallb is_digit ds
        then Some (if negative then - int_of 10 ds else int_of 10 ds) else None
      else None
  end.

Definition unsigned_float (s : pystr) : option pyfloat :=
  let word := ascii_lower <$> s in
  if bool_decide (word = lit "inf") || bool_decide (word = lit "infinity") then Some (Infinity false)
  else if bool_decide (word = lit "nan") then Some NaN
  else
    let '(whole, rest) := span_digits s in
    let '(fraction, rest) :=
      match rest with
      | c :: rest' => if c =? DOT then span_digits rest' else ([], rest)
      | [] => ([], [])
      end in
    if bool_decide (whole ++ fraction = []) then None
    else
      p ← exponent_part rest;
      let digits := int_of 10 (whole ++ fraction) in
      let power := p - len fraction in
      Some (if power <? 0 then nearest_double digits (10 ^ (- power)) else nearest_double (digits * 10 ^ power) 1).

Definition py_float (s : pystr) : option pyfloat :=
  s ← without_underscores false (rstrip_by is_c_space (lstrip_by is_c_space (to_ascii <$> s)));
  let '(negative, s) := signed s in
  (if (negative : bool) then opposite else id) <$> unsigned_float s.

(** ** Casters *)

Definition TRUE_VALUES : list pystr := lit <$> ["true"; "1"; "yes"; "on"]%string.
Definition FALSE_VALUES : list pystr := lit <$> ["false"; "0"; "no"; "off"]%string.

Definition to_bool (raw : pystr) : option bool :=
  let normalized := lower (strip raw) in
  if decide (normalized ∈ TRUE_VALUES) then Some true
  else if decide (normalized ∈ FALSE_VALUES) then Some false
  else None.

Definition to_list (raw : pystr) : list pystr :=
  filter (λ item, item ≠ []) (strip <$> split_on 44 raw).

(** ** Fields *)

Definition is_unset (raw : option pystr) : bool :=
  match raw with None => true | Some s => bool_decide (strip s = []) end.

(** Nothing is said about a blank variable that is not said about an absent one. *)
Definition read_env (env : Environ) (name : pystr) : option pystr :=
  if is_unset (env !! name) then None else env !! name.

(** A profile that ignores the environment has nothing but its defaults. *)
Definition read_env_for (ignore : bool) (env : Environ) (name : pystr) : option pystr :=
  if ignore then None else read_env env name.

(** [EnvField.__get__]: the default, or the text cast, or the error that
    names the variable and its text. *)
Definition EnvField {A : Type} (ignore : bool) (env : Environ) (name : pystr) (default : A)
    (caster : pystr → option A) : result (pystr * pystr) A :=
  match read_env_for ignore env name with
  | None => Ok default
  | Some raw => match caster raw with Some v => Ok v | None => Err (name, raw) end
  end.
End casters.

(** * The configuration and its validation

    [infrastructure/configs/app/base.py] with the profiles [development.py],
    [staging.py], [production.py] and [testing.py].  A profile is a class
    whose attributes are read from the environment on every access; here a
    setting is a function of the profile and the environment, which may
    raise.  What validation reports is a value per sentence, with the
    sentence's parameters.

    [DatabaseUrls] is SQLAlchemy's [make_url] and [render_as_string], [Babel]
    is [Locale.parse], [Uppercase] the Unicode table behind [upper()] and
    [Deployment] what the process finds outside the environment: where the
    project lies, whether a directory can be made, and the secrets drawn when
    the module is loaded. *)

(** ** What goes wrong *)

Inductive config_error :=
(* reading *)
| InvalidValue (name raw : pystr)
| MustBeInEnvironment (name : pystr)
| RedisUrlMustBeInEnvironment
| MissingParts (names : list pystr)
| UnsupportedDatabaseType (type : pystr)
(* checks *)
| WildcardCors
| BadJournalName (setting name : pystr)
| BadScheme (scheme : pystr)
| MaxUrlLengthAbove2048 | MaxUrlLengthNotPositive
| MinLengthBelowCodes | MaxLengthAboveCodes
| BatchLimitAboveSchema
| MaxContentLengthNotPositive | MaxContentLengthBelowBatch (max batch url : Z)
| CodeLengthOutside
| NoLanguage | DefaultLanguageNotSupported (tag : pystr) (supported : list pystr)
| UnreadableLanguage (tag why : pystr)
| BadLogLevel (level : pystr)
| BadSameSite (value : pystr)
| DefaultSecretInUse (name : pystr)
| RedisUrlNotSet
| DomainCarriesScheme (domain : pystr) | DomainCarriesPath (domain : pystr)
| UnparsableDatabaseUrl (why : pystr)
| NameCarriesOptions (characters : pystr) | HostCarriesOptions (characters : pystr)
| SqliteNameCarriesQuery | SqliteNameLeavesRoot
| NotOnPostgresql (shown : pystr) (by_url : bool) (is_sqlite : bool)
| PortOutside (setting : pystr) (value : Z)
| NotPositive (name : pystr) (value : Z)
| Negative (name : pystr) (value : Z)
| NotPositiveFinite (name : pystr) (value : pyfloat)
| LifetimeNotPositive (name : pystr) (value : Z)
| GuestLifetimeAboveCeiling (guest ceiling : Z)
| TlsAndSsl
| MailHostNotSet | MailFromNotSet | BadMailFrom (value : pystr)
| MailInTheClear | PasswordInTheClear | PasswordWithoutUsername | UsernameWithoutPassword
| HoursNotPositive (name : pystr) (value : Z)
| MinutesNotPositive (value : Z)
| SweptBeforeTheLinkEnds
| PartNotNamed (name : pystr)
| DomainNotSet (profile : pystr)
(* the factory and migrations *)
| UnknownEnvironment (name : pystr)
| MigrationOfUnnamedPart (profile name : pystr)
| MigrationOfMemory (profile shown : pystr) (ignores_env : bool)
| MigrationWithoutProfile (profile shown : pystr)
| MigrationOfUnnamedSqlite (profile shown : pystr) (ignores_env : bool).

#[global] Instance config_error_eq_dec : EqDecision config_error.
Proof. solve_decision. Defined.

(** A [ValueError] of one sentence, the one that lists them, and what is not
    a [ValueError]. *)
Inductive config_exn :=
| ValueError (e : config_error)
| ConfigurationErrors (errors : list config_error)
| OtherException (text : pystr).

Abbreviation R := (result config_exn).

Definition uncast {A} (r : result (pystr * pystr) A) : R A :=
  match r with Ok v => Ok v | Err (name, raw) => Err (ValueError (InvalidValue name raw)) end.

(** [except ValueError as error: errors.append(str(error))]. *)
Definition value_errors {A} (r : R A) : R (list config_error) :=
  match r with
  | Ok _ => Ok []
  | Err (ValueError e) => Ok [e]
  | Err (ConfigurationErrors es) => Ok es
  | Err (OtherException t) => Err (OtherException t)
  end.

(** [if b: errors.append(e)]. *)
Definition when (b : bool) (e : config_error) : list config_error := if b then [e] else [].

(** The second operand of [and] and [or] is evaluated when the first does
    not decide. *)
Definition and_then (b : bool) (m : R bool) : R bool := if b then m else Ok false.
Definition or_else (b : bool) (m : R bool) : R bool := if b then Ok true else m.

(** ** Paths *)

Definition path_root (s : pystr) : pystr :=
  if startswith (lit "//") s && negb (startswith (lit "///") s) then lit "//"
  else if startswith (lit "/") s then lit "/" else [].
Definition path_parts (s : pystr) : list pystr :=
  filter (λ part, part ≠ [] ∧ part ≠ lit ".") (split_on SLASH s).
Definition is_absolute (s : pystr) : bool := startswith (lit "/") s.
(** [str(Path(s))]. *)
Definition path_str (s : pystr) : pystr :=
  match path_root s ++ join (lit "/") (path_parts s) with [] => lit "." | t => t end.
(** [str(Path(a) / b)]. *)
Definition path_join (a b : pystr) : pystr :=
  if is_absolute b then path_str b else path_str (a ++ lit "/" ++ b).

(** ** Connection URLs *)

(** The values under a name of the query are a list, as the renderer reads
    them. *)
Record DbUrl := MkDbUrl {
  drivername : pystr;
  username : option pystr;
  password : option pystr;
  host : option pystr;
  port : option Z;
  database : option pystr;
  query : list (pystr * list pystr);
}.

Class DatabaseUrls := {
  make_url : pystr → result pystr DbUrl;
  render_as_string : bool → DbUrl → pystr;
}.

Definition set_drivername d (u : DbUrl) :=
  MkDbUrl d (username u) (password u) (host u) (port u) (database u) (query u).
Definition set_password p (u : DbUrl) :=
  MkDbUrl (drivername u) (username u) p (host u) (port u) (database u) (query u).
Definition set_query q (u : DbUrl) :=
  MkDbUrl (drivername u) (username u) (password u) (host u) (port u) (database u) q.
Definition get_backend_name (u : DbUrl) : pystr := (partition_at 43 (drivername u)).1.1.

Definition MASK : pystr := lit "***".
(** [quote(MASK, safe="")]. *)
Definition QUOTED_MASK : pystr := lit "%2A%2A%2A".

(** [s.replace(old, new)], from the left, [old] not empty. *)
Fixpoint replace_go (old new : pystr) (skip : nat) (s : pystr) : pystr :=
  match s with
  | [] => []
  | c :: s' =>
      match skip with
      | S k => replace_go old new k s'
      | O => if startswith old s then new ++ replace_go old new (length old - 1) s'
             else c :: replace_go old new 0 s'
      end
  end.
Definition replace (old new s : pystr) : pystr := replace_go old new 0 s.

Section urls.
Context `{DatabaseUrls} `{CaseFolding}.

Definition UNPARSABLE : pystr := lit "<unparsable database url>".

(** The names of the query that carry a password. *)
Definition is_credential (name : pystr) : bool := endswith (lit "password") (lower name).
Definition mask_query (q : list (pystr * list pystr)) : list (pystr * list pystr) :=
  (λ f, (f.1, if is_credential f.1 then [MASK] else f.2)) <$> q.

Definition display_url (url : pystr) : pystr :=
  match make_url url with
  | Err _ => UNPARSABLE
  | Ok parsed =>
      let parsed := match password parsed with
                    | None | Some [] => set_password None parsed
                    | Some _ => parsed
                    end in
      if existsb (λ f, is_credential f.1) (query parsed)
      then replace QUOTED_MASK MASK (render_as_string true (set_query (mask_query (query parsed)) parsed))
      else render_as_string true parsed
  end.

Definition DEFAULT_POSTGRESQL_DRIVER : pystr := lit "psycopg".

Definition normalise_backend (url : pystr) : pystr :=
  match make_url url with
  | Err _ => url
  | Ok parsed =>
      let driver := lower (drivername parsed) in
      if bool_decide (driver = lit "postgres") || bool_decide (driver = lit "postgresql")
      then render_as_string false (set_drivername (lit "postgresql+" ++ DEFAULT_POSTGRESQL_DRIVER) parsed)
      else if startswith (lit "postgres+") driver
      then render_as_string false (set_drivername (lit "postgresql" ++ drop (length (lit "postgres")) driver) parsed)
      else url
  end.
End urls.

(** ** Settings *)

Inductive Profile := Development | Staging | Production | Testing.
#[global] Instance Profile_eq_dec : EqDecision Profile.
Proof. solve_decision. Defined.

Definition profile_name (p : Profile) : pystr :=
  match p with
  | Development => lit "development" | Staging => lit "staging"
  | Production => lit "production" | Testing => lit "testing"
  end.

(** [locale_parse tag] is what [Locale.parse] says of a tag it cannot read. *)
Class Babel := locale_parse : pystr → option pystr.
Class Uppercase := unicode_upper : pystr → pystr.
Definition ascii_upper (c : Z) : Z := if is_lower c then c - 32 else c.
Definition upper `{Uppercase} (s : pystr) : pystr := if isascii s then ascii_upper <$> s else unicode_upper s.

Record Deployment := MkDeployment {
  PROJECT_ROOT : option pystr;
  (** what goes wrong when the directory of a file is made *)
  cannot_mkdir : pystr → option pystr;
  default_secret_key : pystr;
  default_pepper : pystr;
}.

Definition IGNORE_ENV (p : Profile) : bool := match p with Testing => true | _ => false end.
Definition DEBUG (p : Profile) : bool := match p with Development => true | _ => false end.
Definition TESTING (p : Profile) : bool := match p with Testing => true | _ => false end.
Definition REQUIRE_MAIL_TLS (p : Profile) : bool := match p with Staging | Production => true | _ => false end.

Definition seconds (n : Z) : pyfloat := nearest_double n 1.

Definition DEFAULT_DATABASE_HOST : pystr := lit "localhost".
Definition DEFAULT_DATABASE_NAME : pystr := lit "db_shortener".
Definition DATABASE_DIRECTORY : pystr := lit "datas/databases".

Definition RATE_LIMITS : list (pystr * (Z * Z)) :=
  [(lit "api.create_short_link", (30, 60)); (lit "api.get_link_info", (100, 60));
   (lit "api.get_extended_link_info", (50, 60)); (lit "api.batch_create", (5, 60));
   (lit "api.get_stats", (10, 60)); (lit "redirect_to_original", (200, 60));
   (lit "auth.login", (5, 60)); (lit "auth.register", (3, 3600));
   (lit "auth.refresh_token", (10, 60)); (lit "auth.logout", (20, 60));
   (lit "auth.verify_email", (10, 60)); (lit "auth.resend_verification", (3, 3600));
   (lit "auth.change_password", (5, 60)); (lit "auth.forgot_password", (3, 3600));
   (lit "auth.reset_password", (10, 60))].

Section config.
Context `{DecimalDigits} `{CaseFolding} `{Uppercase} `{DatabaseUrls} `{Babel}.
Context (dep : Deployment) (p : Profile) (env : Environ).

Definition env_str (name : string) (default : pystr) : R pystr :=
  uncast (EnvField (IGNORE_ENV p) env (lit name) default Some).
Definition env_int (name : string) (default : Z) : R Z :=
  uncast (EnvField (IGNORE_ENV p) env (lit name) default py_int).
Definition env_float (name : string) (default : pyfloat) : R pyfloat :=
  uncast (EnvField (IGNORE_ENV p) env (lit name) default py_float).
Definition env_bool (name : string) (default : bool) : R bool :=
  uncast (EnvField (IGNORE_ENV p) env (lit name) default to_bool).
Definition env_list (name : string) (default : list pystr) : R (list pystr) :=
  uncast (EnvField (IGNORE_ENV p) env (lit name) default (λ raw, Some (to_list raw))).

(** The profiles meant to face the public. *)
Definition deployed : bool := match p with Staging | Production => true | _ => false end.

Definition LOGGING_ENABLED : R bool := env_bool "LOGGING_ENABLED" true.
Definition AUDIT_ENABLED : R bool := env_bool "AUDIT_ENABLED" true.
Definition CACHE_ENABLED : R bool := env_bool "CACHE_ENABLED" true.
Definition AUTO_SEED_ROLES : R bool :=
  match p with Testing => Ok true | _ => env_bool "AUTO_SEED_ROLES" (if deployed then false else true) end.
Definition LOGGER_TYPE : R pystr := env_str "LOGGER_TYPE" (lit "auto").
Definition AUDIT_TYPE : R pystr := env_str "AUDIT_TYPE" (lit "auto").
Definition LOG_FILENAME : R pystr := env_str "LOG_FILENAME" (lit "application").
Definition AUDIT_LOG_FILENAME : R pystr := env_str "AUDIT_LOG_FILENAME" (lit "audit").
Definition ERROR_LOG_FILENAME : R pystr := env_str "ERROR_LOG_FILENAME" (lit "error").
Definition LOG_LEVEL : R pystr := env_str "LOG_LEVEL" (if deployed then lit "INFO" else lit "DEBUG").
Definition LOG_TO_CONSOLE : R bool := env_bool "LOG_TO_CONSOLE" (if deployed then false else true).
Definition LOG_TO_FILE : R bool := env_bool "LOG_TO_FILE" (if deployed then true else false).
Definition SQLALCHEMY_LOG_LEVEL : R pystr := env_str "SQLALCHEMY_LOG_LEVEL" (lit "WARNING").
Definition WERKZEUG_LOG_LEVEL : R pystr := env_str "WERKZEUG_LOG_LEVEL" (lit "WARNING").
Definition default_log_dir : pystr :=
  match p with Staging => lit "/var/log/link_shortener/staging" | _ => lit "datas/logs" end.
Definition LOG_DIR : pystr :=
  let configured := default default_log_dir (read_env_for (IGNORE_ENV p) env (lit "LOG_DIR")) in
  match PROJECT_ROOT dep with None => configured | Some root => path_join root configured end.
Definition FAILOVER_CHECK_INTERVAL : R pyfloat := env_float "FAILOVER_CHECK_INTERVAL" (seconds 30).

(** The deployed profiles have no default for a secret. *)
Definition secret (name : string) (fallback fixed : pystr) : R pystr :=
  match p with
  | Testing => Ok fixed
  | Development => env_str name fallback
  | Staging | Production =>
      match read_env_for (IGNORE_ENV p) env (lit name) with
      | None | Some [] => Err (ValueError (MustBeInEnvironment (lit name)))
      | Some value => Ok value
      end
  end.
Definition SECRET_KEY : R pystr := secret "SECRET_KEY" (default_secret_key dep) (lit "test-secret-key").
Definition SHORT_CODE_SECRET_PEPPER : R pystr := secret "SHORT_CODE_PEPPER" (default_pepper dep) (lit "test-pepper").

Definition SESSION_COOKIE_SECURE : R bool := env_bool "SESSION_COOKIE_SECURE" (if deployed then true else false).
Definition SESSION_COOKIE_SAMESITE : R pystr := env_str "SESSION_COOKIE_SAMESITE" (lit "Lax").
Definition SESSION_COOKIE_HTTPONLY : R bool := env_bool "SESSION_COOKIE_HTTPONLY" true.
Definition COOKIE_SECURE : R bool := env_bool "COOKIE_SECURE" (if deployed then true else false).
Definition HOST : R pystr := env_str "HOST" (match p with Production => lit "0.0.0.0" | _ => lit "localhost" end).
Definition PORT : R Z := env_int "PORT" (match p with Production => 8000 | _ => 5000 end).
Definition USE_HTTPS : R bool := env_bool "USE_HTTPS" (if deployed then true else false).
Definition HSTS_MAX_AGE : R Z := env_int "HSTS_MAX_AGE" 31536000.
Definition DOMAIN : option pystr := read_env_for (IGNORE_ENV p) env (lit "DOMAIN").
Definition domain_value : pystr := strip (default [] DOMAIN).
Definition BASE_URL : R pystr :=
  if decide (domain_value = []) then
    host ← HOST; port ← PORT;
    mret (lit "http://" ++ host ++ lit ":" ++ str_of_Z port ++ lit "/")
  else
    https ← USE_HTTPS;
    mret ((if (https : bool) then lit "https" else lit "http") ++ lit "://" ++ domain_value).

Definition ALLOWED_SCHEMES : R (list pystr) := env_list "ALLOWED_SCHEMES" [lit "http"; lit "https"].
Definition MAX_URL_LENGTH : R Z := env_int "MAX_URL_LENGTH" 2048.
Definition ALLOW_INTERNAL_TARGETS : R bool := env_bool "ALLOW_INTERNAL_TARGETS" false.
Definition SHORT_CODE_LENGTH : R Z := env_int "SHORT_CODE_LENGTH" 7.
Definition SHORT_CODE_MIN_LENGTH : R Z := env_int "SHORT_CODE_MIN_LENGTH" MIN_LENGTH.
Definition SHORT_CODE_MAX_LENGTH : R Z := env_int "SHORT_CODE_MAX_LENGTH" MAX_LENGTH.
Definition MAX_COLLISION_ATTEMPTS : R Z := env_int "MAX_COLLISION_ATTEMPTS" 5.
Definition POPULAR_THRESHOLD : R Z := env_int "POPULAR_THRESHOLD" 100.
Definition RECENT_DAYS : R Z := env_int "RECENT_DAYS" 7.
Definition VISIT_TRACKING_ENABLED : R bool := env_bool "VISIT_TRACKING_ENABLED" true.
Definition VISIT_RETENTION_DAYS : R Z := env_int "VISIT_RETENTION_DAYS" 90.
Definition SECURITY_EVENT_RETENTION_DAYS : R Z := env_int "SECURITY_EVENT_RETENTION_DAYS" 365.
Definition BATCH_CREATE_LIMIT : R Z :=
  match p with Testing => Ok MAX_BATCH_ITEMS | _ => env_int "BATCH_CREATE_LIMIT" 100 end.
Definition MAX_CONTENT_LENGTH : R Z := env_int "MAX_CONTENT_LENGTH" 1048576.
Definition GUEST_LINK_LIMIT : R Z := env_int "GUEST_LINK_LIMIT" 10.
Definition GUEST_LINK_WINDOW_DAYS : R Z := env_int "GUEST_LINK_WINDOW_DAYS" 1.
Definition DEFAULT_GUEST_TTL_SECONDS : R Z := env_int "DEFAULT_GUEST_TTL_SECONDS" (7 * 24 * 3600).
Definition MAX_TTL_SECONDS : R Z := env_int "MAX_TTL_SECONDS" (10 * 365 * 24 * 3600).
Definition SUPPORTED_LANGUAGES : R (list pystr) := env_list "SUPPORTED_LANGUAGES" [lit "en"; lit "ru"; lit "zh"].
Definition DEFAULT_LANGUAGE : R pystr := env_str "DEFAULT_LANGUAGE" (lit "en").
Definition JWT_ACCESS_TOKEN_EXPIRE_MINUTES : R Z := env_int "JWT_ACCESS_TOKEN_EXPIRE_MINUTES" 15.
Definition JWT_REFRESH_TOKEN_EXPIRE_DAYS : R Z := env_int "JWT_REFRESH_TOKEN_EXPIRE_DAYS" 7.
Definition JWT_ALGORITHM : R pystr := env_str "JWT_ALGORITHM" (lit "HS256").
Definition DEFAULT_ROLE_NAME : R pystr := env_str "DEFAULT_ROLE_NAME" (lit "user").
Definition DEFAULT_RATE_LIMIT : R Z := env_int "DEFAULT_RATE_LIMIT" 100.
Definition DEFAULT_RATE_LIMIT_PERIOD : R Z := env_int "DEFAULT_RATE_LIMIT_PERIOD" 60.
Definition LOGIN_ACCOUNT_FAILURE_LIMIT : R Z := env_int "LOGIN_ACCOUNT_FAILURE_LIMIT" 10.
Definition LOGIN_ACCOUNT_FAILURE_PERIOD : R Z := env_int "LOGIN_ACCOUNT_FAILURE_PERIOD" 900.
Definition RATE_LIMIT_AUTH_DISABLED : R bool := env_bool "RATE_LIMIT_AUTH_DISABLED" false.
Definition CORS_ORIGINS : R (list pystr) :=
  env_list "CORS_ORIGINS" (if deployed then [] else [lit "http://localhost:5000"]).
Definition TRUSTED_PROXIES : R (list pystr) := env_list "TRUSTED_PROXIES" [].
Definition ALLOWED_HOSTS : R (list pystr) := env_list "ALLOWED_HOSTS" [].
Definition USE_ALEMBIC : R bool := match p with Testing => Ok false | _ => env_bool "USE_ALEMBIC" true end.
Definition SQLALCHEMY_ECHO : R bool := env_bool "SQLALCHEMY_ECHO" false.

(** *** The database *)

Definition DATABASE_TYPE : R pystr :=
  match p with Testing => Ok (lit "sqlite") | _ => env_str "DATABASE_TYPE" (lit "sqlite") end.
Definition DATABASE_HOST : R pystr := env_str "DATABASE_HOST" DEFAULT_DATABASE_HOST.
Definition DATABASE_PORT : R Z := env_int "DATABASE_PORT" 5432.
Definition DATABASE_NAME : R pystr := env_str "DATABASE_NAME" DEFAULT_DATABASE_NAME.
Definition DATABASE_USER : R pystr := env_str "DATABASE_USER" [].
Definition DATABASE_PASSWORD : R pystr := env_str "DATABASE_PASSWORD" [].
Definition DATABASE_DIR : R pystr := env_str "DATABASE_DIR" DATABASE_DIRECTORY.
Definition DATABASE_URL : R pystr :=
  match p with Testing => Ok (lit "sqlite:///:memory:") | _ => env_str "DATABASE_URL" [] end.
Definition DATABASE_CONNECT_TIMEOUT : R Z := env_int "DATABASE_CONNECT_TIMEOUT" 3.
Definition DATABASE_STATEMENT_TIMEOUT : R Z := env_int "DATABASE_STATEMENT_TIMEOUT" 10.
Definition DATABASE_POOL_PRE_PING : R bool := env_bool "DATABASE_POOL_PRE_PING" true.

(** [path.parent.mkdir(parents=True, exist_ok=True)] can fail. *)
Definition anchored (directory name : pystr) : R pystr :=
  let path := path_join directory name in
  match cannot_mkdir dep path with
  | Some text => Err (OtherException text)
  | None => Ok path
  end.
Definition sqlite_path : R pystr :=
  name ← DATABASE_NAME;
  if bool_decide (name = lit ":memory:") || is_absolute name then mret name
  else
    directory ← DATABASE_DIR;
    if is_absolute directory then anchored directory name
    else match PROJECT_ROOT dep with
         | None => mret name
         | Some root => anchored (path_join root directory) name
         end.

Definition get_database_url : R pystr :=
  url ← DATABASE_URL;
  if decide (url ≠ []) then mret (normalise_backend (strip url))
  else
    type ← DATABASE_TYPE;
    if decide (type = lit "sqlite") then
      path ← sqlite_path;
      mret (render_as_string false (MkDbUrl (lit "sqlite") None None None None (Some path) []))
    else if decide (type = lit "postgresql") then
      user ← DATABASE_USER; host ← DATABASE_HOST; name ← DATABASE_NAME;
      let missing := fst <$> filter (λ part, part.2 = [])
        [(lit "DATABASE_USER", user); (lit "DATABASE_HOST", host); (lit "DATABASE_NAME", name)] in
      if decide (missing ≠ []) then Err (ValueError (MissingParts missing))
      else
        word ← DATABASE_PASSWORD; port ← DATABASE_PORT;
        mret (render_as_string false
          (MkDbUrl (lit "postgresql+psycopg") (Some user) (Some word) (Some host) (Some port) (Some name) []))
    else Err (ValueError (UnsupportedDatabaseType type)).

Definition display_database_url : pystr :=
  match get_database_url with Ok url => display_url url | Err _ => UNPARSABLE end.

(** The backend the URL names, when there is one that can be read. *)
Definition url_backend : option pystr :=
  match get_database_url with
  | Ok url => match make_url url with Ok u => Some (get_backend_name u) | Err _ => None end
  | Err _ => None
  end.
Definition database_backend : R pystr :=
  match url_backend with Some b => Ok b | None => DATABASE_TYPE end.

Definition pool_setting (name : string) (default : Z) : R Z :=
  backend ← database_backend;
  if decide (backend ≠ lit "postgresql") then mret 0
  else if IGNORE_ENV p then mret default
  else match read_env env (lit name) with
       | None => mret default
       | Some raw => match py_int raw with
                     | Some n => mret n
                     | None => Err (ValueError (InvalidValue (lit name) raw))
                     end
       end.
Definition DATABASE_POOL_SIZE : R Z := pool_setting "DATABASE_POOL_SIZE" 5.
Definition DATABASE_MAX_OVERFLOW : R Z := pool_setting "DATABASE_MAX_OVERFLOW" 5.
Definition DATABASE_POOL_RECYCLE : R Z := pool_setting "DATABASE_POOL_RECYCLE" 3600.
Definition get_pool_params : R (Z * Z * Z * bool) :=
  size ← DATABASE_POOL_SIZE; overflow ← DATABASE_MAX_OVERFLOW; recycle ← DATABASE_POOL_RECYCLE;
  ping ← DATABASE_POOL_PRE_PING; mret (size, overflow, recycle, ping).

(** *** Cache, queue, mail *)

Definition CACHE_LINK_PREFIX : R pystr := env_str "CACHE_LINK_PREFIX" (lit "link_shortener").
Definition CACHE_LINK_TTL : R Z := env_int "CACHE_LINK_TTL" (match p with Development => 20 | _ => 3600 end).
Definition CACHE_STATS_TTL : R Z := env_int "CACHE_STATS_TTL" (match p with Development => 20 | _ => 300 end).
Definition REDIS_ENABLED : R bool :=
  match p with Testing => Ok false | _ => env_bool "REDIS_ENABLED" (if deployed then true else false) end.
Definition LOCAL_REDIS : pystr := lit "redis://localhost:6379/0".
Definition REDIS_URL : R pystr :=
  match p with
  | Testing => Ok LOCAL_REDIS
  | Development => env_str "REDIS_URL" LOCAL_REDIS
  | Staging | Production =>
      let url := default [] (read_env_for (IGNORE_ENV p) env (lit "REDIS_URL")) in
      enabled ← REDIS_ENABLED;
      if (enabled : bool) && bool_decide (url = []) then Err (ValueError RedisUrlMustBeInEnvironment)
      else mret (if decide (url = []) then match p with Staging => LOCAL_REDIS | _ => [] end else url)
  end.
Definition REDIS_CONNECT_TIMEOUT : R Z := env_int "REDIS_CONNECT_TIMEOUT" 2.
Definition REDIS_SOCKET_TIMEOUT : R Z := env_int "REDIS_SOCKET_TIMEOUT" 2.
Definition REDIS_RETRY_INTERVAL : R Z := env_int "REDIS_RETRY_INTERVAL" 10.
Definition CELERY_ENABLED : R bool := env_bool "CELERY_ENABLED" false.
Definition CELERY_BROKER_URL : R pystr := env_str "CELERY_BROKER_URL" [].
Definition CELERY_RESULT_BACKEND : R pystr := env_str "CELERY_RESULT_BACKEND" [].
Definition MAIL_ENABLED : R bool := match p with Testing => Ok false | _ => env_bool "MAIL_ENABLED" false end.
Definition MAIL_HOST : R pystr := env_str "MAIL_HOST" (match p with Development => lit "localhost" | _ => [] end).
Definition MAIL_PORT : R Z := env_int "MAIL_PORT" (match p with Development => 1025 | _ => 587 end).
Definition MAIL_USERNAME : R pystr := env_str "MAIL_USERNAME" [].
Definition MAIL_PASSWORD : R pystr := env_str "MAIL_PASSWORD" [].
Definition MAIL_USE_TLS : R bool := env_bool "MAIL_USE_TLS" (match p with Development => false | _ => true end).
Definition MAIL_USE_SSL : R bool := env_bool "MAIL_USE_SSL" false.
Definition MAIL_FROM : R pystr :=
  env_str "MAIL_FROM" (match p with Development => lit "no-reply@link-shortener.local" | _ => [] end).
Definition MAIL_TIMEOUT : R pyfloat := env_float "MAIL_TIMEOUT" (seconds 10).
Definition EMAIL_VERIFICATION_TTL_HOURS : R Z := env_int "EMAIL_VERIFICATION_TTL_HOURS" 24.
Definition PASSWORD_RESET_TTL_MINUTES : R Z := env_int "PASSWORD_RESET_TTL_MINUTES" 60.
Definition UNVERIFIED_ACCOUNT_TTL_HOURS : R Z := env_int "UNVERIFIED_ACCOUNT_TTL_HOURS" 72.
Definition HEALTH_CHECK_TIMEOUT : R pyfloat := env_float "HEALTH_CHECK_TIMEOUT" (seconds 5).

(** ** Checks *)

Definition faces_nobody : bool := DEBUG p || TESTING p.

Definition cors_errors : R (list config_error) :=
  if faces_nobody then mret []
  else origins ← CORS_ORIGINS;
       mret (when (bool_decide (lit "*" ∈ strip <$> (origins : list pystr))) WildcardCors).

(** [JOURNAL_NAME.fullmatch]. *)
Definition journal_char (c : Z) : bool := is_alnum c || (c =? DOT) || (c =? UNDERSCORE) || (c =? HYPHEN).
Definition is_journal_name (s : pystr) : bool :=
  match s with c :: rest => is_alnum c && forallb journal_char rest | [] => false end.

Definition journal_name_errors : R (list config_error) :=
  log ← LOG_FILENAME; audit ← AUDIT_LOG_FILENAME; error ← ERROR_LOG_FILENAME;
  mret (concat ((λ f, when (negb (is_journal_name f.2)) (BadJournalName f.1 f.2)) <$>
    [(lit "LOG_FILENAME", log); (lit "AUDIT_LOG_FILENAME", audit); (lit "ERROR_LOG_FILENAME", error)])).

Definition bounds_errors : R (list config_error) :=
  schemes ← ALLOWED_SCHEMES; url ← MAX_URL_LENGTH;
  shortest ← SHORT_CODE_MIN_LENGTH; longest ← SHORT_CODE_MAX_LENGTH;
  batch ← BATCH_CREATE_LIMIT; content ← MAX_CONTENT_LENGTH; code ← SHORT_CODE_LENGTH;
  mret ((BadScheme <$> filter (λ s, s ∉ [lit "http"; lit "https"]) schemes)
    ++ when (2048 <? url) MaxUrlLengthAbove2048
    ++ when (url <? 1) MaxUrlLengthNotPositive
    ++ when (shortest <? MIN_LENGTH) MinLengthBelowCodes
    ++ when (MAX_LENGTH <? longest) MaxLengthAboveCodes
    ++ when (MAX_BATCH_ITEMS <? batch) BatchLimitAboveSchema
    ++ when (content <? 1) MaxContentLengthNotPositive
    ++ when ((0 <? content) && (content <? batch * url)) (MaxContentLengthBelowBatch content batch url)
    ++ when (negb ((shortest <=? code) && (code <=? longest))) CodeLengthOutside).

Definition language_errors : R (list config_error) :=
  tags ← SUPPORTED_LANGUAGES; chosen ← DEFAULT_LANGUAGE;
  let supported := filter (λ tag, tag ≠ []) ((λ tag, lower (strip tag)) <$> (tags : list pystr)) in
  mret ((if decide (supported = []) then [NoLanguage]
         else when (negb (bool_decide (lower (strip chosen) ∈ supported))) (DefaultLanguageNotSupported chosen supported))
    ++ omap (λ tag, UnreadableLanguage tag <$> locale_parse tag) supported).

Definition LOG_LEVELS : list pystr := lit <$> ["DEBUG"; "INFO"; "WARNING"; "ERROR"; "CRITICAL"]%string.
Definition log_level_errors : R (list config_error) :=
  level ← LOG_LEVEL; mret (when (negb (bool_decide (upper level ∈ LOG_LEVELS))) (BadLogLevel level)).

Definition session_cookie_errors : R (list config_error) :=
  value ← SESSION_COOKIE_SAMESITE;
  mret (when (negb (bool_decide (value ∈ lit <$> ["Strict"; "Lax"; "None"]%string))) (BadSameSite value)).

Definition secret_error (name : string) (value : R pystr) (fallback : pystr) : R (list config_error) :=
  match value with
  | Ok v => mret (when (bool_decide (v = fallback)) (DefaultSecretInUse (lit name)))
  | Err e => value_errors (Err e : R pystr)
  end.
Definition secret_errors : R (list config_error) :=
  key ← secret_error "SECRET_KEY" SECRET_KEY (default_secret_key dep);
  pepper ← secret_error "SHORT_CODE_PEPPER" SHORT_CODE_SECRET_PEPPER (default_pepper dep);
  mret (key ++ pepper).

Definition redis_errors : R (list config_error) :=
  enabled ← REDIS_ENABLED;
  if negb enabled then mret []
  else match REDIS_URL with
       | Ok url => mret (when (bool_decide (url = [])) RedisUrlNotSet)
       | Err e => value_errors (Err e : R pystr)
       end.

(** [needle in s]. *)
Fixpoint contains (needle s : pystr) : bool :=
  startswith needle s || match s with [] => false | _ :: s' => contains needle s' end.

Definition domain_errors : list config_error :=
  let domain := domain_value in
  if decide (domain = []) then []
  else if contains (lit "://") domain then [DomainCarriesScheme domain]
  else when (has_char SLASH domain) (DomainCarriesPath domain).

Definition option_characters (s : pystr) : pystr := filter (λ c, has_char c s = true) (lit "?#@/").

Definition database_errors : R (list config_error) :=
  url ← DATABASE_URL;
  let unparsable :=
    if decide (url = []) then []
    else match make_url (strip url) with Ok _ => [] | Err why => [UnparsableDatabaseUrl why] end in
  type ← DATABASE_TYPE; name ← DATABASE_NAME; host ← DATABASE_HOST;
  let postgresql := bool_decide (type = lit "postgresql") in
  let sqlite_file := bool_decide (type = lit "sqlite") && negb (bool_decide (name = lit ":memory:")) in
  mret (unparsable
    ++ when (postgresql && bool_decide (option_characters name ≠ [])) (NameCarriesOptions (option_characters name))
    ++ when (postgresql && bool_decide (option_characters host ≠ [])) (HostCarriesOptions (option_characters host))
    ++ when (sqlite_file && has_char 63 name) SqliteNameCarriesQuery
    ++ when (sqlite_file && bool_decide (lit ".." ∈ path_parts name)) SqliteNameLeavesRoot
    ++ when (negb (bool_decide (type ∈ [lit "sqlite"; lit "postgresql"]))) (UnsupportedDatabaseType type)).

Definition validate_database : R unit :=
  errors ← database_errors;
  if decide (errors = []) then mret tt else Err (ConfigurationErrors errors).

Definition deployed_backend_errors : R (list config_error) :=
  if faces_nobody then mret []
  else match url_backend with
       | None => mret []
       | Some backend =>
           if decide (backend = lit "postgresql") then mret []
           else url ← DATABASE_URL;
                mret [NotOnPostgresql display_database_url (bool_decide (url ≠ [])) (bool_decide (backend = lit "sqlite"))]
       end.

Definition default_secrets_in_use : R (list pystr) :=
  key ← SECRET_KEY; pepper ← SHORT_CODE_SECRET_PEPPER;
  mret ((if decide (key = default_secret_key dep) then [lit "SECRET_KEY"] else [])
    ++ (if decide (pepper = default_pepper dep) then [lit "SHORT_CODE_PEPPER"] else [])).

(** One setting after another, each with its name. *)
Definition named (names : list (string * R Z)) : R (list (pystr * Z)) :=
  mapM (λ f, v ← f.2; mret (lit f.1, v)) names.
Definition report (bad : Z → bool) (say : pystr → Z → config_error) (settings : list (pystr * Z)) : list config_error :=
  concat ((λ f, when (bad f.2) (say f.1 f.2)) <$> settings).
Definition unusable_time (x : pyfloat) : bool := negb (isfinite x) || negb (positive x).

Definition positive_settings : list (string * R Z) :=
  [("GUEST_LINK_LIMIT", GUEST_LINK_LIMIT); ("GUEST_LINK_WINDOW_DAYS", GUEST_LINK_WINDOW_DAYS);
   ("BATCH_CREATE_LIMIT", BATCH_CREATE_LIMIT); ("MAX_COLLISION_ATTEMPTS", MAX_COLLISION_ATTEMPTS);
   ("DEFAULT_RATE_LIMIT", DEFAULT_RATE_LIMIT); ("DEFAULT_RATE_LIMIT_PERIOD", DEFAULT_RATE_LIMIT_PERIOD);
   ("JWT_ACCESS_TOKEN_EXPIRE_MINUTES", JWT_ACCESS_TOKEN_EXPIRE_MINUTES);
   ("JWT_REFRESH_TOKEN_EXPIRE_DAYS", JWT_REFRESH_TOKEN_EXPIRE_DAYS)]%string.
Definition non_negative_settings : list (string * R Z) :=
  [("CACHE_LINK_TTL", CACHE_LINK_TTL); ("DATABASE_CONNECT_TIMEOUT", DATABASE_CONNECT_TIMEOUT);
   ("DATABASE_STATEMENT_TIMEOUT", DATABASE_STATEMENT_TIMEOUT); ("CACHE_STATS_TTL", CACHE_STATS_TTL);
   ("POPULAR_THRESHOLD", POPULAR_THRESHOLD); ("RECENT_DAYS", RECENT_DAYS);
   ("VISIT_RETENTION_DAYS", VISIT_RETENTION_DAYS);
   ("SECURITY_EVENT_RETENTION_DAYS", SECURITY_EVENT_RETENTION_DAYS); ("HSTS_MAX_AGE", HSTS_MAX_AGE)]%string.
Definition lifetime_settings : list (string * R Z) :=
  [("DEFAULT_GUEST_TTL_SECONDS", DEFAULT_GUEST_TTL_SECONDS); ("MAX_TTL_SECONDS", MAX_TTL_SECONDS)]%string.

Definition numeric_errors : R (list config_error) :=
  port ← PORT;
  at_least_one ← named positive_settings;
  budget ← HEALTH_CHECK_TIMEOUT;
  not_below_zero ← named non_negative_settings;
  lifetimes ← named lifetime_settings;
  guest ← DEFAULT_GUEST_TTL_SECONDS; ceiling ← MAX_TTL_SECONDS;
  interval ← FAILOVER_CHECK_INTERVAL;
  mret (when (negb ((1 <=? port) && (port <=? 65535))) (PortOutside (lit "PORT") port)
    ++ report (λ v, v <? 1) NotPositive at_least_one
    ++ when (unusable_time budget) (NotPositiveFinite (lit "HEALTH_CHECK_TIMEOUT") budget)
    ++ report (λ v, v <? 0) Negative not_below_zero
    ++ report (λ v, v <? 1) LifetimeNotPositive lifetimes
    ++ when ((0 <? ceiling) && (ceiling <? guest)) (GuestLifetimeAboveCeiling guest ceiling)
    ++ when (unusable_time interval) (NotPositiveFinite (lit "FAILOVER_CHECK_INTERVAL") interval)).

(** [not (self.MAIL_USE_TLS or self.MAIL_USE_SSL)]. *)
Definition in_the_clear : R bool := tls ← MAIL_USE_TLS; protected ← or_else tls MAIL_USE_SSL; mret (negb protected).

Definition mail_errors : R (list config_error) :=
  tls ← MAIL_USE_TLS; both ← and_then tls MAIL_USE_SSL;
  port ← MAIL_PORT; timeout ← MAIL_TIMEOUT; enabled ← MAIL_ENABLED;
  let always :=
    when both TlsAndSsl
    ++ when (negb ((1 <=? port) && (port <=? 65535))) (PortOutside (lit "MAIL_PORT") port)
    ++ when (unusable_time timeout) (NotPositiveFinite (lit "MAIL_TIMEOUT") timeout) in
  if negb enabled then mret always
  else
    host ← MAIL_HOST; sender ← MAIL_FROM;
    clear ← and_then (REQUIRE_MAIL_TLS p) in_the_clear;
    user ← MAIL_USERNAME;
    login_in_clear ← and_then (bool_decide (user ≠ [])) in_the_clear;
    word ← MAIL_PASSWORD;
    mret (always
      ++ when (bool_decide (host = [])) MailHostNotSet
      ++ (if decide (sender = []) then [MailFromNotSet] else when (negb (email_matches sender)) (BadMailFrom sender))
      ++ when clear MailInTheClear
      ++ when login_in_clear PasswordInTheClear
      ++ when (bool_decide (word ≠ []) && bool_decide (user = [])) PasswordWithoutUsername
      ++ when (bool_decide (user ≠ []) && bool_decide (word = [])) UsernameWithoutPassword).

Definition confirmation_errors : R (list config_error) :=
  link ← EMAIL_VERIFICATION_TTL_HOURS; account ← UNVERIFIED_ACCOUNT_TTL_HOURS;
  reset ← PASSWORD_RESET_TTL_MINUTES;
  mret (report (λ v, v <? 1) HoursNotPositive
          [(lit "EMAIL_VERIFICATION_TTL_HOURS", link); (lit "UNVERIFIED_ACCOUNT_TTL_HOURS", account)]
    ++ when (reset <? 1) (MinutesNotPositive reset)
    ++ when (account <? link) SweptBeforeTheLinkEnds).

(** Checks in order; their findings follow one another. *)
Fixpoint extend_all (checks : list (R (list config_error))) : R (list config_error) :=
  match checks with
  | [] => mret []
  | c :: rest => errors ← c; more ← extend_all rest; mret (errors ++ more)
  end.

Definition base_checks : list (R (list config_error)) :=
  [if faces_nobody then mret [] else secret_errors;
   mret domain_errors; database_errors; deployed_backend_errors; bounds_errors; redis_errors;
   numeric_errors; mail_errors; confirmation_errors; log_level_errors; language_errors;
   journal_name_errors; session_cookie_errors; cors_errors].

(** A part of the connection still at its default that nothing in the
    environment names. *)
Definition part_not_named (name : string) (value : R pystr) (fallback : pystr) : R (list config_error) :=
  v ← value;
  mret (when (bool_decide (v = fallback) && is_unset (read_env_for (IGNORE_ENV p) env (lit name)))
          (PartNotNamed (lit name))).

Definition unnamed_parts : R (list config_error) :=
  url ← DATABASE_URL;
  if decide (url ≠ []) then mret []
  else type ← DATABASE_TYPE;
       if decide (type ≠ lit "postgresql") then mret []
       else host ← part_not_named "DATABASE_HOST" DATABASE_HOST DEFAULT_DATABASE_HOST;
            name ← part_not_named "DATABASE_NAME" DATABASE_NAME DEFAULT_DATABASE_NAME;
            mret (host ++ name).

Definition deployed_checks : list (R (list config_error)) :=
  [value_errors get_database_url; unnamed_parts;
   mret (when (bool_decide (domain_value = [])) (DomainNotSet (profile_name p)))].

Definition collect_errors : R (list config_error) :=
  extend_all (base_checks ++ if deployed then deployed_checks else []).

(** [list(dict.fromkeys(errors))]: the first of every sentence. *)
Fixpoint unique (seen errors : list config_error) : list config_error :=
  match errors with
  | [] => []
  | e :: rest => if decide (e ∈ seen) then unique seen rest else e :: unique (e :: seen) rest
  end.

Definition validate : R unit :=
  errors ← collect_errors;
  match unique [] errors with
  | [] => mret tt
  | found => Err (ConfigurationErrors found)
  end.
End config.
