(* ===== verification/ConfigFactory.v ===== *)
(** * Building the configuration, and what is built from it

    [configs/app/factory.py] (the [.env] files and the profile),
    [configs/app/migration_url.py] (where a migration goes),
    [infrastructure/di/container.py] with [di/components/] (the settings each
    component is given), and the options of a connection
    ([database/manager.py]).

    [Dotenv] is what [dotenv_values] reads from a file: a text may refer to
    variables, so it depends on the environment. *)

From S2P Require Import Prelude PyStr Exceptions ValueObjects Entities Policies CodeGen Cache MemoryCache Database LinkRepo Links Batch RedisCache RateLimit RedisLimit Sessions Auth WebRequest WebAuth Csrf LinkViews Stats Config.

Class Dotenv := env_file : pystr → Environ → Environ.

(** ** [.env] files *)

(** A loop over the entries of a dict that may set each of them. *)
Definition set_where (may : Environ → pystr → bool) (entries env : Environ) : Environ :=
  map_fold (λ key value env, if may env key then <[key := value]> env else env) env entries.

Section factory.
Context `{DecimalDigits} `{CaseFolding} `{Uppercase} `{DatabaseUrls} `{Babel} `{Dotenv}.
Context (dep : Deployment).
Abbreviation F := (M Environ config_exn).

Definition dotenv_was_preloaded (env : Environ) : bool :=
  match env !! lit "FLASK_RUN_FROM_CLI" with Some (_ :: _) => true | _ => false end.

Definition is_replaceable (preloaded : bool) (shared : Environ) (env : Environ) (key : pystr) : bool :=
  is_unset (env !! key) || (preloaded && bool_decide (env !! key = shared !! key)).

Definition apply_env_files (profile : pystr) (shared : Environ) (env : Environ) : Environ :=
  let own := env_file (lit ".env." ++ profile) env in
  let preloaded := dotenv_was_preloaded env in
  set_where (λ env key, is_unset (env !! key)) shared
    (set_where (is_replaceable preloaded shared) own env).

Definition named_env (asked : option pystr) (env : Environ) : option pystr :=
  let named := if is_unset asked then env !! lit "FLASK_ENV" else asked in
  let named := if is_unset named then env_file (lit ".env") env !! lit "FLASK_ENV" else named in
  if is_unset named then None else (λ s, lower (strip s)) <$> named.

Definition DEFAULT_ENV : pystr := lit "development".
Definition resolve_env (asked : option pystr) (env : Environ) : pystr := default DEFAULT_ENV (named_env asked env).

Definition CONFIG_MAP : list (pystr * Profile) :=
  (λ p, (profile_name p, p)) <$> [Development; Staging; Production; Testing].
Definition profile_of (name : pystr) : option Profile := snd <$> first (filter (λ e, e.1 = name) CONFIG_MAP).

Definition NO_DOTENV_ENVS : list pystr := [lit "testing"].

Definition create_config_unvalidated (asked : option pystr) : F Profile :=
  name ← gets (resolve_env asked);
  match profile_of name with
  | None => raise (ValueError (UnknownEnvironment name))
  | Some p =>
      if decide (name ∈ NO_DOTENV_ENVS) then mret p
      else modify (λ env, apply_env_files name (env_file (lit ".env") env) env);; mret p
  end.

Definition validated (p : Profile) : F unit := λ env, (validate dep p env, env).
Definition create_config (asked : option pystr) : F Profile :=
  p ← create_config_unvalidated asked;
  validated p;;
  mret p.

(** ** Where a migration goes *)

Definition HANDOFF_ENV_VAR : pystr := lit "ALEMBIC_DATABASE_URL".
Definition handed_over_url (env : Environ) : option pystr :=
  match env !! HANDOFF_ENV_VAR with
  | Some url => if is_unset (Some url) then None else Some (normalise_backend (strip url))
  | None => None
  end.

Definition PROFILES_ALLOWED_A_DEFAULT_DATABASE : list pystr := [lit "development"].

Definition refuse_a_database_nobody_named (profile : pystr) (p : Profile) (env : Environ) : R unit :=
  if decide (profile ∈ PROFILES_ALLOWED_A_DEFAULT_DATABASE) then mret tt
  else
    found ← unnamed_parts p env;
    match found with
    | [] => mret tt
    | PartNotNamed name :: _ => Err (ValueError (MigrationOfUnnamedPart profile name))
    | e :: _ => Err (ValueError e)
    end.

(** [":memory:" in database], or no database at all. *)
Definition in_this_process (u : DbUrl) : bool :=
  let name := default [] (database u) in bool_decide (name = []) || contains (lit ":memory:") name.

Definition refuse_a_database_a_migration_should_not_touch
    (profile : pystr) (named : option pystr) (p : Profile) (url : pystr) (env : Environ) : R unit :=
  match make_url url with
  | Err text => Err (OtherException text)
  | Ok parsed =>
      if decide (get_backend_name parsed ≠ lit "sqlite") then mret tt
      else if bool_decide (named ≠ None) && bool_decide (profile ∈ PROFILES_ALLOWED_A_DEFAULT_DATABASE) then mret tt
      else if in_this_process parsed then Err (ValueError (MigrationOfMemory profile (display_url url) (IGNORE_ENV p)))
      else if negb (is_unset (read_env_for (IGNORE_ENV p) env (lit "DATABASE_URL"))) then mret tt
      else if decide (named = None) then Err (ValueError (MigrationWithoutProfile profile (display_url url)))
      else Err (ValueError (MigrationOfUnnamedSqlite profile (display_url url) (IGNORE_ENV p)))
  end.

Definition refuse_a_target_a_migration_should_not_touch (p : Profile) (url : pystr) (asked : option pystr)
    (env : Environ) : R unit :=
  let named := named_env asked env in
  let profile := resolve_env named env in
  refuse_a_database_a_migration_should_not_touch profile named p url env ≫= λ _,
  refuse_a_database_nobody_named profile p env.

Definition migration_target_in (p : Profile) (asked : option pystr) (env : Environ) : R pystr :=
  given ← DATABASE_URL p env;
  (if decide (given = []) then validate_database p env else mret tt) ≫= λ _,
  url ← get_database_url dep p env;
  refuse_a_target_a_migration_should_not_touch p url asked env ≫= λ _,
  mret url.
Definition migration_target (p : Profile) (asked : option pystr) : F pystr :=
  λ env, (migration_target_in p asked env, env).

Definition resolve_database_url (asked : option pystr) : F pystr :=
  handed_over ← gets handed_over_url;
  match handed_over with
  | Some url => mret url
  | None =>
      named ← gets (named_env asked);
      profile ← gets (resolve_env named);
      p ← create_config_unvalidated (Some profile);
      migration_target p asked
  end.
End factory.

(** ** Options of a connection *)

Record ConnectArgs := MkConnectArgs {
  ca_connect_timeout : option Z;
  ca_statement_timeout_ms : option Z;
  ca_keepalives : option (Z * Z * Z * Z);
}.

Definition postgresql_connect_args (connect_timeout statement_timeout : Z) : ConnectArgs :=
  {| ca_connect_timeout := if connect_timeout =? 0 then None else Some connect_timeout;
     ca_statement_timeout_ms := if statement_timeout =? 0 then None else Some (statement_timeout * 1000);
     ca_keepalives := if statement_timeout =? 0 then None else Some (1, 5, 2, 3) |}.

(** What [create_engine] is given beyond the address. *)
Record EngineOptions := MkEngineOptions {
  eo_pool : option (Z * Z * Z * bool);
  eo_connect_args : option ConnectArgs;
}.

(** No entry when there is nothing to say. *)
Definition connect_args_entry (a : ConnectArgs) : option ConnectArgs :=
  match a with MkConnectArgs None None None => None | _ => Some a end.

Definition engine_options (database_type : pystr) (pool : Z * Z * Z * bool) (connect statement : Z) : EngineOptions :=
  if decide (database_type = lit "postgresql")
  then MkEngineOptions (Some pool) (connect_args_entry (postgresql_connect_args connect statement))
  else MkEngineOptions None None.

(** ** What the container gives to each component *)

Inductive cache_choice := NullCacheChosen | RedisChosen (s : RedisSettings) | MemoryChosen (s : CacheSettings).
Inductive limiter_choice := RedisLimiterChosen (s : LimiterSettings) | MemoryLimiterChosen.
Inductive mailer_choice :=
| SmtpChosen (host : pystr) (port : Z) (username password sender : pystr) (use_tls use_ssl : bool) (timeout : pyfloat)
| NullMailerChosen.

Section container.
Context `{DecimalDigits} `{CaseFolding} `{Uppercase} `{DatabaseUrls} `{Babel}.
Context (dep : Deployment) (p : Profile) (env : Environ).

Definition url_settings_of : R UrlSettings :=
  schemes ← ALLOWED_SCHEMES p env; longest ← MAX_URL_LENGTH p env; internal ← ALLOW_INTERNAL_TARGETS p env;
  mret (MkUrlSettings schemes longest internal).

(** [_init_link_use_cases]. *)
Definition link_settings_of : R LinkSettings :=
  base ← BASE_URL p env; rules ← url_settings_of;
  attempts ← MAX_COLLISION_ATTEMPTS p env;
  limit ← GUEST_LINK_LIMIT p env; days ← GUEST_LINK_WINDOW_DAYS p env;
  guest ← DEFAULT_GUEST_TTL_SECONDS p env; ceiling ← MAX_TTL_SECONDS p env;
  visits ← VISIT_TRACKING_ENABLED p env;
  mret (MkLinkSettings base rules limit days guest ceiling (Z.to_nat attempts) visits).

(** [DatabaseComponent], as [DatabaseManager.connect] uses it. *)
Definition database_of : R (pystr * EngineOptions) :=
  url ← get_database_url dep p env; backend ← database_backend dep p env; pool ← get_pool_params dep p env;
  connect ← DATABASE_CONNECT_TIMEOUT p env; statement ← DATABASE_STATEMENT_TIMEOUT p env;
  mret (url, engine_options backend pool connect statement).

(** [migration_connect_args]: the base class reads the environment whatever
    the profile. *)
Definition migration_connect_args (url : pystr) : R (option ConnectArgs) :=
  match make_url url with
  | Err text => Err (OtherException text)
  | Ok parsed =>
      if decide (get_backend_name parsed ≠ lit "postgresql") then mret None
      else connect ← DATABASE_CONNECT_TIMEOUT Development env; statement ← DATABASE_STATEMENT_TIMEOUT Development env;
           mret (Some (postgresql_connect_args connect statement))
  end.

(** [_init_batch_use_cases]. *)
Definition batch_settings_of : R BatchSettings :=
  attempts ← MAX_COLLISION_ATTEMPTS p env; limit ← BATCH_CREATE_LIMIT p env;
  mret (MkBatchSettings limit (Z.to_nat attempts)).

(** [PolicyComponent.get_code_generator]; [None] when the constructor
    refuses. *)
Definition code_generator_of : R (option Base64UrlCodeGenerator) :=
  length ← SHORT_CODE_LENGTH p env; least ← SHORT_CODE_MIN_LENGTH p env; most ← SHORT_CODE_MAX_LENGTH p env;
  pepper ← SHORT_CODE_SECRET_PEPPER dep p env;
  mret (match new_Base64UrlCodeGenerator length least most pepper with Ok g => Some g | Err _ => None end).

(** [AuthComponent]. *)
Definition jwt_settings_of : R JwtSettings :=
  minutes ← JWT_ACCESS_TOKEN_EXPIRE_MINUTES p env; days ← JWT_REFRESH_TOKEN_EXPIRE_DAYS p env;
  mret (MkJwtSettings (minutes * MINUTE) (days * DAY)).

(** [_init_auth_use_cases]; the decoy hash is made by the service. *)
Definition auth_settings_of (decoy : pystr) : R AuthSettings :=
  role ← DEFAULT_ROLE_NAME p env;
  link ← EMAIL_VERIFICATION_TTL_HOURS p env; reset ← PASSWORD_RESET_TTL_MINUTES p env;
  account ← UNVERIFIED_ACCOUNT_TTL_HOURS p env;
  limit ← LOGIN_ACCOUNT_FAILURE_LIMIT p env; period ← LOGIN_ACCOUNT_FAILURE_PERIOD p env;
  mret (MkAuthSettings role link reset account limit period decoy).

(** [CacheComponent.get_cache]; [starts] says whether the Redis client can be
    built from the address. *)
Definition cache_of (starts : pystr → bool) : R cache_choice :=
  enabled ← CACHE_ENABLED p env; redis ← REDIS_ENABLED p env; url ← REDIS_URL p env;
  prefix ← CACHE_LINK_PREFIX p env; ttl ← CACHE_LINK_TTL p env; stats ← CACHE_STATS_TTL p env;
  retry ← REDIS_RETRY_INTERVAL p env; key ← SECRET_KEY dep p env;
  mret (if negb enabled then NullCacheChosen
        else if (redis : bool) then
          if starts url then RedisChosen (MkRedisSettings prefix key ttl stats retry) else NullCacheChosen
        else MemoryChosen (MkCacheSettings prefix ttl stats)).

(** [RateLimiterComponent.get_rate_limiter]: there an address the client
    cannot be built from stops the start. *)
Definition limiter_of (starts : pystr → bool) : R limiter_choice :=
  redis ← REDIS_ENABLED p env; url ← REDIS_URL p env; retry ← REDIS_RETRY_INTERVAL p env;
  if negb redis then mret MemoryLimiterChosen
  else if starts url then mret (RedisLimiterChosen (MkLimiterSettings (lit "rate_limiter") retry))
  else Err (OtherException url).

(** [MailComponent.get_mailer]. *)
Definition mailer_of : R mailer_choice :=
  enabled ← MAIL_ENABLED p env; host ← MAIL_HOST p env; port ← MAIL_PORT p env;
  username ← MAIL_USERNAME p env; password ← MAIL_PASSWORD p env; sender ← MAIL_FROM p env;
  tls ← MAIL_USE_TLS p env; ssl ← MAIL_USE_SSL p env; timeout ← MAIL_TIMEOUT p env;
  mret (if (enabled : bool) then SmtpChosen host port username password sender tls ssl timeout else NullMailerChosen).
End container.
