(* ===== verification/ConfigTheorems.v ===== *)
(** * What a validated configuration guarantees: lemmas

    Inversion of the checks: a validated configuration passed every one of
    them, and a check that passes read its settings and found nothing. *)

From S2P Require Import Prelude PyStr Exceptions ValueObjects Entities Policies CodeGen Cache MemoryCache Database LinkRepo RedisCache UserRepo Visitor Links Stats Demo Batch Sessions Auth AuthTheorems Admin AdminTheorems AdminClaims WebRequest LinkViews Config ConfigFactory.

Section lists.
Lemma when_nil b e : when b e = [] ↔ b = false.
Proof. by destruct b. Qed.

Lemma report_nil bad say settings :
  report bad say settings = [] ↔ ∀ f, f ∈ settings → bad f.2 = false.
Proof.
  rewrite /report. induction settings as [|f l IH]; simpl; [by split; [intros _ f ?%elem_of_nil|]|].
  rewrite app_nil when_nil IH. split.
  - intros [? Hl] g [->|?]%list.elem_of_cons; auto.
  - intros Hall. split; [|intros g ?]; apply Hall; by [left|right].
Qed.

Lemma extend_all_nil cs : extend_all cs = Ok [] ↔ ∀ c, c ∈ cs → c = Ok [].
Proof.
  induction cs as [|c cs IH]; simpl; [by split; [intros _ c ?%elem_of_nil|]|]. split.
  - intros (e & -> & (m & Hm & [= [-> ->]%app_nil])%result_bind_ok)%result_bind_ok.
    rewrite IH in Hm. intros d [->|?]%list.elem_of_cons; auto.
  - intros Hall. rewrite (Hall c); [|by left]. simpl.
    assert (extend_all cs = Ok []) as ->; [|done]. apply IH. intros d ?. apply Hall. by right.
Qed.

Lemma unique_nil seen es : unique seen es = [] → ∀ e, e ∈ es → e ∈ seen.
Proof.
  revert seen. induction es as [|e es IH]; intros seen; simpl; [by intros _ e ?%elem_of_nil|].
  case_decide as He; [|done]. intros Hu d [->|?]%list.elem_of_cons; [done|]. by apply (IH seen).
Qed.

Lemma unique_none es : unique [] es = [] → es = [].
Proof.
  destruct es as [|e es]; [done|]. intros Hu. by pose proof (unique_nil _ _ Hu e ltac:(left)) as ?%elem_of_nil.
Qed.
End lists.

(** Take a check that found nothing apart: the settings it read, and what
    each of its conditions came to. *)
Ltac found_nothing H :=
  repeat match type of H with
  | _ ≫= _ = Ok _ => let x := fresh "x" in let Hx := fresh "Hx" in apply result_bind_ok in H as (x & Hx & H)
  end.

Ltac parted H :=
  match type of H with
  | Ok ?l = Ok [] => let H' := fresh in assert (l = []) as H' by (by injection H); clear H; rename H' into H
  | mret ?l = Ok [] => let H' := fresh in assert (l = []) as H' by (by injection H); clear H; rename H' into H
  end; rewrite ?app_nil ?when_nil in H.

Lemma public_reads_env p : deployed p = true → IGNORE_ENV p = false ∧ faces_nobody p = false ∧ REQUIRE_MAIL_TLS p = true.
Proof. by destruct p. Qed.

Section profiles.
Context `{DecimalDigits} `{CaseFolding} (p : Profile) (env : Environ).

Lemma read_env_Some name v : read_env env name = Some v ↔ env !! name = Some v ∧ strip v ≠ [].
Proof.
  rewrite /read_env. destruct (env !! name) as [w|]; simpl; [|by split; [|intros [? _]]].
  case_bool_decide; split; [done|by intros [[= ->] ?]|by intros [= ->]|by intros [? _]].
Qed.

(** A secret is one the environment gives. *)
Lemma secret_given name fallback fixed v :
  deployed p = true → secret p env name fallback fixed = Ok v → env !! lit name = Some v ∧ strip v ≠ [].
Proof.
  rewrite /secret /read_env_for => Hp. destruct p; try done; simpl;
    (destruct (read_env env (lit name)) as [[|c w]|] eqn:Hr; [done| |done]);
    intros [= <-]; by apply read_env_Some.
Qed.

Lemma secret_chosen name fallback fixed : deployed p = true → secret_error name (secret p env name fallback fixed) fallback = Ok [] →
  ∃ v, secret p env name fallback fixed = Ok v ∧ env !! lit name = Some v ∧ strip v ≠ [] ∧ v ≠ fallback.
Proof.
  intros Hp. rewrite /secret_error. destruct (secret p env name fallback fixed) as [v|[e|es|t]] eqn:Hs; simpl.
  - intros Hok. parted Hok. apply bool_decide_eq_false in Hok. exists v. split; [done|].
    by apply secret_given in Hs as [? ?].
  - done.
  - revert Hs. rewrite /secret /env_str /uncast /EnvField. by repeat case_match.
  - done.
Qed.

End profiles.

(** Reading a setting raises one sentence, never a list of them. *)
Definition single {A} (r : R A) : Prop := match r with Err (ConfigurationErrors _) => False | _ => True end.

Lemma single_bind {A B} (m : R A) (f : A → R B) : single m → (∀ a, single (f a)) → single (m ≫= f).
Proof. destruct m; simpl; auto. Qed.

Section single.
Context `{DecimalDigits} `{CaseFolding} `{DatabaseUrls} (dep : Deployment) (p : Profile) (env : Environ).

Lemma single_field {A} (r : result (pystr * pystr) A) : single (uncast r).
Proof. by destruct r as [|[]]. Qed.

Lemma single_sqlite_path : single (sqlite_path dep p env).
Proof.
  apply single_bind; [apply single_field|intros name]. cbv beta. case_match; [done|].
  apply single_bind; [apply single_field|intros directory]. rewrite /anchored. by repeat case_match.
Qed.

Lemma single_database_url : single (get_database_url dep p env).
Proof.
  apply single_bind; [destruct p; (apply single_field || done)|intros url]. case_decide; [done|].
  apply single_bind; [destruct p; (apply single_field || done)|intros type].
  case_decide; [by apply single_bind; [apply single_sqlite_path|]|]. case_decide; [|done].
  do 3 (apply single_bind; [apply single_field|intros ?]). cbv zeta. case_decide; [done|].
  by do 2 (apply single_bind; [apply single_field|intros ?]).
Qed.
End single.

Section validated.
Context `{DecimalDigits} `{CaseFolding} `{Uppercase} `{DatabaseUrls} `{Babel}.
Context (dep : Deployment) (p : Profile) (env : Environ).

Lemma validate_ok : validate dep p env = Ok tt ↔ collect_errors dep p env = Ok [].
Proof.
  rewrite /validate. split.
  - intros (es & Hc & Hu)%result_bind_ok. rewrite Hc. f_equal. apply unique_none. by destruct (unique [] es).
  - by intros ->.
Qed.

Lemma validated_check c : validate dep p env = Ok tt →
  c ∈ base_checks dep p env ++ (if deployed p then deployed_checks dep p env else []) → c = Ok [].
Proof. rewrite validate_ok /collect_errors extend_all_nil. auto. Qed.

Hypothesis valid : validate dep p env = Ok tt.

Lemma bounds_hold : ∃ schemes url shortest longest batch content code,
  (ALLOWED_SCHEMES p env = Ok schemes ∧ MAX_URL_LENGTH p env = Ok url ∧
   SHORT_CODE_MIN_LENGTH p env = Ok shortest ∧ SHORT_CODE_MAX_LENGTH p env = Ok longest ∧
   BATCH_CREATE_LIMIT p env = Ok batch ∧ MAX_CONTENT_LENGTH p env = Ok content ∧ SHORT_CODE_LENGTH p env = Ok code) ∧
  (∀ s, s ∈ schemes → s ∈ [lit "http"; lit "https"]) ∧ 1 <= url <= 2048 ∧
  MIN_LENGTH <= shortest ∧ longest <= MAX_LENGTH ∧ shortest <= code <= longest ∧
  batch <= MAX_BATCH_ITEMS ∧ 1 <= content ∧ batch * url <= content.
Proof.
  assert (bounds_errors p env = Ok []) as Hok by (apply validated_check; [done|do 4 right; left]).
  rewrite /bounds_errors in Hok. found_nothing Hok. parted Hok.
  destruct Hok as (Hsch & ? & ? & ? & ? & ? & ? & ? & ?).
  do 7 eexists. split; [split_and!; eassumption|].
  split; [|unfold MIN_LENGTH, MAX_LENGTH, MAX_BATCH_ITEMS in *; lia].
  intros s Hin. destruct (decide (s ∈ [lit "http"; lit "https"])) as [|Hbad]; [done|].
  apply fmap_nil_inv in Hsch.
  assert (s ∈ filter (λ s, s ∉ [lit "http"; lit "https"]) x) as Hf by (by apply list_elem_of_filter).
  rewrite Hsch in Hf. by apply elem_of_nil in Hf.
Qed.

(** A group of settings read one after another. *)
Lemma named_ok names l : named names = Ok l → ∀ n r, (n, r) ∈ names → ∃ v, r = Ok v ∧ (lit n, v) ∈ l.
Proof.
  revert l. induction names as [|[n r] names IH]; intros l; simpl; [by intros _ n r ?%elem_of_nil|].
  intros (f & (v & Hv & [= <-])%result_bind_ok & (l' & Hl & [= <-])%result_bind_ok)%result_bind_ok.
  intros n' r' [[= -> ->]|Hin]%list.elem_of_cons; [exists v; split; [done|by left]|].
  destruct (IH _ Hl _ _ Hin) as (v' & ? & ?). exists v'. split; [done|by right].
Qed.

(** Every setting of a group passed the test made of the group. *)
Lemma reported_ok names l bad say n r : named names = Ok l → report bad say l = [] → (n, r) ∈ names →
  ∃ v, r = Ok v ∧ bad v = false.
Proof.
  intros Hn Hr Hin. destruct (named_ok _ _ Hn _ _ Hin) as (v & -> & Hv). exists v. split; [done|].
  rewrite report_nil in Hr. exact (Hr _ Hv).
Qed.

Lemma usable_time t : unusable_time t = false → isfinite t = true ∧ positive t = true.
Proof. rewrite /unusable_time. by destruct (isfinite t), (positive t). Qed.

Lemma numbers_hold :
  (∀ n r, (n, r) ∈ positive_settings p env → ∃ v, r = Ok v ∧ 1 <= v) ∧
  (∀ n r, (n, r) ∈ non_negative_settings p env → ∃ v, r = Ok v ∧ 0 <= v) ∧
  (∃ guest ceiling, DEFAULT_GUEST_TTL_SECONDS p env = Ok guest ∧ MAX_TTL_SECONDS p env = Ok ceiling ∧
     1 <= guest <= ceiling) ∧
  (∃ port, PORT p env = Ok port ∧ 1 <= port <= 65535) ∧
  (∃ t, HEALTH_CHECK_TIMEOUT p env = Ok t ∧ isfinite t = true ∧ positive t = true) ∧
  (∃ t, FAILOVER_CHECK_INTERVAL p env = Ok t ∧ isfinite t = true ∧ positive t = true).
Proof.
  assert (numeric_errors p env = Ok []) as Hok by (apply validated_check; [done|do 6 right; left]).
  rewrite /numeric_errors in Hok. found_nothing Hok. parted Hok. destruct Hok as (Hport & Hp & Hbudget & Hn & Hl & Hg & Hint).
  split_and!.
  - intros n r Hin. destruct (reported_ok _ _ _ _ _ _ Hx0 Hp Hin) as (v & ? & ?). exists v. split; [done|lia].
  - intros n r Hin. destruct (reported_ok _ _ _ _ _ _ Hx2 Hn Hin) as (v & ? & ?). exists v. split; [done|lia].
  - exists x4, x5. split_and!; [done..| |].
    + destruct (reported_ok _ _ _ _ "DEFAULT_GUEST_TTL_SECONDS"%string (DEFAULT_GUEST_TTL_SECONDS p env) Hx3 Hl) as (v & Hv & ?);
        [left|]. rewrite Hx4 in Hv. injection Hv as <-. lia.
    + destruct (reported_ok _ _ _ _ "MAX_TTL_SECONDS"%string (MAX_TTL_SECONDS p env) Hx3 Hl) as (v & Hv & ?);
        [right; left|]. rewrite Hx5 in Hv. injection Hv as <-. lia.
  - exists x. split; [done|lia].
  - exists x1. destruct (usable_time _ Hbudget). done.
  - exists x6. destruct (usable_time _ Hint). done.
Qed.

Lemma confirmations_hold : ∃ link account reset,
  EMAIL_VERIFICATION_TTL_HOURS p env = Ok link ∧ UNVERIFIED_ACCOUNT_TTL_HOURS p env = Ok account ∧
  PASSWORD_RESET_TTL_MINUTES p env = Ok reset ∧ 1 <= link <= account ∧ 1 <= reset.
Proof.
  assert (confirmation_errors p env = Ok []) as Hok by (apply validated_check; [done|do 8 right; left]).
  rewrite /confirmation_errors in Hok. found_nothing Hok. parted Hok. destruct Hok as ((Hl & Ha & _) & Hm & Hs). simpl in Hl.
  exists x, x0, x1. split_and!; [done..|lia|lia|lia].
Qed.

Lemma journals_are_named setting r : (setting, r) ∈
    [("LOG_FILENAME", LOG_FILENAME p env); ("AUDIT_LOG_FILENAME", AUDIT_LOG_FILENAME p env);
     ("ERROR_LOG_FILENAME", ERROR_LOG_FILENAME p env)]%string →
  ∃ name, r = Ok name ∧ is_journal_name name = true.
Proof.
  assert (journal_name_errors p env = Ok []) as Hok by (apply validated_check; [done|do 11 right; left]).
  rewrite /journal_name_errors in Hok. found_nothing Hok. parted Hok. simpl in Hok.
  rewrite ?app_nil ?when_nil ?negb_false_iff in Hok. destruct Hok as (? & ? & ? & _).
  intros Hin. repeat (apply list.elem_of_cons in Hin as [[= -> ->]|Hin]; [by eauto|]). by apply elem_of_nil in Hin.
Qed.

(** *** Profiles that face the public *)

Hypothesis public : deployed p = true.

Lemma secrets_are_chosen : ∃ key pepper,
  (SECRET_KEY dep p env = Ok key ∧ env !! lit "SECRET_KEY" = Some key ∧ strip key ≠ [] ∧ key ≠ default_secret_key dep) ∧
  (SHORT_CODE_SECRET_PEPPER dep p env = Ok pepper ∧ env !! lit "SHORT_CODE_PEPPER" = Some pepper ∧
   strip pepper ≠ [] ∧ pepper ≠ default_pepper dep).
Proof.
  destruct (public_reads_env p public) as (_ & Hf & _).
  assert (secret_errors dep p env = Ok []) as Hok.
  { apply validated_check; [done|]. rewrite /base_checks Hf. left. }
  rewrite /secret_errors in Hok. found_nothing Hok. parted Hok. destruct Hok as [-> ->].
  apply secret_chosen in Hx as (key & ?); [|done]. apply secret_chosen in Hx0 as (pepper & ?); [|done]. by exists key, pepper.
Qed.

Lemma deployed_check c : c ∈ deployed_checks dep p env → c = Ok [].
Proof. intros Hc. apply validated_check; [done|]. rewrite public. apply elem_of_app. by right. Qed.

Lemma domain_is_a_host : domain_value p env ≠ [] ∧ has_char SLASH (domain_value p env) = false.
Proof.
  assert (mret (domain_errors p env) = Ok []) as Hd by (apply validated_check; [done|right; left]).
  assert (mret (when (bool_decide (domain_value p env = [])) (DomainNotSet (profile_name p))) = Ok []) as Hn
    by (apply deployed_check; do 2 right; left).
  parted Hn. apply bool_decide_eq_false in Hn. split; [done|].
  rewrite /domain_errors decide_False // in Hd. destruct (contains _ _); [done|]. by parted Hd.
Qed.

Lemma url_can_be_built : ∃ url, get_database_url dep p env = Ok url.
Proof.
  assert (value_errors (get_database_url dep p env) = Ok []) as Hv by (apply deployed_check; left).
  pose proof (single_database_url dep p env) as Hs.
  by destruct (get_database_url dep p env) as [url|[e|es|t]]; [eauto|..].
Qed.

Lemma backend_is_postgresql b : url_backend dep p env = Some b → b = lit "postgresql".
Proof.
  destruct (public_reads_env p public) as (_ & Hf & _).
  assert (deployed_backend_errors dep p env = Ok []) as Hok by (apply validated_check; [done|do 3 right; left]).
  rewrite /deployed_backend_errors Hf in Hok. intros Hb. rewrite Hb in Hok. case_decide; [done|].
  by apply result_bind_ok in Hok as (? & _ & ?).
Qed.

Lemma no_wildcard origins : CORS_ORIGINS p env = Ok origins → lit "*" ∉ strip <$> origins.
Proof.
  destruct (public_reads_env p public) as (_ & Hf & _).
  assert (cors_errors p env = Ok []) as Hok by (apply validated_check; [done|do 13 right; left]).
  rewrite /cors_errors Hf in Hok. intros Ho. rewrite Ho /= in Hok. parted Hok. by apply bool_decide_eq_false in Hok.
Qed.

Lemma mail_is_protected : MAIL_ENABLED p env = Ok true → MAIL_USE_TLS p env = Ok true ∨ MAIL_USE_SSL p env = Ok true.
Proof.
  destruct (public_reads_env p public) as (_ & _ & Hreq).
  assert (mail_errors p env = Ok []) as Hok by (apply validated_check; [done|do 7 right; left]).
  rewrite /mail_errors in Hok. intros Hen. found_nothing Hok. rewrite Hen in Hx3. injection Hx3 as <-. simpl in Hok.
  found_nothing Hok. parted Hok. destruct Hok as (_ & _ & _ & -> & _).
  rewrite /and_then Hreq /in_the_clear in Hx5. found_nothing Hx5. injection Hx5 as Hx5. apply negb_false_iff in Hx5 as ->.
  destruct x5; [by left|]. by right.
Qed.
End validated.

(** * What the configuration guarantees

    The files and the environment, what a validated profile promises the
    components and the public, what is shown of a connection, and where a
    migration may go. *)

(** ** Where a value comes from *)

Lemma set_where_lookup may entries env k :
  (∀ e1 e2, e1 !! k = e2 !! k → may e1 k = may e2 k) →
  set_where may entries env !! k =
    match entries !! k with
    | Some v => if (may env k : bool) then Some v else env !! k
    | None => env !! k
    end.
Proof.
  intros Hmay. rewrite /set_where. revert k Hmay.
  apply (map_fold_weak_ind (λ (r m : Environ), ∀ k, (∀ e1 e2, e1 !! k = e2 !! k → may e1 k = may e2 k) →
    r !! k = match m !! k with Some v => if (may env k : bool) then Some v else env !! k | None => env !! k end)); [done|].
  intros i v m r Hi IH k Hmay. pose proof (IH k Hmay) as IHk. destruct (decide (i = k)) as [->|Hne].
  - rewrite lookup_insert_eq. rewrite Hi in IHk. rewrite (Hmay r env IHk).
    destruct (may env k); [by rewrite lookup_insert_eq|done].
  - rewrite (lookup_insert_ne m) //. destruct (may r i); [by rewrite lookup_insert_ne|done].
Qed.

(** The first of several texts that is not blank. *)
Definition first_set (texts : list (option pystr)) : option pystr :=
  first (omap (λ t, if is_unset t then None else t) texts).

Section files.
Context `{DecimalDigits} `{CaseFolding} `{Uppercase} `{DatabaseUrls} `{Babel} `{Dotenv}.
Context (dep : Deployment).

(** A value the command line copied from the shared file beforehand. *)
Definition copied (env : Environ) (key : pystr) : bool :=
  dotenv_was_preloaded env && bool_decide (env !! key = env_file (lit ".env") env !! key).

Lemma files_in_order profile env key :
  read_env (apply_env_files profile (env_file (lit ".env") env) env) key =
    first_set [if copied env key then None else env !! key;
               env_file (lit ".env." ++ profile) env !! key; env_file (lit ".env") env !! key].
Proof.
  rewrite /read_env /apply_env_files /copied. set (shared := env_file (lit ".env") env). set (own := env_file _ env).
  rewrite set_where_lookup; [|by intros e1 e2 ->].
  rewrite set_where_lookup; [|by intros e1 e2 He; rewrite /is_replaceable He].
  rewrite /is_replaceable /first_set.
  destruct (env !! key) as [here|] eqn:Hh, (own !! key) as [o|] eqn:Ho, (shared !! key) as [s|] eqn:Hs; simpl;
    destruct (dotenv_was_preloaded env); simpl; repeat (case_bool_decide; simplify_eq/=); done.
Qed.

Lemma profile_of_name name p : profile_of name = Some p → name = profile_name p.
Proof.
  rewrite /profile_of /CONFIG_MAP. destruct (first _) as [[n q]|] eqn:Hf; [|done]. intros [= <-].
  apply first_filter_Some in Hf as [Hin Hn]. simpl in Hn. subst n.
  apply list_elem_of_fmap in Hin as (r & [= -> ->] & _). done.
Qed.

(** A setting is what the process environment says, and where that is
    silent what the profile's own file says, and then what the shared file
    says; blank says nothing, and a value the command line had copied from
    the shared file counts as the shared file's.  The testing profile reads
    no file. *)
Theorem settings_have_their_precedence asked env p env' key :
  create_config dep asked env = (Ok p, env') →
  validate dep p env' = Ok tt ∧
  if decide (p = Testing) then env' = env
  else read_env env' key =
         first_set [if copied env key then None else env !! key;
                    env_file (lit ".env." ++ profile_name p) env !! key; env_file (lit ".env") env !! key].
Proof.
  rewrite /create_config. intros (q & e1 & Hc & Hr)%bind_ok_inv.
  apply bind_ok_inv in Hr as ([] & e2 & Hv & [= -> ->]). injection Hv as Hv ->. split; [done|].
  revert Hc. rewrite /create_config_unvalidated {1}/mbind {1}/M_bind /gets.
  destruct (profile_of (resolve_env asked env)) as [r|] eqn:Hp; [|done]. apply profile_of_name in Hp as ->.
  case_decide as Hd.
  - intros [= -> ->]. apply list_elem_of_singleton in Hd. by destruct p; [discriminate Hd..|].
  - intros [= -> <-]. rewrite decide_False; [apply files_in_order|]. intros ->. apply Hd. by left.
Qed.
End files.

(** ** What a validated profile promises *)

Section promises.
Context `{DecimalDigits} `{CaseFolding} `{Uppercase} `{DatabaseUrls} `{Babel}.
Context (dep : Deployment) (p : Profile) (env : Environ).

(** C27: A profile that faces the public and passes validation signs with
    secrets the environment gives, none of them blank or generated; it can
    build its connection, which names PostgreSQL if it can be read; no page
    of any origin may read its answers with the visitor's credentials; the
    addresses it prints begin with a scheme and a host and nothing else; and
    mail leaves it protected. *)
Theorem a_deployed_configuration_is_safe :
  deployed p = true → validate dep p env = Ok tt →
  (∃ key pepper,
     (SECRET_KEY dep p env = Ok key ∧ env !! lit "SECRET_KEY" = Some key ∧ strip key ≠ [] ∧ key ≠ default_secret_key dep) ∧
     (SHORT_CODE_SECRET_PEPPER dep p env = Ok pepper ∧ env !! lit "SHORT_CODE_PEPPER" = Some pepper ∧
      strip pepper ≠ [] ∧ pepper ≠ default_pepper dep)) ∧
  (∃ url, get_database_url dep p env = Ok url ∧
     ∀ u, make_url url = Ok u → get_backend_name u = lit "postgresql") ∧
  (∀ origins, CORS_ORIGINS p env = Ok origins → lit "*" ∉ strip <$> origins) ∧
  (∀ base, BASE_URL p env = Ok base → ∃ scheme host,
     scheme ∈ [lit "http"; lit "https"] ∧ base = scheme ++ lit "://" ++ host ∧
     host = domain_value p env ∧ host ≠ [] ∧ has_char SLASH host = false) ∧
  (MAIL_ENABLED p env = Ok true → MAIL_USE_TLS p env = Ok true ∨ MAIL_USE_SSL p env = Ok true).
Proof.
  intros Hp Hv. destruct (domain_is_a_host dep p env Hv Hp) as [Hd Hslash]. split_and!.
  - by apply secrets_are_chosen.
  - destruct (url_can_be_built dep p env Hv Hp) as [url Hurl]. exists url. split; [done|]. intros u Hu.
    apply (backend_is_postgresql dep p env Hv Hp). by rewrite /url_backend Hurl Hu.
  - intros origins. by apply (no_wildcard dep p env).
  - intros base. rewrite /BASE_URL decide_False //. intros (https & _ & [= <-])%result_bind_ok.
    exists (if https then lit "https" else lit "http"), (domain_value p env). split_and!; [|done..].
    destruct https; set_solver.
  - by apply (mail_is_protected dep p env).
Qed.

Lemma pepper_can_be_read : validate dep p env = Ok tt → ∃ v, SHORT_CODE_SECRET_PEPPER dep p env = Ok v.
Proof.
  intros Hv. destruct (deployed p) eqn:Hp.
  - destruct (secrets_are_chosen dep p env Hv Hp) as (? & v & _ & ? & _). by exists v.
  - rewrite /SHORT_CODE_SECRET_PEPPER /secret. destruct p; [|done..|by eauto].
    rewrite /env_str /EnvField. case_match; eauto.
Qed.

(** A setting read twice has one value. *)
Ltac same_reads :=
  repeat match goal with
  | H1 : ?r = Ok ?a, H2 : ?r = Ok ?b |- _ => let E := fresh in assert (b = a) as E by congruence; subst b; clear H2
  end.

Lemma generator_can_be_built : validate dep p env = Ok tt →
  ∃ g, code_generator_of dep p env = Ok (Some g) ∧ generator_wf g.
Proof.
  intros Hv. destruct (pepper_can_be_read Hv) as [v Rp].
  destruct (bounds_hold dep p env Hv) as (? & ? & lo & hi & ? & ? & code & (_ & _ & Rlo & Rhi & _ & _ & Rc) & _ & _ & ? & ? & ? & _).
  exists (MkBase64UrlCodeGenerator code lo hi v). rewrite /code_generator_of Rc Rlo Rhi Rp /= /new_Base64UrlCodeGenerator.
  rewrite (proj2 (andb_true_iff _ _)); [|lia]. split; [done|]. rewrite /generator_wf /=. lia.
Qed.

(** C28: What validation admits is what the components need.  The code
    generator can be built and gives a code for every text; schemes are
    http and https, addresses have a bounded length, quotas, windows and
    attempts are at least one, the lifetime a guest is given lies within the
    ceiling, a batch is no longer than the schema admits, a login outlasts
    the moment it was opened. *)
Theorem validated_settings_fit_the_components ls bs js :
  validate dep p env = Ok tt →
  link_settings_of p env = Ok ls → batch_settings_of p env = Ok bs → jwt_settings_of p env = Ok js →
  (∃ g, code_generator_of dep p env = Ok (Some g) ∧ ∀ text bytes, utf8_encode (text ++ pepper g) = Some bytes →
     ∃ c, base64_generate g text = Ok c ∧ len (sc_value c) = code_length g ∧ new_ShortCode (sc_value c) = Ok c) ∧
  (∀ s, s ∈ allowed_schemes (url_settings ls) → s ∈ [lit "http"; lit "https"]) ∧
  1 <= max_url_length (url_settings ls) <= 2048 ∧
  1 <= guest_link_limit ls ∧ 1 <= guest_link_window_days ls ∧
  1 <= default_guest_ttl_seconds ls <= max_ttl_seconds ls ∧ (1 <= max_collision_attempts ls)%nat ∧
  1 <= batch_limit bs <= MAX_BATCH_ITEMS ∧
  0 < access_expire js ∧ 0 < refresh_expire js.
Proof.
  intros Hv Hls Hbs Hjs. split.
  { destruct (generator_can_be_built Hv) as (g & ? & Hg). exists g. split; [done|]. intros text bytes Hb.
    destruct (base64_generate_total g text bytes Hg Hb) as (c & ? & ? & ?). exists c. split_and!; [done..|].
    apply new_ShortCode_ok. by destruct c. }
  destruct (bounds_hold dep p env Hv) as (? & ? & ? & ? & ? & ? & ? & (Rs & Ru & _ & _ & Rb & _) & ? & ? & _ & _ & _ & ? & _).
  destruct (numbers_hold dep p env Hv) as (Hpos & _ & (? & ? & Rg & Rm & ?) & _).
  assert (Forall (λ f, ∀ v, f.2 = Ok v → 1 <= v) (positive_settings p env)) as Hone.
  { apply list.Forall_forall. intros [n r] Hin v Hr. destruct (Hpos _ _ Hin) as (v' & Hr' & ?). simpl in Hr. congruence. }
  rewrite /link_settings_of /url_settings_of in Hls. rewrite /batch_settings_of in Hbs. rewrite /jwt_settings_of in Hjs.
  found_nothing Hls. found_nothing Hbs. found_nothing Hjs. injection Hls as <-. injection Hbs as <-. injection Hjs as <-.
  match goal with Hu : _ ≫= _ = Ok _ |- _ => found_nothing Hu; injection Hu as <- end. same_reads. simpl.
  rewrite /positive_settings in Hone. decompose_Forall_hyps.
  repeat match goal with Hp : ∀ v, ?r = Ok v → 1 <= v, R : ?r = Ok _ |- _ => specialize (Hp _ R) end.
  split_and!; try done; unfold MINUTE, DAY, HOUR, MINUTE, SECOND; lia.
Qed.

(** With a validated configuration the sweep of unconfirmed accounts
    spares an account as long as the link it registered with works. *)
Theorem the_sweep_waits_for_the_first_link decoy a d m now vid digest :
  validate dep p env = Ok tt → auth_settings_of p env decoy = Ok a → m ∈ users d →
  verification_is_usable now
    (issue_verification (um_created_at m) vid (um_id m) digest (verification_ttl_hours a)) = true →
  m ∈ users (delete_unverified_before (now - unverified_ttl_hours a * HOUR) d).2.
Proof.
  intros Hv Ha Hm Hu.
  destruct (confirmations_hold dep p env Hv) as (link & account & reset & Rl & Ra & _ & Hle & _).
  rewrite /auth_settings_of in Ha. found_nothing Ha. injection Ha as <-. same_reads. simpl in *.
  rewrite /verification_is_usable /= in Hu. change (m ∈ delete_where (unverified_before (now - account * HOUR)) (users d)).
  rewrite /delete_where. apply list_elem_of_filter. split; [|done]. intros [_ Hc].
  unfold HOUR, MINUTE, SECOND in *. lia.
Qed.
End promises.

(** ** What is shown of a connection *)

(** Whether a password is there at all; an empty one counts as none. *)
Definition has_password (u : DbUrl) : bool := match password u with None | Some [] => false | Some _ => true end.

(** With [hide_password] the renderer writes the same for every password. *)
Class HidesPassword `{DatabaseUrls} := hides_password u w1 w2 :
  render_as_string true (set_password (Some w1) u) = render_as_string true (set_password (Some w2) u).

Section shown.
Context `{DatabaseUrls} `{CaseFolding} `{!HidesPassword}.

(** Two addresses that differ in their passwords only, before the host and
    in the query. *)
Definition same_but_secrets (u1 u2 : DbUrl) : Prop :=
  set_query [] (set_password None u1) = set_query [] (set_password None u2) ∧
  has_password u1 = has_password u2 ∧ (query u1).*1 = (query u2).*1 ∧ mask_query (query u1) = mask_query (query u2).

Lemma mask_nothing q : existsb (λ f, is_credential f.1) q = false → mask_query q = q.
Proof.
  induction q as [|[n v] q IH]; simpl; [done|]. intros [-> Hq]%orb_false_iff. by rewrite /mask_query /= -/(mask_query q) IH.
Qed.

Lemma credentials_by_name (q : list (pystr * list pystr)) : existsb (λ f, is_credential f.1) q = existsb is_credential q.*1.
Proof. induction q as [|f q IH]; simpl; [done|]. by rewrite IH. Qed.

(** What the renderer is handed. *)
Definition masked (u : DbUrl) : DbUrl :=
  set_query (mask_query (query u)) (if has_password u then u else set_password None u).

Lemma display_url_masked url u : make_url url = Ok u →
  display_url url = (if existsb is_credential (query u).*1 then replace QUOTED_MASK MASK else id)
                      (render_as_string true (masked u)).
Proof.
  intros Hu. rewrite /display_url Hu /masked /has_password -credentials_by_name.
  destruct u as [dr us pw ho po da q]. simpl.
  destruct pw as [[|c w]|]; simpl; (destruct (existsb _ q) eqn:Hq; [done|]); by rewrite /set_query /= mask_nothing.
Qed.

Lemma masked_alike u1 u2 : same_but_secrets u1 u2 →
  render_as_string true (masked u1) = render_as_string true (masked u2).
Proof.
  destruct u1 as [dr us [[|c1 w1]|] ho po da q1], u2 as [dr2 us2 [[|c2 w2]|] ho2 po2 da2 q2];
    rewrite /same_but_secrets /masked /has_password /set_query /=;
    intros ([= <- <- <- <- <-] & Hpw & _ & <-); try done.
  exact (hides_password (MkDbUrl dr us None ho po da (mask_query q1)) (c1 :: w1) (c2 :: w2)).
Qed.

(** What is printed of a connection does not depend on its passwords:
    two addresses alike but for them are shown alike. *)
Theorem displayed_urls_hide_credentials url1 url2 u1 u2 :
  make_url url1 = Ok u1 → make_url url2 = Ok u2 → same_but_secrets u1 u2 →
  display_url url1 = display_url url2.
Proof.
  intros Hu1 Hu2 Hs. rewrite (display_url_masked _ _ Hu1) (display_url_masked _ _ Hu2) (masked_alike _ _ Hs).
  by destruct Hs as (_ & _ & -> & _).
Qed.
End shown.

(** ** Where a migration goes *)

Section migrations.
Context `{DecimalDigits} `{CaseFolding} `{Uppercase} `{DatabaseUrls} `{Babel} `{Dotenv}.
Context (dep : Deployment).

(** A profile somebody named, and it is the one meant for development. *)
Definition for_development (asked : option pystr) (env : Environ) : Prop :=
  named_env asked env ≠ None ∧ resolve_env (named_env asked env) env ∈ PROFILES_ALLOWED_A_DEFAULT_DATABASE.

Lemma target_allowed p url asked env : refuse_a_target_a_migration_should_not_touch p url asked env = Ok tt →
  (∃ u, make_url url = Ok u ∧
    (get_backend_name u = lit "sqlite" → ¬ for_development asked env →
       in_this_process u = false ∧ IGNORE_ENV p = false ∧ read_env env (lit "DATABASE_URL") ≠ None)) ∧
  (resolve_env (named_env asked env) env ∉ PROFILES_ALLOWED_A_DEFAULT_DATABASE → unnamed_parts p env = Ok []).
Proof.
  intros ([] & Htouch & Hnamed)%result_bind_ok. split.
  - rewrite /refuse_a_database_a_migration_should_not_touch in Htouch. destruct (make_url url) as [u|]; [|done].
    exists u. split; [done|]. intros Hsqlite Hdev. rewrite decide_False in Htouch; [|by intros []].
    revert Htouch. destruct (_ && _) eqn:Hd.
    { apply andb_true_iff in Hd as [?%bool_decide_eq_true ?%bool_decide_eq_true]. by destruct Hdev. }
    destruct (in_this_process u); [done|]. rewrite /read_env_for.
    destruct (named_env asked env), (IGNORE_ENV p); try done.
    all: destruct (read_env env (lit "DATABASE_URL")) as [v|]; try done.
  - intros Hp. rewrite /refuse_a_database_nobody_named decide_False // in Hnamed.
    destruct (unnamed_parts p env) as [[|[] l]|]; done.
Qed.

(** A migration goes to the address handed over, or else to the address
    of the profile, and there a SQLite file is touched only under a profile
    somebody named that is meant for development, or when the environment
    itself names the file; never a database inside the process; and outside
    development a server whose host or name nobody gave is not touched
    either. *)
Theorem migrations_go_where_they_are_sent asked env url env' :
  resolve_database_url dep asked env = (Ok url, env') →
  handed_over_url env = Some url ∨
  ∃ p, get_database_url dep p env' = Ok url ∧
    (∃ u, make_url url = Ok u ∧
      (get_backend_name u = lit "sqlite" → ¬ for_development asked env' →
         in_this_process u = false ∧ IGNORE_ENV p = false ∧ read_env env' (lit "DATABASE_URL") ≠ None)) ∧
    (resolve_env (named_env asked env') env' ∉ PROFILES_ALLOWED_A_DEFAULT_DATABASE → unnamed_parts p env' = Ok []).
Proof.
  rewrite /resolve_database_url {1}/mbind {1}/M_bind /gets. destruct (handed_over_url env) as [h|]; [by intros [= <- _]; left|].
  rewrite {1}/mbind {1}/M_bind /= {1}/mbind {1}/M_bind /=. intros (p & e & _ & Ht)%bind_ok_inv. right. exists p.
  injection Ht as Ht ->. rewrite /migration_target_in in Ht. found_nothing Ht. injection Ht as ->.
  split; [done|]. apply target_allowed. by destruct x2.
Qed.
End migrations.

(** ** A deployment *)

Module ConfigDemo.
#[local] Instance folding : CaseFolding := fmap ascii_lower.
#[local] Instance digits : DecimalDigits := λ _, None.
#[local] Instance uppercase : Uppercase := fmap ascii_upper.
#[local] Instance babel : Babel := λ _, None.
(** A driver, a colon and a password. *)
#[local] Instance plain_urls : DatabaseUrls := {|
  make_url s :=
    let '(driver, found, rest) := partition_at COLON s in
    if found then Ok (MkDbUrl driver None (Some rest) None None None [(lit "sslpassword", [rest])])
    else Err (lit "no driver");
  render_as_string hide u := drivername u ++ COLON :: (if (hide : bool) then MASK else default [] (password u));
|}.
#[local] Instance plain_hides : HidesPassword.
Proof. done. Qed.
#[local] Instance files : Dotenv := λ name _,
  if decide (name = lit ".env.production") then {[lit "PORT" := lit "8080"; lit "HOST" := lit " "]}
  else if decide (name = lit ".env") then {[lit "PORT" := lit "9000"; lit "HOST" := lit "10.0.0.1"]} else ∅.

Definition dep : Deployment := MkDeployment (Some (lit "/srv/app")) (λ _, None) (lit "generated") (lit "drawn").
Definition given : Environ :=
  {[lit "FLASK_ENV" := lit "Production "; lit "SECRET_KEY" := lit "k3y"; lit "SHORT_CODE_PEPPER" := lit "p3pper";
    lit "DATABASE_URL" := lit "postgres:pw"; lit "REDIS_URL" := lit "redis://cache"; lit "DOMAIN" := lit "maiz.link";
    lit "MAX_TTL_SECONDS" := lit "1_000_000"; lit "HEALTH_CHECK_TIMEOUT" := lit "2.5"]}.
Definition run := create_config dep None given.
Lemma run_ok : run = (Ok Production, run.2).
Proof. assert (run.1 = Ok Production) as <- by (vm_compute; reflexivity). apply surjective_pairing. Qed.
Lemma run_valid : validate dep Production run.2 = Ok tt.
Proof. vm_compute. reflexivity. Qed.

Lemma settings_have_their_precedence_witness :
  PORT Production run.2 = Ok 8080 ∧ HOST Production run.2 = Ok (lit "10.0.0.1") ∧
  read_env run.2 (lit "PORT") =
    first_set [if copied given (lit "PORT") then None else given !! lit "PORT";
               env_file (lit ".env.production") given !! lit "PORT"; env_file (lit ".env") given !! lit "PORT"].
Proof.
  split; [vm_compute; reflexivity|]. split; [vm_compute; reflexivity|].
  exact (proj2 (settings_have_their_precedence dep None given Production run.2 (lit "PORT") run_ok)).
Defined.

Lemma a_deployed_configuration_is_safe_witness :
  ∃ base scheme host, BASE_URL Production run.2 = Ok base ∧
    scheme ∈ [lit "http"; lit "https"] ∧ base = scheme ++ lit "://" ++ host ∧
    host = domain_value Production run.2 ∧ host ≠ [] ∧ has_char SLASH host = false.
Proof.
  assert (∃ base, BASE_URL Production run.2 = Ok base) as [base Hb] by (vm_compute; eauto).
  pose proof (a_deployed_configuration_is_safe dep Production run.2 eq_refl run_valid) as (_ & _ & _ & H & _).
  destruct (H base Hb) as (scheme & host & H'). exists base, scheme, host. split; [exact Hb|exact H'].
Defined.

Lemma validated_settings_fit_the_components_witness : ∃ ls,
  link_settings_of Production run.2 = Ok ls ∧ max_ttl_seconds ls = 1000000 ∧
  1 <= default_guest_ttl_seconds ls <= max_ttl_seconds ls.
Proof.
  assert (∃ ls, link_settings_of Production run.2 = Ok ls ∧ max_ttl_seconds ls = 1000000) as (ls & Hls & Hm)
    by (vm_compute; eauto).
  assert (∃ bs, batch_settings_of Production run.2 = Ok bs) as [bs Hbs] by (vm_compute; eauto).
  assert (∃ js, jwt_settings_of Production run.2 = Ok js) as [js Hjs] by (vm_compute; eauto).
  destruct (validated_settings_fit_the_components dep Production run.2 ls bs js run_valid Hls Hbs Hjs)
    as (_ & _ & _ & _ & _ & Hg & _).
  exists ls. split; [exact Hls|]. split; [exact Hm|exact Hg].
Defined.

Lemma displayed_urls_hide_credentials_witness :
  display_url (lit "postgresql:secret") = display_url (lit "postgresql:other") ∧
  display_url (lit "postgresql:other") = lit "postgresql:***".
Proof.
  split; [|vm_compute; reflexivity].
  refine (displayed_urls_hide_credentials (lit "postgresql:secret") (lit "postgresql:other") _ _ eq_refl eq_refl _).
  split; [reflexivity|]. split; [reflexivity|]. split; reflexivity.
Defined.

(** Under the deployed profile a migration follows [DATABASE_URL]. *)
Definition sent := resolve_database_url dep None given.
Lemma sent_ok : sent = (Ok (lit "postgresql+psycopg:pw"), sent.2).
Proof.
  assert (sent.1 = Ok (lit "postgresql+psycopg:pw")) as <- by (vm_compute; reflexivity). apply surjective_pairing.
Qed.

Lemma migrations_go_where_they_are_sent_witness : ∃ p, get_database_url dep p sent.2 = Ok (lit "postgresql+psycopg:pw").
Proof.
  destruct (migrations_go_where_they_are_sent dep None given (lit "postgresql+psycopg:pw") sent.2 sent_ok)
    as [Hh|(p & Hp & _)]; [discriminate Hh|exists p; exact Hp].
Defined.

(** *** The link an account registered with, and a later one *)

Import Demo AdminDemo.
#[local] Existing Instances Demo.folding Demo.uuids Demo.cache AdminDemo.secrets AdminDemo.bcrypt AdminDemo.mail.

Lemma the_sweep_waits_for_the_first_link_witness : ∃ a,
  auth_settings_of Production run.2 [40] = Ok a ∧
  newcomer ∈ users (delete_unverified_before (23 * HOUR - unverified_ttl_hours a * HOUR) db).2.
Proof.
  assert (∃ a, auth_settings_of Production run.2 [40] = Ok a ∧ verification_ttl_hours a = 24) as (a & Ha & Ht)
    by (vm_compute; eauto).
  exists a. split; [exact Ha|].
  refine (the_sweep_waits_for_the_first_link dep Production run.2 [40] a db newcomer (23 * HOUR) [] [] run_valid Ha _ _).
  - right. left.
  - rewrite Ht. vm_compute. reflexivity.
Defined.

(** The comparison of the two lifetimes says nothing of a link that was asked
    for again: an hour before the account is due a link is sent that is good
    for a day, and two hours later the account is gone. *)
Definition resent : World Cache :=
  (resend_verification settings (lit "new@a.org") boss (set_now (47 * HOUR) AdminDemo.world)).2.
Definition late : World Cache := set_now (49 * HOUR) resent.
Definition link_sent : pystr := repeat 65 11.

Example a_link_asked_for_again_dies_with_the_account :
  is_ok (verify_email link_sent boss late).1 = true ∧
  (verify_email link_sent boss (clean_unverified_accounts settings boss late).2).1 = Err BAD_CONFIRMATION.
Proof. vm_compute. split; reflexivity. Qed.
End ConfigDemo.
