(* ===== verification/AuditRecords.v ===== *)
(** * What the audit journal is told

    [application/ports/logger/audit.py] (a method per event),
    [infrastructure/logging/handlers/audit/standard.py], [structlog.py] and
    [null_audit.py], the masking of [infrastructure/logging/utils.py] and the
    line of [formatters/json_formatter.py].

    A dict is the list of its assignments, the last one of a key counting
    ([Json.json_get]), so [{**a, **b}] is [a ++ b].  A logger is what it makes
    of a message and its fields. *)

From S2P Require Import Prelude PyStr Utf8 Json UrlParse Exceptions ValueObjects Entities Database SecurityEvents.

(** ** Masking *)

Section masking.
Context `{CaseFolding} `{Nfkc}.

(** [urlsplit]: no parameters are split off. *)
Definition urlsplit (url : pystr) : option ParseResult :=
  let '(scheme, url) := split_scheme (clean_url url) in
  let '(netloc, url) := split_netloc url in
  let '(url, _, fragment) := partition_at HASH url in
  let '(url, _, query) := partition_at QUESTION url in
  if brackets_ok netloc && checknetloc netloc then Some (MkParseResult scheme netloc url [] query fragment) else None.

Definition set_netloc n (p : ParseResult) : ParseResult :=
  MkParseResult (scheme p) n (path p) (params p) (query p) (fragment p).

(** [s.rsplit("@", 1)[1]]. *)
Definition after_last_at (s : pystr) : pystr := (rpartition_at AT_SIGN s).2.

Definition without_userinfo (url : pystr) : pystr :=
  match urlsplit url with
  | None => url
  | Some parts =>
      if has_char AT_SIGN (netloc parts)
      then geturl (set_netloc (lit "***@" ++ after_last_at (netloc parts)) parts) else url
  end.

(** The characters of a scheme after its first, and those of an authority. *)
Definition scheme_tail_char (c : Z) : bool := is_alnum c || (c =? 43) || (c =? DOT) || (c =? HYPHEN).
Definition authority_char (c : Z) : bool := negb (is_delim c) && negb (is_space c).

(** A match of [_NESTED_USERINFO] at the start of a text: what it becomes,
    and how many characters it takes. *)
Definition nested_userinfo (s : pystr) : option (pystr * nat) :=
  match s with
  | c :: _ =>
      if is_alpha c then
        let '(name, rest) := cut_at (λ c, negb (scheme_tail_char c)) s in
        if startswith (lit "://") rest then
          let '(authority, _) := cut_at (λ c, negb (authority_char c)) (drop 3 rest) in
          let '(userinfo, found, _) := rpartition_at AT_SIGN authority in
          if found && bool_decide (userinfo ≠ [])
          then Some (name ++ lit "://***@", length name + 3 + length userinfo + 1)%nat else None
        else None
      else None
  | [] => None
  end.

(** [re.sub] from the left; [skip] characters belong to the last match. *)
Fixpoint sub_nested (skip : nat) (s : pystr) : pystr :=
  match s with
  | [] => []
  | c :: s' =>
      match skip with
      | S k => sub_nested k s'
      | O => match nested_userinfo s with
             | Some (masked, n) => masked ++ sub_nested (n - 1) s'
             | None => c :: sub_nested 0 s'
             end
      end
  end.
Definition without_nested_userinfo (url : pystr) : pystr := sub_nested 0 url.

Definition mask_url (url : pystr) : pystr :=
  let url := without_nested_userinfo (without_userinfo url) in
  if 100 <? len url then take 50 url ++ lit "..." ++ drop (length url - 20) url else url.

Definition mask_email (email : pystr) : pystr :=
  let '(local, found, domain) := rpartition_at AT_SIGN email in
  if negb found then lit "***"
  else match local with [] => lit "***@" ++ domain | c :: _ => c :: lit "***@" ++ domain end.

(** ** The two journals' handlers *)

Record AuditLine := MkAuditLine { al_message : pystr; al_fields : fields_t }.

(** The address among the fields, masked. *)
Definition mask_the_email (data : fields_t) : fields_t :=
  match json_get (lit "email") data with
  | Some (JString s) => data ++ [(lit "email", JString (mask_email s))]
  | _ => data
  end.

Class AuditWriter := {
  log_url : AuditEvent → pystr → pystr → pystr → fields_t → AuditLine;
  log_security_event : AuditEvent → fields_t → AuditLine;
}.

Definition url_data (e : AuditEvent) (short_code original_url : pystr) : fields_t :=
  [(lit "event_type", JString (event_value e)); (lit "short_code", JString short_code);
   (lit "original_url", JString (mask_url original_url))].
Definition SECURITY : pystr := lit "Security event: ".

(** [StandardAuditLogger]: the bound fields are merged by [_log]. *)
Definition standard_log (bound : fields_t) (event : pystr) (kwargs : fields_t) : AuditLine :=
  MkAuditLine event (bound ++ kwargs).
Definition standard_build_data (e : AuditEvent) (short_code original_url : pystr) (kwargs : fields_t) : fields_t :=
  url_data e short_code original_url ++ kwargs.
Definition standard_security_event (bound : fields_t) (e : AuditEvent) (fields : fields_t) : AuditLine :=
  standard_log bound (SECURITY ++ event_value e)
    (mask_the_email (bound ++ fields) ++ [(lit "event_type", JString (event_value e))]).
Definition StandardAuditLogger (bound : fields_t) : AuditWriter := {|
  log_url e message code url kwargs := standard_log bound message (standard_build_data e code url kwargs);
  log_security_event := standard_security_event bound;
|}.

(** [StructlogAuditLogger]: the logger is bound, and so is the data. *)
Definition structlog_info (bound : fields_t) (event : pystr) (data : fields_t) : AuditLine :=
  MkAuditLine event (bound ++ data).
Definition structlog_build_data (bound : fields_t) (e : AuditEvent) (short_code original_url : pystr)
    (kwargs : fields_t) : fields_t :=
  bound ++ url_data e short_code original_url ++ kwargs.
Definition structlog_security_event (bound : fields_t) (e : AuditEvent) (fields : fields_t) : AuditLine :=
  structlog_info bound (SECURITY ++ event_value e)
    (mask_the_email (bound ++ fields) ++ [(lit "event_type", JString (event_value e))]).
Definition StructlogAuditLogger (bound : fields_t) : AuditWriter := {|
  log_url e message code url kwargs := structlog_info bound message (structlog_build_data bound e code url kwargs);
  log_security_event := structlog_security_event bound;
|}.
End masking.

(** ** A method per event *)

Section events.
Context `{AuditWriter}.

Definition jtext (k : string) (s : pystr) : pystr * json := (lit k, JString s).
Definition jcount (k : string) (n : nat) : pystr * json := (lit k, JNumber (str_of_Z (Z.of_nat n))).
Definition jtexts (k : string) (l : list pystr) : pystr * json := (lit k, JArray (JString <$> l)).
Definition jmaybe (k : string) (s : option pystr) : pystr * json := (lit k, from_option JString JNull s).

Definition log_url_created code url fields := log_url URL_CREATED (lit "Url created successfully") code url fields.
Definition log_url_accessed code url fields := log_url URL_ACCESSED (lit "Url accessed successfully") code url fields.
Definition log_url_deleted code url fields := log_url URL_DELETED (lit "Url deleted successfully") code url fields.

Definition log_login_succeeded target email fields :=
  log_security_event LOGIN_SUCCEEDED ([jtext "target_user_id" target; jtext "email" email] ++ fields).
Definition log_expired_links_swept deleted fields :=
  log_security_event EXPIRED_LINKS_SWEPT ([jcount "links_deleted" deleted] ++ fields).
Definition log_registered target email fields :=
  log_security_event REGISTERED ([jtext "target_user_id" target; jtext "email" email] ++ fields).
Definition log_session_ended target fields :=
  log_security_event SESSION_ENDED ([jmaybe "target_user_id" target] ++ fields).
Definition log_refresh_token_replayed target fields :=
  log_security_event REFRESH_TOKEN_REPLAYED ([jtext "target_user_id" target] ++ fields).
Definition log_login_failed email reason fields :=
  log_security_event LOGIN_FAILED ([jtext "email" email; jtext "reason" reason] ++ fields).
Definition log_user_created target email roles fields :=
  log_security_event USER_CREATED ([jtext "target_user_id" target; jtext "email" email; jtexts "roles" roles] ++ fields).
Definition log_user_deleted target deleted fields :=
  log_security_event USER_DELETED ([jtext "target_user_id" target; jcount "links_deleted" deleted] ++ fields).
Definition log_user_activated target fields := log_security_event USER_ACTIVATED ([jtext "target_user_id" target] ++ fields).
Definition log_user_email_confirmed target (already : bool) fields :=
  log_security_event USER_EMAIL_CONFIRMED
    ([jtext "target_user_id" target; (lit "already_confirmed", JBool already)] ++ fields).
Definition log_email_confirmed target fields := log_security_event EMAIL_CONFIRMED ([jtext "target_user_id" target] ++ fields).
Definition log_user_deactivated target revoked fields :=
  log_security_event USER_DEACTIVATED ([jtext "target_user_id" target; jcount "sessions_revoked" revoked] ++ fields).
Definition log_password_changed target revoked fields :=
  log_security_event PASSWORD_CHANGED ([jtext "target_user_id" target; jcount "sessions_revoked" revoked] ++ fields).
Definition log_password_reset target revoked fields :=
  log_security_event PASSWORD_RESET ([jtext "target_user_id" target; jcount "sessions_revoked" revoked] ++ fields).
Definition log_role_created role permissions fields :=
  log_security_event ROLE_CREATED ([jtext "role" role; jtexts "permissions" permissions] ++ fields).
Definition log_role_deleted role holders fields :=
  log_security_event ROLE_DELETED ([jtext "role" role; jcount "holders" holders] ++ fields).
Definition log_role_permissions_changed role before after holders fields :=
  log_security_event ROLE_PERMISSIONS_CHANGED
    ([jtext "role" role; jtexts "permissions_before" before; jtexts "permissions_after" after;
      jcount "holders" holders] ++ fields).
Definition log_roles_changed target before after fields :=
  log_security_event ROLES_CHANGED
    ([jtext "target_user_id" target; jtexts "roles_before" before; jtexts "roles_after" after] ++ fields).
Definition log_unverified_accounts_swept accounts tokens fields :=
  log_security_event UNVERIFIED_ACCOUNTS_SWEPT
    ([jcount "accounts_deleted" accounts; jcount "tokens_deleted" tokens] ++ fields).
Definition log_security_history_swept folded deleted fields :=
  log_security_event SECURITY_HISTORY_SWEPT ([jcount "days_folded" folded; jcount "events_deleted" deleted] ++ fields).
Definition log_addresses_normalised changed fields :=
  log_security_event ADDRESSES_NORMALISED ([jcount "addresses_changed" changed] ++ fields).
Definition log_user_password_reset target revoked fields :=
  log_security_event USER_PASSWORD_RESET ([jtext "target_user_id" target; jcount "sessions_revoked" revoked] ++ fields).
Definition log_audit_viewed journal reason (filters : list (pystr * pystr)) fields :=
  log_security_event AUDIT_VIEWED
    ([jtext "journal" journal; jtext "reason" reason;
      (lit "filters", JObject ((λ f, (f.1, JString f.2)) <$> filters))] ++ fields).
(** Only what was named. *)
Definition log_permission_denied (required exceeded : list pystr) fields :=
  log_security_event PERMISSION_DENIED
    ((match required with [] => [] | _ => [jtexts "required" required] end)
     ++ (match exceeded with [] => [] | _ => [jtexts "exceeded" exceeded] end) ++ fields).

(** What each event of the use cases writes. *)
Definition written (e : audit_event) : AuditLine :=
  match e with
  | UrlCreated code url batch => log_url_created code url (from_option (λ b, [jtext "batch_id" b]) [] batch)
  | UrlAccessed code url => log_url_accessed code url []
  | UrlDeleted code url => log_url_deleted code url []
  | ExpiredLinksSwept n => log_expired_links_swept n []
  | LoginFailed email reason target => log_login_failed email reason (from_option (λ t, [jtext "target_user_id" t]) [] target)
  | LoginSucceeded target email => log_login_succeeded target email []
  | RefreshTokenReplayed target session => log_refresh_token_replayed target [jtext "session_id" session]
  | SessionEnded target session => log_session_ended target [jmaybe "session_id" session]
  | Registered target email => log_registered target email []
  | EmailConfirmed target => log_email_confirmed target []
  | PasswordWasReset target n => log_password_reset target n []
  | PasswordChanged target n => log_password_changed target n []
  | UserPasswordReset target n => log_user_password_reset target n []
  | AddressesNormalised n => log_addresses_normalised n []
  | UnverifiedAccountsSwept a t => log_unverified_accounts_swept a t []
  | UserActivated target => log_user_activated target []
  | UserEmailConfirmed target already => log_user_email_confirmed target already []
  | UserCreated target email roles => log_user_created target email roles []
  | UserDeactivated target n => log_user_deactivated target n []
  | UserDeleted target n => log_user_deleted target n []
  | RolesChanged target before after => log_roles_changed target before after []
  | RoleCreated role permissions => log_role_created role permissions []
  | RoleDeleted role holders => log_role_deleted role holders []
  | RolePermissionsChanged role before after holders => log_role_permissions_changed role before after holders []
  | AuditViewed journal reason filters => log_audit_viewed journal reason filters []
  | PermissionDenied required exceeded => log_permission_denied required exceeded []
  end.
End events.

(** ** The line *)

(** The attributes of a [LogRecord], which no field may overwrite. *)
Definition STANDARD_RECORD_ATTRS : list pystr :=
  lit <$> ["name"; "msg"; "args"; "levelname"; "levelno"; "pathname"; "filename"; "module"; "exc_info"; "exc_text";
           "stack_info"; "lineno"; "funcName"; "created"; "msecs"; "relativeCreated"; "thread"; "threadName";
           "processName"; "process"; "taskName"; "message"; "asctime"]%string.

Section line.
(** [strftime(UTC_SECONDS)] of a time. *)
Context (utc_seconds : Z → pystr).

Definition entry_head (created : Z) (levelname logger message : pystr) : fields_t :=
  [(lit "timestamp", JString (utc_seconds created)); (lit "level", JString levelname);
   (lit "logger", JString logger); (lit "event", JString message)].
Definition HEAD_KEYS : list pystr := lit <$> ["timestamp"; "level"; "logger"; "event"]%string.

(** [JSONFormatter.format] of a record without an exception: the fields that
    are none of the record's own; [module_name] is the logger's. *)
Definition format_record (created : Z) (level name : pystr) (l : AuditLine) : fields_t :=
  let logger := match json_get (lit "module_name") (al_fields l) with
                | Some (JString (c :: s)) => c :: s
                | _ => name
                end in
  entry_head created level logger (al_message l) ++
  filter (λ f, f.1 ∉ STANDARD_RECORD_ATTRS ∧ f.1 ∉ HEAD_KEYS ∧ f.1 ≠ lit "module_name") (al_fields l).
End line.
