(* ===== verification/JournalViews.v ===== *)
(** * The views of [/api/v1/journals]

    [web/controllers/journal_api_controller.py] with [web/schemas/journal.py]
    and [web/schemas/security.py].  The decorator on the views only marks
    them for the published document. *)

From S2P Require Import Prelude PyStr Json Exceptions ValueObjects Entities Policies Cache MemoryCache Database LinkRepo RedisCache UserRepo Visits UrlParse Links Stats Demo RateLimit Auth Admin AdminTheorems AdminClaims Journal JournalTheorems SecurityEvents WebRequest WebAuth WebErrors AuthViews LinkViews AdminViews WebTheorems AdminViewClaims.

(** ** The query *)

Section query.
Context `{PydanticText} `{PydanticInt} `{PydanticBool} `{DecimalDigits}.
Abbreviation fault := (pystr * pystr * pystr)%type.









End query.

(** ** Answers *)

Section answers.
Context `{PydanticTime}.

Definition counts_json (c : SecurityCounts) : json :=
  JObject [(lit "period", JString (sn_period c)); (lit "since", JString (json_datetime (sn_since c)));
           (lit "until", JString (json_datetime (sn_until c))); (lit "buckets", json_number (sn_buckets c));
           (lit "totals", JObject ((λ t, (t.1, json_number t.2)) <$> sn_totals c));
           (lit "series", JObject ((λ t, (t.1, JArray (json_number <$> t.2))) <$> sn_series c))].
End answers.

(** ** The views *)

Section views.
Context {C : Type} `{PydanticText} `{PydanticInt} `{PydanticBool} `{DecimalDigits} `{PydanticTime} `{CaseFolding} `{UuidSupply}.
Context (dir : option (list file)) (file_names : Journal → pystr) (events : EventTables) (trusted_proxies : list pystr).
Abbreviation W := (M (Web C) failure).

Definition read_counters_view (r : Request) : W Response :=
  ctx ← context_of trusted_proxies r;
  let period := default (lit "7d") (lookup_field (lit "period") (rq_args r)) in
  counts ← in_world (get_security_counts events ctx period);
  mret (plain 200 (JsonBody (counts_json counts))).


End views.

(** * Who is shown a journal, and what is left of it *)

Section claims.
Context {C : Type} `{PydanticText} `{PydanticInt} `{PydanticBool} `{DecimalDigits} `{PydanticTime} `{CaseFolding} `{UuidSupply}.
Context (dir : option (list file)) (file_names : Journal → pystr) (events : EventTables) (trusted_proxies : list pystr).



End claims.

Module JournalViewDemo.
Import Demo AdminDemo JournalDemo AdminViewDemo.
#[local] Existing Instances Demo.folding Demo.uuids.
#[local] Instance any_text : PydanticText := λ _, None.
#[local] Instance true_only : PydanticBool := λ _, inl true.
#[local] Instance no_digits : DecimalDigits := λ _, None.
#[local] Instance ints : PydanticInt := λ j,
  match j with JString s => from_option inl (inr (lit "Input should be a valid integer", lit "int_parsing")) (py_int s)
  | _ => inr (lit "Input should be a valid integer", lit "int_parsing") end.


End JournalViewDemo.
