(* ===== verification/Mail.v ===== *)
(** * Outgoing mail

    [infrastructure/mail] and the three use cases that send a message, with
    the tasks that retry them.  A session with the submission server is a
    trace of what was tried and whether it succeeded; what the server does
    with each command, given all that went before, is outside the model
    ([server]), and so are the templates ([Templates], which is Jinja's
    rendering in the language of a tag). *)

From S2P Require Import Prelude PyStr Utf8 Json Exceptions UrlParse.

(** ** Links *)

(** The characters [urllib.parse.quote] leaves alone with [safe='']. *)
Definition is_unreserved (c : Z) : bool :=
  is_alnum c || (c =? 95) || (c =? 46) || (c =? 45) || (c =? 126).
Definition hex_digit (n : Z) : Z := if n <? 10 then 48 + n else 55 + n.
Definition quote_byte (b : Z) : pystr :=
  if is_unreserved b then [b] else [37; hex_digit (b / 16); hex_digit (b mod 16)].
Definition quote (s : pystr) : result exn pystr :=
  match utf8_encode s with
  | Some bytes => Ok (concat (quote_byte <$> bytes))
  | None => Err (PyError UnicodeEncodeError)
  end.

Definition VERIFY_PATH : pystr := lit "/verify".
Definition RESET_PATH : pystr := lit "/reset-password".
Definition SIGN_IN_PATH : pystr := lit "/login".

Definition without_slashes (base_url : pystr) : pystr := rstrip_by (Z.eqb SLASH) base_url.
Definition token_url (base_url path token : pystr) : result exn pystr :=
  q ← quote token; mret (without_slashes base_url ++ path ++ lit "?token=" ++ q).

(** ** The page behind a link *)

(** [urllib.parse.unquote] of a text of ASCII characters. *)
Fixpoint unquote_to_bytes (s : pystr) : list Z :=
  match s with
  | [] => []
  | c :: s' =>
      if c =? 37 then
        match s' with
        | a :: b :: rest =>
            match hex_value a, hex_value b with
            | Some x, Some y => (16 * x + y) :: unquote_to_bytes rest
            | _, _ => c :: unquote_to_bytes s'
            end
        | _ => c :: unquote_to_bytes s'
        end
      else c :: unquote_to_bytes s'
  end.
Definition unquote (s : pystr) : pystr := decode (unquote_to_bytes s).

(** The arguments of a query ([parse_qsl], a plus being a space). *)
Definition query_args (query : pystr) : list (pystr * pystr) :=
  (λ part, let '(name, _, value) := partition_at 61 part in
     let plain := fmap (λ c, if c =? 43 then 32 else c) in (unquote (plain name), unquote (plain value)))
  <$> filter (λ part, part ≠ []) (split_on 38 query).

(** [verify_page] and [reset_password_page]: a template, and the token it is
    given. *)
Definition first_arg (name : pystr) (args : list (pystr * pystr)) : option pystr :=
  snd <$> first (filter (λ a, a.1 = name) args).
Definition verify_page (args : list (pystr * pystr)) : pystr * option pystr :=
  (lit "public/verify.html", first_arg (lit "token") args).
Definition reset_password_page (args : list (pystr * pystr)) : pystr * option pystr :=
  (lit "public/reset_password.html", first_arg (lit "token") args).

(** ** A message *)

Record Message := MkMessage { mm_from : pystr; mm_to : pystr; mm_subject : pystr; mm_body : pystr }.

(** [len(value.splitlines()) > 1]. *)
Definition is_line_break (c : Z) : bool :=
  ((10 <=? c) && (c <=? 13)) || ((28 <=? c) && (c <=? 30)) || (c =? 133) || (c =? 8232) || (c =? 8233).
Fixpoint has_lines (s : pystr) : bool :=
  match s with
  | [] => false
  | c :: s' =>
      if is_line_break c then
        match s' with
        | [] => false
        | d :: s'' => if (c =? 13) && (d =? 10) then negb (bool_decide (s'' = [])) else true
        end
      else has_lines s'
  end.

(** Setting the headers of an [EmailMessage]. *)
Definition new_message (sender to subject body : pystr) : result exn Message :=
  if has_lines sender || has_lines to || has_lines subject then Err (PyError ValueError)
  else Ok (MkMessage sender to subject body).

(** ** The session with the server *)

(** What is tried: opening a connection, encrypted from the start or not,
    and the commands. *)
Inductive Command := Connect (ssl : bool) | StartTls | Ehlo | Login | SendMessage (m : Message) | Quit | Close.

(** What can be raised on the way.  [BadReply] is a reply with another code
    than the one hoped for; [Unforeseen] is no error of the network. *)
Inductive mail_exn := Disconnected | BadReply | SmtpError | OsError | Unforeseen (e : exn) | MailDeliveryError.

Abbreviation Trace := (list (Command * bool)).

Record SMTPMailer := MkSMTPMailer { sm_username : pystr; sm_sender : pystr; sm_use_tls : bool; sm_use_ssl : bool }.

(** [isinstance(smtp.sock, ssl.SSLSocket)]. *)
Definition encrypts (e : Command * bool) : bool :=
  match e with (Connect true, true) | (StartTls, true) => true | _ => false end.
Definition encrypted (t : Trace) : bool := existsb encrypts t.

Section session.
Context (cfg : SMTPMailer) (server : Trace → Command → option mail_exn).
Abbreviation S_ := (M Trace mail_exn).

Definition attempt (c : Command) : S_ unit := λ t,
  match server t c with
  | None => (Ok tt, t ++ [(c, true)])
  | Some e => (Err e, t ++ [(c, false)])
  end.
(** [close] cannot fail. *)
Definition close : S_ unit := modify (λ t, t ++ [(Close, true)]).

(** [except (OSError, smtplib.SMTPException)]. *)
Definition is_network (e : mail_exn) : bool :=
  match e with Disconnected | BadReply | SmtpError | OsError => true | Unforeseen _ | MailDeliveryError => false end.

(** [smtp.quit()] does not look at the code of the reply. *)
Definition quit_ : S_ unit :=
  try_except (attempt Quit) (λ e, match e with BadReply => mret tt | _ => raise e end);; close.
Definition discard : S_ unit :=
  try_except quit_ (λ e, if is_network e then close else raise e).

Definition connect : S_ unit :=
  if sm_use_ssl cfg then attempt (Connect true)
  else
    attempt (Connect false);;
    try_except (if sm_use_tls cfg then attempt StartTls;; attempt Ehlo else mret tt) (λ e, discard;; raise e).

Definition require_encrypted : S_ unit :=
  t ← gets id; if encrypted t then mret tt else raise MailDeliveryError.

(** [SMTP.__exit__]: a reply to [QUIT] other than 221 is raised, a server
    that is gone is not, and the socket is closed. *)
Definition exit_ : S_ unit := λ t,
  let '(r, t) := try_except (attempt Quit) (λ e, match e with Disconnected => mret tt | _ => raise e end) t in
  (r, t ++ [(Close, true)]).
(** [with ... as smtp: body]: what leaving raises replaces what the body
    raised. *)
Definition with_session (body : S_ unit) : S_ unit := λ t,
  let '(r, t) := body t in
  match exit_ t with
  | (Err e, t) => (Err e, t)
  | (Ok _, t) => (r, t)
  end.

Definition converse (m : Message) : S_ unit :=
  (if bool_decide (sm_username cfg = []) then mret tt else require_encrypted;; attempt Login);;
  attempt (SendMessage m).

(** [SMTPMailer.send]. *)
Definition smtp_send (to subject body : pystr) : S_ unit :=
  match new_message (sm_sender cfg) to subject body with
  | Err e => raise (Unforeseen e)
  | Ok m =>
      try_except (connect;; with_session (converse m))
        (λ e, if is_network e then raise MailDeliveryError else raise e)
  end.

(** [NullMailer.send]. *)
Definition null_send (to subject body : pystr) : S_ unit := mret tt.
End session.

(** ** What is sent *)

(** [JinjaMailTemplates]: an environment per language tag, each with its
    catalogue. *)
Class Templates := render : pystr → pystr → list (pystr * pystr) → pystr.

Section messages.
Context `{CaseFolding} `{Templates} (default_language : pystr).

Definition environment_tag (language : option pystr) : pystr :=
  lower (strip (match language with Some (c :: l) => c :: l | _ => default_language end)).
Definition render_mail (name : string) (language : option pystr) (vars : list (pystr * pystr)) : pystr :=
  render (lit name) (environment_tag language) vars.

Definition verification_email (confirm_url : pystr) (ttl_hours : Z) (language : option pystr) : pystr * pystr :=
  (strip (render_mail "verification_subject.txt" language []),
   render_mail "verification_body.txt" language [(lit "confirm_url", confirm_url); (lit "ttl_hours", str_of_Z ttl_hours)]).
Definition password_reset_email (reset_url : pystr) (ttl_minutes : Z) (language : option pystr) : pystr * pystr :=
  (strip (render_mail "password_reset_subject.txt" language []),
   render_mail "password_reset_body.txt" language [(lit "reset_url", reset_url); (lit "ttl_minutes", str_of_Z ttl_minutes)]).
Definition account_exists_email (sign_in_url : pystr) (language : option pystr) : pystr * pystr :=
  (strip (render_mail "account_exists_subject.txt" language []),
   render_mail "account_exists_body.txt" language [(lit "sign_in_url", sign_in_url)]).

(** The use cases, over a mailer that is handed the three texts. *)
Context {St : Type} (mailer_send : pystr → pystr → pystr → M St mail_exn unit) (base_url : pystr).

Definition send_verification_email (ttl_hours : Z) (language : option pystr) (email token : pystr) : M St mail_exn unit :=
  match token_url base_url VERIFY_PATH token with
  | Err e => raise (Unforeseen e)
  | Ok url => let '(subject, body) := verification_email url ttl_hours language in mailer_send email subject body
  end.
Definition send_password_reset_email (ttl_minutes : Z) (language : option pystr) (email token : pystr) : M St mail_exn unit :=
  match token_url base_url RESET_PATH token with
  | Err e => raise (Unforeseen e)
  | Ok url => let '(subject, body) := password_reset_email url ttl_minutes language in mailer_send email subject body
  end.
Definition send_account_exists_email (language : option pystr) (email : pystr) : M St mail_exn unit :=
  let '(subject, body) := account_exists_email (without_slashes base_url ++ SIGN_IN_PATH) language in
  mailer_send email subject body.
End messages.

(** ** The tasks *)

(** [celery_app.task(bind=True, max_retries=3)] around a call that may raise:
    [self.retry] schedules it again a minute later, and raises what it was
    given once the retries are spent.  The result, the state and when it was
    settled, with the runs that were made. *)
Definition MAX_RETRIES : nat := 3.
Definition COUNTDOWN : Z := 60.
Fixpoint run_task {St A} (retries : nat) (now : Z) (call : Z → M St mail_exn A) (s : St) : result mail_exn A * St * Z * nat :=
  match call now s with
  | (Ok a, s) => (Ok a, s, now, 1%nat)
  | (Err e, s) =>
      match retries with
      | O => (Err e, s, now, 1%nat)
      | S retries => let '(r, s, done, runs) := run_task retries (now + COUNTDOWN) call s in (r, s, done, S runs)
      end
  end.
Definition mail_task {St} : Z → (Z → M St mail_exn unit) → St → result mail_exn unit * St * Z * nat :=
  run_task MAX_RETRIES.

(** * What is claimed of outgoing mail *)

(** ** Links *)

Definition is_byte (b : Z) : Prop := 0 <= b < 256.

Lemma utf8_char_bytes c b : 0 <= c <= 1114111 → utf8_char c = Some b → Forall is_byte b.
Proof.
  intros Hc. rewrite /utf8_char /is_byte (_ : 63 = Z.ones 6) // !Z.land_ones // !Z.shiftr_div_pow2 //.
  pose proof (Z.mod_pos_bound c (2 ^ 6) ltac:(done)). pose proof (Z.mod_pos_bound (c / 2 ^ 6) (2 ^ 6) ltac:(done)).
  pose proof (Z.mod_pos_bound (c / 2 ^ 12) (2 ^ 6) ltac:(done)).
  pose proof (Z.div_pos c (2 ^ 6)). pose proof (Z.div_pos c (2 ^ 12)). pose proof (Z.div_pos c (2 ^ 18)).
  change (2 ^ 6) with 64 in *. change (2 ^ 12) with 4096 in *. change (2 ^ 18) with 262144 in *.
  destruct (c <? 128) eqn:?; [intros [= <-]; constructor; [lia|done]|].
  destruct (c <? 2048) eqn:?.
  { pose proof (Z.div_lt_upper_bound c 64 32). intros [= <-]. repeat constructor; lia. }
  destruct (_ && _); [done|]. destruct (c <? 65536) eqn:?.
  - pose proof (Z.div_lt_upper_bound c 4096 16). intros [= <-]. repeat constructor; lia.
  - pose proof (Z.div_lt_upper_bound c 262144 5). intros [= <-]. repeat constructor; lia.
Qed.

Lemma utf8_encode_bytes s b : Forall (λ c, 0 <= c <= 1114111) s → utf8_encode s = Some b → Forall is_byte b.
Proof.
  intros Hs. revert b. induction Hs as [|c s Hc Hs IH]; intros b; simpl; [by intros [= <-]|].
  destruct (utf8_char c) as [w|] eqn:Hw; [|done]. destruct (utf8_encode s) as [r|]; [|done]. simpl. intros [= <-].
  apply Forall_app. split; [by eapply utf8_char_bytes|by apply IH].
Qed.

Lemma hex_value_upper n : 0 <= n < 16 → hex_value (hex_digit n) = Some n ∧ hex_digit n ≠ 37.
Proof.
  intros Hn. rewrite /hex_value /hex_digit /is_digit. destruct (n <? 10) eqn:E.
  - rewrite (_ : (48 <=? 48 + n) && (48 + n <=? 57) = true); [|lia]. split; [f_equal; lia|lia].
  - rewrite (_ : (48 <=? 55 + n) && (55 + n <=? 57) = false); [|lia].
    rewrite (_ : (97 <=? 55 + n) && (55 + n <=? 102) = false); [|lia].
    rewrite (_ : (65 <=? 55 + n) && (55 + n <=? 70) = true); [|lia]. split; [f_equal; lia|lia].
Qed.

Lemma unquote_quote_byte b rest : is_byte b →
  unquote_to_bytes (quote_byte b ++ rest) = b :: unquote_to_bytes rest.
Proof.
  rewrite /is_byte /quote_byte. intros Hb. destruct (is_unreserved b) eqn:E.
  - simpl. destruct (b =? 37) eqn:E37; [|done]. apply Z.eqb_eq in E37. subst. done.
  - assert (0 <= b / 16 < 16) by (split; [apply Z.div_pos; lia|apply Z.div_lt_upper_bound; lia]).
    pose proof (Z.mod_pos_bound b 16 ltac:(done)). simpl.
    destruct (hex_value_upper (b / 16)) as [-> _]; [done|]. destruct (hex_value_upper (b mod 16)) as [-> _]; [done|].
    f_equal. pose proof (Z.div_mod b 16 ltac:(done)). lia.
Qed.

Lemma unquote_quote bytes : Forall is_byte bytes → unquote_to_bytes (concat (quote_byte <$> bytes)) = bytes.
Proof. induction 1 as [|b bytes Hb _ IH]; simpl; [done|]. rewrite unquote_quote_byte // IH //. Qed.

(** What a quoted text is made of: no separator of a query is among it. *)
Definition url_safe (c : Z) : bool := is_unreserved c || (c =? 37).

Lemma quote_safe bytes : Forall is_byte bytes → Forall (λ c, url_safe c = true) (concat (quote_byte <$> bytes)).
Proof.
  induction 1 as [|b bytes Hb _ IH]; simpl; [constructor|]. apply Forall_app. split; [|done].
  rewrite /quote_byte. destruct (is_unreserved b) eqn:E; [constructor; [by rewrite /url_safe E|done]|].
  rewrite /is_byte in Hb. assert (0 <= b / 16 < 16) by (split; [apply Z.div_pos; lia|apply Z.div_lt_upper_bound; lia]).
  pose proof (Z.mod_pos_bound b 16 ltac:(done)).
  assert (∀ n, 0 <= n < 16 → url_safe (hex_digit n) = true) as Hd.
  { intros n Hn. rewrite /url_safe /is_unreserved /is_alnum /is_alpha /is_upper /is_digit /hex_digit. case_match; lia. }
  repeat constructor; by apply Hd.
Qed.

Lemma url_safe_not c : url_safe c = true → c ≠ 38 ∧ c ≠ 61 ∧ c ≠ 43 ∧ c ≠ 35 ∧ c ≠ 63.
Proof. intros Hc. split_and!; intros ->; by vm_compute in Hc. Qed.

Lemma fmap_plain q : Forall (λ c, url_safe c = true) q → (λ c, if c =? 43 then 32 else c) <$> q = q.
Proof.
  induction 1 as [|c q Hc _ IH]; [done|]. rewrite fmap_cons IH. apply url_safe_not in Hc as (_ & _ & Hp & _).
  rewrite (_ : c =? 43 = false); [done|lia].
Qed.

(** C33: The link in a confirmation or reset message, opened as it was mailed,
    shows the page the very token the message was sent for, whatever
    characters the token has: the query of the link has one argument and no
    fragment, and the page is given the token. *)
Theorem a_mailed_link_carries_its_token base path token url :
  Forall (λ c, 0 <= c <= 1114111) token → token_url base path token = Ok url →
  ∃ query, url = without_slashes base ++ path ++ [63] ++ query ∧ 35 ∉ query ∧
    query_args query = [(lit "token", token)] ∧
    (verify_page (query_args query)).2 = Some token ∧ (reset_password_page (query_args query)).2 = Some token.
Proof.
  intros Hv. rewrite /token_url /quote. destruct (utf8_encode token) as [bytes|] eqn:He; [|done].
  intros [= <-]. pose proof (utf8_encode_bytes _ _ Hv He) as Hb. pose proof (quote_safe _ Hb) as Hs.
  pose proof (unquote_quote _ Hb) as Hu. remember (concat (quote_byte <$> bytes)) as q eqn:Hq. clear Hq.
  assert (query_args (lit "token=" ++ q) = [(lit "token", token)]) as Ha.
  { rewrite /query_args split_on_no.
    - rewrite filter_cons_True; [|done]. rewrite filter_nil fmap_cons fmap_nil.
      rewrite (_ : partition_at 61 (lit "token=" ++ q) = (lit "token", true, q)) //. cbv zeta.
      rewrite (fmap_plain q) // /unquote Hu (decode_encode _ _ Hv He) //.
    - rewrite elem_of_app. intros [Hin|Hin]; [by vm_compute in Hin; set_solver|].
      rewrite list.Forall_forall in Hs. apply Hs in Hin. by vm_compute in Hin. }
  exists (lit "token=" ++ q). split; [done|]. split.
  - rewrite elem_of_app. intros [Hin|Hin]; [by vm_compute in Hin; set_solver|].
    rewrite list.Forall_forall in Hs. apply Hs in Hin. by vm_compute in Hin.
  - split; [exact Ha|]. rewrite Ha. done.
Qed.

(** ** The session *)

(** Every command of a kind comes after encryption was in place. *)
Definition guarded (p : Command → bool) (t : Trace) : Prop :=
  ∀ i c b, t !! i = Some (c, b) → p c = true → encrypted (take i t) = true.
(** Whether a connection is open at the end of a trace. *)
Definition track (o : bool) (e : Command * bool) : bool :=
  match e with (Connect _, true) => true | (Close, true) => false | _ => o end.
Definition is_open (t : Trace) : bool := foldl track false t.
(** The messages the server took. *)
Definition taken (t : Trace) : list Message :=
  omap (λ e, match e with (SendMessage m, true) => Some m | _ => None end) t.

Lemma guarded_snoc p t c b : guarded p t → (p c = true → encrypted t = true) → guarded p (t ++ [(c, b)]).
Proof.
  intros Hg Hc i c' b' Hi Hp. destruct (decide (i < length t)%nat) as [Hlt|Hge].
  - rewrite lookup_app_l // in Hi. rewrite take_app_le; [|lia]. by eapply Hg.
  - assert (i = length t) as ->.
    { apply lookup_lt_Some in Hi. rewrite length_app /= in Hi. lia. }
    rewrite list_lookup_middle // in Hi. simplify_eq. rewrite take_app_length. by apply Hc.
Qed.

Lemma guarded_nil p : guarded p [].
Proof. by intros i c b Hi. Qed.

Lemma encrypted_snoc t e : encrypted (t ++ [e]) = encrypted t || encrypts e.
Proof. by rewrite /encrypted existsb_app /= orb_false_r. Qed.
Lemma is_open_snoc t e : is_open (t ++ [e]) = track (is_open t) e.
Proof. by rewrite /is_open foldl_app. Qed.
Lemma taken_snoc t e : taken (t ++ [e]) = taken t ++ taken [e].
Proof. apply omap_app. Qed.

Section session.
Context (cfg : SMTPMailer) (server : Trace → Command → option mail_exn).
Abbreviation attempt := (attempt server).

(** The password, and with TLS or SSL configured the message. *)
Definition secret (c : Command) : bool :=
  match c with Login => true | SendMessage _ => sm_use_tls cfg || sm_use_ssl cfg | _ => false end.

Lemma attempt_wp c Q t :
  (∀ b r, (b = true ↔ r = Ok tt) → (∀ e, r = Err e → server t c = Some e) → Q r (t ++ [(c, b)])) →
  wp (attempt c) Q t.
Proof.
  intros HQ. rewrite /wp /Mail.attempt. destruct (server t c) as [e|]; simpl; apply HQ; try done.
  by intros e' [= <-].
Qed.

(** The server says goodbye or breaks off; it raises nothing else. *)
Definition ends_well : Prop := ∀ t e, server t Quit = Some e → is_network e = true.

(** What a step that opens and secures a connection leaves behind. *)
Definition ready (r : result mail_exn unit) (t : Trace) : Prop :=
  guarded secret t ∧ taken t = [] ∧
  match r with
  | Ok _ => is_open t = true ∧ (sm_use_tls cfg || sm_use_ssl cfg = true → encrypted t = true)
  | Err _ => ends_well → is_open t = false
  end.

Lemma discard_wp t Q :
  guarded secret t → taken t = [] →
  (∀ r t', guarded secret t' → taken t' = [] → (ends_well → is_open t' = false) → Q r t') →
  wp (discard server) Q t.
Proof.
  intros Hg Ht HQ. rewrite /discard /quit_ /close.
  assert (∀ b, guarded secret (t ++ [(Quit, b)])) as Hg' by (intros b; by apply guarded_snoc).
  assert (∀ b, taken (t ++ [(Quit, b)]) = []) as Ht' by (intros b; by rewrite taken_snoc Ht).
  assert (∀ r b, Q r ((t ++ [(Quit, b)]) ++ [(Close, true)])) as Hdone.
  { intros r b. apply HQ; [by apply guarded_snoc|by rewrite taken_snoc Ht'|by rewrite is_open_snoc]. }
  wp_steps. apply attempt_wp. intros b r Hb He. destruct r as [[]|e].
  - wp_steps. apply Hdone.
  - specialize (He e eq_refl). destruct e; wp_steps; simpl; wp_steps; try apply Hdone.
    all: apply HQ; [done|done|]. all: intros Hw; by apply Hw in He.
Qed.

Lemma connect_wp : wp (connect cfg server) ready [].
Proof.
  rewrite /connect. destruct (sm_use_ssl cfg) eqn:Hssl.
  - apply attempt_wp. intros b r Hb _. split; [by apply (guarded_snoc secret []); [apply guarded_nil|]|].
    split; [done|]. destruct r as [[]|e]; [|destruct b; [discriminate (proj1 Hb eq_refl)|done]].
    by rewrite (proj2 Hb eq_refl).
  - assert (∀ b, guarded secret [(Connect false, b)]) as Hg.
    { intros b. apply (guarded_snoc secret []); [apply guarded_nil|done]. }
    wp_steps. apply attempt_wp. intros b r Hb _. destruct r as [[]|e].
    2: { split; [apply Hg|]. split; [done|]. destruct b; [discriminate (proj1 Hb eq_refl)|done]. }
    rewrite (proj2 Hb eq_refl). simpl. wp_steps. destruct (sm_use_tls cfg) eqn:Htls.
    2: { wp_steps. split; [apply Hg|]. rewrite Htls Hssl. done. }
    assert (∀ e t, guarded secret t → taken t = [] → wp (discard server;; raise e : M _ _ unit) ready t) as Hgive_up.
    { intros e t Hgt Htt. wp_steps. apply discard_wp; [done..|]. intros r' t' ? ? ?.
      destruct r' as [[]|]; [wp_steps|]; by split_and!. }
    wp_steps. apply attempt_wp. intros b1 r1 Hb1 _. destruct r1 as [[]|e1].
    2: { apply Hgive_up; [by apply guarded_snoc|done]. }
    apply attempt_wp. intros b2 r2 Hb2 _. rewrite (proj2 Hb1 eq_refl). destruct r2 as [[]|e2].
    + split; [by apply guarded_snoc; [apply (guarded_snoc secret [(Connect false, true)])|]|]. done.
    + apply Hgive_up; [by apply guarded_snoc; [apply (guarded_snoc secret [(Connect false, true)])|]|done].
Qed.

Lemma converse_wp m t :
  guarded secret t → taken t = [] → is_open t = true →
  (sm_use_tls cfg || sm_use_ssl cfg = true → encrypted t = true) →
  wp (converse cfg server m) (λ r t', guarded secret t' ∧ is_open t' = true ∧ taken t' = if is_ok r then [m] else []) t.
Proof.
  intros Hg Ht Ho He. rewrite /converse /require_encrypted.
  assert (∀ t, guarded secret t → taken t = [] → is_open t = true →
    (sm_use_tls cfg || sm_use_ssl cfg = true → encrypted t = true) →
    wp (attempt (SendMessage m)) (λ r t', guarded secret t' ∧ is_open t' = true ∧ taken t' = if is_ok r then [m] else []) t)
    as Hsend.
  { intros t0 Hg0 Ht0 Ho0 He0. apply attempt_wp. intros b r Hb _. split; [by apply guarded_snoc|].
    split; [by rewrite is_open_snoc|]. rewrite taken_snoc Ht0.
    destruct r as [[]|e]; [by rewrite (proj2 Hb eq_refl)|]. destruct b; [discriminate (proj1 Hb eq_refl)|done]. }
  wp_steps. case_bool_decide; wp_steps; [by apply Hsend|]. simpl.
  destruct (encrypted t) eqn:Henc; wp_steps; [|done].
  apply attempt_wp. intros b r Hb _. assert (guarded secret (t ++ [(Login, b)])) by by apply guarded_snoc.
  destruct r as [[]|e].
  - apply Hsend; [done|by rewrite taken_snoc Ht|by rewrite is_open_snoc|]. by rewrite encrypted_snoc Henc.
  - split; [done|]. by rewrite is_open_snoc taken_snoc Ht.
Qed.

Lemma exit_wp t : guarded secret t →
  wp (exit_ server) (λ r t', guarded secret t' ∧ taken t' = taken t ∧ is_open t' = false) t.
Proof.
  intros Hg. rewrite /wp /exit_.
  assert (∀ b, guarded secret ((t ++ [(Quit, b)]) ++ [(Close, true)])) as Hg'.
  { intros b. by apply guarded_snoc; [apply guarded_snoc|]. }
  assert (wp (try_except (attempt Quit) (λ e, match e with Disconnected => mret tt | _ => raise e end))
    (λ r t', ∃ b, t' = t ++ [(Quit, b)]) t) as Hw.
  { wp_steps. apply attempt_wp. intros b r Hb _. destruct r as [[]|e]; [by exists b|].
    destruct e; wp_steps; by exists b. }
  rewrite /wp in Hw. destruct (try_except _ _ t) as [r t']. destruct Hw as [b Hw]. simpl in *. subst t'.
  split; [apply Hg'|]. split; [by rewrite !taken_snoc !app_nil_r|by rewrite is_open_snoc].
Qed.

(** What a session with the server comes to. *)
Lemma smtp_send_wp to subject body :
  wp (smtp_send cfg server to subject body) (λ r t,
    guarded secret t ∧ (ends_well → is_open t = false) ∧
    match r with
    | Ok _ => ∃ m, new_message (sm_sender cfg) to subject body = Ok m ∧ taken t = [m]
    | Err e => (length (taken t) <= 1)%nat ∧ (e = MailDeliveryError ∨ ∃ x, e = Unforeseen x)
    end) [].
Proof.
  rewrite /smtp_send. destruct (new_message _ _ _ _) as [m|e] eqn:Hm.
  2: { wp_steps. split; [apply guarded_nil|]. split; [done|]. split; [simpl; lia|]. right. by exists e. }
  wp_steps. eapply wp_mono; [apply connect_wp|]. intros r t (Hg & Ht & Hr).
  assert (∀ e t, guarded secret t → (length (taken t) <= 1)%nat → (ends_well → is_open t = false) →
    wp (if is_network e then raise MailDeliveryError else raise e : M Trace mail_exn unit)
      (λ r t, guarded secret t ∧ (ends_well → is_open t = false) ∧
        match r with
        | Ok _ => ∃ m0, @Ok exn Message m = Ok m0 ∧ taken t = [m0]
        | Err e => (length (taken t) <= 1)%nat ∧ (e = MailDeliveryError ∨ ∃ x, e = Unforeseen x)
        end) t) as Herr.
  { intros e t0 Hg0 Ht0 Ho0. destruct e as [| | | |x|]; simpl; wp_steps; split_and!; try done; by [left|right; exists x]. }
  destruct r as [[]|e]; [|apply Herr; [done|rewrite Ht; simpl; lia|done]]. destruct Hr as [Ho He].
  rewrite {1}/wp /with_session. pose proof (converse_wp m t Hg Ht Ho He) as Hc. rewrite /wp in Hc.
  destruct (converse cfg server m t) as [r1 t1]. destruct Hc as (Hg1 & _ & Ht1). simpl in Ht1.
  pose proof (exit_wp t1 Hg1) as Hx. rewrite /wp in Hx.
  destruct (exit_ server t1) as [r2 t2]. destruct Hx as (Hg2 & Ht2 & Ho2). simpl in *.
  assert (length (taken t2) <= 1)%nat as Hlen by (rewrite Ht2 Ht1; destruct (is_ok r1); simpl; lia).
  destruct r2 as [[]|e2]; simpl; [|by apply Herr].
  destruct r1 as [[]|e1]; simpl in *; [|by apply Herr]. split; [done|]. split; [done|]. exists m. split; [done|].
  by rewrite Ht2 Ht1.
Qed.

(** C32: Whatever the submission server answers, the password goes to it only
    over a connection that was encrypted before, and with TLS or SSL
    configured so does every message: a server that refuses STARTTLS, or
    somebody in between who takes it out of its answers, is told nothing. *)
Theorem mail_secrets_travel_encrypted to subject body r t i c b :
  smtp_send cfg server to subject body [] = (r, t) → t !! i = Some (c, b) → secret c = true →
  encrypted (take i t) = true.
Proof. intros Hs. destruct (wp_elim _ _ _ _ _ (smtp_send_wp to subject body) Hs) as (Hg & _). apply Hg. Qed.

(** A send that succeeds has handed the server its one message, and one
    that fails at most that; what is raised is a delivery error, or an error
    that is not one of the network; and whatever happened, the connection
    was closed, provided that saying goodbye raises nothing unforeseen. *)
Theorem a_send_delivers_or_reports to subject body r t :
  smtp_send cfg server to subject body [] = (r, t) →
  (ends_well → is_open t = false) ∧
  match r with
  | Ok _ => ∃ m, new_message (sm_sender cfg) to subject body = Ok m ∧ taken t = [m]
  | Err e => (length (taken t) <= 1)%nat ∧ (e = MailDeliveryError ∨ ∃ x, e = Unforeseen x)
  end.
Proof. intros Hs. destruct (wp_elim _ _ _ _ _ (smtp_send_wp to subject body) Hs) as (_ & Ho & Hr). split; [exact Ho|exact Hr]. Qed.
End session.

(** ** The tasks *)

(** A task is run until it succeeds, four times at most and a minute apart. *)
Lemma run_task_bounds {St A} retries now (call : Z → M St mail_exn A) s r s' done runs :
  run_task retries now call s = (r, s', done, runs) →
  (1 <= runs <= S retries)%nat ∧ done = now + COUNTDOWN * (Z.of_nat runs - 1) ∧
  (∀ e, r = Err e → runs = S retries).
Proof.
  revert now s r s' done runs. induction retries as [|n IH]; intros now s r s' done runs; simpl;
    destruct (call now s) as [[a|e] s1].
  1-3: intros [= <- <- <- <-]; split; [lia|]; split; [rewrite /COUNTDOWN; lia|done].
  destruct (run_task n (now + COUNTDOWN) call s1) as [[[r1 s2] d] k] eqn:E. intros [= <- <- <- <-].
  apply IH in E as (Hk & Hd & He). split; [lia|]. split; [lia|]. intros e' Hr. by rewrite (He _ Hr).
Qed.

Module MailDemo.
Definition mailer : SMTPMailer := MkSMTPMailer (lit "maiz") (lit "no-reply@maiz.link") true false.
Definition polite : Trace → Command → option mail_exn := λ _ _, None.
Definition mailed := smtp_send mailer polite (lit "a@b.c") (lit "Hello") (lit "text") [].

Lemma a_mailed_link_carries_its_token_witness : ∃ query,
  (verify_page (query_args query)).2 = Some [97; 38; 233; 8364] ∧ 35 ∉ query.
Proof.
  destruct (a_mailed_link_carries_its_token (lit "https://maiz.link//") VERIFY_PATH [97; 38; 233; 8364]
    (lit "https://maiz.link/verify?token=a%26%C3%A9%E2%82%AC")) as (query & _ & Hf & _ & Hv & _).
  - repeat constructor; vm_compute; discriminate.
  - vm_compute. reflexivity.
  - exists query. split; [exact Hv|exact Hf].
Defined.

Lemma mail_secrets_travel_encrypted_witness : mailed.2 !! 3%nat = Some (Login, true) ∧ encrypted (take 3 mailed.2) = true.
Proof.
  split; [vm_compute; reflexivity|].
  apply (mail_secrets_travel_encrypted mailer polite (lit "a@b.c") (lit "Hello") (lit "text") mailed.1 mailed.2 3 Login true).
  - apply surjective_pairing.
  - vm_compute. reflexivity.
  - reflexivity.
Defined.

Lemma a_send_delivers_or_reports_witness : is_open mailed.2 = false ∧ length (taken mailed.2) = 1%nat.
Proof.
  destruct (a_send_delivers_or_reports mailer polite (lit "a@b.c") (lit "Hello") (lit "text") mailed.1 mailed.2
    (surjective_pairing mailed)) as [Ho _].
  split; [apply Ho; intros t e He; discriminate He|vm_compute; reflexivity].
Defined.

(** A server that takes every message and answers [QUIT] with another code
    than 221: the send is reported as failed, and the task hands the same
    message over four times. *)
Definition curt : Trace → Command → option mail_exn :=
  λ t c, match c with Quit => Some BadReply | _ => None end.
Example a_message_that_was_taken_is_sent_again :
  let '(r, sent, _, runs) := mail_task 0
    (λ _ sent, let '(r, t) := smtp_send mailer curt (lit "a@b.c") (lit "Hello") (lit "text") [] in (r, sent ++ taken t)) [] in
  r = Err MailDeliveryError ∧ length sent = 4%nat ∧ runs = 4%nat.
Proof. vm_compute. split_and!; reflexivity. Qed.

(** A refused STARTTLS ends the session before anything was said. *)
Example without_tls_nothing_is_said :
  (smtp_send mailer (λ _ c, match c with StartTls => Some SmtpError | _ => None end)
     (lit "a@b.c") (lit "Hello") (lit "text") []) =
  (Err MailDeliveryError, [(Connect false, true); (StartTls, false); (Quit, true); (Close, true)]).
Proof. vm_compute. reflexivity. Qed.
End MailDemo.
