(* ===== verification/Compression.v ===== *)
(** * Compression of answers

    [web/middleware/compression.py], the hook that runs after all the others.
    [Gzip] is the standard library's [gzip] at the level of the service, with
    the one law that its reader gives back what was packed.  [set_data] and
    [make_conditional] are Werkzeug's: the first writes the length of the new
    body into [Content-Length]; the second, for a [GET] or a [HEAD], adds the
    date where there is none and turns the answer into a 304 (a 412, if the
    request has an [If-Match]) when the request's validators say that the
    caller has the entity already.  Whether they say so is a parameter
    ([Conditional]).  [received] is what reaches the client: a 304 goes out
    without a body. *)

From S2P Require Import Prelude PyStr Json ValueObjects WebRequest WebTheorems.

Class Gzip := {
  gzip_compress : list Z → list Z;
  gunzip : list Z → option (list Z);
  gunzip_compress b : gunzip (gzip_compress b) = Some b;
}.

(** The bytes of an answer: at hand, in a file that is passed through, or
    still to be made. *)
Inductive Data := Buffered (bytes : list Z) | InFile (bytes : list Z) | Streamed.

Record Outgoing := MkOutgoing { out_response : Response; out_data : Data }.

Definition COMPRESSIBLE_TYPES : list pystr :=
  lit <$> ["text/"; "application/json"; "application/javascript"; "application/manifest+json"; "image/svg+xml"]%string.
Definition MINIMUM_BYTES : Z := 1024.

(** [is_resource_modified] of the answer's [ETag] and [Last-Modified], whether
    the request has an [If-Match] with entity tags, and [http_date()]; an
    entity counts as unmodified only for a request that presents a
    validator. *)
Definition presents_validator (r : Request) : Prop :=
  is_Some (header "If-None-Match" r) ∨ is_Some (header "If-Modified-Since" r) ∨ is_Some (header "If-Match" r).
Class Conditional := {
  is_resource_modified : Request → Response → bool;
  has_if_match : Request → bool;
  http_date : pystr;
  unmodified_is_validated r a : is_resource_modified r a = false → presents_validator r;
}.

Section compression.
Context `{CaseFolding} `{Gzip} `{Conditional}.

Definition set_status (status : Z) (r : Response) : Response :=
  MkResponse status (rs_headers r) (rs_vary r) (rs_cookies r) (rs_body r).

Definition make_conditional (r : Request) (a : Response) : Response :=
  if bool_decide (rq_method r ∈ lit <$> ["GET"; "HEAD"]%string) then
    let a := setdefault_header "Date" http_date a in
    if is_resource_modified r a then a else set_status (if has_if_match r then 412 else 304) a
  else a.

(** The entity tag of the packed body. *)
Definition gzip_tag (etag : pystr) : pystr :=
  if endswith [34] etag then take (length etag - 1) etag ++ lit "-gzip" ++ [34] else etag ++ lit "-gzip".

(** A body that may be read into memory, once passing through is off. *)
Definition readable (d : Data) : option (list Z) :=
  match d with Buffered b | InFile b => Some b | Streamed => None end.

Definition compress_body (r : Request) (a : Response) (body : list Z) : Outgoing :=
  if len body <? MINIMUM_BYTES then MkOutgoing a (Buffered body)
  else
    let packed := gzip_compress body in
    if len body <=? len packed then MkOutgoing a (Buffered body)
    else
      let a := set_header "Content-Length" (str_of_Z (len packed)) a in
      let a := set_header "Content-Encoding" (lit "gzip") a in
      match get_header "ETag" a with
      | Some etag => MkOutgoing (make_conditional r (set_header "ETag" (gzip_tag etag) a)) (Buffered packed)
      | None => MkOutgoing a (Buffered packed)
      end.

Definition compress (r : Request) (o : Outgoing) : Outgoing :=
  let a := out_response o in
  if negb (existsb (λ t, startswith t (lower (content_type a))) COMPRESSIBLE_TYPES) then o
  else
    let a := vary_add "Accept-Encoding" a in
    let o := MkOutgoing a (out_data o) in
    if negb (contains (lit "gzip") (lower (default [] (header "Accept-Encoding" r)))) then o
    else if (status_code a <? 200) || (status_code a =? 204) || (status_code a =? 304) then o
    else if (status_code a =? 206) || bool_decide (get_header "Content-Range" a ≠ None) then o
    else if bool_decide (truthy (get_header "Content-Encoding" a) ≠ None) then o
    else match readable (out_data o) with
         | None => o
         | Some body => compress_body r a body
         end.

(** An answer without a body, whatever bytes it was made with. *)
Definition bodiless (r : Request) (status : Z) : bool :=
  bool_decide (rq_method r = lit "HEAD") || (status <? 200) || (status =? 204) || (status =? 304).

(** What a client that reads the header makes of an answer; [None] for a
    stream. *)
Definition received (r : Request) (o : Outgoing) : option (list Z) :=
  if bodiless r (status_code (out_response o)) then Some []
  else
    b ← readable (out_data o);
    if bool_decide (get_header "Content-Encoding" (out_response o) = Some (lit "gzip")) then gunzip b else Some b.

(** ** Claims *)








(** The answer as it was, or said to depend on the encoding, with its body. *)
Lemma received_as_before r a d d' : get_header "Content-Encoding" a ≠ Some (lit "gzip") →
  readable d' = readable d → received r (MkOutgoing a d') = received r (MkOutgoing a d).
Proof. intros Hg Hd. by rewrite /received /= Hd. Qed.




End compression.

Module CompressionDemo.
(** A packer that knows one text. *)
Definition page : list Z := replicate 2000 97.
#[local] Instance packer : Gzip.
Proof.
  refine {| gzip_compress b := if bool_decide (b = page) then [0] else 1 :: b;
            gunzip b := match b with [0] => Some page | 1 :: b => Some b | _ => None end |}.
  intros b. by case_bool_decide; subst.
Defined.
#[local] Instance folding : CaseFolding := id.

Definition asking (encodings : string) : Request :=
  MkRequest (lit "GET") (lit "/") (lit "maiz.link") None None None [(lit "Accept-Encoding", lit encodings)] [] [] NotJson.
Definition answer : Outgoing :=
  MkOutgoing (MkResponse 200 [(lit "ETag", [34; 97; 34])] [] [] (TextBody (lit "text/css; charset=utf-8") [])) (InFile page).
(** Validators compared as texts; no dates. *)
#[local] Instance validators : Conditional.
Proof.
  refine {| is_resource_modified r a := negb (bool_decide (header "If-None-Match" r = get_header "ETag" a)) ||
              bool_decide (header "If-None-Match" r = None);
            has_if_match _ := false; http_date := lit "Thu, 01 Jan 1970 00:00:00 GMT" |}.
  intros r a Hm. apply orb_false_iff in Hm as [_ Hm%bool_decide_eq_false]. left.
  destruct (header "If-None-Match" r); [done|]. by destruct Hm.
Defined.


(** The same caller comes back with the tag it was given. *)
Definition again : Request :=
  MkRequest (lit "GET") (lit "/") (lit "maiz.link") None None None
    [(lit "Accept-Encoding", lit "gzip"); (lit "If-None-Match", [34; 97] ++ lit "-gzip" ++ [34])] [] [] NotJson.
Example a_known_entity_is_not_sent :
  status_code (out_response (compress again answer)) = 304 ∧ received again (compress again answer) = Some [].
Proof. vm_compute. split; reflexivity. Qed.

(** A caller that refuses gzip in so many words is sent it. *)
Example a_refused_encoding_is_sent :
  get_header "Content-Encoding" (out_response (compress (asking "gzip;q=0, identity") answer)) = Some (lit "gzip").
Proof. vm_compute. reflexivity. Qed.
End CompressionDemo.
