(* ===== verification/Languages.v ===== *)
(** * The language of an answer

    The negotiation of [web/i18n.py], which is also the locale selector of
    Flask-Babel and the language a mailed message is written in.
    [AcceptLanguages] is Werkzeug's [accept_languages.best_match], of which is
    used that it answers with one of the tags it was given; [LocaleNames] is
    what Babel calls a language, [None] for a tag it cannot read. *)

From S2P Require Import Prelude PyStr Exceptions ValueObjects Config WebRequest LinkViews ConfigFactory ConfigTheorems.

Class AcceptLanguages := {
  best_match : option pystr → list pystr → option pystr;
  best_match_offered accepted offered tag : best_match accepted offered = Some tag → tag ∈ offered;
}.
Class LocaleNames := display_name : pystr → option pystr.

Definition LANGUAGE_COOKIE_NAME : string := "lang".

Section languages.
Context `{CaseFolding} `{Uppercase} `{AcceptLanguages} `{LocaleNames}.
Context (configured : list pystr) (default_ : pystr).

Definition supported_languages : list pystr :=
  (λ tag, lower (strip tag)) <$> filter (λ tag, strip tag ≠ []) configured.
Definition default_language : pystr := lower (strip default_).

Definition language_from_cookie (r : Request) : option pystr :=
  match truthy (cookie LANGUAGE_COOKIE_NAME r) with
  | None => None
  | Some raw => let chosen := lower (strip raw) in if decide (chosen ∈ supported_languages) then Some chosen else None
  end.

(** [None] for work outside a request. *)
Definition select_language (r : option Request) : pystr :=
  match r with
  | None => default_language
  | Some r =>
      match truthy (language_from_cookie r) with
      | Some chosen => chosen
      | None => default default_language (truthy (best_match (header "Accept-Language" r) supported_languages))
      end
  end.

Definition language_name (tag : pystr) : pystr := default tag (truthy (display_name tag)).

Record LanguageOption := MkLanguageOption { lo_tag : pystr; lo_code : pystr; lo_name : pystr; lo_current : bool }.
Definition language_options (r : option Request) : list LanguageOption :=
  let chosen := select_language r in
  (λ tag, MkLanguageOption tag (upper (default [] (head (split_on HYPHEN tag)))) (language_name tag) (bool_decide (tag = chosen)))
  <$> supported_languages.

(** A deliberate choice wins over what the browser asks for. *)
Lemma cookie_wins r raw :
  truthy (cookie LANGUAGE_COOKIE_NAME r) = Some raw → lower (strip raw) ∈ supported_languages → lower (strip raw) ≠ [] →
  select_language (Some r) = lower (strip raw).
Proof.
  intros Hc Hin Hne. rewrite /select_language /language_from_cookie Hc decide_True //. by destruct (lower (strip raw)).
Qed.

Lemma select_offered r : default_language ∈ supported_languages → select_language r ∈ supported_languages.
Proof.
  intros Hd. destruct r as [r|]; [|done]. rewrite /select_language.
  destruct (truthy (language_from_cookie r)) as [chosen|] eqn:Hc.
  - rewrite /language_from_cookie in Hc. destruct (truthy (cookie _ _)); [|done]. case_decide; [|done].
    rewrite /truthy in Hc. repeat case_match; by simplify_eq.
  - destruct (truthy (best_match _ _)) as [tag|] eqn:Hb; [|done]. simpl.
    rewrite /truthy in Hb. destruct (best_match (header "Accept-Language" r) supported_languages) as [[|c l]|] eqn:Hm; simplify_eq.
    by apply best_match_offered in Hm.
Qed.

Lemma offered_once r : NoDup supported_languages → select_language r ∈ supported_languages →
  length (filter (λ o, lo_current o = true) (language_options r)) = 1%nat.
Proof.
  rewrite /language_options. generalize (select_language r) as chosen. intros chosen Hnd Hin.
  induction Hnd as [|tag tags Hnot _ IH]; [by apply elem_of_nil in Hin|]. rewrite fmap_cons.
  destruct (decide (tag = chosen)) as [->|Hne].
  - rewrite filter_cons_True; [|by rewrite /= bool_decide_eq_true_2]. rewrite filter_none //.
    intros o [t [-> Ht]]%list_elem_of_fmap. simpl. case_bool_decide; [|done]. by subst.
  - rewrite filter_cons_False; [|by rewrite /= bool_decide_eq_false_2]. apply IH. by apply elem_of_cons in Hin as [->|].
Qed.
End languages.

(** ** With a validated configuration *)

Section validated.
Context `{DecimalDigits} `{CaseFolding} `{Uppercase} `{DatabaseUrls} `{Babel} `{AcceptLanguages}.
Context (dep : Deployment) (p : Profile) (env : Environ).
(** Lower case makes no text vanish. *)
Hypothesis lower_keeps : ∀ s, unicode_lower s = [] → s = [].

Lemma lower_nonempty s : s ≠ [] → lower s ≠ [].
Proof.
  rewrite /lower. destruct (isascii s); intros Hs Hl; [by destruct s|]. by apply Hs, lower_keeps.
Qed.

Lemma supported_as_checked tags :
  filter (λ tag, tag ≠ []) ((λ tag, lower (strip tag)) <$> tags) = supported_languages tags.
Proof.
  rewrite /supported_languages. induction tags as [|tag tags IH]; [done|].
  rewrite fmap_cons. destruct (decide (strip tag = [])) as [E|E].
  - rewrite filter_cons_False; [|by rewrite E; intros Hn; apply Hn]. rewrite filter_cons_False; [done|by intros Hn].
  - rewrite filter_cons_True; [|by apply lower_nonempty]. rewrite filter_cons_True //. by rewrite fmap_cons IH.
Qed.

(** With a validated configuration every answer, whatever cookie and
    header came with the request and none at all, is in a language the
    deployment offers and Babel can read, so that choosing it fails nobody;
    and that language is the one the visitor chose whenever it is on offer. *)
Theorem answers_are_in_an_offered_language tags chosen r :
  validate dep p env = Ok tt → SUPPORTED_LANGUAGES p env = Ok tags → DEFAULT_LANGUAGE p env = Ok chosen →
  select_language tags chosen r ∈ supported_languages tags ∧ locale_parse (select_language tags chosen r) = None ∧
  (∀ rq raw, r = Some rq → truthy (cookie LANGUAGE_COOKIE_NAME rq) = Some raw → lower (strip raw) ∈ supported_languages tags →
     select_language tags chosen r = lower (strip raw)).
Proof.
  intros Hv Ht Hc. assert (language_errors p env = Ok []) as Hok by (apply (validated_check dep p env); [done|do 10 right; left]).
  rewrite /language_errors Ht Hc /= supported_as_checked in Hok. injection Hok as Hok.
  apply app_eq_nil in Hok as [Hdef Hread].
  assert (default_language chosen ∈ supported_languages tags) as Hd.
  { case_decide; [done|]. apply when_nil, negb_false_iff, bool_decide_eq_true in Hdef. done. }
  assert (select_language tags chosen r ∈ supported_languages tags) as Hin by by apply select_offered.
  assert (∀ tag, tag ∈ supported_languages tags → locale_parse tag = None) as Hparse.
  { intros tag Htag. destruct (locale_parse tag) as [why|] eqn:E; [|done]. exfalso.
    assert (UnreadableLanguage tag why ∈ omap (λ tag, UnreadableLanguage tag <$> locale_parse tag) (supported_languages tags)) as Hx.
    { apply list_elem_of_omap. exists tag. split; [done|]. by rewrite E. }
    rewrite Hread in Hx. by apply elem_of_nil in Hx. }
  split; [done|]. split; [by apply Hparse|]. intros rq raw -> Hraw Hoffer. apply cookie_wins; [done..|].
  apply list_elem_of_fmap in Hoffer as (t & -> & [Ht' _]%list_elem_of_filter). by apply lower_nonempty.
Qed.
End validated.

Module LanguageDemo.
Import ConfigDemo.
#[local] Existing Instances ConfigDemo.folding ConfigDemo.digits ConfigDemo.uppercase ConfigDemo.babel ConfigDemo.plain_urls.
(** The first tag on offer that the header starts with. *)
#[local] Instance negotiation : AcceptLanguages.
Proof.
  refine {| best_match accepted offered := first (filter (λ tag, startswith tag (default [] accepted) = true) offered) |}.
  intros accepted offered tag Ht. destruct (filter _ offered) as [|x l] eqn:E; [done|].
  assert (x ∈ filter (λ tag, startswith tag (default [] accepted) = true) offered) as Hx by (rewrite E; by left).
  apply list_elem_of_filter in Hx as [_ Hx]. injection Ht as <-. exact Hx.
Defined.

Definition visit (cookies : list (pystr * pystr)) : Request :=
  MkRequest (lit "GET") (lit "/") (lit "maiz.link") None None None [(lit "Accept-Language", lit "ru-RU")] cookies [] NotJson.
Definition offered : list pystr := [lit "en"; lit "ru"; lit "zh"].

Lemma answers_are_in_an_offered_language_witness :
  select_language offered (lit "en") (Some (visit [])) = lit "ru" ∧
  select_language offered (lit "en") (Some (visit [(lit "lang", lit " ZH ")])) = lit "zh".
Proof.
  split; [vm_compute; reflexivity|].
  refine (proj2 (proj2 (answers_are_in_an_offered_language dep Production run.2 _ offered (lit "en")
    (Some (visit [(lit "lang", lit " ZH ")])) run_valid _ _)) (visit [(lit "lang", lit " ZH ")]) (lit " ZH ") eq_refl _ _).
  - intros s Hs. destruct s; [reflexivity|discriminate Hs].
  - vm_compute. reflexivity.
  - vm_compute. reflexivity.
  - vm_compute. reflexivity.
  - vm_compute. right. right. left.
Defined.
End LanguageDemo.
