(* ===== verification/DashboardViews.v ===== *)
(** * The pages

    [web/controllers/dashboard_controller.py], the public pages of
    [frontend_controller.py] and [can] of [web/security/template_access.py].
    What Jinja makes of a template and its values is a parameter ([Pages]);
    a page is the template, with what it is given. *)

From S2P Require Import Prelude PyStr Json Exceptions ValueObjects Entities Policies Cache MemoryCache Database LinkRepo UserRepo Links Demo Sessions Auth AuthTheorems Admin AdminTheorems AdminClaims WebRequest WebAuth Csrf WebErrors AuthViews LinkViews AdminViews WebTheorems AuthViewClaims AdminViewClaims.

(** What a template is given. *)
Inductive page_value :=
| VText (s : pystr) | VTexts (l : list pystr) | VInt (n : Z) | VBool (b : bool)
| VUser (u : UserResponse) | VUsers (l : list UserResponse) | VRole (r : Role) | VRoles (l : list Role).

Class Pages := render_template : pystr → list (pystr * page_value) → pystr.

Section pages.
Context {C : Type} `{Pages} `{CaseFolding} `{DecimalDigits}.
Abbreviation W := (M (Web C) failure).

Definition HTML : pystr := lit "text/html; charset=utf-8".
Definition page (template : string) (values : list (pystr * page_value)) : Response :=
  plain 200 (TextBody HTML (render_template (lit template) values)).

(** ** Views that draw one template *)

Definition static_page (template : string) (permissions : list pystr) (r : Request) : W Response :=
  login_required r (
    match permissions with
    | [] => mret (page template [])
    | [p] => require_permission p (mret (page template []))
    | ps => require_any_permission ps (mret (page template []))
    end).

Definition home := static_page "dashboard/home.html" [].
Definition security := static_page "dashboard/security.html" [].
Definition my_links := static_page "dashboard/my_links.html" [LINK_VIEW_OWN].
Definition my_stats := static_page "dashboard/my_stats.html" [LINK_VIEW_OWN].
Definition create_link_form := static_page "dashboard/create_link.html" [LINK_CREATE].
Definition service_stats := static_page "dashboard/service_stats.html" [STATS_VIEW_BASIC].
Definition service_health := static_page "dashboard/health.html" [ADMIN_VIEW_SYSTEM_HEALTH].
Definition journals := static_page "dashboard/journals.html" [AUDIT_VIEW; LOGS_VIEW].

Definition link_stats (short_code : pystr) (r : Request) : W Response :=
  login_required r (require_permission LINK_VIEW_OWN (
    mret (page "dashboard/link_stats.html" [(lit "short_code", VText short_code)]))).

(** ** Views over the accounts and the roles *)

Definition not_found (code text : string) : Response := error_page (lit code) (Gettext (lit text) []) 404.

Definition user_stats (user_id : pystr) (r : Request) : W Response :=
  login_required r (require_permission ADMIN_VIEW_USERS (
    user ← in_world (get_user user_id);
    match user with
    | None => mret (not_found "USER_NOT_FOUND" "User not found")
    | Some u => mret (page "dashboard/user_stats.html" [(lit "user", VUser u)])
    end)).

Definition USERS_PER_PAGE : Z := 50.

(** One row beyond the page is asked for, to tell whether there is a next. *)
Definition users_list (r : Request) : W Response :=
  login_required r (require_permission ADMIN_VIEW_USERS (
    let number := Z.max 1 (int_argument "page" 1 r) in
    let offset := Z.min ((number - 1) * USERS_PER_PAGE) MAX_OFFSET in
    found ← in_world (list_users (Z.to_nat (USERS_PER_PAGE + 1)) (Z.to_nat offset));
    mret (page "dashboard/users_list.html"
      [(lit "users", VUsers (take (Z.to_nat USERS_PER_PAGE) found)); (lit "page", VInt number);
       (lit "has_next", VBool (USERS_PER_PAGE <? len found))]))).

Definition assignable_roles : M (World C) exn (list Role) :=
  found ← list_roles; mret (filter (λ x, role_name x ≠ GUEST_ROLE_NAME) (found : list Role)).

Definition create_user_form (r : Request) : W Response :=
  login_required r (require_permission ADMIN_MANAGE_USERS (
    found ← in_world assignable_roles;
    mret (page "dashboard/create_user.html" [(lit "roles", VRoles found)]))).

Definition edit_user (user_id : pystr) (r : Request) : W Response :=
  login_required r (require_permission ADMIN_MANAGE_USERS (
    user ← in_world (get_user user_id);
    match user with
    | None => mret (not_found "USER_NOT_FOUND" "User not found")
    | Some u =>
        all_roles ← in_world assignable_roles;
        mret (page "dashboard/edit_user.html"
          [(lit "user", VUser u); (lit "all_roles", VRoles all_roles);
           (lit "unassignable_held", VTexts (filter (λ name, name ∉ role_name <$> (all_roles : list Role)) (ur_roles u)))])
    end)).

Definition roles_list (r : Request) : W Response :=
  login_required r (require_permission ADMIN_VIEW_ROLES (
    found ← in_world list_roles;
    mret (page "dashboard/roles_list.html" [(lit "roles", VRoles found)]))).

Definition create_role_form (r : Request) : W Response :=
  login_required r (require_permission ADMIN_MANAGE_ROLES (
    mret (page "dashboard/create_role.html" [(lit "permissions", VTexts SystemPermissions)]))).

Definition edit_role (name : pystr) (r : Request) : W Response :=
  login_required r (require_permission ADMIN_MANAGE_ROLES (
    role ← in_world (get_role name);
    match role with
    | None => mret (not_found "ROLE_NOT_FOUND" "Role not found")
    | Some x =>
        if role_is_system x then
          let refusal := RoleIsSystemError (role_name x) in
          mret (error_page (code_of refusal) (TranslateError refusal) 403)
        else mret (page "dashboard/edit_role.html" [(lit "role", VRole x); (lit "available_permissions", VTexts SystemPermissions)])
    end)).

(** ** What the templates ask *)

(** [can(permission)], remembered for the request: the answer and what is
    remembered afterwards. *)
Definition can (permission : pystr) (remembered : list (pystr * bool)) (g : G) (d : Database) : bool * list (pystr * bool) :=
  match snd <$> first (filter (λ f, f.1 = permission) remembered) with
  | Some b => (b, remembered)
  | None =>
      if negb (g_authorization_service g) then (false, remembered)
      else let b := is_allowed d (g_domain_user g) permission in (b, (permission, b) :: remembered)
  end.

(** ** The public pages *)

Definition public_page (template : string) (values : list (pystr * page_value)) : W Response := mret (page template values).
Definition register_form : W Response := public_page "public/register.html" [].
Definition login_page : W Response := public_page "public/login.html" [].
Definition forgot_password_page : W Response := public_page "public/forgot_password.html" [].
End pages.

(** * What is claimed of the pages *)

(** ** Programs that only read *)

Section reading.
Context {C : Type} `{CaseFolding}.

Definition reads {A} (m : M (World C) exn A) : Prop := ∀ w, (m w).2 = w.

Lemma reads_uow {A} (f : Database → A) : reads (with_uow (read f)).
Proof. intros []. reflexivity. Qed.
Lemma run_read {A} (f : Database → A) (w : World C) : with_uow (read f) w = (Ok (f (w_db w)), w).
Proof. by destruct w. Qed.
Lemma reads_bind {A B} (m : M (World C) exn A) (k : A → M (World C) exn B) :
  reads m → (∀ a, reads (k a)) → reads (m ≫= k).
Proof.
  intros Hm Hk w. rewrite /mbind /M_bind. specialize (Hm w). destruct (m w) as [[a|e] w']; simpl in *; subst; [apply Hk|done].
Qed.
Lemma reads_ret {A} (a : A) : reads (mret a).
Proof. done. Qed.

Lemma reads_load (f : Database → result exn (option User)) : reads (with_uow (load f)).
Proof. intros []. rewrite /with_uow /load /mbind /M_bind /read /lift /=. reflexivity. Qed.

Lemma reads_get_user uid : reads (get_user uid).
Proof. apply reads_bind; [apply reads_load|intros a; apply reads_ret]. Qed.
Lemma reads_list_users limit offset : reads (list_users limit offset).
Proof.
  apply reads_bind; [apply reads_uow|]. intros [found|e]; [|done]. by intros w.
Qed.
Lemma reads_list_roles : reads list_roles.
Proof. apply reads_uow. Qed.
Lemma reads_assignable : reads assignable_roles.
Proof. apply reads_bind; [apply reads_list_roles|intros a; apply reads_ret]. Qed.
Lemma reads_get_role name : reads (get_role name).
Proof. apply reads_uow. Qed.

(** In the web layer. *)
Definition shows {A} (m : M (Web C) failure A) : Prop := ∀ s, (m s).2 = s.
Lemma shows_in_world {A} (m : M (World C) exn A) : reads m → shows (in_world m).
Proof. intros Hm [g w]. rewrite /in_world /=. specialize (Hm w). destruct (m w) as [r w']. simpl in *. by subst. Qed.
Lemma shows_bind {A B} (m : M (Web C) failure A) (k : A → M (Web C) failure B) :
  shows m → (∀ a, shows (k a)) → shows (m ≫= k).
Proof.
  intros Hm Hk s. rewrite /mbind /M_bind. specialize (Hm s). destruct (m s) as [[a|e] s']; simpl in *; subst; [apply Hk|done].
Qed.
Lemma shows_ret {A} (a : A) : shows (mret a).
Proof. done. Qed.
Lemma shows_permission {A} p (view : M (Web C) failure A) : shows view → shows (require_permission p view).
Proof.
  intros Hv [g w]. rewrite /require_permission bind_g. destruct (negb _); [done|].
  rewrite {1}/mbind {1}/M_bind /g_is_allowed /in_world /=. destruct (is_allowed _ _ _); [apply Hv|]. by destruct (g_domain_user _).
Qed.
Lemma shows_any_permission {A} ps (view : M (Web C) failure A) : shows view → shows (require_any_permission ps view).
Proof.
  intros Hv [g w]. rewrite /require_any_permission bind_g. destruct (negb _); [done|].
  rewrite {1}/mbind {1}/M_bind /in_world /=. destruct (existsb _ _); [apply Hv|]. by destruct (g_domain_user _).
Qed.
Lemma shows_login r (view : M (Web C) failure Response) : shows view → shows (login_required r view).
Proof.
  intros Hv s. rewrite /login_required bind_g. destruct (g_current_user _); [apply Hv|]. by destruct (startswith _ _).
Qed.
End reading.

Section claims.
Context {C : Type} `{Pages} `{CaseFolding} `{DecimalDigits}.
Implicit Types (s : Web C).

(** The routes of the dashboard with the permissions of which one is needed. *)
Definition dashboard_views (id : pystr) (r : Request) : list (list pystr * M (Web C) failure Response) :=
  [([], home r); ([], security r); ([LINK_VIEW_OWN], my_links r); ([LINK_VIEW_OWN], my_stats r);
   ([LINK_VIEW_OWN], link_stats id r); ([LINK_CREATE], create_link_form r); ([STATS_VIEW_BASIC], service_stats r);
   ([ADMIN_VIEW_SYSTEM_HEALTH], service_health r); ([AUDIT_VIEW; LOGS_VIEW], journals r);
   ([ADMIN_VIEW_USERS], users_list r); ([ADMIN_MANAGE_USERS], create_user_form r);
   ([ADMIN_MANAGE_USERS], edit_user id r); ([ADMIN_VIEW_USERS], user_stats id r);
   ([ADMIN_VIEW_ROLES], roles_list r); ([ADMIN_MANAGE_ROLES], create_role_form r); ([ADMIN_MANAGE_ROLES], edit_role id r)].

(** A page behind its guards. *)
Definition guarded_by (ps : list pystr) (r : Request) (view : M (Web C) failure Response) : Prop :=
  ∃ body, view = login_required r (match ps with [] => body | [p] => require_permission p body | ps => require_any_permission ps body end) ∧
    shows body.

Create HintDb pages.
Hint Resolve shows_in_world shows_bind shows_ret reads_get_user reads_list_users reads_list_roles reads_assignable
  reads_get_role : pages.

Lemma dashboard_guarded id r ps view : (ps, view) ∈ dashboard_views id r → guarded_by ps r view.
Proof.
  rewrite /dashboard_views. intros Hin.
  repeat (apply list.elem_of_cons in Hin as [[= -> ->]|Hin];
    [eexists; split; [reflexivity|]; repeat (apply shows_bind; [auto with pages|intros ?]); repeat case_match;
     repeat (apply shows_bind; [auto with pages|intros ?]); auto with pages|]).
  by apply elem_of_nil in Hin.
Qed.

Lemma any_permission_refuses {A} ps (view : M (Web C) failure A) s :
  g_authorization_service (wb_g s) = true →
  (∀ p, p ∈ ps → is_allowed (w_db (wb_world s)) (g_domain_user (wb_g s)) p = false) →
  ∃ e, require_any_permission ps view s = (Err (Raised e), s).
Proof.
  intros Hg Hp. rewrite /require_any_permission bind_g Hg /=. rewrite /mbind /M_bind /in_world /=.
  destruct s as [g w]. simpl in *.
  assert (existsb (is_allowed (w_db w) (g_domain_user g)) ps = false) as ->.
  { apply not_true_iff_false. intros (p & Hin & Ht)%existsb_exists. rewrite Hp in Ht; [done|by apply list_elem_of_In]. }
  destruct (g_domain_user g); eexists; reflexivity.
Qed.

(** A page of the dashboard sends a visitor who is not signed in to the
    sign-in page, refuses an account that has none of the permissions the
    page asks for, and shows what it shows without changing anything. *)
Theorem pages_are_for_those_permitted id r s ps view : (ps, view) ∈ dashboard_views id r →
  (view s).2 = s ∧
  (g_current_user (wb_g s) = None → startswith (lit "/api/") (rq_path r) = false → view s = (Ok (redirect_to LOGIN_PAGE), s)) ∧
  (g_current_user (wb_g s) ≠ None → ps ≠ [] → g_authorization_service (wb_g s) = true →
   (∀ p, p ∈ ps → is_allowed (w_db (wb_world s)) (g_domain_user (wb_g s)) p = false) → ∃ e, view s = (Err (Raised e), s)).
Proof.
  intros (body & -> & Hb)%dashboard_guarded. split_and!.
  - apply shows_login. destruct ps as [|p [|]]; [done|by apply shows_permission|by apply shows_any_permission].
  - intros Hu Hp. by rewrite /login_required bind_g Hu Hp.
  - intros Hu Hne Hg Hp. rewrite /login_required bind_g. destruct (g_current_user (wb_g s)); [|done].
    destruct ps as [|p [|q l]]; [done| |by apply any_permission_refuses].
    rewrite require_permission_refuses //; [|apply Hp; by left]. by eexists.
Qed.

(** ** The pages of the list of accounts *)

Lemma mapM_ok_take {A B} (f : A → result exn B) l k n : mapM f l = Ok k → mapM f (take n l) = Ok (take n k).
Proof.
  revert k n. induction l as [|x l IH]; intros k n; simpl; [intros [= <-]; by destruct n|].
  intros (y & Hy & (ys & Hys & [= <-])%result_bind_ok)%result_bind_ok. destruct n as [|n]; [done|].
  simpl. rewrite Hy /= (IH ys n Hys). done.
Qed.
Lemma mapM_ok_drop {A B} (f : A → result exn B) l k n : mapM f l = Ok k → mapM f (drop n l) = Ok (drop n k).
Proof.
  revert k n. induction l as [|x l IH]; intros k n; simpl; [intros [= <-]; by destruct n|].
  intros (y & Hy & (ys & Hys & [= <-])%result_bind_ok)%result_bind_ok. destruct n as [|n]; [|simpl; by apply IH].
  simpl. rewrite Hy /= Hys. done.
Qed.

(** The accounts of a page, counted from 0, of a list cut in pages of [k]. *)
Definition chunk {A} (k i : nat) (l : list A) : list A := take k (drop (k * i) l).

Lemma chunks_cover {A} k n (l : list A) : concat ((λ i, chunk k i l) <$> seq 0 n) = take (k * n) l.
Proof.
  induction n as [|n IH]; [by rewrite Nat.mul_0_r|].
  rewrite seq_S fmap_app concat_app IH /= app_nil_r /chunk.
  replace (k * S n)%nat with (k * n + k)%nat by lia. apply take_take_drop.
Qed.

Lemma run_list_users limit offset (w : World C) all :
  mapM (orm_to_domain (roles (w_db w))) (merge_sort by_email (users (w_db w))) = Ok all →
  list_users limit offset w = (Ok (take limit (drop offset (from_user <$> all))), w).
Proof.
  intros Hall. rewrite /list_users {1}/mbind {1}/M_bind run_read /list_all_users.
  rewrite (mapM_ok_take _ _ _ _ (mapM_ok_drop _ _ _ offset Hall)). by rewrite -fmap_drop -fmap_take.
Qed.

(** The pages of the list of accounts, read one after the other, show
    every account once, in the order of the addresses, fifty to a page; a
    page says that there is a next one exactly when there is, so that
    following it from the first page ends with the last account. *)
Theorem every_account_is_on_one_page r s all i :
  g_current_user (wb_g s) ≠ None → g_authorization_service (wb_g s) = true →
  is_allowed (w_db (wb_world s)) (g_domain_user (wb_g s)) ADMIN_VIEW_USERS = true →
  mapM (orm_to_domain (roles (w_db (wb_world s)))) (merge_sort by_email (users (w_db (wb_world s)))) = Ok all →
  int_argument "page" 1 r = Z.of_nat i + 1 → Z.of_nat i * USERS_PER_PAGE <= MAX_OFFSET →
  users_list r s = (Ok (page "dashboard/users_list.html"
    [(lit "users", VUsers (chunk 50 i (from_user <$> all))); (lit "page", VInt (Z.of_nat i + 1));
     (lit "has_next", VBool (bool_decide (50 * S i < length all)%nat))]), s) ∧
  (∀ n, concat ((λ k, chunk 50 k (from_user <$> all)) <$> seq 0 n) = take (50 * n) (from_user <$> all)).
Proof.
  intros Hu Hg Hp Hall Hi Hmax. split; [|intros n; apply chunks_cover].
  rewrite /users_list /login_required bind_g. destruct (g_current_user (wb_g s)); [|done].
  rewrite /require_permission bind_g Hg /=. rewrite {1}/mbind {1}/M_bind /g_is_allowed /in_world /=. rewrite Hp.
  destruct s as [g w]. cbn [wb_world wb_g] in *. rewrite {1}/mbind {1}/M_bind /= (run_list_users _ _ w all Hall) Hi.
  replace (Z.max 1 (Z.of_nat i + 1)) with (Z.of_nat i + 1) by lia.
  rewrite /USERS_PER_PAGE in Hmax |- *.
  replace (Z.to_nat (Z.min ((Z.of_nat i + 1 - 1) * 50) MAX_OFFSET)) with (50 * i)%nat by lia.
  change (Z.to_nat (50 + 1)) with 51%nat. change (Z.to_nat 50) with 50%nat.
  rewrite take_take (_ : 50 `min` 51 = 50)%nat //.
  assert (50 <? len (take 51 (drop (50 * i) (from_user <$> all))) = bool_decide (50 * S i < length all)%nat) as ->; [|done].
  rewrite /len length_take length_drop length_fmap. case_bool_decide as Hk; [apply Z.ltb_lt; lia|apply Z.ltb_ge; lia].
Qed.
End claims.

Module DashboardDemo.
Import Demo AdminDemo AdminViewDemo.
#[local] Existing Instances Demo.folding Demo.cache.
#[local] Instance no_digits : DecimalDigits := λ _, None.
#[local] Instance bare : Pages := λ template _, template.

Definition asked : Request :=
  MkRequest (lit "GET") (lit "/dashboard/users") (lit "maiz.link") (Some (lit "dashboard.users_list")) None None [] []
    [(lit "page", lit "1")] NotJson.
Definition before (uid : string) : Web Cache := MkWeb (caller uid) two_logins.

Lemma pages_are_for_those_permitted_witness :
  users_list asked (MkWeb empty_g two_logins) = (Ok (redirect_to LOGIN_PAGE), MkWeb empty_g two_logins) ∧
  ∃ e, users_list asked (before "u1") = (Err (Raised e), before "u1").
Proof.
  split.
  - apply (pages_are_for_those_permitted [] asked (MkWeb empty_g two_logins) [ADMIN_VIEW_USERS]).
    + do 9 right. left.
    + reflexivity.
    + reflexivity.
  - apply (pages_are_for_those_permitted [] asked (before "u1") [ADMIN_VIEW_USERS]).
    + do 9 right. left.
    + vm_compute. discriminate.
    + discriminate.
    + vm_compute. reflexivity.
    + intros p Hp. apply list_elem_of_singleton in Hp. subst p. vm_compute. reflexivity.
Defined.

Definition accounts : list User :=
  match mapM (orm_to_domain (roles (w_db two_logins))) (merge_sort by_email (users (w_db two_logins))) with
  | Ok l => l | Err _ => [] end.
Lemma accounts_ok : mapM (orm_to_domain (roles (w_db two_logins))) (merge_sort by_email (users (w_db two_logins))) = Ok accounts.
Proof. vm_compute. reflexivity. Qed.

Lemma every_account_is_on_one_page_witness : length accounts = 2%nat ∧
  (users_list asked (before "u0")).1 = Ok (page "dashboard/users_list.html"
    [(lit "users", VUsers (chunk 50 0 (from_user <$> accounts))); (lit "page", VInt 1); (lit "has_next", VBool false)]).
Proof.
  split; [vm_compute; reflexivity|].
  destruct (every_account_is_on_one_page asked (before "u0") accounts 0
    ltac:(vm_compute; discriminate) ltac:(vm_compute; reflexivity) ltac:(vm_compute; reflexivity) accounts_ok
    ltac:(vm_compute; reflexivity) ltac:(vm_compute; discriminate)) as [Hrun _].
  rewrite Hrun. reflexivity.
Defined.
End DashboardDemo.
