(* ===== verification/Operations.v ===== *)
(** * The operator's commands

    [infrastructure/cli/commands/security.py] and [maintenance.py], with the
    parts of [cli/adapters/flask.py] that decide what a command answers.
    Reading and writing files, and the drawing of secrets, are arguments; so
    is what other sessions do to the table of accounts while a command works
    on it. *)

From S2P Require Import Prelude PyStr Json Exceptions ValueObjects Entities Policies Cache MemoryCache Database LinkRepo UserRepo Links Demo Sessions Auth AuthTheorems Admin AdminTheorems AdminClaims WebRequest WebAuth Csrf WebErrors AuthViews LinkViews AdminViews WebTheorems AuthViewClaims AdminViewClaims Mail DashboardViews.

(** ** Tokens *)

Section tokens.
Context {C : Type} `{CaseFolding} `{TokenCodec}.
Abbreviation P := (M (World C) exn).

(** [_would_the_service_accept], on what the token carries: the reason when
    it would not. *)
Definition would_the_service_accept (now : Z) (c : claims) (d : Database) : result exn (option pystr) :=
  user ← match cl_sub c with [] => Ok None | uid => find_user_by_id uid d end;
  match (user : option User) with
  | None => Ok (Some (lit "the account it names no longer exists"))
  | Some u =>
      if negb (user_is_active u) then Ok (Some (lit "the account it names is deactivated"))
      else if bool_decide (cl_type c = REFRESH) then
        match unless_empty (cl_jti c) with
        | None => Ok (Some (lit "it names no session, so nothing can retire it"))
        | Some token_id =>
            match find_by_token_id token_id (refresh_sessions d) with
            | None => Ok (Some (lit "the session it names is not on record"))
            | Some s => if negb (session_is_usable now s) then Ok (Some (lit "the session it names has ended")) else Ok None
            end
        end
      else
        match unless_empty (cl_sid c) with
        | None => Ok (Some (lit "it names no login, so nothing can revoke it"))
        | Some sid => if negb (chain_is_live now sid (refresh_sessions d)) then Ok (Some (lit "the login it came from has ended"))
                      else Ok None
        end
  end.

(** [flask security validate-token]: the exit code. *)
Definition security_validate_token (token : pystr) : P Z :=
  now ← now_utc;
  match validate_token now token None with
  | None => mret 1
  | Some c =>
      refusal ← with_uow (read (would_the_service_accept now c));
      refusal ← lift refusal;
      mret (match (refusal : option pystr) with Some _ => 1 | None => 0 end)
  end.

(** [flask security reset-password]: the account whose password was set and
    the sessions that were closed, which is also what the audit is told. *)
Context `{Bcrypt}.
Definition cli_reset_password (email new_password : pystr) : P (option (pystr * nat)) :=
  with_uow (
    e ← lift (new_Email email);
    found ← load (find_user_by_email e);
    match (found : option User) with
    | None => mret None
    | Some user =>
        revoked ← update_password user new_password;
        commit;;
        mret (Some (user_id user, revoked))
    end).

(** [flask maintenance clean-sessions], [clean-reset-tokens]. *)
Definition clean_expired_sessions : P nat :=
  now ← now_utc;
  with_uow (deleted ← update (on_sessions (delete_expired_sessions now)); commit;; mret deleted).
Definition clean_expired_password_resets : P nat :=
  now ← now_utc;
  with_uow (deleted ← update (delete_expired_resets now); commit;; mret deleted).
End tokens.

(** ** Addresses *)

Section addresses.
Context `{CaseFolding}.

Record Mixed := MkMixed { mx_id : pystr; mx_email : pystr; mx_clashes : bool }.

Definition lowers_to (target : pystr) (u : UserModel) : Prop := normalise (um_email u) = target.
#[global] Instance lowers_to_dec target u : Decision (lowers_to target u).
Proof. unfold lowers_to. apply _. Defined.

Definition find_addresses_needing_normalising (d : Database) : list Mixed :=
  let rows := merge_sort by_email (users d) in
  (λ u, MkMixed (um_id u) (um_email u) (bool_decide (1 < length (filter (lowers_to (normalise (um_email u))) rows))%nat))
  <$> filter (λ u, um_email u ≠ normalise (um_email u)) rows.

Definition with_email (e : pystr) (u : UserModel) : UserModel :=
  MkUserModel (um_id u) e (um_password_hash u) (um_roles u) (um_is_active u) (um_email_verified u) (um_created_at u) (um_last_login u).

(** [UPDATE users SET email = new WHERE id = uid AND email = stored], under
    the unique index of the address: [None] for the [IntegrityError], and the
    count otherwise. *)
Definition set_address (uid stored new : pystr) (t : list UserModel) : option (nat * list UserModel) :=
  let hit := λ u, um_id u = uid ∧ um_email u = stored in
  let n := length (filter hit t) in
  if decide (n ≠ 0%nat ∧ Exists (λ u, um_email u = new ∧ ¬ hit u) t) then None
  else Some (n, update_where hit (with_email new) t).

(** What goes wrong around one write besides the index: an interrupt, or an
    exception with the first line of its text, before the write is committed
    or after it was counted. *)
Inductive Trouble := Interrupted (counted : bool) | Failing (counted : bool) (text : pystr).

Record Normalised := MkNormalised {
  nd_changed : nat; nd_moved : nat; nd_refused : nat; nd_failed : nat; nd_reasons : list pystr;
}.
Definition none_yet : Normalised := MkNormalised 0 0 0 0 [].
Definition attempted (n : Normalised) : nat := (nd_changed n + nd_moved n + nd_refused n + nd_failed n)%nat.
Definition count_write (rows : nat) (n : Normalised) : Normalised :=
  if Nat.eqb rows 0 then MkNormalised (nd_changed n) (S (nd_moved n)) (nd_refused n) (nd_failed n) (nd_reasons n)
  else MkNormalised (S (nd_changed n)) (nd_moved n) (nd_refused n) (nd_failed n) (nd_reasons n).
Definition count_refused (n : Normalised) : Normalised :=
  MkNormalised (nd_changed n) (nd_moved n) (S (nd_refused n)) (nd_failed n) (nd_reasons n).
Definition count_failed (text : pystr) (n : Normalised) : Normalised :=
  MkNormalised (nd_changed n) (nd_moved n) (nd_refused n) (S (nd_failed n))
    (if decide (text ∈ nd_reasons n) then nd_reasons n else nd_reasons n ++ [text]).

Section loop.
Context (between : nat → list UserModel → list UserModel) (trouble : nat → option Trouble).

(** One transaction per address; [i] counts them.  Before each, others may
    have changed the table. *)
Fixpoint lower_all (i : nat) (doomed : list Mixed) (t : list UserModel) (n : Normalised) : list UserModel * Normalised :=
  match doomed with
  | [] => (t, n)
  | row :: rest =>
      let t := between i t in
      let next := lower_all (S i) rest in
      let wrote := set_address (mx_id row) (mx_email row) (normalise (mx_email row)) t in
      match trouble i, wrote with
      | Some (Interrupted false), _ => (t, n)
      | Some (Failing false text), _ => next t (count_failed text n)
      | Some (Interrupted true), Some (k, t') => (t', count_write k n)
      | Some (Failing true _), Some (k, t') => next t' (count_write k n)
      | _, None => next t (count_refused n)
      | None, Some (k, t') => next t' (count_write k n)
      end
  end.

(** [normalise_addresses]: the table, the counts, those skipped and those
    never attempted. *)
Definition normalise_addresses (rows : list Mixed) (t : list UserModel) : list UserModel * Normalised * nat * nat :=
  let doomed := filter (λ row, mx_clashes row = false) rows in
  let '(t, n) := lower_all 0 doomed t none_yet in
  (t, n, length rows - length doomed, length doomed - attempted n)%nat.
End loop.

(** The exit code of [flask maintenance normalize-emails --apply]. *)
Definition normalize_emails_exit (n : Normalised) (remaining : nat) : Z :=
  if negb (Nat.eqb (nd_failed n) 0) || negb (Nat.eqb (nd_refused n) 0) || negb (Nat.eqb remaining 0) then 1 else 0.
End addresses.

(** ** Secrets *)

Definition SECRET_FLOOR_BYTES : Z := 32.
Definition state_of (value : option pystr) : result exn pystr :=
  match value with
  | None | Some [] => Ok (lit "MISSING")
  | Some v =>
      match utf8_encode v with
      | None => Err (PyError UnicodeEncodeError)
      | Some bytes => Ok (if len bytes <? SECRET_FLOOR_BYTES then lit "WEAK" else lit "OK")
      end
  end.

(** [generate_secrets] with what was drawn for it. *)
Definition generate_secrets (key pepper : pystr) (service_passwords : option (pystr * pystr)) : list (pystr * pystr) :=
  [(lit "SECRET_KEY", key); (lit "SHORT_CODE_PEPPER", pepper)] ++
  match service_passwords with
  | Some (database, redis) => [(lit "DATABASE_PASSWORD", database); (lit "REDIS_PASSWORD", redis)]
  | None => []
  end.

(** [splitlines(keepends=True)] of a text whose line ends were read as one
    character each. *)
Fixpoint lines_keep (s : pystr) : list pystr :=
  match s with
  | [] => []
  | c :: s' =>
      if is_line_break c then [c] :: lines_keep s'
      else match lines_keep s' with [] => [[c]] | l :: ls => (c :: l) :: ls end
  end.

(** The name a line sets, and to what. *)
Definition line_name (line : pystr) : pystr :=
  let '(name, found, _) := partition_at 61 line in if found then strip name else [].
Definition line_value (line : pystr) : pystr := strip (partition_at 61 line).2.

(** The first line that sets a name. *)
Definition seen_at (name : pystr) (lines : list pystr) : option nat :=
  fst <$> list_find (λ l, line_name l = name) lines.

Definition ends_line (l : pystr) : bool := endswith [10] l.
Definition put_secret (seen : option nat) (lines : list pystr) (secret : pystr * pystr) : list pystr :=
  let '(name, value) := secret in
  match seen with
  | Some i => alter (λ l, name ++ [61] ++ value ++ if ends_line l then [10] else []) i lines
  | None =>
      match list.last lines with
      | Some l => if ends_line l then lines else removelast lines ++ [l ++ [10]]
      | None => lines
      end ++ [name ++ [61] ++ value ++ [10]]
  end.

(** What is in the file afterwards; the names that are taken when it is
    refused. *)
Definition write_secrets (force : bool) (fresh : list (pystr * pystr)) (text : pystr) : pystr + list pystr :=
  let lines := lines_keep text in
  let seen := (λ f, (f, seen_at f.1 lines)) <$> fresh in
  let taken := omap (λ f, i ← f.2; l ← lines !! i; if decide (line_value l = []) then None else Some f.1.1) seen in
  if negb force && bool_decide (taken ≠ []) then inr (sorted taken)
  else inl (concat (foldl (λ lines f, put_secret f.2 lines f.1) lines seen)).

(** * What is claimed of the operator's commands *)

(** ** Tokens *)

Section tokens.
Context {C : Type} `{CaseFolding} `{TokenCodec}.
Implicit Types (s : Web C).

(** The command that tells whether a token would open a request says so
    exactly when the service would: an access token it passes identifies the
    caller of a request that presents it, and one it turns down does not. *)
Theorem the_token_command_judges_like_the_service r s token source c found :
  startswith STATIC_PREFIX (rq_path r) = false → credential r = Some (token, source) →
  jwt_decode (w_now (wb_world s)) token = Some c → cl_type c = ACCESS →
  find_user_by_id (cl_sub c) (w_db (wb_world s)) = Ok found →
  ∃ code, security_validate_token token (wb_world s) = (Ok code, wb_world s) ∧
    (code = 0 ↔ g_current_user (wb_g (load_current_user r s).2) ≠ None).
Proof.
  intros Hp Hc Hj Ht Hf. rewrite (run_load_current_user r s Hp) /standing_of Hc /validate_token Hj.
  cbn [snd wb_g]. rewrite decide_True //. destruct s as [g w]. cbn [wb_world wb_g] in *.
  rewrite /security_validate_token {1}/mbind {1}/M_bind /= /validate_token Hj.
  rewrite {1}/mbind {1}/M_bind run_read /would_the_service_accept Ht (bool_decide_eq_false_2 (ACCESS = REFRESH)) //.
  change (unless_empty (cl_sid c)) with (truthy (cl_sid c)).
  destruct (cl_sub c) as [|x uid] eqn:Hsub; simpl.
  { eexists. split; [done|]. by destruct (truthy (cl_sid c)). }
  rewrite Hf /=. destruct found as [u|]; simpl.
  2: { eexists. split; [done|]. destruct (truthy (cl_sid c)); [|done]. by destruct (chain_is_live _ _ _). }
  destruct (user_is_active u) eqn:Hact; simpl.
  2: { eexists. split; [done|]. destruct (truthy (cl_sid c)); [|done]. by destruct (chain_is_live _ _ _). }
  destruct (truthy (cl_sid c)) as [sid|]; simpl; [|by eexists].
  destruct (chain_is_live (w_now w) sid (refresh_sessions (w_db w))) eqn:Hl; simpl; eexists; (split; [done|]); done.
Qed.
End tokens.

(** ** Addresses *)

Section addresses.
Context `{CaseFolding}.
(** Lower case is settled after one go. *)
Hypothesis settled : ∀ x, normalise (normalise x) = normalise x.

Lemma one_member {A} (P : A → Prop) `{∀ x, Decision (P x)} (l : list A) a b :
  (length (filter P l) <= 1)%nat → a ∈ l → b ∈ l → P a → P b → a = b.
Proof.
  intros Hlen Ha Hb Pa Pb. assert (a ∈ filter P l) as Ia by by apply list_elem_of_filter.
  assert (b ∈ filter P l) as Ib by by apply list_elem_of_filter.
  destruct (filter P l) as [|x [|y k]]; [by apply elem_of_nil in Ia| |simpl in Hlen; lia].
  apply list_elem_of_singleton in Ia, Ib. congruence.
Qed.

(** An address that can be lowered: nobody else's lowers to the same. *)
Definition alone (us : list UserModel) (u : UserModel) : Prop :=
  (length (filter (lowers_to (normalise (um_email u))) us) <= 1)%nat.
Definition fixable (us : list UserModel) (u : UserModel) : Prop := um_email u ≠ normalise (um_email u) ∧ alone us u.
#[global] Instance alone_dec us u : Decision (alone us u).
Proof. unfold alone. apply _. Defined.
#[global] Instance fixable_dec us u : Decision (fixable us u).
Proof. unfold fixable. apply _. Defined.

(** The table with the addresses of some accounts lowered. *)
Definition lowered (us : list UserModel) (D : list pystr) : list UserModel :=
  (λ u, if decide (um_id u ∈ D) then with_email (normalise (um_email u)) u else u) <$> us.
Definition mixed_row (u : UserModel) : Mixed := MkMixed (um_id u) (um_email u) false.

Lemma same_id us (a b : UserModel) : NoDup (um_id <$> us) → a ∈ us → b ∈ us → um_id a = um_id b → a = b.
Proof.
  intros Hnd [i Hi]%list_elem_of_lookup [j Hj]%list_elem_of_lookup Heq.
  assert (i = j) as ->; [|congruence]. apply (NoDup_lookup (um_id <$> us) i j (um_id a)); [done|..];
    rewrite list_lookup_fmap; [by rewrite Hi|by rewrite Hj /= Heq].
Qed.

(** Writing one address on the way. *)
Lemma set_address_step us D u : NoDup (um_id <$> us) → u ∈ us → fixable us u → um_id u ∉ D →
  set_address (um_id u) (um_email u) (normalise (um_email u)) (lowered us D) = Some (1%nat, lowered us (um_id u :: D)).
Proof.
  intros Hnd Hu [Hmix Hal] HD. rewrite /set_address.
  set (hit := λ x, um_id x = um_id u ∧ um_email x = um_email u).
  assert (∀ v, v ∈ us → um_id v = um_id u → v = u) as Hsame by (intros; by eapply same_id).
  assert (∀ v, v ∈ us → hit (if decide (um_id v ∈ D) then with_email (normalise (um_email v)) v else v) ↔ v = u) as Hhit.
  { intros v Hv. rewrite /hit. split; [|intros ->; by rewrite decide_False].
    intros [Hid _]. apply Hsame; [done|]. by case_decide. }
  assert (length (filter hit (lowered us D)) = 1%nat) as Hcount.
  { rewrite /lowered. clear Hal HD Hsame. revert Hnd Hu Hhit. induction us as [|v us IH]; intros Hnd Hu Hhit; [by apply elem_of_nil in Hu|].
    apply list.NoDup_cons in Hnd as [Hnot Hnd]. rewrite fmap_cons. destruct (decide (v = u)) as [->|Hne].
    - rewrite filter_cons_True; [|apply Hhit; [by left|done]]. rewrite filter_none //.
      intros x (w & -> & Hw)%list_elem_of_fmap Hx. apply Hhit in Hx; [|by right]. subst w. apply Hnot. by apply list_elem_of_fmap_2.
    - rewrite filter_cons_False; [|intros Hx; apply Hne, Hhit; [by left|done]].
      apply IH; [done| |intros w Hw; apply Hhit; by right]. by apply elem_of_cons in Hu as [->|]. }
  rewrite decide_False.
  2: { intros [_ (x & (v & -> & Hv)%list_elem_of_fmap & He & Hx)%list.Exists_exists]. apply Hx, Hhit; [done|].
       apply (one_member (lowers_to (normalise (um_email u))) us); [done..| |done]. rewrite /lowers_to.
       revert He. case_decide; simpl; [done|]. intros ->. apply settled. }
  rewrite Hcount. f_equal. f_equal. rewrite /update_where /lowered -list_fmap_compose. apply list_fmap_ext.
  intros i v Hv. apply list_elem_of_lookup_2 in Hv. simpl. destruct (decide (v = u)) as [->|Hne].
  - rewrite decide_True; [|by apply Hhit]. rewrite (decide_False (P := um_id u ∈ D)) //. by rewrite decide_True; [|left].
  - rewrite decide_False; [|by intros ?%Hhit]. apply decide_ext. split; [by right|].
    intros [Heq|]%elem_of_cons; [|done]. by destruct Hne; apply Hsame.
Qed.

Lemma lower_all_quiet us (todo : list UserModel) D i n : NoDup (um_id <$> us) → (∀ u, u ∈ todo → u ∈ us ∧ fixable us u) →
  NoDup (um_id <$> todo) → (∀ u, u ∈ todo → um_id u ∉ D) →
  ∃ D', lower_all (λ _ t, t) (λ _, None) i (mixed_row <$> todo) (lowered us D) n =
    (lowered us D', MkNormalised (length todo + nd_changed n) (nd_moved n) (nd_refused n) (nd_failed n) (nd_reasons n)) ∧
    ∀ x, x ∈ D' ↔ x ∈ D ∨ x ∈ um_id <$> todo.
Proof.
  intros Hnd. revert D i n. induction todo as [|u todo IH]; intros D i n Hin Hids HD.
  { exists D. destruct n. split; [done|]. set_solver. }
  rewrite fmap_cons in Hids. apply list.NoDup_cons in Hids as [Hnot Hids].
  destruct (Hin u) as [Hu Hfix]; [by left|].
  rewrite fmap_cons. cbn [lower_all mixed_row mx_id mx_email]. rewrite set_address_step //; [|apply HD; by left].
  destruct (IH (um_id u :: D) (S i) (count_write 1 n)) as (D' & -> & HD').
  - intros v Hv. apply Hin. by right.
  - done.
  - intros v Hv. apply not_elem_of_cons. split; [|apply HD; by right]. intros Heq. apply Hnot. rewrite -Heq.
    by apply list_elem_of_fmap_2.
  - exists D'. split; [f_equal; simpl; f_equal; lia|]. intros x. rewrite HD' fmap_cons !elem_of_cons. naive_solver.
Qed.

Lemma alone_sorted (us : list UserModel) u :
  length (filter (lowers_to (normalise (um_email u))) (merge_sort by_email us)) =
  length (filter (lowers_to (normalise (um_email u))) us).
Proof. apply Permutation_length, filter_Permutation, merge_sort_Permutation. Qed.

Lemma doomed_rows d :
  filter (λ row, mx_clashes row = false) (find_addresses_needing_normalising d) =
  mixed_row <$> filter (fixable (users d)) (merge_sort by_email (users d)).
Proof.
  rewrite /find_addresses_needing_normalising.
  assert (∀ l : list UserModel, filter (λ row, mx_clashes row = false)
    ((λ u, MkMixed (um_id u) (um_email u) (bool_decide (1 < length (filter (lowers_to (normalise (um_email u)))
       (merge_sort by_email (users d))))%nat)) <$> filter (λ u, um_email u ≠ normalise (um_email u)) l) =
    mixed_row <$> filter (fixable (users d)) l) as Hl; [|apply Hl].
  induction l as [|u l IH]; [done|]. destruct (decide (um_email u = normalise (um_email u))) as [E|E].
  - rewrite filter_cons_False; [|by intros Hn]. rewrite IH filter_cons_False; [done|]. by intros [Hn _].
  - rewrite (filter_cons_True (λ u, um_email u ≠ normalise (um_email u))) // fmap_cons.
    destruct (decide (alone (users d) u)) as [Ha|Ha].
    + assert (bool_decide (1 < length (filter (lowers_to (normalise (um_email u))) (merge_sort by_email (users d))))%nat = false) as Hb.
      { apply bool_decide_eq_false_2. rewrite alone_sorted. rewrite /alone in Ha. lia. }
      rewrite filter_cons_True; [|done]. rewrite IH Hb filter_cons_True; [done|by split].
    + assert (bool_decide (1 < length (filter (lowers_to (normalise (um_email u))) (merge_sort by_email (users d))))%nat = true) as Hb.
      { apply bool_decide_eq_true_2. rewrite alone_sorted. rewrite /alone in Ha. lia. }
      rewrite filter_cons_False; [|by rewrite /= Hb]. rewrite IH filter_cons_False; [done|by intros [_ Hn]].
Qed.

Lemma lower_all_counts between trouble i doomed t n :
  (attempted (lower_all between trouble i doomed t n).2 <= attempted n + length doomed)%nat.
Proof.
  revert i t n. induction doomed as [|row doomed IH]; intros i t n; simpl; [lia|].
  assert (∀ k, attempted (count_write k n) = S (attempted n)) as Hw by (intros []; rewrite /attempted /=; lia).
  assert (attempted (count_refused n) = S (attempted n)) as Hr by (rewrite /attempted /=; lia).
  assert (∀ text, attempted (count_failed text n) = S (attempted n)) as Hf by (intros text; rewrite /attempted /=; lia).
  destruct (trouble i) as [[[]|[] text]|], (set_address (mx_id row) (mx_email row) (normalise (mx_email row)) (between i t)) as [[k t']|]; simpl;
    try (etrans; [apply IH|rewrite ?Hw ?Hr ?Hf; lia]); rewrite ?Hw; lia.
Qed.

(** C34: Lowering the stored addresses changes the address of exactly the
    accounts whose address is not in lower case and lowers to nobody else's,
    and nothing else of them; accounts that clash are left alone, so no two
    accounts come to share an address and nothing is refused; the command
    exits with 0.  And whatever else happens to the table or goes wrong in
    between, every address that was listed is accounted for once. *)
Theorem addresses_are_lowered_without_merging d between trouble :
  NoDup (um_id <$> users d) → NoDup (um_email <$> users d) →
  (let '(t, n, skipped, remaining) := normalise_addresses (λ _ t, t) (λ _, None) (find_addresses_needing_normalising d) (users d) in
   t = ((λ u, if decide (fixable (users d) u) then with_email (normalise (um_email u)) u else u) <$> users d) ∧
   NoDup (um_email <$> t) ∧ nd_moved n = 0%nat ∧ normalize_emails_exit n remaining = 0) ∧
  let '(_, n, skipped, remaining) := normalise_addresses between trouble (find_addresses_needing_normalising d) (users d) in
  (attempted n + skipped + remaining = length (find_addresses_needing_normalising d))%nat.
Proof.
  intros Hids Hemails. split.
  - rewrite /normalise_addresses doomed_rows length_fmap.
    set (todo := filter (fixable (users d)) (merge_sort by_email (users d))).
    assert (∀ u, u ∈ todo ↔ u ∈ users d ∧ fixable (users d) u) as Htodo.
    { intros u. rewrite list_elem_of_filter (merge_sort_Permutation by_email (users d)). naive_solver. }
    assert (NoDup (um_id <$> todo)) as Hnd.
    { apply NoDup_fmap_2_strong.
      - intros u v [Hu _]%Htodo [Hv _]%Htodo. by apply (same_id (users d)).
      - apply list.NoDup_filter. rewrite merge_sort_Permutation. by eapply NoDup_fmap_1. }
    assert (lowered (users d) [] = users d) as H0.
    { rewrite /lowered -{2}(list_fmap_id (users d)). apply list_fmap_ext. intros i u _. done. }
    destruct (lower_all_quiet (users d) todo [] 0 none_yet) as (D' & Hrun & HD'); [done| |done|set_solver|].
    { intros u Hu. by apply Htodo. }
    rewrite H0 in Hrun. rewrite Hrun. split_and!.
    + rewrite /lowered. apply list_fmap_ext. intros i u Hu%list_elem_of_lookup_2. apply decide_ext. rewrite HD'. split.
      * intros [?|(v & Hid & Hv%Htodo)%list_elem_of_fmap]; [set_solver|]. destruct Hv as [Hv Hf].
        by rewrite (same_id (users d) u v).
      * intros Hf. right. apply list_elem_of_fmap_2, Htodo. done.
    + rewrite /lowered -list_fmap_compose. apply NoDup_fmap_2_strong; [|by eapply NoDup_fmap_1].
      assert (∀ u, u ∈ users d → um_id u ∈ D' → alone (users d) u) as Hal.
      { intros u Hu [?|(v & Hid & Hv%Htodo)%list_elem_of_fmap]%HD'; [set_solver|]. destruct Hv as [Hv [_ Hf]].
        by rewrite (same_id (users d) u v). }
      assert (∀ u v, u ∈ users d → v ∈ users d → um_id u ∈ D' →
        normalise (um_email u) = um_email (if decide (um_id v ∈ D') then with_email (normalise (um_email v)) v else v) → u = v) as Hone.
      { intros u v Hu Hv HuD He. apply (one_member (lowers_to (normalise (um_email u))) (users d)); [by apply Hal|done..|].
        rewrite /lowers_to. revert He. case_decide; simpl; [done|]. intros <-. apply settled. }
      intros u v Hu Hv. simpl. destruct (decide (um_id u ∈ D')) as [HuD|HuD]; simpl; [by apply Hone|].
      case_decide as HvD; simpl.
      * intros He. symmetry. apply Hone; [done..|]. by rewrite decide_False.
      * intros He. apply list_elem_of_lookup in Hu as [i Hi]. apply list_elem_of_lookup in Hv as [j Hj].
        assert (i = j) as ->; [|congruence]. apply (NoDup_lookup (um_email <$> users d) i j (um_email u)); [done|..];
          rewrite list_lookup_fmap; [by rewrite Hi|by rewrite Hj /= He].
    + done.
    + rewrite /normalize_emails_exit /attempted /=. by replace (length todo - (length todo + 0 + 0 + 0 + 0))%nat with 0%nat by lia.
  - rewrite /normalise_addresses. set (rows := find_addresses_needing_normalising d).
    pose proof (lower_all_counts between trouble 0 (filter (λ row, mx_clashes row = false) rows) (users d) none_yet) as Hn.
    destruct (lower_all _ _ _ _ _ _) as [t n]. simpl in *.
    pose proof (length_filter (λ row, mx_clashes row = false) rows). rewrite /attempted /= in Hn. rewrite /attempted. lia.
Qed.
End addresses.

Module OperationDemo.
Import Demo AdminDemo AdminViewDemo.
#[local] Existing Instances Demo.folding AdminViewDemo.codec.

Definition carried : claims := default (MkClaims [] [] 0 0 [] None None) (jwt_decode 1 (lit "u1")).
Definition owner : option User :=
  match find_user_by_id (cl_sub carried) (w_db two_logins) with Ok u => u | Err _ => None end.
Lemma owner_found : find_user_by_id (cl_sub carried) (w_db two_logins) = Ok owner.
Proof. vm_compute. reflexivity. Qed.

Lemma the_token_command_judges_like_the_service_witness :
  ∃ code, security_validate_token (lit "u1") two_logins = (Ok code, two_logins) ∧
    (code = 0 ↔ g_current_user (wb_g (load_current_user (sent_by "u1") (MkWeb empty_g two_logins)).2) ≠ None).
Proof.
  apply (the_token_command_judges_like_the_service (sent_by "u1") (MkWeb empty_g two_logins) (lit "u1") AUTH_SOURCE_HEADER
    carried owner).
  - vm_compute. reflexivity.
  - vm_compute. reflexivity.
  - vm_compute. reflexivity.
  - vm_compute. reflexivity.
  - exact owner_found.
Defined.

(** One address to lower, and two that clash. *)
Definition account (id email : string) : UserModel := MkUserModel (lit id) (lit email) [] [] true true 0 None.
Definition mixed : Database := set_users [account "u1" "Ann@maiz.link"; account "u2" "bob@maiz.link"; account "u3" "BOB@maiz.link"] empty_db.
Definition ran := normalise_addresses (λ _ t, t) (λ _, None) (find_addresses_needing_normalising mixed) (users mixed).

Lemma addresses_are_lowered_without_merging_witness :
  um_email <$> ran.1.1.1 = [lit "ann@maiz.link"; lit "bob@maiz.link"; lit "BOB@maiz.link"] ∧ NoDup (um_email <$> ran.1.1.1).
Proof.
  split; [vm_compute; reflexivity|].
  assert (∀ x, normalise (normalise x) = normalise x) as Hsettled.
  { assert (∀ y, normalise y = ascii_lower <$> y) as Hl by (intros y; rewrite /normalise /lower; by destruct (isascii y)).
    intros x. rewrite !Hl -list_fmap_compose. apply list_fmap_ext. intros i c _. apply ascii_lower_idemp. }
  destruct (addresses_are_lowered_without_merging Hsettled mixed (λ _ t, t) (λ _, None)
    ltac:(apply (bool_decide_unpack _); vm_compute; exact I) ltac:(apply (bool_decide_unpack _); vm_compute; exact I)) as [Hq _].
  change (normalise_addresses (λ _ t, t) (λ _, None) (find_addresses_needing_normalising mixed) (users mixed)) with ran in Hq.
  destruct ran as [[[t n] k] m]. exact (proj1 (proj2 Hq)).
Defined.

(** A name that is set on two lines: the first is filled in, and the one that
    readers of the file go by keeps what it had. *)
Definition NAME : pystr := lit "SECRET_KEY".
Example a_second_line_keeps_the_old_secret :
  write_secrets false [(NAME, lit "fresh")] (NAME ++ [61; 10] ++ NAME ++ lit "=old" ++ [10]) =
  inl (NAME ++ lit "=fresh" ++ [10] ++ NAME ++ lit "=old" ++ [10]).
Proof. vm_compute. reflexivity. Qed.

Example secrets_are_added_and_filled_in :
  write_secrets false [(NAME, lit "k"); (lit "SHORT_CODE_PEPPER", lit "p")] (lit "PORT=1" ++ [10] ++ NAME ++ lit " = ") =
    inl (lit "PORT=1" ++ [10] ++ NAME ++ lit "=k" ++ [10] ++ lit "SHORT_CODE_PEPPER=p" ++ [10]) ∧
  write_secrets false [(NAME, lit "k")] (NAME ++ lit "=old") = inr [NAME].
Proof. vm_compute. split; reflexivity. Qed.
End OperationDemo.
