(* ===== verification/Commands.v ===== *)
(** * The command line

    [infrastructure/cli/adapters/flask.py] and [reporting.py] over
    [cli/commands/] ([admin.py], [link.py], [stats.py], [cache.py],
    [database.py], [maintenance.py], [security.py]), and the use case of
    [admin/database/seed_database.py].

    A command runs over a [Shell]: the world of the service, and the lines it
    wrote with the stream each went to.  It ends normally, with an exit code,
    by the operator's refusal of a prompt, by a usage error, or with an
    exception nobody caught.  What the operator types is the class [Terminal]
    (click's prompts: an answer is never empty, and there may be none); the
    sentence of an exception is [str_exn]. *)

From S2P Require Import Prelude PyStr Exceptions ValueObjects Entities Policies CodeGen Cache MemoryCache Database LinkRepo RedisCache RedisTheorems UserRepo Visitor RollUp Visits Links Stats Demo LinkTheorems Sessions RateLimit Auth AuthTheorems AuthClaims Admin AdminTheorems AdminClaims AdminViews Health Operations.

(** ** Wording *)

Definition ends_in_hiss (noun : pystr) : bool :=
  existsb (λ e, endswith (lit e) noun) ["s"; "x"; "z"; "ch"; "sh"]%string.
Definition counted (number : Z) (noun : string) : pystr :=
  str_of_Z number ++ [32] ++ lit noun ++
  if number =? 1 then [] else if ends_in_hiss (lit noun) then lit "es" else lit "s".

Definition were (number : Z) : pystr := if number =? 1 then lit "was" else lit "were".

(** The day of a moment in the proleptic Gregorian calendar: year, month, day.
    A year of the count begins in March, so that a leap day ends one. *)
Definition civil (t : Z) : Z * Z * Z :=
  let z := t / DAY + 719468 in
  let era := z / 146097 in
  let doe := z mod 146097 in
  let yoe := (doe - doe / 1460 + doe / 36524 - doe / 146096) / 365 in
  let doy := doe - (365 * yoe + yoe / 4 - yoe / 100) in
  let mp := (5 * doy + 2) / 153 in
  let d := doy - (153 * mp + 2) / 5 + 1 in
  let m := if mp <? 10 then mp + 3 else mp - 9 in
  (yoe + era * 400 + (if m <=? 2 then 1 else 0), m, d).

Definition two_digits (n : Z) : pystr := (if n <? 10 then [48] else []) ++ str_of_Z n.
Definition four_digits (n : Z) : pystr :=
  let s := str_of_Z n in replicate (4 - length s) 48 ++ s.
Definition date_text (t : Z) : pystr :=
  let '(y, m, d) := civil t in four_digits y ++ [45] ++ two_digits m ++ [45] ++ two_digits d.

(** [_as_moment], with [UTC_SECONDS] for its format. *)
Definition as_moment (when_ : option Z) : pystr :=
  match when_ with
  | None => lit "unknown"
  | Some t =>
      let second := t mod DAY / 1000000 in
      date_text t ++ lit "T" ++ two_digits (second / 3600) ++ [58] ++ two_digits (second / 60 mod 60) ++ [58] ++
      two_digits (second mod 60) ++ lit "Z"
  end.

(** A figure that is a number of hundredths, as Python writes the double. *)
Definition hundredths_text (n : Z) : pystr :=
  str_of_Z (n / 100) ++ [46] ++
  if n mod 10 =? 0 then str_of_Z (n mod 100 / 10) else two_digits (n mod 100).

Definition bool_text (b : bool) : pystr := if b then lit "True" else lit "False".
Definition padded (width : nat) (s : pystr) : pystr := s ++ replicate (width - length s) 32.

Definition TABS : pystr := [9; 9; 9].
Definition rule (n : nat) : pystr := replicate n 61.
Definition RULE : pystr := rule 80.

(** ** Running a command *)

Record Line := MkLine { ln_err : bool; ln_text : pystr }.
Record Shell (C : Type) := MkShell { sh_world : World C; sh_lines : list Line }.
Arguments MkShell {C}.
Arguments sh_world {C}.
Arguments sh_lines {C}.

Inductive stop := SystemExit (code : Z) | Aborted | UsageError | Uncaught (e : exn).
#[global] Instance stop_eq_dec : EqDecision stop.
Proof. solve_decision. Defined.

(** The status the process ends with. *)
Definition status {A} (r : result stop A) : Z :=
  match r with
  | Ok _ => 0
  | Err (SystemExit code) => code
  | Err Aborted => 1
  | Err UsageError => 2
  | Err (Uncaught _) => 1
  end.

(** What click gets from the operator: [None] when the input ends or is
    interrupted. *)
Class Terminal := MkTerminal {
  prompt : string → option pystr;
  confirmed : string → bool;
}.
Class TerminalLaws `{Terminal} : Prop := prompt_not_empty question : prompt question ≠ Some [].

Section shell.
Context {C : Type} (str_exn : exn → pystr).
Abbreviation T := (M (Shell C) stop).
Abbreviation P := (M (World C) exn).

Definition say (err : bool) (text : pystr) : T unit :=
  modify (λ s, MkShell (sh_world s) (sh_lines s ++ [MkLine err text])).
Definition echo (text : pystr) : T unit := say false text.
Definition echo_err (text : pystr) : T unit := say true text.

(** A call of the service. *)
Definition run {A} (m : P A) : T A := λ s,
  let '(r, w) := m (sh_world s) in
  (match r with Ok a => Ok a | Err e => Err (Uncaught e) end, MkShell w (sh_lines s)).

Definition refuse {A} (text : pystr) : T A := echo_err text;; raise (SystemExit 1).

(** [except Exception]: neither an exit nor an abort. *)
Definition catch {A} (m : T A) (h : exn → T A) : T A :=
  try_except m (λ x, match x with Uncaught e => h e | _ => raise x end).

(** [ReportingGroup.invoke]. *)
Definition reporting {A} (m : T A) : T A :=
  catch m (λ e, if is_domain_error e then refuse ([10] ++ str_exn e) else raise (Uncaught e)).

(** [_asked_for_or_refused]. *)
Context `{Terminal}.
Definition given (value : option pystr) : bool := match value with None | Some [] => false | Some _ => true end.
Definition or_asked (value : option pystr) (question : string) : T pystr :=
  match value with
  | Some ((_ :: _) as v) => mret v
  | _ => match prompt question with Some v => mret v | None => raise Aborted end
  end.
Definition asked_for_or_refused (email password : option pystr) (non_interactive : bool) : T (pystr * pystr) :=
  let missing := fst <$> filter (λ part, given part.2 = false) [(lit "--email", email); (lit "--password", password)] in
  if bool_decide (missing ≠ []) && non_interactive
  then refuse (join (lit " and ") missing ++ lit " required with --non-interactive")
  else
    email ← or_asked email "Email";
    password ← or_asked password "Password";
    mret (email, password).
End shell.

Definition cli_context (request_id : string) : RequestContext := MkRequestContext (lit request_id) None None None.

(** ** The commands *)

(** [CacheMaintenance]: what the port adds for the operator.  The answer of
    [get_cache_info] is a report, or the text under its [error] key. *)
Class CacheMaintenance (C : Type) := MkCacheMaintenance {
  cache_is_configured : C → bool;
  cache_clear_all : C → C;
  cache_report : Z → C → (list (pystr * pystr) + pystr) * C;
}.

(** The in-process cache: no service to reach, and four figures. *)
Definition InMemory_maintenance {Stats} (settings : CacheSettings) : CacheMaintenance (InMemoryLinkCache Stats) := {|
  cache_is_configured _ := false;
  cache_clear_all := MemoryCache.clear_all;
  cache_report now c :=
    let '(links, redirects, has_stats, keys, c) := MemoryCache.get_cache_info settings now c in
    let figure (n : nat) := str_of_Z (Z.of_nat n) in
    (inl [(lit "link_count", figure links); (lit "redirect_count", figure redirects);
          (lit "has_stats", bool_text has_stats); (lit "total_keys", figure keys)], c);
|}.

Section commands.
Context {C : Type} `{ServiceCache C StatsDict} `{!CacheMaintenance C} `{UrlRules} `{CodeGenerator} `{HashCalculator} `{CaseFolding} `{WordChars} `{UuidSupply} `{IsoFormat}.
Context `{Bcrypt} `{Terminal}.
Context (str_exn : exn → pystr) (links : LinkSettings) (accounts : AuthSettings).
Abbreviation T := (M (Shell C) stop).
Abbreviation P := (M (World C) exn).
Abbreviation refuse := (refuse (C := C)).
Abbreviation echo := (echo (C := C)).
Abbreviation echo_err := (echo_err (C := C)).

(** *** Accounts *)

Definition roles_for (role_names : list pystr) : P (list Role) :=
  try_except (resolve_roles role_names [])
    (λ e, match e with RoleNotFoundError _ => raise (PyError RuntimeError) | _ => raise e end).

(** [commands/admin.py]. *)
Definition create_user_logic (email password : pystr) (role_names : list pystr) : P User :=
  user ← with_uow (
    roles ← roles_for role_names;
    user ← service_create_user accounts email password (Some roles) true;
    commit;;
    mret user);
  audit (UserCreated (user_id user) (em_value (user_email user)) (role_name <$> user_roles user));;
  mret user.

Definition create_account (email password role : pystr) (noun failing : string) : T unit :=
  user ← catch (run (create_user_logic email password [role]))
           (λ e, refuse (lit "Failed to create " ++ lit failing ++ lit ": " ++ str_exn e));
  echo (lit noun ++ [32] ++ em_value (user_email user) ++ lit " created successfully (active: " ++
        bool_text (user_is_active user) ++ lit ").").

Definition create_admin (email password : option pystr) (non_interactive : bool) : T unit :=
  pair ← asked_for_or_refused email password non_interactive;
  create_account pair.1 pair.2 (lit "admin") "Admin user" "admin user".
Definition create_user_command (email password : option pystr) (role : pystr) (non_interactive : bool) : T unit :=
  pair ← asked_for_or_refused email password non_interactive;
  create_account pair.1 pair.2 role "User" "user".

(** [security reset-password]; the audit is told after the commit. *)
Definition reset_password_logic (email new_password : pystr) : P (option nat) :=
  done ← cli_reset_password email new_password;
  match (done : option (pystr * nat)) with
  | None => mret None
  | Some (uid, revoked) => audit (UserPasswordReset uid revoked);; mret (Some revoked)
  end.
Definition security_reset_password (email password : option pystr) (non_interactive : bool) : T unit :=
  reporting str_exn (
    pair ← asked_for_or_refused email password non_interactive;
    revoked ← run (reset_password_logic pair.1 pair.2);
    match (revoked : option nat) with
    | None => refuse (lit "User " ++ pair.1 ++ lit " not found.")
    | Some n => echo (lit "Password reset successfully for " ++ pair.1 ++ lit "; sessions closed: " ++ str_of_Z (Z.of_nat n))
    end).

(** [list_all] answers one page of a hundred unless it is told otherwise. *)
Definition security_list_users : T unit :=
  reporting str_exn (
    found ← run (with_uow (read (list_all_users 100 0)));
    users ← run (lift found);
    match (users : list User) with
    | [] => echo (lit "No users found.")
    | _ =>
        echo ([10] ++ padded 36 (lit "ID") ++ [32] ++ padded 30 (lit "Email") ++ [32] ++ padded 8 (lit "Active") ++ [32] ++
              padded 10 (lit "Confirmed") ++ lit " Roles");;
        echo (rule 110);;
        for_each (λ u : User,
          echo (padded 36 (user_id u) ++ [32] ++ within (em_value (user_email u)) 30 ++ [32] ++
                padded 8 (bool_text (user_is_active u)) ++ [32] ++ padded 10 (bool_text (user_email_verified u)) ++ [32] ++
                (if decide (user_roles u = []) then lit "none" else join (lit ", ") (role_name <$> user_roles u)))) users
    end).
Definition security_list_roles : T unit :=
  reporting str_exn (
    roles ← run list_roles;
    match (roles : list Role) with
    | [] => echo (lit "No roles found.")
    | _ =>
        echo ([10] ++ padded 36 (lit "ID") ++ [32] ++ padded 20 (lit "Name") ++ [32] ++ padded 30 (lit "Description") ++
              lit " Permissions");;
        echo (rule 120);;
        for_each (λ r : Role,
          echo (padded 36 (role_id r) ++ [32] ++ padded 20 (role_name r) ++ [32] ++ within (default [] (role_description r)) 30 ++ [32] ++
                (if decide (role_permissions r = []) then lit "none" else join (lit ", ") (perm_name <$> role_permissions r)))) roles
    end).

(** *** Links *)

Definition link_delete (short_code : pystr) : T unit :=
  reporting str_exn (
    deleted ← run (delete_link short_code (cli_context "cli-delete") false None);
    if (deleted : bool) then
      echo RULE;; echo (TABS ++ lit "Link '" ++ short_code ++ lit "' has been deleted");; echo RULE
    else refuse (lit "Link '" ++ short_code ++ lit "' not found or invalid.")).

Definition link_info_logic (short_code : pystr) : P (option ShortLinkResponse) :=
  try_except (info ← get_link_info links short_code; mret (Some info))
    (λ e, match e with LinkNotFoundError _ => mret None | _ => raise e end).
Definition link_info (short_code : pystr) : T unit :=
  reporting str_exn (
    info ← catch (run (link_info_logic short_code))
      (λ e, match e with
            | LinkExpiredError _ => refuse (lit "Link '" ++ short_code ++ lit "' has expired and is no longer served. `flask maintenance clean-expired` removes it.")
            | _ => raise (Uncaught e)
            end);
    match (info : option ShortLinkResponse) with
    | None => refuse (lit "Link '" ++ short_code ++ lit "' not found.")
    | Some i =>
        echo ([10] ++ TABS ++ lit "Link: " ++ slr_short_code i);;
        echo RULE;;
        echo (TABS ++ lit "Original URL: " ++ slr_original_url i);;
        echo (TABS ++ lit "Clicks: " ++ str_of_Z (slr_clicks i));;
        echo (TABS ++ lit "Created: " ++ as_moment (Some (slr_created_at i)));;
        echo (TABS ++ lit "Last accessed: " ++ match slr_last_accessed i with Some t => as_moment (Some t) | None => lit "never" end);;
        echo RULE
    end).

(** [--limit] is an [IntRange(min=1)]: anything less is a usage error. *)
Definition link_list (limit : Z) : T unit :=
  if limit <? 1 then raise UsageError else
  reporting str_exn (
    found ← run (get_recent_links (Z.to_nat limit));
    match (found : list Link) with
    | [] => echo (lit "No links found.")
    | _ =>
        echo ([10] ++ TABS ++ lit "Recent " ++ counted (len found) "link" ++ lit ":");;
        echo RULE;;
        for_each (λ l : Link,
          echo (TABS ++ sc_value (link_short_code l) ++ lit " - " ++ counted (link_clicks l) "click" ++ lit " - " ++
                date_text (link_created_at l) ++ lit " - " ++ within (ou_value (link_original_url l)) 40)) found;;
        echo RULE
    end).

Definition link_create (url : pystr) (code : option pystr) : T unit :=
  reporting str_exn (
    (match code with
     | Some c => if decide (strip c = [])
                 then refuse (lit "--code was given an empty value. Leave the option out to have a code generated, or pass the code you want.")
                 else mret tt
     | None => mret tt
     end);;
    result ← catch (run (create_short_link links url (cli_context "cli-create") 0 code))
               (λ e, refuse (lit "Could not create the link: " ++ str_exn e));
    echo RULE;;
    echo (TABS ++ if slr_is_new result then lit "Short link created successfully!"
                  else lit "This URL was already shortened -- returning that link.");;
    echo (TABS ++ lit "Short code: " ++ slr_short_code result);;
    echo (TABS ++ lit "Original URL: " ++ slr_original_url result);;
    echo (TABS ++ lit "Short URL: " ++ slr_short_url result);;
    echo (TABS ++ lit "Is new: " ++ bool_text (slr_is_new result));;
    echo RULE;;
    match code with
    | Some ((_ :: _) as c) =>
        if decide (slr_short_code result = c) then mret tt
        else echo_err (lit "Note: --code " ++ c ++ lit " was not issued. This URL was already shortened as " ++
               slr_short_code result ++ lit ", and that is the link above; nothing was created for " ++ c ++ lit ".")
    | _ => mret tt
    end).

(** [SeedDatabaseUseCase.execute]: how many links are new and how many were
    there; the first failure ends it. *)
Fixpoint seed_links (i : nat) (n : nat) (created existing : Z) : P (Z * Z) :=
  match n with
  | O => mret (created, existing)
  | S n =>
      response ← create_short_link links (lit "https://seed-db.example/" ++ str_of_Z (Z.of_nat i)) (cli_context "cli-seed") 0 None;
      if slr_is_new response then seed_links (S i) n (created + 1) existing else seed_links (S i) n created (existing + 1)
  end.
Definition seed_db (count : Z) : T unit :=
  if count <? 1 then raise UsageError else
  reporting str_exn (
    done ← catch (run (seed_links 0 (Z.to_nat count) 0 0)) (λ e, refuse (lit "Seeding failed: " ++ str_exn e));
    let '(created, existing) := done in
    echo (lit "Created " ++ counted created "test link");;
    if existing =? 0 then mret tt
    else echo (str_of_Z existing ++ lit " of the requested URLs already existed")).

(** *** Figures and the cache *)

Definition service_totals (s : ServiceStatsResponse) : T unit :=
  echo (TABS ++ lit "Total URLs:      " ++ str_of_Z (ss_total_urls s));;
  echo (TABS ++ lit "Total clicks:    " ++ str_of_Z (ss_total_clicks s));;
  echo (TABS ++ lit "Avg clicks/URL:  " ++ hundredths_text (ss_avg_clicks_per_url s)).

(** [.upper()] of a text that is ASCII throughout. *)
Definition shout (s : pystr) : pystr := (λ c, if is_lower c then c - 32 else c) <$> s.

Definition stats_show : T unit :=
  reporting str_exn (
    stats ← run (get_service_stats links);
    echo ([10] ++ TABS ++ lit "SERVICE STATISTICS");;
    echo RULE;;
    service_totals stats;;
    (match take 5 (ss_popular_links stats) with
     | [] => echo ([10] ++ TABS ++ lit "No links yet.")
     | popular =>
         echo ([10] ++ TABS ++ lit "TOP " ++ shout (counted (len popular) "popular link") ++ lit ":");;
         for_each (λ x : nat * StatsItemResponse,
           echo (TABS ++ str_of_Z (Z.of_nat x.1) ++ lit ". " ++ si_short_code x.2 ++ lit " - " ++ counted (si_clicks x.2) "click"))
           (imap (λ i l, (S i, l)) popular)
     end);;
    echo RULE).

(** The entry is dropped first, or the figures would be the cached ones. *)
Definition refresh_stats : P ServiceStatsResponse := on_cache delete_stats;; get_service_stats links.
Definition stats_refresh : T unit :=
  reporting str_exn (
    stats ← run refresh_stats;
    echo ([10] ++ TABS ++ lit "STATISTIC REFRESHED IN CACHE:");;
    echo RULE;;
    service_totals stats;;
    echo RULE).

Definition clear_cache (stats_only : bool) : P pystr :=
  configured ← gets (λ w, cache_is_configured (w_cache w));
  on_cache (if stats_only then delete_stats else cache_clear_all);;
  mret ((if stats_only then lit "Statistics cache cleared." else lit "Cache cleared.") ++
        if (configured : bool) then []
        else lit " In this process only -- no cache service is configured, so a running server holds its own entries and keeps them. Restart it, or wait out CACHE_LINK_TTL.").
Definition cache_clear (stats_only : bool) : T unit :=
  reporting str_exn (cleared ← run (clear_cache stats_only); echo cleared).

Definition cache_stats : T unit :=
  reporting str_exn (
    configured ← run (gets (λ w, cache_is_configured (w_cache w)));
    if negb configured then echo (lit "No cache backend is configured.") else
    now ← run now_utc;
    info ← run (with_cache (cache_report now));
    match (info : list (pystr * pystr) + pystr) with
    | inr error => refuse error
    | inl entries =>
        echo ([10] ++ TABS ++ lit "Cache Statistics:");;
        echo RULE;;
        for_each (λ e : pystr * pystr, echo (TABS ++ e.1 ++ lit ": " ++ e.2)) entries;;
        echo RULE
    end).

(** *** Maintenance *)

Definition clean_expired : T unit :=
  reporting str_exn (
    deleted ← run clean_expired_links;
    echo (lit "Deleted " ++ counted (Z.of_nat deleted) "expired link" ++ lit ".")).
Definition roll_up_visits_command (retention_days : Z) : T unit :=
  reporting str_exn (
    done ← run (roll_up_visits retention_days);
    echo (lit "Folded " ++ counted done.1 "link-day" ++ lit "; deleted " ++ counted done.2 "raw visit" ++ lit ".")).
Definition clean_sessions : T unit :=
  reporting str_exn (
    deleted ← run clean_expired_sessions;
    echo (lit "Deleted " ++ counted (Z.of_nat deleted) "expired refresh session" ++ lit ".")).
Definition clean_reset_tokens : T unit :=
  reporting str_exn (
    deleted ← run clean_expired_password_resets;
    echo (lit "Deleted " ++ counted (Z.of_nat deleted) "spent or expired password reset token" ++ lit ".")).
Definition clean_unverified : T unit :=
  reporting str_exn (
    swept ← run (clean_unverified_accounts accounts (cli_context "cli-clean-unverified"));
    echo (lit "Deleted " ++ counted (Z.of_nat swept.1) "unconfirmed account" ++ lit " and " ++
          counted (Z.of_nat swept.2) "dead confirmation token" ++ lit ".")).

(** [maintenance normalize-emails].  [between] is what other sessions do to
    the table while it runs, [trouble] what goes wrong around a write. *)
Definition when_some (n : nat) (text : pystr) : T unit := if Nat.eqb n 0 then mret tt else echo_err text.
Definition number (n : nat) : pystr := counted (Z.of_nat n) "address".

Definition report_normalised (n : Normalised) (skipped remaining : nat) : T unit :=
  echo (lit "Lowered " ++ number (nd_changed n) ++ lit ".");;
  when_some skipped (number skipped ++ lit " left in conflict and untouched.");;
  when_some (nd_refused n) (number (nd_refused n) ++ [32] ++ were (Z.of_nat (nd_refused n)) ++
    lit " taken by another account between the report and the write; they are conflicts now, and the next run will list them as such and touch nothing.");;
  when_some (nd_moved n) (number (nd_moved n) ++ [32] ++ were (Z.of_nat (nd_moved n)) ++
    lit " deleted or changed by somebody else between the report and the write, and left alone.");;
  (if Nat.eqb (nd_failed n) 0 then mret tt else
     echo_err (number (nd_failed n) ++ lit " could not be written and " ++ were (Z.of_nat (nd_failed n)) ++
       lit " left as they are. The database gave:");;
     for_each (λ reason, echo_err (lit "  " ++ reason)) (nd_reasons n));;
  when_some remaining (lit "Interrupted. " ++ number remaining ++ [32] ++ were (Z.of_nat remaining) ++
    lit " not attempted; running again picks them up.").

Definition normalise_the_table (between : nat → list UserModel → list UserModel) (trouble : nat → option Trouble)
    (rows : list Mixed) : P (Normalised * nat * nat) := λ w,
  let '(t, n, skipped, remaining) := normalise_addresses between trouble rows (users (w_db w)) in
  (Ok (n, skipped, remaining), set_db (set_users t (w_db w)) w).

Definition normalize_emails (between : nat → list UserModel → list UserModel) (trouble : nat → option Trouble)
    (apply_changes : bool) : T unit :=
  reporting str_exn (
    rows ← run (gets (λ w, find_addresses_needing_normalising (w_db w)));
    match (rows : list Mixed) with
    | [] => echo (lit "Every stored address is already lower case.")
    | _ =>
        let clashing := filter (λ r, mx_clashes r = true) rows in
        let fixable := filter (λ r, mx_clashes r = false) rows in
        for_each (λ r, echo (lit "  " ++ mx_email r ++ lit " -> " ++ normalise (mx_email r))) fixable;;
        for_each (λ r, echo_err (lit "  " ++ mx_email r ++ lit ": another account also lowers to " ++
                                 normalise (mx_email r) ++ lit "; left alone")) clashing;;
        if negb apply_changes then
          echo (str_of_Z (len fixable) ++ lit " to change, " ++ str_of_Z (len clashing) ++
                lit " in conflict. Nothing written; pass --apply to write.")
        else
          done ← run (normalise_the_table between trouble rows);
          let '(n, skipped, remaining) := (done : Normalised * nat * nat) in
          (if Nat.eqb (nd_changed n) 0 then mret tt else run (audit (AddressesNormalised (nd_changed n))));;
          report_normalised n skipped remaining;;
          if normalize_emails_exit n remaining =? 0 then mret tt else raise (SystemExit (normalize_emails_exit n remaining))
    end).

(** *** The schema, without Alembic *)

(** [connected] is whether the manager has an engine; the two statements are
    the whole of [create_all] and [drop_all]. *)
Inductive schema_step := TablesCreated | TablesDropped.

Definition init_db (use_alembic connected : bool) : T (option schema_step) :=
  reporting str_exn (
    if use_alembic then refuse (lit "USE_ALEMBIC is enabled. Please use 'alembic upgrade head' to manage schema.")
    else if negb connected then refuse (lit "Database not connected. Call connect() first.")
    else echo (lit "Database tables created successfully!");; mret (Some TablesCreated)).

Definition drop_db (yes use_alembic connected : bool) : T (option schema_step) :=
  reporting str_exn (
    if negb yes && negb (confirmed "Are you sure you want to drop all tables?") then raise Aborted
    else if use_alembic then refuse (lit "USE_ALEMBIC is enabled. Please use 'alembic downgrade base' to reset schema.")
    else if negb connected then refuse (lit "Database not connected. Call connect() first.")
    else echo (lit "All tables dropped successfully!");; mret (Some TablesDropped)).
End commands.

(** ** The commands put together

    The ones that work on accounts, links, statistics, caches and the upkeep
    of the tables.  Left out are those that only report on the surroundings
    ([maintenance check-redis] and [health], [security check-secrets],
    [generate-secrets] and [validate-token], [db check] and [status]), the
    schema commands ([db init], [drop] and [migrate] and the [alembic] group;
    [init_db] and [drop_db] above are the first two), [db load-base-roles] and
    [load-custom-roles], whose work is [RoleLoader], and
    [roll-up-security-events], whose work is [SecurityEvents]. *)

Inductive Command :=
| CreateAdmin (email password : option pystr) (non_interactive : bool)
| CreateUser (email password : option pystr) (role : pystr) (non_interactive : bool)
| ResetPassword (email password : option pystr) (non_interactive : bool)
| ListUsers | ListRoles
| LinkDelete (short_code : pystr) | LinkInfo (short_code : pystr) | LinkList (limit : Z)
| LinkCreate (url : pystr) (code : option pystr)
| SeedDb (count : Z)
| StatsShow | StatsRefresh | CacheClear (stats_only : bool) | CacheStats
| CleanExpired | RollUpVisits (retention_days : Z) | CleanSessions | CleanResetTokens | CleanUnverified
| NormalizeEmails (between : nat → list UserModel → list UserModel) (trouble : nat → option Trouble) (apply_changes : bool).

Section dispatch.
Context {C : Type} `{ServiceCache C StatsDict} `{!CacheMaintenance C} `{UrlRules} `{CodeGenerator} `{HashCalculator} `{CaseFolding} `{WordChars} `{UuidSupply} `{IsoFormat}.
Context `{Bcrypt} `{Terminal}.
Context (str_exn : exn → pystr) (links : LinkSettings) (accounts : AuthSettings).

Definition dispatch (c : Command) : M (Shell C) stop unit :=
  match c with
  | CreateAdmin email password ni => create_admin str_exn accounts email password ni
  | CreateUser email password role ni => create_user_command str_exn accounts email password role ni
  | ResetPassword email password ni => security_reset_password str_exn email password ni
  | ListUsers => security_list_users str_exn
  | ListRoles => security_list_roles str_exn
  | LinkDelete code => link_delete str_exn code
  | LinkInfo code => link_info str_exn links code
  | LinkList limit => link_list str_exn limit
  | LinkCreate url code => link_create str_exn links url code
  | SeedDb count => seed_db str_exn links count
  | StatsShow => stats_show str_exn links
  | StatsRefresh => stats_refresh str_exn links
  | CacheClear stats_only => cache_clear str_exn stats_only
  | CacheStats => cache_stats str_exn
  | CleanExpired => clean_expired str_exn
  | RollUpVisits days => roll_up_visits_command str_exn days
  | CleanSessions => clean_sessions str_exn
  | CleanResetTokens => clean_reset_tokens str_exn
  | CleanUnverified => clean_unverified str_exn accounts
  | NormalizeEmails between trouble apply_changes => normalize_emails str_exn between trouble apply_changes
  end.
End dispatch.

(** * What is claimed of the commands *)

Section speaking.
Context {C : Type} (str_exn : exn → pystr) `{Terminal}.
Abbreviation T := (M (Shell C) stop).

(** A command only adds lines, and one that exits has added one to the error
    stream. *)
Definition speaks {A} (m : T A) : Prop := ∀ s, ∃ more,
  sh_lines (m s).2 = sh_lines s ++ more ∧
  ∀ n, (m s).1 = Err (SystemExit n) → n = 1 ∧ Exists (λ l, ln_err l = true) more.

Lemma speaks_ret {A} (a : A) : speaks (mret a).
Proof. intros s. exists []. by rewrite app_nil_r. Qed.
Lemma speaks_raise {A} x : (∀ n, x ≠ SystemExit n) → speaks (raise x : T A).
Proof. intros Hx s. exists []. rewrite app_nil_r. split; [done|]. intros n [= ->]. by destruct (Hx n). Qed.
Lemma speaks_say err text : speaks (say err text : T unit).
Proof. intros s. by exists [MkLine err text]. Qed.
Lemma speaks_refuse {A} text : speaks (refuse text : T A).
Proof. intros s. exists [MkLine true text]. split; [done|]. intros n [= <-]. split; [done|]. by left. Qed.
Lemma speaks_run {A} (m : M (World C) exn A) : speaks (run m).
Proof. intros s. exists []. rewrite app_nil_r /run. by destruct (m (sh_world s)) as [[a|e] w]. Qed.

Lemma speaks_bind {A B} (m : T A) (k : A → T B) : speaks m → (∀ a, speaks (k a)) → speaks (m ≫= k).
Proof.
  intros Hm Hk s. rewrite /mbind /M_bind. destruct (Hm s) as (l1 & Hl1 & He1).
  destruct (m s) as [[a|x] s1]; simpl in *; [|by exists l1; split; [|intros n [= ->]; apply He1]].
  destruct (Hk a s1) as (l2 & Hl2 & He2). exists (l1 ++ l2). rewrite Hl2 Hl1 app_assoc. split; [done|].
  intros n Hn. destruct (He2 n Hn) as [-> Hx]. split; [done|]. apply Exists_app. by right.
Qed.
Lemma speaks_catch {A} (m : T A) h : speaks m → (∀ e, speaks (h e)) → speaks (catch m h).
Proof.
  intros Hm Hh s. rewrite /catch /try_except. destruct (Hm s) as (l1 & Hl1 & He1).
  destruct (m s) as [[a|x] s1]; simpl in *; [by exists l1|].
  destruct x; try by exists l1. destruct (Hh e s1) as (l2 & Hl2 & He2). exists (l1 ++ l2).
  rewrite Hl2 Hl1 app_assoc. split; [done|]. intros n Hn. destruct (He2 n Hn) as [-> Hx]. split; [done|].
  apply Exists_app. by right.
Qed.
Lemma speaks_reporting {A} (m : T A) : speaks m → speaks (reporting str_exn m).
Proof.
  intros Hm. apply speaks_catch; [done|]. intros e. destruct (is_domain_error e); [apply speaks_refuse|].
  by apply speaks_raise.
Qed.
Lemma speaks_for_each {A} (f : A → T unit) l : (∀ a, speaks (f a)) → speaks (for_each f l).
Proof. intros Hf. induction l as [|a l IH]; [apply speaks_ret|]. by apply speaks_bind; [|intros _]. Qed.
Lemma speaks_or_asked value question : speaks (or_asked value question : T pystr).
Proof.
  rewrite /or_asked. destruct value as [[|c v]|]; [..|apply speaks_ret|];
    (destruct (prompt question); [apply speaks_ret|by apply speaks_raise]).
Qed.
Lemma speaks_asked email password ni : speaks (asked_for_or_refused email password ni : T _).
Proof.
  rewrite /asked_for_or_refused. case_match; [apply speaks_refuse|].
  apply speaks_bind; [apply speaks_or_asked|]. intros e. apply speaks_bind; [apply speaks_or_asked|]. intros p.
  apply speaks_ret.
Qed.
End speaking.

Create HintDb speaking.
#[export] Hint Resolve speaks_ret speaks_raise speaks_say speaks_refuse speaks_run speaks_asked : speaking.

(** The cases of a command, one by one. *)
Ltac speaks_step :=
  lazymatch goal with
  | |- speaks (mbind _ _) => apply speaks_bind; [|intros ?]
  | |- speaks (reporting _ _) => apply speaks_reporting
  | |- speaks (catch _ _) => apply speaks_catch; [|intros ?]
  | |- speaks (for_each _ _) => apply speaks_for_each; intros ?
  | |- speaks (echo _) => apply speaks_say
  | |- speaks (echo_err _) => apply speaks_say
  | |- speaks (if ?b then _ else _) => destruct b
  | |- speaks (match ?x with _ => _ end) => destruct x
  | |- speaks (let _ := _ in _) => cbv zeta
  | |- speaks _ => solve [eauto with speaking]
  end.
Ltac speaks_steps := repeat speaks_step.

Section refusals.
Context {C : Type} `{ServiceCache C StatsDict} `{!CacheMaintenance C} `{UrlRules} `{CodeGenerator} `{HashCalculator} `{CaseFolding} `{WordChars} `{UuidSupply} `{IsoFormat}.
Context `{Bcrypt} `{Terminal}.
Context (str_exn : exn → pystr) (links : LinkSettings) (accounts : AuthSettings).
Abbreviation T := (M (Shell C) stop).

Lemma speaks_when_some n text : speaks (when_some n text : T unit).
Proof. rewrite /when_some. speaks_steps. Qed.
#[local] Hint Resolve speaks_when_some : speaking.

Lemma speaks_report n skipped remaining : speaks (report_normalised n skipped remaining : T unit).
Proof. rewrite /report_normalised. speaks_steps. Qed.
#[local] Hint Resolve speaks_report : speaking.

(** The report of a run that ends with an exit holds a line of what was left
    undone. *)
Lemma adds_lines {A} (m : T A) s : speaks m → ∃ more, sh_lines (m s).2 = sh_lines s ++ more.
Proof. intros Hm. destruct (Hm s) as (more & Hl & _). by exists more. Qed.

Definition warns {A} (m : T A) : Prop := ∀ s, ∃ more, sh_lines (m s).2 = sh_lines s ++ more ∧ Exists (λ l, ln_err l = true) more.
Lemma warns_left {A B} (m : T A) (k : A → T B) : warns m → (∀ a, speaks (k a)) → warns (m ≫= k).
Proof.
  intros Hm Hk s. rewrite /mbind /M_bind. destruct (Hm s) as (l1 & Hl1 & He1).
  destruct (m s) as [[a|x] s1]; simpl in *; [|by exists l1].
  destruct (adds_lines (k a) s1 (Hk a)) as [l2 Hl2]. exists (l1 ++ l2). rewrite Hl2 Hl1 app_assoc. split; [done|].
  apply Exists_app. by left.
Qed.
Lemma warns_right {A B} (m : T A) (k : A → T B) : speaks m → (∀ s, is_ok (m s).1) → (∀ a, warns (k a)) → warns (m ≫= k).
Proof.
  intros Hm Hok Hk s. rewrite /mbind /M_bind. destruct (adds_lines m s Hm) as [l1 Hl1]. specialize (Hok s).
  destruct (m s) as [[a|x] s1]; simpl in *; [|done].
  destruct (Hk a s1) as (l2 & Hl2 & He2). exists (l1 ++ l2). rewrite Hl2 Hl1 app_assoc. split; [done|].
  apply Exists_app. by right.
Qed.
Lemma warns_err text : warns (echo_err text : T unit).
Proof. intros s. exists [MkLine true text]. split; [done|]. by left. Qed.
Lemma warns_when_some n text : n ≠ 0%nat → warns (when_some n text : T unit).
Proof. intros Hn. rewrite /when_some. destruct (Nat.eqb_spec n 0); [done|]. apply warns_err. Qed.
Lemma when_some_ok n text s : is_ok ((when_some n text : T unit) s).1.
Proof. rewrite /when_some. by destruct (Nat.eqb n 0). Qed.

Lemma report_warns n skipped remaining : normalize_emails_exit n remaining ≠ 0 →
  warns (report_normalised n skipped remaining : T unit).
Proof.
  rewrite /normalize_emails_exit => Hx. rewrite /report_normalised.
  apply warns_right; [speaks_steps|done|intros _].
  apply warns_right; [speaks_steps|apply when_some_ok|intros _].
  destruct (Nat.eqb_spec (nd_refused n) 0) as [Hr|Hr];
    [apply warns_right; [speaks_steps|apply when_some_ok|intros _]|apply warns_left; [by apply warns_when_some|intros _; speaks_steps]].
  apply warns_right; [speaks_steps|apply when_some_ok|intros _].
  destruct (Nat.eqb_spec (nd_failed n) 0) as [Hf|Hf].
  - apply warns_right; [apply speaks_ret|done|intros _]. apply warns_when_some. by intros ->.
  - apply warns_left; [|intros _; speaks_steps]. apply warns_left; [apply warns_err|intros _; speaks_steps].
Qed.

Lemma speaks_normalize between trouble apply_changes : speaks (normalize_emails str_exn between trouble apply_changes : T unit).
Proof.
  rewrite /normalize_emails. do 2 speaks_step; [speaks_step|]. speaks_step; [speaks_step|].
  do 2 (speaks_step; [speaks_steps|]). speaks_step; [speaks_steps|]. speaks_step; [speaks_steps|].
  match goal with x : (Normalised * nat * nat)%type |- _ => destruct x as [[n skipped] remaining] end.
  speaks_step; [speaks_steps|].
  destruct (Z.eqb_spec (normalize_emails_exit n remaining) 0) as [He|He]; [speaks_steps|].
  intros s. destruct (report_warns n skipped remaining He s) as (more & Hl & Hx).
  rewrite /mbind /M_bind. destruct (report_normalised n skipped remaining s) as [[[]|x] s1] eqn:Hr; simpl in *.
  - exists more. split; [done|]. intros k [= <-]. split; [|done]. rewrite /normalize_emails_exit in He |- *. by case_match.
  - exists more. split; [done|]. intros k [= ->]. destruct (speaks_report n skipped remaining s) as (m2 & _ & Hk).
    rewrite Hr in Hk. by destruct (Hk k eq_refl).
Qed.

Lemma speaks_dispatch c : speaks (dispatch str_exn links accounts c : T unit).
Proof.
  destruct c; simpl; try apply speaks_normalize;
    rewrite /create_admin /create_user_command /create_account /security_reset_password /security_list_users
      /security_list_roles /link_delete /link_info /link_list /link_create /seed_db /stats_show /stats_refresh
      /service_totals /cache_clear /cache_stats /clean_expired /roll_up_visits_command /clean_sessions
      /clean_reset_tokens /clean_unverified; speaks_steps.
Qed.

(** A refusal of the domain never ends a command as it is. *)
Definition contains {A} (m : T A) : Prop := ∀ s e, (m s).1 = Err (Uncaught e) → is_domain_error e = false.

Lemma contains_reporting {A} (m : T A) : contains (reporting str_exn m).
Proof.
  intros s e. rewrite /reporting /catch /try_except. destruct (m s) as [[a|x] s1]; [done|].
  destruct x as [| | |e']; try done. simpl. destruct (is_domain_error e') eqn:He; [done|]. by intros [= <-].
Qed.
Lemma or_asked_stop value question s x s' : (or_asked value question : T pystr) s = (Err x, s') → x = Aborted.
Proof.
  rewrite /or_asked. destruct value as [[|c v]|]; [..|done|];
    (destruct (prompt question); [done|by intros [= <- _]]).
Qed.
Lemma contains_create email password ni role noun failing :
  contains (pair ← asked_for_or_refused email password ni; create_account str_exn accounts pair.1 pair.2 role noun failing : T unit).
Proof.
  intros s e. rewrite /mbind /M_bind. destruct (asked_for_or_refused email password ni s) as [[pair|x] s1] eqn:Ha.
  - rewrite /create_account /mbind /M_bind /catch /try_except.
    destruct (run _ s1) as [[u|[| | |e']] s2]; done.
  - intros [= ->]. exfalso. revert Ha. rewrite /asked_for_or_refused. case_match; [done|]. rewrite /mbind /M_bind.
    destruct (or_asked email _ s) as [[a|x] s2] eqn:Ho; [|by intros [= -> _]; apply or_asked_stop in Ho].
    destruct (or_asked password _ s2) as [[b|x] s3] eqn:Hp; [done|]. by intros [= -> _]; apply or_asked_stop in Hp.
Qed.
Lemma contains_dispatch c : contains (dispatch str_exn links accounts c : T unit).
Proof.
  destruct c; simpl; try apply contains_reporting; try apply contains_create;
    [rewrite /link_list|rewrite /seed_db]; (case_match; [done|apply contains_reporting]).
Qed.
End refusals.

(** ** What a failed command leaves *)

Section quiet.
Context {C : Type}.
Abbreviation P := (M (World C) exn).

(** Steps of a unit of work that do not commit. *)
Definition quiet {A} (m : P A) : Prop := ∀ w,
  w_db (m w).2 = w_db w ∧ ∀ t, w_txn w = Some t → ∃ d, w_txn (m w).2 = Some (MkTxn d (tx_committed t)).

Lemma quiet_same {A} (m : P A) : (∀ w, w_db (m w).2 = w_db w ∧ w_txn (m w).2 = w_txn w) → quiet m.
Proof. intros Hm w. destruct (Hm w) as [-> ->]. split; [done|]. intros [d b] ->. by exists d. Qed.
Lemma quiet_ret {A} (a : A) : quiet (mret a).
Proof. by apply quiet_same. Qed.
Lemma quiet_raise {A} e : quiet (raise e : P A).
Proof. by apply quiet_same. Qed.
Lemma quiet_lift {A} (r : result exn A) : quiet (lift r).
Proof. by apply quiet_same. Qed.
Lemma quiet_read {A} (f : Database → A) : quiet (read f).
Proof. apply quiet_same. intros w. rewrite /read. by destruct (w_txn w) eqn:E; simpl; rewrite ?E. Qed.
Lemma quiet_now : quiet (now_utc : P Z).
Proof. by apply quiet_same. Qed.
Lemma quiet_uuid `{UuidSupply} : quiet (fresh_uuid : P pystr).
Proof. by apply quiet_same. Qed.
Lemma quiet_draw : quiet (draw : P nat).
Proof. by apply quiet_same. Qed.
Lemma quiet_update {A} (f : Database → result exn (A * Database)) : quiet (update f).
Proof.
  intros w. rewrite /update. destruct (w_txn w) as [[d b]|] eqn:Ht; simpl; [|by rewrite Ht].
  destruct (f d) as [[a d']|e]; simpl; (split; [done|]); intros t [= <-]; [by exists d'|]. rewrite Ht. by exists d.
Qed.
Lemma quiet_bind {A B} (m : P A) (k : A → P B) : quiet m → (∀ a, quiet (k a)) → quiet (m ≫= k).
Proof.
  intros Hm Hk w. rewrite /mbind /M_bind. destruct (Hm w) as [Hd Ht]. destruct (m w) as [[a|e] w1]; [|done].
  destruct (Hk a w1) as [Hd' Ht']. simpl in *. rewrite Hd' Hd. split; [done|]. intros t Hw.
  destruct (Ht t Hw) as [d Hw1]. destruct (Ht' _ Hw1) as [d' ?]. by exists d'.
Qed.
Lemma quiet_try {A} (m : P A) h : quiet m → (∀ e, quiet (h e)) → quiet (try_except m h).
Proof.
  intros Hm Hh w. rewrite /try_except. destruct (Hm w) as [Hd Ht]. destruct (m w) as [[a|e] w1]; [done|].
  destruct (Hh e w1) as [Hd' Ht']. simpl in *. rewrite Hd' Hd. split; [done|]. intros t Hw.
  destruct (Ht t Hw) as [d Hw1]. destruct (Ht' _ Hw1) as [d' ?]. by exists d'.
Qed.

Lemma quiet_gets {A} (f : World C → A) : quiet (gets f).
Proof. by apply quiet_same. Qed.
Lemma quiet_audit e : quiet (audit e : P unit).
Proof. by apply quiet_same. Qed.
Lemma quiet_on_cache (f : C → C) : quiet (on_cache f).
Proof. by apply quiet_same. Qed.
Lemma quiet_with_cache {A} (f : C → A * C) : quiet (with_cache f).
Proof. apply quiet_same. intros w. rewrite /with_cache. by destruct (f (w_cache w)). Qed.
Lemma quiet_uow {A} (m : P A) : quiet m → quiet (with_uow m).
Proof.
  intros Hm. apply quiet_same. intros w. rewrite /with_uow.
  destruct (Hm (set_txn (Some (MkTxn (w_db w) false)) w)) as [Hd _]. by destruct (m _).
Qed.

(** A program whose failures leave the tables alone. *)
Definition undone {A} (m : P A) : Prop := ∀ w e w', m w = (Err e, w') → w_db w' = w_db w.

(** Inside a unit of work: a failure comes before the commit. *)
Definition careful {A} (m : P A) : Prop := ∀ w d e w',
  w_txn w = Some (MkTxn d false) → m w = (Err e, w') → w_db w' = w_db w.
Lemma careful_quiet {A} (m : P A) : quiet m → careful m.
Proof. intros Hm w d e w' _ Hw. destruct (Hm w) as [Hd _]. by rewrite Hw in Hd. Qed.
Lemma careful_bind {A B} (m : P A) (k : A → P B) : quiet m → (∀ a, careful (k a)) → careful (m ≫= k).
Proof.
  intros Hm Hk w d e w' Ht. rewrite /mbind /M_bind. destruct (Hm w) as [Hd Hc]. destruct (Hc _ Ht) as [d' Hc'].
  destruct (m w) as [[a|x] w1]; simpl in *; [|by intros [= _ <-]].
  intros Hw. rewrite -Hd. by apply (Hk a w1 d' e).
Qed.
Lemma careful_commit {A} (a : A) : careful (commit;; mret a).
Proof. intros w d e w' Ht. by rewrite /mbind /M_bind /commit Ht. Qed.
Lemma undone_uow {A} (m : P A) : careful m → undone (with_uow m).
Proof.
  intros Hm w e w'. rewrite /with_uow.
  destruct (m (set_txn (Some (MkTxn (w_db w) false)) w)) as [r w1] eqn:E. intros [= -> <-].
  by eapply Hm in E.
Qed.
Lemma undone_bind {A B} (m : P A) (k : A → P B) : undone m → (∀ a w, is_ok (k a w).1) → undone (m ≫= k).
Proof.
  intros Hm Hk w e w'. rewrite /mbind /M_bind. destruct (m w) as [[a|x] w1] eqn:E.
  - intros Hw. specialize (Hk a w1). by rewrite Hw in Hk.
  - intros [= -> <-]. by apply (Hm w e).
Qed.
Lemma undone_after {A B} (m : P A) (k : A → P B) : quiet m → (∀ a, undone (k a)) → undone (m ≫= k).
Proof.
  intros Hm Hk w e w'. rewrite /mbind /M_bind. destruct (Hm w) as [Hd _]. destruct (m w) as [[a|x] w1]; simpl in Hd;
    [|by intros [= _ <-]]. intros Hw. rewrite -Hd. by apply (Hk a w1 e).
Qed.
End quiet.

Create HintDb quiet.
#[export] Hint Resolve quiet_ret quiet_raise quiet_lift quiet_read quiet_now quiet_uuid quiet_draw quiet_update quiet_gets quiet_audit quiet_on_cache quiet_with_cache quiet_uow : quiet.
Ltac quiet_step :=
  lazymatch goal with
  | |- quiet (mbind _ _) => apply quiet_bind; [|intros ?]
  | |- quiet (try_except _ _) => apply quiet_try; [|intros ?]
  | |- quiet (load _) => rewrite /load
  | |- quiet (with_uow _) => apply quiet_uow
  | |- quiet (if ?b then _ else _) => destruct b
  | |- quiet (match ?x with _ => _ end) => destruct x
  | |- quiet (let _ := _ in _) => cbv zeta
  | |- quiet _ => solve [eauto with quiet]
  | |- careful (mbind _ commit) => apply careful_commit
  | |- careful (mbind _ _) => apply careful_bind; [|intros ?]
  | |- careful (match ?x with _ => _ end) => destruct x
  | |- careful _ => apply careful_quiet
  end.
Ltac quiet_steps := repeat quiet_step.

Section failing.
Context {C : Type} (str_exn : exn → pystr) (I : World C → Prop).
Abbreviation T := (M (Shell C) stop).

(** A command that never changes a table, one that never fails, and one that
    changes no table when it fails. *)
Definition still {A} (m : T A) : Prop := ∀ s, w_db (sh_world (m s).2) = w_db (sh_world s).
Definition sure {A} (m : T A) : Prop := ∀ s, is_ok (m s).1.
Definition clean {A} (m : T A) : Prop := ∀ s x s', I (sh_world s) → m s = (Err x, s') → w_db (sh_world s') = w_db (sh_world s).

Lemma still_say err text : still (say err text).
Proof. done. Qed.
Lemma still_ret {A} (a : A) : still (mret a).
Proof. done. Qed.
Lemma still_raise {A} x : still (raise x : T A).
Proof. done. Qed.
Lemma still_refuse {A} text : still (refuse text : T A).
Proof. done. Qed.
Lemma still_run {A} (m : M (World C) exn A) : quiet m → still (run m).
Proof. intros Hm s. rewrite /run. destruct (Hm (sh_world s)) as [Hd _]. by destruct (m (sh_world s)) as [[a|e] w]. Qed.
Lemma still_bind {A B} (m : T A) (k : A → T B) : still m → (∀ a, still (k a)) → still (m ≫= k).
Proof.
  intros Hm Hk s. rewrite /mbind /M_bind. specialize (Hm s). destruct (m s) as [[a|x] s1]; [|done].
  by rewrite (Hk a s1).
Qed.
Lemma still_catch {A} (m : T A) h : still m → (∀ e, still (h e)) → still (catch m h).
Proof.
  intros Hm Hh s. rewrite /catch /try_except. specialize (Hm s). destruct (m s) as [[a|x] s1]; [done|].
  destruct x as [| | |e]; [done..|]. by rewrite (Hh e s1).
Qed.
Lemma still_reporting {A} (m : T A) : still m → still (reporting str_exn m).
Proof. intros Hm. apply still_catch; [done|]. intros e. by destruct (is_domain_error e). Qed.
Lemma still_for_each {A} (f : A → T unit) l : (∀ a, still (f a)) → still (for_each f l).
Proof. intros Hf. induction l as [|a l IH]; [done|]. by apply still_bind. Qed.
Lemma still_asked `{Terminal} email password ni : still (asked_for_or_refused email password ni : T _).
Proof.
  rewrite /asked_for_or_refused. case_match; [done|]. rewrite /or_asked.
  apply still_bind; [by repeat case_match|]. intros a. apply still_bind; [by repeat case_match|]. done.
Qed.

Lemma sure_say err text : sure (say err text).
Proof. done. Qed.
Lemma sure_ret {A} (a : A) : sure (mret a).
Proof. done. Qed.
Lemma sure_bind {A B} (m : T A) (k : A → T B) : sure m → (∀ a, sure (k a)) → sure (m ≫= k).
Proof.
  intros Hm Hk s. rewrite /mbind /M_bind. specialize (Hm s). destruct (m s) as [[a|x] s1]; [|done]. apply Hk.
Qed.

Lemma clean_still {A} (m : T A) : still m → clean m.
Proof. intros Hm s x s' _ Hs. specialize (Hm s). by rewrite Hs in Hm. Qed.
Lemma clean_run {A} (m : M (World C) exn A) : (∀ w e w', I w → m w = (Err e, w') → w_db w' = w_db w) → clean (run m).
Proof. intros Hm s x s' Hi. rewrite /run. destruct (m (sh_world s)) as [[a|e] w] eqn:E; [done|]. intros [= _ <-]. by apply (Hm _ e). Qed.
Lemma clean_catch {A} (m : T A) h : clean m → (∀ e, still (h e)) → clean (catch m h).
Proof.
  intros Hm Hh s x s' Hi. rewrite /catch /try_except. destruct (m s) as [[a|y] s1] eqn:E; [done|].
  specialize (Hm s y s1 Hi E). destruct y as [| | |e]; try by intros [= _ <-].
  intros Hs. specialize (Hh e s1). rewrite Hs in Hh. by rewrite Hh.
Qed.
Lemma clean_reporting {A} (m : T A) : clean m → clean (reporting str_exn m).
Proof. intros Hm. apply clean_catch; [done|]. intros e. by destruct (is_domain_error e). Qed.
(** What follows a call either cannot fail, or follows one that changed
    nothing. *)
Lemma clean_bind {A B} (m : T A) (k : A → T B) : clean m →
  (∀ s a s', I (sh_world s) → m s = (Ok a, s') → sure (k a) ∨ still (k a) ∧ w_db (sh_world s') = w_db (sh_world s)) →
  clean (m ≫= k).
Proof.
  intros Hm Hk s x s' Hi. rewrite /mbind /M_bind. destruct (m s) as [[a|y] s1] eqn:E.
  - intros Hs. destruct (Hk s a s1 Hi E) as [Hsure|[Hst <-]].
    + specialize (Hsure s1). by rewrite Hs in Hsure.
    + specialize (Hst s1). by rewrite Hs in Hst.
  - intros [= -> <-]. by apply (Hm s x).
Qed.
Lemma asked_world `{Terminal} email password ni s :
  sh_world ((asked_for_or_refused email password ni : T _) s).2 = sh_world s.
Proof.
  assert (∀ v q s, ((or_asked v q : T _) s).2 = s) as Ho.
  { intros v q s0. rewrite /or_asked. destruct v as [[|c v]|]; [..|done|]; by destruct (prompt q). }
  rewrite /asked_for_or_refused. case_match; [done|]. rewrite /mbind /M_bind.
  pose proof (Ho email "Email"%string s) as He. destruct (or_asked email _ s) as [[a|x] s1]; simpl in *; subst; [|done].
  pose proof (Ho password "Password"%string s) as Hp. destruct (or_asked password _ s) as [[b|x] s2]; simpl in *; by subst.
Qed.
(** First something that does not reach the service. *)
Lemma clean_after {A B} (m : T A) (k : A → T B) :
  (∀ s, sh_world (m s).2 = sh_world s) → (∀ a, clean (k a)) → clean (m ≫= k).
Proof.
  intros Hm Hk s x s' Hi. rewrite /mbind /M_bind. specialize (Hm s). destruct (m s) as [[a|y] s1]; simpl in Hm;
    [|by intros [= _ <-]; rewrite Hm].
  intros Hs. rewrite -Hm. apply (Hk a s1 x); [by rewrite Hm|done].
Qed.
End failing.

Create HintDb still.
#[export] Hint Resolve still_say still_ret still_raise still_refuse still_asked sure_say sure_ret : still.
Ltac still_step :=
  lazymatch goal with
  | |- still (mbind _ _) => apply still_bind; [|intros ?]
  | |- still (reporting _ _) => apply still_reporting
  | |- still (catch _ _) => apply still_catch; [|intros ?]
  | |- still (for_each _ _) => apply still_for_each; intros ?
  | |- still (echo _) => apply still_say
  | |- still (echo_err _) => apply still_say
  | |- still (run _) => apply still_run
  | |- still (if ?b then _ else _) => destruct b
  | |- still (match ?x with _ => _ end) => destruct x
  | |- still _ => solve [eauto with still]
  | |- sure (mbind _ _) => apply sure_bind; [|intros ?]
  | |- sure (echo _) => apply sure_say
  | |- sure (echo_err _) => apply sure_say
  | |- sure (if ?b then _ else _) => destruct b
  | |- sure (match ?x with _ => _ end) => destruct x
  | |- sure _ => solve [eauto with still]
  | |- quiet _ => quiet_step
  end.
Ltac still_steps := repeat still_step.

Section outcomes.
Context {C : Type} `{CacheLaws C StatsDict} `{!CacheMaintenance C} `{UrlRules} `{CodeGenerator} `{!GeneratorLaws} `{HashCalculator} `{CaseFolding} `{WordChars} `{UuidSupply} `{!Inj (=) (=) uuid4} `{IsoFormat}.
Context `{Bcrypt} `{Terminal}.
Context (str_exn : exn → pystr) (links : LinkSettings) (accounts : AuthSettings).
Implicit Types (w : World C).

(** The commands that do their work in one transaction. *)
Definition in_one_transaction (c : Command) : bool :=
  match c with SeedDb _ | CleanExpired | RollUpVisits _ | NormalizeEmails _ _ _ => false | _ => true end.

Lemma quiet_resolve names seen : quiet (C := C) (resolve_roles names seen).
Proof. revert seen. induction names as [|name names IH]; intros seen; simpl; quiet_steps; apply IH. Qed.
#[local] Hint Resolve quiet_resolve : quiet.

Lemma quiet_create_user email password roles active : quiet (C := C) (service_create_user accounts email password roles active).
Proof. rewrite /service_create_user /hash_password. quiet_steps. Qed.
Lemma quiet_update_password u password : quiet (C := C) (update_password u password).
Proof. rewrite /update_password /hash_password. quiet_steps. Qed.
#[local] Hint Resolve quiet_create_user quiet_update_password : quiet.

Lemma create_user_logic_undone email password names : undone (C := C) (create_user_logic accounts email password names).
Proof. rewrite /create_user_logic /roles_for. apply undone_bind; [|done]. apply undone_uow. quiet_steps. Qed.
Lemma cli_reset_password_undone email password : undone (C := C) (cli_reset_password email password).
Proof. rewrite /cli_reset_password. apply undone_uow. quiet_steps. Qed.
Lemma reset_password_logic_undone email password : undone (C := C) (reset_password_logic email password).
Proof.
  rewrite /reset_password_logic. apply undone_bind; [apply cli_reset_password_undone|]. by intros [[]|].
Qed.
(** Nobody found, nothing done. *)
Lemma cli_reset_password_none email password w w' : cli_reset_password email password w = (Ok None, w') → w_db w' = w_db w.
Proof.
  rewrite /cli_reset_password /with_uow /mbind /M_bind /lift /load /read /=.
  destruct (new_Email email) as [e|]; [|done]. simpl. rewrite /mbind /M_bind /=.
  destruct (find_user_by_email e (w_db w)) as [[u|]|]; simpl; [|by intros [= <-]|done].
  destruct (quiet_update_password u password (set_txn (Some (MkTxn (w_db w) false)) w)) as [_ Ht].
  destruct (update_password u password _) as [[n|x] w1]; [|done]. destruct (Ht _ eq_refl) as [d Hd].
  rewrite /commit /=. simpl in Hd. by rewrite Hd.
Qed.

Lemma clean_create I email password ni role noun failing :
  clean I (pair ← asked_for_or_refused email password ni; create_account (C := C) str_exn accounts pair.1 pair.2 role noun failing).
Proof.
  apply clean_after; [apply asked_world|]. intros [e p]. rewrite /create_account. apply clean_bind.
  - apply clean_catch; [|done]. apply clean_run. intros w x w' _. apply create_user_logic_undone.
  - intros s u s' _ _. left. still_steps.
Qed.
Lemma clean_reset I email password ni : clean I (security_reset_password (C := C) str_exn email password ni).
Proof.
  apply clean_reporting, clean_after; [apply asked_world|]. intros [e p]. apply clean_bind.
  - apply clean_run. intros w x w' _. apply reset_password_logic_undone.
  - intros s [n|] s' _ Hs; [left; still_steps|right; split; [still_steps|]].
    revert Hs. rewrite /run /reset_password_logic /mbind /M_bind /=.
    destruct (cli_reset_password e p (sh_world s)) as [[[[uid n]|]|x] w1] eqn:E; [done| |done].
    intros [= <-]. by apply cli_reset_password_none in E.
Qed.
Lemma clean_link_delete code : clean Inv (link_delete (C := C) str_exn code).
Proof.
  apply clean_reporting, clean_bind.
  - apply clean_run. intros w x w' Hi Hw. pose proof (delete_link_spec code (cli_context "cli-delete") false None w Hi) as Hs.
    apply (wp_elim _ _ _ _ _ Hs) in Hw as (_ & _ & Hd). by destruct (code_to_look_up code); [|destruct Hd].
  - intros s [] s' Hi; [left; still_steps|]. rewrite /run.
    destruct (delete_link _ _ _ _ (sh_world s)) as [[b|x] w1] eqn:E; [|done]. intros [= -> <-]. right. split; [done|]. simpl.
    pose proof (delete_link_spec code (cli_context "cli-delete") false None _ Hi) as Hs.
    apply (wp_elim _ _ _ _ _ Hs) in E as (_ & _ & Hd). destruct (code_to_look_up code); [by destruct Hd|].
    by destruct Hd as [_ ->].
Qed.
Lemma clean_link_create url code : base_url links ≠ [] → clean Inv (link_create (C := C) str_exn links url code).
Proof.
  intros Hb. apply clean_reporting, clean_after; [by intros s; destruct code; [case_decide|]|]. intros _. apply clean_bind.
  - apply clean_catch; [|done]. apply clean_run. intros w x w' Hi Hw.
    pose proof (create_short_link_spec links url (cli_context "cli-create") 0 code w Hi Hb) as Hs.
    by apply (wp_elim _ _ _ _ _ Hs) in Hw as (Hc & _).
  - intros s r s' _ _. left. still_steps.
Qed.
Lemma clean_unverified_clean I : clean I (clean_unverified (C := C) str_exn accounts).
Proof.
  apply clean_reporting, clean_bind; [|by intros; left].
  apply clean_run. intros w e w' _. apply undone_after; [quiet_steps|]. intros now.
  apply undone_bind; [|intros [[|n] m]; done]. apply undone_uow. quiet_steps.
Qed.

Lemma clean_dispatch c : base_url links ≠ [] → in_one_transaction c = true → clean Inv (dispatch str_exn links accounts c).
Proof.
  intros Hb. destruct c; intros Hc; try done; simpl; try apply clean_create;
    try (apply clean_still; rewrite /security_list_users /security_list_roles /list_roles /link_info /link_info_logic
      /get_link_info /link_list /get_recent_links /stats_show /stats_refresh /refresh_stats /get_service_stats
      /service_totals /cache_stats; by still_steps).
  - apply clean_reset.
  - apply clean_link_delete.
  - by apply clean_link_create.
  - apply clean_unverified_clean.
Qed.

(** C26: A command that fails says so, for each command of [Command]: a
    refusal of the service never ends it as a traceback; a command that exits has written to the error
    stream and its status is 1; and one that does its work in a single
    transaction has then changed no table. *)
Theorem a_failed_command_says_so c s x s' :
  dispatch str_exn links accounts c s = (Err x, s') →
  (∀ e, x = Uncaught e → is_domain_error e = false) ∧
  (∀ n, x = SystemExit n → n = 1 ∧
     ∃ said l, sh_lines s' = sh_lines s ++ said ∧ l ∈ said ∧ ln_err l = true) ∧
  (base_url links ≠ [] → Inv (sh_world s) → in_one_transaction c = true → w_db (sh_world s') = w_db (sh_world s)).
Proof.
  intros Hd. split_and!.
  - intros e ->. apply (contains_dispatch str_exn links accounts c s). by rewrite Hd.
  - intros n ->. destruct (speaks_dispatch str_exn links accounts c s) as (said & Hl & Hn). rewrite Hd /= in Hl Hn.
    destruct (Hn n eq_refl) as [-> (l & ? & ?)%list.Exists_exists]. split; [done|]. by exists said, l.
  - intros Hb Hi Hc. by apply (clean_dispatch c Hb Hc s x s').
Qed.
End outcomes.

(** ** The first administrator *)

Section first_administrator.
Context {C : Type} `{Bcrypt} `{!BcryptLaws} `{CaseFolding} `{UuidSupply} `{Terminal} `{TokenCodec} `{RateLimiter C}.
Context (str_exn : exn → pystr) (accounts : AuthSettings) (jwt : JwtSettings).
Implicit Types (w : World C).

(** The account a command made. *)
Definition made (email password name : pystr) (u : User) w w' : Prop :=
  ∃ e role, new_Email email = Ok e ∧ get_role_by_name name (w_db w) = Some role ∧
    (∀ m, m ∈ users (w_db w) → um_email m ≠ em_value e) ∧
    user_email u = e ∧ user_roles u = [role] ∧ user_is_active u = true ∧ user_email_verified u = true ∧
    new_PasswordHash (ph_value (user_password_hash u)) = Ok (user_password_hash u) ∧
    hash_of password (ph_value (user_password_hash u)) ∧
    w_db w' = set_users (users (w_db w) ++ [user_row u]) (w_db w) ∧
    w_audit w' = w_audit w ++ [UserCreated (user_id u) (em_value e) [name]].

Lemma create_user_logic_spec email password name w : rows_fresh (w_uuids w) (w_db w) →
  wp (create_user_logic accounts email password [name]) (λ r w', match r with Ok u => made email password name u w w' | Err _ => True end) w.
Proof.
  intros Hfr. rewrite /create_user_logic /roles_for. cbn [resolve_roles]. wp_steps. cbn [tx_work].
  destruct (get_role_by_name name (w_db w)) as [role|] eqn:Hrole; wp_steps; [|done].
  destruct (decide (role_id role ∈ [])) as [Hin|_]; [by apply elem_of_nil in Hin|]. wp_steps. rewrite /service_create_user. wp_steps.
  destruct (new_Email email) as [e|] eqn:He; [|done]. rewrite /load. wp_steps. cbn [tx_work].
  rewrite /find_user_by_email. destruct (first _) as [m|] eqn:Hfind.
  { destruct (load_user (w_db w) (Some m)) as [[u|]|] eqn:Hl; wp_steps; [done| |done]. by apply load_user_None in Hl. }
  pose proof (proj1 (first_filter_None _ _) Hfind) as Hno. cbn [load_user]. wp_steps.
  apply hash_password_spec; [done..|]. intros b Hval Hb. wp_steps.
  destruct (new_PasswordHash _) as [ph|] eqn:Hph; wp_steps; [|done].
  cbn [default from_option id]. wp_steps. rewrite /create_user_entity.
  destruct (require_roles_are_assignable [role]) as [[]|]; [|done]. simpl. wp_steps.
  set (u := set_active true _). cbn [tx_work tx_committed].
  destruct (save_user u (w_db w)) as [[v d']|] eqn:Hs; [|done]. wp_steps.
  assert (v = u ∧ d' = set_users (users (w_db w) ++ [user_row u]) (w_db w)) as [-> ->].
  { revert Hs. rewrite /save_user. case_match; [done|]. case_decide; [done|]. rewrite decide_False; [by intros [= <- <-]|].
    apply (Hfr (S (w_uuids w))). lia. }
  assert (ph_value ph = hashpw b (gensalt (w_uuids w)) ∧ new_PasswordHash (ph_value ph) = Ok ph) as [Hv Hne].
  { revert Hph. rewrite /new_PasswordHash. destruct (_ || _) eqn:E; [done|]. intros [= <-]. by rewrite /= E. }
  apply first_filter_Some in Hrole as Hname. destruct Hname as [_ Hname].
  exists e, role. split_and!; try done; [split; [done|by exists b, (w_uuids w)]|by rewrite /= Hname].
Qed.

Lemma roles_of_one r rs : NoDup (role_id <$> rs) → r ∈ rs → roles_of [role_id r] rs = [r].
Proof.
  intros Hnd Hr. pose proof (roles_of_ids [role_id r] rs Hnd) as Hl.
  destruct (roles_of [role_id r] rs) as [|r' [|]] eqn:E; try by (specialize (Hl ltac:(set_solver)); simplify_eq/=).
  assert (r' ∈ roles_of [role_id r] rs) as [Hr' Hid]%elem_of_roles_of by (rewrite E; set_solver).
  f_equal. apply (key_eq role_id rs); [done..|]. by apply list_elem_of_singleton in Hid.
Qed.

Lemma made_granted email password name u w w' : isascii email = true → accounts_ok (w_db w) →
  made email password name u w w' → granted_to email password (w_db w') u ∧ user_row u ∈ users (w_db w').
Proof.
  intros Ha [_ Hids _ _] (e & role & He & Hrole & Hno & Hem & Hroles & Hact & Hver & Hph & Hh & -> & _).
  split; [|apply elem_of_app; right; by apply list_elem_of_singleton]. exists e. split_and!; try done; [|by apply hash_of_verifies].
  rewrite /find_user_by_email list.filter_app (filter_none _ (users (w_db w))) //=.
  rewrite filter_cons decide_True; [|by rewrite /= Hem].
  destruct (admitted_email_is_normal email e Ha He) as (_ & _ & Hst & _). apply first_filter_Some in Hrole as [Hrole _].
  cbn [first head load_user]. rewrite /orm_to_domain. cbn [user_row um_email um_password_hash um_roles]. rewrite Hem Hst.
  cbn. rewrite Hph. cbn. rewrite Hroles (roles_of_one role _ Hids Hrole).
  rewrite -Hem -Hroles. by destruct u.
Qed.

Lemma budget_left email w (Q : result exn bool → World C → Prop) : within_budget accounts email w →
  (∀ c, Q (Ok false) (set_cache c w)) → wp (budget_spent accounts email) Q w.
Proof.
  intros Hb HQ. rewrite /budget_spent. destruct (_ <=? 0) eqn:E; [wp_steps; destruct w; exact (HQ w_cache)|].
  destruct Hb as [?|(key & Hk & Hl)]; [lia|]. wp_steps. rewrite Hk. wp_steps. apply wp_with_cache. intros a c Hc.
  rewrite Hc in Hl. wp_steps. simpl in Hl. destruct (a <=? 0) eqn:Ea; [lia|]. apply HQ.
Qed.

Lemma login_granted email password ctx u w :
  sessions_ok (refresh_sessions (w_db w)) → draws_fresh (w_uuids w) (refresh_sessions (w_db w)) →
  granted_to email password (w_db w) u → user_row u ∈ users (w_db w) → within_budget accounts email w →
  wp (login accounts jwt email password ctx)
    (λ r w', ∃ tokens, r = Ok (MkLoginResponse tokens (from_user (with_last_login (Some (w_now w)) u)))) w.
Proof.
  intros Hs Hf (e & He & Hu & Hv & Hact & Hver) Hin Hb. rewrite /login. wp_step.
  apply budget_left; [done|]. intros c. wp_step. apply authenticate_spec. rewrite /authenticated He /= Hu /= Hv /= Hact Hver /=. wp_steps.
  cbn [tx_work tx_committed record_login]. wp_steps. apply create_session_tokens_spec; [done..| |].
  - simpl. rewrite update_where_key; [|done]. by apply (list_elem_of_fmap_2 um_id _ (user_row u)).
  - intros w' Hw'. wp_steps. by eexists.
Qed.

(** C14: The administrator made at a shell can administer: when the command
    ends well, an account holds the address it was given or asked for, active
    and confirmed, with the role [admin] and nothing else, its making is in
    the audit journal; and signing in with that address and password is
    granted whenever the budget of failures is not spent. *)
Theorem an_administrator_made_at_a_shell_signs_in email password ni (s s' : Shell C) :
  accounts_ok (w_db (sh_world s)) → rows_fresh (w_uuids (sh_world s)) (w_db (sh_world s)) →
  create_admin str_exn accounts email password ni s = (Ok tt, s') →
  ∃ address word u role,
    (asked_for_or_refused email password ni s).1 = Ok (address, word) ∧
    user_row u ∈ users (w_db (sh_world s')) ∧ user_is_active u = true ∧ user_email_verified u = true ∧
    user_roles u = [role] ∧ role_name role = lit "admin" ∧ role ∈ roles (w_db (sh_world s')) ∧
    w_audit (sh_world s') = w_audit (sh_world s) ++ [UserCreated (user_id u) (em_value (user_email u)) [lit "admin"]] ∧
    (isascii address = true → ∀ ctx w, w_db w = w_db (sh_world s') →
       sessions_ok (refresh_sessions (w_db w)) → draws_fresh (w_uuids w) (refresh_sessions (w_db w)) →
       within_budget accounts address w →
       ∃ tokens, (login accounts jwt address word ctx w).1 =
         Ok (MkLoginResponse tokens (from_user (with_last_login (Some (w_now w)) u)))).
Proof.
  intros Hok Hfr (pair & s1 & Ha & Hc)%bind_ok_inv. destruct pair as [address word].
  pose proof (asked_world email password ni s) as Hw1. rewrite Ha /= in Hw1. exists address, word. rewrite Ha.
  apply bind_ok_inv in Hc as (u & s2 & Hu & [= <-]).
  revert Hu. cbn [fst snd]. rewrite /catch /try_except /run Hw1.
  destruct (create_user_logic accounts address word [lit "admin"] (sh_world s)) as [[u'|x] w2] eqn:Hl; [|done].
  intros [= -> <-]. apply (wp_elim _ _ _ _ _ (create_user_logic_spec address word (lit "admin") _ Hfr)) in Hl as Hm.
  pose proof Hm as (e & role & He & Hrole & Hno & Hem & Hroles & Hact & Hver & Hph & Hh & Hdb & Haud).
  apply first_filter_Some in Hrole as [Hrole Hname]. exists u, role.
  split_and!; try done; [rewrite /= Hdb; set_solver|by rewrite /= Hdb|by rewrite /= Haud Hem|].
  intros Hascii ctx w Hw Hs Hd Hb. destruct (made_granted _ _ _ _ _ _ Hascii Hok Hm) as [Hg Hin].
  rewrite /= in Hw. rewrite -Hw in Hg Hin. pose proof (login_granted address word ctx u w Hs Hd Hg Hin Hb) as Hx.
  rewrite /wp in Hx. by destruct (login _ _ _ _ _ w) as [r w'].
Qed.
End first_administrator.

(** ** Runs *)

Module CommandDemo.
Import Demo.
#[local] Existing Instances RedisTheorems.RedisDemo.numbers.
Abbreviation Memory := (InMemoryLinkCache StatsDict).
#[local] Instance stats_cache : ServiceCache Memory StatsDict := InMemory_ServiceCache cache_settings.
#[local] Instance maintenance : CacheMaintenance Memory := InMemory_maintenance cache_settings.
#[local] Instance stats_cache_laws : CacheLaws Memory StatsDict := InMemory_laws cache_settings.
#[local] Existing Instances folding words uuids uuids_inj url_rules generator calculator AuthDemo.bcrypt AuthDemo.bcrypt_laws AuthDemo.codec.
#[local] Instance terminal : Terminal := {|
  prompt question := Some (if decide (question = "Email"%string) then lit "ro@a.org" else lit "correct horse");
  confirmed _ := true;
|}.
Definition no_words (e : exn) : pystr := [].
Definition settings : LinkSettings := MkLinkSettings (lit "https://maiz.link") (MkUrlSettings [] 10 false) 1 1 1 1 1 false.
Definition empty : Shell Memory := MkShell (MkWorld empty_db None (MkInMemoryLinkCache ∅ ∅ None ∅) 100 10 [] [] None) [].

Lemma empty_shell_inv : Inv (sh_world empty).
Proof.
  constructor; [done| |intros k e _ [He|(l & Hl & _)]; by vm_compute in *|by intros m l _ Hl%elem_of_nil].
  split; [apply table_ok_nil|]. split; intros x Hx%elem_of_nil; done.
Qed.

(** A link that is not there is not deleted, and the command says so. *)
Definition deleting : result stop unit * Shell Memory :=
  dispatch no_words settings AuthDemo.settings (LinkDelete (lit "abcdef")) empty.

Lemma a_failed_command_says_so_witness :
  deleting.1 = Err (SystemExit 1) ∧
  (∃ said l, sh_lines deleting.2 = sh_lines empty ++ said ∧ l ∈ said ∧ ln_err l = true) ∧
  w_db (sh_world deleting.2) = empty_db.
Proof.
  assert (deleting = (Err (SystemExit 1), deleting.2)) as Hd by (vm_compute; reflexivity).
  destruct (a_failed_command_says_so no_words settings AuthDemo.settings (LinkDelete (lit "abcdef")) empty
    (SystemExit 1) deleting.2 Hd) as (_ & Hsaid & Hdb).
  split; [rewrite Hd; reflexivity|]. split; [exact (proj2 (Hsaid 1 eq_refl))|].
  apply Hdb; [discriminate|exact empty_shell_inv|reflexivity].
Defined.

(** The first administrator of a deployment whose roles were loaded: the
    address and the password are asked for. *)
Definition seeded_db : Database :=
  MkDatabase [] [] [AdminDemo.admin_role; AdminDemo.user_role] [AdminDemo.all_permission] [] [] [] [] [].
Definition seeded : Shell Storage := MkShell (MkWorld seeded_db None ∅ 1 10 [] [] None) [].
Definition creating : result stop unit * Shell Storage :=
  create_admin no_words AuthDemo.settings None None false seeded.

Lemma an_administrator_made_at_a_shell_signs_in_witness : ∃ tokens u,
  (login AuthDemo.settings AuthDemo.jwt (lit "ro@a.org") (lit "correct horse") AuthDemo.ctx (sh_world creating.2)).1 =
    Ok (MkLoginResponse tokens u) ∧ ur_roles u = [lit "admin"].
Proof.
  assert (creating = (Ok tt, creating.2)) as Hc by (vm_compute; reflexivity).
  assert (accounts_ok seeded_db) as Hok by (apply (bool_decide_unpack _); vm_compute; exact I).
  assert (rows_fresh 10 seeded_db) as Hfr by (intros k _; split_and!; apply not_elem_of_nil).
  destruct (an_administrator_made_at_a_shell_signs_in no_words AuthDemo.settings AuthDemo.jwt None None false
    seeded creating.2 Hok Hfr Hc) as (address & word & u & role & Ha & _ & _ & _ & Hr & Hn & _ & _ & Hl).
  vm_compute in Ha. injection Ha as <- <-.
  destruct (Hl eq_refl AuthDemo.ctx (sh_world creating.2) eq_refl) as [tokens Ht];
    [exact AuthDemo.no_sessions|intros k _; split; apply not_elem_of_nil|right; eexists; split; vm_compute; reflexivity|].
  eexists tokens, _. split; [exact Ht|]. simpl. rewrite Hr /= Hn. reflexivity.
Defined.

(** The listing of all users is a page of a hundred: of a hundred and one
    accounts one has no line. *)
Definition crowd : list UserModel :=
  (λ n : nat, MkUserModel (str_of_Z (Z.of_nat n)) (lit "u" ++ str_of_Z (Z.of_nat n) ++ lit "@a.org") [61] [] true true 0 None) <$> seq 0 101.
Definition crowded : Shell Storage := MkShell (MkWorld (set_users crowd empty_db) None ∅ 1 10 [] [] None) [].

Example the_listing_stops_at_a_hundred :
  length (users (w_db (sh_world crowded))) = 101%nat ∧
  (security_list_users no_words crowded).1 = Ok tt ∧ length (sh_lines (security_list_users no_words crowded).2) = 102%nat.
Proof. vm_compute. repeat split. Qed.

(** Moments and figures as they are printed. *)
Example printed :
  as_moment (Some (951782399 * 1000000)) = lit "2000-02-28T23:59:59Z" ∧ as_moment (Some (951825600 * 1000000)) = lit "2000-02-29T12:00:00Z" ∧
  as_moment None = lit "unknown" ∧ hundredths_text 333 = lit "3.33" ∧ hundredths_text 150 = lit "1.5" ∧ hundredths_text 200 = lit "2.0" ∧
  counted 2 "address" = lit "2 addresses" ∧ counted 1 "link" = lit "1 link".
Proof. vm_compute. repeat split. Qed.
End CommandDemo.
