(* ===== verification/Migrations.v ===== *)
(** * Migrations from the command line

    The [alembic] group and [db migrate] of [infrastructure/cli/adapters/flask.py]
    over [cli/commands/alembic.py].  A command asks whether the configured
    database may be migrated, says which it is, and starts [python -m alembic]
    with the address in the environment of the child; the child reads it back
    in [configs/app/migration_url.py] ([ConfigFactory]).

    What a child process prints and answers is a parameter ([AlembicProcess]),
    and so is where the files of the project lie. *)

From S2P Require Import Prelude PyStr Exceptions ValueObjects WebRequest LinkViews WebErrors Stats Config ConfigFactory ConfigTheorems Health Mail Operations Commands.

(** ** The child *)

Record Completed := MkCompleted { cp_returncode : Z; cp_stdout : pystr; cp_stderr : pystr }.

(** A process started: its arguments, its environment, where it runs. *)
Record Process := MkProcess { pr_args : list pystr; pr_env : Environ; pr_cwd : pystr }.
Class AlembicProcess := alembic_runs : list Process → Process → Completed.

(** [_project_root]: the first directory above the module or the working
    directory that holds [alembic.ini]. *)
Definition project_root (holds_ini : pystr → bool) (above_module above_cwd : list pystr) : option pystr :=
  first (filter (λ d, holds_ini d = true) (above_module ++ above_cwd)).

Definition answer (c : Completed) (empty : string) (both_streams : bool) : bool * pystr :=
  if negb (cp_returncode c =? 0) then
    (false, strip (lit "Error: " ++ match cp_stderr c with [] => cp_stdout c | text => text end))
  else if both_streams then
    (true, match strip (cp_stdout c ++ cp_stderr c) with [] => lit empty | text => text end)
  else (true, match cp_stdout c with [] => lit empty | text => text end).

(** [splitlines()]; a carriage return and the newline after it are one end. *)
Fixpoint splitlines (s : pystr) : list pystr :=
  match s with
  | [] => []
  | c :: s' =>
      if is_line_break c then
        [] :: match s' with
              | d :: s'' => if (c =? 13) && (d =? 10) then splitlines s'' else splitlines s'
              | [] => []
              end
      else match splitlines s' with [] => [[c]] | l :: ls => (c :: l) :: ls end
  end.

(** The first words of the lines that say a revision. *)
Definition revisions (silent : list string) (text : pystr) : list pystr :=
  remove_dups (omap (λ line, head (split_words [] line))
    (filter (λ line, strip line ≠ [] ∧ Forall (λ p, startswith (lit p) line = false) silent) (splitlines text))).

(** ** The commands *)

Inductive halt := Exit1 | Refused | NoProject | ConfigRaised (e : config_exn).
Record Terminal_state := MkTerminalState { ts_lines : list Line; ts_runs : list Process }.

Section migrations.
Context `{DecimalDigits} `{CaseFolding} `{Uppercase} `{DatabaseUrls} `{Babel} `{Dotenv} `{Terminal} `{AlembicProcess}.
Context (dep : Deployment) (p : Profile) (asked : option pystr) (env : Environ) (use_alembic : bool).
Context (root : option pystr) (str_config : config_error → pystr).
Abbreviation A := (M Terminal_state halt).

Definition tell (err : bool) (text : pystr) : A unit :=
  modify (λ s, MkTerminalState (ts_lines s ++ [MkLine err text]) (ts_runs s)).
Definition fail_with {B} (text : pystr) : A B := tell true text;; raise Exit1.

(** [_run_alembic]. *)
Definition child_env (database_url : pystr) : Environ :=
  match database_url with [] => delete HANDOFF_ENV_VAR env | _ => <[HANDOFF_ENV_VAR := database_url]> env end.
Definition run_alembic (args : list pystr) (database_url : pystr) : A Completed :=
  match root with
  | None => raise NoProject
  | Some cwd => λ s,
      let child := MkProcess args (child_env database_url) cwd in
      (Ok (alembic_runs (ts_runs s) child), MkTerminalState (ts_lines s) (ts_runs s ++ [child]))
  end.

Definition status_of (database_url : pystr) : A (bool * pystr) :=
  current ← run_alembic [lit "current"] database_url;
  let current := answer current "No migrations applied." false in
  if negb current.1 then mret current else
  heads ← run_alembic [lit "heads"] database_url;
  if negb (cp_returncode heads =? 0) then
    mret (true, current.2 ++ [10] ++ lit "Could not read the head revision, so whether anything is pending is unknown.")
  else
    let applied := revisions ["Database:"; "No migrations"] current.2 in
    let pending := filter (λ r, r ∉ applied) (revisions ["Database:"] (cp_stdout heads)) in
    mret (match pending, applied with
          | _ :: more, _ => (true, current.2 ++ [10] ++ lit "Behind: " ++ join (lit ", ") (sorted pending) ++ [32] ++
              (if decide (more = []) then lit "is" else lit "are") ++
              lit " on disk and not applied. Run 'flask alembic upgrade head'.")
          | [], [] => current
          | [], _ => (true, current.2 ++ [10] ++ lit "Up to date.")
          end).
Definition history_of (revision : option pystr) (database_url : pystr) : A (bool * pystr) :=
  done ← run_alembic ([lit "history"] ++ match revision with None | Some [] => [] | Some r => [lit "-r"; r] end) database_url;
  mret (answer done "No migration history." false).
Definition upgrade_to (target database_url : pystr) : A (bool * pystr) :=
  done ← run_alembic [lit "upgrade"; target] database_url; mret (answer done "Migrations applied." true).
Definition downgrade_to (target database_url : pystr) : A (bool * pystr) :=
  done ← run_alembic [lit "downgrade"; target] database_url; mret (answer done "Migrations rolled back." true).
Definition migrate_with (message database_url : pystr) : A (bool * pystr) :=
  done ← run_alembic [lit "revision"; lit "--autogenerate"; lit "-m"; message] database_url;
  mret (answer done "Migration created." false).

(** [_configured_database_url]; only a [ValueError] of the refusal is worded. *)
Definition raise_config {B} (e : config_exn) : A B := raise (ConfigRaised e).
Definition configured_database_url : A pystr :=
  match get_database_url dep p env with
  | Err e => raise_config e
  | Ok url =>
      if IGNORE_ENV p then mret url
      else match refuse_a_target_a_migration_should_not_touch p url asked env with
           | Ok _ => mret url
           | Err (ValueError e) => fail_with ([10] ++ str_config e)
           | Err e => raise_config e
           end
  end.
Definition echo_target : A pystr :=
  url ← configured_database_url;
  tell false (lit "Database: " ++ display_database_url dep p env);;
  mret url.

Definition ALEMBIC_DISABLED : pystr :=
  lit "USE_ALEMBIC is disabled. The schema is managed from the models -- use 'flask db init' to create it and 'flask db drop' to remove it.".
Definition require_alembic_enabled : A pystr := if use_alembic then echo_target else fail_with ALEMBIC_DISABLED.

Definition report_outcome (outcome : bool * pystr) : A unit :=
  tell (negb outcome.1) outcome.2;; if outcome.1 then mret tt else raise Exit1.

Definition alembic_status : A unit := url ← echo_target; outcome ← status_of url; report_outcome outcome.
Definition alembic_history (revision : option pystr) : A unit :=
  match revision with
  | Some r => if decide (strip r = [])
              then fail_with (lit "--revision was given an empty value. Leave the option out to show the whole history, or pass the revision you want.")
              else mret tt
  | None => mret tt
  end;;
  url ← echo_target; outcome ← history_of revision url; report_outcome outcome.
Definition alembic_upgrade (revision : pystr) : A unit :=
  url ← require_alembic_enabled; outcome ← upgrade_to revision url; report_outcome outcome.
Definition alembic_downgrade (revision : pystr) (yes : bool) : A unit :=
  url ← require_alembic_enabled;
  (if negb yes && bool_decide (revision ∈ [lit "base"; lit "-1"]) && negb (confirmed "drops every table in this database. Continue?")
   then raise Refused else mret tt);;
  outcome ← downgrade_to revision url; report_outcome outcome.
Definition alembic_migrate (message : pystr) : A unit :=
  url ← require_alembic_enabled; outcome ← migrate_with message url; report_outcome outcome.
(** [db migrate]: disabled, the target is not looked at. *)
Definition migrate_db : A unit :=
  if use_alembic then url ← echo_target; outcome ← upgrade_to (lit "head") url; report_outcome outcome
  else report_outcome (false, ALEMBIC_DISABLED).

Inductive MigrationCommand :=
| Status | History (revision : option pystr) | Upgrade (revision : pystr) | Downgrade (revision : pystr) (yes : bool)
| Migrate (message : pystr) | DbMigrate.
Definition run_command (c : MigrationCommand) : A unit :=
  match c with
  | Status => alembic_status
  | History revision => alembic_history revision
  | Upgrade revision => alembic_upgrade revision
  | Downgrade revision yes => alembic_downgrade revision yes
  | Migrate message => alembic_migrate message
  | DbMigrate => migrate_db
  end.
End migrations.

(** * Where a migration goes *)

Section reach.
Context `{DecimalDigits} `{CaseFolding} `{Uppercase} `{DatabaseUrls} `{Babel} `{Dotenv} `{Terminal} `{AlembicProcess}.
Context (dep : Deployment) (p : Profile) (asked : option pystr) (env : Environ) (use_alembic : bool).
Context (root : option pystr) (str_config : config_error → pystr).
Abbreviation A := (M Terminal_state halt).

(** Every process a program starts is of one kind. *)
Definition starts (K : Process → Prop) {B} (m : A B) : Prop := ∀ s, ∃ runs,
  ts_runs (m s).2 = ts_runs s ++ runs ∧ Forall K runs.

Lemma starts_none K {B} (m : A B) : (∀ s, ts_runs (m s).2 = ts_runs s) → starts K m.
Proof. intros Hm s. exists []. by rewrite app_nil_r. Qed.
Lemma starts_bind K {B D} (m : A B) (k : B → A D) :
  starts K m → (∀ a s s', m s = (Ok a, s') → starts K (k a)) → starts K (m ≫= k).
Proof.
  intros Hm Hk s. rewrite /mbind /M_bind. destruct (Hm s) as (r1 & Hr1 & HK1). destruct (m s) as [[a|x] s1] eqn:E; simpl in *.
  - destruct (Hk a s s1 E s1) as (r2 & Hr2 & HK2). exists (r1 ++ r2). rewrite Hr2 Hr1 app_assoc. split; [done|].
    by apply Forall_app_2.
  - by exists r1.
Qed.
Lemma starts_run (K : Process → Prop) args url : (∀ cwd, K (MkProcess args (child_env env url) cwd)) → starts K (run_alembic env root args url).
Proof.
  intros HK. rewrite /run_alembic. destruct root as [cwd|]; [|by apply starts_none].
  intros s. eexists [_]. split; [done|]. constructor; [apply HK|done].
Qed.
Lemma starts_tell K err text : starts K (tell err text).
Proof. by apply starts_none. Qed.
Lemma starts_report K outcome : starts K (report_outcome outcome).
Proof. apply starts_bind; [apply starts_tell|]. intros. destruct outcome.1; by apply starts_none. Qed.

(** The address that may be migrated. *)
Definition may_go (url : pystr) : Prop :=
  get_database_url dep p env = Ok url ∧
  (IGNORE_ENV p = false → refuse_a_target_a_migration_should_not_touch p url asked env = Ok tt).

Lemma configured_may_go s url s' : configured_database_url dep p asked env str_config s = (Ok url, s') → may_go url.
Proof.
  rewrite /configured_database_url /may_go. destruct (get_database_url dep p env) as [u|]; [|done].
  destruct (IGNORE_ENV p); [by intros [= <- _]|].
  destruct (refuse_a_target_a_migration_should_not_touch p u asked env) as [[]|[]] eqn:Hr; try done.
  intros [= <- _]. by split.
Qed.
Lemma target_may_go s url s' : echo_target dep p asked env str_config s = (Ok url, s') → may_go url.
Proof. intros (u & s1 & Hu & [= -> _])%bind_ok_inv. by apply configured_may_go in Hu. Qed.
Lemma enabled_may_go s url s' : require_alembic_enabled dep p asked env use_alembic str_config s = (Ok url, s') →
  use_alembic = true ∧ may_go url.
Proof. rewrite /require_alembic_enabled. destruct use_alembic; [|done]. by intros ?%target_may_go. Qed.

Lemma starts_target K : starts K (echo_target dep p asked env str_config).
Proof.
  apply starts_bind; [|intros; by apply starts_none]. apply starts_none. intros s. rewrite /configured_database_url.
  destruct (get_database_url dep p env); [|done]. destruct (IGNORE_ENV p); [done|].
  by destruct (refuse_a_target_a_migration_should_not_touch _ _ _ _) as [|[]].
Qed.
Lemma starts_enabled K : starts K (require_alembic_enabled dep p asked env use_alembic str_config).
Proof. rewrite /require_alembic_enabled. destruct use_alembic; [apply starts_target|by apply starts_none]. Qed.

Definition SCHEMA_COMMANDS : list pystr := [lit "upgrade"; lit "downgrade"; lit "revision"].
Definition WHOLE_SCHEMA : list pystr := [lit "base"; lit "-1"].

(** What a command may start. *)
Definition orderly (c : MigrationCommand) (child : Process) : Prop := ∃ url, may_go url ∧ pr_env child = child_env env url ∧
  (∀ verb, head (pr_args child) = Some verb → verb ∈ SCHEMA_COMMANDS → use_alembic = true) ∧
  (∀ target, pr_args child = [lit "downgrade"; target] → target ∈ WHOLE_SCHEMA →
     c = Downgrade target true ∨ confirmed "drops every table in this database. Continue?" = true).

Lemma orderly_starts c (verb : pystr) rest url : may_go url →
  (verb ∈ SCHEMA_COMMANDS → use_alembic = true) →
  (∀ target, verb :: rest = [lit "downgrade"; target] → target ∈ WHOLE_SCHEMA →
     c = Downgrade target true ∨ confirmed "drops every table in this database. Continue?" = true) →
  starts (orderly c) (run_alembic env root (verb :: rest) url).
Proof.
  intros Hm Hv Hw. apply starts_run. intros cwd. exists url. split_and!; [done|done| |done]. by intros v [= <-].
Qed.

Lemma command_is_orderly c : starts (orderly c) (run_command dep p asked env use_alembic root str_config c).
Proof.
  destruct c; simpl.
  - apply starts_bind; [apply starts_target|]. intros url s s' Hu%target_may_go.
    apply starts_bind; [|intros; apply starts_report]. rewrite /status_of.
    apply starts_bind; [apply orderly_starts; [done|set_solver|done]|]. intros done_ _ _ _. cbv zeta. destruct (negb _); [by apply starts_none|].
    apply starts_bind; [apply orderly_starts; [done|set_solver|done]|]. intros heads _ _ _. destruct (negb _); by apply starts_none.
  - apply starts_bind; [destruct revision; [case_decide|]; by apply starts_none|]. intros _ _ _ _.
    apply starts_bind; [apply starts_target|]. intros url s s' Hu%target_may_go.
    apply starts_bind; [|intros; apply starts_report]. apply starts_bind; [|intros; by apply starts_none].
    apply orderly_starts; [done|set_solver|done].
  - apply starts_bind; [apply starts_enabled|]. intros url s s' [Hon Hu]%enabled_may_go.
    apply starts_bind; [|intros; apply starts_report]. apply starts_bind; [|intros; by apply starts_none].
    by apply orderly_starts.
  - apply starts_bind; [apply starts_enabled|]. intros url s s' [Hon Hu]%enabled_may_go.
    apply starts_bind; [case_match; by apply starts_none|]. intros [] s1 s2 Hg.
    apply starts_bind; [|intros; apply starts_report]. apply starts_bind; [|intros; by apply starts_none].
    apply orderly_starts; [done..|]. intros target [= ->] Ht. revert Hg. rewrite (bool_decide_eq_true_2 _ Ht) andb_true_r.
    destruct yes; [by left|]. destruct (confirmed _); [by right|done].
  - apply starts_bind; [apply starts_enabled|]. intros url s s' [Hon Hu]%enabled_may_go.
    apply starts_bind; [|intros; apply starts_report]. apply starts_bind; [|intros; by apply starts_none].
    by apply orderly_starts.
  - rewrite /migrate_db. destruct use_alembic eqn:Hon; [|apply starts_report].
    apply starts_bind; [apply starts_target|]. intros url s s' Hu%target_may_go.
    apply starts_bind; [|intros; apply starts_report]. apply starts_bind; [|intros; by apply starts_none].
    by apply orderly_starts.
Qed.

Lemma child_finds_the_url url : is_unset (Some url) = false →
  resolve_database_url dep asked (child_env env url) = (Ok (normalise_backend (strip url)), child_env env url).
Proof.
  intros Hu. assert (child_env env url !! HANDOFF_ENV_VAR = Some url) as Hc.
  { destruct url as [|c url]; [done|]. by rewrite /child_env lookup_insert_eq. }
  by rewrite /resolve_database_url /mbind /M_bind /gets /handed_over_url Hc Hu.
Qed.

(** A migration started from the command line reaches the database the
    application is configured with and no other: every child process the
    commands start finds the configured address, which is one a migration may
    touch; the schema is changed only where Alembic manages it; and all of it
    is dropped only when the operator asked or agreed. *)
Theorem migrations_reach_the_configured_database c s r s' :
  run_command dep p asked env use_alembic root str_config c s = (r, s') →
  ∃ runs, ts_runs s' = ts_runs s ++ runs ∧ ∀ child, child ∈ runs → ∃ url, may_go url ∧
    (is_unset (Some url) = false →
       resolve_database_url dep asked (pr_env child) = (Ok (normalise_backend (strip url)), pr_env child)) ∧
    (∀ verb, head (pr_args child) = Some verb → verb ∈ SCHEMA_COMMANDS → use_alembic = true) ∧
    (∀ target, pr_args child = [lit "downgrade"; target] → target ∈ WHOLE_SCHEMA →
       c = Downgrade target true ∨ confirmed "drops every table in this database. Continue?" = true).
Proof.
  intros Hr. destruct (command_is_orderly c s) as (runs & Hl & HF). rewrite Hr /= in Hl. exists runs. split; [done|].
  intros child Hin. destruct (proj1 (list.Forall_forall _ _) HF child Hin) as (url & Hm & He & Hv & Hw).
  exists url. split_and!; [done| |done..]. rewrite He. apply child_finds_the_url.
Qed.
End reach.

(** ** A deployment upgrades its schema *)

Module MigrationDemo.
Import ConfigDemo.
#[local] Existing Instances ConfigDemo.folding digits uppercase babel plain_urls files.
#[local] Instance terminal : Terminal := {| prompt _ := None; confirmed _ := false |}.
#[local] Instance process : AlembicProcess := λ _ _, MkCompleted 0 (lit "done") [].

Definition go (c : MigrationCommand) : result halt unit * Terminal_state :=
  run_command dep Production None run.2 true (project_root (λ d, bool_decide (d = lit "/srv/app")) [lit "/lib"; lit "/"] [lit "/srv/app"])
    (λ _, []) c (MkTerminalState [] []).

Lemma migrations_reach_the_configured_database_witness : ∃ child,
  ts_runs (go (Upgrade (lit "head"))).2 = [child] ∧ pr_cwd child = lit "/srv/app" ∧
  resolve_database_url dep None (pr_env child) = (Ok (lit "postgresql+psycopg:pw"), pr_env child).
Proof.
  destruct (migrations_reach_the_configured_database dep Production None run.2 true
    (project_root (λ d, bool_decide (d = lit "/srv/app")) [lit "/lib"; lit "/"] [lit "/srv/app"]) (λ _, [])
    (Upgrade (lit "head")) (MkTerminalState [] []) (go (Upgrade (lit "head"))).1 (go (Upgrade (lit "head"))).2
    (surjective_pairing _)) as (runs & Hr & Hc).
  assert (∃ child, ts_runs (go (Upgrade (lit "head"))).2 = [child] ∧ pr_cwd child = lit "/srv/app") as (child & Hch & Hd)
    by (vm_compute; eexists; split; reflexivity).
  exists child. split; [exact Hch|]. split; [exact Hd|]. rewrite Hch in Hr. simpl in Hr. subst runs.
  destruct (Hc child ltac:(left)) as (url & [Hu _] & Hres & _).
  assert (get_database_url dep Production run.2 = Ok (lit "postgresql+psycopg:pw")) as Hg by (vm_compute; reflexivity).
  rewrite Hg in Hu. injection Hu as <-. rewrite (Hres ltac:(vm_compute; reflexivity)).
  vm_compute. reflexivity.
Defined.

(** Nobody agreed, so nothing was rolled back. *)
Example a_rollback_nobody_agreed_to_does_not_run :
  (go (Downgrade (lit "-1") false)).1 = Err Refused ∧ ts_runs (go (Downgrade (lit "-1") false)).2 = [].
Proof. vm_compute. split; reflexivity. Qed.
End MigrationDemo.
