(* ===== verification/Bootstrap.v ===== *)
(** * Setting up the journals

    [infrastructure/logging/bootstrap.py] with [logging_settings.py]: which
    handlers the root logger and the audit logger get, which journals could
    not be opened, and where a record then goes.  Of the [logging] module is
    modelled what the set-up relies on: a record below the level of its logger
    is dropped; it goes to the handlers of its logger whose level it reaches,
    and on to those of the root unless the logger does not propagate; a record
    that finds no handler at all is left to the last resort, which passes
    warnings to the error stream.  Whether a file opens is an argument. *)

From S2P Require Import Prelude PyStr Exceptions ValueObjects WebRequest LinkViews Stats Config ConfigFactory ConfigTheorems LoggingChain Journal.

(** ** Settings *)

Definition DEBUG_LEVEL : Z := 10.
Definition INFO : Z := 20.
Definition WARNING : Z := 30.
Definition ERROR_LEVEL : Z := 40.
Definition CRITICAL : Z := 50.

(** [getattr(logging, name, default)], of the names that are levels. *)
Definition level_named (name : pystr) (default_ : Z) : Z :=
  default default_ (snd <$> first (filter (λ l, l.1 = name)
    [(lit "DEBUG", DEBUG_LEVEL); (lit "INFO", INFO); (lit "WARNING", WARNING); (lit "WARN", WARNING);
     (lit "ERROR", ERROR_LEVEL); (lit "CRITICAL", CRITICAL); (lit "FATAL", CRITICAL); (lit "NOTSET", 0)])).

Record LoggingSettings := MkLoggingSettings {
  log_dir : pystr; log_file_name : pystr; audit_log_filename : pystr; error_log_filename : pystr;
  log_to_console : bool; log_to_file : bool; log_level_str : pystr;
  sqlalchemy_log_level : pystr; werkzeug_log_level : pystr; logger_type : pystr;
  logging_enabled : bool; audit_enabled : bool; raise_on_write_failure : bool;
}.
Definition get_log_level_int (s : LoggingSettings) : Z := level_named (log_level_str s) INFO.
Definition should_log_to_file (s : LoggingSettings) : bool := log_to_file s && bool_decide (log_dir s ≠ []).

(** [os.path.join] of a directory and a name that is not absolute. *)
Definition path_join (dir name : pystr) : pystr :=
  match dir with [] => name | _ => if endswith [SLASH] dir then dir ++ name else dir ++ [SLASH] ++ name end.
Definition journal_path (dir name : pystr) : pystr := path_join dir (name ++ lit ".log").
Definition log_file_path (s : LoggingSettings) : pystr := journal_path (log_dir s) (log_file_name s).

Section from_config.
Context `{DecimalDigits} `{CaseFolding} `{Uppercase}.
Definition logging_settings_from (dep : Deployment) (p : Profile) (env : Environ) (raise_on_write_failure : bool) : result config_exn LoggingSettings :=
  file ← LOG_FILENAME p env; audit ← AUDIT_LOG_FILENAME p env; error ← ERROR_LOG_FILENAME p env;
  console ← LOG_TO_CONSOLE p env; to_file ← LOG_TO_FILE p env; level ← LOG_LEVEL p env;
  sql ← SQLALCHEMY_LOG_LEVEL p env; werkzeug ← WERKZEUG_LOG_LEVEL p env; type ← LOGGER_TYPE p env;
  enabled ← LOGGING_ENABLED p env; audited ← AUDIT_ENABLED p env;
  Ok (MkLoggingSettings (LOG_DIR dep p env) file audit error console to_file (upper level) sql werkzeug type enabled audited raise_on_write_failure).
End from_config.

(** ** Loggers and handlers *)

Inductive Formatter := CONSOLE_TEXT | CONSOLE_RENDERER | JSON_LINES | JSON_RENDERER.
Inductive Handler :=
| ToConsole (level : Z) (raising : bool) (formatter : Formatter)
| ToFile (journal : Journal) (path : pystr) (level : Z) (raising : bool) (formatter : Formatter)
| NullHandler.
Definition handler_level (h : Handler) : Z :=
  match h with ToConsole level _ _ | ToFile _ _ level _ _ => level | NullHandler => 0 end.

Record Logger := MkLogger { lg_level : Z; lg_propagate : bool; lg_handlers : list Handler }.
Definition with_handlers (hs : list Handler) (l : Logger) : Logger := MkLogger (lg_level l) (lg_propagate l) hs.
Definition add_handler (h : Handler) (l : Logger) : Logger := with_handlers (lg_handlers l ++ [h]) l.
Definition set_level (n : Z) (l : Logger) : Logger := MkLogger n (lg_propagate l) (lg_handlers l).

(** What the process holds: the loggers, and the two lists of the module. *)
Record Logs := MkLogs {
  root_logger : Logger; audit_logger : Logger; sqlalchemy_level : Z; werkzeug_level : Z;
  opened : list pystr; unavailable : list JournalUnavailable;
}.
Definition on_root (f : Logger → Logger) (l : Logs) : Logs :=
  MkLogs (f (root_logger l)) (audit_logger l) (sqlalchemy_level l) (werkzeug_level l) (opened l) (unavailable l).
Definition on_audit (f : Logger → Logger) (l : Logs) : Logs :=
  MkLogs (root_logger l) (f (audit_logger l)) (sqlalchemy_level l) (werkzeug_level l) (opened l) (unavailable l).
Definition set_levels (sql werkzeug : Z) (l : Logs) : Logs :=
  MkLogs (root_logger l) (audit_logger l) sql werkzeug (opened l) (unavailable l).
Definition note_opened (j : pystr) (l : Logs) : Logs :=
  MkLogs (root_logger l) (audit_logger l) (sqlalchemy_level l) (werkzeug_level l) (opened l ++ [j]) (unavailable l).
Definition note_unavailable (u : JournalUnavailable) (l : Logs) : Logs :=
  MkLogs (root_logger l) (audit_logger l) (sqlalchemy_level l) (werkzeug_level l) (opened l) (unavailable l ++ [u]).

(** ** Setting up *)

Section setup.
Context `{CaseFolding} `{Uppercase} (s : LoggingSettings).
(** The reason a file does not open. *)
Context (refuses : pystr → option pystr).

Definition console_formatter : Formatter :=
  if decide (logger_type s = lit "standard") then CONSOLE_TEXT else CONSOLE_RENDERER.
Definition file_formatter : Formatter :=
  if decide (logger_type s = lit "standard") then JSON_LINES else JSON_RENDERER.
Definition console_handler (level : Z) : Handler := ToConsole level (raise_on_write_failure s) console_formatter.

Definition open_journal (j : Journal) (path : pystr) (level : Z) (l : Logs) : option Handler * Logs :=
  match refuses path with
  | Some reason => (None, note_unavailable (MkJournalUnavailable (journal_value j) reason) l)
  | None => (Some (ToFile j path level (raise_on_write_failure s) file_formatter), note_opened (journal_value j) l)
  end.

Definition journal_missing (j : Journal) (l : Logs) : bool :=
  existsb (λ u, bool_decide (ju_journal u = journal_value j)) (unavailable l).

Definition ensure_a_place_to_write (level : Z) (journals : list Journal) (l : Logs) (logger : Logger) : Logger :=
  match lg_handlers logger with
  | _ :: _ => logger
  | [] => if existsb (λ j, journal_missing j l) journals then add_handler (console_handler level) logger
          else add_handler NullHandler logger
  end.

Definition setup_console_handler (l : Logs) : Logs :=
  if negb (log_to_console s) then l else on_root (add_handler (console_handler (get_log_level_int s))) l.
Definition add_to (on : (Logger → Logger) → Logs → Logs) (opened : option Handler * Logs) : Logs :=
  match opened with (Some h, l) => on (add_handler h) l | (None, l) => l end.
Definition setup_file_handler (l : Logs) : Logs :=
  if negb (should_log_to_file s) then l
  else add_to on_root (open_journal APPLICATION (log_file_path s) (get_log_level_int s) l).
Definition setup_error_handler (l : Logs) : Logs :=
  if negb (should_log_to_file s) then l
  else add_to on_root (open_journal ERROR (journal_path (log_dir s) (error_log_filename s)) ERROR_LEVEL l).

Definition setup_audit_handler (l : Logs) : Logs :=
  if negb (audit_enabled s) then l else
  let l := on_audit (λ _, MkLogger INFO false []) l in
  let l := if log_to_console s then on_audit (add_handler (console_handler INFO)) l else l in
  let l := if should_log_to_file s
           then add_to on_audit (open_journal AUDIT (journal_path (log_dir s) (audit_log_filename s)) INFO l) else l in
  on_audit (ensure_a_place_to_write INFO [AUDIT] l) l.

Definition setup_root (l : Logs) : Logs :=
  let l := on_root (with_handlers []) l in
  if logging_enabled s then
    let l := setup_error_handler (setup_file_handler (setup_console_handler (on_root (set_level (get_log_level_int s)) l))) in
    on_root (ensure_a_place_to_write (get_log_level_int s) [APPLICATION; ERROR] l) l
  else on_root (λ r, add_handler NullHandler (set_level CRITICAL r)) l.

Definition setup_logging (l : Logs) : Logs :=
  let l := MkLogs (root_logger l) (audit_logger l) (sqlalchemy_level l) (werkzeug_level l) [] [] in
  let l := setup_root l in
  let l := if audit_enabled s then setup_audit_handler l
           else on_audit (λ a, add_handler NullHandler (MkLogger (lg_level a) false [])) l in
  if logging_enabled s
  then set_levels (level_named (upper (sqlalchemy_log_level s)) WARNING) (level_named (upper (werkzeug_log_level s)) WARNING) l
  else set_levels CRITICAL CRITICAL l.
End setup.

(** ** Where a record goes *)

(** To a logger of the application's own modules, which has no level and no
    handlers of its own; and to the audit logger, whose level is its own or
    else the root's. *)
Definition taken (level : Z) (hs : list Handler) : list Handler := filter (λ h, handler_level h <= level) hs.
Definition effective_level (logger root : Logger) : Z := if lg_level logger =? 0 then lg_level root else lg_level logger.

Inductive destination := Handled (h : Handler) | LastResort.
Definition reached (level : Z) (hs : list Handler) : list destination :=
  match hs with
  | [] => if WARNING <=? level then [LastResort] else []
  | _ => Handled <$> taken level hs
  end.
Definition log_record (level : Z) (l : Logs) : list destination :=
  if level <? lg_level (root_logger l) then [] else reached level (lg_handlers (root_logger l)).
Definition audit_record (level : Z) (l : Logs) : list destination :=
  if level <? effective_level (audit_logger l) (root_logger l) then []
  else reached level (lg_handlers (audit_logger l) ++ if lg_propagate (audit_logger l) then lg_handlers (root_logger l) else []).

(** * What is claimed of the journals *)

Section places.
Context `{CaseFolding} `{Uppercase} (s : LoggingSettings) (refuses : pystr → option pystr) (before : Logs).
Abbreviation after := (setup_logging s refuses before).

Definition audit_path : pystr := journal_path (log_dir s) (audit_log_filename s).
Definition error_path : pystr := journal_path (log_dir s) (error_log_filename s).

(** Two handlers of this process's own: the file of a journal, or the console. *)
Definition is_file (j : Journal) (path : pystr) (h : Handler) : Prop :=
  match h with ToFile j' path' _ _ _ => j' = j ∧ path' = path | _ => False end.
Definition is_console (h : Handler) : Prop := match h with ToConsole _ _ _ => True | _ => False end.
Definition named_unavailable (j : Journal) : Prop := ∃ reason, MkJournalUnavailable (journal_value j) reason ∈ unavailable after.

Lemma taken_handled h level hs : h ∈ hs → handler_level h <= level → Handled h ∈ reached level hs.
Proof.
  intros Hh Hl. rewrite /reached. destruct hs as [|h0 hs]; [by apply elem_of_nil in Hh|].
  apply list_elem_of_fmap_2, list_elem_of_filter. by split.
Qed.

Lemma missing_noted j reason l : journal_missing j (note_unavailable (MkJournalUnavailable (journal_value j) reason) l) = true.
Proof. rewrite /journal_missing existsb_app /= bool_decide_eq_true_2 // orb_true_r. done. Qed.

(** The audit logger after its set-up, with what became of its file. *)
Lemma audit_setup l : audit_enabled s = true →
  let l' := setup_audit_handler s refuses l in
  lg_level (audit_logger l') = INFO ∧ lg_propagate (audit_logger l') = false ∧
  Forall (λ h, is_console h ∨ is_file AUDIT audit_path h ∨ h = NullHandler) (lg_handlers (audit_logger l')) ∧
  (should_log_to_file s = true →
     match refuses audit_path with
     | None => ToFile AUDIT audit_path INFO (raise_on_write_failure s) (file_formatter s) ∈ lg_handlers (audit_logger l') ∧
               journal_value AUDIT ∈ opened l'
     | Some reason => console_handler s INFO ∈ lg_handlers (audit_logger l') ∧
               MkJournalUnavailable (journal_value AUDIT) reason ∈ unavailable l'
     end).
Proof.
  intros Ha. rewrite /setup_audit_handler Ha /= /open_journal -/audit_path.
  destruct (should_log_to_file s), (refuses audit_path) as [reason|], (log_to_console s).
  all: rewrite /add_to /ensure_a_place_to_write /= ?missing_noted /=.
  all: try destruct (journal_missing _ _); simpl.
  all: split_and!; [done|done|repeat constructor; simpl; tauto|intros Hf; try discriminate Hf].
  all: split; try (apply elem_of_app; right); repeat constructor.
Qed.

Lemma audit_keeps_root l : root_logger (setup_audit_handler s refuses l) = root_logger l.
Proof.
  rewrite /setup_audit_handler /open_journal. destruct (audit_enabled s), (log_to_console s), (should_log_to_file s); try done.
  all: by destruct (refuses _).
Qed.

(** The root logger after its set-up: a place for errors, and one for the
    rest when the application's own journal opened. *)
Lemma root_setup l : logging_enabled s = true → should_log_to_file s = true →
  let r := root_logger (setup_root s refuses l) in
  lg_level r = get_log_level_int s ∧
  (refuses (log_file_path s) = None →
     ToFile APPLICATION (log_file_path s) (get_log_level_int s) (raise_on_write_failure s) (file_formatter s) ∈ lg_handlers r) ∧
  (refuses error_path = None →
     ToFile ERROR error_path ERROR_LEVEL (raise_on_write_failure s) (file_formatter s) ∈ lg_handlers r) ∧
  (refuses (log_file_path s) ≠ None → refuses error_path ≠ None → console_handler s (get_log_level_int s) ∈ lg_handlers r).
Proof.
  intros He Hf. rewrite /setup_root He /setup_error_handler /setup_file_handler /setup_console_handler Hf /= /open_journal -/error_path.
  destruct (log_to_console s), (refuses (log_file_path s)) as [a|]; rewrite /add_to /=; destruct (refuses error_path) as [e|].
  all: rewrite /ensure_a_place_to_write /= ?missing_noted ?orb_true_r /=.
  all: split_and!; [done|intros Hx; try discriminate Hx..|intros Hx Hy; try by destruct Hx; try by destruct Hy].
  all: repeat constructor.
Qed.

(** Whatever file does not open, no error and no audit record is lost: where
    files are asked for, an audit record reaches the audit journal, or the
    console when that journal could not be opened and is named as such, and
    never another journal; and a record of an error that the configured level
    lets through reaches the error journal, the application's or the
    console. *)
Theorem no_error_and_no_audit_record_is_lost level : should_log_to_file s = true →
  (audit_enabled s = true → INFO <= level →
     (∃ h, Handled h ∈ audit_record level after ∧
       (is_file AUDIT audit_path h ∧ journal_value AUDIT ∈ opened after ∨ is_console h ∧ named_unavailable AUDIT)) ∧
     ∀ h, Handled h ∈ audit_record level after → is_console h ∨ is_file AUDIT audit_path h ∨ h = NullHandler) ∧
  (logging_enabled s = true → ERROR_LEVEL <= level → get_log_level_int s <= level →
     ∃ h, Handled h ∈ log_record level after ∧
       (is_file ERROR error_path h ∨ is_file APPLICATION (log_file_path s) h ∨ is_console h)).
Proof.
  intros Hf. set (l0 := setup_root s refuses (MkLogs (root_logger before) (audit_logger before) (sqlalchemy_level before) (werkzeug_level before) [] [])).
  split.
  - intros Ha Hl.
    assert (audit_logger after = audit_logger (setup_audit_handler s refuses l0) ∧
      opened after = opened (setup_audit_handler s refuses l0) ∧
      unavailable after = unavailable (setup_audit_handler s refuses l0)) as (Hlog & Ho & Hu).
    { rewrite /setup_logging Ha. by destruct (logging_enabled s). }
    destruct (audit_setup l0 Ha) as (Hlevel & Hprop & Hall & Hplace). specialize (Hplace Hf).
    rewrite /audit_record /named_unavailable /effective_level Hlog Hu Ho Hlevel Hprop app_nil_r /=.
    rewrite (proj2 (Z.ltb_ge level INFO) Hl). split.
    + destruct (refuses audit_path) as [reason|]; destruct Hplace as [Hh Hn]; eexists; (split; [by apply (taken_handled _ _ _ Hh)|]).
      * right. split; [done|by exists reason].
      * by left.
    + intros h. rewrite /reached. destruct (lg_handlers _) as [|x hs] eqn:E.
      { destruct (WARNING <=? level); [intros [=]%list_elem_of_singleton|intros []%elem_of_nil]. }
      intros (h' & [= <-] & [_ Hin]%list_elem_of_filter)%list_elem_of_fmap.
      by apply (proj1 (list.Forall_forall _ _) Hall).
  - intros He Hl1 Hl2.
    assert (root_logger after = root_logger l0) as Hlog.
    { rewrite /setup_logging He. destruct (audit_enabled s); [|done]. simpl. apply audit_keeps_root. }
    destruct (root_setup (MkLogs (root_logger before) (audit_logger before) (sqlalchemy_level before) (werkzeug_level before) [] []) He Hf)
      as (Hlevel & Happ & Herr & Hcon). fold l0 in Hlevel, Happ, Herr, Hcon.
    rewrite /log_record Hlog Hlevel (proj2 (Z.ltb_ge level _) Hl2).
    destruct (refuses error_path) as [e|]; [|eexists; split; [by apply (taken_handled _ _ _ (Herr eq_refl))|by left]].
    destruct (refuses (log_file_path s)) as [a|]; [|eexists; split; [by apply (taken_handled _ _ _ (Happ eq_refl))|by right; left]].
    eexists. split; [by apply (taken_handled _ level _ (Hcon ltac:(done) ltac:(done)))|by right; right].
Qed.
End places.

(** ** A deployment with its files *)

Module BootstrapDemo.
Import ConfigDemo.
#[local] Existing Instances ConfigDemo.folding digits uppercase.

Definition fresh_logs : Logs := MkLogs (MkLogger WARNING true []) (MkLogger 0 true []) 0 0 [] [].
Definition deployed_settings : LoggingSettings :=
  default (MkLoggingSettings [] [] [] [] false false [] [] [] [] false false false) (
    match logging_settings_from dep Production run.2 true with Ok s => Some s | Err _ => None end).
(** A directory lies where one file should be. *)
Definition in_the_way (path : pystr) : pystr → option pystr :=
  λ p, if decide (p = path) then Some (lit "Is a directory") else None.

Lemma no_error_and_no_audit_record_is_lost_witness :
  let after := setup_logging deployed_settings (in_the_way (audit_path deployed_settings)) fresh_logs in
  ∃ h, Handled h ∈ audit_record INFO after ∧ is_console h.
Proof.
  destruct (no_error_and_no_audit_record_is_lost deployed_settings (in_the_way (audit_path deployed_settings)) fresh_logs INFO
    ltac:(vm_compute; reflexivity)) as [Ha _].
  destruct (Ha ltac:(vm_compute; reflexivity) ltac:(vm_compute; discriminate)) as [(h & Hh & Hwhere) _].
  exists h. split; [exact Hh|]. destruct Hwhere as [[_ Ho]|[Hc _]]; [|exact Hc].
  exfalso. revert Ho. apply (bool_decide_unpack _). vm_compute. exact I.
Defined.

(** The other way round a line is lost: the error journal opened, so the root
    logger has a handler, and what is below an error has no place although the
    application's journal could not be opened and the level lets it through. *)
Example lines_below_an_error_can_be_lost :
  let after := setup_logging deployed_settings (in_the_way (log_file_path deployed_settings)) fresh_logs in
  lg_level (root_logger after) = INFO ∧ opened after = [lit "error"; lit "audit"] ∧
  ju_journal <$> unavailable after = [lit "application"] ∧
  log_record INFO after = [] ∧ log_record WARNING after = [].
Proof. vm_compute. repeat split. Qed.
End BootstrapDemo.
